(* ===== verification/_CoqProject ===== *)
-Q . S2P
Prelude.v
PyStr.v
PyDict.v
PyJson.v
Identity.v
Policies.v
AgentRegistry.v
Tasks.v
BudgetStore.v
RateLimit.v
AuditTrail.v
Sha256.v
WfRegistry.v
WfDag.v
WfExecutor.v
Evidence.v
MergeQueue.v
Assessment.v
AdmissionModels.v
AdmissionStore.v
AdmissionLife.v
AdmissionTheorems.v
OwnerBudget.v
OwnerBudgetLife.v
OwnerBudgetSafety.v
Tools.v
ToolRegistry.v
Calculator.v
JsonText.v
Llm.v
ToolDriver.v
Metered.v
OwnerTools.v
OwnerModels.v
OwnerService.v
OwnerTurns.v
OwnerLoop.v
Floats.v
IsoTime.v
LatticeModels.v
Reputation.v
Governance.v
LatticeGraph.v
LatticeMemory.v
LatticeLog.v
LatticeSqlite.v
LatticeStore.v
LatticeDurable.v
LatticeCommitted.v
LatticeBackends.v
LatticeFactory.v
LeaseInvariant.v
LatticeLeases.v
