(* ===== verification/Prelude.v ===== *)
(** * The Agency: a verification development

    The Agency is a Python agent platform ([src/agency/] of the repository).
    This library models the parts of it that decide: who may act, what is
    scheduled, what is counted against a quota, what is recorded, which
    workflow step runs, what may be merged and what a report may claim.  Each
    model is a translation of the Python source into executable definitions,
    and each file proves what makes its component correct.

    ** Files

    Foundations, which model the Python language and its standard library as
    far as the components use them:
    - [Prelude]: exceptions ([exn]), results, the state-and-exception monad
      [py S A] with its weakest-precondition calculus ([wp], [preserves], the
      tactics [run_py], [unfold_py], [py_step], the hint database [py]), abstract clocks ([Clock],
      [ClockLaws]), stable insertion sort ([sort_by] for [sorted]) and the
      counting lemmas behind the quota theorems;
    - [PyStr]: [str] methods, code-point order, UTF-8 length; [PyDict]:
      insertion-ordered dicts as association lists; [PyJson]: JSON values,
      [json.dumps(..., sort_keys=True)]; [Sha256]: SHA-256 of [hashlib].

    Kernel ([src/agency/kernel/]):
    - [Identity] ([identity.py], [ActionClass] of [policies.py]): trust
      levels, capabilities, agents;
    - [Policies] ([policies.py]): permissions, the glob-to-regex compiler with
      the matcher it feeds, file-system policies, [PolicyEngine.evaluate];
    - [AgentRegistry] ([registry.py]); [Tasks] ([tasks.py]): the table, the
      priority queue and the task life cycle;
    - [AuditTrail] ([audit.py]): the append-only log and the beta log's exclusive
      claim of a pending call.

    Telegram beta gateway ([src/agency/telegram/]):
    - [BudgetStore] ([budget_store.py]): the durable quota ledger; [RateLimit]
      ([rate_limit.py]): the in-process sliding window.

    Workflows ([src/agency/workflows/]):
    - [WfRegistry] ([registry.py], [recovery.py]): definitions, their DAG
      validation, run records and digests; [WfDag]: the graph theory of
      [_validate_dag] and of [topological_order]; [WfExecutor]
      ([executor.py]): [run], [run_recoverable], [resume], [reconcile].

    The owner pilot ([src/agency/admission/]), a service for one owner whose
    turns must run at most once:
    - [AdmissionModels] ([models.py], [auth.py]): principals, threads, requests
      and their checks;
    - [AdmissionStore] ([store.py]): the durable store, every operation under
      its SQLite outcome [sql_outcome] and the publication fence;
      [AdmissionLife]: runs of the store, their invariants, and how a row ages;
      [AdmissionTheorems]: the abstract machine of a turn and the refinement;
    - [OwnerBudget] ([budget.py]): the adapter that binds a claimed turn to a
      lease and counts its calls in the store and in the ledger of
      [BudgetStore]; [OwnerBudgetLife]: its runs move the two parts only by
      their own operations; [OwnerBudgetSafety]: what it grants.

    Tools ([src/agency/tools/]):
    - [Tools] ([base.py], [admission/policy.py], schemas of [registry.py]):
      specifications, argument schemas, policies, and the interface
      [OwnerGate] with its laws [OwnerGateLaws], by which the registry sees the
      owner's budget;
    - [ToolRegistry] ([registry.py]): calls behind validation, policy, owner,
      intent and outcome gates; [OwnerTools]: the budget is an instance of the
      interface, so a turn's tool calls are bounded end to end;
    - [Calculator] ([builtin/calculator.py], [builtin/utc_time.py]): the bounded
      evaluator and the clock tool;
    - [JsonText]: [json.loads] with the object search of [driver.py];
      [ToolDriver] ([driver.py]): the JSON protocol loop between a model and the
      registry.

    Models ([src/agency/llm/]):
    - [Llm] ([config.py], [adapter.py], [router.py]): configuration, the
      providers' requests and answers, the owner's frozen dispatch, routing;
    - [Metered] ([metered.py]): the model bound to one admitted request, proved
      against the interface [ModelBudget] with its laws [ModelBudgetLaws];
      [OwnerModels]: the owner's budget is an instance.

    The owner's gateway:
    - [OwnerService] ([admission/service.py], with the turn's way through
      [butler/service.py] and [orchestrator.py]): start, submission, execution,
      cancellation and stop over the store, the budget, the log and the metered
      model; [OwnerTurns]: what it guarantees; [OwnerLoop]: the same with the
      modelled tool loop inside, so that nothing is assumed of it.

    The lattice ([src/agency/lattice/]), the agents' shared graph, its event log
    and its votes:
    - [Floats]: bounds of binary64 sums and quotients; [IsoTime]: the calendar
      and [isoformat], which [fromisoformat] reads back;
    - [LatticeModels] ([models.py]): events, votes, reputations, proposals, with
      [to_dict] and [from_dict]; [Reputation] ([reputation.py]) and [Governance]
      ([governance.py]): the two engines over an arbitrary backend, the sections
      under their locks as the steps that interleave;
    - [LatticeGraph]: the searches of both backends; [LatticeMemory]
      ([api.py]): the in-memory backend; [LatticeLog]: its log and its searches;
    - [LatticeSqlite] ([backends/sqlite.py]): the SQLite backend, with a fate for
      every statement; [LatticeStore]: a proof rule for invariants of the
      transaction and the disk, which takes one law per statement ([Laws]);
      [LatticeDurable], [LatticeCommitted]: what the rule gives;
      [LatticeBackends]: the backends' searches agree;
    - [LatticeFactory] ([factory.py]): the lease manager of the process's one
      lattice, an event per section between awaits; [LeaseInvariant]: what holds
      in and between the sections; [LatticeLeases]: what leases guarantee.

    Claims about work:
    - [Evidence] ([evidence/levels.py]), [MergeQueue]
      ([forge/merge_queue.py]), [Assessment] ([agents/assessment.py]).

    The parts meet where the code's do: [AgentRegistry] and [Policies] share
    [Identity.Agent], so that revoking in the registry is proved to stop the
    engine; [WfExecutor] runs over the state of [WfRegistry] and the order of
    [WfDag]; [Assessment] binds outputs by [Sha256]; [OwnerBudget] runs over
    [AdmissionStore] and [BudgetStore], whose invariants carry over to it;
    [ToolRegistry] and [Metered] write their intents and outcomes to the log of
    [AuditTrail]; [ToolDriver] calls [ToolRegistry]; [OwnerService] runs them
    all on one state.

    ** How the code is represented

    - State is a record per object, an operation is a function in [py S], and
      an exception is [Err e] together with the state at the raise.  An
      operation under a lock is one step.  Where a coroutine awaits
      ([asyncio.to_thread] in [BudgetStore]), the argument [others] is what
      the other coroutines did to the object by the time it resumes; the theorems
      hold for every [others].  Where an operation awaits many times ([OwnerBudget],
      [ToolRegistry]) the surroundings are streams indexed by the number of
      awaits so far: SQLite's outcomes, clocks, generated ids, cancellations and
      what the others do ([outside], [w_others], [w_log], [w_world],
      [w_meanwhile]).  What may happen there is stated by frames: a relation
      that every step of the others and of the operation keeps to ([moves],
      the class [OwnerBudgetLife.Framed], [OwnerTurns.kept]).
    - SQL tables are lists of rows (in rowid order) or finite maps by primary
      key; a statement is the function it computes.  [BudgetStore.transaction]
      has the code's BEGIN, COMMIT and ROLLBACK; the flag [io] is an SQLite or
      OS error.  [AuditTrail.query] takes the order in which SQLite scans the rows
      as a parameter, a permutation.  JSON columns hold JSON values, with the
      effect of the round trip (sorted keys) written out.
    - Clocks are readings handed to the operation: [None] is a clock that
      raised or returned no number.  [BudgetStore] and [RateLimit] are
      polymorphic in the time type, of which only an order and [minus] are
      assumed ([Clock]), with the integers as the instance of the witnesses;
      [Policies] and [Identity] use aware and naive [datetime]s in
      microseconds, with [TypeError] for mixed comparisons.
    - Workflow operations are functions of the inputs, the previous outputs and
      an arbitrary world, which may raise; the ghost list [invoked] remembers
      the calls.  [commits] is the number of commits that still succeed: with none left
      every later one fails, so a crash between any two commits is a run of the
      model; the file
      lock of [RecoverableLock] is the argument [held].
    - Strings are lists of 8-bit characters, read as Latin-1 code points.
    - The connection of [LatticeSqlite] has what its transaction sees and what is
      committed; a statement is done, fails, or is done while its caller is
      cancelled ([fate]), and the process may die at any step, which leaves what
      is committed.
    - Scores of [Assessment], the floats of [Calculator] and [Llm] and the scores
      and weights of the lattice are IEEE binary64 ([spec_float]); [float()], [int()] and [repr] of floats are
      arguments.
    - The HTTP exchange ([post]), [urlsplit], the environment, [ast.parse] and
      the tools' bodies are arguments.

    ** What the theorems show

    Theorems numbered C<n> are the properties of the development.
    Theorems without a number are as much part of it.
    - Authorization: [Policies.evaluate_spec] refines the contract
      [authorized]; [matches_scope_denotes]; [revocation_is_final].
    - Scheduling: the queue invariant ([reachable_manager_ok]), priority and
      FIFO order ([take_next_spec], [drain_schedules_in_order]), history.
    - Quotas: windows are never overrun, as long as a bot's clock is never more
      than a day behind what another bot read before, since every transaction
      prunes the rows of all bots ([quotas_never_exceeded], [prune_crosses_bots]; [limiter_window] for
      any clock), the life of a reservation
      and its capability ([reservation_life], [model_call_needs_owner]).
    - Audit: append-only, round trip, queries, at most one call in flight.
    - Workflows: acyclicity and order ([validate_dag_iff],
      [topological_order_spec]), immutable versions, fail-closed runs, replay
      and crash marking.
    - Owner turns: the store refines the machine of a turn
      ([operations_refine_machine]); the transcript is the committed turns;
      retries are answered with the same turn ([admission_idempotent]); a turn
      is claimed at most once and never after a restart; the fence stops
      publication; recovery settles what a crash left.
    - Owner calls: [owner_calls_bounded], [ended_lease_grants_nothing],
      [one_lease_per_turn]; tool bodies run only through the gates
      ([strict_call_gated]), never once suspended, and at most four a turn
      ([owner_tools_bounded]); the same of model calls, each of which is
      announced before it is sent and settled or left open for ever after
      ([model_calls_bounded], [dispatch_accounted], [uncertain_call_stays_open],
      [pending_blocks_dispatch]).
    - The gateway: an execution settles its turn or blocks the gateway, and one
      whose task is cancelled before its first step leaves the turn to the next
      recovery ([turn_settles]); a turn is completed only as this run staged it,
      over a log that has the gateway's result and a gateway found certain
      ([turn_completion_gated]); over an uncertainty no task is made and no turn
      admitted ([uncertainty_starts_nothing]), and no turn is started twice ([resubmission_starts_nothing]).
    - The tool loop ends and reports what ran ([run_terminates],
      [run_reports_what_ran], [extract_dumped]); the calculator answers
      and fails exactly as a big-step semantics says ([compute_typed]); the
      owner's text goes to one safe endpoint ([owner_text_bound]); a routed
      request is answered by the named provider or raises, never by another
      ([provider_is_constraint], [private_stays_local]).
    - The lattice: ballots and statuses are justified in every interleaving
      ([ballots_decide], [resolution_is_final], [cast_vote_spec]), and every
      interleaving of operations is one of sections ([calls_are_steps]); scores
      stay in the unit interval under rounding ([scores_bounded]).  The graph of
      either backend is what its event log replays to ([memory_graph_is_log],
      [committed_graph_is_log]); on disk rows refer to rows, the log only grows
      and resolutions are final whatever fails ([committed_log_grows],
      [committed_resolution_is_final]); rows refer to rows as long as every
      connection checks foreign keys, which a failed PRAGMA prevents
      ([rows_refer_to_rows], [dangling_edge]); the searches of
      the two backends agree ([traversals_agree], [paths_agree]).  A lease holds
      its lattice open ([leased_lattice_is_open]), no call of the lease manager is
      stuck ([suspended_calls_finish]) and an idle one can be reset
      ([idle_factory_resets]).
    - Merging and reporting: [evaluate_merge_spec], [assessment_never_passed],
      [assessment_is_bound].

    ** Fuel and bounds

    [WfRegistry.visit] recurses with fuel one more than the number of steps: a
    depth-first path repeats no node, and [validate_dag_iff] shows the answer is
    exact.
    [WfDag.kahn] has the number of steps as fuel, one round per step
    ([topological_order_spec]).
    [Tasks.drain] has the length of the queue.  [PyJson.digits_of] has
    the bit length of the number and [Sha256.chunks] the length of the list,
    both at least the number of rounds.  [ToolDriver.loop] has [rounds], two per
    tool call and two more ([run_terminates]).  [JsonText] counts down the
    interpreter's recursion limit, an argument, and the members of a container
    by the length of the text.  The queues of [LatticeGraph] have a node of fuel
    per end of an edge ([search_fuel]) and the recursive query one per node and
    depth ([rows_fuel]); [traverse_from_spec], [path_from_queue_levels] and
    [select_reachable_spec] show that they end.

    ** What is not modelled

    SQLite, the file system, threads and the network, beyond the outcomes
    above; what others do between the call of an awaited operation and its
    effect, as opposed to before the call or after the effect
    ([BudgetStore.to_thread], [OwnerBudget.wait], [ToolRegistry.awaiting],
    [OwnerService.waiting]); the compensated [sum] of CPython 3.12
    ([Floats.fsum] adds from left to right, as 3.11 does); logging; messages of exceptions; Pydantic and uuid (defaults and
    fresh ids are arguments); arguments of a wrong Python type where the code
    only raises [TypeError]; strings beyond Latin-1; a mutation by reflection of
    frozen records during a call; in [LatticeSqlite] a statement of another
    coroutine between those of one query, which takes no lock, so the answers of
    [find_path] and the status queries are those without a concurrent writer;
    in the lattice [json_extract], whose effect is an argument, and the
    sharing of a caller's dicts with a backend's; the calls the facade [Lattice] of
    [api.py] forwards to its backend, and the order in which [asyncio.Lock] serves its
    waiters; the assembly of a thread's context and the
    web search, which are arguments of [OwnerLoop].  The other
    packages of the repository are glue, prompts, providers and front ends, or
    are not modelled yet. *)
From Stdlib Require Export ZArith Lia.
From stdpp Require Export base tactics option list list_numbers gmap sets strings fin_maps relations sorting.

(** ** Python exceptions and results *)

(** The exception classes the modelled code raises or catches.  Messages are
    not modelled, except the fields of [PilotError], which callers read. *)
Inductive exn : Type :=
| ValueError
| TypeError
| KeyError
| RuntimeError
| OverflowError
| IntegrityError   (* sqlite3.IntegrityError *)
| SqliteError      (* any other sqlite3.Error, or an OSError of the store *)
| BudgetUnavailable
| PilotError (code : string) (status_code : Z) (uncertain : bool)
| CallbackError (name : string) (* an exception raised by injected code, by type name *).

#[export] Instance exn_eq_dec : EqDecision exn.
Proof. solve_decision. Defined.

(** [asyncio.CancelledError], which [except Exception] does not catch. *)
Definition CancelledError : exn := CallbackError "CancelledError".

Inductive result (A : Type) : Type :=
| Ok (a : A)
| Err (e : exn).
Arguments Ok {A} _.
Arguments Err {A} _.

#[export] Instance result_eq_dec `{EqDecision A} : EqDecision (result A).
Proof. solve_decision. Defined.

#[export] Instance result_ret : MRet result := fun A => Ok.
#[export] Instance result_bind : MBind result := fun A B f m =>
  match m with Ok a => f a | Err e => Err e end.

(** [guard b e]: raise [e] when [b] holds (the code's [if b: raise e]). *)
Definition raise_if (b : bool) (e : exn) : result unit := if b then Err e else Ok tt.

Lemma raise_if_ok b e : raise_if b e = Ok tt <-> b = false.
Proof. destruct b; naive_solver. Qed.

Lemma result_bind_ok {A B} (f : A -> result B) (m : result A) b :
  m ≫= f = Ok b <-> exists a, m = Ok a /\ f a = Ok b.
Proof. destruct m as [a|e]; cbn; naive_solver. Qed.

(** ** State and exceptions

    A Python operation on an object whose state is [S].  An exception does not
    undo the writes made before it: the state survives in both outcomes. *)
Definition py (S A : Type) : Type := S -> result A * S.

#[export] Instance py_ret {S} : MRet (py S) := fun A a s => (Ok a, s).
#[export] Instance py_bind {S} : MBind (py S) := fun A B f m s =>
  match m s with
  | (Ok a, s') => f a s'
  | (Err e, s') => (Err e, s')
  end.

Definition raise {S A} (e : exn) : py S A := fun s => (Err e, s).
Definition get {S} : py S S := fun s => (Ok s, s).
Definition gets {S A} (f : S -> A) : py S A := fun s => (Ok (f s), s).
Definition modify {S} (f : S -> S) : py S unit := fun s => (Ok tt, f s).
Definition lift {S A} (r : result A) : py S A := fun s => (r, s).
Definition raise_when {S} (b : bool) (e : exn) : py S unit := lift (raise_if b e).

(** [try: m except ...: handler], which keeps the writes made before the raise. *)
Definition catch {S A} (m : py S A) (handler : exn -> py S A) : py S A := fun s =>
  match m s with
  | (Ok a, s') => (Ok a, s')
  | (Err e, s') => handler e s'
  end.

(** [try: m except Exception: handler] *)
Definition catch_exception {S A} (m : py S A) (handler : exn -> py S A) : py S A :=
  catch m (fun e => if bool_decide (e = CancelledError) then raise e else handler e).

(** [f(x) for x in l], stopping at the first exception. *)
Fixpoint for_each {S A B} (f : A -> py S B) (l : list A) : py S (list B) :=
  match l with
  | [] => mret []
  | x :: l' => y ← f x; ys ← for_each f l'; mret (y :: ys)
  end.

(** Weakest precondition: [Q] of the value and state on return, [E] of the
    exception and state on a raise. *)
Definition wp {S A} (m : py S A) (Q : A -> S -> Prop) (E : exn -> S -> Prop) (s : S) : Prop :=
  match m s with
  | (Ok a, s') => Q a s'
  | (Err e, s') => E e s'
  end.

(** [preserves I m]: [m] keeps [I], whether it returns or raises. *)
Definition preserves {S A} (I : S -> Prop) (m : py S A) : Prop :=
  forall s, I s -> wp m (fun _ => I) (fun _ => I) s.

Section Wp.
Context {S : Type}.
Implicit Types (s : S).

Lemma wp_ret {A} (a : A) Q E s : Q a s -> wp (S:=S) (mret a) Q E s.
Proof. done. Qed.

Lemma wp_bind {A B} (m : py S A) (f : A -> py S B) Q E s :
  wp m (fun a => wp (f a) Q E) E s -> wp (m ≫= f) Q E s.
Proof. unfold wp, mbind, py_bind. by destruct (m s) as [[a|e] s']. Qed.

Lemma wp_raise {A} e (Q : A -> S -> Prop) E s : E e s -> wp (raise e) Q E s.
Proof. done. Qed.

Lemma wp_gets {A} (f : S -> A) Q E s : Q (f s) s -> wp (gets f) Q E s.
Proof. done. Qed.

Lemma wp_modify (f : S -> S) Q E s : Q tt (f s) -> wp (modify f) Q E s.
Proof. done. Qed.

Lemma wp_lift {A} (r : result A) Q E s :
  (forall a, r = Ok a -> Q a s) -> (forall e, r = Err e -> E e s) -> wp (lift r) Q E s.
Proof. unfold wp, lift. destruct r; auto. Qed.

Lemma wp_raise_when b e Q E s :
  (b = true -> E e s) -> (b = false -> Q tt s) -> wp (raise_when b e) Q E s.
Proof. destruct b; cbv; auto. Qed.

Lemma wp_mono {A} (m : py S A) (Q Q' : A -> S -> Prop) (E E' : exn -> S -> Prop) s :
  (forall a s', Q a s' -> Q' a s') -> (forall e s', E e s' -> E' e s') ->
  wp m Q E s -> wp m Q' E' s.
Proof. unfold wp. destruct (m s) as [[a|e] s']; auto. Qed.

Lemma wp_elim {A} (m : py S A) Q E s r s' :
  wp m Q E s -> m s = (r, s') ->
  match r with Ok a => Q a s' | Err e => E e s' end.
Proof. unfold wp. intros H Hm. by rewrite Hm in H. Qed.

(** One step of a sequence. *)
Lemma bind_lift {A B} (r : result A) (f : A -> py S B) s :
  (lift r ≫= f) s = match r with Ok a => f a s | Err e => (Err e, s) end.
Proof. by destruct r. Qed.

Lemma bind_lift_ok {A B} (r : result A) a (f : A -> py S B) s : r = Ok a -> (lift r ≫= f) s = f a s.
Proof. by intros ->. Qed.

Lemma bind_raise_when {B} b e (f : unit -> py S B) s :
  (raise_when b e ≫= f) s = if b then (Err e, s) else f tt s.
Proof. by destruct b. Qed.

Lemma bind_gets {A B} (g : S -> A) (f : A -> py S B) s : (gets g ≫= f) s = f (g s) s.
Proof. done. Qed.

Lemma bind_run {A B} (m : py S A) (f : A -> py S B) s :
  (m ≫= f) s = match m s with (Ok a, s') => f a s' | (Err e, s') => (Err e, s') end.
Proof. done. Qed.

(** What a run that returns went through. *)
Lemma py_bind_ok {A B} (m : py S A) (f : A -> py S B) s b s' :
  (m ≫= f) s = (Ok b, s') <-> exists a s1, m s = (Ok a, s1) /\ f a s1 = (Ok b, s').
Proof.
  unfold mbind, py_bind. destruct (m s) as [[a|e] s1]; [|naive_solver].
  split; [intros H; by exists a, s1|intros (? & ? & [= <- <-] & H); done].
Qed.

Lemma py_bind_cases {A B} (m : py S A) (f : A -> py S B) s r s' :
  (m ≫= f) s = (r, s') ->
  (exists e, m s = (Err e, s') /\ r = Err e) \/ (exists a s1, m s = (Ok a, s1) /\ f a s1 = (r, s')).
Proof.
  unfold mbind, py_bind. destruct (m s) as [[a|e] s1]; [intros H; right; by exists a, s1|intros [= <- <-]; left; by exists e].
Qed.

Lemma catch_cases {A} (m : py S A) h s r s' :
  catch m h s = (r, s') ->
  (exists a, m s = (Ok a, s') /\ r = Ok a) \/ (exists e s1, m s = (Err e, s1) /\ h e s1 = (r, s')).
Proof. unfold catch. destruct (m s) as [[a|e] s1]; [intros [= <- <-]; left; by exists a|right; by exists e, s1]. Qed.

Lemma lift_ok {A} (r : result A) s a s' : lift r s = (Ok a, s') <-> r = Ok a /\ s' = s.
Proof. unfold lift. split; [by intros [= -> ->]|by intros [-> ->]]. Qed.

Lemma raise_when_ok b e s a s' : raise_when b e s = (Ok a, s') <-> b = false /\ s' = s.
Proof. unfold raise_when, lift, raise_if. destruct a, b; naive_solver. Qed.

Lemma wp_preserves {A} (I : S -> Prop) (m : py S A) (Q : A -> S -> Prop) (E : exn -> S -> Prop) s :
  preserves I m -> I s -> (forall e s', I s' -> E e s') -> (forall a s', m s = (Ok a, s') -> I s' -> Q a s') -> wp m Q E s.
Proof. intros Hm Hs He Hq. specialize (Hm s Hs). unfold wp in *. destruct (m s) as [[a|e] s']; auto. Qed.

Lemma preserves_run {A} (I : S -> Prop) (m : py S A) s : preserves I m -> I s -> I (m s).2.
Proof. intros H HI. specialize (H s HI). unfold wp in H. by destruct (m s) as [[]]. Qed.

Lemma preserves_snd {A} (I : S -> Prop) (m : py S A) : (forall s, I s -> I (m s).2) -> preserves I m.
Proof. intros H s HI. specialize (H s HI). unfold wp. by destruct (m s) as [[]]. Qed.

Lemma preserves_ret {A} (I : S -> Prop) (a : A) : preserves I (mret a).
Proof. by intros s HI. Qed.

Lemma preserves_raise {A} (I : S -> Prop) e : preserves I (raise (A:=A) e).
Proof. by intros s HI. Qed.

Lemma preserves_lift {A} (I : S -> Prop) (r : result A) : preserves I (lift r).
Proof. intros s HI. by apply wp_lift. Qed.

Lemma preserves_gets {A} (I : S -> Prop) (f : S -> A) : preserves I (gets f).
Proof. by intros s HI. Qed.

Lemma preserves_bind {A B} (I : S -> Prop) (m : py S A) (f : A -> py S B) :
  preserves I m -> (forall a, preserves I (f a)) -> preserves I (m ≫= f).
Proof.
  intros Hm Hf s HI. apply wp_bind. eapply wp_mono; [| |by apply Hm]; [|done].
  intros a s' HI'. by apply Hf.
Qed.

Lemma preserves_modify (I : S -> Prop) f : (forall s, I s -> I (f s)) -> preserves I (modify f).
Proof. intros H s HI. by apply H. Qed.

Lemma preserves_catch {A} (I : S -> Prop) (m : py S A) h :
  preserves I m -> (forall e, preserves I (h e)) -> preserves I (catch m h).
Proof.
  intros Hm Hh s HI. specialize (Hm s HI). unfold wp, catch in *. destruct (m s) as [[a|e] s']; [done|]. by apply Hh.
Qed.

Lemma preserves_catch_exception {A} (I : S -> Prop) (m : py S A) h :
  preserves I m -> (forall e, preserves I (h e)) -> preserves I (catch_exception m h).
Proof. intros Hm Hh. apply preserves_catch; [done|]. intros e. destruct (bool_decide _); [apply preserves_raise|apply Hh]. Qed.

Lemma preserves_if {A} (I : S -> Prop) (b : bool) (m n : py S A) :
  preserves I m -> preserves I n -> preserves I (if b then m else n).
Proof. by destruct b. Qed.
End Wp.

Create HintDb py discriminated.
#[export] Hint Resolve preserves_ret preserves_raise preserves_lift preserves_gets
  preserves_if : py.

(** ** Reachability *)

Lemma rtc_invariant {A} (R : relation A) (I : A -> Prop) x y :
  (forall a b, R a b -> I a -> I b) -> rtc R x y -> I x -> I y.
Proof. intros HR H. induction H; eauto. Qed.

(** ** Clocks

    [time.time()] and the other float clocks of the code are IEEE doubles.  The
    code compares them and adds or subtracts constants, so the model takes any
    type with those operations; the laws are the ones rounding keeps on finite
    doubles (comparison is a strict weak order, and adding or subtracting a
    constant never inverts an order).  [Z] is the instance used by examples. *)
Class Clock (T : Type) := {
  t_lt : T -> T -> bool;
  t_add : T -> Z -> T;
  t_sub : T -> Z -> T;
  t_finite : T -> bool;   (* math.isfinite *)
  t_nonneg : T -> bool;   (* 0 <= t *)
  t_pos : T -> bool;      (* 0 < t *)
}.

Definition t_le {T} `{Clock T} (a b : T) : bool := negb (t_lt b a).
Definition t_eq {T} `{Clock T} (a b : T) : bool := t_le a b && t_le b a.

Class ClockLaws (T : Type) `{Clock T} : Prop := {
  t_lt_irrefl : forall a, t_lt a a = false;
  t_lt_trans : forall a b c, t_lt a b = true -> t_lt b c = true -> t_lt a c = true;
  t_le_trans : forall a b c, t_le a b = true -> t_le b c = true -> t_le a c = true;
  t_sub_mono : forall a b d, t_le a b = true -> t_le (t_sub a d) (t_sub b d) = true;
  t_add_mono : forall a b d, t_le a b = true -> t_le (t_add a d) (t_add b d) = true;
  t_sub_anti : forall a d d', (d <= d')%Z -> t_le (t_sub a d') (t_sub a d) = true;
}.

#[export] Instance clock_Z : Clock Z := {|
  t_lt := Z.ltb; t_add := Z.add; t_sub := Z.sub; t_finite _ := true; t_nonneg := Z.leb 0; t_pos := Z.ltb 0 |}.
#[export] Instance clock_laws_Z : ClockLaws Z.
Proof. split; unfold t_le; cbn; intros; lia. Qed.

Section ClockFacts.
Context {T} `{ClockLaws T}.
Implicit Types a b c : T.

Lemma t_le_refl a : t_le a a = true.
Proof. unfold t_le. by rewrite t_lt_irrefl. Qed.

Lemma t_lt_le a b : t_lt a b = true -> t_le a b = true.
Proof.
  intros Hab. unfold t_le. destruct (t_lt b a) eqn:Hba; [|done].
  pose proof (t_lt_trans _ _ _ Hab Hba) as Haa. by rewrite t_lt_irrefl in Haa.
Qed.

Lemma t_le_total a b : t_le a b = true \/ t_le b a = true.
Proof.
  destruct (t_lt b a) eqn:Hba; [right; by apply t_lt_le|left; unfold t_le; by rewrite Hba].
Qed.

Lemma t_nle_lt a b : t_le a b = false <-> t_lt b a = true.
Proof. unfold t_le. by destruct (t_lt b a). Qed.

Lemma t_nlt_le a b : t_lt a b = false <-> t_le b a = true.
Proof. unfold t_le. by destruct (t_lt a b). Qed.

Lemma t_le_lt_trans a b c : t_le a b = true -> t_lt b c = true -> t_lt a c = true.
Proof.
  intros Hab Hbc. destruct (t_lt a c) eqn:Hac; [done|].
  apply t_nlt_le in Hac. pose proof (t_le_trans _ _ _ Hac Hab) as Hcb.
  unfold t_le in Hcb. by rewrite Hbc in Hcb.
Qed.

Lemma t_lt_le_trans a b c : t_lt a b = true -> t_le b c = true -> t_lt a c = true.
Proof.
  intros Hab Hbc. destruct (t_lt a c) eqn:Hac; [done|].
  apply t_nlt_le in Hac. pose proof (t_le_trans _ _ _ Hbc Hac) as Hba.
  unfold t_le in Hba. by rewrite Hab in Hba.
Qed.
End ClockFacts.

#[export] Hint Resolve t_le_refl t_lt_le : py.

(** ** Lists *)

Section Lists.
Context {A : Type}.
Implicit Types (l k : list A) (p q : A -> bool).

(** Stable sort by a boolean preorder ([sorted(key=...)]). *)
Fixpoint insert_by (le : A -> A -> bool) (x : A) (l : list A) : list A :=
  match l with
  | [] => [x]
  | y :: l' => if le x y then x :: y :: l' else y :: insert_by le x l'
  end.

Fixpoint sort_by (le : A -> A -> bool) (l : list A) : list A :=
  match l with
  | [] => []
  | x :: l' => insert_by le x (sort_by le l')
  end.

Lemma insert_by_perm le x l : insert_by le x l ≡ₚ x :: l.
Proof.
  induction l as [|y l IH]; cbn; [done|]. destruct (le x y); [done|].
  rewrite IH. by constructor.
Qed.

Lemma sort_by_perm le l : sort_by le l ≡ₚ l.
Proof. induction l as [|x l IH]; cbn; [done|]. rewrite insert_by_perm. by constructor. Qed.

Lemma elem_of_sort_by le x l : x ∈ sort_by le l <-> x ∈ l.
Proof. by rewrite sort_by_perm. Qed.

Section Sorted.
Context (le : A -> A -> bool)
        (le_total : forall x y, le x y = true \/ le y x = true)
        (le_trans : forall x y z, le x y = true -> le y z = true -> le x z = true).

Lemma insert_by_sorted x l :
  StronglySorted (fun a b => le a b = true) l ->
  StronglySorted (fun a b => le a b = true) (insert_by le x l).
Proof using le_total le_trans.
  induction 1 as [|y l Hl IH Hy]; cbn; [repeat constructor|].
  destruct (le x y) eqn:Hxy.
  - constructor; [by constructor|]. constructor; [done|].
    eapply Forall_impl; [exact Hy|]. intros z. by apply le_trans.
  - constructor; [done|]. rewrite insert_by_perm. constructor; [|done].
    destruct (le_total x y); congruence.
Qed.

Lemma sort_by_sorted l : StronglySorted (fun a b => le a b = true) (sort_by le l).
Proof using le_total le_trans.
  induction l; cbn; [constructor|]. by apply insert_by_sorted.
Qed.
End Sorted.

(** Counting by a boolean predicate ([SELECT COUNT of rows WHERE p]). *)
Definition count (p : A -> bool) (l : list A) : nat := length (List.filter p l).

Lemma count_cons p x l : count p (x :: l) = (if p x then 1 else 0) + count p l.
Proof. unfold count. cbn. by destruct (p x). Qed.

Lemma count_app p l k : count p (l ++ k) = count p l + count p k.
Proof. unfold count. by rewrite List.filter_app, length_app. Qed.

Lemma count_le p q l : (forall x, x ∈ l -> p x = true -> q x = true) -> count p l <= count q l.
Proof.
  induction l as [|x l IH]; intros Hpq; [done|]. rewrite !count_cons.
  assert (count p l <= count q l) by (apply IH; set_solver).
  destruct (p x) eqn:Hp; [rewrite (Hpq x) by (done || constructor)|]; lia.
Qed.

Lemma count_ext p q l : (forall x, x ∈ l -> p x = q x) -> count p l = count q l.
Proof.
  intros Hpq. apply Nat.le_antisymm; apply count_le; intros x Hx; rewrite (Hpq x Hx); done.
Qed.

Lemma count_length p l : count p l <= length l.
Proof. unfold count. apply List.filter_length_le. Qed.

Lemma count_zero p l : (forall x, x ∈ l -> p x = false) -> count p l = 0.
Proof.
  induction l as [|x l IH]; intros Hp; [done|]. rewrite count_cons.
  rewrite (Hp x) by constructor. cbn. apply IH. set_solver.
Qed.

Lemma count_filter p q l : count p (List.filter q l) = count (fun x => q x && p x) l.
Proof.
  induction l as [|x l IH]; [done|]. rewrite (count_cons (fun x => q x && p x)), <- IH. cbn [List.filter].
  destruct (q x); rewrite ?count_cons; done.
Qed.

Lemma count_perm p l k : l ≡ₚ k -> count p l = count p k.
Proof. induction 1; rewrite ?count_cons; lia. Qed.

Lemma count_sublist p l k : l `sublist_of` k -> count p l <= count p k.
Proof. induction 1; rewrite ?count_cons; lia. Qed.

Lemma count_pos p l x : x ∈ l -> p x = true -> 0 < count p l.
Proof.
  intros (l1 & l2 & ->)%list_elem_of_split Hx. rewrite count_app, count_cons, Hx. lia.
Qed.

Lemma elem_of_filter_bool p x l : x ∈ List.filter p l <-> p x = true /\ x ∈ l.
Proof. rewrite !list_elem_of_In, List.filter_In. naive_solver. Qed.

Lemma app_nil_iff (l k : list A) : l ++ k = [] <-> l = [] /\ k = [].
Proof. split; [apply app_eq_nil|by intros [-> ->]]. Qed.

Lemma if_nil_iff (b : bool) (x : A) : (if b then [x] else []) = [] <-> b = false.
Proof. by destruct b. Qed.

Lemma filter_nil p l : List.filter p l = [] <-> forall x, x ∈ l -> p x = false.
Proof.
  split.
  - intros Hl x Hx. destruct (p x) eqn:Hp; [|done]. exfalso.
    assert (x ∈ List.filter p l) as Hin by by apply elem_of_filter_bool. rewrite Hl in Hin. by apply elem_of_nil in Hin.
  - induction l as [|x l IH]; intros Hp; [done|]. cbn. rewrite (Hp x) by by left. apply IH. intros y Hy. apply Hp. by right.
Qed.

Lemma find_some_elem p l x : List.find p l = Some x -> x ∈ l /\ p x = true.
Proof. intros H. apply List.find_some in H. by rewrite list_elem_of_In. Qed.

Lemma find_none_elem p l x : List.find p l = None -> x ∈ l -> p x = false.
Proof. rewrite list_elem_of_In. intros H. by apply List.find_none. Qed.

(** [UPDATE ... SET f WHERE p]. *)
Definition update_where (p : A -> bool) (f : A -> A) (l : list A) : list A :=
  map (fun x => if p x then f x else x) l.

Lemma length_update_where p f l : length (update_where p f l) = length l.
Proof. apply length_map. Qed.

Lemma update_where_app p f l k : update_where p f (l ++ k) = update_where p f l ++ update_where p f k.
Proof. apply map_app. Qed.

Lemma elem_of_update_where p f x l :
  x ∈ update_where p f l <-> exists y, y ∈ l /\ x = if p y then f y else y.
Proof.
  unfold update_where. rewrite list_elem_of_In, List.in_map_iff.
  split; intros (y & H1 & H2); exists y; rewrite list_elem_of_In in *; naive_solver.
Qed.

Lemma map_update_where {B} (g : A -> B) p f l :
  (forall x, x ∈ l -> p x = true -> g (f x) = g x) -> map g (update_where p f l) = map g l.
Proof.
  unfold update_where. rewrite map_map. intros H. apply List.map_ext_in. intros x Hx.
  destruct (p x) eqn:Hp; [|done]. apply H; [by apply list_elem_of_In|done].
Qed.
End Lists.

#[export] Hint Rewrite @count_cons @count_app @length_update_where @update_where_app : py.

(** ** Tactics *)

(** Reflect boolean tests into propositions. *)
Ltac breflect :=
  repeat match goal with
  | H : _ && _ = true |- _ => apply andb_true_iff in H; destruct H
  | H : _ || _ = false |- _ => apply orb_false_iff in H; destruct H
  | H : negb _ = true |- _ => apply negb_true_iff in H
  | H : negb _ = false |- _ => apply negb_false_iff in H
  | H : bool_decide _ = true |- _ => apply bool_decide_eq_true in H
  | H : bool_decide _ = false |- _ => apply bool_decide_eq_false in H
  end.

(** Run an operation to its end: case on every test of the goal or of the
    hypotheses that mention its result. *)
Ltac run_py :=
  repeat (cbn in *; simplify_eq;
          match goal with
          | H : context [match ?x with _ => _ end] |- _ =>
              lazymatch type of H with
              | _ = _ => let E := fresh "E" in destruct x eqn:E
              end
          end); simplify_eq.

(** Step through a hypothesis that an operation returned. *)
Ltac py_step H x s1 Hx :=
  apply py_bind_ok in H as (x & s1 & Hx & H);
  lazymatch type of Hx with
  | lift _ _ = _ => apply lift_ok in Hx as [Hx ->]
  | raise_when _ _ _ = _ => apply raise_when_ok in Hx as [Hx ->]
  | _ => idtac
  end.

(** Expose the state passing of an operation. *)
Ltac unfold_py :=
  unfold gets, get, modify, raise_when, raise_if, lift, raise, mbind, py_bind, mret, py_ret.

(** Decide a closed proposition by evaluation. *)
Ltac vm_decide := apply (bool_decide_unpack _); vm_compute; exact I.
