(* ===== verification/PyStr.v ===== *)
(** * Python strings

    The [str] operations and regular expressions the modelled code uses.  A
    [str] is a [string] whose characters are the code points U+0000 to U+00FF,
    so [len] counts characters, [strip] removes the Latin-1 white space of
    [str.isspace], and [utf8_len] is the length of [s.encode("utf-8")]. *)
From S2P Require Import Prelude.
From Stdlib Require Export Ascii.

Declare Scope py_scope.
Delimit Scope py_scope with py.

Notation chars := (list ascii).
Notation to_chars := String.list_ascii_of_string.
Notation of_chars := String.string_of_list_ascii.

Definition code (c : ascii) : N := N_of_ascii c.
Definition in_range (lo hi : N) (c : ascii) : bool := (lo <=? code c)%N && (code c <=? hi)%N.

(** [len(s)] *)
Definition py_len (s : string) : Z := Z.of_nat (String.length s).

(** [str.isspace] of one character, on Latin-1. *)
Definition is_space (c : ascii) : bool :=
  in_range 9 13 c || in_range 28 32 c || (code c =? 133)%N || (code c =? 160)%N.

Definition is_digit : ascii -> bool := in_range 48 57.
Definition is_alpha (c : ascii) : bool := in_range 65 90 c || in_range 97 122 c.
Definition is_alnum (c : ascii) : bool := is_alpha c || is_digit c.

(** [str.isdigit] of one Latin-1 character: the superscripts count as digits. *)
Definition py_isdigit_char (c : ascii) : bool :=
  is_digit c || (code c =? 178)%N || (code c =? 179)%N || (code c =? 185)%N.
Definition py_isdigit (s : string) : bool :=
  negb (String.eqb s "") && forallb py_isdigit_char (to_chars s).

Definition lower_char (c : ascii) : ascii :=
  if in_range 65 90 c || (in_range 192 222 c && negb (code c =? 215)%N)
  then ascii_of_N (code c + 32) else c.

(** [str.upper] of one character.  The upper case of U+00DF is two letters;
    U+00B5 and U+00FF have theirs outside Latin-1 and are left as they are. *)
Definition upper_char (c : ascii) : chars :=
  if (code c =? 223)%N then ["S"%char; "S"%char]
  else if in_range 97 122 c || (in_range 224 254 c && negb (code c =? 247)%N)
       then [ascii_of_N (code c - 32)] else [c].

Definition py_lower (s : string) : string := of_chars (map lower_char (to_chars s)).
Definition py_upper (s : string) : string := of_chars (flat_map upper_char (to_chars s)).

Fixpoint drop_while (p : ascii -> bool) (l : chars) : chars :=
  match l with
  | [] => []
  | c :: l' => if p c then drop_while p l' else l
  end.

Definition lstrip_by (p : ascii -> bool) (s : string) : string :=
  of_chars (drop_while p (to_chars s)).
Definition rstrip_by (p : ascii -> bool) (s : string) : string :=
  of_chars (rev (drop_while p (rev (to_chars s)))).
Definition strip_by (p : ascii -> bool) (s : string) : string := rstrip_by p (lstrip_by p s).

(** [s.strip()] *)
Definition py_strip (s : string) : string := strip_by is_space s.

(** [not s.strip()] *)
Definition is_blank (s : string) : bool := forallb is_space (to_chars s).

(** [s.startswith(p)] *)
Definition py_startswith (s p : string) : bool := String.prefix p s.

(** [s.replace(a, b)] for one-character strings. *)
Definition replace_char (a b : ascii) (s : string) : string :=
  of_chars (map (fun c => if Ascii.eqb c a then b else c) (to_chars s)).

Definition newline : ascii := ascii_of_N 10.

(** [re.match] of an anchored pattern [^p$]: [$] also matches before a trailing
    newline. *)
Definition match_dollar (p : chars -> bool) (s : string) : bool :=
  let l := to_chars s in
  p l || match rev l with
         | c :: r => Ascii.eqb c newline && p (rev r)
         | [] => false
         end.

(** A first character of one class, then characters of another. *)
Definition head_tail (hd tl : ascii -> bool) (l : chars) : bool :=
  match l with
  | [] => false
  | c :: l' => hd c && forallb tl l'
  end.

(** [s.partition(sep)]: [None] when the separator is absent *)
Fixpoint partition_at (sep : ascii) (l : chars) : option (chars * chars) :=
  match l with
  | [] => None
  | c :: l' => if Ascii.eqb c sep then Some ([], l')
               else '(h, t) ← partition_at sep l'; Some (c :: h, t)
  end.

(** [s.splitlines()]; [cur] is the line so far, newest first, and [cr] tells
    that the last line ended with a carriage return. *)
Definition is_linebreak (c : ascii) : bool := bool_decide (code c ∈ [10; 11; 12; 13; 28; 29; 30; 133]%N).

Fixpoint split_lines (cr : bool) (cur : chars) (l : chars) : list chars :=
  match l with
  | [] => match cur with [] => [] | _ => [rev cur] end
  | c :: l' =>
      if cr && Ascii.eqb c newline then split_lines false [] l'
      else if is_linebreak c then rev cur :: split_lines (Ascii.eqb c (ascii_of_N 13)) [] l'
      else split_lines false (c :: cur) l'
  end.
Definition splitlines (s : string) : list string := map of_chars (split_lines false [] (to_chars s)).

(** [s.split()]; [cur] is the word so far, newest first. *)
Fixpoint split_words (cur : chars) (l : chars) : list chars :=
  match l with
  | [] => match cur with [] => [] | _ => [rev cur] end
  | c :: l' =>
      if is_space c then match cur with [] => split_words [] l' | _ => rev cur :: split_words [] l' end
      else split_words (c :: cur) l'
  end.
Definition py_split (s : string) : list string := map of_chars (split_words [] (to_chars s)).

(** [p in s] *)
Fixpoint str_contains (p s : string) : bool :=
  String.prefix p s || match s with String _ s' => str_contains p s' | EmptyString => false end.

(** [len(s.encode("utf-8"))] and the bytes themselves. *)
Definition utf8_bytes (s : string) : list N :=
  flat_map (fun c => let n := code c in
    if (n <? 128)%N then [n] else [(192 + n / 64)%N; (128 + n mod 64)%N]) (to_chars s).
Definition utf8_len (s : string) : Z := Z.of_nat (length (utf8_bytes s)).

(** ** Facts *)

Lemma drop_while_head p l c l' : drop_while p l = c :: l' -> p c = false.
Proof. induction l as [|d l IH]; cbn; [done|]. destruct (p d) eqn:Hd; [done|]. by intros [= <- _]. Qed.

Lemma drop_while_all p l : drop_while p l = [] <-> forallb p l = true.
Proof. induction l as [|c l IH]; cbn; [done|]. by destruct (p c). Qed.

Lemma drop_while_idemp p l : drop_while p (drop_while p l) = drop_while p l.
Proof. induction l as [|c l IH]; cbn; [done|]. destruct (p c) eqn:Hc; [done|]. cbn. by rewrite Hc. Qed.

Lemma to_of_chars l : to_chars (of_chars l) = l.
Proof. apply String.list_ascii_of_string_of_list_ascii. Qed.

Lemma of_to_chars s : of_chars (to_chars s) = s.
Proof. apply String.string_of_list_ascii_of_string. Qed.

Lemma to_chars_inj s t : to_chars s = to_chars t -> s = t.
Proof. intros H. by rewrite <- (of_to_chars s), H, of_to_chars. Qed.

Lemma to_chars_app s t : to_chars (s +:+ t) = to_chars s ++ to_chars t.
Proof. induction s as [|c s IH]; cbn; [done|]. by rewrite <- IH. Qed.

Lemma of_chars_app l k : of_chars (l ++ k) = of_chars l +:+ of_chars k.
Proof. apply to_chars_inj. by rewrite to_chars_app, !to_of_chars. Qed.

Lemma length_to_chars s : length (to_chars s) = String.length s.
Proof. induction s; cbn; auto. Qed.

Lemma forallb_rev p (l : chars) : forallb p (rev l) = forallb p l.
Proof.
  induction l as [|c l IH]; cbn; [done|]. rewrite forallb_app, IH. cbn. rewrite andb_true_r.
  apply andb_comm.
Qed.

Lemma drop_while_suffix p l : exists k, l = k ++ drop_while p l /\ forallb p k = true.
Proof.
  induction l as [|c l [k [Hk Hp]]]; cbn; [by exists []|].
  destruct (p c) eqn:Hc; [|by exists []].
  exists (c :: k). cbn. rewrite Hc. split; [by f_equal|done].
Qed.

(** [strip() == ""] exactly on strings of white space. *)
Lemma strip_empty s : py_strip s = "" <-> is_blank s = true.
Proof.
  unfold py_strip, strip_by, rstrip_by, lstrip_by, is_blank. rewrite to_of_chars.
  set (l := to_chars s). split.
  - intros H%(f_equal to_chars). rewrite to_of_chars in H. cbn in H.
    apply (f_equal (@rev _)) in H. rewrite rev_involutive in H. cbn in H.
    apply drop_while_all in H. rewrite forallb_rev in H.
    destruct (drop_while_suffix is_space l) as [k [Hk Hp]].
    rewrite Hk, forallb_app, Hp. done.
  - intros H. apply drop_while_all in H. by rewrite H.
Qed.

Lemma drop_while_last p l c : p c = false -> exists k, drop_while p (l ++ [c]) = k ++ [c].
Proof.
  intros Hc. induction l as [|d l IH]; cbn; [rewrite Hc; by exists []|].
  destruct (p d); [done|]. by exists (d :: l).
Qed.

(** Stripping twice is stripping once. *)
Lemma strip_idemp s : py_strip (py_strip s) = py_strip s.
Proof.
  unfold py_strip, strip_by, rstrip_by, lstrip_by. rewrite !to_of_chars. f_equal.
  set (m := drop_while is_space (to_chars s)).
  set (r := drop_while is_space (rev m)).
  assert (drop_while is_space (rev r) = rev r) as ->; [|by rewrite rev_involutive; unfold r; rewrite drop_while_idemp].
  destruct m as [|c m'] eqn:Hm; [done|].
  pose proof (drop_while_head _ _ _ _ Hm) as Hc.
  destruct (drop_while_last is_space (rev m') c Hc) as [k Hk].
  subst r. cbn. rewrite Hk, rev_app_distr. cbn. by rewrite Hc.
Qed.

(** ** Order

    Strings compare by code points ([str.__lt__], SQLite's BINARY collation). *)
Fixpoint chars_cmp (l k : chars) : comparison :=
  match l, k with
  | [], [] => Eq
  | [], _ :: _ => Lt
  | _ :: _, [] => Gt
  | a :: l', b :: k' => match (code a ?= code b)%N with Eq => chars_cmp l' k' | c => c end
  end.

Definition str_cmp (s t : string) : comparison := chars_cmp (to_chars s) (to_chars t).
Definition str_le (s t : string) : bool := match str_cmp s t with Gt => false | _ => true end.

Lemma chars_cmp_refl l : chars_cmp l l = Eq.
Proof. induction l as [|c l IH]; cbn; [done|]. by rewrite N.compare_refl. Qed.

Lemma chars_cmp_antisym l k : chars_cmp k l = CompOpp (chars_cmp l k).
Proof.
  revert k. induction l as [|a l IH]; intros [|b k]; cbn; try done.
  rewrite (N.compare_antisym (code a)). destruct (code a ?= code b)%N; cbn; auto.
Qed.

Lemma chars_cmp_le_trans l k m :
  chars_cmp l k <> Gt -> chars_cmp k m <> Gt -> chars_cmp l m <> Gt.
Proof.
  revert k m. induction l as [|a l IH]; intros [|b k] [|c m]; cbn; try done.
  destruct (N.compare_spec (code a) (code b)), (N.compare_spec (code b) (code c)),
    (N.compare_spec (code a) (code c)); try done; try lia. apply IH.
Qed.

Lemma str_le_total s t : str_le s t = true \/ str_le t s = true.
Proof.
  unfold str_le, str_cmp. rewrite (chars_cmp_antisym (to_chars s) (to_chars t)).
  destruct (chars_cmp _ _); auto.
Qed.

Lemma str_le_trans s t u : str_le s t = true -> str_le t u = true -> str_le s u = true.
Proof.
  unfold str_le, str_cmp. intros Hst Htu.
  pose proof (chars_cmp_le_trans (to_chars s) (to_chars t) (to_chars u)) as Hle.
  destruct (chars_cmp (to_chars s) _), (chars_cmp (to_chars t) _), (chars_cmp (to_chars s) _); try done;
    exfalso; by apply Hle.
Qed.
