(* ===== verification/PyDict.v ===== *)
(** * Python dictionaries

    A [dict] whose order is observable is an association list: assignment to a
    present key keeps its position, assignment to an absent one appends, and
    [pop] removes the entry. *)
From S2P Require Import Prelude.

Section Dict.
Context {K V : Type} `{EqDecision K}.
Implicit Types (d : list (K * V)) (k : K) (v : V).

(** [d.get(k)] *)
Fixpoint dget k d : option V :=
  match d with
  | [] => None
  | (k', v) :: d' => if decide (k = k') then Some v else dget k d'
  end.

(** [d[k] = v] *)
Fixpoint dset k v d : list (K * V) :=
  match d with
  | [] => [(k, v)]
  | (k', v') :: d' => if decide (k = k') then (k', v) :: d' else (k', v') :: dset k v d'
  end.

(** [d.pop(k, None)] / [del d[k]] *)
Definition ddel k d : list (K * V) := List.filter (fun e => negb (bool_decide (e.1 = k))) d.

(** [k in d] *)
Definition dmem k d : bool := match dget k d with Some _ => true | None => false end.

Definition dkeys d : list K := map fst d.
Definition dvalues d : list V := map snd d.

Lemma dget_dset_eq k v d : dget k (dset k v d) = Some v.
Proof.
  induction d as [|[k' v'] d IH]; cbn; [by rewrite decide_True|].
  destruct (decide (k = k')) as [->|Hne]; cbn; [by rewrite decide_True|by rewrite decide_False].
Qed.

Lemma dget_dset_ne k k' v d : k <> k' -> dget k' (dset k v d) = dget k' d.
Proof.
  intros Hne. induction d as [|[k1 v1] d IH]; cbn; [by rewrite decide_False|].
  destruct (decide (k = k1)) as [->|]; cbn; [by rewrite !decide_False by done|]. by rewrite IH.
Qed.

Lemma dget_dset k k' v d : dget k' (dset k v d) = if decide (k = k') then Some v else dget k' d.
Proof. destruct (decide (k = k')) as [->|]; [apply dget_dset_eq|by apply dget_dset_ne]. Qed.

Lemma ddel_cons k k' v d :
  ddel k ((k', v) :: d) = if bool_decide (k' = k) then ddel k d else (k', v) :: ddel k d.
Proof. unfold ddel. cbn. by case_bool_decide. Qed.

Lemma dget_ddel_eq k d : dget k (ddel k d) = None.
Proof.
  induction d as [|[k' v'] d IH]; [done|]. rewrite ddel_cons. case_bool_decide; cbn; [done|].
  by rewrite decide_False.
Qed.

Lemma dget_ddel_ne k k' d : k <> k' -> dget k' (ddel k d) = dget k' d.
Proof.
  intros Hne. induction d as [|[k1 v1] d IH]; [done|]. rewrite ddel_cons.
  case_bool_decide; cbn; [by rewrite decide_False by congruence|]. by rewrite IH.
Qed.

Lemma dget_app k d d' :
  dget k (d ++ d') = match dget k d with Some v => Some v | None => dget k d' end.
Proof. induction d as [|[k' v'] d IH]; cbn; [done|]. by destruct (decide (k = k')). Qed.

Lemma dget_Some_elem k v d : dget k d = Some v -> (k, v) ∈ d.
Proof.
  induction d as [|[k' v'] d IH]; cbn; [done|].
  destruct (decide (k = k')) as [->|]; [intros [= ->]; constructor|intros; constructor; auto].
Qed.

Lemma dget_None_keys k d : dget k d = None <-> k ∉ dkeys d.
Proof.
  induction d as [|[k' v'] d IH]; cbn; [by split; [intros _; apply not_elem_of_nil|]|].
  rewrite not_elem_of_cons. destruct (decide (k = k')); [naive_solver|]. rewrite IH. naive_solver.
Qed.

Lemma dget_is_Some_keys k d : is_Some (dget k d) <-> k ∈ dkeys d.
Proof.
  destruct (decide (k ∈ dkeys d)) as [Hin|Hin].
  - split; [done|]. intros _. destruct (dget k d) eqn:Hk; [done|].
    by apply dget_None_keys in Hk.
  - split; [|done]. apply dget_None_keys in Hin. rewrite Hin. by intros [].
Qed.

Lemma elem_dget k v d : NoDup (dkeys d) -> (k, v) ∈ d -> dget k d = Some v.
Proof.
  induction d as [|[k' v'] d IH]; cbn; [by intros _ ?%elem_of_nil|].
  rewrite NoDup_cons. intros [Hk' Hd] [[= -> ->]|Hin]%elem_of_cons; [by rewrite decide_True|].
  rewrite decide_False; [by apply IH|]. intros ->. apply Hk'.
  apply list_elem_of_In, List.in_map_iff. exists (k', v). by rewrite <- list_elem_of_In.
Qed.

Lemma dkeys_dset k v d :
  dkeys (dset k v d) = if decide (k ∈ dkeys d) then dkeys d else dkeys d ++ [k].
Proof.
  induction d as [|[k' v'] d IH]; cbn [dset].
  - by rewrite decide_False by apply not_elem_of_nil.
  - destruct (decide (k = k')) as [->|Hne]; cbn [dkeys map fst].
    + by rewrite decide_True by constructor.
    + fold (dkeys (dset k v d)) (dkeys d). rewrite IH.
      case_decide as Hd; case_decide as Hd'; try done; set_solver.
Qed.

Lemma dkeys_dset_mem k v d : k ∈ dkeys d -> dkeys (dset k v d) = dkeys d.
Proof. intros. by rewrite dkeys_dset, decide_True. Qed.

Lemma dset_id k v d : dget k d = Some v -> dset k v d = d.
Proof.
  induction d as [|[k' v'] d IH]; [done|]. cbn. destruct (decide (k = k')) as [->|]; [by intros [= ->] | intros H; by rewrite IH].
Qed.

Lemma dset_absent k v d : k ∉ dkeys d -> dset k v d = d ++ [(k, v)].
Proof.
  induction d as [|[k' v'] d IH]; cbn; [done|]. rewrite not_elem_of_cons. intros [Hne Hd].
  rewrite decide_False by done. by rewrite IH.
Qed.

Lemma elem_of_dkeys_dset k k' v d : k' ∈ dkeys (dset k v d) <-> k' = k \/ k' ∈ dkeys d.
Proof. rewrite dkeys_dset. case_decide; set_solver. Qed.

Lemma NoDup_dkeys_dset k v d : NoDup (dkeys d) -> NoDup (dkeys (dset k v d)).
Proof.
  intros Hd. rewrite dkeys_dset. case_decide; [done|].
  apply NoDup_app. split; [done|]. split; [set_solver|apply NoDup_singleton].
Qed.

Lemma elem_of_dkeys_ddel k k' d : k' ∈ dkeys (ddel k d) <-> k' <> k /\ k' ∈ dkeys d.
Proof.
  rewrite <- !dget_is_Some_keys. destruct (decide (k = k')) as [->|Hne].
  - rewrite dget_ddel_eq. split; [by intros []|naive_solver].
  - rewrite dget_ddel_ne by done. naive_solver.
Qed.

Lemma NoDup_dkeys_ddel k d : NoDup (dkeys d) -> NoDup (dkeys (ddel k d)).
Proof.
  induction d as [|[k' v'] d IH]; cbn [dkeys map]; [done|]. rewrite NoDup_cons, ddel_cons.
  intros [Hk Hd]. case_bool_decide; cbn; [by apply IH|]. apply NoDup_cons. split; [|by apply IH].
  intros [_ Hin]%elem_of_dkeys_ddel. done.
Qed.

Lemma length_ddel_present k v d :
  NoDup (dkeys d) -> dget k d = Some v -> S (length (ddel k d)) = length d.
Proof.
  induction d as [|[k' v'] d IH]; [done|]. cbn [dkeys map dget]. rewrite NoDup_cons, ddel_cons.
  intros [Hk Hd]. destruct (decide (k = k')) as [->|Hne].
  - intros _. rewrite bool_decide_true by done. cbn. f_equal.
    unfold ddel. rewrite (List.forallb_filter_id _ d); [done|].
    apply List.forallb_forall. intros [k1 v1] Hin. rewrite bool_decide_false; [done|].
    intros Heq. cbn in Heq. subst. apply Hk. apply list_elem_of_In, List.in_map_iff.
    by exists (k', v1).
  - intros Hget. rewrite bool_decide_false by congruence. cbn. f_equal. by apply IH.
Qed.

Lemma length_dset k v d : length (dset k v d) = if dmem k d then length d else S (length d).
Proof.
  unfold dmem. induction d as [|[k' v'] d IH]; cbn; [done|].
  destruct (decide (k = k')); cbn; [done|]. rewrite IH. by destruct (dget k d).
Qed.
End Dict.

#[export] Hint Resolve NoDup_dkeys_dset NoDup_dkeys_ddel : py.
#[export] Hint Rewrite @dget_dset_eq @dget_ddel_eq : py.
