(* ===== verification/PyJson.v ===== *)
(** * JSON values

    The Python values [json.dumps] meets and the text it writes
    ([ensure_ascii=False], default separators).  A float is its [repr]; a value
    of any other type is [JOther] with its type's name, which [dumps] refuses.
    The keys of an object are strings, without duplicates in a Python dict.  A
    column that holds [json.dumps(v, sort_keys=True)] is modelled by the value
    [json.loads] reads back from it, [canon v]. *)
From S2P Require Import Prelude PyStr PyDict.

Inductive json :=
| JNull
| JBool (b : bool)
| JInt (z : Z)
| JFloat (repr : string)
| JStr (s : string)
| JList (l : list json)
| JObj (d : list (string * json))
| JOther (type_name : string).

Section JsonInd.
Context (P : json -> Prop).
Context (Hnull : P JNull) (Hbool : forall b, P (JBool b)) (Hint : forall z, P (JInt z))
        (Hfloat : forall r, P (JFloat r)) (Hstr : forall s, P (JStr s))
        (Hother : forall n, P (JOther n))
        (Hlist : forall l, Forall P l -> P (JList l))
        (Hobj : forall d, Forall (fun e => P e.2) d -> P (JObj d)).

Fixpoint json_ind' (v : json) : P v :=
  match v with
  | JNull => Hnull
  | JBool b => Hbool b
  | JInt z => Hint z
  | JFloat r => Hfloat r
  | JStr s => Hstr s
  | JOther n => Hother n
  | JList l => Hlist l ((fix go l := match l return Forall P l with
                         | [] => Forall_nil_2 P
                         | x :: l' => Forall_cons_2 P x l' (json_ind' x) (go l')
                         end) l)
  | JObj d => Hobj d ((fix go d := match d return Forall (fun e => P e.2) d with
                       | [] => Forall_nil_2 _
                       | e :: d' => Forall_cons_2 (fun e => P e.2) e d' (json_ind' e.2) (go d')
                       end) d)
  end.
End JsonInd.

#[export] Instance json_eq_dec : EqDecision json.
Proof.
  refine (fix go (x y : json) : Decision (x = y) :=
    match x, y with
    | JNull, JNull => left eq_refl
    | JBool a, JBool b => cast_if (decide (a = b))
    | JInt a, JInt b => cast_if (decide (a = b))
    | JFloat a, JFloat b => cast_if (decide (a = b))
    | JStr a, JStr b => cast_if (decide (a = b))
    | JList a, JList b => cast_if (@list_eq_dec _ go a b)
    | JObj a, JObj b => cast_if (@list_eq_dec _ (@prod_eq_dec _ String.eq_dec _ go) a b)
    | JOther a, JOther b => cast_if (decide (a = b))
    | _, _ => right _
    end); clear go; abstract congruence.
Defined.

(** [type(v).__name__] *)
Definition type_name_of (v : json) : string :=
  match v with
  | JNull => "NoneType"
  | JBool _ => "bool"
  | JInt _ => "int"
  | JFloat _ => "float"
  | JStr _ => "str"
  | JList _ => "list"
  | JObj _ => "dict"
  | JOther n => n
  end.

(** ** Key order *)

Definition key_le (a b : string * json) : bool := str_le a.1 b.1.

(** The value read back from [dumps(v, sort_keys=True)]. *)
Fixpoint canon (v : json) : json :=
  match v with
  | JList l => JList (map canon l)
  | JObj d => JObj (sort_by key_le (map (fun e => (e.1, canon e.2)) d))
  | _ => v
  end.

(** ** Text *)

Definition hex_digit (n : N) : ascii :=
  if (n <? 10)%N then ascii_of_N (48 + n) else ascii_of_N (87 + n).

Definition escape_char (c : ascii) : chars :=
  let n := code c in
  if (n =? 34)%N then to_chars "\" ++ [c]
  else if (n =? 92)%N then to_chars "\\"
  else if (n =? 8)%N then to_chars "\b"
  else if (n =? 9)%N then to_chars "\t"
  else if (n =? 10)%N then to_chars "\n"
  else if (n =? 12)%N then to_chars "\f"
  else if (n =? 13)%N then to_chars "\r"
  else if (n <? 32)%N then to_chars "\u00" ++ [hex_digit (n / 16); hex_digit (n mod 16)]
  else [c].

Definition quote : ascii := ascii_of_N 34.

Definition dump_str (s : string) : string :=
  of_chars (quote :: flat_map escape_char (to_chars s) ++ [quote]).

(** [str(z)] *)
Fixpoint digits_of (fuel : nat) (n : N) (acc : chars) : chars :=
  match fuel with
  | 0 => acc
  | S fuel' => let acc' := ascii_of_N (48 + n mod 10) :: acc in
               if (n <? 10)%N then acc' else digits_of fuel' (n / 10) acc'
  end.
Definition py_str_N (n : N) : string := of_chars (digits_of (S (N.to_nat (N.log2 n))) n []).
Definition py_str_int (z : Z) : string :=
  if (z <? 0)%Z then ("-" +:+ py_str_N (Z.to_N (- z)))%string else py_str_N (Z.to_N z).

Fixpoint join (sep : string) (l : list string) : string :=
  match l with
  | [] => ""
  | [s] => s
  | s :: l' => (s +:+ sep +:+ join sep l')%string
  end.

Fixpoint all_ok {A} (l : list (result A)) : result (list A) :=
  match l with
  | [] => Ok []
  | r :: l' => a ← r; rest ← all_ok l'; Ok (a :: rest)
  end.

Definition finite_repr (r : string) : bool := negb (bool_decide (r ∈ ["nan"; "inf"; "-inf"]%string)).

(** [json.dumps(v, ensure_ascii=False, allow_nan=False, separators=(si, sc))] of
    a value as it is. *)
Fixpoint dump_with (si sc : string) (v : json) : result string :=
  match v with
  | JNull => Ok "null"
  | JBool b => Ok (if b then "true" else "false")%string
  | JInt z => Ok (py_str_int z)
  | JFloat r => if finite_repr r then Ok r else Err ValueError
  | JStr s => Ok (dump_str s)
  | JList l => items ← all_ok (map (dump_with si sc) l); Ok ("[" +:+ join si items +:+ "]")%string
  | JObj d => items ← all_ok (map (fun e => t ← dump_with si sc e.2; Ok (dump_str e.1 +:+ sc +:+ t)%string) d);
              Ok ("{" +:+ join si items +:+ "}")%string
  | JOther _ => Err TypeError
  end.

(** ... with the default separators, ... *)
Definition dump_plain : json -> result string := dump_with ", " ": ".

(** ... with [sort_keys=True], ... *)
Definition dumps (v : json) : result string := dump_plain (canon v).

(** ... and with the compact separators too. *)
Definition dumps_compact (v : json) : result string := dump_with "," ":" (canon v).

Example dumps_sample :
  dumps (JObj [("b", JList [JInt (-12); JNull]); ("a", JStr "x")]) =
  Ok (of_chars (map (fun c => if Ascii.eqb c "'"%char then quote else c)
                  (to_chars "{'a': 'x', 'b': [-12, null]}"))).
Proof. vm_compute. reflexivity. Qed.

(** ** Facts *)

Lemma sort_by_sorted_id le (d : list (string * json)) :
  StronglySorted (fun a b => le a b = true) d -> sort_by le d = d.
Proof.
  induction 1 as [|x l Hl IH Hx]; [done|]. cbn. rewrite IH. destruct l as [|y l]; [done|].
  cbn. by rewrite (Forall_inv Hx).
Qed.

Lemma key_le_sorted d : StronglySorted (fun a b => key_le a b = true) (sort_by key_le d).
Proof.
  apply sort_by_sorted; unfold key_le; [intros; apply str_le_total|intros x y z; apply str_le_trans].
Qed.

Lemma map_insert_by (f : json -> json) x d :
  map (fun e => (e.1, f e.2)) (insert_by key_le x d) =
  insert_by key_le (x.1, f x.2) (map (fun e => (e.1, f e.2)) d).
Proof.
  induction d as [|y d IH]; [done|]. cbn. unfold key_le at 1 3. cbn.
  destruct (str_le x.1 y.1); cbn; [done|]. by rewrite IH.
Qed.

Lemma map_sort_by (f : json -> json) d :
  map (fun e => (e.1, f e.2)) (sort_by key_le d) = sort_by key_le (map (fun e => (e.1, f e.2)) d).
Proof. induction d as [|x d IH]; [done|]. cbn. by rewrite map_insert_by, IH. Qed.

(** Reading back a canonical value changes nothing. *)
Lemma canon_idemp v : canon (canon v) = canon v.
Proof.
  induction v as [| | | | | |l IH|d IH] using json_ind'; try done; cbn; f_equal.
  - rewrite map_map. apply List.map_ext_in. intros x Hx. rewrite Forall_forall in IH. apply IH.
    by apply list_elem_of_In.
  - rewrite map_sort_by, map_map. cbn.
    rewrite (List.map_ext_in _ (fun e => (e.1, canon e.2)) d).
    + apply sort_by_sorted_id, key_le_sorted.
    + intros e He. f_equal. rewrite Forall_forall in IH. apply IH. by apply list_elem_of_In.
Qed.

Lemma dumps_canon v : dumps (canon v) = dumps v.
Proof. unfold dumps. by rewrite canon_idemp. Qed.

(** [v.get(key)] of an object. *)
Definition jget (key : string) (v : json) : option json :=
  match v with JObj d => dget key d | _ => None end.

(** Sorting and reading back keep every lookup. *)
Lemma dget_insert_by k x (d : list (string * json)) :
  dget k (insert_by key_le x d) = if decide (k = x.1) then Some x.2 else dget k d.
Proof.
  destruct x as [k1 v1]. cbn [fst snd].
  induction d as [|[k2 v2] d IH]; cbn; [done|]. unfold key_le at 1. cbn [fst].
  destruct (str_le k1 k2) eqn:Hle; cbn; [done|]. rewrite IH.
  destruct (decide (k = k1)) as [->|]; [|done]. rewrite decide_False; [done|]. intros ->.
  destruct (str_le_total k2 k2); congruence.
Qed.

Lemma dget_sort k (d : list (string * json)) : dget k (sort_by key_le d) = dget k d.
Proof.
  induction d as [|[k1 v1] d IH]; [done|]. cbn [sort_by]. rewrite dget_insert_by, IH. done.
Qed.

Lemma dget_map_value k (f : json -> json) (d : list (string * json)) :
  dget k (map (fun e => (e.1, f e.2)) d) = f <$> dget k d.
Proof. induction d as [|[k1 v1] d IH]; [done|]. cbn. rewrite IH. by destruct (decide (k = k1)). Qed.

Lemma jget_canon k d : jget k (canon (JObj d)) = canon <$> dget k d.
Proof. cbn. by rewrite dget_sort, dget_map_value. Qed.

Lemma canon_list l : canon (JList l) = JList (map canon l).
Proof. done. Qed.
Lemma canon_str s : canon (JStr s) = JStr s.
Proof. done. Qed.
