(* ===== verification/Identity.v ===== *)
(** * Agent identities

    [src/agency/kernel/identity.py]: action classes and trust levels (the
    enumerations of [policies.py] and [identity.py] import each other lazily),
    capabilities, and the operations of [Agent].  A Pydantic constructor is a
    function to [result]; a failed validation is a [ValueError].  [metadata],
    which no kernel code reads, is not a field. *)
From S2P Require Import Prelude PyStr PyDict.

(** ** Timestamps

    A [datetime]: microseconds since the epoch and whether it carries a time
    zone.  Comparing an aware and a naive one raises [TypeError]; a sum outside
    years 1 to 9999 raises [OverflowError]. *)
Record datetime := mk_datetime { dt_us : Z; dt_aware : bool }.

#[export] Instance datetime_eq_dec : EqDecision datetime.
Proof. solve_decision. Defined.

Definition dt_min : Z := -62135596800000000.
Definition dt_max : Z := 253402300799999999.

Definition dt_ge (a b : datetime) : result bool :=
  if Bool.eqb (dt_aware a) (dt_aware b) then Ok (dt_us b <=? dt_us a)%Z else Err TypeError.

Definition dt_plus (a : datetime) (delta : Z) : result datetime :=
  let us := (dt_us a + delta)%Z in
  if (dt_min <=? us)%Z && (us <=? dt_max)%Z
  then Ok (mk_datetime us (dt_aware a)) else Err OverflowError.

(** [d.replace(tzinfo=UTC)] *)
Definition dt_as_utc (a : datetime) : datetime := mk_datetime (dt_us a) true.

(** ** Enumerations *)

Inductive ActionClass :=
| L0_OBSERVATION
| L1_SAFE_ANALYSIS
| L2_CONTROLLED_TESTING
| L3_HIGH_IMPACT
| L4_PRODUCTION
| L5_DESTRUCTIVE.

#[export] Instance ActionClass_eq_dec : EqDecision ActionClass.
Proof. solve_decision. Defined.

Definition action_value (a : ActionClass) : string :=
  match a with
  | L0_OBSERVATION => "L0_OBSERVATION"
  | L1_SAFE_ANALYSIS => "L1_SAFE_ANALYSIS"
  | L2_CONTROLLED_TESTING => "L2_CONTROLLED_TESTING"
  | L3_HIGH_IMPACT => "L3_HIGH_IMPACT"
  | L4_PRODUCTION => "L4_PRODUCTION"
  | L5_DESTRUCTIVE => "L5_DESTRUCTIVE"
  end.

(** [int(s)] of a string of decimal digits. *)
Fixpoint int_of_digits (acc : Z) (l : chars) : Z :=
  match l with
  | [] => acc
  | c :: l' => int_of_digits (acc * 10 + Z.of_N (code c) - 48)%Z l'
  end.

Fixpoint take_until (stop : ascii) (l : chars) : chars :=
  match l with
  | [] => []
  | c :: l' => if Ascii.eqb c stop then [] else c :: take_until stop l'
  end.

(** [int(self.value.split("_")[0][1:])] *)
Definition level (a : ActionClass) : Z :=
  int_of_digits 0 (drop 1 (take_until "_"%char (to_chars (action_value a)))).

Inductive TrustLevel := UNKNOWN | OBSERVED | VERIFIED | TRUSTED | HIGH_TRUST.

#[export] Instance TrustLevel_eq_dec : EqDecision TrustLevel.
Proof. solve_decision. Defined.

Definition rank (t : TrustLevel) : Z :=
  match t with UNKNOWN => 0 | OBSERVED => 1 | VERIFIED => 2 | TRUSTED => 3 | HIGH_TRUST => 4 end.

(** ** Capabilities *)

Record Capability := mk_Capability {
  cap_name : string;
  cap_description : string;
  cap_max_level : ActionClass;
}.

#[export] Instance Capability_eq_dec : EqDecision Capability.
Proof. solve_decision. Defined.

Definition normalize_name (value : string) : result string :=
  let name := py_lower (py_strip value) in
  if String.eqb name "" then Err ValueError else Ok name.

(** [Capability(name=..., description=..., max_level=...)] *)
Definition new_capability (name description : string) (max_level : ActionClass) : result Capability :=
  if String.eqb name "" then Err ValueError
  else name ← normalize_name name; Ok (mk_Capability name description max_level).

(** [Capability(name=entry)] *)
Definition default_capability (name : string) : result Capability :=
  new_capability name "" L0_OBSERVATION.

(** ** Agents *)

Record Agent := mk_Agent {
  agent_id : string;
  agent_name : string;
  agent_domain : string;
  capabilities : list Capability;
  trust_level : TrustLevel;
  agent_created_at : datetime;
  revoked : bool;
}.

#[export] Instance Agent_eq_dec : EqDecision Agent.
Proof. solve_decision. Defined.

Definition set_capabilities (caps : list Capability) (a : Agent) : Agent :=
  mk_Agent (agent_id a) (agent_name a) (agent_domain a) caps (trust_level a)
    (agent_created_at a) (revoked a).

Definition set_revoked (b : bool) (a : Agent) : Agent :=
  mk_Agent (agent_id a) (agent_name a) (agent_domain a) (capabilities a) (trust_level a)
    (agent_created_at a) b.

(** An entry of a capability list: a plain name or a model. *)
Inductive cap_entry := CapName (s : string) | CapObj (c : Capability).

Definition coerce_entry (e : cap_entry) : result Capability :=
  match e with CapObj c => Ok c | CapName s => default_capability s end.

Fixpoint coerce_capabilities (l : list cap_entry) : result (list Capability) :=
  match l with
  | [] => Ok []
  | e :: l' => c ← coerce_entry e; cs ← coerce_capabilities l'; Ok (c :: cs)
  end.

Definition normalize_id (value : string) : result string :=
  let v := py_strip value in if String.eqb v "" then Err ValueError else Ok v.

Definition new_agent (id name domain : string) (caps : list cap_entry) (trust : TrustLevel)
    (created : datetime) (is_revoked : bool) : result Agent :=
  id ← normalize_id id;
  if String.eqb name "" then Err ValueError
  else caps ← coerce_capabilities caps;
       Ok (mk_Agent id name domain caps trust created is_revoked).

Definition has_capability (a : Agent) (name : string) : bool :=
  let needle := py_lower (py_strip name) in
  existsb (fun cap => String.eqb (cap_name cap) needle) (capabilities a).

Definition capability_level (a : Agent) (name : string) : option ActionClass :=
  cap_max_level <$>
    List.find (fun cap => String.eqb (cap_name cap) (py_lower (py_strip name))) (capabilities a).

Definition grant (a : Agent) (e : cap_entry) : result Agent :=
  cap ← coerce_entry e;
  Ok (if has_capability a (cap_name cap) then a
      else set_capabilities (capabilities a ++ [cap]) a).

Definition agent_revoke_capability (a : Agent) (name : string) : Agent :=
  let needle := py_lower (py_strip name) in
  set_capabilities (List.filter (fun cap => negb (String.eqb (cap_name cap) needle)) (capabilities a)) a.

(** ** Facts *)

Lemma level_bounds a : (0 <= level a <= 5)%Z.
Proof. destruct a; vm_compute; split; discriminate. Qed.

Lemma level_inj a b : level a = level b -> a = b.
Proof. destruct a, b; vm_compute; congruence. Qed.

Lemma coerce_capabilities_names l caps :
  coerce_capabilities l = Ok caps -> length caps = length l.
Proof.
  revert caps. induction l as [|e l IH]; cbn; [by intros ? [= <-]|].
  intros caps. destruct (coerce_entry e); cbn; [|done].
  destruct (coerce_capabilities l); cbn; [|done]. intros [= <-]. cbn. f_equal. by apply IH.
Qed.

(** A name survives [revoke_capability] exactly when it is not the needle. *)
Lemma revoke_capability_names a name n :
  n ∈ map cap_name (capabilities (agent_revoke_capability a name)) <->
  n <> py_lower (py_strip name) /\ n ∈ map cap_name (capabilities a).
Proof.
  cbn. rewrite !list_elem_of_In, !in_map_iff. setoid_rewrite List.filter_In.
  setoid_rewrite negb_true_iff. setoid_rewrite String.eqb_neq. naive_solver.
Qed.
