(* ===== verification/Policies.v ===== *)
(** * The policy engine

    [src/agency/kernel/policies.py]: scoped permissions, the glob matcher that
    goes through a regular expression, file-system policies over POSIX paths,
    and [PolicyEngine.evaluate].  [evaluate] reads the clock in [is_expired];
    that instant is the parameter [now]. *)
From S2P Require Import Prelude PyStr PyDict Identity.

Definition required_trust (a : ActionClass) : TrustLevel :=
  match a with
  | L0_OBSERVATION => UNKNOWN
  | L1_SAFE_ANALYSIS => OBSERVED
  | L2_CONTROLLED_TESTING => VERIFIED
  | L3_HIGH_IMPACT => TRUSTED
  | L4_PRODUCTION => TRUSTED
  | L5_DESTRUCTIVE => HIGH_TRUST
  end.

(** ** Network, file-system, data and resource policies *)

Inductive NetworkScope := NET_NONE | LOOPBACK | PRIVATE | LIMITED | FULL.

Record NetworkPolicy := mk_NetworkPolicy {
  net_scope : NetworkScope;
  allowed_hosts : list string;
  allowed_ports : list Z;
}.

(** [NetworkPolicy.allows] *)
Definition net_allows (p : NetworkPolicy) (host : string) (port : Z) : bool :=
  if negb (bool_decide (allowed_hosts p = [])) && negb (bool_decide (host ∈ allowed_hosts p))
  then false
  else bool_decide (allowed_ports p = []) || bool_decide (port ∈ allowed_ports p).

(** [PurePosixPath]: the root prefix, then the parts without empty ones and
    dots. *)
Fixpoint split_on (sep : ascii) (cur : chars) (l : chars) : list chars :=
  match l with
  | [] => [rev cur]
  | c :: l' => if Ascii.eqb c sep then rev cur :: split_on sep [] l'
               else split_on sep (c :: cur) l'
  end.

Definition slash : ascii := "/"%char.
Definition dot : ascii := "."%char.

Definition path_root (l : chars) : chars :=
  match l with
  | c1 :: c2 :: c3 :: _ =>
      if Ascii.eqb c1 slash
      then if Ascii.eqb c2 slash && negb (Ascii.eqb c3 slash) then [slash; slash] else [slash]
      else []
  | [c1; c2] => if Ascii.eqb c1 slash
                then if Ascii.eqb c2 slash then [slash; slash] else [slash] else []
  | [c1] => if Ascii.eqb c1 slash then [slash] else []
  | [] => []
  end.

Definition path_parts (l : chars) : list chars :=
  List.filter (fun p => negb (bool_decide (p = [])) && negb (bool_decide (p = [dot])))
    (split_on slash [] l).

Fixpoint join_parts (sep : ascii) (ps : list chars) : chars :=
  match ps with
  | [] => []
  | [p] => p
  | p :: ps' => p ++ sep :: join_parts sep ps'
  end.

(** [str(PurePosixPath(s))] *)
Definition path_str (s : string) : string :=
  let l := to_chars s in
  let text := path_root l ++ join_parts slash (path_parts l) in
  if bool_decide (text = []) then "." else of_chars text.

(** [PurePosixPath(s).suffix]: from the last dot of the last part, unless that
    dot is its first or its last character. *)
Definition suffix_of (name : chars) : chars :=
  let r := rev name in
  let ext := take_until dot r in
  let rest := drop (S (length ext)) r in
  if bool_decide (ext = []) || bool_decide (rest = []) then [] else dot :: rev ext.

Definition path_suffix (s : string) : string :=
  match List.rev (path_parts (to_chars s)) with
  | [] => ""
  | name :: _ => of_chars (suffix_of name)
  end.

Record FilesystemPolicy := mk_FilesystemPolicy {
  roots : list string;
  read_only : bool;
  forbidden_suffixes : list string;
}.

Definition within_roots (p : FilesystemPolicy) (path : string) : bool :=
  if bool_decide (path_suffix path ∈ forbidden_suffixes p) then false
  else existsb (fun root => py_startswith (path_str path) (path_str root)) (roots p).

Definition allows_read (p : FilesystemPolicy) (path : string) : bool := within_roots p path.

Definition allows_write (p : FilesystemPolicy) (path : string) : bool :=
  if read_only p then false else within_roots p path.

Record DataPolicy := mk_DataPolicy {
  allow_pii : bool;
  allow_persist : bool;
  max_egress_bytes : Z;
  allowed_data_types : list string;
}.

Record ResourceLimits := mk_ResourceLimits {
  max_cpu_seconds : Z;
  max_memory_mb : Z;
  max_network_mb : Z;
  max_concurrency : Z;
}.

(** ** Permissions *)

Record Permission := mk_Permission {
  perm_agent_id : string;
  target_scope : string;
  perm_capabilities : list string;
  network_policy : NetworkPolicy;
  filesystem_policy : FilesystemPolicy;
  data_policy : DataPolicy;
  time_limit : option Z;  (* a timedelta, in microseconds *)
  resource_limits : ResourceLimits;
  perm_created_at : datetime;
  expires_at : option datetime;
  human_approved : bool;
}.

Definition validate_scope (value : string) : result string :=
  let value := py_strip value in
  if String.eqb value "" then Err ValueError
  else if existsb (fun c => in_range 32 32 c || in_range 9 10 c) (to_chars value)
       then Err ValueError else Ok value.

Definition coerce_names (value : list string) : list string :=
  map (fun cap => py_lower (py_strip cap)) (List.filter (fun cap => negb (is_blank cap)) value).

(** [Permission(...)]: the field constraints and the two validators. *)
Definition new_permission (agent scope : string) (caps : list string) (net : NetworkPolicy)
    (fs : FilesystemPolicy) (data : DataPolicy) (limit : option Z) (res : ResourceLimits)
    (created : datetime) (expires : option datetime) (human : bool) : result Permission :=
  if String.eqb agent "" || String.eqb scope "" then Err ValueError
  else if (max_egress_bytes data <? 0)%Z || (max_cpu_seconds res <? 0)%Z
          || (max_memory_mb res <? 0)%Z || (max_network_mb res <? 0)%Z
          || (max_concurrency res <? 1)%Z then Err ValueError
  else scope ← validate_scope scope;
       Ok (mk_Permission agent scope (coerce_names caps) net fs data limit res created expires human).

Definition is_expired (p : Permission) (now : datetime) : result bool :=
  let relative :=
    match time_limit p with
    | None => Ok false
    | Some limit =>
        dead ← (if dt_aware (perm_created_at p)
                then dt_plus (perm_created_at p) limit else Ok (perm_created_at p));
        dt_ge now (if dt_aware dead then dead else dt_as_utc dead)
    end in
  match expires_at p with
  | None => relative
  | Some e => lapsed ← dt_ge now e; if (lapsed : bool) then Ok true else relative
  end.

(** ** Scope globs *)

Definition special_re_chars : chars := to_chars ".^$+?[]{}()\|".

(** [_re_escape] *)
Definition re_escape (c : ascii) : chars :=
  if bool_decide (c ∈ special_re_chars) then ["\"%char; c] else [c].

(** [_glob_to_regex] *)
Definition glob_to_regex (pattern : chars) : chars :=
  "^"%char :: flat_map (fun c => if Ascii.eqb c "*"%char then to_chars ".*" else re_escape c) pattern
  ++ ["$"%char].

(** The fragment of Python's [re] syntax these patterns use: anchors, [.],
    [.*], escaped punctuation and literal characters.  Anything else is not
    in the fragment ([None]). *)
Inductive rtok := RBegin | REnd | RAnyStar | RAny | RLit (c : ascii).

Definition re_unsupported : chars := to_chars "*+?[{()|".

Fixpoint re_parse (l : chars) : option (list rtok) :=
  match l with
  | [] => Some []
  | c :: l1 =>
      if Ascii.eqb c "\"%char then
        match l1 with
        | d :: l2 => if is_alnum d then None else cons (RLit d) <$> re_parse l2
        | [] => None
        end
      else if Ascii.eqb c "."%char then
        match l1 with
        | d :: l2 => if Ascii.eqb d "*"%char then cons RAnyStar <$> re_parse l2
                     else cons RAny <$> re_parse l1
        | [] => Some [RAny]
        end
      else if Ascii.eqb c "^"%char then cons RBegin <$> re_parse l1
      else if Ascii.eqb c "$"%char then cons REnd <$> re_parse l1
      else if bool_decide (c ∈ re_unsupported) then None
      else cons (RLit c) <$> re_parse l1
  end.

(** [re.match]: some prefix of the text matches; [.] does not match a newline,
    and [$] matches at the end or before a final newline. *)
Fixpoint re_run (toks : list rtok) (start : bool) (l : chars) : bool :=
  match toks with
  | [] => true
  | RBegin :: ts => start && re_run ts start l
  | REnd :: ts => (bool_decide (l = []) || bool_decide (l = [newline])) && re_run ts start l
  | RLit c :: ts =>
      match l with d :: l' => Ascii.eqb c d && re_run ts false l' | [] => false end
  | RAny :: ts =>
      match l with d :: l' => negb (Ascii.eqb d newline) && re_run ts false l' | [] => false end
  | RAnyStar :: ts =>
      (fix star start l :=
         re_run ts start l ||
         match l with d :: l' => negb (Ascii.eqb d newline) && star false l' | [] => false end)
      start l
  end.

Definition re_match (pattern text : chars) : option bool :=
  toks ← re_parse pattern; Some (re_run toks true text).

(** [Permission.matches_scope] *)
Definition matches_scope (p : Permission) (target : string) : bool :=
  if String.eqb (target_scope p) "*" then true
  else default false (re_match (glob_to_regex (to_chars (target_scope p))) (to_chars target)).

(** ** The engine *)

(** Permissions in the order granted, keyed by agent and scope. *)
Definition PolicyEngine : Type := (list ((string * string) * Permission)).

Definition issue (perm : Permission) (e : PolicyEngine) : PolicyEngine :=
  dset (perm_agent_id perm, target_scope perm) perm e.

Definition revoke (agent scope : string) (e : PolicyEngine) : bool * PolicyEngine :=
  (dmem (agent, scope) e, ddel (agent, scope) e).

Definition revoke_all (agent : string) (e : PolicyEngine) : Z * PolicyEngine :=
  let expired := List.filter (fun k => String.eqb k.1 agent) (dkeys e) in
  (Z.of_nat (length expired), fold_left (fun e k => ddel k e) expired e).

Definition permissions_for (agent : string) (e : PolicyEngine) : list Permission :=
  map snd (List.filter (fun kp => String.eqb kp.1.1 agent) e).

(** Why a request is denied. *)
Inductive reason :=
| agent_revoked
| trust_too_low (have need : TrustLevel)
| no_capability_covers
| needs_human_approval
| no_permission
| permission_expired
| grants_nothing
| ceilings_too_low.

#[export] Instance reason_eq_dec : EqDecision reason.
Proof. solve_decision. Defined.

Record Decision := mk_Decision {
  allowed : bool;
  dec_action : ActionClass;
  dec_agent_id : string;
  dec_target : string;
  reasons : list reason;
  matched_permission : option Permission;
}.

Definition is_production (a : ActionClass) : bool :=
  bool_decide (a ∈ [L4_PRODUCTION; L5_DESTRUCTIVE]).

(** [_human_gate_met] *)
Definition human_gate_met (e : PolicyEngine) (action : ActionClass) (agent : Agent)
    (target : string) : bool :=
  existsb (fun perm =>
    human_approved perm && matches_scope perm target &&
    negb (bool_decide (action = L5_DESTRUCTIVE) && bool_decide (time_limit perm = None)))
    (permissions_for (agent_id agent) e).

(** The permission loop of [evaluate]: the first match in granting order. *)
Definition first_match (e : PolicyEngine) (agent target : string) : option Permission :=
  snd <$> List.find (fun kp => String.eqb kp.1.1 agent && matches_scope kp.2 target) e.

(** [{cap.name: cap.max_level.level for cap in agent.capabilities}] *)
Definition ceilings (caps : list Capability) : list (string * Z) :=
  fold_left (fun d cap => dset (cap_name cap) (level (cap_max_level cap)) d) caps [].

Definition granted_names (perm : Permission) (agent : Agent) : list string :=
  List.filter (fun n => bool_decide (n ∈ map cap_name (capabilities agent))) (perm_capabilities perm).

(** [max(ceilings[name] for name in granted)] of a non-empty set of names. *)
Fixpoint max_ceiling (d : list (string * Z)) (names : list string) : Z :=
  match names with
  | [] => 0
  | n :: ns => Z.max (default 0%Z (dget n d)) (max_ceiling d ns)
  end.

Definition permission_reasons (perm : Permission) (action : ActionClass) (agent : Agent)
    (now : datetime) : result (list reason) :=
  expired ← is_expired perm now;
  let granted := granted_names perm agent in
  Ok ((if (expired : bool) then [permission_expired] else []) ++
      (if bool_decide (granted = []) then [grants_nothing]
       else if (max_ceiling (ceilings (capabilities agent)) granted <? level action)%Z
            then [ceilings_too_low] else [])).

(** [PolicyEngine.evaluate] *)
Definition evaluate (e : PolicyEngine) (action : ActionClass) (agent : Agent) (target : string)
    (now : datetime) : result Decision :=
  let required := required_trust action in
  let rs :=
    (if revoked agent then [agent_revoked] else []) ++
    (if (rank (trust_level agent) <? rank required)%Z
     then [trust_too_low (trust_level agent) required] else []) ++
    (if negb (existsb (fun cap => (level action <=? level (cap_max_level cap))%Z) (capabilities agent))
     then [no_capability_covers] else []) ++
    (if is_production action && negb (human_gate_met e action agent target)
     then [needs_human_approval] else []) in
  let matched := first_match e (agent_id agent) target in
  more ← match matched with
         | None => Ok [no_permission]
         | Some perm => permission_reasons perm action agent now
         end;
  let rs := rs ++ more in
  Ok (mk_Decision (bool_decide (rs = [])) action (agent_id agent) target rs matched).

(** [PolicyEngine.can_execute] *)
Definition can_execute (e : PolicyEngine) (action : ActionClass) (agent : Agent) (target : string)
    (now : datetime) : result bool :=
  d ← evaluate e action agent target now; Ok (allowed d).

(** ** Scope globs: the regular expression means the glob *)

Definition star : ascii := "*"%char.

(** What a scope glob denotes: [*] stands for any run without a newline,
    every other character for itself. *)
Inductive glob : chars -> chars -> Prop :=
| glob_nil : glob [] []
| glob_lit c p s : c <> star -> glob p s -> glob (c :: p) (c :: s)
| glob_skip p s : glob p s -> glob (star :: p) s
| glob_eat p c s : c <> newline -> glob (star :: p) s -> glob (star :: p) (c :: s).

Definition glob_tok (c : ascii) : rtok := if Ascii.eqb c star then RAnyStar else RLit c.

Lemma re_parse_glob_char c rest :
  re_parse ((if Ascii.eqb c star then to_chars ".*" else re_escape c) ++ rest) =
  cons (glob_tok c) <$> re_parse rest.
Proof. destruct c as [[] [] [] [] [] [] [] []]; reflexivity. Qed.

(** Every pattern [_glob_to_regex] builds is in the fragment, and parses to the
    glob's own tokens between anchors: escaping is complete. *)
Lemma re_parse_glob p :
  re_parse (glob_to_regex p) = Some (RBegin :: map glob_tok p ++ [REnd]).
Proof.
  unfold glob_to_regex. cbn [re_parse Ascii.eqb]. cbn.
  assert (forall q, re_parse (flat_map (fun c => if Ascii.eqb c star then to_chars ".*"
    else re_escape c) q ++ ["$"%char]) = Some (map glob_tok q ++ [REnd])) as Hq.
  { induction q as [|c q IH]; [done|]. cbn [flat_map]. rewrite <- app_assoc, re_parse_glob_char, IH.
    done. }
  by rewrite Hq.
Qed.

Lemma glob_star_inv p s : glob (star :: p) s ->
  glob p s \/ exists c s', s = c :: s' /\ c <> newline /\ glob (star :: p) s'.
Proof. inversion 1; subst; naive_solver. Qed.

Lemma re_run_glob p start l :
  re_run (map glob_tok p ++ [REnd]) start l = true <->
  exists body, glob p body /\ (l = body \/ l = body ++ [newline]).
Proof.
  revert start l. induction p as [|c p IH]; intros start l.
  - cbn. rewrite andb_true_r, orb_true_iff, !bool_decide_eq_true. split.
    + intros Hl. exists []. split; [constructor|]. naive_solver.
    + intros (body & Hb & Hl). inversion Hb; subst. naive_solver.
  - cbn [map app]. unfold glob_tok at 1.
    destruct (Ascii.eqb c star) eqn:Hc; cbn [re_run].
    + apply Ascii.eqb_eq in Hc as ->. revert start. induction l as [|d l IHl]; intros start.
      * rewrite orb_false_r, IH. split; intros (body & Hb & Hl); exists body; split; auto.
        -- by constructor.
        -- apply glob_star_inv in Hb as [?|(? & ? & -> & ? & ?)]; [done|]. naive_solver.
      * rewrite orb_true_iff, andb_true_iff, IH, IHl, negb_true_iff, Ascii.eqb_neq. split.
        -- intros [(body & Hb & Hl)|(Hd & body & Hb & Hl)].
           ++ exists body. split; [by constructor|done].
           ++ exists (d :: body). split; [by constructor|]. cbn. naive_solver.
        -- intros (body & Hb & Hl).
           apply glob_star_inv in Hb as [?|(x & s' & -> & ? & ?)]; [left; eauto|].
           right. destruct Hl as [[= -> ->]|[= -> ->]]; eauto.
    + apply Ascii.eqb_neq in Hc. destruct l as [|d l].
      * split; [done|]. intros (body & Hb & Hl). inversion Hb; subst; naive_solver.
      * rewrite andb_true_iff, Ascii.eqb_eq, IH. split.
        -- intros (-> & body & Hb & Hl). exists (d :: body).
           split; [by constructor|]. cbn. naive_solver.
        -- intros (body & Hb & Hl). inversion Hb; subst; [|done..].
           destruct Hl as [[= -> ->]|[= -> ->]]; eauto.
Qed.

(** A permission covers a target exactly when its scope is the single star,
    or the target is a string the glob denotes, with at most one newline added
    at the end ([$] of Python's [re] allows it); the detour through an escaped
    regular expression changes nothing else. *)
Theorem matches_scope_denotes p target :
  matches_scope p target = true <->
  target_scope p = "*" \/
  exists body, glob (to_chars (target_scope p)) body /\
    (to_chars target = body \/ to_chars target = body ++ [newline]).
Proof.
  unfold matches_scope. destruct (String.eqb_spec (target_scope p) "*") as [->|Hne]; [naive_solver|].
  unfold re_match. rewrite re_parse_glob. cbn [default mbind option_bind re_run andb].
  cbn. rewrite re_run_glob. naive_solver.
Qed.

(** ** What [evaluate] authorizes *)

(** The ceiling that counts for a capability name: the last claim of it. *)
Definition effective_ceiling (caps : list Capability) (n : string) : option Capability :=
  List.find (fun cap => String.eqb (cap_name cap) n) (rev caps).

(** The contract of the engine, free of the evaluation order. *)
Record authorized (e : PolicyEngine) (action : ActionClass) (agent : Agent) (target : string)
    (now : datetime) : Prop := {
  auth_live : revoked agent = false;
  auth_trust : (rank (required_trust action) <= rank (trust_level agent))%Z;
  auth_capability : exists cap, cap ∈ capabilities agent /\ (level action <= level (cap_max_level cap))%Z;
  auth_human : is_production action = true ->
    exists perm, perm ∈ permissions_for (agent_id agent) e /\ human_approved perm = true /\
      matches_scope perm target = true /\ (action = L5_DESTRUCTIVE -> time_limit perm <> None);
  auth_permission : exists perm n cap,
    first_match e (agent_id agent) target = Some perm /\ is_expired perm now = Ok false /\
    n ∈ perm_capabilities perm /\ effective_ceiling (capabilities agent) n = Some cap /\
    (level action <= level (cap_max_level cap))%Z;
}.

Lemma ceilings_lookup caps n :
  dget n (ceilings caps) = (fun cap => level (cap_max_level cap)) <$> effective_ceiling caps n.
Proof.
  unfold ceilings, effective_ceiling. induction caps as [|cap caps IH] using rev_ind; [done|].
  rewrite fold_left_app, rev_app_distr. cbn.
  destruct (String.eqb_spec (cap_name cap) n) as [->|Hne]; cbn.
  - by rewrite dget_dset_eq.
  - by rewrite dget_dset_ne.
Qed.

Lemma effective_ceiling_None caps n :
  effective_ceiling caps n = None <-> n ∉ map cap_name caps.
Proof.
  unfold effective_ceiling. rewrite list_elem_of_In, in_map_iff. split.
  - intros Hf (cap & Hn & Hin). apply in_rev in Hin.
    pose proof (List.find_none _ _ Hf cap Hin) as Hc. cbn in Hc. by apply String.eqb_neq in Hc.
  - intros Hn. destruct (List.find _ _) as [cap|] eqn:Hf; [|done]. exfalso. apply Hn.
    apply List.find_some in Hf as [Hin Hc]. apply String.eqb_eq in Hc.
    exists cap. split; [done|]. by apply in_rev.
Qed.

Lemma effective_ceiling_Some caps n :
  n ∈ map cap_name caps <-> is_Some (effective_ceiling caps n).
Proof.
  pose proof (effective_ceiling_None caps n) as Hn. destruct (effective_ceiling caps n) as [cap|].
  - split; [done|]. intros _. destruct (decide (n ∈ map cap_name caps)) as [|Hni]; [done|].
    by apply Hn in Hni.
  - split; [|by intros []]. intros Hin. by destruct (proj1 Hn eq_refl).
Qed.

Lemma max_ceiling_ge d names z :
  (0 < z)%Z ->
  (z <= max_ceiling d names)%Z <-> exists n, n ∈ names /\ (z <= default 0 (dget n d))%Z.
Proof.
  intros Hz. induction names as [|n ns IH]; cbn.
  - split; [lia|]. by intros (? & ?%elem_of_nil & _).
  - split.
    + intros Hle. destruct (decide (z <= default 0 (dget n d))%Z) as [Hn|Hn];
        [exists n; split; [constructor|done]|].
      destruct (proj1 IH) as (m & Hm & Hzm); [lia|]. exists m. split; [by constructor|done].
    + intros (m & [->|Hm]%elem_of_cons & Hzm); [lia|]. pose proof (proj2 IH (ex_intro _ m (conj Hm Hzm))).
      lia.
Qed.

(** A granted name reaches the action's level. *)
Lemma granted_reaches perm action agent :
  granted_names perm agent <> [] /\
  (level action <= max_ceiling (ceilings (capabilities agent)) (granted_names perm agent))%Z <->
  exists n cap, n ∈ perm_capabilities perm /\
    effective_ceiling (capabilities agent) n = Some cap /\
    (level action <= level (cap_max_level cap))%Z.
Proof.
  assert (forall n, n ∈ granted_names perm agent <->
    n ∈ perm_capabilities perm /\ is_Some (effective_ceiling (capabilities agent) n)) as Hg.
  { intros n. unfold granted_names. rewrite elem_of_filter_bool, bool_decide_eq_true.
    rewrite (effective_ceiling_Some (capabilities agent) n). tauto. }
  pose proof (level_bounds action) as Hlb. split.
  - intros [Hne Hle]. destruct (decide (level action = 0)%Z) as [Hz|Hz].
    + destruct (granted_names perm agent) as [|n ns] eqn:Hn; [done|].
      destruct (proj1 (Hg n)) as [Hin [cap Hcap]]; [constructor|].
      exists n, cap. pose proof (level_bounds (cap_max_level cap)). repeat split; try done; lia.
    + apply max_ceiling_ge in Hle as (n & Hn & Hle); [|lia].
      apply Hg in Hn as [Hin [cap Hcap]]. exists n, cap.
      rewrite ceilings_lookup, Hcap in Hle. cbn in Hle. done.
  - intros (n & cap & Hin & Hcap & Hle).
    assert (n ∈ granted_names perm agent) as Hn by (apply Hg; eauto).
    split; [by intros Hnil; rewrite Hnil in Hn; apply elem_of_nil in Hn|].
    destruct (decide (level action = 0)%Z) as [Hz|Hz].
    + assert (0 <= max_ceiling (ceilings (capabilities agent)) (granted_names perm agent))%Z; [|lia].
      generalize (granted_names perm agent). intros l. induction l; cbn; lia.
    + apply max_ceiling_ge; [lia|]. exists n. split; [done|]. by rewrite ceilings_lookup, Hcap.
Qed.

Lemma human_gate_spec e action agent target :
  human_gate_met e action agent target = true <->
  exists perm, perm ∈ permissions_for (agent_id agent) e /\ human_approved perm = true /\
    matches_scope perm target = true /\ (action = L5_DESTRUCTIVE -> time_limit perm <> None).
Proof.
  unfold human_gate_met. rewrite existsb_exists. split; intros (perm & Hp); exists perm;
    rewrite list_elem_of_In in *; rewrite !andb_true_iff, negb_true_iff, andb_false_iff,
      !bool_decide_eq_false in *; [naive_solver|].
  destruct Hp as (Hin & Hh & Hm & Hl). repeat split; try done.
  destruct (decide (action = L5_DESTRUCTIVE)); auto.
Qed.

Lemma permission_reasons_nil perm action agent now :
  permission_reasons perm action agent now = Ok [] <->
  is_expired perm now = Ok false /\
  exists n cap, n ∈ perm_capabilities perm /\
    effective_ceiling (capabilities agent) n = Some cap /\ (level action <= level (cap_max_level cap))%Z.
Proof.
  rewrite <- granted_reaches. unfold permission_reasons.
  destruct (is_expired perm now) as [[]|err]; cbn; [naive_solver| |naive_solver].
  case_bool_decide as Hg; [naive_solver|].
  destruct (Z.ltb_spec (max_ceiling (ceilings (capabilities agent)) (granted_names perm agent))
              (level action)) as [Hlt|Hge]; [|naive_solver].
  split; [done|]. intros (_ & _ & ?). lia.
Qed.

(** The reasons that do not depend on the matched permission vanish together. *)
Lemma base_reasons_nil e action agent target :
  (if revoked agent then [agent_revoked] else []) ++
  (if (rank (trust_level agent) <? rank (required_trust action))%Z
   then [trust_too_low (trust_level agent) (required_trust action)] else []) ++
  (if negb (existsb (fun cap => (level action <=? level (cap_max_level cap))%Z) (capabilities agent))
   then [no_capability_covers] else []) ++
  (if is_production action && negb (human_gate_met e action agent target)
   then [needs_human_approval] else []) = [] <->
  revoked agent = false /\ (rank (required_trust action) <= rank (trust_level agent))%Z /\
  (exists cap, cap ∈ capabilities agent /\ (level action <= level (cap_max_level cap))%Z) /\
  (is_production action = true -> human_gate_met e action agent target = true).
Proof.
  rewrite !app_nil_iff, !if_nil_iff, Z.ltb_ge, negb_false_iff, existsb_exists.
  setoid_rewrite Z.leb_le. setoid_rewrite list_elem_of_In.
  destruct (is_production action), (human_gate_met e action agent target); cbn; naive_solver.
Qed.

Lemma evaluate_allowed_authorized e action agent target now :
  (exists d, evaluate e action agent target now = Ok d /\ allowed d = true) <->
  authorized e action agent target now.
Proof.
  pose proof (base_reasons_nil e action agent target) as Hbase. unfold evaluate.
  set (rs := _ ++ _ ++ _ ++ _) in *. split.
  - intros (d & Hd & Hal). apply result_bind_ok in Hd as (more & Hmore & [= <-]).
    cbn in Hal. apply bool_decide_eq_true, app_nil_iff in Hal as [Hrs ->].
    apply Hbase in Hrs as (H1 & H2 & H3 & H4).
    destruct (first_match e (agent_id agent) target) as [perm|] eqn:Hfm; [|done].
    apply permission_reasons_nil in Hmore as (Hexp & n & cap & Hn).
    split; eauto 10. intros Hp. by apply human_gate_spec, H4.
  - intros [H1 H2 H3 H4 (perm & n & cap & Hfm & Hexp & Hn)]. rewrite Hfm.
    rewrite (proj2 (permission_reasons_nil perm action agent now)) by eauto 10.
    eexists. split; [reflexivity|]. cbn. apply bool_decide_eq_true. rewrite app_nil_r.
    apply Hbase. repeat split; try done. intros Hp. by apply human_gate_spec, H4.
Qed.

(** ** Engine bookkeeping *)

Lemma ddel_keys_filter (ks : list (string * string)) (e : PolicyEngine) :
  fold_left (fun e k => ddel k e) ks e =
  List.filter (fun kp => negb (bool_decide (kp.1 ∈ ks))) e.
Proof.
  revert e. induction ks as [|k ks IH]; intros e; cbn.
  - symmetry. apply List.forallb_filter_id, List.forallb_forall. intros kp _.
    by rewrite bool_decide_false by apply not_elem_of_nil.
  - rewrite IH. unfold ddel. clear IH. induction e as [|[k' p'] e IH]; [done|]. cbn.
    destruct (decide (k' = k)) as [->|Hne].
    + rewrite bool_decide_true by done. rewrite (bool_decide_true (k ∈ k :: ks)) by constructor.
      done.
    + rewrite bool_decide_false by done. cbn.
      rewrite (bool_decide_ext (k' ∈ k :: ks) (k' ∈ ks)) by (rewrite elem_of_cons; naive_solver).
      case_bool_decide; cbn; by rewrite IH.
Qed.

(** [revoke_all] keeps exactly the permissions of other agents, in order. *)
Lemma revoke_all_keeps agent (e : PolicyEngine) :
  (revoke_all agent e).2 = List.filter (fun kp => negb (String.eqb kp.1.1 agent)) e.
Proof.
  unfold revoke_all. cbn [snd]. rewrite ddel_keys_filter. apply List.filter_ext_in.
  intros [k p] Hin. f_equal. cbn [fst].
  apply eq_true_iff_eq. rewrite bool_decide_eq_true, elem_of_filter_bool.
  split; [by intros [? _]|]. intros Hk. split; [done|].
  apply list_elem_of_In, in_map_iff. by exists (k, p).
Qed.

Lemma find_filter_ext {A} (p q : A -> bool) l :
  (forall x, p x = true -> q x = true) -> List.find p (List.filter q l) = List.find p l.
Proof.
  intros Hpq. induction l as [|x l IH]; [done|]. cbn. destruct (q x) eqn:Hq; cbn.
  - by rewrite IH.
  - destruct (p x) eqn:Hp; [|done]. apply Hpq in Hp. congruence.
Qed.

Lemma first_match_revoke_other agent other (e : PolicyEngine) target :
  agent <> other -> first_match (revoke_all agent e).2 other target = first_match e other target.
Proof.
  intros Hne. unfold first_match. rewrite revoke_all_keeps, find_filter_ext; [done|].
  intros kp [Hk _]%andb_true_iff. apply String.eqb_eq in Hk. rewrite Hk.
  by apply negb_true_iff, String.eqb_neq.
Qed.

Lemma filter_filter_ext {A} (p q : A -> bool) l :
  (forall x, p x = true -> q x = true) -> List.filter p (List.filter q l) = List.filter p l.
Proof.
  intros Hpq. induction l as [|x l IH]; [done|]. cbn. destruct (q x) eqn:Hq; cbn.
  - by rewrite IH.
  - destruct (p x) eqn:Hp; [|done]. apply Hpq in Hp. congruence.
Qed.

Lemma permissions_for_revoke_other agent other (e : PolicyEngine) :
  agent <> other -> permissions_for other (revoke_all agent e).2 = permissions_for other e.
Proof.
  intros Hne. unfold permissions_for. rewrite revoke_all_keeps, filter_filter_ext; [done|].
  intros kp Hk. apply String.eqb_eq in Hk. rewrite Hk. by apply negb_true_iff, String.eqb_neq.
Qed.

Lemma can_execute_authorized e action agent target now :
  can_execute e action agent target now = Ok true <-> authorized e action agent target now.
Proof.
  rewrite <- evaluate_allowed_authorized. unfold can_execute. split.
  - intros (d & Hd & [= ?])%result_bind_ok. eauto.
  - intros (d & Hd & Hal). rewrite Hd. cbn. by rewrite Hal.
Qed.

Lemma evaluate_other_fields e action agent target now d :
  evaluate e action agent target now = Ok d ->
  (allowed d = true <-> reasons d = []) /\
  matched_permission d = first_match e (agent_id agent) target.
Proof.
  unfold evaluate. intros (more & _ & [= <-])%result_bind_ok. cbn.
  by rewrite bool_decide_eq_true.
Qed.

Lemma evaluate_err e action agent target now err :
  evaluate e action agent target now = Err err ->
  exists perm, first_match e (agent_id agent) target = Some perm /\ is_expired perm now = Err err.
Proof.
  unfold evaluate. destruct (first_match e (agent_id agent) target) as [perm|]; cbn; [|done].
  unfold permission_reasons. destruct (is_expired perm now) as [x|x] eqn:Hx; cbn; [done|].
  intros [= ->]. eauto.
Qed.

(** C26: the engine decides the contract [authorized] and nothing else.  When
    [evaluate] returns, it allows exactly the authorized requests, gives no
    reason exactly when it allows, and reports the first matching permission;
    when it raises, the request is not authorized and the exception comes from
    comparing that permission's expiry with the clock. *)
Theorem evaluate_spec e action agent target now :
  match evaluate e action agent target now with
  | Ok d =>
      (allowed d = true <-> authorized e action agent target now) /\
      (allowed d = true <-> reasons d = []) /\
      matched_permission d = first_match e (agent_id agent) target
  | Err err =>
      ~ authorized e action agent target now /\
      exists perm, first_match e (agent_id agent) target = Some perm /\ is_expired perm now = Err err
  end.
Proof.
  pose proof (evaluate_allowed_authorized e action agent target now) as Hspec.
  destruct (evaluate e action agent target now) as [d|err] eqn:Hev.
  - split; [|by eapply evaluate_other_fields]. rewrite <- Hspec. naive_solver.
  - split; [|by eapply evaluate_err]. rewrite <- Hspec. naive_solver.
Qed.

(** Severity is a ladder.  An agent that may run an action against a target
    may run every less severe action against it. *)
Theorem can_execute_downward_closed e action lower agent target now
    (Hlower : (level lower <= level action)%Z)
    (Hcan : can_execute e action agent target now = Ok true) :
  can_execute e lower agent target now = Ok true.
Proof.
  rewrite can_execute_authorized in *. destruct Hcan as [H1 H2 (cap & Hcap & Hl) H4 H5].
  split; [done| | |..].
  - destruct lower, action; cbn in *; try lia; by exfalso.
  - exists cap. split; [done|lia].
  - intros Hp. destruct H4 as (perm & Hin & Hh & Hm & Ht).
    { destruct lower, action; try done; by exfalso. }
    exists perm. repeat split; try done. intros ->. apply Ht. destruct action; try done; by exfalso.
  - destruct H5 as (perm & n & c & ? & ? & ? & ? & ?). exists perm, n, c. repeat split; try done. lia.
Qed.

(** [revoke_all] takes every right of the agent away and nobody else's: no
    action of that agent is allowed afterwards, and every decision about another
    agent is what it was. *)
Theorem revoke_all_isolates e agent action target now :
  can_execute (revoke_all (agent_id agent) e).2 action agent target now <> Ok true /\
  forall other, agent_id other <> agent_id agent ->
    evaluate (revoke_all (agent_id agent) e).2 action other target now =
    evaluate e action other target now.
Proof.
  split.
  - rewrite can_execute_authorized. intros [_ _ _ _ (perm & _ & _ & Hfm & _)].
    unfold first_match in Hfm. rewrite revoke_all_keeps in Hfm.
    destruct (List.find _ _) as [[k p]|] eqn:Hfind; [|done].
    apply find_some_elem in Hfind as [Hin Hk]. apply elem_of_filter_bool in Hin as [Hne _].
    breflect. congruence.
  - intros other Hne. unfold evaluate, human_gate_met.
    rewrite first_match_revoke_other, permissions_for_revoke_other by done. done.
Qed.

(** ** Concrete requests *)

Definition no_net : NetworkPolicy := mk_NetworkPolicy NET_NONE [] [].
Definition no_fs : FilesystemPolicy := mk_FilesystemPolicy [] true [].
Definition no_data : DataPolicy := mk_DataPolicy false false 0 [].
Definition no_limits : ResourceLimits := mk_ResourceLimits 0 0 0 1.
Definition epoch : datetime := mk_datetime 0 true.

Definition sample_permission (scope : string) (limit : option Z) (expires : option datetime)
    (human : bool) : Permission :=
  mk_Permission "red-1" scope ["scan"] no_net no_fs no_data limit no_limits epoch expires human.

Definition sample_agent : Agent :=
  mk_Agent "red-1" "Red" "security" [mk_Capability "scan" "" L5_DESTRUCTIVE] HIGH_TRUST epoch false.

Definition sample_engine : PolicyEngine :=
  issue (sample_permission "staging/*" (Some 3600000000)%Z None true) [].

Definition at_second (s : Z) : datetime := mk_datetime (s * 1000000) true.

Lemma can_execute_downward_closed_witness :
  (level L2_CONTROLLED_TESTING <= level L5_DESTRUCTIVE)%Z /\
  can_execute sample_engine L2_CONTROLLED_TESTING sample_agent "staging/db" (at_second 60) = Ok true.
Proof.
  split; [vm_compute; discriminate|].
  apply (can_execute_downward_closed sample_engine L5_DESTRUCTIVE); [vm_compute; discriminate|].
  vm_compute. reflexivity.
Defined.

(** The human gate reads [human_approved] without asking whether that
    permission has lapsed: there are an engine and a target where the only
    approved permission is expired at every instant considered, and a production
    action is still allowed through an earlier permission nobody approved. *)
Theorem expired_approval_opens_gate :
  exists e perm, permissions_for "red-1" e = [sample_permission "*" None None false; perm] /\
    human_approved perm = true /\
    (forall s, (1 <= s <= 1000000)%Z -> is_expired perm (at_second s) = Ok true) /\
    (forall s, (1 <= s <= 1000000)%Z ->
       can_execute e L4_PRODUCTION sample_agent "prod/db" (at_second s) = Ok true).
Proof.
  exists (issue (sample_permission "prod/*" None (Some (at_second 1)) true)
            (issue (sample_permission "*" None None false) [])),
    (sample_permission "prod/*" None (Some (at_second 1)) true).
  split; [reflexivity|]. split; [reflexivity|]. split.
  - intros s Hs. unfold is_expired, dt_ge. cbn -[Z.leb Z.mul].
    by rewrite (proj2 (Z.leb_le _ _)) by lia.
  - intros s _. vm_compute. reflexivity.
Qed.

(** A naive [created_at] makes any [time_limit] lapse at creation. *)
Lemma naive_created_at_lapses perm limit now :
  time_limit perm = Some limit -> dt_aware (perm_created_at perm) = false ->
  expires_at perm = None -> dt_aware now = true ->
  is_expired perm now = Ok (dt_us (perm_created_at perm) <=? dt_us now)%Z.
Proof.
  intros Hl Ha He Hn. unfold is_expired. rewrite Hl, He, Ha. cbn. rewrite Ha.
  unfold dt_ge. by rewrite Hn.
Qed.

(** ** File names the policy is meant to forbid *)

Lemma split_on_app_last name cur l :
  slash ∉ name ->
  exists ps, split_on slash cur (l ++ slash :: name) = ps ++ [name].
Proof.
  intros Hname. revert cur. induction l as [|c l IH]; intros cur; cbn.
  - exists [rev cur]. cbn. f_equal.
    assert (forall cur', split_on slash cur' name = [rev cur' ++ name]) as Hs; [|by rewrite Hs].
    clear cur. induction name as [|d name IHn]; intros cur; cbn; [by rewrite app_nil_r|].
    apply not_elem_of_cons in Hname as [Hd Hname].
    destruct (Ascii.eqb_spec d slash); [by subst|]. rewrite IHn by done. cbn.
    by rewrite <- app_assoc.
  - destruct (Ascii.eqb c slash).
    + destruct (IH []) as [ps ->]. by exists (rev cur :: ps).
    + apply IH.
Qed.

Lemma take_until_absent c l : c ∉ l -> take_until c l = l.
Proof.
  induction l as [|d l IH]; cbn; [done|]. rewrite not_elem_of_cons. intros [Hne Hl].
  destruct (Ascii.eqb_spec d c); [by subst|]. by rewrite IH.
Qed.

Lemma take_until_last c l : c ∉ l -> take_until c (l ++ [c]) = l.
Proof.
  induction l as [|d l IH]; cbn; [by rewrite Ascii.eqb_refl|]. rewrite not_elem_of_cons.
  intros [Hne Hl]. destruct (Ascii.eqb_spec d c); [by subst|]. by rewrite IH.
Qed.

Lemma suffix_of_dotfile name : dot ∉ name -> suffix_of (dot :: name) = [].
Proof.
  intros Hname. unfold suffix_of. cbn [rev].
  assert (dot ∉ rev name) as Hrev by (rewrite list_elem_of_In, <- List.in_rev, <- list_elem_of_In; done).
  rewrite take_until_last by done.
  rewrite bool_decide_true with (P := drop _ _ = []); [by rewrite orb_true_r|].
  apply drop_ge. rewrite length_app. cbn. lia.
Qed.

(** A dot file has no suffix for [PurePosixPath], so no entry of
    [forbidden_suffixes] other than the empty one ever stops it: in particular
    [.env], the example of the field's own description, can be read under any
    allowed root. *)
Theorem dotfile_never_forbidden (p : FilesystemPolicy) (dir name : string)
    (Hname : slash ∉ to_chars name) (Hdot : dot ∉ to_chars name) (Hne : name <> "")
    (Hempty : "" ∉ forbidden_suffixes p) :
  allows_read p (dir +:+ "/." +:+ name) =
  existsb (fun root => py_startswith (path_str (dir +:+ "/." +:+ name)) (path_str root)) (roots p).
Proof.
  assert (path_suffix (dir +:+ "/." +:+ name) = "") as Hsuf; [|].
  { unfold path_suffix, path_parts. rewrite to_chars_app.
    destruct (split_on_app_last (dot :: to_chars name) [] (to_chars dir)) as [ps Hps].
    { rewrite not_elem_of_cons. split; [vm_decide|done]. }
    change (to_chars ("/." +:+ name)) with (slash :: dot :: to_chars name).
    rewrite Hps, List.filter_app, rev_app_distr. cbn.
    rewrite bool_decide_false by (intros [= Hn]; by apply Hne, to_chars_inj).
    cbn. rewrite suffix_of_dotfile by done. done. }
  unfold allows_read, within_roots. by rewrite Hsuf, bool_decide_false.
Qed.

Definition env_policy : FilesystemPolicy := mk_FilesystemPolicy ["/srv"] true [".env"; ".pem"].

Lemma dotfile_never_forbidden_witness : allows_read env_policy "/srv/app/.env" = true.
Proof.
  change (allows_read env_policy ("/srv/app" +:+ "/." +:+ "env") = true).
  rewrite (dotfile_never_forbidden env_policy "/srv/app" "env").
  - vm_compute. reflexivity.
  - vm_decide.
  - vm_decide.
  - discriminate.
  - vm_decide.
Defined.

(** Roots are compared as strings: a sibling directory whose name extends the
    root's, and a path that climbs out of it, are inside. *)
Lemma root_prefix_is_not_containment :
  allows_read (mk_FilesystemPolicy ["/srv/data"] true []) "/srv/database/dump" = true /\
  allows_read (mk_FilesystemPolicy ["/srv/data"] true []) "/srv/data/../secret" = true.
Proof. by split; vm_compute. Qed.
