(* ===== verification/AgentRegistry.v ===== *)
(** * The agent registry

    [src/agency/kernel/registry.py]: identity records by id.  The registry hands
    out references to its records and mutates them in place, so a record is
    looked up in the registry's dictionary whenever it is read.  The lock makes
    each method one step. *)
From S2P Require Import Prelude PyStr PyDict Identity Policies.

Definition AgentRegistry : Type := (list (string * Agent)).

(** [register] of a constructed instance (building one from keyword arguments
    is [new_agent]). *)
Definition register (agent : Agent) : py AgentRegistry Agent := fun r =>
  if dmem (agent_id agent) r then (Err ValueError, r)
  else (Ok agent, dset (agent_id agent) agent r).

Definition register_fields (built : result Agent) : py AgentRegistry Agent :=
  agent ← lift built; register agent.

Definition get_agent (id : string) (r : AgentRegistry) : option Agent := dget id r.

Definition get_required (id : string) : py AgentRegistry Agent := fun r =>
  match dget id r with
  | Some a => (Ok a, r)
  | None => (Err KeyError, r)
  end.

(** Sorting datetimes raises [TypeError] when aware and naive ones mix. *)
Definition mixed_awareness (l : list Agent) : bool :=
  existsb (fun a => dt_aware (agent_created_at a)) l &&
  existsb (fun a => negb (dt_aware (agent_created_at a))) l.

Definition newest_first (a b : Agent) : bool :=
  (dt_us (agent_created_at b) <=? dt_us (agent_created_at a))%Z.

Definition list_agents (include_revoked : bool) (domain : option string) (r : AgentRegistry)
    : result (list Agent) :=
  let agents := dvalues r in
  let agents := if include_revoked then agents else List.filter (fun a => negb (revoked a)) agents in
  let agents := match domain with
                | Some d => List.filter (fun a => String.eqb (agent_domain a) d) agents
                | None => agents
                end in
  if mixed_awareness agents then Err TypeError else Ok (sort_by newest_first agents).

Definition count_agents (include_revoked : bool) (r : AgentRegistry) : result Z :=
  l ← list_agents include_revoked None r; Ok (Z.of_nat (length l)).

(** [{cap.name: cap for cap in agent.capabilities}] *)
Definition caps_by_name (caps : list Capability) : list (string * Capability) :=
  fold_left (fun d cap => dset (cap_name cap) cap d) caps [].

Definition merge_caps (existing : list (string * Capability)) (incoming : list Capability)
    : list (string * Capability) :=
  fold_left (fun d cap => if dmem (cap_name cap) d then d else dset (cap_name cap) cap d)
    incoming existing.

Definition update_capabilities (id : string) (caps : list cap_entry) (replace : bool)
    : py AgentRegistry Agent :=
  agent ← get_required id;
  incoming ← lift (coerce_capabilities caps);
  let agent' := set_capabilities
    (if replace then incoming
     else dvalues (merge_caps (caps_by_name (capabilities agent)) incoming)) agent in
  _ ← modify (dset id agent');
  mret agent'.

Definition grant_capability (id : string) (cap : cap_entry) : py AgentRegistry Agent :=
  update_capabilities id [cap] false.

Definition revoke_capability (id name : string) : py AgentRegistry Agent :=
  agent ← get_required id;
  let agent' := agent_revoke_capability agent name in
  _ ← modify (dset id agent');
  mret agent'.

Definition revoke_agent (id : string) : py AgentRegistry Agent :=
  agent ← get_required id;
  let agent' := set_revoked true agent in
  _ ← modify (dset id agent');
  mret agent'.

Definition modified_since (since : datetime) (r : AgentRegistry) : result (list Agent) :=
  if existsb (fun a => negb (Bool.eqb (dt_aware (agent_created_at a)) (dt_aware since))) (dvalues r)
  then Err TypeError
  else Ok (List.filter (fun a => (dt_us since <=? dt_us (agent_created_at a))%Z && negb (revoked a))
             (dvalues r)).

(** ** Runs of the registry *)

Inductive reg_op :=
| RegRegister (a : Agent)
| RegUpdate (id : string) (caps : list cap_entry) (replace : bool)
| RegRevokeCapability (id name : string)
| RegRevoke (id : string).

Definition reg_exec (op : reg_op) : py AgentRegistry Agent :=
  match op with
  | RegRegister a => register a
  | RegUpdate id caps replace => update_capabilities id caps replace
  | RegRevokeCapability id name => revoke_capability id name
  | RegRevoke id => revoke_agent id
  end.

Definition reg_run (ops : list reg_op) (r : AgentRegistry) : AgentRegistry :=
  fold_left (fun r op => (reg_exec op r).2) ops r.

(** Keys are unique and each record is stored under its own id. *)
Definition reg_wf (r : AgentRegistry) : Prop :=
  NoDup (dkeys r) /\ forall id a, dget id r = Some a -> agent_id a = id.

(** ** Facts *)

Lemma get_required_ok id r a r' : get_required id r = (Ok a, r') -> r' = r /\ dget id r = Some a.
Proof. unfold get_required. destruct (dget id r); naive_solver. Qed.

Lemma reg_exec_cases op r :
  match op with
  | RegRegister a => (reg_exec op r).2 = r \/
      dget (agent_id a) r = None /\ (reg_exec op r).2 = dset (agent_id a) a r
  | _ => (reg_exec op r).2 = r \/ exists id a a', dget id r = Some a /\
      agent_id a' = agent_id a /\ (revoked a = true -> revoked a' = true) /\
      agent_created_at a' = agent_created_at a /\ (reg_exec op r).2 = dset id a' r
  end.
Proof.
  destruct op as [a|id caps replace|id name|id]; cbn [reg_exec].
  - unfold register, dmem. destruct (dget (agent_id a) r) eqn:Hg; cbn; auto.
  - unfold update_capabilities, get_required, mbind, py_bind, lift.
    destruct (dget id r) as [a|] eqn:Hg; [|by left].
    destruct (coerce_capabilities caps); [|by left]. right.
    by eexists id, a, (set_capabilities _ a).
  - unfold revoke_capability, get_required, mbind, py_bind.
    destruct (dget id r) as [a|] eqn:Hg; [|by left]. right.
    by exists id, a, (agent_revoke_capability a name).
  - unfold revoke_agent, get_required, mbind, py_bind.
    destruct (dget id r) as [a|] eqn:Hg; [|by left]. right. by exists id, a, (set_revoked true a).
Qed.

Lemma reg_wf_dset r id a : reg_wf r -> agent_id a = id -> reg_wf (dset id a r).
Proof.
  intros [Hnd Hid] Ha. split; [by apply NoDup_dkeys_dset|]. intros id' a'.
  rewrite dget_dset. case_decide; [|by apply Hid]. naive_solver.
Qed.

Lemma reg_exec_wf op r : reg_wf r -> reg_wf (reg_exec op r).2.
Proof.
  intros Hwf. pose proof (reg_exec_cases op r) as Hc.
  destruct op; [destruct Hc as [->|[? ->]]; [done|by apply reg_wf_dset]|..];
    (destruct Hc as [->|(id' & a & a' & Hg & Hid & _ & _ & ->)]; [done|]; apply reg_wf_dset; [done|];
     rewrite Hid; by apply Hwf).
Qed.

Lemma reg_run_wf ops r : reg_wf r -> reg_wf (reg_run ops r).
Proof. revert r. induction ops as [|op ops IH]; intros r; cbn; eauto using reg_exec_wf. Qed.

Lemma reg_exec_revoked op r id a :
  dget id r = Some a -> revoked a = true ->
  exists a', dget id (reg_exec op r).2 = Some a' /\ revoked a' = true.
Proof.
  intros Hg Hr. pose proof (reg_exec_cases op r) as Hc.
  destruct op as [b| | |]; [destruct Hc as [->|[Hn ->]]; [eauto|]; rewrite dget_dset_ne; [eauto|congruence]|..];
    (destruct Hc as [->|(id' & b & b' & Hg' & _ & Hr' & _ & ->)]; [eauto|]; rewrite dget_dset;
     case_decide; [subst; naive_solver|eauto]).
Qed.

Lemma reg_run_revoked ops r id a :
  dget id r = Some a -> revoked a = true ->
  exists a', dget id (reg_run ops r) = Some a' /\ revoked a' = true.
Proof.
  revert r a. induction ops as [|op ops IH]; intros r a Hg Hr; cbn; [eauto|].
  destruct (reg_exec_revoked op r id a Hg Hr) as (a' & Hg' & Hr'). by eapply IH.
Qed.

(** Revoking an identity is final.  After a successful [revoke], whatever
    registrations, capability changes and revocations follow, the id still names
    a revoked record, and the policy engine denies it every action on every
    target under any set of permissions. *)
Theorem revocation_is_final r id agent r1 ops
    (Hrev : revoke_agent id r = (Ok agent, r1)) :
  exists final, dget id (reg_run ops r1) = Some final /\ revoked final = true /\
    forall e action target now, can_execute e action final target now <> Ok true.
Proof.
  unfold revoke_agent, mbind, py_bind, get_required in Hrev.
  destruct (dget id r) as [a|] eqn:Hg; [|done]. injection Hrev as <- <-.
  destruct (reg_run_revoked ops (dset id (set_revoked true a) r) id (set_revoked true a))
    as (final & Hf & Hr); [by rewrite dget_dset_eq|done|].
  exists final. split; [done|]. split; [done|]. intros e action target now.
  rewrite can_execute_authorized. intros [H _ _ _ _]. congruence.
Qed.

Lemma revocation_is_final_witness :
  exists final,
    dget "red-1" (reg_run [RegUpdate "red-1" [CapName "scan"] true; RegRegister sample_agent]
                    [("red-1", set_revoked true sample_agent)]) = Some final /\
    revoked final = true /\
    forall e action target now, can_execute e action final target now <> Ok true.
Proof.
  apply (revocation_is_final [("red-1", sample_agent)] "red-1" (set_revoked true sample_agent)).
  vm_compute. reflexivity.
Defined.

(** ** Merging capabilities *)

Lemma caps_by_name_lookup caps n :
  dget n (caps_by_name caps) = effective_ceiling caps n.
Proof.
  unfold caps_by_name, effective_ceiling. induction caps as [|cap caps IH] using rev_ind; [done|].
  rewrite fold_left_app, rev_app_distr. cbn. destruct (String.eqb_spec (cap_name cap) n) as [->|Hne].
  - by rewrite dget_dset_eq.
  - by rewrite dget_dset_ne.
Qed.

Lemma merge_caps_lookup d incoming n :
  dget n (merge_caps d incoming) =
  match dget n d with
  | Some c => Some c
  | None => List.find (fun cap => String.eqb (cap_name cap) n) incoming
  end.
Proof.
  unfold merge_caps. revert d. induction incoming as [|cap incoming IH]; intros d; cbn.
  - by destruct (dget n d).
  - rewrite IH. unfold dmem. destruct (String.eqb_spec (cap_name cap) n) as [Hn|Hne].
    + subst n. destruct (dget (cap_name cap) d) eqn:Hg; [by rewrite Hg|]. by rewrite dget_dset_eq.
    + destruct (dget (cap_name cap) d); [done|]. by rewrite dget_dset_ne.
Qed.

(** A dictionary whose values carry their key as a name. *)
Definition keyed (d : list (string * Capability)) : Prop :=
  NoDup (dkeys d) /\ forall k c, (k, c) ∈ d -> cap_name c = k.

Lemma keyed_dset d cap : keyed d -> keyed (dset (cap_name cap) cap d).
Proof.
  intros [Hnd Hk]. split; [by apply NoDup_dkeys_dset|]. intros k c Hin.
  apply elem_dget in Hin; [|by apply NoDup_dkeys_dset]. rewrite dget_dset in Hin.
  case_decide; [naive_solver|]. by apply Hk, dget_Some_elem.
Qed.

Lemma keyed_fold {A} (f : list (string * Capability) -> A -> list (string * Capability)) l d :
  (forall d a, keyed d -> keyed (f d a)) -> keyed d -> keyed (fold_left f l d).
Proof. intros Hf. revert d. induction l; cbn; auto. Qed.

Lemma keyed_merge d incoming : keyed d -> keyed (merge_caps d incoming).
Proof. intros Hd. apply keyed_fold; [|done]. intros e a He. destruct (dmem _ e); auto using keyed_dset. Qed.

Lemma keyed_caps caps : keyed (caps_by_name caps).
Proof.
  apply keyed_fold; [intros; by apply keyed_dset|]. split; [constructor|]. by intros k c ?%elem_of_nil.
Qed.

(** The last value of a name among the values of a keyed dictionary is its
    only one. *)
Lemma effective_ceiling_values d n : keyed d -> effective_ceiling (dvalues d) n = dget n d.
Proof.
  intros [Hnd Hk]. unfold effective_ceiling.
  destruct (List.find _ _) as [c|] eqn:Hf.
  - apply List.find_some in Hf as [Hin Hn]. apply String.eqb_eq in Hn. apply in_rev in Hin.
    unfold dvalues in Hin. apply in_map_iff in Hin as ([k c'] & Hc & Hin). cbn in Hc. subst c'.
    apply list_elem_of_In in Hin. symmetry. apply elem_dget; [done|].
    assert (cap_name c = k) by (by apply Hk). by subst.
  - destruct (dget n d) as [c|] eqn:Hg; [|done]. exfalso.
    apply dget_Some_elem in Hg. assert (cap_name c = n) as Hc by (by apply Hk).
    pose proof (List.find_none _ _ Hf c) as Hnone. cbn in Hnone. rewrite Hc, String.eqb_refl in Hnone.
    discriminate Hnone. apply -> in_rev. apply in_map_iff. exists (n, c). split; [done|].
    by apply list_elem_of_In.
Qed.

(** Merging capabilities (the default of [update_capabilities]) never takes
    a right away or lowers one: each name the agent already claims keeps the
    ceiling the policy engine reads, each new name gets the first incoming
    claim, and no other name appears.  Other agents, the trust level and the
    revocation flag are untouched. *)
Theorem merge_keeps_ceilings r id caps incoming agent agent' r'
    (Hget : dget id r = Some agent)
    (Hcaps : coerce_capabilities caps = Ok incoming)
    (Hupd : update_capabilities id caps false r = (Ok agent', r')) :
  (forall n, effective_ceiling (capabilities agent') n =
     match effective_ceiling (capabilities agent) n with
     | Some c => Some c
     | None => List.find (fun cap => String.eqb (cap_name cap) n) incoming
     end) /\
  trust_level agent' = trust_level agent /\ revoked agent' = revoked agent /\
  dget id r' = Some agent' /\ (forall other, other <> id -> dget other r' = dget other r).
Proof.
  unfold update_capabilities, mbind, py_bind, get_required, lift in Hupd.
  rewrite Hget, Hcaps in Hupd. cbn [modify mret py_ret] in Hupd. injection Hupd as <- <-.
  cbn [capabilities set_capabilities trust_level revoked]. split; [|split; [done|split; [done|split]]].
  - intros n. rewrite effective_ceiling_values by apply keyed_merge, keyed_caps.
    by rewrite merge_caps_lookup, caps_by_name_lookup.
  - apply dget_dset_eq.
  - intros other Hne. by apply dget_dset_ne.
Qed.

Lemma merge_keeps_ceilings_witness :
  effective_ceiling
    (capabilities (set_capabilities
       [mk_Capability "scan" "" L5_DESTRUCTIVE; mk_Capability "report" "" L0_OBSERVATION] sample_agent))
    "scan" = Some (mk_Capability "scan" "" L5_DESTRUCTIVE).
Proof.
  eapply (merge_keeps_ceilings [("red-1", sample_agent)] "red-1" [CapName "SCAN "; CapName "report"]
            _ sample_agent); [reflexivity|reflexivity|]. vm_compute. reflexivity.
Defined.

(** ** Listing *)

Lemma list_agents_perm inc dom r l :
  list_agents inc dom r = Ok l ->
  l ≡ₚ List.filter (fun a => (inc || negb (revoked a)) &&
          match dom with Some d => String.eqb (agent_domain a) d | None => true end) (dvalues r) /\
  StronglySorted (fun a b => newest_first a b = true) l.
Proof.
  unfold list_agents. destruct (mixed_awareness _); [done|]. intros [= <-]. split.
  - rewrite sort_by_perm. generalize (dvalues r). intros as'.
    destruct inc, dom as [d|]; cbn [orb];
      induction as' as [|a as' IH]; cbn; try done; try destruct (revoked a); cbn;
      try destruct (String.eqb (agent_domain a) d); cbn; try done; by f_equiv.
  - apply sort_by_sorted; unfold newest_first; intros; lia.
Qed.
