(* ===== verification/Tasks.v ===== *)
(** * The task manager

    [src/agency/kernel/tasks.py]: task records, their conversation, the life
    cycle of statuses and the priority queue of pending work.  Payload values
    ([Any]) are a type parameter.  Each public coroutine holds the manager's
    lock, so it is one step; the instants it reads and the UUID it draws are
    parameters.  A queue entry refers to the task object held in the table, so
    it is modelled by the task's id. *)
From S2P Require Import Prelude PyStr PyDict.

Inductive TaskStatus := PENDING | RUNNING | COMPLETED | FAILED | BLOCKED.

#[export] Instance TaskStatus_eq_dec : EqDecision TaskStatus.
Proof. solve_decision. Defined.

(** The transition table of [_assert_transition]. *)
Definition legal (current : TaskStatus) : list TaskStatus :=
  match current with
  | PENDING => [RUNNING; BLOCKED; FAILED; COMPLETED]
  | RUNNING => [COMPLETED; FAILED; BLOCKED]
  | BLOCKED => [PENDING; FAILED; COMPLETED]
  | COMPLETED => []
  | FAILED => []
  end.

Definition assert_transition (current target : TaskStatus) : result unit :=
  if bool_decide (target ∈ legal current) then Ok tt else Err ValueError.

Definition terminal (s : TaskStatus) : bool := bool_decide (s ∈ [COMPLETED; FAILED]).

Section Tasks.
Context {Any : Type}.

Record TaskMessage := mk_TaskMessage {
  msg_task_id : string;
  msg_type : string;
  msg_content : option Any;
  msg_metadata : list (string * Any);
  msg_created_by : string;
  msg_created_at : Z;
}.

Record Task := mk_Task {
  task_id : string;
  title : string;
  status : TaskStatus;
  created_by : string;
  input : list (string * Any);
  output : list (string * Any);
  error : option string;
  messages : list TaskMessage;
  parent_id : option string;
  priority : Z;
  created_at : Z;
  updated_at : Z;
}.

(** [Task(...)]: the id validator and the bounds of [priority]. *)
Definition new_task (id ttl by_ : string) (inp : list (string * Any)) (parent : option string)
    (prio now : Z) : result Task :=
  let id := py_strip id in
  if String.eqb id "" || (prio <? 0)%Z || (10 <? prio)%Z then Err ValueError
  else Ok (mk_Task id ttl PENDING by_ inp [] None [] parent prio now now).

Definition set_status (s : TaskStatus) (err : option string) (now : Z) (t : Task) : Task :=
  mk_Task (task_id t) (title t) s (created_by t) (input t) (output t)
    (match err with Some e => Some e | None => error t end)
    (messages t) (parent_id t) (priority t) (created_at t) now.

(** [Task.add_message] *)
Definition task_add_message (m : TaskMessage) (now : Z) (t : Task) : Task :=
  mk_Task (task_id t) (title t) (status t) (created_by t) (input t) (output t) (error t)
    (messages t ++ [m]) (parent_id t) (priority t) (created_at t) now.

Record PendingEntry := mk_PendingEntry { pe_priority : Z; pe_sequence : Z; pe_task : string }.

#[export] Instance PendingEntry_eq_dec : EqDecision PendingEntry.
Proof. solve_decision. Defined.

(** [_PendingEntry.__lt__] *)
Definition entry_lt (a b : PendingEntry) : bool :=
  if negb (pe_priority a =? pe_priority b)%Z then (pe_priority b <? pe_priority a)%Z
  else (pe_sequence a <? pe_sequence b)%Z.

Record TaskManager := mk_TaskManager {
  tasks : list (string * Task);
  pending : list PendingEntry;
  sequence : Z;
}.

Definition empty_manager : TaskManager := mk_TaskManager [] [] 0.

Definition set_task (id : string) (t : Task) (m : TaskManager) : TaskManager :=
  mk_TaskManager (dset id t (tasks m)) (pending m) (sequence m).

(** [_enqueue] *)
Definition enqueue (t : Task) (m : TaskManager) : TaskManager :=
  mk_TaskManager (tasks m)
    (pending m ++ [mk_PendingEntry (priority t) (sequence m + 1) (task_id t)]) (sequence m + 1).

(** [_drop_from_pending] *)
Definition drop_from_pending (id : string) (m : TaskManager) : TaskManager :=
  mk_TaskManager (tasks m)
    (List.filter (fun e => negb (String.eqb (pe_task e) id)) (pending m)) (sequence m).

Definition create_task (ttl by_ : string) (inp : option (list (string * Any)))
    (parent : option string) (prio : Z) (id : option string) (uuid : string) (now : Z)
    : py TaskManager Task :=
  let id := match id with
            | Some s => if String.eqb s "" then uuid else s
            | None => uuid
            end in
  t ← lift (new_task id ttl by_ (default [] inp) parent prio now);
  known ← gets (fun m => dmem (task_id t) (tasks m));
  _ ← raise_when known ValueError;
  _ ← modify (set_task (task_id t) t);
  _ ← (if bool_decide (status t = PENDING) then modify (enqueue t) else mret tt);
  mret t.

Definition get_task (id : string) (m : TaskManager) : option Task := dget id (tasks m).

Definition list_tasks (s : option TaskStatus) (m : TaskManager) : list Task :=
  let ts := dvalues (tasks m) in
  let ts := match s with
            | Some s => List.filter (fun t => bool_decide (status t = s)) ts
            | None => ts
            end in
  sort_by (fun a b => (created_at a <=? created_at b)%Z) ts.

Definition find_task (id : string) : py TaskManager Task := fun m =>
  match dget id (tasks m) with
  | Some t => (Ok t, m)
  | None => (Err KeyError, m)
  end.

Definition update_status (id : string) (s : TaskStatus) (err : option string) (now : Z)
    : py TaskManager Task :=
  t ← find_task id;
  _ ← lift (assert_transition (status t) s);
  _ ← modify (drop_from_pending id);
  let t' := set_status s err now t in
  _ ← modify (set_task id t');
  _ ← (if bool_decide (s = PENDING) then modify (enqueue t') else mret tt);
  mret t'.

(** [add_message] binds a message with an empty task id to its task. *)
Definition add_message (id : string) (msg : TaskMessage) (now : Z) : py TaskManager TaskMessage :=
  t ← find_task id;
  let unbound := String.eqb (msg_task_id msg) "" in
  let bound := if unbound
               then mk_TaskMessage id (msg_type msg) (msg_content msg) (msg_metadata msg)
                      (msg_created_by msg) (msg_created_at msg)
               else msg in
  _ ← raise_when (negb unbound && negb (String.eqb (msg_task_id bound) id)) ValueError;
  _ ← modify (set_task id (task_add_message bound now t));
  mret bound.

(** [min(queue)]: the first entry no later one is below. *)
Fixpoint min_entry (cur : PendingEntry) (l : list PendingEntry) : PendingEntry :=
  match l with
  | [] => cur
  | e :: l' => min_entry (if entry_lt e cur then e else cur) l'
  end.

(** [queue.remove(target)]: the first equal entry goes. *)
Fixpoint remove_first (target : PendingEntry) (l : list PendingEntry) : list PendingEntry :=
  match l with
  | [] => []
  | e :: l' => if decide (e = target) then l' else e :: remove_first target l'
  end.

Definition guarded_pop (queue : list PendingEntry) : option (PendingEntry * list PendingEntry) :=
  match queue with
  | [] => None
  | e :: q => let target := min_entry e q in Some (target, remove_first target queue)
  end.

Definition take_next_pending (now : Z) : py TaskManager (option Task) :=
  queue ← gets pending;
  match guarded_pop queue with
  | None => mret None
  | Some (entry, rest) =>
      _ ← modify (fun m => mk_TaskManager (tasks m) rest (sequence m));
      t ← find_task (pe_task entry);
      let t' := set_status RUNNING None now t in
      _ ← modify (set_task (pe_task entry) t');
      mret (Some t')
  end.

(** ** Runs of the manager *)

Inductive task_op :=
| OpCreate (ttl by_ : string) (inp : option (list (string * Any))) (parent : option string)
    (prio : Z) (id : option string) (uuid : string) (now : Z)
| OpUpdate (id : string) (s : TaskStatus) (err : option string) (now : Z)
| OpMessage (id : string) (msg : TaskMessage) (now : Z)
| OpTake (now : Z).

Definition task_exec (op : task_op) (m : TaskManager) : TaskManager :=
  match op with
  | OpCreate ttl by_ inp parent prio id uuid now => (create_task ttl by_ inp parent prio id uuid now m).2
  | OpUpdate id s err now => (update_status id s err now m).2
  | OpMessage id msg now => (add_message id msg now m).2
  | OpTake now => (take_next_pending now m).2
  end.

Definition task_step (m m' : TaskManager) : Prop := exists op, m' = task_exec op m.

(** Take until the queue is empty. *)
Fixpoint drain (fuel : nat) (now : Z) (m : TaskManager) : list Task * TaskManager :=
  match fuel with
  | 0 => ([], m)
  | S fuel =>
      match take_next_pending now m with
      | (Ok (Some t), m') => let '(ts, m'') := drain fuel now m' in (t :: ts, m'')
      | (_, m') => ([], m')
      end
  end.

(** ** The invariant *)

(** The queue and the table agree: every queued entry is a pending task with
    the entry's priority, every pending task is queued once, and sequence
    numbers are distinct and already drawn. *)
Record manager_ok (m : TaskManager) : Prop := {
  ok_keys : NoDup (dkeys (tasks m));
  ok_ids : forall id t, dget id (tasks m) = Some t -> task_id t = id;
  ok_sequences : NoDup (map pe_sequence (pending m));
  ok_drawn : forall e, e ∈ pending m -> (pe_sequence e <= sequence m)%Z;
  ok_once : NoDup (map pe_task (pending m));
  ok_queued : forall e, e ∈ pending m -> exists t, dget (pe_task e) (tasks m) = Some t /\
    status t = PENDING /\ priority t = pe_priority e;
  ok_pending : forall id t, dget id (tasks m) = Some t -> status t = PENDING ->
    id ∈ map pe_task (pending m);
}.
End Tasks.

Arguments TaskMessage : clear implicits.
Arguments Task : clear implicits.
Arguments TaskManager : clear implicits.
Arguments task_op : clear implicits.

(** ** Facts *)

Section Facts.
Context {Any : Type}.
Implicit Types (m : TaskManager Any) (t : Task Any) (e : PendingEntry) (q : list PendingEntry).

Lemma entry_lt_irrefl e : entry_lt e e = false.
Proof. unfold entry_lt. rewrite Z.eqb_refl. cbn. apply Z.ltb_irrefl. Qed.

Lemma entry_lt_spec a b :
  entry_lt a b = true <->
  (pe_priority b < pe_priority a \/ pe_priority a = pe_priority b /\ pe_sequence a < pe_sequence b)%Z.
Proof. unfold entry_lt. destruct (Z.eqb_spec (pe_priority a) (pe_priority b)); cbn; lia. Qed.

Lemma entry_lt_trans a b c : entry_lt a b = true -> entry_lt b c = true -> entry_lt a c = true.
Proof. rewrite !entry_lt_spec. lia. Qed.

Lemma entry_nlt_trans a b c : entry_lt a b = false -> entry_lt b c = false -> entry_lt a c = false.
Proof. rewrite <- !not_true_iff_false, !entry_lt_spec. lia. Qed.

Lemma min_entry_spec cur q :
  min_entry cur q ∈ cur :: q /\ forall e, e ∈ cur :: q -> entry_lt e (min_entry cur q) = false.
Proof.
  revert cur. induction q as [|x q IH]; intros cur; cbn.
  - split; [constructor|]. intros e [->|?%elem_of_nil]%elem_of_cons; [apply entry_lt_irrefl|done].
  - destruct (IH (if entry_lt x cur then x else cur)) as [Hin Hmin]. split.
    + destruct (entry_lt x cur); set_solver.
    + intros e He. pose proof (Hmin _ ltac:(constructor)) as Hcur.
      apply elem_of_cons in He as [->|[->|He]%elem_of_cons].
      * destruct (entry_lt x cur) eqn:Hx; [|done]. destruct (entry_lt cur _) eqn:Hc; [|done].
        exfalso. pose proof (entry_lt_trans _ _ _ Hx Hc). congruence.
      * destruct (entry_lt x cur) eqn:Hx; [done|]. by eapply entry_nlt_trans.
      * apply Hmin. by constructor.
Qed.

Lemma remove_first_perm e q : e ∈ q -> q ≡ₚ e :: remove_first e q.
Proof.
  induction q as [|x q IH]; [by intros ?%elem_of_nil|]. intros He. cbn.
  destruct (decide (x = e)) as [->|Hne]; [done|].
  apply elem_of_cons in He as [->|He]; [done|]. rewrite (IH He) at 1. by constructor.
Qed.

Lemma filter_split {A} (p : A -> bool) (l : list A) :
  l ≡ₚ List.filter (fun x => negb (p x)) l ++ List.filter p l.
Proof.
  induction l as [|x l IH]; cbn; [done|]. destruct (p x); cbn; [|by f_equiv].
  rewrite <- Permutation_middle. by f_equiv.
Qed.

(** Popping yields an entry of the queue no other entry is before, and leaves
    the others. *)
Lemma guarded_pop_spec q e rest :
  guarded_pop q = Some (e, rest) ->
  q ≡ₚ e :: rest /\ forall x, x ∈ q -> entry_lt x e = false.
Proof.
  destruct q as [|x q]; cbn -[min_entry remove_first]; [done|]. intros [= <- <-].
  destruct (min_entry_spec x q) as [Hin Hmin]. split; [by apply remove_first_perm|done].
Qed.

(** The invariant while the record of [id] is being replaced. *)
Record ok_but (id : string) (m : TaskManager Any) : Prop := {
  but_keys : NoDup (dkeys (tasks m));
  but_ids : forall id' t, dget id' (tasks m) = Some t -> task_id t = id';
  but_sequences : NoDup (map pe_sequence (pending m));
  but_drawn : forall e, e ∈ pending m -> (pe_sequence e <= sequence m)%Z;
  but_once : NoDup (map pe_task (pending m));
  but_queued : forall e, e ∈ pending m -> exists t, dget (pe_task e) (tasks m) = Some t /\
    status t = PENDING /\ priority t = pe_priority e;
  but_pending : forall id' t, id' <> id -> dget id' (tasks m) = Some t -> status t = PENDING ->
    id' ∈ map pe_task (pending m);
  but_idle : id ∉ map pe_task (pending m);
}.

Lemma elem_of_map_task id q : id ∈ map pe_task q <-> exists e, e ∈ q /\ pe_task e = id.
Proof. rewrite list_elem_of_In, in_map_iff. setoid_rewrite list_elem_of_In. naive_solver. Qed.

Lemma ok_but_sub id m q gone :
  manager_ok m -> pending m ≡ₚ gone ++ q ->
  (forall e, e ∈ gone -> pe_task e = id) -> id ∉ map pe_task q ->
  ok_but id (mk_TaskManager (tasks m) q (sequence m)).
Proof.
  intros [H1 H2 H3 H4 H5 H6 H7] Hq Hgone Hid. split; cbn; try done.
  - rewrite Hq, map_app in H3. by apply NoDup_app in H3 as (_ & _ & ?).
  - intros e He. apply H4. rewrite Hq. set_solver.
  - rewrite Hq, map_app in H5. by apply NoDup_app in H5 as (_ & _ & ?).
  - intros e He. apply H6. rewrite Hq. set_solver.
  - intros id' t Hne Ht Hs. pose proof (H7 _ _ Ht Hs) as Hin.
    rewrite Hq, map_app, elem_of_app in Hin. destruct Hin as [Hin|Hin]; [|done].
    apply elem_of_map_task in Hin as (e & He & <-). by apply Hgone in He.
Qed.

Lemma ok_but_drop id m : manager_ok m -> ok_but id (drop_from_pending id m).
Proof.
  intros Hok. unfold drop_from_pending.
  apply (ok_but_sub id m _ (List.filter (fun e => String.eqb (pe_task e) id) (pending m))); [done|..].
  - rewrite (filter_split (fun e => String.eqb (pe_task e) id) (pending m)) at 1.
    apply Permutation_app_comm.
  - intros e [He _]%elem_of_filter_bool. by apply String.eqb_eq.
  - intros (e & He & Hid)%elem_of_map_task. apply elem_of_filter_bool in He as [He _].
    apply negb_true_iff, String.eqb_neq in He. done.
Qed.

Lemma ok_but_pop m e rest :
  manager_ok m -> guarded_pop (pending m) = Some (e, rest) ->
  ok_but (pe_task e) (mk_TaskManager (tasks m) rest (sequence m)).
Proof.
  intros Hok Hpop. apply guarded_pop_spec in Hpop as [Hq _].
  apply (ok_but_sub _ m _ [e]); [done|done|set_solver|].
  pose proof (ok_once m Hok) as Hnd. rewrite Hq in Hnd. cbn in Hnd. by apply NoDup_cons in Hnd as [? _].
Qed.

Lemma ok_but_absent id m : manager_ok m -> id ∉ dkeys (tasks m) -> ok_but id m.
Proof.
  intros Hok Hid. destruct m as [ts q s]. apply (ok_but_sub id (mk_TaskManager ts q s) q []);
    [done|done|by intros ? ?%elem_of_nil|].
  intros (e & He & <-)%elem_of_map_task. apply (ok_queued _ Hok) in He as (t & Ht & _).
  apply Hid, dget_is_Some_keys. eauto.
Qed.

Lemma ok_set_idle id t m :
  ok_but id m -> task_id t = id -> status t <> PENDING -> manager_ok (set_task id t m).
Proof.
  intros [H1 H2 H3 H4 H5 H6 H7 H8] Hid Hs. split; cbn; try done.
  - by apply NoDup_dkeys_dset.
  - intros id' t'. rewrite dget_dset. case_decide; [naive_solver|apply H2].
  - intros e He. rewrite dget_dset_ne; [by apply H6|]. intros ->. apply H8, elem_of_map_task. eauto.
  - intros id' t'. rewrite dget_dset. case_decide; [naive_solver|]. eauto.
Qed.

Lemma ok_set_queued id t m :
  ok_but id m -> task_id t = id -> status t = PENDING -> manager_ok (enqueue t (set_task id t m)).
Proof.
  intros [H1 H2 H3 H4 H5 H6 H7 H8] Hid Hs. split; cbn; try done.
  - by apply NoDup_dkeys_dset.
  - intros id' t'. rewrite dget_dset. case_decide; [naive_solver|apply H2].
  - rewrite map_app. apply NoDup_app. split; [done|]. split; [|apply NoDup_singleton].
    intros x Hx. cbn. rewrite list_elem_of_singleton. intros ->.
    apply list_elem_of_In, in_map_iff in Hx as (e & Hx & He). apply list_elem_of_In, H4 in He. lia.
  - intros e [He|He%list_elem_of_singleton]%elem_of_app; [apply H4 in He; lia|subst e; cbn; lia].
  - rewrite map_app. apply NoDup_app. split; [done|]. split; [|apply NoDup_singleton].
    intros x Hx. cbn. rewrite list_elem_of_singleton. intros ->. by subst id.
  - intros e [He|He%list_elem_of_singleton]%elem_of_app; [|subst e].
    + rewrite dget_dset_ne; [by apply H6|]. intros ->. apply H8, elem_of_map_task. eauto.
    + cbn. subst id. rewrite dget_dset_eq. eauto.
  - intros id' t'. rewrite map_app, elem_of_app, dget_dset. case_decide.
    + intros [= <-] _. right. cbn. apply list_elem_of_singleton. congruence.
    + intros Ht Hs'. left. eauto.
Qed.

Lemma ok_set_same id t t' m :
  manager_ok m -> dget id (tasks m) = Some t -> task_id t' = task_id t ->
  status t' = status t -> priority t' = priority t -> manager_ok (set_task id t' m).
Proof.
  intros [H1 H2 H3 H4 H5 H6 H7] Ht Hid Hs Hp. split; cbn; try done.
  - by apply NoDup_dkeys_dset.
  - intros id' t2. rewrite dget_dset. case_decide; [|apply H2].
    intros [= <-]. subst id'. rewrite Hid. by apply H2.
  - intros e He. rewrite dget_dset. case_decide; [|by apply H6]. subst id.
    apply H6 in He as (t2 & Ht2 & ? & ?). exists t'. split; [done|]. simplify_eq. by rewrite Hs, Hp.
  - intros id' t2. rewrite dget_dset. case_decide; [|apply H7].
    intros [= <-] Hpd. subst id'. apply (H7 id t); congruence.
Qed.

(** ** Operations *)

Lemma new_task_fields id ttl by_ inp parent prio now t :
  new_task id ttl by_ inp parent prio now = Ok t ->
  task_id t = py_strip id /\ status t = PENDING /\ priority t = prio /\ (0 <= prio <= 10)%Z /\
  messages (Any:=Any) t = [].
Proof.
  unfold new_task. destruct (String.eqb _ _ || _ || _) eqn:Hb; [done|]. intros [= <-]. cbn.
  breflect. repeat split; lia.
Qed.

Lemma find_task_run id m :
  find_task id m = (match dget id (tasks m) with Some t => Ok t | None => Err KeyError end, m).
Proof. unfold find_task. by destruct (dget id (tasks m)). Qed.

(** Closed forms of the operations, one line per branch of the code. *)
Lemma create_task_run ttl by_ inp parent prio id uuid now m :
  create_task ttl by_ inp parent prio id uuid now m =
  match new_task (match id with Some s => if String.eqb s "" then uuid else s | None => uuid end)
          ttl by_ (default [] inp) parent prio now with
  | Err e => (Err e, m)
  | Ok t => if dmem (task_id t) (tasks m) then (Err ValueError, m)
            else (Ok t, enqueue t (set_task (task_id t) t m))
  end.
Proof.
  unfold create_task, mbind, py_bind, lift, gets, raise_when, raise_if.
  destruct (new_task _ _ _ _ _ _ _) as [t|e] eqn:Ht; [|done].
  destruct (dmem _ _); [done|]. cbn. apply new_task_fields in Ht as (_ & Hs & _).
  by rewrite bool_decide_true.
Qed.

Lemma update_status_run id s err now m :
  update_status id s err now m =
  match dget id (tasks m) with
  | None => (Err KeyError, m)
  | Some t =>
      if bool_decide (s ∈ legal (status t)) then
        let t' := set_status s err now t in
        let m' := set_task id t' (drop_from_pending id m) in
        (Ok t', if bool_decide (s = PENDING) then enqueue t' m' else m')
      else (Err ValueError, m)
  end.
Proof.
  unfold update_status, mbind, py_bind, lift. rewrite find_task_run.
  destruct (dget id (tasks m)) as [t|]; [|done]. unfold assert_transition.
  case_bool_decide; [|done]. cbn. by case_bool_decide.
Qed.

Lemma take_next_run now m :
  take_next_pending now m =
  match guarded_pop (pending m) with
  | None => (Ok None, m)
  | Some (e, rest) =>
      let m1 := mk_TaskManager (tasks m) rest (sequence m) in
      match dget (pe_task e) (tasks m) with
      | Some t => let t' := set_status RUNNING None now t in (Ok (Some t'), set_task (pe_task e) t' m1)
      | None => (Err KeyError, m1)
      end
  end.
Proof.
  unfold take_next_pending, mbind, py_bind, gets, modify.
  destruct (guarded_pop (pending m)) as [[e rest]|]; [|done].
  rewrite find_task_run. cbn. by destruct (dget _ _).
Qed.

Lemma add_message_run id msg now m :
  add_message id msg now m =
  match dget id (tasks m) with
  | None => (Err KeyError, m)
  | Some t =>
      if String.eqb (msg_task_id msg) "" then
        let bound := mk_TaskMessage id (msg_type msg) (msg_content msg) (msg_metadata msg)
                       (msg_created_by msg) (msg_created_at msg) in
        (Ok bound, set_task id (task_add_message bound now t) m)
      else if String.eqb (msg_task_id msg) id
           then (Ok msg, set_task id (task_add_message msg now t) m)
           else (Err ValueError, m)
  end.
Proof.
  unfold add_message, mbind, py_bind, lift, raise_when, raise_if. rewrite find_task_run.
  destruct (dget id (tasks m)) as [t|]; [|done].
  destruct (String.eqb (msg_task_id msg) ""); cbn; [done|].
  by destruct (String.eqb (msg_task_id msg) id).
Qed.

Lemma task_exec_ok op m : manager_ok m -> manager_ok (task_exec op m).
Proof.
  intros Hok. destruct op as [ttl by_ inp parent prio id uuid now|id s err now|id msg now|now];
    cbn [task_exec].
  - rewrite create_task_run. destruct (new_task _ _ _ _ _ _ _) as [t|] eqn:Ht; [|done].
    unfold dmem. destruct (dget (task_id t) (tasks m)) eqn:Hg; [done|]. cbn [snd].
    apply new_task_fields in Ht as (_ & Hs & _). apply ok_set_queued; [|done|done].
    by apply ok_but_absent, dget_None_keys.
  - rewrite update_status_run. destruct (dget id (tasks m)) as [t|] eqn:Hg; [|done].
    case_bool_decide; [|done]. cbn [snd]. pose proof (ok_but_drop id m Hok) as Hb.
    pose proof (ok_ids m Hok id t Hg) as Hid.
    case_bool_decide; [by apply ok_set_queued|by apply ok_set_idle].
  - rewrite add_message_run. destruct (dget id (tasks m)) as [t|] eqn:Hg; [|done].
    destruct (String.eqb _ ""); [by eapply ok_set_same|].
    destruct (String.eqb _ id); [by eapply ok_set_same|done].
  - rewrite take_next_run. destruct (guarded_pop (pending m)) as [[e rest]|] eqn:Hp; [|done].
    pose proof (guarded_pop_spec _ _ _ Hp) as [Hq _].
    destruct (ok_queued m Hok e) as (t & Hg & _); [rewrite Hq; constructor|].
    rewrite Hg. cbn [snd]. apply ok_set_idle; [by apply ok_but_pop| |done].
    cbn. by apply (ok_ids m Hok).
Qed.

Lemma empty_manager_ok : manager_ok (Any:=Any) empty_manager.
Proof. split; cbn; try constructor; try done; by intros ? ?%elem_of_nil. Qed.

Lemma reachable_ok m : rtc task_step empty_manager m -> manager_ok m.
Proof.
  intros H. eapply (rtc_invariant task_step manager_ok); [|exact H|apply empty_manager_ok].
  intros a b [op ->]. apply task_exec_ok.
Qed.
End Facts.

(** ** Scheduling order *)

Section Scheduling.
Context {Any : Type}.
Implicit Types (m : TaskManager Any) (t : Task Any) (e : PendingEntry) (q : list PendingEntry).

(** [a] is scheduled no later than [b]. *)
Definition entry_le (a b : PendingEntry) : bool := negb (entry_lt b a).

Lemma entry_le_total a b : entry_le a b = true \/ entry_le b a = true.
Proof.
  unfold entry_le. rewrite !negb_true_iff, <- !not_true_iff_false, !entry_lt_spec. lia.
Qed.

Lemma entry_le_trans a b c : entry_le a b = true -> entry_le b c = true -> entry_le a c = true.
Proof.
  unfold entry_le. rewrite !negb_true_iff, <- !not_true_iff_false, !entry_lt_spec. lia.
Qed.

Lemma NoDup_map_inj {A B} (f : A -> B) l x y :
  NoDup (map f l) -> x ∈ l -> y ∈ l -> f x = f y -> x = y.
Proof.
  induction l as [|z l IH]; cbn; [by intros _ ?%elem_of_nil|]. rewrite NoDup_cons. intros [Hz Hl].
  assert (forall w, w ∈ l -> f w ∈ map f l) as Hmap.
  { intros w Hw. apply list_elem_of_In, in_map. by apply list_elem_of_In. }
  intros [->|Hx]%elem_of_cons [->|Hy]%elem_of_cons Hf; try done.
  - exfalso. apply Hz. rewrite Hf. auto.
  - exfalso. apply Hz. rewrite <- Hf. auto.
  - by apply IH.
Qed.

Lemma sort_pop q e rest :
  NoDup (map pe_sequence q) -> guarded_pop q = Some (e, rest) ->
  sort_by entry_le q = e :: sort_by entry_le rest.
Proof.
  intros Hnd Hpop. apply guarded_pop_spec in Hpop as [Hq Hmin].
  apply (StronglySorted_unique_strong (fun a b => entry_le a b = true)).
  - intros x y Hx Hy Hxy Hyx. apply elem_of_sort_by in Hx.
    assert (y ∈ q) by (rewrite Hq; revert Hy; rewrite !elem_of_cons, elem_of_sort_by; done).
    apply (NoDup_map_inj pe_sequence q); [done..|].
    revert Hxy Hyx. unfold entry_le. rewrite !negb_true_iff, <- !not_true_iff_false, !entry_lt_spec. lia.
  - apply sort_by_sorted; [apply entry_le_total|apply entry_le_trans].
  - constructor; [apply sort_by_sorted; [apply entry_le_total|apply entry_le_trans]|].
    apply Forall_forall. intros x Hx. apply elem_of_sort_by in Hx.
    unfold entry_le. rewrite Hmin; [done|]. rewrite Hq. by constructor.
  - rewrite !sort_by_perm. done.
Qed.

Lemma drain_spec now m :
  manager_ok m ->
  let '(ts, m') := drain (length (pending m)) now m in
  map task_id ts = map pe_task (sort_by entry_le (pending m)) /\
  Forall (fun t => status t = RUNNING) ts /\ pending m' = [] /\ manager_ok m'.
Proof.
  remember (length (pending m)) as n eqn:Hn. revert m Hn. induction n as [|n IH]; intros m Hn Hok.
  - cbn. destruct (pending m) eqn:Hp; [|done]. cbn. repeat split; try done; by apply Hok.
  - cbn [drain]. pose proof (task_exec_ok (OpTake now) m Hok) as Hok1. cbn [task_exec] in Hok1.
    rewrite take_next_run in *. destruct (guarded_pop (pending m)) as [[e rest]|] eqn:Hp.
    2: { destruct (pending m); done. }
    pose proof (guarded_pop_spec _ _ _ Hp) as [Hq _].
    destruct (ok_queued m Hok e) as (t & Hg & _ & _); [rewrite Hq; constructor|].
    rewrite Hg in *. cbv zeta in *. cbn [snd] in Hok1. cbv beta iota.
    match goal with H : manager_ok ?M |- context [drain n now ?M] => set (m1 := M) in * end.
    specialize (IH m1). destruct (drain n now m1) as [ts m']. destruct IH as (Hts & Hrun & Hp' & Hok').
    { cbn. pose proof (Permutation_length Hq). cbn in *. lia. }
    { done. }
    rewrite (sort_pop _ e rest) by (done || apply (ok_sequences m Hok)).
    cbn [map]. split; [|split; [|done]].
    + cbn. f_equal; [|exact Hts]. cbn. by apply (ok_ids m Hok).
    + by constructor.
Qed.

(** C28: every manager the public operations can reach keeps its queue and its
    table in agreement: keys are the tasks' ids, each pending task is queued
    exactly once with its own priority, nothing else is queued, and sequence
    numbers are distinct and never reused. *)
Theorem reachable_manager_ok m (Hreach : rtc task_step empty_manager m) : manager_ok m.
Proof. by apply reachable_ok. Qed.

(** [take_next_pending] on a reachable manager never fails.  It returns
    nothing exactly when no task is pending; otherwise it returns a pending task
    of the highest priority, the earliest enqueued among equals, marks it
    running, takes it off the queue and leaves every other task as it was. *)
Theorem take_next_spec m now (Hok : manager_ok m) :
  match take_next_pending now m with
  | (Err _, _) => False
  | (Ok None, m') => m' = m /\ forall id t, dget id (tasks m) = Some t -> status t <> PENDING
  | (Ok (Some t'), m') =>
      exists e t, e ∈ pending m /\ dget (pe_task e) (tasks m) = Some t /\ status t = PENDING /\
        t' = set_status RUNNING None now t /\
        (forall e', e' ∈ pending m -> e' <> e ->
           (pe_priority e' < pe_priority e \/
            pe_priority e' = pe_priority e /\ pe_sequence e < pe_sequence e')%Z) /\
        pending m ≡ₚ e :: pending m' /\ dget (pe_task e) (tasks m') = Some t' /\
        forall id, id <> pe_task e -> dget id (tasks m') = dget id (tasks m)
  end.
Proof.
  rewrite take_next_run. destruct (guarded_pop (pending m)) as [[e rest]|] eqn:Hp.
  - pose proof (guarded_pop_spec _ _ _ Hp) as [Hq Hmin].
    assert (e ∈ pending m) as Hin by (rewrite Hq; constructor).
    destruct (ok_queued m Hok e Hin) as (t & Hg & Hs & _). rewrite Hg. cbv zeta.
    exists e, t. repeat split; try done.
    + intros e' He' Hne. pose proof (Hmin e' He') as Hlt.
      apply not_true_iff_false in Hlt. rewrite entry_lt_spec in Hlt.
      assert (pe_sequence e' <> pe_sequence e).
      { intros Hs'. apply Hne. by eapply (NoDup_map_inj pe_sequence (pending m)); [apply Hok|..]. }
      lia.
    + cbn. apply dget_dset_eq.
    + intros id Hid. cbn. by apply dget_dset_ne.
  - split; [done|]. intros id t Ht Hs. pose proof (ok_pending m Hok id t Ht Hs) as Hin.
    destruct (pending m); [by apply elem_of_nil in Hin|done].
Qed.

(** Emptying the queue schedules every pending task, by decreasing priority
    and first-in first-out within a priority, and then [take_next_pending]
    returns nothing. *)
Theorem drain_schedules_in_order m now (Hok : manager_ok m) :
  let '(ts, m') := drain (length (pending m)) now m in
  map task_id ts = map pe_task (sort_by entry_le (pending m)) /\
  Forall (fun t => status t = RUNNING) ts /\
  take_next_pending now m' = (Ok None, m').
Proof.
  pose proof (drain_spec now m Hok) as Hd. destruct (drain _ now m) as [ts m'].
  destruct Hd as (H1 & H2 & H3 & _). repeat split; try done. rewrite take_next_run. by rewrite H3.
Qed.

(** ** What a step keeps *)

Lemma task_exec_record op m id t :
  manager_ok m -> dget id (tasks m) = Some t ->
  exists t', dget id (tasks (task_exec op m)) = Some t' /\
    (status t' = status t \/ status t' ∈ legal (status t)) /\
    (exists new, messages t' = messages t ++ new) /\ priority t' = priority t.
Proof.
  intros Hok Ht.
  assert (forall M, tasks M = tasks m -> exists t', dget id (tasks M) = Some t' /\
    (status t' = status t \/ status t' ∈ legal (status t)) /\
    (exists new, messages t' = messages t ++ new) /\ priority t' = priority t) as Hsame.
  { intros M ->. exists t. repeat split; auto. exists []. by rewrite app_nil_r. }
  assert (forall id0 t0 t1 d, dget id0 (tasks m) = Some t0 ->
    status t1 = status t0 \/ status t1 ∈ legal (status t0) ->
    (exists new, messages t1 = messages t0 ++ new) -> priority t1 = priority t0 ->
    d = dset id0 t1 (tasks m) -> exists t', dget id d = Some t' /\
    (status t' = status t \/ status t' ∈ legal (status t)) /\
    (exists new, messages t' = messages t ++ new) /\ priority t' = priority t) as Hset.
  { intros id0 t0 t1 d Hg Hs Hm Hp ->. rewrite dget_dset. case_decide; [|by apply (Hsame m)].
    exists t1. subst. by simplify_eq. }
  destruct op as [ttl by_ inp parent prio oid uuid now|id' s err now|id' msg now|now]; cbn [task_exec].
  - rewrite create_task_run. destruct (new_task _ _ _ _ _ _ _) as [t0|]; [|by apply Hsame].
    unfold dmem. destruct (dget (task_id t0) (tasks m)) eqn:Hg; [by apply Hsame|]. cbn.
    rewrite dget_dset_ne by congruence. by apply (Hsame m).
  - rewrite update_status_run. destruct (dget id' (tasks m)) as [t0|] eqn:Hg; [|by apply Hsame].
    case_bool_decide as Hl; [|by apply Hsame].
    destruct (bool_decide (s = PENDING)); cbn;
      (eapply (Hset id' t0); [done| | | |reflexivity]; cbn; [by right|by exists []; rewrite app_nil_r|done]).
  - rewrite add_message_run. destruct (dget id' (tasks m)) as [t0|] eqn:Hg; [|by apply Hsame].
    destruct (String.eqb _ ""); [|destruct (String.eqb _ id'); [|by apply Hsame]];
      (eapply (Hset id' t0); [done| | | |reflexivity]; cbn; [by left|eauto|done]).
  - rewrite take_next_run. destruct (guarded_pop (pending m)) as [[e rest]|] eqn:Hp; [|by apply Hsame].
    pose proof (guarded_pop_spec _ _ _ Hp) as [Hq _].
    destruct (ok_queued m Hok e) as (t0 & Hg & Hs & _); [rewrite Hq; constructor|].
    rewrite Hg. eapply (Hset (pe_task e) t0); [done| | | |reflexivity]; cbn.
    + right. rewrite Hs. constructor.
    + exists []. by rewrite app_nil_r.
    + done.
Qed.

Lemma task_steps_record m m' id t :
  rtc task_step m m' -> manager_ok m -> dget id (tasks m) = Some t ->
  exists t', dget id (tasks m') = Some t' /\ (exists new, messages t' = messages t ++ new) /\
    (terminal (status t) = true -> status t' = status t).
Proof.
  intros Hsteps. revert t. induction Hsteps as [m|m m1 m' [op ->] Hsteps IH]; intros t Hok Ht.
  - exists t. repeat split; auto. exists []. by rewrite app_nil_r.
  - destruct (task_exec_record op m id t Hok Ht) as (t1 & Ht1 & Hs1 & (n1 & Hm1) & _).
    destruct (IH t1 (task_exec_ok op m Hok) Ht1) as (t' & Ht' & (n2 & Hm2) & Hterm).
    exists t'. split; [done|]. split; [exists (n1 ++ n2); by rewrite Hm2, Hm1, app_assoc|].
    intros Hs. assert (status t1 = status t) as Heq.
    { destruct Hs1 as [?|Hl]; [done|]. destruct (status t); try done; by apply elem_of_nil in Hl. }
    rewrite Hterm; [done|by rewrite Heq].
Qed.

(** History is not rewritten.  Whatever operations follow, a task stays in
    the table, its conversation only grows at the end, and a completed or failed
    task keeps its status for ever. *)
Theorem task_history_is_final m m' id t (Hok : manager_ok m) (Hsteps : rtc task_step m m')
    (Ht : dget id (tasks m) = Some t) :
  exists t', dget id (tasks m') = Some t' /\ (exists new, messages t' = messages t ++ new) /\
    (terminal (status t) = true -> status t' = status t).
Proof. by eapply task_steps_record. Qed.

(** [update_status] succeeds exactly on known tasks and legal transitions;
    it raises [KeyError] on an unknown task and [ValueError] on an illegal
    transition, and then nothing has changed. *)
Theorem update_status_spec id s err now m :
  match update_status id s err now m with
  | (Ok t', m') => exists t, dget id (tasks m) = Some t /\ s ∈ legal (status t) /\
      t' = set_status s err now t /\ dget id (tasks m') = Some t' /\
      forall other, other <> id -> dget other (tasks m') = dget other (tasks m)
  | (Err e, m') => m' = m /\
      (e = KeyError /\ dget id (tasks m) = None \/
       e = ValueError /\ exists t, dget id (tasks m) = Some t /\ s ∉ legal (status t))
  end.
Proof.
  rewrite update_status_run. destruct (dget id (tasks m)) as [t|] eqn:Hg; [|naive_solver].
  case_bool_decide as Hl; [|naive_solver]. exists t. repeat split; try done.
  - case_bool_decide; cbn; apply dget_dset_eq.
  - intros other Hne. case_bool_decide; cbn; by apply dget_dset_ne.
Qed.
End Scheduling.

(** ** A concrete manager *)

Definition run_ops (ops : list (task_op unit)) : TaskManager unit :=
  fold_left (fun m op => task_exec op m) ops empty_manager.

Lemma run_ops_reachable ops : rtc task_step empty_manager (run_ops ops).
Proof.
  unfold run_ops. generalize (empty_manager (Any:=unit)). induction ops as [|op ops IH]; intros m; cbn.
  - apply rtc_refl.
  - eapply rtc_l; [|apply IH]. by exists op.
Qed.

Definition demo_ops : list (task_op unit) :=
  [ OpCreate "low" "op" None None 1 (Some "a") "" 10;
    OpCreate "high" "op" None None 5 (Some " b ") "" 11;
    OpCreate "high too" "op" None None 5 None "c" 12;
    OpUpdate "a" BLOCKED None 13;
    OpUpdate "a" PENDING None 14 ].

Example demo_drain :
  map task_id (drain 3 20 (run_ops demo_ops)).1 = ["b"; "c"; "a"].
Proof. vm_compute. reflexivity. Qed.

Lemma reachable_manager_ok_witness : manager_ok (run_ops demo_ops).
Proof. apply reachable_manager_ok, run_ops_reachable. Defined.

Lemma take_next_spec_witness :
  exists e, e ∈ pending (run_ops demo_ops) /\
    pending (run_ops demo_ops) ≡ₚ e :: pending (take_next_pending 20 (run_ops demo_ops)).2.
Proof.
  pose proof (take_next_spec (run_ops demo_ops) 20 (reachable_ok _ (run_ops_reachable demo_ops))) as H.
  destruct (take_next_pending 20 (run_ops demo_ops)) as [[[t'|]|err] m'] eqn:E.
  - destruct H as (e & t & Hin & _ & _ & _ & _ & Hq & _). by exists e.
  - vm_compute in E. discriminate E.
  - destruct H.
Defined.

Lemma drain_schedules_in_order_witness :
  map task_id (drain (length (pending (run_ops demo_ops))) 20 (run_ops demo_ops)).1 =
  map pe_task (sort_by entry_le (pending (run_ops demo_ops))).
Proof.
  pose proof (drain_schedules_in_order (run_ops demo_ops) 20
    (reachable_ok _ (run_ops_reachable demo_ops))) as H.
  destruct (drain _ _ _). exact (proj1 H).
Defined.

Lemma task_history_is_final_witness :
  exists t', dget "a" (tasks (run_ops (demo_ops ++ [OpUpdate "a" FAILED None 15]))) = Some t' /\
    (exists new, messages t' = [] ++ new) /\ (terminal PENDING = true -> status t' = PENDING).
Proof.
  apply (task_history_is_final (run_ops demo_ops) _ "a"
           (mk_Task "a" "low" PENDING "op" [] [] None [] None 1 10 14)).
  - apply reachable_ok, run_ops_reachable.
  - apply rtc_once. by exists (OpUpdate "a" FAILED None 15).
  - vm_compute. reflexivity.
Defined.
