(* ===== verification/BudgetStore.v ===== *)
(** * The durable quota ledger

    [src/agency/telegram/budget_store.py].  The SQLite tables are finite maps
    from their primary keys.  A [..._sync] function is one [BEGIN IMMEDIATE]
    transaction: it commits when it returns and rolls back when it raises.
    [io] tells whether SQLite could open, run and commit it; [reading] is what
    the injected clock returned ([None] when it raised or returned no number).
    An async method awaits its worker; [others] is whatever the other coroutines
    (for instance [close]) do to the object during that await. *)
From S2P Require Import Prelude PyStr.

Definition HOUR_SECONDS : Z := 3600.
Definition DAY_SECONDS : Z := 86400.
Definition RETENTION_SECONDS : Z := 172800.
Definition MAX_BOT_ID_LEN : Z := 128.

Inductive ReqState := RESERVED | RUNNING | COMPLETED | FAILED.

#[export] Instance ReqState_eq_dec : EqDecision ReqState.
Proof. solve_decision. Defined.

Definition finished (s : ReqState) : bool := bool_decide (s ∈ [COMPLETED; FAILED]).

(** ** Limits *)

Record BudgetLimits := mk_BudgetLimits {
  requests_per_hour : Z;
  requests_per_day : Z;
  model_calls_per_hour : Z;
  model_calls_per_day : Z;
  model_calls_per_request : Z;
}.

Definition CEILINGS : BudgetLimits := mk_BudgetLimits 5 20 40 160 8.

Definition check_limit (value ceiling : Z) : result unit :=
  if (value <=? 0)%Z then Err ValueError
  else if (ceiling <? value)%Z then Err ValueError else Ok tt.

(** [BudgetLimits.__post_init__] *)
Definition new_limits (rh rd mh md mr : Z) : result BudgetLimits :=
  _ ← check_limit rh (requests_per_hour CEILINGS);
  _ ← check_limit rd (requests_per_day CEILINGS);
  _ ← check_limit mh (model_calls_per_hour CEILINGS);
  _ ← check_limit md (model_calls_per_day CEILINGS);
  _ ← check_limit mr (model_calls_per_request CEILINGS);
  Ok (mk_BudgetLimits rh rd mh md mr).

(** ** Reservations and argument checks *)

Inductive Outcome := Row (s : ReqState) | DENIED | UNKNOWN.

#[export] Instance Outcome_eq_dec : EqDecision Outcome.
Proof. solve_decision. Defined.

Record Reservation := mk_Reservation {
  allowed : bool;
  duplicate : bool;
  state : Outcome;
  capability : option string;
}.

#[export] Instance Reservation_eq_dec : EqDecision Reservation.
Proof. solve_decision. Defined.

Definition denied : Reservation := mk_Reservation false false DENIED None.

Definition looks_like_token (bot_id : string) : bool :=
  match partition_at ":"%char (to_chars bot_id) with
  | Some (head, tail) =>
      (20 <=? py_len bot_id)%Z && py_isdigit (of_chars head) && (20 <=? length tail)
  | None => false
  end.

Definition validate_bot_id (bot_id : string) : result unit :=
  if is_blank bot_id || (MAX_BOT_ID_LEN <? py_len bot_id)%Z then Err ValueError
  else raise_if (looks_like_token bot_id) ValueError.

Definition validate_update_id (update_id : Z) : result unit :=
  raise_if (update_id <? 0)%Z ValueError.

Definition validate_user_id (user_id : Z) : result unit :=
  raise_if (user_id <=? 0)%Z ValueError.

Definition validate_key (bot_id : string) (update_id user_id : Z) : result unit :=
  _ ← validate_bot_id bot_id; _ ← validate_update_id update_id; validate_user_id user_id.

Section Store.
Context {T : Type} `{Clock T}.

(** ** Tables *)

Record ReqRow := mk_ReqRow { rq_user : Z; rq_created : T; rq_state : ReqState }.
Record AttRow := mk_AttRow { at_user : Z; at_created : T }.

(** [requests], [model_attempts] and [quota_clock], by primary key. *)
Record Ledger := mk_Ledger {
  requests : gmap (string * Z) ReqRow;
  attempts : gmap ((string * Z) * Z) AttRow;
  quota_clock : gmap string T;
}.

Definition empty_ledger : Ledger := mk_Ledger ∅ ∅ ∅.

Definition set_requests (r : gmap (string * Z) ReqRow) (l : Ledger) : Ledger :=
  mk_Ledger r (attempts l) (quota_clock l).
Definition set_attempts (a : gmap ((string * Z) * Z) AttRow) (l : Ledger) : Ledger :=
  mk_Ledger (requests l) a (quota_clock l).
Definition set_clock (c : gmap string T) (l : Ledger) : Ledger :=
  mk_Ledger (requests l) (attempts l) c.

(** [BEGIN IMMEDIATE ... COMMIT], rolled back on any exception; SQLite errors
    become [BudgetUnavailable]. *)
Definition transaction {A} (io : bool) (m : py Ledger A) : py Ledger A := fun l =>
  if io then
    match m l with
    | (Ok a, l') => (Ok a, l')
    | (Err IntegrityError, _) | (Err SqliteError, _) => (Err BudgetUnavailable, l)
    | (Err e, _) => (Err e, l)
    end
  else (Err BudgetUnavailable, l).

(** [_read_clock] *)
Definition read_clock (reading : option T) : result T :=
  match reading with
  | None => Err BudgetUnavailable
  | Some t => if t_finite t && t_nonneg t then Ok t else Err BudgetUnavailable
  end.

(** [_advance_clock_txn] *)
Definition advance_clock (bot : string) (now : T) : py Ledger unit :=
  c ← gets quota_clock;
  _ ← raise_when (match c !! bot with Some last => t_lt now last | None => false end)
        BudgetUnavailable;
  modify (fun l => set_clock (<[bot := now]> (quota_clock l)) l).

Definition has_attempts (key : string * Z) (l : Ledger) : bool :=
  negb (bool_decide (filter (fun ka => ka.1.1 = key) (attempts l) = ∅)).

(** Rows [_prune_txn] deletes, in its two statements. *)
Definition attempt_expired (cutoff : T) (l : Ledger) (ka : ((string * Z) * Z) * AttRow) : bool :=
  t_lt (at_created ka.2) cutoff &&
  match requests l !! ka.1.1 with
  | None => true
  | Some r => finished (rq_state r)
  end.

Definition request_expired (cutoff : T) (l : Ledger) (kr : (string * Z) * ReqRow) : bool :=
  t_lt (rq_created kr.2) cutoff && finished (rq_state kr.2) && negb (has_attempts kr.1 l).

Definition prune (now : T) (l : Ledger) : Ledger :=
  let cutoff := t_sub now RETENTION_SECONDS in
  let l1 := set_attempts (filter (fun ka => attempt_expired cutoff l ka = false) (attempts l)) l in
  set_requests (filter (fun kr => request_expired cutoff l1 kr = false) (requests l1)) l1.

(** [SELECT COUNT] of a user's rows after an instant. *)
Definition request_count (bot : string) (user : Z) (after : T) (l : Ledger) : Z :=
  Z.of_nat (size (filter (fun kr =>
    bool_decide (kr.1.1 = bot) && bool_decide (rq_user kr.2 = user) && t_lt after (rq_created kr.2) = true)
    (requests l))).

Definition attempt_count (bot : string) (user : Z) (after : T) (l : Ledger) : Z :=
  Z.of_nat (size (filter (fun ka =>
    bool_decide (ka.1.1.1 = bot) && bool_decide (at_user ka.2 = user) && t_lt after (at_created ka.2) = true)
    (attempts l))).

Definition attempts_of (key : string * Z) (l : Ledger) : gmap ((string * Z) * Z) AttRow :=
  filter (fun ka => ka.1.1 = key) (attempts l).

(** [COALESCE(MAX(attempt_index), -1)] *)
Definition peak_attempt (key : string * Z) (l : Ledger) : Z :=
  map_fold (fun k _ acc => Z.max k.2 acc) (-1)%Z (attempts_of key l).

(** ** Transactions *)

Definition reserve_request_sync (limits : BudgetLimits) (io : bool) (reading : option T)
    (bot : string) (update_id user : Z) : py Ledger Reservation :=
  transaction io (
    now ← lift (read_clock reading);
    _ ← advance_clock bot now;
    _ ← modify (prune now);
    l ← get;
    match requests l !! (bot, update_id) with
    | Some row =>
        if bool_decide (rq_user row = user)
        then mret (mk_Reservation false true (Row (rq_state row)) None)
        else mret denied
    | None =>
        let hour := request_count bot user (t_sub now HOUR_SECONDS) l in
        let day := request_count bot user (t_sub now DAY_SECONDS) l in
        if (requests_per_hour limits <=? hour)%Z || (requests_per_day limits <=? day)%Z
        then mret denied
        else
          _ ← modify (fun l => set_requests
                (<[(bot, update_id) := mk_ReqRow user now RESERVED]> (requests l)) l);
          mret (mk_Reservation true false (Row RESERVED) None)
    end).

(** [UPDATE requests SET state] of a row in the expected state. *)
Definition move_request (io : bool) (reading : option T) (bot : string) (update_id user : Z)
    (expected target : ReqState) : py Ledger unit :=
  transaction io (
    now ← lift (read_clock reading);
    _ ← advance_clock bot now;
    l ← get;
    match requests l !! (bot, update_id) with
    | None => raise KeyError
    | Some row =>
        _ ← raise_when (negb (bool_decide (rq_user row = user))) ValueError;
        _ ← raise_when (negb (bool_decide (rq_state row = expected))) ValueError;
        modify (fun l => set_requests
          (<[(bot, update_id) := mk_ReqRow (rq_user row) (rq_created row) target]> (requests l)) l)
    end).

Definition mark_running_sync (io : bool) (reading : option T) (bot : string) (update_id user : Z)
    : py Ledger unit := move_request io reading bot update_id user RESERVED RUNNING.

Definition finish_request_sync (io : bool) (reading : option T) (bot : string) (update_id user : Z)
    (success : bool) : py Ledger unit :=
  move_request io reading bot update_id user RUNNING (if success then COMPLETED else FAILED).

Definition reserve_model_call_sync (limits : BudgetLimits) (io : bool) (reading : option T)
    (bot : string) (update_id user : Z) : py Ledger bool :=
  transaction io (
    now ← lift (read_clock reading);
    _ ← advance_clock bot now;
    _ ← modify (prune now);
    l ← get;
    match requests l !! (bot, update_id) with
    | None => mret false
    | Some row =>
        if negb (bool_decide (rq_user row = user)) || negb (bool_decide (rq_state row = RUNNING))
        then mret false
        else
          let per_request := Z.of_nat (size (attempts_of (bot, update_id) l)) in
          let hour := attempt_count bot user (t_sub now HOUR_SECONDS) l in
          let day := attempt_count bot user (t_sub now DAY_SECONDS) l in
          if (model_calls_per_request limits <=? per_request)%Z
             || (model_calls_per_hour limits <=? hour)%Z
             || (model_calls_per_day limits <=? day)%Z
          then mret false
          else
            let k := ((bot, update_id), peak_attempt (bot, update_id) l + 1)%Z in
            _ ← raise_when (bool_decide (is_Some (attempts l !! k))) IntegrityError;
            _ ← modify (fun l => set_attempts (<[k := mk_AttRow user now]> (attempts l)) l);
            mret true
    end).

Definition inspect_reservation_sync (io : bool) (bot : string) (update_id : Z)
    : py Ledger (option ReqState) :=
  transaction io (gets (fun l => rq_state <$> requests l !! (bot, update_id))).

Definition crash_recovery_sync (io : bool) (bot : string) (update_id user : Z)
    : py Ledger Reservation :=
  transaction io (gets (fun l =>
    match requests l !! (bot, update_id) with
    | None => mk_Reservation false false UNKNOWN None
    | Some row => if bool_decide (rq_user row = user)
                  then mk_Reservation false true (Row (rq_state row)) None else denied
    end)).

(** ** The store and its async methods *)

Record BetaBudgetStore := mk_Store {
  ledger : Ledger;
  limits : BudgetLimits;
  closed : bool;
  owners : gmap ((string * Z) * Z) string;
}.

Definition set_ledger (l : Ledger) (s : BetaBudgetStore) : BetaBudgetStore :=
  mk_Store l (limits s) (closed s) (owners s).
Definition set_owners (o : gmap ((string * Z) * Z) string) (s : BetaBudgetStore) : BetaBudgetStore :=
  mk_Store (ledger s) (limits s) (closed s) o.

(** [close] *)
Definition close_store (s : BetaBudgetStore) : BetaBudgetStore :=
  mk_Store (ledger s) (limits s) true ∅.

(** [_owns] *)
Definition owns (bot : string) (update_id user : Z) (cap : option string) (s : BetaBudgetStore) : bool :=
  match cap with
  | None => false
  | Some c =>
      if closed s || String.eqb c "" then false
      else match owners s !! ((bot, update_id), user) with
           | Some expected => String.eqb expected c
           | None => false
           end
  end.

(** [await asyncio.to_thread(txn)] *)
Definition to_thread {A} (m : BudgetLimits -> py Ledger A) (others : BetaBudgetStore -> BetaBudgetStore)
    : py BetaBudgetStore A := fun s =>
  let '(r, l') := m (limits s) (ledger s) in (r, others (set_ledger l' s)).

Definition reserve_request (io : bool) (reading : option T) (token : string)
    (others : BetaBudgetStore -> BetaBudgetStore) (bot : string) (update_id user : Z)
    : py BetaBudgetStore Reservation :=
  _ ← lift (validate_key bot update_id user);
  is_closed ← gets closed;
  _ ← raise_when is_closed BudgetUnavailable;
  r ← to_thread (fun lim => reserve_request_sync lim io reading bot update_id user) others;
  is_closed ← gets closed;
  _ ← raise_when is_closed BudgetUnavailable;
  _ ← raise_when (bool_decide (state r = UNKNOWN)) BudgetUnavailable;
  if allowed r && negb (duplicate r) && bool_decide (state r = Row RESERVED) then
    _ ← modify (fun s => set_owners (<[((bot, update_id), user) := token]> (owners s)) s);
    mret (mk_Reservation true false (Row RESERVED) (Some token))
  else mret r.

Definition mark_running (io : bool) (reading : option T) (others : BetaBudgetStore -> BetaBudgetStore)
    (bot : string) (update_id user : Z) (cap : option string) : py BetaBudgetStore unit :=
  _ ← lift (validate_key bot update_id user);
  mine ← gets (owns bot update_id user cap);
  _ ← raise_when (negb mine) ValueError;
  to_thread (fun _ => mark_running_sync io reading bot update_id user) others.

Definition reserve_model_call (io : bool) (reading : option T)
    (others : BetaBudgetStore -> BetaBudgetStore) (bot : string) (update_id user : Z)
    (cap : option string) : py BetaBudgetStore bool :=
  _ ← lift (validate_key bot update_id user);
  mine ← gets (owns bot update_id user cap);
  if negb mine then mret false
  else
    reserved ← to_thread (fun lim => reserve_model_call_sync lim io reading bot update_id user) others;
    still ← gets (owns bot update_id user cap);
    mret (reserved && still).

Definition finish_request (io : bool) (reading : option T) (others : BetaBudgetStore -> BetaBudgetStore)
    (bot : string) (update_id user : Z) (success : bool) (cap : option string)
    : py BetaBudgetStore unit :=
  _ ← lift (validate_key bot update_id user);
  mine ← gets (owns bot update_id user cap);
  _ ← raise_when (negb mine) ValueError;
  _ ← to_thread (fun _ => finish_request_sync io reading bot update_id user success) others;
  modify (fun s => set_owners (delete ((bot, update_id), user) (owners s)) s).

Definition inspect_reservation (io : bool) (bot : string) (update_id : Z)
    (others : BetaBudgetStore -> BetaBudgetStore) : py BetaBudgetStore (option ReqState) :=
  _ ← lift (_ ← validate_bot_id bot; validate_update_id update_id);
  is_closed ← gets closed;
  _ ← raise_when is_closed BudgetUnavailable;
  to_thread (fun _ => inspect_reservation_sync io bot update_id) others.

Definition crash_recovery (io : bool) (bot : string) (update_id user : Z)
    (others : BetaBudgetStore -> BetaBudgetStore) : py BetaBudgetStore Reservation :=
  _ ← lift (validate_key bot update_id user);
  is_closed ← gets closed;
  _ ← raise_when is_closed BudgetUnavailable;
  to_thread (fun _ => crash_recovery_sync io bot update_id user) others.
End Store.

(** ** Runs

    The transactions in the order SQLite serialises them, with the log of what
    they authorised (newest event first): [quota_run] those of one bot,
    [ledger_run] those of any bots on one ledger. *)
Section Runs.
Context {T : Type} `{Clock T}.

Inductive event :=
| Granted (update_id user : Z) (at_ : T)
| Called (update_id user : Z) (at_ : T).

Inductive quota_op :=
| ReserveRequest (io : bool) (reading : option T) (update_id user : Z)
| MarkRunning (io : bool) (reading : option T) (update_id user : Z)
| ReserveModelCall (io : bool) (reading : option T) (update_id user : Z)
| FinishRequest (io : bool) (reading : option T) (update_id user : Z) (success : bool).

Definition logged (reading : option T) (e : T -> event) (log : list event) : list event :=
  match reading with Some t => e t :: log | None => log end.

Definition quota_exec (lim : BudgetLimits) (bot : string) (op : quota_op)
    (st : Ledger * list event) : Ledger * list event :=
  let '(l, log) := st in
  match op with
  | ReserveRequest io reading upd user =>
      let '(r, l') := reserve_request_sync lim io reading bot upd user l in
      (l', match r with
           | Ok v => if allowed v then logged reading (Granted upd user) log else log
           | Err _ => log
           end)
  | MarkRunning io reading upd user => ((mark_running_sync io reading bot upd user l).2, log)
  | ReserveModelCall io reading upd user =>
      let '(r, l') := reserve_model_call_sync lim io reading bot upd user l in
      (l', match r with Ok true => logged reading (Called upd user) log | _ => log end)
  | FinishRequest io reading upd user success =>
      ((finish_request_sync io reading bot upd user success l).2, log)
  end.

Definition quota_run (lim : BudgetLimits) (bot : string) (ops : list quota_op) : Ledger * list event :=
  foldl (fun st op => quota_exec lim bot op st) (empty_ledger, []) ops.

Definition op_reading (op : quota_op) : option T :=
  match op with
  | ReserveRequest _ r _ _ | MarkRunning _ r _ _ | ReserveModelCall _ r _ _ | FinishRequest _ r _ _ _ => r
  end.

Definition ledger_exec (lim : BudgetLimits) (st : Ledger * list (string * event)) (op : string * quota_op) :
    Ledger * list (string * event) :=
  let '(l, events) := quota_exec lim op.1 op.2 (st.1, []) in (l, map (pair op.1) events ++ st.2).

Definition ledger_run (lim : BudgetLimits) (ops : list (string * quota_op)) : Ledger * list (string * event) :=
  foldl (ledger_exec lim) (empty_ledger, []) ops.

(** What was authorised to one bot *)
Definition bot_log (bot : string) (log : list (string * event)) : list event :=
  map snd (List.filter (fun e => String.eqb e.1 bot) log).

Definition event_time (e : event) : T := match e with Granted _ _ t | Called _ _ t => t end.
Definition event_user (e : event) : Z := match e with Granted _ u _ | Called _ u _ => u end.
Definition is_grant (e : event) : bool := match e with Granted _ _ _ => true | Called _ _ _ => false end.
Definition is_call (e : event) : bool := negb (is_grant e).

(** Events of a kind and user after an instant. *)
Definition event_after (kind : event -> bool) (user : Z) (c : T) (e : event) : bool :=
  kind e && bool_decide (event_user e = user) && t_lt c (event_time e).

(** Those in the half-open window of [d] seconds that ends at [t]. *)
Definition in_window (kind : event -> bool) (user : Z) (d : Z) (t : T) (e : event) : bool :=
  event_after kind user (t_sub t d) e && t_le (event_time e) t.

(** Model calls authorised for an update since it was last granted. *)
Fixpoint calls_since_grant (upd : Z) (log : list event) : nat :=
  match log with
  | [] => 0
  | Granted u _ _ :: log' => if bool_decide (u = upd) then 0 else calls_since_grant upd log'
  | Called u _ _ :: log' =>
      (if bool_decide (u = upd) then 1 else 0) + calls_since_grant upd log'
  end.
End Runs.

Arguments event : clear implicits.
Arguments quota_op : clear implicits.
Arguments ReqRow : clear implicits.
Arguments AttRow : clear implicits.
Arguments Ledger : clear implicits.
Arguments BetaBudgetStore : clear implicits.

(** ** Counting rows of a finite map *)

Section MapCount.
Context {K A : Type} `{Countable K}.
Implicit Types (m : gmap K A) (P Q : K * A -> Prop).

Lemma size_filter_insert_fresh P `{!forall x, Decision (P x)} m k v :
  m !! k = None ->
  size (filter P (<[k:=v]> m)) = (if decide (P (k, v)) then 1 else 0) + size (filter P m).
Proof.
  intros Hk. rewrite map_filter_insert. case_decide.
  - apply map_size_insert_None. apply map_lookup_filter_None. by left.
  - rewrite map_filter_delete, delete_id; [done|]. apply map_lookup_filter_None. by left.
Qed.

Lemma filter_filter_absorb P Q `{!forall x, Decision (P x)} `{!forall x, Decision (Q x)} m :
  (forall k v, m !! k = Some v -> P (k, v) -> Q (k, v)) -> filter P (filter Q m) = filter P m.
Proof.
  intros HPQ. apply map_eq. intros k. apply option_eq. intros v.
  rewrite !map_lookup_filter_Some. naive_solver.
Qed.

Lemma size_filter_update P `{!forall x, Decision (P x)} m k v v' :
  m !! k = Some v -> (P (k, v) <-> P (k, v')) ->
  size (filter P (<[k:=v']> m)) = size (filter P m).
Proof.
  intros Hk HP. rewrite <- (insert_delete_eq m k v'). rewrite <- (insert_delete_id m k v Hk) at 2.
  rewrite !size_filter_insert_fresh by apply lookup_delete_eq.
  do 2 case_decide; try done; naive_solver.
Qed.

Lemma size_filter_le P `{!forall x, Decision (P x)} m : size (filter P m) <= size m.
Proof.
  rewrite <- !size_dom. apply subseteq_size.
  intros k [v [Hk _]%map_lookup_filter_Some]%elem_of_dom. by apply elem_of_dom.
Qed.

Lemma filter_empty_lookup P `{!forall x, Decision (P x)} m k v :
  filter P m = ∅ -> m !! k = Some v -> ~ P (k, v).
Proof.
  intros Hm Hk HP. assert (filter P m !! k = Some v) as Hl by by apply map_lookup_filter_Some.
  rewrite Hm in Hl. by apply lookup_empty_Some in Hl.
Qed.
End MapCount.

Section Facts.
Context {T : Type} `{ClockLaws T}.
Implicit Types (l : Ledger T) (now c : T).

Lemma peak_attempt_bound key l k r : attempts_of key l !! k = Some r -> (k.2 <= peak_attempt key l)%Z.
Proof.
  unfold peak_attempt. revert k r.
  apply (map_fold_weak_ind (fun acc (m : gmap ((string * Z) * Z) (AttRow T)) =>
    forall k r, m !! k = Some r -> (k.2 <= acc)%Z)); [by intros k r ?%lookup_empty_Some|].
  intros i x m acc Hi IH k r. rewrite lookup_insert. case_decide; [subst; intros; lia|].
  intros Hk. specialize (IH k r Hk). lia.
Qed.

(** The index after the peak is free, so the INSERT never collides. *)
Lemma next_attempt_free key l : attempts l !! (key, peak_attempt key l + 1)%Z = None.
Proof.
  destruct (attempts l !! (key, peak_attempt key l + 1)%Z) as [r|] eqn:Hk; [|done].
  assert (attempts_of key l !! (key, peak_attempt key l + 1)%Z = Some r) as Ha.
  { unfold attempts_of. by apply map_lookup_filter_Some. }
  apply peak_attempt_bound in Ha. cbn in Ha. lia.
Qed.

(** ** The shape of a transaction *)

Definition tick (bot : string) (now : T) (l : Ledger T) : Ledger T :=
  set_clock (<[bot := now]> (quota_clock l)) l.

(** The clock reading a transaction starts with, when it gets that far. *)
Definition begin_txn (io : bool) (reading : option T) (bot : string) (l : Ledger T) : option T :=
  if io then
    match read_clock reading with
    | Ok now => if (match quota_clock l !! bot with Some last => t_lt now last | None => false end)
                then None else Some now
    | Err _ => None
    end
  else None.

Definition sql_exn (e : exn) : exn :=
  match e with IntegrityError | SqliteError => BudgetUnavailable | _ => e end.

Lemma transaction_run {A} io reading bot (m : T -> py (Ledger T) A) l :
  transaction io (now ← lift (read_clock reading); _ ← advance_clock bot now; m now) l =
  match begin_txn io reading bot l with
  | None => (Err BudgetUnavailable, l)
  | Some now => match m now (tick bot now l) with
                | (Ok a, l') => (Ok a, l')
                | (Err e, _) => (Err (sql_exn e), l)
                end
  end.
Proof.
  unfold transaction, begin_txn. destruct io; [|done].
  unfold advance_clock. unfold_py.
  destruct (read_clock reading) as [now|e] eqn:Hr.
  - destruct (match quota_clock l !! bot with Some last => _ | None => _ end); [done|]. cbn.
    fold (tick bot now l). destruct (m now (tick bot now l)) as [[a|[]] l']; done.
  - unfold read_clock in Hr. destruct reading as [t|]; [destruct (t_finite t && t_nonneg t)|];
      naive_solver.
Qed.

Lemma begin_txn_reading io reading bot l now :
  begin_txn io reading bot l = Some now -> reading = Some now.
Proof.
  unfold begin_txn, read_clock. destruct io, reading as [t|]; try done.
  destruct (t_finite t && t_nonneg t); [|done]. cbn.
  destruct (match quota_clock l !! bot with Some last => _ | None => _ end); naive_solver.
Qed.

Lemma begin_txn_forward io reading bot l now last :
  begin_txn io reading bot l = Some now -> quota_clock l !! bot = Some last -> t_le last now = true.
Proof.
  unfold begin_txn. destruct io; [|done]. destruct (read_clock reading); [|done].
  intros Hb Hl. rewrite Hl in Hb. unfold t_le. destruct (t_lt a last) eqn:Hlt; [done|].
  injection Hb as <-. by rewrite Hlt.
Qed.

(** What each transaction does, branch by branch. *)
Lemma reserve_request_run lim io reading bot upd user l :
  reserve_request_sync lim io reading bot upd user l =
  match begin_txn io reading bot l with
  | None => (Err BudgetUnavailable, l)
  | Some now =>
      let l1 := prune now (tick bot now l) in
      match requests l1 !! (bot, upd) with
      | Some row => (Ok (if bool_decide (rq_user row = user)
                         then mk_Reservation false true (Row (rq_state row)) None else denied), l1)
      | None =>
          if (requests_per_hour lim <=? request_count bot user (t_sub now HOUR_SECONDS) l1)%Z
             || (requests_per_day lim <=? request_count bot user (t_sub now DAY_SECONDS) l1)%Z
          then (Ok denied, l1)
          else (Ok (mk_Reservation true false (Row RESERVED) None),
                set_requests (<[(bot, upd) := mk_ReqRow user now RESERVED]> (requests l1)) l1)
      end
  end.
Proof.
  unfold reserve_request_sync. rewrite transaction_run.
  destruct (begin_txn io reading bot l) as [now|]; [|done]. cbv zeta.
  unfold_py.
  destruct (requests _ !! _) as [row|]; [by destruct (bool_decide (rq_user row = user))|].
  by destruct (_ || _).
Qed.

Lemma move_request_run io reading bot upd user expected target l :
  move_request io reading bot upd user expected target l =
  match begin_txn io reading bot l with
  | None => (Err BudgetUnavailable, l)
  | Some now =>
      match requests l !! (bot, upd) with
      | None => (Err KeyError, l)
      | Some row =>
          if bool_decide (rq_user row = user) && bool_decide (rq_state row = expected)
          then (Ok tt, set_requests (<[(bot, upd) := mk_ReqRow (rq_user row) (rq_created row) target]>
                                       (requests l)) (tick bot now l))
          else (Err ValueError, l)
      end
  end.
Proof.
  unfold move_request. rewrite transaction_run.
  destruct (begin_txn io reading bot l) as [now|]; [|done].
  unfold_py.
  cbn [requests tick set_clock]. destruct (requests l !! (bot, upd)) as [row|]; [|done].
  case_bool_decide; [|done]. by case_bool_decide.
Qed.

Lemma reserve_model_run lim io reading bot upd user l :
  reserve_model_call_sync lim io reading bot upd user l =
  match begin_txn io reading bot l with
  | None => (Err BudgetUnavailable, l)
  | Some now =>
      let l1 := prune now (tick bot now l) in
      match requests l1 !! (bot, upd) with
      | None => (Ok false, l1)
      | Some row =>
          if bool_decide (rq_user row = user) && bool_decide (rq_state row = RUNNING) then
            if (model_calls_per_request lim <=? Z.of_nat (size (attempts_of (bot, upd) l1)))%Z
               || (model_calls_per_hour lim <=? attempt_count bot user (t_sub now HOUR_SECONDS) l1)%Z
               || (model_calls_per_day lim <=? attempt_count bot user (t_sub now DAY_SECONDS) l1)%Z
            then (Ok false, l1)
            else (Ok true, set_attempts
                    (<[((bot, upd), peak_attempt (bot, upd) l1 + 1)%Z := mk_AttRow user now]> (attempts l1)) l1)
          else (Ok false, l1)
      end
  end.
Proof.
  unfold reserve_model_call_sync. rewrite transaction_run.
  destruct (begin_txn io reading bot l) as [now|]; [|done]. cbv zeta.
  unfold_py.
  destruct (requests _ !! _) as [row|]; [|done].
  case_bool_decide; [|done]. case_bool_decide; [|done]. cbn [negb orb andb].
  destruct (_ || _ || _); [done|]. rewrite bool_decide_false; [done|].
  rewrite next_attempt_free. by intros [].
Qed.

(** ** Pruning keeps what the windows count *)

Lemma prune_clock now l : quota_clock (prune now l) = quota_clock l.
Proof. done. Qed.

Lemma retention_le_day now c :
  t_le (t_sub now DAY_SECONDS) c = true -> t_le (t_sub now RETENTION_SECONDS) c = true.
Proof. intros Hc. eapply (t_le_trans _ (t_sub now DAY_SECONDS)); [by apply t_sub_anti | exact Hc]. Qed.

Lemma kept_row now (c t : T) :
  t_le (t_sub now RETENTION_SECONDS) c = true -> t_lt c t = true ->
  t_lt t (t_sub now RETENTION_SECONDS) = false.
Proof. intros Hc Ht. apply t_nlt_le. eapply t_le_trans; [exact Hc|]. by apply t_lt_le. Qed.

Lemma request_count_prune bot user now c l :
  t_le (t_sub now RETENTION_SECONDS) c = true ->
  request_count bot user c (prune now l) = request_count bot user c l.
Proof.
  intros Hc. unfold request_count, prune. cbn [requests set_requests set_attempts]. f_equal. f_equal.
  apply filter_filter_absorb. intros k v _ Hp. cbn in *. breflect.
  unfold request_expired. cbn. by rewrite (kept_row now c).
Qed.

Lemma attempt_count_prune bot user now c l :
  t_le (t_sub now RETENTION_SECONDS) c = true ->
  attempt_count bot user c (prune now l) = attempt_count bot user c l.
Proof.
  intros Hc. unfold attempt_count, prune. cbn [attempts set_requests set_attempts]. f_equal. f_equal.
  apply filter_filter_absorb. intros k v _ Hp. cbn in *. breflect.
  unfold attempt_expired. cbn. by rewrite (kept_row now c).
Qed.

Lemma prune_requests now l k row :
  requests (prune now l) !! k = Some row -> requests l !! k = Some row.
Proof. unfold prune. cbn. by intros [? _]%map_lookup_filter_Some. Qed.

Lemma prune_requests_gone now l k row :
  requests l !! k = Some row -> requests (prune now l) !! k = None ->
  t_lt (rq_created row) (t_sub now RETENTION_SECONDS) = true /\ finished (rq_state row) = true.
Proof.
  unfold prune. cbn. intros Hk [Hn|Hn]%map_lookup_filter_None; [congruence|].
  specialize (Hn row Hk). cbn in Hn. apply not_false_is_true in Hn.
  unfold request_expired in Hn. cbn in Hn. by breflect.
Qed.

Lemma prune_attempts now l k a :
  attempts (prune now l) !! k = Some a -> attempts l !! k = Some a.
Proof. unfold prune. cbn. by intros [? _]%map_lookup_filter_Some. Qed.

(** The attempts of a request under way are not pruned. *)
Lemma prune_attempts_kept now l key row :
  requests l !! key = Some row -> finished (rq_state row) = false ->
  attempts_of key (prune now l) = attempts_of key l.
Proof.
  intros Hk Hf. unfold attempts_of, prune. cbn. apply filter_filter_absorb.
  intros k a _ Hkey. cbn in *. unfold attempt_expired. cbn. rewrite Hkey, Hk, Hf. apply andb_false_r.
Qed.

Lemma prune_fk now l :
  (forall key i a, attempts l !! (key, i) = Some a -> is_Some (requests l !! key)) ->
  forall key i a, attempts (prune now l) !! (key, i) = Some a -> is_Some (requests (prune now l) !! key).
Proof.
  intros Hfk key i a Ha. destruct (Hfk key i a) as [row Hrow]; [by eapply prune_attempts|].
  exists row. unfold prune. cbn. apply map_lookup_filter_Some. split; [done|].
  unfold request_expired. cbn. apply andb_false_iff. right. apply negb_false_iff.
  unfold has_attempts. apply negb_true_iff, bool_decide_eq_false. intros Hempty.
  eapply filter_empty_lookup in Hempty; [|exact Ha]. done.
Qed.

(** ** The invariant of a bot's rows

    [ahead] holds the readings of other bots' transactions, which may have pruned
    rows of this bot. *)

(** The ledger still holds every row of the bot that a window starting at [c] counts. *)
Definition covered (bot : string) (ahead : list T) (l : Ledger T) (c : T) : Prop :=
  (forall last, quota_clock l !! bot = Some last -> t_le (t_sub last DAY_SECONDS) c = true) /\
  forall n, n ∈ ahead -> t_le (t_sub n RETENTION_SECONDS) c = true.

Record quota_inv (bot : string) (ahead : list T) (l : Ledger T) (log : list (event T)) : Prop := {
  qi_requests : forall user c, covered bot ahead l c ->
    request_count bot user c l = Z.of_nat (count (event_after is_grant user c) log);
  qi_calls : forall user c, covered bot ahead l c ->
    attempt_count bot user c l = Z.of_nat (count (event_after is_call user c) log);
  qi_fk : forall key i a, attempts l !! (key, i) = Some a -> is_Some (requests l !! key);
  qi_rows : forall upd row, requests l !! (bot, upd) = Some row -> finished (rq_state row) = false ->
    size (attempts_of (bot, upd) l) = calls_since_grant upd log;
  qi_retained : forall upd u t, Granted upd u t ∈ log ->
    (exists row, requests l !! (bot, upd) = Some row /\ t_le t (rq_created row) = true) \/
    (exists last, quota_clock l !! bot = Some last /\ t_lt t (t_sub last RETENTION_SECONDS) = true) \/
    ahead <> [];
}.

Lemma quota_inv_empty bot : quota_inv bot [] empty_ledger [].
Proof.
  split; cbn; try done.
  - intros ? ? ? []%elem_of_nil.
Qed.

Lemma tick_clock bot now l : quota_clock (tick bot now l) !! bot = Some now.
Proof. apply lookup_insert_eq. Qed.

Lemma covered_settle io reading bot ahead l now c :
  begin_txn io reading bot l = Some now -> covered bot ahead (tick bot now l) c ->
  covered bot ahead l c /\ t_le (t_sub now DAY_SECONDS) c = true.
Proof.
  intros Hb [Hc Ha]. specialize (Hc now (tick_clock _ _ _)). split; [|done]. split; [|done].
  intros last Hlast. eapply t_le_trans; [|exact Hc]. apply t_sub_mono. by eapply begin_txn_forward.
Qed.

Lemma retained_settle io reading bot l now t :
  begin_txn io reading bot l = Some now ->
  (exists last, quota_clock l !! bot = Some last /\ t_lt t (t_sub last RETENTION_SECONDS) = true) ->
  exists last, quota_clock (tick bot now l) !! bot = Some last /\ t_lt t (t_sub last RETENTION_SECONDS) = true.
Proof.
  intros Hb (last & Hl & Ht). exists now. split; [apply tick_clock|]. eapply t_lt_le_trans; [exact Ht|].
  apply t_sub_mono. by eapply begin_txn_forward.
Qed.

(** Moving the clock forward keeps it, *)
Lemma quota_inv_tick io reading bot ahead l log now :
  begin_txn io reading bot l = Some now -> quota_inv bot ahead l log -> quota_inv bot ahead (tick bot now l) log.
Proof.
  intros Hb [Hr Hc Hfk Hrows Hret].
  assert (forall c, covered bot ahead (tick bot now l) c -> covered bot ahead l c) as Hcov
    by (intros c Hx; by eapply covered_settle).
  split; [by intros u c Hx%Hcov; rewrite <- (Hr u c)|by intros u c Hx%Hcov; rewrite <- (Hc u c)|done|done|].
  intros upd u t Hin. destruct (Hret upd u t Hin) as [Hrow|[Hl|?]]; [by left| |by right; right].
  right; left. by eapply retained_settle.
Qed.

(** and so does pruning with the clock of the bot. *)
Lemma quota_inv_prune bot ahead l log now :
  quota_clock l !! bot = Some now -> quota_inv bot ahead l log -> quota_inv bot ahead (prune now l) log.
Proof.
  intros Hn [Hr Hc Hfk Hrows Hret].
  assert (forall c, covered bot ahead l c -> t_le (t_sub now RETENTION_SECONDS) c = true) as Hcov
    by (intros c [Hx _]; by apply retention_le_day, Hx).
  split.
  - intros user c Hx. rewrite request_count_prune by by apply Hcov. by apply Hr.
  - intros user c Hx. rewrite attempt_count_prune by by apply Hcov. by apply Hc.
  - by apply prune_fk.
  - intros upd row Hrow Hf. apply prune_requests in Hrow.
    rewrite (prune_attempts_kept _ _ _ row) by done. by eapply (Hrows upd row).
  - intros upd u t Hin. destruct (Hret upd u t Hin) as [(row & Hrow & Ht)|Hlast]; [|by right].
    destruct (requests (prune now l) !! (bot, upd)) as [row'|] eqn:Hp.
    + left. exists row. split; [|done]. apply prune_requests in Hp as Hp'. congruence.
    + right; left. exists now. split; [done|].
      apply (prune_requests_gone _ _ _ row) in Hp as [Hlt _]; [|done]. by eapply t_le_lt_trans.
Qed.

Lemma quota_inv_settle io reading bot ahead l log now :
  begin_txn io reading bot l = Some now ->
  quota_inv bot ahead l log -> quota_inv bot ahead (prune now (tick bot now l)) log.
Proof. intros Hb Hi. apply quota_inv_prune; [apply tick_clock | by eapply quota_inv_tick]. Qed.

(** More readings of other bots weaken it. *)
Lemma quota_inv_ahead bot n ahead l log : quota_inv bot ahead l log -> quota_inv bot (n :: ahead) l log.
Proof.
  intros [Hr Hc Hfk Hrows Hret].
  assert (forall c, covered bot (n :: ahead) l c -> covered bot ahead l c) as Hcov
    by (intros c [H1 H2]; split; [done | intros m Hm; apply H2; by right]).
  split; [by intros u c Hx%Hcov; apply Hr|by intros u c Hx%Hcov; apply Hc|done|done|].
  intros upd u t Hin. destruct (Hret upd u t Hin) as [?|[?|?]]; [by left|by right; left|by right; right].
Qed.

(** A new row counts once in the windows of its user. *)
Lemma request_count_grant bot user upd u now c l :
  requests l !! (bot, upd) = None ->
  request_count bot user c (set_requests (<[(bot, upd) := mk_ReqRow u now RESERVED]> (requests l)) l) =
  (Z.of_nat (if event_after is_grant user c (Granted upd u now) then 1 else 0) + request_count bot user c l)%Z.
Proof.
  intros Hn. unfold request_count. cbn. rewrite size_filter_insert_fresh by done.
  unfold event_after. cbn. rewrite bool_decide_true by done. cbn.
  rewrite Nat2Z.inj_add. f_equal. case_decide as Hd; [by rewrite Hd|].
  by apply not_true_is_false in Hd as ->.
Qed.

Lemma attempt_count_call bot user upd i u now c l :
  attempts l !! ((bot, upd), i) = None ->
  attempt_count bot user c (set_attempts (<[((bot, upd), i) := mk_AttRow u now]> (attempts l)) l) =
  (Z.of_nat (if event_after is_call user c (Called upd u now) then 1 else 0) + attempt_count bot user c l)%Z.
Proof.
  intros Hn. unfold attempt_count. cbn. rewrite size_filter_insert_fresh by done.
  unfold event_after. cbn. rewrite bool_decide_true by done. cbn.
  rewrite Nat2Z.inj_add. f_equal. case_decide as Hd; [by rewrite Hd|].
  by apply not_true_is_false in Hd as ->.
Qed.

Lemma attempts_of_orphan bot upd ahead l log :
  quota_inv bot ahead l log -> requests l !! (bot, upd) = None -> size (attempts_of (bot, upd) l) = 0.
Proof.
  intros Hi Hn. apply map_size_empty_iff, map_empty. intros [key i].
  apply map_lookup_filter_None. right. cbn. intros a Ha ->.
  destruct (qi_fk _ _ _ _ Hi _ _ _ Ha) as [row Hrow]. congruence.
Qed.

Lemma quota_inv_grant bot upd user now ahead l log :
  requests l !! (bot, upd) = None -> quota_clock l !! bot = Some now -> quota_inv bot ahead l log ->
  quota_inv bot ahead (set_requests (<[(bot, upd) := mk_ReqRow user now RESERVED]> (requests l)) l)
    (Granted upd user now :: log).
Proof.
  intros Hn Hclk Hi. pose proof (attempts_of_orphan _ _ _ _ _ Hi Hn) as Horphan.
  destruct Hi as [Hr Hc Hfk Hrows Hret]. split.
  - intros u c Hcov. rewrite request_count_grant, count_cons, Hr by done. lia.
  - intros u c Hcov. rewrite count_cons. exact (Hc u c Hcov).
  - intros key i a Ha. cbn. destruct (decide (key = (bot, upd))) as [->|Hne];
      [by rewrite lookup_insert_eq|]. rewrite lookup_insert_ne by done. by eapply Hfk.
  - intros upd' row Hrow Hf. cbn in *. case_bool_decide as Hu; [by subst|].
    rewrite lookup_insert_ne in Hrow by congruence. by eapply Hrows.
  - intros upd' u t [Heq|Hin]%elem_of_cons.
    + injection Heq as -> -> ->. left. eexists. cbn. rewrite lookup_insert_eq. split; [done|apply t_le_refl].
    + destruct (Hret upd' u t Hin) as [(row & Hrow & Ht)|Hlast]; [|by right].
      left. exists row. split; [|done]. cbn. rewrite lookup_insert_ne; [done|]. intros [= ->]. congruence.
Qed.

Lemma quota_inv_call bot upd row i user now ahead l log :
  requests l !! (bot, upd) = Some row -> attempts l !! ((bot, upd), i) = None -> quota_inv bot ahead l log ->
  quota_inv bot ahead (set_attempts (<[((bot, upd), i) := mk_AttRow user now]> (attempts l)) l)
    (Called upd user now :: log).
Proof.
  intros Hrow Hn [Hr Hc Hfk Hrows Hret]. split.
  - intros u c Hcov. rewrite count_cons. exact (Hr u c Hcov).
  - intros u c Hcov. rewrite attempt_count_call, count_cons, Hc by done. lia.
  - intros key j a. cbn. rewrite lookup_insert. case_decide as Hk; [injection Hk as <- <-; by rewrite Hrow|].
    apply Hfk.
  - intros upd' row' Hrow' Hf. cbn. unfold attempts_of. cbn. rewrite size_filter_insert_fresh by done.
    cbn. rewrite <- (Hrows upd' row') by done. unfold attempts_of.
    destruct (decide (upd = upd')) as [->|Hne]; [by rewrite decide_True, bool_decide_true|].
    rewrite decide_False, bool_decide_false by congruence. done.
  - intros upd' u t [[=]|Hin]%elem_of_cons. by apply (Hret upd' u t).
Qed.

(** A state change keeps the row's user and time, so no window moves. *)
Lemma quota_inv_move bot upd row target ahead l log :
  requests l !! (bot, upd) = Some row -> finished (rq_state row) = false -> quota_inv bot ahead l log ->
  quota_inv bot ahead (set_requests
    (<[(bot, upd) := mk_ReqRow (rq_user row) (rq_created row) target]> (requests l)) l) log.
Proof.
  intros Hrow Hf [Hr Hc Hfk Hrows Hret]. split.
  - intros u c Hcov. rewrite <- (Hr u c) by done. unfold request_count. cbn. f_equal.
    by eapply size_filter_update.
  - intros u c Hcov. by rewrite <- (Hc u c).
  - intros key i a Ha. cbn. destruct (decide (key = (bot, upd))) as [->|Hne];
      [by rewrite lookup_insert_eq|]. rewrite lookup_insert_ne by done. by eapply Hfk.
  - intros upd' row' Hrow' Hf'. cbn in *. destruct (decide (upd' = upd)) as [->|Hne];
      [by eapply Hrows|]. rewrite lookup_insert_ne in Hrow' by congruence. by eapply Hrows.
  - intros upd' u t Hin. destruct (Hret upd' u t Hin) as [(row' & Hrow' & Ht)|Hlast]; [|by right].
    left. cbn. destruct (decide (upd' = upd)) as [->|Hne].
    + rewrite lookup_insert_eq. eexists. split; [done|]. cbn. congruence.
    + rewrite lookup_insert_ne by congruence. by exists row'.
Qed.

(** ** Transactions of other bots *)

Lemma size_filter_other {K A} `{Countable K} (P : K * A -> Prop) `{!forall x, Decision (P x)} (m : gmap K A) k v :
  (forall v, ~ P (k, v)) -> filter P (<[k:=v]> m) = filter P m.
Proof. intros HP. rewrite map_filter_insert, decide_False by apply HP. apply map_filter_delete_not. intros; apply HP. Qed.

Lemma quota_inv_other_tick bot b now ahead l log :
  b <> bot -> quota_inv bot ahead l log -> quota_inv bot ahead (tick b now l) log.
Proof.
  intros Hb [Hr Hc Hfk Hrows Hret].
  assert (quota_clock (tick b now l) !! bot = quota_clock l !! bot) as Hclk by by apply lookup_insert_ne.
  split; [| |done|done|by rewrite Hclk]; unfold covered; rewrite Hclk; [intros u c; apply (Hr u c) | intros u c; apply (Hc u c)].
Qed.

Lemma quota_inv_other_prune bot now ahead l log :
  quota_inv bot ahead l log -> quota_inv bot (now :: ahead) (prune now l) log.
Proof.
  intros Hi. apply (quota_inv_ahead _ now) in Hi as [Hr Hc Hfk Hrows Hret].
  assert (forall c, covered bot (now :: ahead) l c -> t_le (t_sub now RETENTION_SECONDS) c = true) as Hcov
    by (intros c [_ Hx]; apply Hx; by left).
  split.
  - intros user c Hx. rewrite request_count_prune by by apply Hcov. by apply Hr.
  - intros user c Hx. rewrite attempt_count_prune by by apply Hcov. by apply Hc.
  - by apply prune_fk.
  - intros upd row Hrow Hf. apply prune_requests in Hrow.
    rewrite (prune_attempts_kept _ _ _ row) by done. by eapply (Hrows upd row).
  - intros upd u t _. by right; right.
Qed.

Lemma quota_inv_other_row bot b upd row ahead l log :
  b <> bot -> quota_inv bot ahead l log -> quota_inv bot ahead (set_requests (<[(b, upd) := row]> (requests l)) l) log.
Proof.
  intros Hb [Hr Hc Hfk Hrows Hret]. split.
  - intros user c Hx. rewrite <- (Hr user c Hx). unfold request_count. cbn. rewrite size_filter_other; [done|].
    intros v Hv. cbn in Hv. breflect. congruence.
  - exact Hc.
  - intros key i a Ha. cbn. destruct (decide (key = (b, upd))) as [->|Hne]; [by rewrite lookup_insert_eq|].
    rewrite lookup_insert_ne by done. by eapply Hfk.
  - intros upd' row' Hrow. cbn in Hrow. rewrite lookup_insert_ne in Hrow by congruence. by eapply Hrows.
  - intros upd' u t Hin. cbn. rewrite lookup_insert_ne by congruence. by eapply Hret.
Qed.

Lemma quota_inv_other_call bot b upd i row a ahead l log :
  b <> bot -> requests l !! (b, upd) = Some row -> quota_inv bot ahead l log ->
  quota_inv bot ahead (set_attempts (<[((b, upd), i) := a]> (attempts l)) l) log.
Proof.
  intros Hb Hrow [Hr Hc Hfk Hrows Hret]. split.
  - exact Hr.
  - intros user c Hx. rewrite <- (Hc user c Hx). unfold attempt_count. cbn. rewrite size_filter_other; [done|].
    intros v Hv. cbn in Hv. breflect. congruence.
  - intros key j a'. cbn. rewrite lookup_insert. case_decide as Hk; [injection Hk as <- <-; by rewrite Hrow|]. apply Hfk.
  - intros upd' row' Hrow' Hf. rewrite <- (Hrows upd' row' Hrow' Hf). unfold attempts_of. cbn.
    rewrite size_filter_other; [done|]. intros v Hv. cbn in Hv. congruence.
  - exact Hret.
Qed.

(** A transaction of another bot, read off its clock, weakens the bot's invariant
    by that reading. *)
Lemma quota_inv_other lim bot b op ahead l log :
  b <> bot -> quota_inv bot ahead l log ->
  quota_inv bot (from_option (fun n => n :: ahead) ahead (op_reading op)) (quota_exec lim b op (l, [])).1 log.
Proof.
  intros Hb Hi.
  assert (forall n, op_reading op = n -> quota_inv bot (from_option (fun n => n :: ahead) ahead n) l log) as Hl
    by (intros [n|] _; [by apply quota_inv_ahead | done]).
  assert (forall io reading upd user x y, op_reading op = reading ->
    quota_inv bot (from_option (fun n => n :: ahead) ahead reading) (move_request io reading b upd user x y l).2 log) as Hm.
  { intros io reading upd user x y Hr. rewrite move_request_run.
    destruct (begin_txn io reading b l) as [now|]; [|by apply Hl]. destruct (requests l !! (b, upd)); [|by apply Hl].
    destruct (_ && _); [|by apply Hl]. cbn [snd].
    apply (quota_inv_other_row bot b upd _ _ (tick b now l)); [done|]. apply quota_inv_other_tick; [done|]. by apply Hl. }
  destruct op as [io reading upd user|io reading upd user|io reading upd user|io reading upd user ok];
    cbn [quota_exec op_reading fst]; try (apply Hm; done).
  - rewrite reserve_request_run. destruct (begin_txn io reading b l) as [now|] eqn:Hbt; [|by apply Hl]. cbv zeta.
    pose proof (begin_txn_reading _ _ _ _ _ Hbt) as ->. cbn [from_option].
    pose proof (quota_inv_other_prune bot now _ _ _ (quota_inv_other_tick bot b now _ _ _ Hb Hi)) as Hp.
    destruct (requests _ !! _); [by destruct (bool_decide _)|]. destruct (_ || _); [done|]. cbn [fst]. by apply quota_inv_other_row.
  - rewrite reserve_model_run. destruct (begin_txn io reading b l) as [now|] eqn:Hbt; [|by apply Hl]. cbv zeta.
    pose proof (begin_txn_reading _ _ _ _ _ Hbt) as ->. cbn [from_option].
    pose proof (quota_inv_other_prune bot now _ _ _ (quota_inv_other_tick bot b now _ _ _ Hb Hi)) as Hp.
    destruct (requests _ !! _) as [row|] eqn:Hrow; [|done]. destruct (_ && _); [|done]. destruct (_ || _ || _); [done|].
    cbn [fst]. by eapply quota_inv_other_call.
Qed.

(** ** Windows over the log *)

Definition window_bound (kind : event T -> bool) (d limit : Z) (log : list (event T)) : Prop :=
  forall user t, count (in_window kind user d t) log <= Z.to_nat limit.

Lemma window_push kind d limit e log :
  window_bound kind d limit log ->
  (kind e = true ->
   (Z.of_nat (count (event_after kind (event_user e) (t_sub (event_time e) d)) log) < limit)%Z) ->
  window_bound kind d limit (e :: log).
Proof.
  intros Hlog Hnew user t. rewrite count_cons.
  destruct (in_window kind user d t e) eqn:He; [|by apply Hlog].
  unfold in_window, event_after in He. breflect. subst user.
  specialize (Hnew ltac:(done)).
  assert (count (in_window kind (event_user e) d t) log <=
          count (event_after kind (event_user e) (t_sub (event_time e) d)) log); [|lia].
  apply count_le. unfold in_window, event_after. intros x _ Hx. breflect.
  repeat (apply andb_true_iff; split); [done|by apply bool_decide_eq_true|].
  eapply t_le_lt_trans; [|done]. by apply t_sub_mono.
Qed.

Lemma window_skip kind d limit e log :
  kind e = false -> window_bound kind d limit log -> window_bound kind d limit (e :: log).
Proof. intros Hk Hlog. apply window_push; [done|]. by rewrite Hk. Qed.

Definition regranted_later (upd : Z) (t : T) (e : event T) : Prop :=
  match e with
  | Granted upd' _ t' => upd' = upd -> t_lt t' (t_sub t RETENTION_SECONDS) = true
  | Called _ _ _ => True
  end.

Fixpoint spaced (log : list (event T)) : Prop :=
  match log with
  | [] => True
  | Granted upd _ t :: log' => Forall (regranted_later upd t) log' /\ spaced log'
  | Called _ _ _ :: log' => spaced log'
  end.

Record quota_good (lim : BudgetLimits) (bot : string) (ahead : list T) (st : Ledger T * list (event T)) : Prop := {
  qg_inv : quota_inv bot ahead st.1 st.2;
  qg_rh : window_bound is_grant HOUR_SECONDS (requests_per_hour lim) st.2;
  qg_rd : window_bound is_grant DAY_SECONDS (requests_per_day lim) st.2;
  qg_mh : window_bound is_call HOUR_SECONDS (model_calls_per_hour lim) st.2;
  qg_md : window_bound is_call DAY_SECONDS (model_calls_per_day lim) st.2;
  qg_mr : forall upd, calls_since_grant upd st.2 <= Z.to_nat (model_calls_per_request lim);
  qg_spaced : ahead = [] -> spaced st.2;
}.

Lemma quota_good_empty lim bot : quota_good lim bot [] (empty_ledger, []).
Proof. split; cbn; try (intros ? ?; cbn); try lia; try done. apply quota_inv_empty. Qed.

(** A bot reads a clock at most a day behind what the others read before. *)
Definition near (ahead : list T) (reading : option T) : Prop :=
  forall n t, n ∈ ahead -> reading = Some t -> t_le (t_sub n RETENTION_SECONDS) (t_sub t DAY_SECONDS) = true.

Lemma covered_tick bot ahead now d l :
  near ahead (Some now) -> (d <= DAY_SECONDS)%Z -> covered bot ahead (prune now (tick bot now l)) (t_sub now d).
Proof.
  intros Hn Hd. split; [intros last Hl; rewrite prune_clock, tick_clock in Hl; injection Hl as <-; by apply t_sub_anti|].
  intros n Hin. eapply t_le_trans; [by apply (Hn n now)|]. by apply t_sub_anti.
Qed.

Lemma quota_good_request lim bot ahead io reading upd user st :
  near ahead reading -> quota_good lim bot ahead st ->
  quota_good lim bot ahead (quota_exec lim bot (ReserveRequest io reading upd user) st).
Proof.
  destruct st as [l log]. intros Hnear Hg. cbn [quota_exec]. rewrite reserve_request_run.
  destruct (begin_txn io reading bot l) as [now|] eqn:Hb; [|done]. cbv zeta.
  pose proof (quota_inv_settle _ _ _ _ _ _ _ Hb (qg_inv _ _ _ _ Hg)) as Hi. cbn [fst snd] in Hi.
  destruct Hg as [_ Hrh Hrd Hmh Hmd Hmr Hsp]. cbn [fst snd] in *.
  destruct (requests _ !! _) as [row|] eqn:Hrow; [by destruct (bool_decide _)|].
  destruct (_ || _) eqn:Hlim; [done|]. apply orb_false_iff in Hlim as [Hh Hd].
  apply begin_txn_reading in Hb as ->. cbn [logged allowed].
  rewrite (qi_requests _ _ _ _ Hi) in Hh by by apply covered_tick.
  rewrite (qi_requests _ _ _ _ Hi) in Hd by by apply covered_tick.
  apply Z.leb_gt in Hh. apply Z.leb_gt in Hd. split; cbn [fst snd].
  - by apply quota_inv_grant; [|apply tick_clock|].
  - by apply window_push.
  - by apply window_push.
  - by apply window_skip.
  - by apply window_skip.
  - intros upd'. cbn. case_bool_decide; [lia|done].
  - intros ->. cbn. split; [|by apply Hsp]. apply Forall_forall. intros [upd' u t|]; [|done]. intros Hin ->.
    destruct (qi_retained _ _ _ _ Hi upd u t Hin) as [(row & Hr & _)|[(last & Hl & Ht)|?]]; [congruence| |done].
    rewrite prune_clock, tick_clock in Hl. by injection Hl as <-.
Qed.

Lemma quota_good_call lim bot ahead io reading upd user st :
  near ahead reading -> quota_good lim bot ahead st ->
  quota_good lim bot ahead (quota_exec lim bot (ReserveModelCall io reading upd user) st).
Proof.
  destruct st as [l log]. intros Hnear Hg. cbn [quota_exec]. rewrite reserve_model_run.
  destruct (begin_txn io reading bot l) as [now|] eqn:Hb; [|done]. cbv zeta.
  pose proof (quota_inv_settle _ _ _ _ _ _ _ Hb (qg_inv _ _ _ _ Hg)) as Hi. cbn [fst snd] in Hi.
  destruct Hg as [_ Hrh Hrd Hmh Hmd Hmr Hsp]. cbn [fst snd] in *.
  destruct (requests _ !! _) as [row|] eqn:Hrow; [|done].
  destruct (bool_decide (rq_user row = user) && _) eqn:Hown; [|done].
  destruct (_ || _ || _) eqn:Hlim; [done|]. breflect.
  apply begin_txn_reading in Hb as ->. cbn [logged].
  rewrite (qi_calls _ _ _ _ Hi) in * by by apply covered_tick.
  erewrite (qi_rows _ _ _ _ Hi) in * by (done || by rewrite H2).
  repeat match goal with X : (_ <=? _)%Z = false |- _ => apply Z.leb_gt in X end.
  split; cbn [fst snd].
  - eapply quota_inv_call; [done|apply next_attempt_free|done].
  - by apply window_skip.
  - by apply window_skip.
  - by apply window_push.
  - by apply window_push.
  - intros upd'. cbn. case_bool_decide; [subst; lia|apply Hmr].
  - done.
Qed.

Lemma quota_good_move lim bot ahead io reading upd user expected target l log :
  finished expected = false -> quota_good lim bot ahead (l, log) ->
  quota_good lim bot ahead ((move_request io reading bot upd user expected target l).2, log).
Proof.
  intros Hf Hg. rewrite move_request_run.
  destruct (begin_txn io reading bot l) as [now|] eqn:Hb; [|done].
  destruct (requests l !! (bot, upd)) as [row|] eqn:Hrow; [|done].
  destruct (bool_decide (rq_user row = user) && _) eqn:Hown; [|done]. breflect.
  destruct Hg as [Hi ? ? ? ? ? ?]. split; try done. cbn [fst snd].
  apply (quota_inv_move bot upd row target _ (tick bot now l)); [done|congruence|].
  by eapply quota_inv_tick.
Qed.

Lemma quota_good_exec lim bot ahead op st :
  near ahead (op_reading op) -> quota_good lim bot ahead st -> quota_good lim bot ahead (quota_exec lim bot op st).
Proof.
  intros Hn. destruct op, st as [l log]; [by apply quota_good_request| |by apply quota_good_call|];
    by apply quota_good_move.
Qed.

Lemma quota_good_run lim bot ops : quota_good lim bot [] (quota_run lim bot ops).
Proof.
  unfold quota_run. generalize (quota_good_empty lim bot). generalize (empty_ledger (T:=T), @nil (event T)).
  induction ops as [|op ops IH]; intros st Hst; cbn; [done|].
  apply IH, quota_good_exec; [by intros n t ?%elem_of_nil | done].
Qed.

(** *** Runs of many bots *)

Lemma quota_exec_log lim bot op (led : Ledger T) log :
  quota_exec lim bot op (led, log) =
  ((quota_exec lim bot op (led, [])).1, (quota_exec lim bot op (led, [])).2 ++ log).
Proof.
  destruct op as [io [t|] upd user|io rd upd user|io [t|] upd user|io rd upd user success]; cbn [quota_exec]; try done.
  1,2: destruct (reserve_request_sync _ _ _ _ _ _ led) as [[x|e] led']; try done; by destruct (allowed x).
  all: destruct (reserve_model_call_sync _ _ _ _ _ _ led) as [[[]|e] led']; done.
Qed.

Lemma bot_log_app bot (log1 log2 : list (string * event T)) : bot_log bot (log1 ++ log2) = bot_log bot log1 ++ bot_log bot log2.
Proof. unfold bot_log. by rewrite List.filter_app, map_app. Qed.

Lemma bot_log_own bot (events : list (event T)) : bot_log bot (map (pair bot) events) = events.
Proof. unfold bot_log. induction events as [|e es IH]; [done|]. cbn. rewrite String.eqb_refl. cbn. by rewrite IH. Qed.

Lemma bot_log_other bot b (events : list (event T)) : b <> bot -> bot_log bot (map (pair b) events) = [].
Proof. intros Hb%String.eqb_neq. unfold bot_log. induction events as [|e es IH]; [done|]. cbn. by rewrite Hb. Qed.

(** What the other bots read in a run *)
Definition others_readings (bot : string) (ops : list (string * quota_op T)) : list T :=
  omap (fun op => if decide (op.1 = bot) then None else op_reading op.2) ops.

(** Between the bots the clock goes back by at most a day: a bot's transaction reads
    at most that much less than another bot's did before it. *)
Definition within_a_day (bot : string) (ops : list (string * quota_op T)) : Prop :=
  forall pre post op, ops = pre ++ (bot, op) :: post -> near (others_readings bot pre) (op_reading op).

Lemma quota_good_bots lim bot ops :
  within_a_day bot ops ->
  let st := ledger_run lim ops in
  exists ahead, (forall n, n ∈ ahead -> n ∈ others_readings bot ops) /\ quota_good lim bot ahead (st.1, bot_log bot st.2).
Proof.
  induction ops as [|[b op] ops IH] using rev_ind; intros Hday; [exists []; split; [by intros n | apply quota_good_empty]|].
  destruct IH as (ahead & Ha & Hg).
  { intros pre post o ->. apply (Hday pre (post ++ [(b, op)]) o). by rewrite <- app_assoc. }
  unfold ledger_run. rewrite foldl_app. fold (ledger_run lim ops). destruct (ledger_run lim ops) as [l log].
  cbn [fst snd] in *. cbn [foldl]. unfold ledger_exec. cbn [fst snd].
  destruct (quota_exec lim b op (l, [])) as [l' events] eqn:He. cbn [fst snd].
  unfold others_readings. setoid_rewrite omap_app. rewrite bot_log_app.
  destruct (decide (b = bot)) as [->|Hb].
  - exists ahead. split; [intros n Hn; apply elem_of_app; left; by apply Ha|]. rewrite bot_log_own.
    pose proof (quota_exec_log lim bot op l (bot_log bot log)) as Hq. rewrite He in Hq. cbn [fst snd] in Hq. rewrite <- Hq.
    apply quota_good_exec; [|done]. intros n t Hn. by apply (Hday ops [] op eq_refl), Ha.
  - exists (from_option (fun n => n :: ahead) ahead (op_reading op)). rewrite bot_log_other by done. split.
    + intros n Hn. apply elem_of_app. cbn. rewrite decide_False by done.
      destruct (op_reading op) as [m|]; cbn in *; [|left; by apply Ha].
      apply elem_of_cons in Hn as [->|Hn]; [right; by left | left; by apply Ha].
    + pose proof (quota_inv_other lim bot b op ahead l (bot_log bot log) Hb (qg_inv _ _ _ _ Hg)) as Hi. rewrite He in Hi.
      destruct Hg as [_ ? ? ? ? ? Hs]. cbn [fst snd app] in *. split; try done. cbn [snd].
      intros Hn. apply Hs. destruct (op_reading op); done.
Qed.

Lemma spaced_split pre post upd user t log :
  log = pre ++ Granted upd user t :: post -> spaced log -> Forall (regranted_later upd t) post.
Proof.
  intros ->. induction pre as [|[] pre IH]; cbn; [by intros []| |done]. intros []. by apply IH.
Qed.

(** C3: the quotas hold for every bot of a shared ledger, whatever the bots'
    transactions, their order and failures, and whatever the readings of the clock
    under the bot itself, as long as the clock does not go back by more than a day
    from one bot's transaction to another's: the requests granted to a user in any
    window of an hour or a day, and the model calls authorised to him, stay within
    the limits, and so do the model calls of one granted request. Without that
    condition another bot's pruning may empty the windows ([prune_crosses_bots]). *)
Theorem quotas_never_exceeded lim bot ops user t upd :
  within_a_day bot ops ->
  let log := bot_log bot (ledger_run lim ops).2 in
  count (in_window is_grant user HOUR_SECONDS t) log <= Z.to_nat (requests_per_hour lim) /\
  count (in_window is_grant user DAY_SECONDS t) log <= Z.to_nat (requests_per_day lim) /\
  count (in_window is_call user HOUR_SECONDS t) log <= Z.to_nat (model_calls_per_hour lim) /\
  count (in_window is_call user DAY_SECONDS t) log <= Z.to_nat (model_calls_per_day lim) /\
  calls_since_grant upd log <= Z.to_nat (model_calls_per_request lim).
Proof.
  intros Hday. destruct (quota_good_bots lim bot ops Hday) as (ahead & _ & [_ ? ? ? ? ? _]). cbn. auto.
Qed.

(** One bot's transactions alone need no condition on the clock. *)
Lemma one_bot_within_a_day bot ops : Forall (fun op => op.1 = bot) ops -> within_a_day bot ops.
Proof.
  intros Hall pre post op -> n t Hn. exfalso. apply Forall_app in Hall as [Hpre _]. clear -Hn Hpre.
  unfold others_readings in Hn. apply list_elem_of_omap in Hn as ([b o] & Hin & Ho). rewrite Forall_forall in Hpre.
  rewrite decide_True in Ho; [done | by apply (Hpre (b, o))].
Qed.

(** Reservations are idempotent: an update that was granted is granted
    again only once its first grant is older than the retention period. *)
Theorem update_granted_once lim bot ops pre post upd user t user' t' :
  (quota_run lim bot ops).2 = pre ++ Granted upd user t :: post ->
  Granted upd user' t' ∈ post ->
  t_lt t' (t_sub t RETENTION_SECONDS) = true.
Proof.
  intros Hlog Hin. pose proof (qg_spaced _ _ _ _ (quota_good_run lim bot ops) eq_refl) as Hsp.
  eapply spaced_split in Hlog; [|exact Hsp]. rewrite Forall_forall in Hlog.
  by apply (Hlog _ Hin).
Qed.

(** ** The life of a reservation *)

(** Where a transaction can take a request: created RESERVED, run, finished;
    only finished rows older than the retention are pruned. *)
Inductive row_step (reading : option T) : option (ReqRow T) -> option (ReqRow T) -> Prop :=
| row_same r : row_step reading r r
| row_reserve user now : reading = Some now ->
    row_step reading None (Some (mk_ReqRow user now RESERVED))
| row_run user created :
    row_step reading (Some (mk_ReqRow user created RESERVED)) (Some (mk_ReqRow user created RUNNING))
| row_complete user created :
    row_step reading (Some (mk_ReqRow user created RUNNING)) (Some (mk_ReqRow user created COMPLETED))
| row_fail user created :
    row_step reading (Some (mk_ReqRow user created RUNNING)) (Some (mk_ReqRow user created FAILED))
| row_prune row now : reading = Some now -> finished (rq_state row) = true ->
    t_lt (rq_created row) (t_sub now RETENTION_SECONDS) = true -> row_step reading (Some row) None
| row_renew row user now : reading = Some now -> finished (rq_state row) = true ->
    t_lt (rq_created row) (t_sub now RETENTION_SECONDS) = true ->
    row_step reading (Some row) (Some (mk_ReqRow user now RESERVED)).

Lemma prune_row_step io reading bot l now key :
  begin_txn io reading bot l = Some now ->
  row_step reading (requests l !! key) (requests (prune now (tick bot now l)) !! key).
Proof.
  intros Hb%begin_txn_reading.
  destruct (requests l !! key) as [row|] eqn:Hl.
  - destruct (requests (prune now (tick bot now l)) !! key) as [row'|] eqn:Hp.
    + apply prune_requests in Hp as Hp'. cbn in Hp'. replace row' with row by congruence. constructor.
    + eapply prune_requests_gone in Hp as [? ?]; [|exact Hl]. by eapply row_prune.
  - destruct (requests (prune now (tick bot now l)) !! key) as [row'|] eqn:Hp; [|constructor].
    apply prune_requests in Hp. cbn in Hp. congruence.
Qed.

Lemma move_row_step io reading reading' bot upd user expected target l key :
  (expected = RESERVED /\ target = RUNNING) \/ (expected = RUNNING /\ finished target = true) ->
  row_step reading' (requests l !! key)
    (requests (move_request io reading bot upd user expected target l).2 !! key).
Proof.
  intros Hstates. rewrite move_request_run.
  destruct (begin_txn io reading bot l) as [now|]; [|constructor].
  destruct (requests l !! (bot, upd)) as [[u c st]|] eqn:Hrow; [|constructor]. cbn [rq_user rq_state rq_created].
  destruct (bool_decide (u = user) && _) eqn:Hown; [|constructor]. breflect. subst st. cbn.
  destruct (decide (key = (bot, upd))) as [->|Hne]; [|rewrite lookup_insert_ne by done; constructor].
  rewrite lookup_insert_eq, Hrow. destruct Hstates as [[-> ->]|[-> Ht]]; [constructor|].
  destruct target; try done; constructor.
Qed.

Lemma request_row_step lim io reading bot upd user l key :
  row_step reading (requests l !! key)
    (requests (reserve_request_sync lim io reading bot upd user l).2 !! key).
Proof.
  rewrite reserve_request_run.
  destruct (begin_txn io reading bot l) as [now|] eqn:Hb; [|constructor]. cbv zeta.
  pose proof (prune_row_step io reading bot l now key Hb) as Hp.
  destruct (requests (prune _ _) !! (bot, upd)) as [row|] eqn:Hrow; [done|].
  destruct (_ || _); [done|]. cbn [snd requests set_requests].
  destruct (decide (key = (bot, upd))) as [->|Hne]; [|by rewrite lookup_insert_ne].
  rewrite lookup_insert_eq. apply begin_txn_reading in Hb. rewrite Hrow in Hp.
  destruct (requests l !! (bot, upd)); inversion Hp; simplify_eq;
    [by eapply row_renew|by apply row_reserve].
Qed.

Lemma model_row_step lim io reading bot upd user l key :
  row_step reading (requests l !! key)
    (requests (reserve_model_call_sync lim io reading bot upd user l).2 !! key).
Proof.
  rewrite reserve_model_run.
  destruct (begin_txn io reading bot l) as [now|] eqn:Hb; [|constructor]. cbv zeta.
  pose proof (prune_row_step io reading bot l now key Hb) as Hp.
  destruct (requests (prune _ _) !! (bot, upd)) as [row|]; [|done].
  destruct (_ && _); [|done]. by destruct (_ || _ || _).
Qed.

(** The life of a reservation: every transaction, on any ledger, takes
    each request row along RESERVED, RUNNING, COMPLETED or FAILED, keeps its
    user and time on the way, and deletes it only when it is finished and past
    the retention; the other bots' rows are no exception. *)
Theorem reservation_life lim bot op l log key :
  row_step (op_reading op) (requests l !! key) (requests (quota_exec lim bot op (l, log)).1 !! key).
Proof.
  destruct op as [io reading upd user|io reading upd user|io reading upd user|io reading upd user success];
    cbn [quota_exec op_reading].
  - pose proof (request_row_step lim io reading bot upd user l key) as Hs. by destruct (reserve_request_sync _ _ _ _ _ _ _).
  - apply move_row_step. by left.
  - pose proof (model_row_step lim io reading bot upd user l key) as Hs. by destruct (reserve_model_call_sync _ _ _ _ _ _ _).
  - apply move_row_step. right. by destruct success.
Qed.

(** ** Ownership and close *)

Lemma owns_spec bot upd user cap (s : BetaBudgetStore T) :
  owns bot upd user cap s = true <->
  closed s = false /\ exists tok : string, cap = Some tok /\ tok <> ""%string /\ owners s !! ((bot, upd), user) = Some tok.
Proof.
  unfold owns. destruct cap as [c|]; [|naive_solver].
  destruct (closed s); cbn; [naive_solver|]. destruct (String.eqb_spec c "") as [->|Hc]; [naive_solver|].
  destruct (owners s !! _) as [c'|]; [|naive_solver].
  destruct (String.eqb_spec c' c); naive_solver.
Qed.

(** A model call is authorised only to the holder of the capability: the
    store was open and the caller owned the reservation both before and after
    the transaction, whose row is the caller's and RUNNING, whatever the other
    coroutines did meanwhile. *)
Theorem model_call_needs_owner io reading others bot upd user cap (s s' : BetaBudgetStore T) :
  reserve_model_call io reading others bot upd user cap s = (Ok true, s') ->
  closed s = false /\ closed s' = false /\
  (exists tok : string, cap = Some tok /\ owners s !! ((bot, upd), user) = Some tok /\
             owners s' !! ((bot, upd), user) = Some tok) /\
  exists row, requests (ledger s) !! (bot, upd) = Some row /\ rq_user row = user /\ rq_state row = RUNNING.
Proof.
  unfold reserve_model_call. unfold_py.
  destruct (validate_key bot upd user) as [[]|e]; [|done].
  destruct (owns bot upd user cap s) eqn:Hown; [|done]. cbn [negb]. unfold to_thread.
  rewrite reserve_model_run.
  destruct (begin_txn io reading bot (ledger s)) as [now|]; [|done]. cbv zeta.
  destruct (requests (prune _ _) !! _) as [row|] eqn:Hrow; [|done].
  destruct (bool_decide (rq_user row = user) && _) eqn:Hrun; [|done].
  destruct (_ || _ || _); [done|]. cbn [andb].
  destruct (owns bot upd user cap (others _)) eqn:Hown'; intros [= <-].
  apply owns_spec in Hown as (Hc & c & -> & _ & Ho).
  apply owns_spec in Hown' as (Hc' & c' & [= <-] & _ & Ho'). breflect.
  apply prune_requests in Hrow. eauto 10.
Qed.

(** Closing the store ends every grant: if [close] runs while a request
    or a model call is being reserved, the first raises and hands out no
    capability, and the second is not authorised. *)
Theorem close_ends_grants io reading token others bot upd user cap (s : BetaBudgetStore T) :
  (forall s0, closed (others s0) = true) ->
  (exists e, (reserve_request io reading token others bot upd user s).1 = Err e) /\
  (reserve_model_call io reading others bot upd user cap s).1 <> Ok true.
Proof.
  intros Hclose. split.
  - unfold reserve_request. unfold_py. destruct (validate_key bot upd user) as [[]|e]; [|by eexists].
    destruct (closed s); [by eexists|]. unfold to_thread.
    destruct (reserve_request_sync _ _ _ _ _ _ _) as [[r|e] l']; [|by eexists].
    rewrite Hclose. by eexists.
  - unfold reserve_model_call. unfold_py. destruct (validate_key bot upd user) as [[]|e]; [|done].
    destruct (owns bot upd user cap s); [|done]. cbn [negb]. unfold to_thread.
    destruct (reserve_model_call_sync _ _ _ _ _ _ _) as [[r|e] l']; [|done].
    destruct (owns bot upd user cap (others (set_ledger l' s))) eqn:Hown; [|by rewrite andb_false_r].
    apply owns_spec in Hown as [Hc _]. by rewrite Hclose in Hc.
Qed.
End Facts.

(** ** Sample runs *)

Definition small_limits : BudgetLimits := mk_BudgetLimits 1 2 1 2 1.

Definition sample_ops : list (quota_op Z) :=
  [ReserveRequest true (Some 1000%Z) 7 42; MarkRunning true (Some 1001%Z) 7 42;
   ReserveModelCall true (Some 1002%Z) 7 42; ReserveModelCall true (Some 1003%Z) 7 42;
   FinishRequest true (Some 1004%Z) 7 42 true; ReserveRequest true (Some 1005%Z) 8 42;
   ReserveRequest true (Some 900%Z) 9 42; ReserveRequest true (Some 300000%Z) 7 42].

Example sample_log :
  (quota_run small_limits "bot" sample_ops).2 =
  [Granted 7 42 300000; Called 7 42 1002; Granted 7 42 1000]%Z.
Proof. vm_compute. reflexivity. Qed.

(** Two bots on one ledger, the clock going back a little between them *)
Definition shared_ops : list (string * quota_op Z) :=
  map (pair "bot"%string) (take 5 sample_ops) ++
  [("other", ReserveRequest true (Some 2000%Z) 1 5); ("bot", ReserveRequest true (Some 1500%Z) 8 42);
   ("other", ReserveRequest true (Some 2100%Z) 2 6); ("bot", ReserveRequest true (Some 300000%Z) 7 42)]%string.

Lemma shared_within_a_day : within_a_day "bot" shared_ops.
Proof.
  intros pre post op Hops n t Hn Ht.
  assert (Forall (fun m => (m <= 2100)%Z) (others_readings "bot" shared_ops)) as Hle by (vm_compute; repeat constructor; done).
  assert (Forall (fun x => forall t, op_reading x.2 = Some t -> (1000 <= t)%Z) shared_ops) as Hge
    by (repeat constructor; intros u [= <-]; done).
  rewrite Hops in Hle, Hge. unfold others_readings in Hle. rewrite omap_app in Hle.
  apply Forall_app in Hle as [Hle _]. pose proof (proj1 (Forall_forall _ _) Hle n Hn).
  apply Forall_app in Hge as [_ [Hge _]%Forall_cons]. specialize (Hge t Ht).
  unfold t_le. apply negb_true_iff, Z.ltb_ge. cbn in *. unfold RETENTION_SECONDS, DAY_SECONDS. lia.
Defined.

Lemma quotas_never_exceeded_witness :
  let log := bot_log "bot" (ledger_run small_limits shared_ops).2 in
  within_a_day "bot" shared_ops /\ log = [Granted 7 42 300000; Called 7 42 1002; Granted 7 42 1000]%Z /\
  count (in_window is_grant 42 HOUR_SECONDS 1500%Z) log <= Z.to_nat (requests_per_hour small_limits).
Proof.
  split; [exact shared_within_a_day|]. split; [vm_compute; reflexivity|].
  exact (proj1 (quotas_never_exceeded small_limits "bot" shared_ops 42 1500%Z 7 shared_within_a_day)).
Defined.

Lemma update_granted_once_witness : t_lt (1000 : Z)%Z (t_sub (300000 : Z)%Z RETENTION_SECONDS) = true.
Proof.
  apply (update_granted_once small_limits "bot" sample_ops [] [Called 7 42 1002; Granted 7 42 1000]%Z
           7 42 300000 42 1000)%Z.
  - vm_compute. reflexivity.
  - by right; left.
Defined.

Definition running_store : BetaBudgetStore Z :=
  mk_Store (quota_run small_limits "bot" (take 2 sample_ops)).1 small_limits false
    {[ (("bot", 7%Z), 42%Z) := "token" ]}.

Lemma model_call_needs_owner_witness :
  exists s', reserve_model_call true (Some 1002%Z) id "bot" 7 42 (Some "token") running_store = (Ok true, s') /\
  closed s' = false.
Proof.
  eexists. split; [vm_compute; reflexivity|].
  refine (proj1 (proj2 (model_call_needs_owner true (Some 1002%Z) id "bot" 7 42 (Some "token") running_store _ _))).
  vm_compute. reflexivity.
Defined.

Lemma close_ends_grants_witness :
  (exists e, (reserve_request true (Some 1002%Z) "t" close_store "bot" 7 42 running_store).1 = Err e) /\
  (reserve_model_call true (Some 1002%Z) close_store "bot" 7 42 (Some "token") running_store).1 <> Ok true.
Proof. by apply (close_ends_grants true (Some 1002%Z) "t" close_store). Defined.

(** [_prune_txn] deletes the rows of every bot with the clock of the caller's
    own bot, which alone is guarded against going backwards: a later reading
    under another bot empties this bot's windows, and one under this bot then
    grants a second request within the hour that the limit refuses without it. *)
Lemma prune_crosses_bots :
  let finished_one := (quota_run small_limits "bot" (take 5 sample_ops)).1 in
  let other := (reserve_request_sync small_limits true (Some 300000%Z) "other" 1 5 finished_one).2 in
  (reserve_request_sync small_limits true (Some 1005%Z) "bot" 8 42 finished_one).1 = Ok denied /\
  (reserve_request_sync small_limits true (Some 1005%Z) "bot" 8 42 other).1 =
    Ok (mk_Reservation true false (Row RESERVED) None).
Proof. vm_compute. split; reflexivity. Qed.
