(* ===== verification/RateLimit.v ===== *)
(** * The in-process request limiter

    [src/agency/telegram/rate_limit.py].  [hits] is the insertion-ordered dict
    of deques, oldest stamp first.  A duration is an instant's distance, a float
    of the code: [minus] is the subtraction [now - self._window_seconds]. *)
From S2P Require Import Prelude PyDict.

Section Limiter.
Context {T : Type} `{Clock T} (minus : T -> T -> T).

(** [BetaRateLimiter] *)
Record limiter := mk_limiter {
  max_requests : Z;
  window_seconds : T;
  max_users : Z;
  hits : list (Z * list T);
  last_seen : option T;
}.

Definition set_hits (h : list (Z * list T)) (s : limiter) : limiter :=
  mk_limiter (max_requests s) (window_seconds s) (max_users s) h (last_seen s).
Definition set_last (t : option T) (s : limiter) : limiter :=
  mk_limiter (max_requests s) (window_seconds s) (max_users s) (hits s) t.

(** [__init__] on arguments of the annotated types; [positive] is [0 < window]. *)
Definition new_limiter (positive : T -> bool) (requests : Z) (window : T) (users : Z) : result limiter :=
  _ ← raise_if (requests <=? 0)%Z ValueError;
  _ ← raise_if (negb (t_finite window) || negb (positive window)) ValueError;
  _ ← raise_if (users <=? 0)%Z ValueError;
  Ok (mk_limiter requests window users [] None).

(** [deque(items, maxlen=n)] keeps the last [n]. *)
Definition deque_of (n : Z) (items : list T) : list T := drop (length items - Z.to_nat n) items.
Definition deque_append (n : Z) (items : list T) (t : T) : list T := deque_of n (items ++ [t]).

Definition live_stamps (s : limiter) (now : T) (stamps : list T) : list T :=
  deque_of (max_requests s)
    (List.filter (fun t => t_lt (minus now (window_seconds s)) t && t_le t now) stamps).

(** One turn of the loop of [_evict_expired]. *)
Definition evict_user (s : limiter) (now : T) (h : list (Z * list T)) (entry : Z * list T) : list (Z * list T) :=
  match live_stamps s now entry.2 with
  | [] => ddel entry.1 h
  | live => dset entry.1 live h
  end.

(** [_evict_expired] *)
Definition evict_expired (now : T) (s : limiter) : limiter :=
  set_hits (foldl (evict_user s now) (hits s) (hits s)) s.

(** The clamped instant [allow] works at. *)
Definition moment_of (last : option T) (reading : T) : T :=
  match last with
  | Some l => if t_lt reading l then l else reading
  | None => reading
  end.

(** [allow]; [reading] is [None] when the clock returned no number. *)
Definition allow (user_id : Z) (reading : option T) (s : limiter) : bool * limiter :=
  if (user_id <=? 0)%Z then (false, s) else
  match reading with
  | None => (false, s)
  | Some raw =>
      if negb (t_finite raw) then (false, s) else
      let moment := moment_of (last_seen s) raw in
      let s1 := evict_expired moment (set_last (Some moment) s) in
      match dget user_id (hits s1) with
      | Some stamps =>
          if (max_requests s1 <=? Z.of_nat (length stamps))%Z
          then (false, set_hits (dset user_id stamps (ddel user_id (hits s1))) s1)
          else (true, set_hits (dset user_id (deque_append (max_requests s1) stamps moment)
                                  (ddel user_id (hits s1))) s1)
      | None =>
          if (max_users s1 <=? Z.of_nat (length (hits s1)))%Z then (false, s1)
          else (true, set_hits (dset user_id [moment] (hits s1)) s1)
      end
  end.

(** A run: the calls of [allow] in order, with the log of what was allowed
    (newest first), each at the limiter's instant. *)
Definition allow_step (st : limiter * list (Z * T)) (call : Z * option T) : limiter * list (Z * T) :=
  let '(s, log) := st in
  let '(ok, s') := allow call.1 call.2 s in
  (s', match ok, last_seen s' with true, Some t => (call.1, t) :: log | _, _ => log end).

Definition allow_run (s : limiter) (calls : list (Z * option T)) : limiter * list (Z * T) :=
  foldl allow_step (s, []) calls.

Definition in_span (user : Z) (lo hi : T) (e : Z * T) : bool :=
  bool_decide (e.1 = user) && t_lt lo e.2 && t_le e.2 hi.
End Limiter.

Arguments limiter : clear implicits.

Section Facts.
Context {T : Type} `{ClockLaws T} (minus : T -> T -> T).
Hypothesis minus_mono : forall a b w, t_le a b = true -> t_le (minus a w) (minus b w) = true.
Implicit Types (s : limiter T) (now t : T) (log : list (Z * T)).

Definition live (s : limiter T) (now t : T) : bool := t_lt (minus now (window_seconds s)) t && t_le t now.

Definition stamps_of (user : Z) (s : limiter T) : list T := default [] (dget user (hits s)).

(** What the deques and the log agree on. *)
Record limiter_ok (s : limiter T) (log : list (Z * T)) : Prop := {
  lo_positive : (0 < max_requests s)%Z;
  lo_keys : NoDup (dkeys (hits s));
  lo_users : length (hits s) <= Z.to_nat (max_users s);
  lo_budget : forall user, length (stamps_of user s) <= Z.to_nat (max_requests s);
  lo_past : forall user t, t ∈ stamps_of user s -> exists last, last_seen s = Some last /\ t_le t last = true;
  lo_window : forall user now,
    (forall last, last_seen s = Some last -> t_le last now = true) ->
    count (in_span user (minus now (window_seconds s)) now) log = count (live s now) (stamps_of user s);
}.

Lemma deque_of_short n (l : list T) : length l <= Z.to_nat n -> deque_of n l = l.
Proof. intros Hl. unfold deque_of. replace (length l - Z.to_nat n) with 0 by lia. done. Qed.

Lemma live_stamps_short s now l :
  length l <= Z.to_nat (max_requests s) -> live_stamps minus s now l = List.filter (live s now) l.
Proof.
  intros Hl. apply deque_of_short.
  pose proof (count_length (live s now) l) as Hc. unfold count in Hc. lia.
Qed.

(** [_evict_expired], user by user. *)
Lemma evict_fold s now user (todo h : list (Z * list T)) :
  NoDup (dkeys todo) ->
  dget user (foldl (evict_user minus s now) h todo) =
  match dget user todo with
  | Some l => match live_stamps minus s now l with [] => None | l' => Some l' end
  | None => dget user h
  end.
Proof.
  revert h. induction todo as [|[k l] todo IH]; intros h; [done|]. cbn [foldl dkeys map dget].
  rewrite NoDup_cons. intros [Hk%dget_None_keys Hnd]. cbn [fst] in Hk. rewrite IH by done.
  destruct (decide (user = k)) as [->|Hne].
  - rewrite Hk. unfold evict_user. cbn [fst snd].
    destruct (live_stamps minus s now l); autorewrite with py; done.
  - destruct (dget user todo); [done|]. unfold evict_user. cbn [fst snd].
    destruct (live_stamps minus s now l); [by apply dget_ddel_ne|by apply dget_dset_ne].
Qed.

Lemma evict_fold_keys s now (todo h : list (Z * list T)) :
  NoDup (dkeys h) -> (forall k, k ∈ dkeys todo -> k ∈ dkeys h) -> NoDup (dkeys todo) ->
  NoDup (dkeys (foldl (evict_user minus s now) h todo)) /\
  length (foldl (evict_user minus s now) h todo) <= length h.
Proof.
  revert h. induction todo as [|[k l] todo IH]; intros h Hh Hsub; [done|]. cbn [foldl dkeys map].
  rewrite NoDup_cons. intros [Hk Hnd].
  assert (exists v, dget k h = Some v) as [v Hv] by (apply dget_is_Some_keys, Hsub; by left).
  assert (NoDup (dkeys (evict_user minus s now h (k, l))) /\
          (forall k', k' ∈ dkeys todo -> k' ∈ dkeys (evict_user minus s now h (k, l))) /\
          length (evict_user minus s now h (k, l)) <= length h) as (H1 & H2 & H3).
  { unfold evict_user. cbn [fst snd]. destruct (live_stamps minus s now l).
    - split; [by apply NoDup_dkeys_ddel|]. split.
      + intros k' Hk'. apply elem_of_dkeys_ddel. split; [by intros ->|]. apply Hsub. by right.
      + pose proof (length_ddel_present _ _ _ Hh Hv). lia.
    - split; [by apply NoDup_dkeys_dset|]. split.
      + intros k' Hk'. apply elem_of_dkeys_dset. right. apply Hsub. by right.
      + rewrite length_dset. unfold dmem. by rewrite Hv. }
  destruct (IH _ H1 H2 Hnd) as [? ?]. split; [done|lia].
Qed.

Lemma stamps_of_evict s now user :
  NoDup (dkeys (hits s)) -> length (stamps_of user s) <= Z.to_nat (max_requests s) ->
  stamps_of user (evict_expired minus now s) = List.filter (live s now) (stamps_of user s).
Proof.
  intros Hnd Hb. unfold stamps_of in *. cbn. rewrite evict_fold by done.
  destruct (dget user (hits s)) as [l|]; [|done]. cbn in *. rewrite live_stamps_short by done.
  by destruct (List.filter _ l).
Qed.

Lemma elem_of_stamps_evict s now user t :
  t ∈ List.filter (live s now) (stamps_of user s) -> t_le t now = true.
Proof. rewrite elem_of_filter_bool. unfold live. intros [? _]. by breflect. Qed.

(** Evicting at a later instant loses nothing a later window counts. *)
Lemma live_later s moment now (l : list T) :
  t_le moment now = true -> (forall t, t ∈ l -> t_le t moment = true) ->
  count (live s now) (List.filter (live s moment) l) = count (live s now) l.
Proof.
  intros Hle Hpast. rewrite count_filter. apply count_ext. intros t Ht.
  destruct (live s now t) eqn:Hl; [|apply andb_false_r]. rewrite andb_true_r.
  unfold live in *. breflect. apply andb_true_iff. split; [|by apply Hpast].
  eapply t_le_lt_trans; [|done]. by apply minus_mono.
Qed.

Lemma moment_later (last : option T) reading l : last = Some l -> t_le l (moment_of last reading) = true.
Proof.
  intros ->. cbn. destruct (t_lt reading l) eqn:Hlt; [apply t_le_refl|by apply t_nlt_le].
Qed.

(** The eviction of [allow] keeps the invariant. *)
Lemma evict_ok s log raw :
  limiter_ok s log ->
  limiter_ok (evict_expired minus (moment_of (last_seen s) raw)
                (set_last (Some (moment_of (last_seen s) raw)) s)) log.
Proof.
  set (m := moment_of (last_seen s) raw). intros [H1 Hk Hu Hb Hp Hw].
  assert (forall user, stamps_of user (evict_expired minus m (set_last (Some m) s)) =
                       List.filter (live s m) (stamps_of user s)) as Hst
    by (intros user; apply (stamps_of_evict (set_last (Some m) s)); [done|apply Hb]).
  pose proof (evict_fold_keys (set_last (Some m) s) m (hits s) (hits s) Hk (fun _ H => H) Hk) as [Hk' Hl'].
  split; [done|done|cbn in *; lia| | |].
  - intros user. rewrite Hst. cbn. etransitivity; [apply List.filter_length_le|apply Hb].
  - intros user t. rewrite Hst. intros Ht%elem_of_stamps_evict. by exists m.
  - intros user now Hnow. specialize (Hnow m eq_refl). rewrite Hst.
    change (window_seconds _) with (window_seconds s).
    change (count (live _ now) ?l) with (count (live s now) l).
    rewrite live_later; [apply Hw| |].
    + intros last Hlast. eapply t_le_trans; [exact (moment_later _ raw _ Hlast)|exact Hnow].
    + done.
    + intros t Ht. destruct (Hp _ _ Ht) as (last & Hlast & Hle).
      eapply t_le_trans; [exact Hle|]. by apply moment_later.
Qed.

(** Re-inserting a user at the end of the dict. *)
Lemma stamps_of_touch user user' (l : list T) s :
  stamps_of user' (set_hits (dset user l (ddel user (hits s))) s) =
  if decide (user = user') then l else stamps_of user' s.
Proof.
  unfold stamps_of. cbn. rewrite dget_dset. case_decide; [done|]. by rewrite dget_ddel_ne.
Qed.

Lemma in_span_cons user lo hi user' t log :
  count (in_span user lo hi) ((user', t) :: log) =
  (if bool_decide (user' = user) && (t_lt lo t && t_le t hi) then 1 else 0) + count (in_span user lo hi) log.
Proof. rewrite count_cons. unfold in_span at 1. cbn. by rewrite andb_assoc. Qed.

(** One more stamp for a user, within the budget. *)
Lemma push_ok s log user moment h :
  last_seen s = Some moment -> NoDup (dkeys h) -> length h <= Z.to_nat (max_users s) ->
  (Z.of_nat (length (stamps_of user s)) < max_requests s)%Z ->
  (forall user', default [] (dget user' h) =
     if decide (user = user') then stamps_of user s ++ [moment] else stamps_of user' s) ->
  limiter_ok s log -> limiter_ok (set_hits h s) ((user, moment) :: log).
Proof.
  intros Hlast Hnd Hlen Hbudget Hget [H1 _ _ Hb Hp Hw].
  assert (forall user', stamps_of user' (set_hits h s) =
    if decide (user = user') then stamps_of user s ++ [moment] else stamps_of user' s) as Hst by done.
  split; [done|done|done| | |].
  - intros user'. rewrite Hst. case_decide; [|apply Hb]. rewrite length_app. cbn. lia.
  - intros user' t. rewrite Hst. cbn. case_decide; [|apply Hp].
    intros [Hin| ->%list_elem_of_singleton]%elem_of_app; [by eapply Hp|].
    exists moment. split; [done|apply t_le_refl].
  - intros user' now Hnow. rewrite Hst, in_span_cons. cbn [set_hits window_seconds].
    specialize (Hw user' now Hnow). cbn [set_hits last_seen] in *.
    change (live (set_hits h s) now) with (live s now).
    case_decide as Hd; [subst user'|].
    + rewrite bool_decide_true by done. rewrite Hw, count_app. cbn [andb].
      change (count (live s now) [moment]) with (length (if live s now moment then [moment] else [])).
      fold (live s now moment). destruct (live s now moment); cbn; lia.
    + rewrite bool_decide_false by done. done.
Qed.

Lemma allow_step_ok s log call :
  limiter_ok s log -> limiter_ok (allow_step minus (s, log) call).1 (allow_step minus (s, log) call).2.
Proof.
  destruct call as [user reading]. intros Hok. unfold allow_step, allow. cbn [fst snd].
  destruct (user <=? 0)%Z; [done|]. destruct reading as [raw|]; [|done].
  destruct (negb (t_finite raw)); [done|]. cbv zeta.
  set (m := moment_of (last_seen s) raw). pose proof (evict_ok s log raw Hok) as Hev. fold m in Hev.
  set (s1 := evict_expired minus m (set_last (Some m) s)) in *.
  assert (last_seen s1 = Some m) as Hm by done.
  pose proof Hev as [H1 Hk Hu Hb Hp Hw].
  destruct (dget user (hits s1)) as [l|] eqn:Hl.
  - assert (stamps_of user s1 = l) as Hst by by unfold stamps_of; rewrite Hl.
    assert (forall l', NoDup (dkeys (dset user l' (ddel user (hits s1)))) /\
              length (dset user l' (ddel user (hits s1))) <= Z.to_nat (max_users s1)) as Hd.
    { intros l'. split; [auto with py|]. rewrite length_dset. unfold dmem. rewrite dget_ddel_eq.
      by rewrite (length_ddel_present _ _ _ Hk Hl). }
    destruct (max_requests s1 <=? _)%Z eqn:Hfull; cbn [fst snd].
    + destruct (Hd l) as [Hd1 Hd2]. split; [done|done|done| | |]; intros user'; rewrite stamps_of_touch;
        rewrite <- Hst; destruct (decide (user = user')) as [<-|_]; first [by apply Hb|by apply Hp|by apply Hw].
    + cbn [last_seen set_hits]. rewrite Hm. cbn [fst snd].
      destruct (Hd (deque_append (max_requests s1) l m)) as [Hd1 Hd2]. apply Z.leb_gt in Hfull.
      apply push_ok; try done; [by rewrite Hst|]. intros user'. rewrite dget_dset, Hst.
      case_decide as Hne; [|by rewrite dget_ddel_ne]. apply deque_of_short.
      rewrite length_app. change (length [m]) with 1. lia.
  - assert (stamps_of user s1 = []) as Hst by by unfold stamps_of; rewrite Hl.
    destruct (max_users s1 <=? _)%Z eqn:Hfull; [done|]. cbn [fst snd last_seen set_hits]. rewrite Hm.
    apply Z.leb_gt in Hfull. apply push_ok; try done; [by auto with py| | |].
    + rewrite length_dset. unfold dmem. rewrite Hl. lia.
    + rewrite Hst. done.
    + intros user'. rewrite dget_dset, Hst. by case_decide.
Qed.

Lemma allow_run_ok s calls :
  limiter_ok s [] -> limiter_ok (allow_run minus s calls).1 (allow_run minus s calls).2.
Proof.
  unfold allow_run. generalize (@nil (Z * T)). revert s.
  induction calls as [|call calls IH]; intros s log Hok; [done|]. cbn [foldl].
  pose proof (allow_step_ok s log call Hok) as Hok'.
  destruct (allow_step minus (s, log) call) as [s' log']. by apply IH.
Qed.

(** The limits never change. *)
Lemma allow_step_limits s log call :
  max_requests (allow_step minus (s, log) call).1 = max_requests s /\
  max_users (allow_step minus (s, log) call).1 = max_users s /\
  window_seconds (allow_step minus (s, log) call).1 = window_seconds s.
Proof.
  unfold allow_step, allow. repeat (case_match; cbn in *; simplify_eq; try done).
Qed.

(** The log grows by at most one call, at the limiter's instant, which only
    moves forward. *)
Lemma allow_step_log s log call :
  let st := allow_step minus (s, log) call in
  (st.2 = log \/ exists m, last_seen st.1 = Some m /\ st.2 = (call.1, m) :: log) /\
  (forall l, last_seen s = Some l -> exists l', last_seen st.1 = Some l' /\ t_le l l' = true).
Proof.
  destruct call as [user reading]. cbv zeta. unfold allow_step. cbn [fst snd].
  assert (forall l, last_seen s = Some l ->
    exists l', last_seen (allow minus user reading s).2 = Some l' /\ t_le l l' = true) as Hfwd.
  { intros l Hl. unfold allow. destruct (user <=? 0)%Z; [by eauto with py|].
    destruct reading as [raw|]; [|by eauto with py]. destruct (negb (t_finite raw)); [by eauto with py|].
    cbv zeta. exists (moment_of (last_seen s) raw). split; [|by apply moment_later].
    repeat (case_match; try done). }
  destruct (allow minus user reading s) as [ok s']. cbn [fst snd] in *. split; [|done].
  destruct ok; [|by left]. destruct (last_seen s') as [m|] eqn:Hm; [|by left]. right. by exists m.
Qed.

Record run_ok (s : limiter T) (log : list (Z * T)) : Prop := {
  ro_ok : limiter_ok s log;
  ro_past : forall user t, (user, t) ∈ log -> exists last, last_seen s = Some last /\ t_le t last = true;
  ro_bound : forall user t,
    count (in_span user (minus t (window_seconds s)) t) log <= Z.to_nat (max_requests s);
}.

Lemma allow_step_run_ok s log call :
  run_ok s log -> run_ok (allow_step minus (s, log) call).1 (allow_step minus (s, log) call).2.
Proof.
  intros [Hok Hpast Hbound]. pose proof (allow_step_ok s log call Hok) as Hok'.
  pose proof (allow_step_log s log call) as [Hlog Hfwd].
  pose proof (allow_step_limits s log call) as (Hmax & _ & Hwin).
  destruct (allow_step minus (s, log) call) as [s' log']. cbn [fst snd] in *.
  assert (forall user t, (user, t) ∈ log' -> exists last, last_seen s' = Some last /\ t_le t last = true)
    as Hpast'.
  { intros user t Hin. destruct Hlog as [->|(m & Hm & ->)].
    - destruct (Hpast _ _ Hin) as (l & Hl & Hle). destruct (Hfwd l Hl) as (l' & ? & ?).
      exists l'. split; [done|]. by eapply t_le_trans.
    - apply elem_of_cons in Hin as [[= -> ->]|Hin]; [exists m; eauto with py|].
      destruct (Hpast _ _ Hin) as (l & Hl & Hle). destruct (Hfwd l Hl) as (l' & Hl' & ?).
      exists l'. split; [done|]. by eapply t_le_trans. }
  split; [done|done|]. intros user t. rewrite Hmax, Hwin.
  destruct Hlog as [->|(m & Hm & ->)]; [done|]. rewrite count_cons.
  destruct (in_span user _ t (call.1, m)) eqn:He; [|apply Hbound].
  unfold in_span in He. cbn in He. apply andb_true_iff in He as [He Hhi].
  apply andb_true_iff in He as [<-%bool_decide_eq_true Hlo].
  rewrite <- Hmax. etransitivity; [|apply (lo_budget _ _ Hok' call.1)].
  etransitivity; [|apply (count_length (live s' m))].
  rewrite <- (lo_window _ _ Hok') by (intros ?; rewrite Hm; intros [= ->]; apply t_le_refl).
  rewrite Hwin. change (1 + ?n) with (S n).
  transitivity (count (in_span call.1 (minus t (window_seconds s)) t) ((call.1, m) :: log)).
  { rewrite count_cons. unfold in_span at 2. cbn [fst snd]. by rewrite bool_decide_true, Hlo, Hhi by done. }
  apply count_le. intros [u t'] Hin Hx. destruct (Hpast' _ _ Hin) as (l & Hl & Hle).
  rewrite Hm in Hl. injection Hl as <-.
  unfold in_span in *. cbn in *. breflect. repeat (apply andb_true_iff; split); [|by eapply t_le_lt_trans; [apply minus_mono|]|done].
  by apply bool_decide_eq_true.
Qed.

Lemma new_limiter_ok positive n w u s :
  new_limiter positive n w u = Ok s ->
  run_ok s [] /\ max_requests s = n /\ window_seconds s = w /\ max_users s = u.
Proof.
  unfold new_limiter, mbind, result_bind, raise_if.
  destruct (Z.leb_spec n 0); [done|]. destruct (_ || _); [done|]. destruct (Z.leb_spec u 0); [done|].
  intros [= <-]. split; [|done]. split; [|by intros ? ? ?%elem_of_nil|intros; cbn; lia].
  split; cbn; [lia|constructor|lia|cbn; lia|by intros ? ? ?%elem_of_nil|done].
Qed.

Lemma allow_run_run_ok calls s log :
  run_ok s log -> run_ok (foldl (allow_step minus) (s, log) calls).1 (foldl (allow_step minus) (s, log) calls).2 /\
  max_requests (foldl (allow_step minus) (s, log) calls).1 = max_requests s /\
  max_users (foldl (allow_step minus) (s, log) calls).1 = max_users s /\
  window_seconds (foldl (allow_step minus) (s, log) calls).1 = window_seconds s.
Proof.
  revert s log. induction calls as [|call calls IH]; intros s log Hok; [done|]. cbn [foldl].
  pose proof (allow_step_run_ok s log call Hok) as Hok'.
  pose proof (allow_step_limits s log call) as (Hm & Hu & Hw).
  destruct (allow_step minus (s, log) call) as [s' log']. cbn [fst snd] in *.
  rewrite <- Hm, <- Hu, <- Hw. by apply IH.
Qed.

(** The sliding window of a fresh limiter is never overrun, whatever the
    readings of its clock (backwards, non-finite, none): in any window of
    [window_seconds] a user is allowed at most [max_requests] times, and no
    more than [max_users] users are ever tracked. *)
Theorem limiter_window positive n w u s calls user t :
  new_limiter positive n w u = Ok s ->
  let '(s', log) := allow_run minus s calls in
  count (in_span user (minus t w) t) log <= Z.to_nat n /\ length (hits s') <= Z.to_nat u.
Proof using minus_mono H0.
  intros (Hok & <- & <- & <-)%new_limiter_ok.
  destruct (allow_run_run_ok calls s [] Hok) as ([Hl _ Hb] & Hm & Hu & Hw). unfold allow_run.
  destruct (foldl _ _ _) as [s' log]. cbn [fst snd] in *. rewrite <- Hm, <- Hu, <- Hw.
  split; [apply Hb|by apply lo_users in Hl].
Qed.

(** An invalid identity, or a clock that returns no finite number, is
    refused without touching the limiter. *)
Theorem allow_invalid_keeps_state user reading s :
  (user <= 0)%Z \/ match reading with None => True | Some t => t_finite t = false end ->
  allow minus user reading s = (false, s).
Proof.
  unfold allow. intros [Hu|Hr]; [by rewrite (proj2 (Z.leb_le _ _) Hu)|].
  destruct (user <=? 0)%Z; [done|]. destruct reading as [t|]; [|done]. by rewrite Hr.
Qed.

(** The limiter is not stricter than its window: with no eviction left to
    do, a known user is allowed exactly when he has been allowed fewer than
    [max_requests] times in the window that ends now. *)
Theorem allow_decides s log user raw :
  limiter_ok s log -> (0 < user)%Z -> t_finite raw = true ->
  let m := moment_of (last_seen s) raw in
  let used := count (in_span user (minus m (window_seconds s)) m) log in
  used <> 0 ->
  ((allow minus user (Some raw) s).1 = true <-> (Z.of_nat used < max_requests s)%Z).
Proof using minus_mono H0.
  intros Hok Hu Hf m used Hused. pose proof (evict_ok s log raw Hok) as Hev. fold m in Hev.
  assert (used = length (stamps_of user (evict_expired minus m (set_last (Some m) s)))) as Hlen.
  { unfold used. rewrite (lo_window _ _ Hok user m) by (intros l Hl; by apply moment_later).
    rewrite stamps_of_evict; [done|apply (lo_keys _ _ Hok)|apply (lo_budget _ _ Hok user)]. }
  unfold allow. rewrite (proj2 (Z.leb_gt _ _) Hu), Hf. cbn [negb]. cbv zeta. fold m.
  rewrite Hlen in Hused |- *. unfold stamps_of in *.
  destruct (dget user (hits (evict_expired minus m _))) as [l|]; [|done]. cbn [default] in *.
  change (max_requests (evict_expired minus m _)) with (max_requests s).
  destruct (Z.leb_spec (max_requests s) (Z.of_nat (length l))); cbn in *;
    (split; [try done; intros _; lia|try done; lia]).
Qed.
End Facts.

(** ** Sample run *)

Lemma sub_mono_Z : forall a b w : Z, t_le a b = true -> t_le (a - w)%Z (b - w)%Z = true.
Proof. unfold t_le. cbn. lia. Qed.

Definition sample_limiter : limiter Z := mk_limiter 2 60%Z 3 [] None.

(** The clock steps back to 40 and stops; the limiter stays at 61. *)
Definition sample_calls : list (Z * option Z) :=
  [(5, Some 1); (5, Some 2); (5, Some 3); (0, Some 4); (5, Some 61); (5, Some 40); (6, None)]%Z.

Example sample_allowed : (allow_run Z.sub sample_limiter sample_calls).2 = [(5, 61); (5, 2); (5, 1)]%Z.
Proof. vm_compute. reflexivity. Qed.

Lemma limiter_window_witness :
  count (in_span 5 0 60)%Z (allow_run Z.sub sample_limiter sample_calls).2 <= 2 /\
  length (hits (allow_run Z.sub sample_limiter sample_calls).1) <= 3.
Proof.
  apply (limiter_window Z.sub sub_mono_Z (fun w => (0 <? w)%Z) 2 60%Z 3 sample_limiter sample_calls 5 60%Z).
  reflexivity.
Defined.

Lemma allow_invalid_keeps_state_witness : allow Z.sub 0 (Some 4%Z) sample_limiter = (false, sample_limiter).
Proof. apply (allow_invalid_keeps_state Z.sub 0). left. lia. Defined.

Lemma allow_decides_witness :
  (allow Z.sub 5 (Some 61%Z) (allow_run Z.sub sample_limiter (take 2 sample_calls)).1).1 = true.
Proof.
  refine (proj2 (allow_decides Z.sub sub_mono_Z (allow_run Z.sub sample_limiter (take 2 sample_calls)).1
           (allow_run Z.sub sample_limiter (take 2 sample_calls)).2 5 61%Z _ _ _ _) _).
  - apply (allow_run_ok Z.sub sub_mono_Z). split; cbn; try done; try lia; [constructor|].
    intros user t Ht. by apply elem_of_nil in Ht.
  - done.
  - done.
  - vm_compute. done.
  - vm_compute. done.
Defined.
