(* ===== verification/AuditTrail.v ===== *)
(** * The audit log

    [src/agency/kernel/audit.py].  The SQLite table is the list of its rows in
    insertion order, committed one statement at a time.  [scan] is the order in
    which SQLite visits the rows of a query that sorts by [timestamp] only, and
    so the order of rows with equal timestamps.  The JSON columns hold the
    values [json.loads] reads back ([PyJson.canon]).  [Connection] is what the
    three PRAGMAs of [_verify_beta_connection] return. *)
From S2P Require Import Prelude PyStr PyDict Identity PyJson.

(** ** ISO-8601 timestamps *)

(** The fields of a [datetime]; [utcoffset] in minutes, [None] when naive. *)
Record stamp := mk_stamp {
  year : nat; month : nat; day : nat; hour : nat; minute : nat; second : nat; microsecond : nat;
  utcoffset : option Z;
}.

#[export] Instance stamp_eq_dec : EqDecision stamp.
Proof. solve_decision. Defined.

Definition digit (n : nat) : ascii := ascii_of_nat (48 + n).

(** [f"{n:0{w}d}"] for [n < 10 ** w]. *)
Fixpoint pad (w n : nat) : chars :=
  match w with
  | 0 => []
  | S w' => digit (n / 10 ^ w') :: pad w' (n mod 10 ^ w')
  end.

Definition iso_offset (minutes : Z) : chars :=
  (if (minutes <? 0)%Z then "-"%char else "+"%char) ::
  pad 2 (Z.to_nat (Z.abs minutes / 60)) ++ [":"%char] ++ pad 2 (Z.to_nat (Z.abs minutes mod 60)).

(** [.ffffff], left out when zero. *)
Definition fraction (us : nat) : chars := if us =? 0 then [] else "."%char :: pad 6 us.

(** [datetime.isoformat()] *)
Definition isoformat (d : stamp) : string :=
  of_chars (pad 4 (year d) ++ ["-"%char] ++ pad 2 (month d) ++ ["-"%char] ++ pad 2 (day d) ++
            ["T"%char] ++ pad 2 (hour d) ++ [":"%char] ++ pad 2 (minute d) ++ [":"%char] ++
            pad 2 (second d) ++
            fraction (microsecond d) ++
            (match utcoffset d with None => [] | Some m => iso_offset m end)).

(** [d.replace(tzinfo=UTC)] of a naive timestamp. *)
Definition as_utc (d : stamp) : stamp :=
  match utcoffset d with
  | None => mk_stamp (year d) (month d) (day d) (hour d) (minute d) (second d) (microsecond d) (Some 0%Z)
  | Some _ => d
  end.

(** ** Entries *)

Inductive audit_action := AClass (a : ActionClass) | AText (s : string).

#[export] Instance audit_action_eq_dec : EqDecision audit_action.
Proof. solve_decision. Defined.

Record AuditEntry := mk_AuditEntry {
  entry_id : string;
  timestamp : stamp;
  agent : option string;
  task : option string;
  target : option string;
  authorization : option string;
  capability : option string;
  action : option audit_action;
  result_ : string;
  evidence : option (list (string * json));
  model : option string;
  model_version : option string;
  tool_version : option string;
  environment : option (list (string * json));
}.

(** [as_ts] *)
Definition as_ts (e : AuditEntry) : string := isoformat (as_utc (timestamp e)).

(** [_enum_value] *)
Definition enum_value (a : audit_action) : string :=
  match a with AClass c => action_value c | AText s => s end.

Definition all_classes : list ActionClass :=
  [L0_OBSERVATION; L1_SAFE_ANALYSIS; L2_CONTROLLED_TESTING; L3_HIGH_IMPACT; L4_PRODUCTION; L5_DESTRUCTIVE].

(** [_parse_action] *)
Definition parse_action (s : string) : audit_action :=
  match List.find (fun c => String.eqb (action_value c) s) all_classes with
  | Some c => AClass c
  | None => AText s
  end.

(** One row of the table; [r_time] is the value [fromisoformat] reads back from
    the text in [r_timestamp]. *)
Record Row := mk_Row {
  r_entry_id : string;
  r_timestamp : string;
  r_time : stamp;
  r_agent : option string;
  r_task : option string;
  r_target : option string;
  r_authorization : option string;
  r_capability : option string;
  r_action : option string;
  r_result : string;
  r_evidence : option json;
  r_model : option string;
  r_model_version : option string;
  r_tool_version : option string;
  r_environment : option json;
}.

#[export] Instance Row_eq_dec : EqDecision Row.
Proof. solve_decision. Defined.

(** [_json]: serialised with sorted keys. *)
Definition json_column (d : option (list (string * json))) : option json := (fun d => canon (JObj d)) <$> d.

(** [_unjson], for the columns [_json] wrote. *)
Definition unjson (v : option json) : option (list (string * json)) :=
  match v with Some (JObj d) => Some d | _ => None end.

(** The parameters of the INSERT. *)
Definition row_of (e : AuditEntry) : Row :=
  mk_Row (entry_id e) (as_ts e) (as_utc (timestamp e)) (agent e) (task e) (target e) (authorization e)
    (capability e) (enum_value <$> action e) (result_ e) (json_column (evidence e)) (model e)
    (model_version e) (tool_version e) (json_column (environment e)).

(** [_row_to_entry] *)
Definition row_to_entry (r : Row) : AuditEntry :=
  mk_AuditEntry (r_entry_id r) (r_time r) (r_agent r) (r_task r) (r_target r) (r_authorization r)
    (r_capability r) (parse_action <$> r_action r) (r_result r) (unjson (r_evidence r)) (r_model r)
    (r_model_version r) (r_tool_version r) (unjson (r_environment r)).

(** ** Filters *)

Record AuditFilter := mk_AuditFilter {
  f_agent : option string;
  f_task : option string;
  f_target : option string;
  f_action : option string;
  f_result : option string;
  f_since : option stamp;
  f_until : option stamp;
  f_limit : Z;
  f_offset : Z;
}.

Definition new_filter ag ta tg ac re si un (limit offset : Z) : result AuditFilter :=
  if ((limit <? 1) || (10000 <? limit) || (offset <? 0))%Z then Err ValueError
  else Ok (mk_AuditFilter ag ta tg ac re si un limit offset).

Definition default_filter : AuditFilter := mk_AuditFilter None None None None None None None 100 0.

(** [column = ?], where NULL equals nothing. *)
Definition sql_eq (column wanted : option string) : bool :=
  match wanted with
  | None => true
  | Some w => match column with Some c => String.eqb c w | None => false end
  end.

(** [_clauses]: the WHERE condition; instants compare as text. *)
Definition matches_filter (f : AuditFilter) (r : Row) : bool :=
  sql_eq (r_agent r) (f_agent f) && sql_eq (r_task r) (f_task f) && sql_eq (r_target r) (f_target f) &&
  sql_eq (r_action r) (f_action f) && sql_eq (Some (r_result r)) (f_result f) &&
  match f_since f with None => true | Some d => str_le (isoformat (as_utc d)) (r_timestamp r) end &&
  match f_until f with None => true | Some d => str_le (r_timestamp r) (isoformat (as_utc d)) end.

(** ** The log *)

(** [conn] tells whether [_conn] is open. *)
Record AuditLog := mk_AuditLog { conn : bool; rows : list Row }.

Definition set_rows (l : list Row) (s : AuditLog) : AuditLog := mk_AuditLog (conn s) l.

Definition initialize : py AuditLog unit := modify (fun s => mk_AuditLog true (rows s)).
Definition close : py AuditLog unit := modify (fun s => mk_AuditLog false (rows s)).

(** [_require_ready] *)
Definition require_ready : py AuditLog unit := ready ← gets conn; raise_when (negb ready) RuntimeError.

(** INSERT under the primary key. *)
Definition insert_row (e : AuditEntry) : py AuditLog unit :=
  l ← gets rows;
  _ ← raise_when (bool_decide (entry_id e ∈ map r_entry_id l)) IntegrityError;
  modify (fun s => set_rows (rows s ++ [row_of e]) s).

(** [append]: the collision of [entry_id] is a [ValueError]. *)
Definition append (e : AuditEntry) : py AuditLog string :=
  _ ← require_ready;
  _ ← catch (insert_row e)
        (fun exc => raise (if bool_decide (exc = IntegrityError) then ValueError else exc));
  mret (entry_id e).

Section Queries.
Context (scan : list Row -> list Row).

Definition newest_first (a b : Row) : bool := str_le (r_timestamp b) (r_timestamp a).

Definition select (f : AuditFilter) (l : list Row) : list Row :=
  take (Z.to_nat (f_limit f)) (drop (Z.to_nat (f_offset f))
    (sort_by newest_first (scan (List.filter (matches_filter f) l)))).

(** [query] *)
Definition query (filters : option AuditFilter) : py AuditLog (list AuditEntry) :=
  _ ← require_ready;
  gets (fun s => map row_to_entry (select (default default_filter filters) (rows s))).
End Queries.

(** [count] *)
Definition count_entries (filters : option AuditFilter) : py AuditLog Z :=
  _ ← require_ready;
  gets (fun s => Z.of_nat (count (matches_filter (default default_filter filters)) (rows s))).

(** ** The beta log *)

(** [__init__]: a concrete disk path. *)
Definition new_beta_log (db_path : string) : result unit :=
  raise_if (String.eqb (py_strip db_path) "" || String.eqb db_path ":memory:" ||
            py_startswith (py_lower db_path) "file:") ValueError.

(** [json_extract(evidence, '$.key')]: a SQL scalar; NULL, an absent key and a
    JSON null are [None]; a boolean is an integer; an array or object is text. *)
Inductive sql_value := SInt (z : Z) | SText (s : string) | SReal (repr : string) | SJson (v : json).

#[export] Instance sql_value_eq_dec : EqDecision sql_value.
Proof. solve_decision. Defined.

Definition sql_of (v : json) : option sql_value :=
  match v with
  | JNull | JOther _ => None
  | JBool b => Some (SInt (if b then 1 else 0))
  | JInt z => Some (SInt z)
  | JFloat r => Some (SReal r)
  | JStr s => Some (SText s)
  | JList _ | JObj _ => Some (SJson v)
  end.

Definition json_extract (key : string) (v : option json) : option sql_value :=
  match v with
  | Some d => match jget key d with Some x => sql_of x | None => None end
  | None => None
  end.

Definition has_phase (p : string) (r : Row) : bool :=
  bool_decide (json_extract "phase" (r_evidence r) = Some (SText p)).

Definition call_id (r : Row) : option sql_value := json_extract "call_id" (r_evidence r).

Definition is_intent (r : Row) : bool := String.eqb (r_result r) "pending" && has_phase "intent" r.

(** [outcome.call_id = intent.call_id], false when either is NULL. *)
Definition resolves (intent outcome : Row) : bool :=
  has_phase "outcome" outcome &&
  match call_id outcome, call_id intent with
  | Some a, Some b => bool_decide (a = b)
  | _, _ => false
  end.

(** The rows [_PENDING_BETA_CALL] finds. *)
Definition pending_calls (l : list Row) : list Row :=
  List.filter (fun r => is_intent r && negb (existsb (resolves r) l)) l.

Record Connection := mk_Connection {
  journal_mode : string;
  synchronous : Z;
  database_list : list (string * string); (* name and file of each database *)
}.

(** [_verify_beta_connection] *)
Definition verify_beta_connection (c : Connection) : py AuditLog unit :=
  _ ← raise_when (negb (String.eqb (journal_mode c) "wal")) RuntimeError;
  _ ← raise_when (negb (synchronous c =? 2)%Z) RuntimeError;
  raise_when (negb (existsb (fun d => String.eqb d.1 "main" && negb (String.eqb d.2 "")) (database_list c)))
    RuntimeError.

(** [has_pending_calls] *)
Definition has_pending_calls : py AuditLog bool :=
  _ ← require_ready; gets (fun s => negb (bool_decide (pending_calls (rows s) = []))).

(** The row read back by [entry_id] carries the entry's result and evidence. *)
Definition acknowledged (e : AuditEntry) (l : list Row) : bool :=
  match List.find (fun r => String.eqb (r_entry_id r) (entry_id e)) l with
  | Some r => String.eqb (r_result r) (result_ e) && bool_decide (r_evidence r = json_column (evidence e))
  | None => false
  end.

Definition claimable (e : AuditEntry) : bool :=
  String.eqb (result_ e) "pending" &&
  match evidence e with
  | None | Some [] => false
  | Some d => bool_decide (dget "phase" d = Some (JStr "intent"))
  end.

(** [claim_intent]; [main] and [own] are the log's connection and the one the
    method opens, whose [BEGIN IMMEDIATE] makes the rest one transaction. *)
Definition claim_intent (main own : Connection) (e : AuditEntry) : py AuditLog bool :=
  _ ← require_ready;
  _ ← raise_when (negb (claimable e)) ValueError;
  _ ← verify_beta_connection main;
  _ ← verify_beta_connection own;
  l ← gets rows;
  if negb (bool_decide (pending_calls l = [])) then mret false
  else
    _ ← insert_row e;
    l' ← gets rows;
    _ ← raise_when (negb (acknowledged e l')) RuntimeError;
    mret true.

(** [append_beta] *)
Definition append_beta (main : Connection) (e : AuditEntry) : py AuditLog string :=
  _ ← require_ready;
  _ ← verify_beta_connection main;
  id ← append e;
  l ← gets rows;
  _ ← raise_when (negb (String.eqb id (entry_id e)) || negb (acknowledged e l)) RuntimeError;
  mret id.

(** ** Text order of timestamps *)

(** The calendar fields fit the widths [isoformat] prints them in. *)
Definition stamp_ok (d : stamp) : bool :=
  (year d <? 10 ^ 4) && (month d <? 10 ^ 2) && (day d <? 10 ^ 2) && (hour d <? 10 ^ 2) &&
  (minute d <? 10 ^ 2) && (second d <? 10 ^ 2) && (microsecond d <? 10 ^ 6).

(** Chronological order of two timestamps with the same offset. *)
Definition cmp_then (c : comparison) (k : comparison) : comparison := match c with Eq => k | _ => c end.

Definition stamp_cmp (a b : stamp) : comparison :=
  cmp_then (year a ?= year b) (cmp_then (month a ?= month b) (cmp_then (day a ?= day b)
    (cmp_then (hour a ?= hour b) (cmp_then (minute a ?= minute b) (cmp_then (second a ?= second b)
      (microsecond a ?= microsecond b)))))).

Lemma digit_cmp m n : m < 10 -> n < 10 -> (code (digit m) ?= code (digit n))%N = (m ?= n).
Proof.
  intros Hm Hn. do 10 (destruct m as [|m]; [do 10 (destruct n as [|n]; [done|]); lia|]). lia.
Qed.

Lemma compare_divmod p a b : 0 < p ->
  (a ?= b) = cmp_then (a / p ?= b / p) (a mod p ?= b mod p).
Proof.
  intros Hp. pose proof (Nat.div_mod a p ltac:(lia)) as Ha. pose proof (Nat.div_mod b p ltac:(lia)) as Hb.
  pose proof (Nat.mod_upper_bound a p ltac:(lia)). pose proof (Nat.mod_upper_bound b p ltac:(lia)).
  destruct (Nat.compare_spec (a / p) (b / p)) as [Hd|Hd|Hd]; cbn.
  - destruct (Nat.compare_spec (a mod p) (b mod p)), (Nat.compare_spec a b); try done; exfalso; nia.
  - apply Nat.compare_lt_iff. nia.
  - apply Nat.compare_gt_iff. nia.
Qed.

Lemma pad_cmp w a b x y :
  a < 10 ^ w -> b < 10 ^ w -> chars_cmp (pad w a ++ x) (pad w b ++ y) = cmp_then (a ?= b) (chars_cmp x y).
Proof.
  revert a b. induction w as [|w IH]; intros a b Ha Hb.
  - cbn in Ha, Hb. by replace a with 0 by lia; replace b with 0 by lia.
  - assert (0 < 10 ^ w) as Hp by (apply Nat.neq_0_lt_0, Nat.pow_nonzero; lia).
    rewrite Nat.pow_succ_r' in Ha, Hb. cbn [pad app chars_cmp].
    rewrite digit_cmp by (apply Nat.Div0.div_lt_upper_bound; lia).
    rewrite (compare_divmod (10 ^ w) a b Hp).
    destruct (a / 10 ^ w ?= b / 10 ^ w); try done. cbn [cmp_then].
    apply IH; apply Nat.mod_upper_bound; lia.
Qed.

Lemma sep_cmp c x y : chars_cmp (c :: x) (c :: y) = chars_cmp x y.
Proof. cbn. by rewrite N.compare_refl. Qed.

(** A missing fraction sorts before any: [+] comes before [.]. *)
Lemma fraction_cmp m n x : m < 10 ^ 6 -> n < 10 ^ 6 ->
  chars_cmp (fraction m ++ "+"%char :: x) (fraction n ++ "+"%char :: x) = (m ?= n).
Proof.
  intros Hm Hn. unfold fraction. destruct (Nat.eqb_spec m 0) as [->|Hm0], (Nat.eqb_spec n 0) as [->|Hn0].
  - apply chars_cmp_refl.
  - cbn [app]. change (Lt = (0 ?= n)). symmetry. apply Nat.compare_lt_iff. lia.
  - cbn [app]. change (Gt = (m ?= 0)). symmetry. apply Nat.compare_gt_iff. lia.
  - cbn [app]. rewrite sep_cmp, pad_cmp by done. rewrite chars_cmp_refl. by destruct (m ?= n).
Qed.

(** SQLite compares [timestamp] as text, and for UTC timestamps that is
    the chronological order, fractional seconds or not: the [since] and [until]
    bounds and the ORDER BY of [query] mean what they say. *)
Theorem utc_text_order a b :
  stamp_ok a = true -> stamp_ok b = true -> utcoffset a = Some 0%Z -> utcoffset b = Some 0%Z ->
  str_cmp (isoformat a) (isoformat b) = stamp_cmp a b.
Proof.
  intros Ha Hb Hoa Hob. unfold stamp_ok in *. breflect.
  repeat match goal with H : (_ <? _) = true |- _ => apply Nat.ltb_lt in H end.
  unfold str_cmp, isoformat. rewrite !to_of_chars, Hoa, Hob.
  unfold stamp_cmp. do 6 (rewrite pad_cmp by done; f_equal; cbn [app]; rewrite ?sep_cmp).
  change (iso_offset 0) with ("+"%char :: to_chars "00:00"). by rewrite fraction_cmp.
Qed.

(** ** Read back *)

(** What an entry is after a trip through the table: a naive timestamp is UTC,
    an action spelled like a class is the class, and objects have sorted keys. *)
Definition stored_form (e : AuditEntry) : AuditEntry :=
  mk_AuditEntry (entry_id e) (as_utc (timestamp e)) (agent e) (task e) (target e) (authorization e)
    (capability e) ((fun a => parse_action (enum_value a)) <$> action e) (result_ e)
    (unjson (json_column (evidence e))) (model e) (model_version e) (tool_version e)
    (unjson (json_column (environment e))).

Lemma parse_action_value c : parse_action (action_value c) = AClass c.
Proof. by destruct c. Qed.

Lemma enum_parse s : enum_value (parse_action s) = s.
Proof.
  unfold parse_action. destruct (List.find _ _) as [c|] eqn:Hf; [|done].
  apply List.find_some in Hf as [_ Hc]. by apply String.eqb_eq in Hc.
Qed.

Lemma parse_enum_idemp a : parse_action (enum_value (parse_action (enum_value a))) = parse_action (enum_value a).
Proof. by rewrite enum_parse. Qed.

Lemma as_utc_idemp d : as_utc (as_utc d) = as_utc d.
Proof. unfold as_utc. by destruct (utcoffset d) eqn:Ho; cbn; rewrite ?Ho. Qed.

Lemma json_column_obj d : exists d', json_column (Some d) = Some (JObj d').
Proof. by eexists. Qed.

Lemma json_column_unjson o : json_column (unjson (json_column o)) = json_column o.
Proof.
  destruct o as [d|]; [|done]. destruct (json_column_obj d) as [d' Hd]. rewrite Hd. cbn [unjson].
  change (Some (canon (JObj d')) = Some (JObj d')).
  assert (JObj d' = canon (JObj d)) as -> by (cbn in *; congruence). by rewrite canon_idemp.
Qed.

Lemma row_of_stored e : row_of (stored_form e) = row_of e.
Proof.
  unfold row_of, stored_form, as_ts. cbn. rewrite as_utc_idemp, !json_column_unjson.
  f_equal. destruct (action e); cbn; [by rewrite enum_parse|done].
Qed.

Lemma row_to_entry_row_of e : row_to_entry (row_of e) = stored_form e.
Proof. unfold row_to_entry, row_of, stored_form. cbn. f_equal. by destruct (action e). Qed.

Lemma insert_row_run e s :
  insert_row e s = if bool_decide (entry_id e ∈ map r_entry_id (rows s)) then (Err IntegrityError, s)
                   else (Ok tt, set_rows (rows s ++ [row_of e]) s).
Proof. unfold insert_row. unfold_py. by case_bool_decide. Qed.

Lemma append_run e s :
  append e s = if negb (conn s) then (Err RuntimeError, s)
               else if bool_decide (entry_id e ∈ map r_entry_id (rows s)) then (Err ValueError, s)
               else (Ok (entry_id e), set_rows (rows s ++ [row_of e]) s).
Proof.
  unfold append, require_ready, catch. unfold_py. destruct (conn s); [|done]. cbn.
  rewrite insert_row_run. by case_bool_decide.
Qed.

Lemma find_app_fresh {A} (p : A -> bool) (l : list A) x :
  (forall y, y ∈ l -> p y = false) -> p x = true -> List.find p (l ++ [x]) = Some x.
Proof.
  induction l as [|y l IH]; intros Hl Hx; cbn; [by rewrite Hx|].
  rewrite (Hl y) by constructor. apply IH; [|done]. intros z Hz. apply Hl. by right.
Qed.

Lemma acknowledged_fresh e l :
  entry_id e ∉ map r_entry_id l -> acknowledged e (l ++ [row_of e]) = true.
Proof.
  intros Hnew. unfold acknowledged. rewrite find_app_fresh.
  - cbn. by rewrite String.eqb_refl, bool_decide_true.
  - intros r Hr. apply String.eqb_neq. intros Heq. apply Hnew. rewrite <- Heq.
    apply list_elem_of_In, List.in_map. by apply list_elem_of_In.
  - apply String.eqb_refl.
Qed.

(** An appended entry reads back as itself: [append] adds one row at the
    end, and the row parses to the entry with a naive time read as UTC, a class
    spelled as text read as the class, and keys sorted; storing what was read
    back writes the same row again.  A duplicate id or a closed log writes
    nothing. *)
Theorem append_reads_back e s :
  match append e s with
  | (Ok id, s') => id = entry_id e /\ rows s' = rows s ++ [row_of e] /\
                   entry_id e ∉ map r_entry_id (rows s) /\
                   row_to_entry (row_of e) = stored_form e /\ row_of (stored_form e) = row_of e
  | (Err exc, s') => s' = s /\
      ((conn s = false /\ exc = RuntimeError) \/ (entry_id e ∈ map r_entry_id (rows s) /\ exc = ValueError))
  end.
Proof.
  rewrite append_run. destruct (conn s); cbn [negb]; [|auto]. case_bool_decide; [auto|].
  split_and!; try done; [apply row_to_entry_row_of|apply row_of_stored].
Qed.

(** ** Queries *)

Section QueryFacts.
Context (scan : list Row -> list Row) (scan_perm : forall l, scan l ≡ₚ l).

Lemma length_select f l :
  length (select scan f l) = Nat.min (Z.to_nat (f_limit f)) (count (matches_filter f) l - Z.to_nat (f_offset f)).
Proof using scan_perm.
  unfold select. rewrite length_take, length_drop, sort_by_perm, scan_perm. done.
Qed.

Lemma newest_sorted l : StronglySorted (fun a b => newest_first a b = true) (sort_by newest_first l).
Proof.
  apply sort_by_sorted; unfold newest_first.
  - intros x y. destruct (str_le_total (r_timestamp x) (r_timestamp y)); auto.
  - intros x y z Hxy Hyz. by eapply str_le_trans.
Qed.

Lemma StronglySorted_take_drop {A} (R : A -> A -> Prop) n m (l : list A) :
  StronglySorted R l -> StronglySorted R (take n (drop m l)).
Proof.
  intros Hl. rewrite <- (take_drop m l) in Hl. apply StronglySorted_app in Hl as (_ & _ & Hd).
  rewrite <- (take_drop n (drop m l)) in Hd. by apply StronglySorted_app in Hd as (_ & Ht & _).
Qed.
End QueryFacts.

(** A query returns one page of the listing, newest first, of exactly the
    rows its filter matches, whatever order SQLite visits the rows in, and
    [count] is the length of that listing. *)
Theorem query_pages scan f s :
  (forall l, scan l ≡ₚ l) ->
  if conn s then
    exists all, all ≡ₚ List.filter (matches_filter f) (rows s) /\
      StronglySorted (fun a b => newest_first a b = true) all /\
      query scan (Some f) s =
        (Ok (map row_to_entry (take (Z.to_nat (f_limit f)) (drop (Z.to_nat (f_offset f)) all))), s) /\
      count_entries (Some f) s = (Ok (Z.of_nat (length all)), s)
  else query scan (Some f) s = (Err RuntimeError, s) /\ count_entries (Some f) s = (Err RuntimeError, s).
Proof.
  intros Hscan. unfold query, count_entries, require_ready. unfold_py. destruct (conn s); [|done].
  exists (sort_by newest_first (scan (List.filter (matches_filter f) (rows s)))). split_and!.
  - by rewrite sort_by_perm, Hscan.
  - apply newest_sorted.
  - done.
  - cbn. unfold count. by rewrite sort_by_perm, Hscan.
Qed.

(** ** Runs of the log *)

Inductive audit_op :=
| Initialize
| Close
| Append (e : AuditEntry)
| AppendBeta (main : Connection) (e : AuditEntry)
| ClaimIntent (main own : Connection) (e : AuditEntry).

Definition audit_exec (s : AuditLog) (op : audit_op) : AuditLog :=
  match op with
  | Initialize => (initialize s).2
  | Close => (close s).2
  | Append e => (append e s).2
  | AppendBeta main e => (append_beta main e s).2
  | ClaimIntent main own e => (claim_intent main own e s).2
  end.

Definition audit_run (ops : list audit_op) : AuditLog := foldl audit_exec (mk_AuditLog false []) ops.

Definition verified (c : Connection) : bool :=
  String.eqb (journal_mode c) "wal" && (synchronous c =? 2)%Z &&
  existsb (fun d => String.eqb d.1 "main" && negb (String.eqb d.2 "")) (database_list c).

Lemma verify_run c s :
  verify_beta_connection c s = if verified c then (Ok tt, s) else (Err RuntimeError, s).
Proof.
  unfold verify_beta_connection, verified. unfold_py.
  destruct (String.eqb _ _); [|done]. destruct (synchronous c =? 2)%Z; [|done]. by destruct (existsb _ _).
Qed.

Lemma append_beta_run main e s :
  append_beta main e s =
  if negb (conn s) || negb (verified main) then (Err RuntimeError, s)
  else if bool_decide (entry_id e ∈ map r_entry_id (rows s)) then (Err ValueError, s)
  else (Ok (entry_id e), set_rows (rows s ++ [row_of e]) s).
Proof.
  unfold append_beta, require_ready. unfold_py. destruct (conn s) eqn:Hc; [|done]. cbn.
  rewrite verify_run. destruct (verified main); [|done]. cbn. rewrite append_run, Hc. cbn.
  case_bool_decide as Hid; [done|]. cbn. by rewrite String.eqb_refl, acknowledged_fresh.
Qed.

Lemma claim_intent_run main own e s :
  claim_intent main own e s =
  if negb (conn s) then (Err RuntimeError, s) else if negb (claimable e) then (Err ValueError, s)
  else if negb (verified main && verified own) then (Err RuntimeError, s)
  else if negb (bool_decide (pending_calls (rows s) = [])) then (Ok false, s)
  else if bool_decide (entry_id e ∈ map r_entry_id (rows s)) then (Err IntegrityError, s)
  else (Ok true, set_rows (rows s ++ [row_of e]) s).
Proof.
  unfold claim_intent, require_ready. unfold_py. destruct (conn s) eqn:Hc; [|done]. cbn.
  destruct (claimable e); [|done]. cbn. rewrite verify_run. destruct (verified main); [|done].
  rewrite verify_run. destruct (verified own); [|done]. cbn. case_bool_decide; [|done]. cbn.
  rewrite insert_row_run. case_bool_decide as Hid; [done|]. cbn. by rewrite acknowledged_fresh.
Qed.

(** Every operation keeps the rows or adds one with a fresh id. *)
Lemma audit_exec_rows s op :
  rows (audit_exec s op) = rows s \/
  exists e, entry_id e ∉ map r_entry_id (rows s) /\ rows (audit_exec s op) = rows s ++ [row_of e].
Proof.
  destruct op as [| |e|main e|main own e]; cbn [audit_exec]; [by left|by left| | |].
  - rewrite append_run. destruct (negb _); [by left|]. case_bool_decide; [by left|right; by exists e].
  - rewrite append_beta_run. destruct (_ || _); [by left|].
    case_bool_decide; [by left|right; by exists e].
  - rewrite claim_intent_run. destruct (negb (conn s)); [by left|]. destruct (negb (claimable e)); [by left|].
    destruct (negb (_ && _)); [by left|]. destruct (negb (bool_decide _)); [by left|].
    case_bool_decide; [by left|right; by exists e].
Qed.

Lemma audit_fold_rows ops s :
  NoDup (map r_entry_id (rows s)) ->
  rows s `prefix_of` rows (foldl audit_exec s ops) /\ NoDup (map r_entry_id (rows (foldl audit_exec s ops))).
Proof.
  revert s. induction ops as [|op ops IH]; intros s Hs; [done|]. cbn [foldl].
  assert (rows s `prefix_of` rows (audit_exec s op) /\ NoDup (map r_entry_id (rows (audit_exec s op))))
    as [Hp Hn].
  { destruct (audit_exec_rows s op) as [->|(e & He & ->)]; [done|]. split; [by apply prefix_app_r|].
    rewrite map_app. apply NoDup_app. split; [done|]. split; [|apply NoDup_singleton].
    intros x Hx Hin. cbn in Hin. apply list_elem_of_singleton in Hin as ->. done. }
  destruct (IH _ Hn) as [Hp' Hn']. split; [by etrans|done].
Qed.

(** The log is append-only: in any run, whatever the operations and
    however they fail, the rows written so far stay, unchanged and in order,
    in front of every later log, and no two rows share an id. *)
Theorem log_is_append_only ops ops' :
  rows (audit_run ops) `prefix_of` rows (audit_run (ops ++ ops')) /\
  NoDup (map r_entry_id (rows (audit_run (ops ++ ops')))).
Proof.
  unfold audit_run. rewrite foldl_app.
  destruct (audit_fold_rows ops (mk_AuditLog false [])) as [_ Hn]; [constructor|].
  by apply audit_fold_rows.
Qed.

(** ** One call at a time *)

Lemma claimable_intent e : claimable e = true -> is_intent (row_of e) = true.
Proof.
  unfold claimable, is_intent, has_phase, json_extract. cbn [row_of r_result r_evidence]. intros Hc.
  breflect. rewrite H. destruct (evidence e) as [[|x d]|]; [done| |done]. breflect.
  cbn [json_column fmap option_fmap option_map]. rewrite jget_canon, H0. done.
Qed.

Lemma length_pending_app l r :
  length (pending_calls (l ++ [r])) <= length (pending_calls l) + (if is_intent r then 1 else 0).
Proof.
  unfold pending_calls. rewrite List.filter_app, length_app. apply Nat.add_le_mono.
  - apply count_le. intros x _ Hx. rewrite existsb_app in Hx. breflect. rewrite H.
    by apply negb_true_iff.
  - cbn [List.filter]. destruct (is_intent r); cbn [andb]; [|done]. case_match; cbn; lia.
Qed.

(** Intents are written by [claim_intent] only. *)
Definition claims_only (op : audit_op) : bool :=
  match op with Append e | AppendBeta _ e => negb (is_intent (row_of e)) | _ => true end.

Lemma audit_exec_pending s op :
  claims_only op = true -> length (pending_calls (rows s)) <= 1 ->
  length (pending_calls (rows (audit_exec s op))) <= 1.
Proof.
  destruct op as [| |e|main e|main own e]; cbn [audit_exec claims_only]; [done|done| | |].
  - rewrite append_run. destruct (negb (conn s)); [done|]. case_bool_decide; [done|]. intros He%negb_true_iff Hl.
    pose proof (length_pending_app (rows s) (row_of e)) as Hp. rewrite He in Hp. cbn [snd rows set_rows]. lia.
  - rewrite append_beta_run. destruct (_ || _); [done|]. case_bool_decide; [done|]. intros He%negb_true_iff Hl.
    pose proof (length_pending_app (rows s) (row_of e)) as Hp. rewrite He in Hp. cbn [snd rows set_rows]. lia.
  - intros _ Hl. rewrite claim_intent_run. destruct (negb (conn s)); [done|].
    destruct (negb (claimable e)); [done|]. destruct (negb (_ && _)); [done|].
    case_bool_decide as Hempty; [|done]. cbn [negb]. case_bool_decide; [done|]. cbn [snd rows set_rows].
    pose proof (length_pending_app (rows s) (row_of e)) as Hp. rewrite Hempty in Hp.
    cbn [length] in Hp. destruct (is_intent _); lia.
Qed.

(** Claiming is exclusive: when intents are written by [claim_intent]
    only, every reachable log has at most one call without an outcome, whatever
    other entries are appended, and whichever operations fail. *)
Theorem at_most_one_pending_call ops :
  forallb claims_only ops = true -> length (pending_calls (rows (audit_run ops))) <= 1.
Proof.
  unfold audit_run. assert (length (pending_calls (rows (mk_AuditLog false []))) <= 1) as H0 by (cbn; lia).
  revert H0. generalize (mk_AuditLog false []).
  induction ops as [|op ops IH]; intros s Hs Hops; [done|]. cbn in *. breflect.
  apply IH; [by apply audit_exec_pending|done].
Qed.

(** [claim_intent], branch by branch: it writes exactly the intent, and
    answers [True], when the log is open, the entry is an intent, both
    connections are WAL with FULL sync on a disk file, no call is pending and
    the id is new; it answers [False] exactly when those hold but a call is
    pending; anything but [True] leaves the log as it was. *)
Theorem claim_intent_spec main own e s :
  match claim_intent main own e s with
  | (Ok true, s') =>
      conn s = true /\ verified main = true /\ verified own = true /\ pending_calls (rows s) = [] /\
      is_intent (row_of e) = true /\ s' = set_rows (rows s ++ [row_of e]) s
  | (Ok false, s') => s' = s /\ conn s = true /\ claimable e = true /\ pending_calls (rows s) <> []
  | (Err exc, s') => s' = s /\
      (conn s = false \/ claimable e = false \/ verified main && verified own = false \/
       entry_id e ∈ map r_entry_id (rows s))
  end.
Proof.
  rewrite claim_intent_run. destruct (conn s); cbn [negb]; [|by auto].
  destruct (claimable e) eqn:Hc; cbn [negb]; [|by auto].
  destruct (verified main && verified own) eqn:Hv; cbn [negb]; [|by auto].
  case_bool_decide as Hp; cbn [negb]; [|by auto]. case_bool_decide; [by auto 7|].
  apply andb_true_iff in Hv as [-> ->]. split_and!; auto using claimable_intent.
Qed.

(** ** Samples *)

Definition sample_stamp (s us : nat) (offset : option Z) : stamp := mk_stamp 2026 7 1 12 0 s us offset.

Definition sample_entry (id result phase call : string) : AuditEntry :=
  mk_AuditEntry id (sample_stamp 5 0 None) (Some "red") None None None None
    (Some (AText "L2_CONTROLLED_TESTING")) result
    (Some [("phase", JStr phase); ("call_id", JStr call)]%string) None None None None.

Definition disk : Connection := mk_Connection "wal" 2 [("main", "/var/audit.db")]%string.

Definition sample_ops : list audit_op :=
  [Initialize; ClaimIntent disk disk (sample_entry "a" "pending" "intent" "1");
   ClaimIntent disk disk (sample_entry "b" "pending" "intent" "2");
   AppendBeta disk (sample_entry "c" "ok" "outcome" "1");
   ClaimIntent disk disk (sample_entry "d" "pending" "intent" "2")]%string.

Example sample_rows :
  map r_entry_id (rows (audit_run sample_ops)) = ["a"; "c"; "d"]%string /\
  map r_entry_id (pending_calls (rows (audit_run sample_ops))) = ["d"]%string.
Proof. vm_compute. split; reflexivity. Qed.

Lemma at_most_one_pending_call_witness : length (pending_calls (rows (audit_run sample_ops))) <= 1.
Proof. apply (at_most_one_pending_call sample_ops). vm_compute. reflexivity. Defined.

Lemma utc_text_order_witness :
  str_cmp "2026-07-01T12:00:05+00:00" "2026-07-01T12:00:05.000001+00:00" = Lt.
Proof.
  apply (utc_text_order (sample_stamp 5 0 (Some 0%Z)) (sample_stamp 5 1 (Some 0%Z)));
    first [by vm_compute|reflexivity].
Defined.

Lemma query_pages_witness :
  exists all, all ≡ₚ List.filter (matches_filter default_filter) (rows (audit_run sample_ops)) /\
    (query id None (audit_run sample_ops)).1 = Ok (map row_to_entry (take 100 all)).
Proof.
  destruct (query_pages id default_filter (audit_run sample_ops) (fun _ => reflexivity _))
    as (all & Hall & _ & Hq & _).
  exists all. split; [exact Hall|]. exact (f_equal fst Hq).
Defined.

(** A timestamp with another offset is stored and compared as written: 14:00 at
    +02:00, which is noon UTC, sorts after 13:00 UTC. *)
Lemma offset_breaks_order :
  str_cmp (as_ts (mk_AuditEntry "e" (mk_stamp 2026 7 1 14 0 0 0 (Some 120%Z)) None None None None None None
                   "ok" None None None None None))
          (isoformat (mk_stamp 2026 7 1 13 0 0 0 (Some 0%Z))) = Gt.
Proof. vm_compute. reflexivity. Qed.
