(* ===== verification/Sha256.v ===== *)
(** * SHA-256

    [hashlib.sha256(data).hexdigest()] (FIPS 180-4), on bytes as [N] below 256
    and 32-bit words as [N] with the wrap-around written out.  Executable, so
    that digests of concrete records evaluate. *)
From S2P Require Import Prelude PyStr PyJson.

Definition word (n : N) : N := N.land n 4294967295.
Definition add32 (a b : N) : N := word (a + b).
Definition rotr (k x : N) : N := word (N.lor (N.shiftr x k) (N.shiftl x (32 - k))).
Definition not32 (x : N) : N := N.lxor x 4294967295.

Definition Ch (x y z : N) : N := N.lxor (N.land x y) (N.land (not32 x) z).
Definition Maj (x y z : N) : N := N.lxor (N.lxor (N.land x y) (N.land x z)) (N.land y z).
Definition Sigma0 (x : N) : N := N.lxor (N.lxor (rotr 2 x) (rotr 13 x)) (rotr 22 x).
Definition Sigma1 (x : N) : N := N.lxor (N.lxor (rotr 6 x) (rotr 11 x)) (rotr 25 x).
Definition sigma0 (x : N) : N := N.lxor (N.lxor (rotr 7 x) (rotr 18 x)) (N.shiftr x 3).
Definition sigma1 (x : N) : N := N.lxor (N.lxor (rotr 17 x) (rotr 19 x)) (N.shiftr x 10).

Definition round_constants : list N :=
  [1116352408; 1899447441; 3049323471; 3921009573; 961987163; 1508970993; 2453635748; 2870763221;
   3624381080; 310598401; 607225278; 1426881987; 1925078388; 2162078206; 2614888103; 3248222580;
   3835390401; 4022224774; 264347078; 604807628; 770255983; 1249150122; 1555081692; 1996064986;
   2554220882; 2821834349; 2952996808; 3210313671; 3336571891; 3584528711; 113926993; 338241895;
   666307205; 773529912; 1294757372; 1396182291; 1695183700; 1986661051; 2177026350; 2456956037;
   2730485921; 2820302411; 3259730800; 3345764771; 3516065817; 3600352804; 4094571909; 275423344;
   430227734; 506948616; 659060556; 883997877; 958139571; 1322822218; 1537002063; 1747873779;
   1955562222; 2024104815; 2227730452; 2361852424; 2428436474; 2756734187; 3204031479; 3329325298]%N.

Definition initial_hash : list N :=
  [1779033703; 3144134277; 1013904242; 2773480762; 1359893119; 2600822924; 528734635; 1541459225]%N.

(** Big-endian bytes of a number. *)
Fixpoint bytes_be (k : nat) (n : N) : list N :=
  match k with
  | 0 => []
  | S k' => bytes_be k' (n / 256) ++ [(n mod 256)%N]
  end.

Definition word_of (bs : list N) : N := fold_left (fun acc b => (acc * 256 + b)%N) bs 0%N.

Fixpoint chunks {A} (fuel n : nat) (l : list A) : list (list A) :=
  match fuel, l with
  | S fuel', _ :: _ => take n l :: chunks fuel' n (drop n l)
  | _, _ => []
  end.

(** Padding to a multiple of 64 bytes. *)
Definition pad_message (m : list N) : list N :=
  let n := length m in
  m ++ [128%N] ++ repeat 0%N ((119 - n mod 64) mod 64) ++ bytes_be 8 (N.of_nat n * 8).

(** The message schedule, newest word first. *)
Fixpoint schedule (k : nat) (w : list N) : list N :=
  match k with
  | 0 => w
  | S k' =>
      let at_ i := nth (i - 1) w 0%N in
      schedule k' (add32 (add32 (sigma1 (at_ 2)) (at_ 7)) (add32 (sigma0 (at_ 15)) (at_ 16)) :: w)
  end.

Definition round (h : list N) (kw : N * N) : list N :=
  match h with
  | [a; b; c; d; e; f; g; hh] =>
      let t1 := add32 (add32 (add32 hh (Sigma1 e)) (Ch e f g)) (add32 kw.1 kw.2) in
      let t2 := add32 (Sigma0 a) (Maj a b c) in
      [add32 t1 t2; a; b; c; add32 d t1; e; f; g]
  | _ => h
  end.

Definition compress (h : list N) (block : list N) : list N :=
  let w := rev (schedule 48 (rev (map word_of (chunks 16 4 block)))) in
  zip_with add32 h (fold_left round (zip round_constants w) h).

Definition sha256 (m : list N) : list N :=
  let p := pad_message m in
  flat_map (bytes_be 4) (fold_left compress (chunks (length p) 64 p) initial_hash).

(** [sha256(data).hexdigest()] *)
Definition hexdigest (m : list N) : string :=
  of_chars (flat_map (fun b => [hex_digit (b / 16); hex_digit (b mod 16)]) (sha256 m)).

Definition sha256_hex (s : string) : string := hexdigest (utf8_bytes s).

(** FIPS 180-4 test vectors. *)
Example sha256_empty :
  sha256_hex "" = "e3b0c44298fc1c149afbf4c8996fb92427ae41e4649b934ca495991b7852b855"%string.
Proof. vm_compute. reflexivity. Qed.

Example sha256_abc :
  sha256_hex "abc" = "ba7816bf8f01cfea414140de5dae2223b00361a396177a9cb410ff61f20015ad"%string.
Proof. vm_compute. reflexivity. Qed.

Example sha256_two_blocks :
  sha256_hex "abcdbcdecdefdefgefghfghighijhijkijkljklmklmnlmnomnopnopq" =
  "248d6a61d20638b8e5c026930c3e6039a33ce45964ff2167f6ecedd419db06c1"%string.
Proof. vm_compute. reflexivity. Qed.

(** ** A digest is 64 hexadecimal digits *)

Lemma length_bytes_be k n : length (bytes_be k n) = k.
Proof. revert n. induction k as [|k IH]; intros n; cbn; [done|]. rewrite length_app, IH. cbn. lia. Qed.

Lemma bytes_be_small k n : Forall (fun b => (b < 256)%N) (bytes_be k n).
Proof.
  revert n. induction k as [|k IH]; intros n; cbn; [constructor|]. apply Forall_app. split; [apply IH|].
  apply Forall_singleton. by apply N.mod_lt.
Qed.

Lemma length_round h kw : length h = 8 -> length (round h kw) = 8.
Proof. intros Hh. do 8 (destruct h as [|? h]; [done|]). by destruct h. Qed.

Lemma length_rounds l h : length h = 8 -> length (fold_left round l h) = 8.
Proof. revert h. induction l as [|kw l IH]; intros h Hh; cbn; [done|]. by apply IH, length_round. Qed.

Lemma length_compress h block : length h = 8 -> length (compress h block) = 8.
Proof. intros Hh. unfold compress. rewrite length_zip_with, length_rounds by done. lia. Qed.

Lemma length_blocks l h : length h = 8 -> length (fold_left compress l h) = 8.
Proof. revert h. induction l as [|b l IH]; intros h Hh; cbn; [done|]. by apply IH, length_compress. Qed.

Lemma sha256_shape m : length (sha256 m) = 32 /\ Forall (fun b => (b < 256)%N) (sha256 m).
Proof.
  unfold sha256. set (h := fold_left _ _ _). assert (length h = 8) as Hh by by apply length_blocks.
  do 8 (destruct h as [|? h]; [done|]). destruct h; [|done]. cbn [flat_map]. split.
  - rewrite !length_app, !length_bytes_be. done.
  - rewrite !Forall_app. split_and!; try apply bytes_be_small. constructor.
Qed.

Definition is_hex (c : ascii) : bool := is_digit c || in_range 97 102 c.

Lemma hex_digit_ok n : (n < 16)%N -> is_hex (hex_digit n) = true.
Proof.
  intros Hn. assert (exists k, n = N.of_nat k /\ k < 16) as (k & -> & Hk) by (exists (N.to_nat n); lia).
  do 16 (destruct k as [|k]; [done|]). lia.
Qed.

Lemma hex_text l :
  Forall (fun b => (b < 256)%N) l ->
  length (flat_map (fun b => [hex_digit (b / 16); hex_digit (b mod 16)]) l) = 2 * length l /\
  forallb is_hex (flat_map (fun b => [hex_digit (b / 16); hex_digit (b mod 16)]) l) = true.
Proof.
  induction 1 as [|b l Hb Hl [IH1 IH2]]; [done|]. cbn [flat_map app length]. split; [rewrite IH1; lia|].
  cbn [forallb]. rewrite IH2, !hex_digit_ok; [done| |].
  - by apply N.mod_lt.
  - apply N.Div0.div_lt_upper_bound. lia.
Qed.

Lemma sha256_hex_shape s :
  String.length (sha256_hex s) = 64 /\ forallb is_hex (to_chars (sha256_hex s)) = true.
Proof.
  destruct (sha256_shape (utf8_bytes s)) as [Hlen Hb]. destruct (hex_text _ Hb) as [H1 H2].
  unfold sha256_hex, hexdigest. rewrite <- length_to_chars, to_of_chars, H1, Hlen. done.
Qed.
