(* ===== verification/WfRegistry.v ===== *)
(** * Workflow definitions and run records

    [src/agency/workflows/registry.py] and the records and digests of
    [recovery.py].  The three SQLite tables are lists of rows in rowid order;
    INSERT OR REPLACE deletes the old row and appends the new one.  A JSON
    column holds the value [json.loads] reads back ([canon]); step results,
    whose entries always have the same three keys, are a record per step.
    [sync] tells whether SQLite could run and commit the statement. *)
From S2P Require Import Prelude PyStr PyDict PyJson Sha256.

Definition MAX_STEPS : Z := 64.
Definition MAX_JSON_BYTES : Z := 64 * 1024.
Definition MAX_ID_LEN : Z := 128.

Definition underscore_dot_dash (c : ascii) : bool :=
  is_alnum c || Ascii.eqb c "_"%char || Ascii.eqb c "."%char || Ascii.eqb c "-"%char.
Definition permission_char (c : ascii) : bool :=
  underscore_dot_dash c || Ascii.eqb c ":"%char || Ascii.eqb c "/"%char.

(** [\d+] and what follows it. *)
Fixpoint span_digits (l : chars) : chars * chars :=
  match l with
  | c :: l' => if is_digit c then let '(d, r) := span_digits l' in (c :: d, r) else ([], l)
  | [] => ([], [])
  end.

Definition digits_then (k : chars -> bool) (l : chars) : bool :=
  let '(d, r) := span_digits l in negb (bool_decide (d = [])) && k r.
Definition dot_then (k : chars -> bool) (l : chars) : bool :=
  match l with c :: l' => Ascii.eqb c "."%char && k l' | [] => false end.

Definition id_re (l : chars) : bool := head_tail is_alnum underscore_dot_dash l.
Definition permission_re (l : chars) : bool := head_tail is_alnum permission_char l.
Definition version_re (l : chars) : bool :=
  digits_then (dot_then (digits_then (dot_then (digits_then (fun r => bool_decide (r = [])))))) l.

(** [_check_id] *)
Definition check_id (value : string) : result string :=
  _ ← raise_if (String.eqb value "" || is_blank value) ValueError;
  _ ← raise_if (MAX_ID_LEN <? py_len value)%Z ValueError;
  _ ← raise_if (negb (match_dollar id_re value)) ValueError;
  Ok value.

(** [_check_permission] *)
Definition check_permission (value : string) : result string :=
  _ ← raise_if (String.eqb value "" || is_blank value) ValueError;
  _ ← raise_if (MAX_ID_LEN <? py_len value)%Z ValueError;
  _ ← raise_if (negb (match_dollar permission_re value)) ValueError;
  Ok value.

(** [_check_version] *)
Definition check_version (value : string) : result string :=
  _ ← raise_if (negb (match_dollar version_re value)) ValueError; Ok value.

(** [_dumps_bounded]: the text, whose value the column keeps. *)
Definition dumps_bounded (value : json) (max_bytes : Z) : result string :=
  text ← match dumps value with Ok t => Ok t | Err _ => Err ValueError end;
  _ ← raise_if (max_bytes <? utf8_len text)%Z ValueError;
  Ok text.

(** ** Definitions *)

Record WorkflowStep := mk_WorkflowStep {
  step_id : string;
  operation : string;
  depends_on : list string;
  permissions : list string;
}.

#[export] Instance WorkflowStep_eq_dec : EqDecision WorkflowStep.
Proof. solve_decision. Defined.

Definition new_step (sid op : string) (deps perms : list string) : result WorkflowStep :=
  _ ← check_id sid; _ ← check_id op;
  _ ← all_ok (map check_id deps); _ ← all_ok (map check_permission perms);
  Ok (mk_WorkflowStep sid op deps perms).

Record WorkflowDefinition := mk_WorkflowDefinition {
  workflow_id : string;
  version : string;
  steps : list WorkflowStep;
}.

#[export] Instance WorkflowDefinition_eq_dec : EqDecision WorkflowDefinition.
Proof. solve_decision. Defined.

Definition new_definition (wid ver : string) (ss : list WorkflowStep) : result WorkflowDefinition :=
  _ ← check_id wid; _ ← check_version ver; Ok (mk_WorkflowDefinition wid ver ss).

(** ** The dependency graph *)

(** [{step.step_id: list(step.depends_on) for step in steps}] *)
Definition adjacency (ss : list WorkflowStep) : list (string * list string) :=
  foldl (fun d s => dset (step_id s) (depends_on s) d) [] ss.

(** [visiting] and [visited]. *)
Definition dfs_state : Type := gset string * gset string.

Fixpoint fold_result {A B} (f : A -> B -> result A) (acc : A) (l : list B) : result A :=
  match l with
  | [] => Ok acc
  | x :: l' => acc' ← f acc x; fold_result f acc' l'
  end.

(** [visit]; [fuel] bounds the recursion (a missing node is a [KeyError]). *)
Fixpoint visit (fuel : nat) (adj : list (string * list string)) (st : dfs_state) (node : string)
    : result dfs_state :=
  match fuel with
  | 0 => Err RuntimeError
  | S fuel' =>
      let '(visiting, visited) := st in
      if bool_decide (node ∈ visited) then Ok st
      else if bool_decide (node ∈ visiting) then Err ValueError
      else
        match dget node adj with
        | None => Err KeyError
        | Some deps =>
            '(visiting', visited') ← fold_result (visit fuel' adj) ({[node]} ∪ visiting, visited) deps;
            Ok (visiting' ∖ {[node]}, {[node]} ∪ visited')
        end
  end.

Fixpoint has_duplicate (l : list string) : bool :=
  match l with
  | [] => false
  | x :: l' => bool_decide (x ∈ l') || has_duplicate l'
  end.

(** [_validate_dag]; the recursion is never deeper than the steps and one. *)
Definition validate_dag (d : WorkflowDefinition) : result unit :=
  let ss := steps d in
  _ ← raise_if (MAX_STEPS <? Z.of_nat (length ss))%Z ValueError;
  _ ← raise_if (has_duplicate (map step_id ss)) ValueError;
  _ ← raise_if (existsb (fun s => existsb (fun dep =>
        String.eqb dep (step_id s) || negb (bool_decide (dep ∈ map step_id ss))) (depends_on s)) ss) ValueError;
  _ ← fold_result (visit (S (length ss)) (adjacency ss)) (∅, ∅) (map step_id ss);
  Ok tt.

(** ** Records *)

Definition step_json (s : WorkflowStep) : json :=
  JObj [("step_id", JStr (step_id s)); ("operation", JStr (operation s));
        ("depends_on", JList (map JStr (depends_on s)));
        ("permissions", JList (map JStr (permissions s)))]%string.

(** The payload of [_definition_to_json] and [definition_digest]. *)
Definition definition_payload (d : WorkflowDefinition) : json :=
  JObj [("workflow_id", JStr (workflow_id d)); ("version", JStr (version d));
        ("steps", JList (map step_json (steps d)))]%string.

Definition definition_to_json (d : WorkflowDefinition) : json := canon (definition_payload d).

Definition jstr (v : json) : result string := match v with JStr s => Ok s | _ => Err TypeError end.
Definition jlist (v : json) : result (list json) := match v with JList l => Ok l | _ => Err TypeError end.

(** [payload[key]] and [payload.get(key, ())]. *)
Definition item (key : string) (v : json) : result json :=
  match jget key v with Some x => Ok x | None => Err KeyError end.
Definition names_of (key : string) (v : json) : result (list string) :=
  match jget key v with
  | None => Ok []
  | Some l => items ← jlist l; all_ok (map jstr items)
  end.

Definition step_of_json (v : json) : result WorkflowStep :=
  sid ← item "step_id" v; sid ← jstr sid;
  op ← item "operation" v; op ← jstr op;
  deps ← names_of "depends_on" v;
  perms ← names_of "permissions" v;
  new_step sid op deps perms.

(** [_definition_from_json] *)
Definition definition_from_json (v : json) : result WorkflowDefinition :=
  items ← match jget "steps" v with None => Ok [] | Some l => jlist l end;
  ss ← all_ok (map step_of_json items);
  wid ← item "workflow_id" v; wid ← jstr wid;
  ver ← item "version" v; ver ← jstr ver;
  new_definition wid ver ss.

Inductive RunStatus := PENDING | RUNNING | COMPLETED | FAILED | INDETERMINATE.

#[export] Instance RunStatus_eq_dec : EqDecision RunStatus.
Proof. solve_decision. Defined.

(** [{"status": ..., "output": ..., "error": ...}] *)
Inductive StepStatus := step_ok | step_failed | step_refused | step_running.

#[export] Instance StepStatus_eq_dec : EqDecision StepStatus.
Proof. solve_decision. Defined.

Definition step_status_value (s : StepStatus) : string :=
  match s with
  | step_ok => "ok" | step_failed => "failed" | step_refused => "refused" | step_running => "running"
  end.

Record StepResult := mk_StepResult {
  sr_status : StepStatus;
  sr_output : json;
  sr_error : option string;
}.

#[export] Instance StepResult_eq_dec : EqDecision StepResult.
Proof. solve_decision. Defined.

Abbreviation results := (list (string * StepResult)).

Definition result_json (r : StepResult) : json :=
  JObj [("status", JStr (step_status_value (sr_status r))); ("output", sr_output r);
        ("error", match sr_error r with None => JNull | Some e => JStr e end)]%string.

Definition results_json (rs : results) : json := JObj (map (fun e => (e.1, result_json e.2)) rs).

(** The step results [json.loads] gives back: keys sorted, outputs canonical. *)
Definition results_read (rs : results) : results :=
  sort_by (fun a b => str_le a.1 b.1)
    (map (fun e => (e.1, mk_StepResult (sr_status e.2) (canon (sr_output e.2)) (sr_error e.2))) rs).

Record WorkflowRun := mk_WorkflowRun {
  run_id : string;
  run_workflow_id : string;
  run_version : string;
  actor_id : string;
  status : RunStatus;
  step_results : results;
  created_at : string;
  completed_at : option string;
}.

(** [WorkflowRun.__post_init__] *)
Definition new_run (r : WorkflowRun) : result WorkflowRun :=
  _ ← raise_if (is_blank (run_id r)) ValueError;
  _ ← check_id (run_workflow_id r);
  _ ← check_version (run_version r);
  _ ← raise_if (is_blank (actor_id r)) ValueError;
  _ ← raise_if (bool_decide (status r = INDETERMINATE)) ValueError;
  Ok r.

Record RecoverableRun := mk_RecoverableRun {
  rr_run_id : string;
  rr_workflow_id : string;
  rr_version : string;
  rr_actor_id : string;
  rr_status : RunStatus;
  rr_step_results : results;
  rr_input_digest : string;
  rr_definition_digest : string;
  rr_ops_binding : list (string * string);
  rr_created_at : string;
  rr_updated_at : option string;
}.

#[export] Instance RecoverableRun_eq_dec : EqDecision RecoverableRun.
Proof. solve_decision. Defined.

(** [RecoverableRun.__post_init__], at the only schema version there is. *)
Definition new_recoverable (r : RecoverableRun) : result RecoverableRun :=
  _ ← raise_if (is_blank (rr_run_id r)) ValueError;
  _ ← raise_if (bool_decide (rr_status r = PENDING)) ValueError;
  Ok r.

(** [input_digest], [definition_digest] *)
Definition digest (v : json) : result string :=
  match dumps v with Ok t => Ok (sha256_hex t) | Err _ => Err ValueError end.
Definition definition_digest (d : WorkflowDefinition) : result string := digest (definition_payload d).

(** ** The registry *)

Record DefRow := mk_DefRow { d_workflow : string; d_version : string; d_json : json; d_created : string }.

Record WorkflowRegistry := mk_Registry {
  db_path : string;
  definitions : list DefRow;
  runs : list WorkflowRun;
  recoverable : list RecoverableRun;
}.

Definition set_definitions (l : list DefRow) (s : WorkflowRegistry) : WorkflowRegistry :=
  mk_Registry (db_path s) l (runs s) (recoverable s).
Definition set_runs (l : list WorkflowRun) (s : WorkflowRegistry) : WorkflowRegistry :=
  mk_Registry (db_path s) (definitions s) l (recoverable s).
Definition set_recoverable (l : list RecoverableRun) (s : WorkflowRegistry) : WorkflowRegistry :=
  mk_Registry (db_path s) (definitions s) (runs s) l.

(** [__init__] *)
Definition new_registry (path : string) : WorkflowRegistry := mk_Registry path [] [] [].

Definition def_row (wid ver : string) (s : WorkflowRegistry) : option DefRow :=
  List.find (fun r => String.eqb (d_workflow r) wid && String.eqb (d_version r) ver) (definitions s).

(** [register] *)
Definition register (sync : bool) (now : string) (d : WorkflowDefinition)
    : py WorkflowRegistry WorkflowDefinition :=
  _ ← lift (validate_dag d);
  ss ← lift (all_ok (map (fun s => new_step (step_id s) (operation s) (depends_on s) (permissions s)) (steps d)));
  stored ← lift (new_definition (workflow_id d) (version d) ss);
  existing ← gets (def_row (workflow_id stored) (version stored));
  _ ← raise_when (match existing with Some _ => true | None => false end) ValueError;
  _ ← raise_when (negb sync) SqliteError;
  _ ← modify (fun s => set_definitions (definitions s ++
        [mk_DefRow (workflow_id stored) (version stored) (definition_to_json stored) now]) s);
  mret stored.

(** [get] *)
Definition get_definition (wid ver : string) : py WorkflowRegistry WorkflowDefinition :=
  _ ← lift (check_id wid);
  _ ← lift (check_version ver);
  row ← gets (def_row wid ver);
  match row with
  | None => raise KeyError
  | Some r => lift (definition_from_json (d_json r))
  end.

(** [list_versions] *)
Definition list_versions (wid : string) : py WorkflowRegistry (list WorkflowDefinition) :=
  _ ← lift (check_id wid);
  rows ← gets (fun s => List.filter (fun r => String.eqb (d_workflow r) wid) (definitions s));
  lift (all_ok (map (fun r => definition_from_json (d_json r)) rows)).

(** INSERT OR REPLACE by a text key. *)
Definition replace_row {A} (key : A -> string) (row : A) (l : list A) : list A :=
  List.filter (fun r => negb (String.eqb (key r) (key row))) l ++ [row].

Definition RUN_JSON_BYTES : Z := MAX_JSON_BYTES * (MAX_STEPS + 1).

(** [record_run] *)
Definition record_run (sync : bool) (r : WorkflowRun) : py WorkflowRegistry WorkflowRun :=
  _ ← lift (dumps_bounded (results_json (step_results r)) RUN_JSON_BYTES);
  _ ← raise_when (negb sync) SqliteError;
  _ ← modify (fun s => set_runs (replace_row run_id r (runs s)) s);
  lift (new_run r).

(** [get_run] *)
Definition get_run (rid : string) : py WorkflowRegistry WorkflowRun :=
  _ ← raise_when (is_blank rid) ValueError;
  row ← gets (fun s => List.find (fun r => String.eqb (run_id r) rid) (runs s));
  match row with
  | None => raise KeyError
  | Some r => lift (new_run (mk_WorkflowRun (run_id r) (run_workflow_id r) (run_version r) (actor_id r)
                (status r) (results_read (step_results r)) (created_at r) (completed_at r)))
  end.

Definition binding_json (b : list (string * string)) : json := JObj (map (fun e => (e.1, JStr e.2)) b).

(** The recoverable run read back from its columns. *)
Definition recoverable_read (r : RecoverableRun) : RecoverableRun :=
  mk_RecoverableRun (rr_run_id r) (rr_workflow_id r) (rr_version r) (rr_actor_id r) (rr_status r)
    (results_read (rr_step_results r)) (rr_input_digest r) (rr_definition_digest r)
    (sort_by (fun a b => str_le a.1 b.1) (rr_ops_binding r)) (rr_created_at r) (rr_updated_at r).

(** [record_recoverable_run] *)
Definition record_recoverable_run (sync : bool) (r : RecoverableRun)
    : py WorkflowRegistry RecoverableRun :=
  _ ← lift (dumps_bounded (results_json (rr_step_results r)) RUN_JSON_BYTES);
  _ ← lift (dumps_bounded (binding_json (rr_ops_binding r)) MAX_JSON_BYTES);
  _ ← raise_when (negb sync) SqliteError;
  _ ← modify (fun s => set_recoverable (replace_row rr_run_id r (recoverable s)) s);
  mret r.

(** [get_recoverable_run] *)
Definition get_recoverable_run (rid : string) : py WorkflowRegistry RecoverableRun :=
  _ ← raise_when (is_blank rid) ValueError;
  row ← gets (fun s => List.find (fun r => String.eqb (rr_run_id r) rid) (recoverable s));
  match row with
  | None => raise KeyError
  | Some r => lift (new_recoverable (recoverable_read r))
  end.

(** [list_recoverable_runs] *)
Definition list_recoverable_runs (wanted : option RunStatus) : py WorkflowRegistry (list RecoverableRun) :=
  rows ← gets (fun s => List.filter (fun r =>
    match wanted with None => true | Some st => bool_decide (rr_status r = st) end) (recoverable s));
  for_each (fun r => get_recoverable_run (rr_run_id r)) rows.

(** ** Facts: definitions *)

Lemma all_ok_map {A B} (f : A -> result B) (g : A -> B) l :
  (forall x, x ∈ l -> f x = Ok (g x)) -> all_ok (map f l) = Ok (map g l).
Proof.
  induction l as [|x l IH]; intros Hf; [done|]. cbn. rewrite Hf by by left. cbn.
  rewrite IH; [done|]. intros y Hy. apply Hf. by right.
Qed.

Lemma all_ok_inv {A B} (f : A -> result B) l k :
  all_ok (map f l) = Ok k -> length k = length l /\ forall i x, l !! i = Some x -> exists y, k !! i = Some y /\ f x = Ok y.
Proof.
  revert k. induction l as [|x l IH]; intros k; cbn.
  - intros [= <-]. split; [done|]. intros i x. by rewrite lookup_nil.
  - intros (y & Hy & H)%result_bind_ok. apply result_bind_ok in H as (ys & Hys & [= <-]).
    apply IH in Hys as [Hlen Hall]. split; [cbn; congruence|]. intros [|i] z; cbn; [|apply Hall].
    intros [= <-]. by exists y.
Qed.

Lemma new_step_ok sid op deps perms s :
  new_step sid op deps perms = Ok s -> s = mk_WorkflowStep sid op deps perms.
Proof.
  unfold new_step. intros (? & _ & H)%result_bind_ok. apply result_bind_ok in H as (? & _ & H).
  apply result_bind_ok in H as (? & _ & H). apply result_bind_ok in H as (? & _ & [= <-]). done.
Qed.

Lemma new_definition_ok wid ver ss d :
  new_definition wid ver ss = Ok d ->
  d = mk_WorkflowDefinition wid ver ss /\ check_id wid = Ok wid /\ check_version ver = Ok ver.
Proof.
  unfold new_definition. intros (w & Hw & H)%result_bind_ok. apply result_bind_ok in H as (v & Hv & [= <-]).
  split_and!; [done| |].
  - rewrite Hw. unfold check_id in Hw. do 3 (apply result_bind_ok in Hw as (? & _ & Hw)). by injection Hw as <-.
  - rewrite Hv. unfold check_version in Hv. apply result_bind_ok in Hv as (? & _ & Hv). by injection Hv as <-.
Qed.

(** The fields every registered definition passed the checks of. *)
Definition checked_step (s : WorkflowStep) : Prop :=
  new_step (step_id s) (operation s) (depends_on s) (permissions s) = Ok s.
Definition checked_definition (d : WorkflowDefinition) : Prop :=
  new_definition (workflow_id d) (version d) (steps d) = Ok d /\ forall s, s ∈ steps d -> checked_step s.

Lemma all_ok_strings l : all_ok (map jstr (map canon (map JStr l))) = Ok l.
Proof. rewrite !map_map. rewrite (all_ok_map _ id) by done. by rewrite map_id. Qed.

Lemma step_round_trip s : checked_step s -> step_of_json (canon (step_json s)) = Ok s.
Proof.
  intros Hs. unfold step_of_json, item, names_of, step_json. rewrite !jget_canon.
  change (dget "step_id" _) with (Some (JStr (step_id s))).
  change (dget "operation" _) with (Some (JStr (operation s))).
  change (dget "depends_on" _) with (Some (JList (map JStr (depends_on s)))).
  change (dget "permissions" _) with (Some (JList (map JStr (permissions s)))).
  cbn [fmap option_fmap option_map]. rewrite ?canon_list, ?canon_str. cbn [jstr jlist mbind result_bind].
  rewrite !all_ok_strings. cbn [mbind result_bind]. exact Hs.
Qed.

Lemma definition_round_trip d :
  checked_definition d -> definition_from_json (definition_to_json d) = Ok d.
Proof.
  intros [Hd Hs]. unfold definition_from_json, definition_to_json, definition_payload, item.
  rewrite !jget_canon.
  change (dget "steps" _) with (Some (JList (map step_json (steps d)))).
  change (dget "workflow_id" _) with (Some (JStr (workflow_id d))).
  change (dget "version" _) with (Some (JStr (version d))).
  cbn [fmap option_fmap option_map]. rewrite ?canon_list, ?canon_str. cbn [jstr jlist mbind result_bind].
  rewrite !map_map. rewrite (all_ok_map _ id) by (intros s Hin; by apply step_round_trip, Hs).
  rewrite map_id. exact Hd.
Qed.

Lemma register_ok sync now d s stored s' :
  register sync now d s = (Ok stored, s') ->
  stored = d /\ checked_definition d /\ validate_dag d = Ok tt /\ def_row (workflow_id d) (version d) s = None /\
  s' = set_definitions (definitions s ++ [mk_DefRow (workflow_id d) (version d) (definition_to_json d) now]) s.
Proof.
  unfold register. unfold_py. destruct (validate_dag d) as [[]|] eqn:Hdag; [|done].
  destruct (all_ok _) as [ss|] eqn:Hss; [|done]. destruct (new_definition _ _ ss) as [st|] eqn:Hnew; [|done].
  assert (ss = steps d /\ forall x, x ∈ steps d -> checked_step x) as [-> Hsteps].
  { apply all_ok_inv in Hss as [Hlen Hall].
    assert (forall i x, steps d !! i = Some x -> ss !! i = Some x /\ checked_step x) as Hx.
    { intros i x Hi. destruct (Hall i x Hi) as (y & Hy & Hok). pose proof (new_step_ok _ _ _ _ _ Hok) as ->.
      unfold checked_step. destruct x; cbn in *. split; [done|]. exact Hok. }
    split; [|intros x (i & Hi)%list_elem_of_lookup; by apply (Hx i)].
    apply list_eq. intros i. destruct (steps d !! i) as [x|] eqn:Hi; [by apply Hx|].
    apply lookup_ge_None in Hi. apply lookup_ge_None. lia. }
  pose proof (new_definition_ok _ _ _ _ Hnew) as (-> & _ & _). cbn [workflow_id version].
  destruct (def_row (workflow_id d) (version d) s) eqn:Hrow; [done|]. destruct sync; [|done]. cbn.
  intros [= <- <-]. assert (mk_WorkflowDefinition (workflow_id d) (version d) (steps d) = d) as Heq by by destruct d.
  rewrite Heq in *. by split_and!.
Qed.

Lemma get_definition_run d now l s :
  checked_definition d ->
  List.find (fun r => String.eqb (d_workflow r) (workflow_id d) && String.eqb (d_version r) (version d)) l =
    Some (mk_DefRow (workflow_id d) (version d) (definition_to_json d) now) ->
  definitions s = l -> get_definition (workflow_id d) (version d) s = (Ok d, s).
Proof.
  intros Hd Hf Hl. destruct (Hd) as [Hnew _]. apply new_definition_ok in Hnew as (_ & Hid & Hver).
  unfold get_definition. unfold_py. rewrite Hid, Hver. unfold def_row. rewrite Hl, Hf. cbn [d_json].
  by rewrite definition_round_trip.
Qed.

(** ** The registry over time *)

Inductive wf_op :=
| Register (sync : bool) (now : string) (d : WorkflowDefinition)
| RecordRun (sync : bool) (r : WorkflowRun)
| RecordRecoverable (sync : bool) (r : RecoverableRun).

Definition wf_exec (s : WorkflowRegistry) (op : wf_op) : WorkflowRegistry :=
  match op with
  | Register sync now d => (register sync now d s).2
  | RecordRun sync r => (record_run sync r s).2
  | RecordRecoverable sync r => (record_recoverable_run sync r s).2
  end.

Lemma wf_exec_definitions s op :
  exists l, definitions (wf_exec s op) = definitions s ++ l.
Proof.
  assert (exists l, definitions s = definitions s ++ l) as Hsame by (exists []; by rewrite app_nil_r).
  destruct op as [sync now d|sync r|sync r]; cbn [wf_exec].
  - destruct (register sync now d s) as [[stored|e] s'] eqn:Hreg; cbn.
    + apply register_ok in Hreg as (_ & _ & _ & _ & ->). by eexists.
    + unfold register in Hreg. revert Hreg. unfold_py.
      repeat (case_match; try done); cbn; intros; simplify_eq; done.
  - unfold record_run. unfold_py. destruct (dumps_bounded _ _); [|done]. by destruct sync.
  - unfold record_recoverable_run. unfold_py. do 2 (destruct (dumps_bounded _ _); [|done]). by destruct sync.
Qed.

Lemma find_app_left {A} (p : A -> bool) l k x : List.find p l = Some x -> List.find p (l ++ k) = Some x.
Proof. induction l as [|y l IH]; [done|]. cbn. by destruct (p y). Qed.

Lemma find_app_right {A} (p : A -> bool) l k : List.find p l = None -> List.find p (l ++ k) = List.find p k.
Proof. induction l as [|y l IH]; [done|]. cbn. by destruct (p y). Qed.

Lemma wf_run_definitions ops s : exists l, definitions (foldl wf_exec s ops) = definitions s ++ l.
Proof.
  revert s. induction ops as [|op ops IH]; intros s; [exists []; by rewrite app_nil_r|].
  destruct (wf_exec_definitions s op) as [l1 H1]. destruct (IH (wf_exec s op)) as [l2 H2].
  exists (l1 ++ l2). cbn. by rewrite H2, H1, <- app_assoc.
Qed.

(** A registered version is immutable: [register] stores a validated
    definition under a new version, [get] returns exactly that definition after
    any later operations, and registering the version again always fails. *)
Theorem registered_version_is_immutable sync now d s s' ops sync' now' d' :
  register sync now d s = (Ok d, s') ->
  workflow_id d' = workflow_id d -> version d' = version d ->
  let s2 := foldl wf_exec s' ops in
  validate_dag d = Ok tt /\
  get_definition (workflow_id d) (version d) s2 = (Ok d, s2) /\
  exists e, (register sync' now' d' s2).1 = Err e.
Proof.
  intros Hreg Hid Hver s2. apply register_ok in Hreg as (_ & Hd & Hdag & Hnone & ->).
  destruct (wf_run_definitions ops (set_definitions (definitions s ++
    [mk_DefRow (workflow_id d) (version d) (definition_to_json d) now]) s)) as [l Hl].
  fold s2 in Hl. cbn [definitions set_definitions] in Hl.
  assert (List.find (fun r => String.eqb (d_workflow r) (workflow_id d) && String.eqb (d_version r) (version d))
            (definitions s2) = Some (mk_DefRow (workflow_id d) (version d) (definition_to_json d) now)) as Hfind.
  { rewrite Hl. apply find_app_left. unfold def_row in Hnone. rewrite find_app_right by done.
    cbn. by rewrite !String.eqb_refl. }
  split_and!; [done|by eapply get_definition_run|].
  destruct (register sync' now' d' s2) as [[stored|e] s3] eqn:Hreg; [|by eexists].
  apply register_ok in Hreg as (_ & _ & _ & Hnone' & _). unfold def_row in Hnone'.
  rewrite Hid, Hver in Hnone'. congruence.
Qed.

(** ** Samples *)

Definition sample_step (sid : string) (deps : list string) : WorkflowStep :=
  mk_WorkflowStep sid "op" deps [].

Definition sample_dag : WorkflowDefinition :=
  mk_WorkflowDefinition "wf" "1.0.0"
    [sample_step "d" ["b"; "c"; "b"]; sample_step "c" ["a"]; sample_step "b" ["a"]; sample_step "a" []]%string.

Lemma registered_version_is_immutable_witness :
  let s := (register true "t0" sample_dag (new_registry "wf.db")).2 in
  get_definition "wf" "1.0.0" (foldl wf_exec s [Register true "t1" sample_dag]) =
    (Ok sample_dag, foldl wf_exec s [Register true "t1" sample_dag]).
Proof.
  refine (proj1 (proj2 (registered_version_is_immutable true "t0" sample_dag (new_registry "wf.db")
    (register true "t0" sample_dag (new_registry "wf.db")).2
    [Register true "t1" sample_dag] true "t2" sample_dag _ _ _))); vm_compute; reflexivity.
Defined.
