(* ===== verification/WfDag.v ===== *)
(** * Dependency graphs

    [topological_order] of [src/agency/workflows/executor.py], and the facts
    about it and about [_validate_dag] of [registry.py]. *)
From S2P Require Import Prelude PyStr PyDict PyJson WfRegistry.

(** ** The stable order *)

Definition step_index (ss : list WorkflowStep) : list (string * nat) :=
  foldl (fun d p => dset (step_id p.2) p.1 d) [] (imap pair ss).

Definition index_of (ss : list WorkflowStep) (sid : string) : nat := default 0 (dget sid (step_index ss)).

Definition by_index (ss : list WorkflowStep) (a b : string) : bool := index_of ss a <=? index_of ss b.

(** One edge: the dependent's indegree and the dependency's dependents. *)
Definition add_edge (sid : string) (st : list (string * list string) * list (string * nat)) (dep : string)
    : result (list (string * list string) * list (string * nat)) :=
  let '(dependents, indegree) := st in
  match dget dep indegree, dget sid indegree, dget dep dependents with
  | None, _, _ => Err ValueError
  | Some _, Some n, Some children => Ok (dset dep (children ++ [sid]) dependents, dset sid (S n) indegree)
  | _, _, _ => Err KeyError
  end.

Definition edges (ss : list WorkflowStep) : result (list (string * list string) * list (string * nat)) :=
  fold_result (fun st s => fold_result (add_edge (step_id s)) st (depends_on s))
    (foldl (fun d s => dset (step_id s) [] d) [] ss, foldl (fun d s => dset (step_id s) 0 d) [] ss) ss.

(** One child of the step just ordered. *)
Definition release (st : list (string * nat) * list string) (child : string)
    : list (string * nat) * list string :=
  let '(indegree, ready) := st in
  let n := default 0 (dget child indegree) - 1 in
  (dset child n indegree, if n =? 0 then ready ++ [child] else ready).

(** The loop, in as many turns as there are steps. *)
Fixpoint kahn (fuel : nat) (le : string -> string -> bool) (dependents : list (string * list string))
    (indegree : list (string * nat)) (ready ordered : list string) : list string :=
  match fuel, ready with
  | S fuel', current :: rest =>
      let children := sort_by le (default [] (dget current dependents)) in
      let '(indegree', ready') := foldl release (indegree, rest) children in
      kahn fuel' le dependents indegree' (sort_by le ready') (ordered ++ [current])
  | _, _ => ordered
  end.

Definition find_step (ss : list WorkflowStep) (sid : string) : option WorkflowStep :=
  dget sid (foldl (fun d s => dset (step_id s) s d) [] ss).

(** [topological_order] *)
Definition topological_order (d : WorkflowDefinition) : result (list WorkflowStep) :=
  let ss := steps d in
  '(dependents, indegree) ← edges ss;
  let le := by_index ss in
  let ready := sort_by le (map fst (List.filter (fun e => e.2 =? 0) indegree)) in
  let ordered := kahn (length ss) le dependents indegree ready [] in
  _ ← raise_if (negb (length ordered =? length ss)) ValueError;
  Ok (omap (find_step ss) ordered).

(** ** Acyclicity *)

(** [d] is a dependency of the step [x]. *)
Definition needs (ss : list WorkflowStep) (d x : string) : Prop :=
  exists s, s ∈ ss /\ step_id s = x /\ d ∈ depends_on s.

(** No step depends on itself through others. *)
Definition acyclic (ss : list WorkflowStep) : Prop := forall x, ~ tc (needs ss) x x.

Definition ids (ss : list WorkflowStep) : list string := map step_id ss.

Definition well_formed (ss : list WorkflowStep) : Prop :=
  NoDup (ids ss) /\ forall s d, s ∈ ss -> d ∈ depends_on s -> d ∈ ids ss.

Lemma elem_of_ids ss x : x ∈ ids ss <-> exists s, s ∈ ss /\ step_id s = x.
Proof.
  unfold ids. rewrite list_elem_of_In, List.in_map_iff. setoid_rewrite list_elem_of_In. naive_solver.
Qed.

Lemma step_in_ids ss s : s ∈ ss -> step_id s ∈ ids ss.
Proof. intros. apply elem_of_ids. by exists s. Qed.

Section Lookup.
Context {A : Type} (g : WorkflowStep -> A).

(** A dict comprehension keyed by [step_id]. *)
Definition by_id (ss : list WorkflowStep) : list (string * A) :=
  foldl (fun d s => dset (step_id s) (g s) d) [] ss.

Lemma dget_by_id_app ss d sid :
  dget sid (foldl (fun d s => dset (step_id s) (g s) d) d ss) =
  match List.find (fun s => String.eqb (step_id s) sid) (rev ss) with
  | Some s => Some (g s)
  | None => dget sid d
  end.
Proof.
  revert d. induction ss as [|s ss IH]; intros d; [done|]. cbn [foldl rev]. rewrite IH.
  clear IH. induction (rev ss) as [|x l IHl]; cbn.
  - destruct (String.eqb_spec (step_id s) sid) as [<-|Hne]; [apply dget_dset_eq|by apply dget_dset_ne].
  - by destruct (String.eqb (step_id x) sid).
Qed.

Lemma find_unique ss s :
  NoDup (map step_id ss) -> s ∈ ss -> List.find (fun t => String.eqb (step_id t) (step_id s)) ss = Some s.
Proof.
  induction ss as [|t ss IH]; cbn; [by intros _ ?%elem_of_nil|].
  rewrite NoDup_cons. intros [Ht Hss] [->|Hs]%elem_of_cons; [by rewrite String.eqb_refl|].
  destruct (String.eqb_spec (step_id t) (step_id s)) as [Heq|]; [|by apply IH].
  exfalso. apply Ht. rewrite Heq. by apply list_elem_of_In, List.in_map, list_elem_of_In.
Qed.

Lemma dget_by_id ss s :
  NoDup (map step_id ss) -> s ∈ ss -> dget (step_id s) (by_id ss) = Some (g s).
Proof.
  intros Hnd Hs. unfold by_id. rewrite dget_by_id_app, (find_unique (rev ss) s); [done| |].
  - rewrite map_rev. by rewrite <- Permutation_rev.
  - by rewrite <- Permutation_rev.
Qed.

Lemma dget_by_id_none ss sid : sid ∉ ids ss -> dget sid (by_id ss) = None.
Proof.
  intros Hn. unfold by_id. rewrite dget_by_id_app.
  destruct (List.find _ (rev ss)) as [s|] eqn:Hf; [|done]. exfalso. apply Hn.
  apply find_some_elem in Hf as [Hs Hid]. apply String.eqb_eq in Hid as <-.
  apply step_in_ids. by rewrite Permutation_rev.
Qed.

Lemma by_id_nodup ss : NoDup (dkeys (by_id ss)).
Proof.
  unfold by_id. enough (forall d, NoDup (dkeys d) ->
    NoDup (dkeys (foldl (fun d s => dset (step_id s) (g s) d) d ss))) as He by (apply He; constructor).
  induction ss as [|s ss IH]; intros d Hd; [done|]. apply IH. by apply NoDup_dkeys_dset.
Qed.

Lemma elem_of_by_id ss sid : NoDup (ids ss) -> sid ∈ dkeys (by_id ss) <-> sid ∈ ids ss.
Proof.
  intros Hnd. rewrite <- dget_is_Some_keys. split.
  - intros [v Hv]. destruct (decide (sid ∈ ids ss)) as [|Hn]; [done|].
    apply dget_by_id_none in Hn. congruence.
  - intros (s & Hs & <-)%elem_of_ids. exists (g s). by apply dget_by_id.
Qed.
End Lookup.

(** ** The depth-first search *)

Lemma has_duplicate_spec l : has_duplicate l = false <-> NoDup l.
Proof.
  induction l as [|x l IH]; cbn; [split; [constructor|done]|].
  rewrite NoDup_cons, orb_false_iff, IH, bool_decide_eq_false. done.
Qed.

Lemma fold_result_app {A B} (f : A -> B -> result A) acc l k :
  fold_result f acc (l ++ k) = acc' ← fold_result f acc l; fold_result f acc' k.
Proof.
  revert acc. induction l as [|x l IH]; intros acc; cbn; [done|].
  destruct (f acc x) as [a|e]; cbn; [apply IH|done].
Qed.

Section Dfs.
Context (ss : list WorkflowStep) (Hwf : well_formed ss).

Let adj := adjacency ss.

Lemma adj_step s : s ∈ ss -> dget (step_id s) adj = Some (depends_on s).
Proof using Hwf. intros Hs. apply (dget_by_id depends_on); [apply Hwf|done]. Qed.

Lemma adj_some x deps : dget x adj = Some deps -> exists s, s ∈ ss /\ step_id s = x /\ depends_on s = deps.
Proof using Hwf.
  intros Hx. destruct (decide (x ∈ ids ss)) as [(s & Hs & <-)%elem_of_ids|Hn].
  - rewrite adj_step in Hx by done. injection Hx as <-. by exists s.
  - by apply (dget_by_id_none depends_on) in Hn as Hn'; unfold adj, adjacency in Hx; fold (by_id depends_on ss) in Hx; rewrite Hn' in Hx.
Qed.

(** What a successful visit leaves: the path as it was, and finished nodes only
    below which no path is infinite. *)
Definition dfs_ok (st st' : dfs_state) : Prop :=
  st'.1 = st.1 /\ st.2 ⊆ st'.2 /\
  ((forall x, x ∈ st.2 -> Acc (needs ss) x) -> forall x, x ∈ st'.2 -> Acc (needs ss) x).

Lemma fold_visit_sound f l st st' :
  (forall st node st', f st node = Ok st' -> dfs_ok st st' /\ node ∈ st'.2) ->
  fold_result f st l = Ok st' -> dfs_ok st st' /\ forall x, x ∈ l -> x ∈ st'.2.
Proof using.
  clear Hwf adj.
  intros Hf. revert st. induction l as [|x l IH]; intros st.
  - intros [= <-]. split; [|by intros ? ?%elem_of_nil]. by split.
  - cbn [fold_result]. intros (st1 & H1 & H2)%result_bind_ok.
    apply Hf in H1 as [(Hv1 & Hs1 & Ha1) Hx]. apply IH in H2 as [(Hv2 & Hs2 & Ha2) Hl].
    split; [split_and!; [congruence|set_solver|auto]|]. set_solver.
Qed.

Lemma visit_sound fuel st node st' :
  visit fuel adj st node = Ok st' -> dfs_ok st st' /\ node ∈ st'.2.
Proof using Hwf.
  revert st node st'. induction fuel as [|fuel IH]; intros [vis don] node st'; [done|]. cbn [visit].
  case_bool_decide as Hdone; [intros [= <-]; by split|]. case_bool_decide as Hvis; [done|].
  destruct (dget node adj) as [deps|] eqn:Hdeps; [|done].
  intros ([vis' don'] & Hfold & [= <-])%result_bind_ok.
  apply fold_visit_sound in Hfold as [(Hv & Hs & Ha) Hl]; [|done]. cbn [fst snd] in *.
  split; [split_and!|]; cbn; [|set_solver| |set_solver].
  - subst vis'. set_solver.
  - intros Hacc x [->%elem_of_singleton|Hx]%elem_of_union; [|by apply Ha].
    constructor. intros d (s & Hs' & Hid & Hd). apply Ha; [done|]. apply Hl.
    subst node. rewrite adj_step in Hdeps by done. by injection Hdeps as <-.
Qed.

(** With no cycle, and fuel for every step that is not on the path, it succeeds. *)
Lemma visit_complete fuel st node :
  acyclic ss -> node ∈ ids ss -> st.1 ⊆ list_to_set (ids ss) ->
  (forall v, v ∈ st.1 -> tc (needs ss) node v) ->
  length ss < fuel + size st.1 ->
  exists st', visit fuel adj st node = Ok st'.
Proof using Hwf.
  intros Hac. revert st node. induction fuel as [|fuel IH]; intros [vis don] node Hnode Hsub Hpath Hfuel.
  - exfalso. apply subseteq_size in Hsub. cbn in *. rewrite size_list_to_set in Hsub by apply Hwf.
    unfold ids in Hsub. rewrite length_map in Hsub. lia.
  - cbn [visit fst snd] in *. case_bool_decide; [by eexists|]. case_bool_decide as Hvis; [by apply Hpath, Hac in Hvis|].
    apply elem_of_ids in Hnode as (s & Hs & <-). rewrite adj_step by done.
    enough (exists st', fold_result (visit fuel adj) ({[step_id s]} ∪ vis, don) (depends_on s) = Ok st')
      as [[vis' don'] ->] by by eexists.
    assert (forall d, d ∈ depends_on s -> needs ss d (step_id s)) as Hdeps by (intros d Hd; by exists s).
    assert (forall d, d ∈ depends_on s -> d ∈ ids ss) as Hknown by (intros d; by apply Hwf).
    generalize don. induction (depends_on s) as [|d l IHl]; intros don0; [by eexists|]. cbn [fold_result].
    destruct (IH ({[step_id s]} ∪ vis, don0) d) as [[vis1 don1] H1].
    + apply Hknown. by left.
    + cbn. intros x [->%elem_of_singleton|Hx]%elem_of_union; [|by apply Hsub].
      apply elem_of_list_to_set. by apply step_in_ids.
    + cbn. intros v [->%elem_of_singleton|Hv]%elem_of_union; [apply tc_once, Hdeps; by left|].
      eapply tc_l; [apply Hdeps; by left|]. by apply Hpath.
    + cbn. rewrite size_union, size_singleton by set_solver. lia.
    + rewrite H1. cbn [mbind result_bind]. apply visit_sound in H1 as [(Hv & _) _]. cbn in Hv. subst vis1.
      apply IHl; intros x Hx; [apply Hdeps|apply Hknown]; by right.
Qed.

Lemma visit_all_complete l don :
  acyclic ss -> (forall x, x ∈ l -> x ∈ ids ss) ->
  exists st', fold_result (visit (S (length ss)) adj) (∅, don) l = Ok st'.
Proof using Hwf.
  intros Hac. revert don. induction l as [|x l IH]; intros don Hl; [by eexists|]. cbn [fold_result].
  destruct (visit_complete (S (length ss)) (∅, don) x) as [[vis1 don1] H1]; [done| |done|done| |].
  - apply Hl. by left.
  - cbn [fst]. lia.
  - rewrite H1. cbn [mbind result_bind]. apply visit_sound in H1 as [(Hv & _) _]. cbn in Hv. subst vis1.
    apply IH. intros y Hy. apply Hl. by right.
Qed.
End Dfs.

Lemma tc_last {A} (R : relation A) x z : tc R x z -> exists y, rtc R x y /\ R y z.
Proof.
  induction 1 as [x z Hxz|x y z Hxy _ (y' & Hy & Hz)]; [by exists x|].
  exists y'. split; [by eapply rtc_l|done].
Qed.

Lemma acc_acyclic ss x : Acc (needs ss) x -> ~ tc (needs ss) x x.
Proof.
  intros Hacc. induction Hacc as [x _ IH]. intros Hx.
  destruct (tc_last _ _ _ Hx) as (y & Hxy & Hyx). apply (IH y Hyx).
  eapply tc_rtc_r; [by apply tc_once|done].
Qed.

Lemma tc_ids ss x y : tc (needs ss) x y -> y ∈ ids ss.
Proof. intros (z & _ & s & Hs & <- & _)%tc_last. by apply step_in_ids. Qed.

Lemma validate_dag_acc d :
  validate_dag d = Ok tt -> well_formed (steps d) /\ (length (steps d) <= 64) /\
  forall x, x ∈ ids (steps d) -> Acc (needs (steps d)) x.
Proof.
  unfold validate_dag. intros ([] & Hlen%raise_if_ok & H)%result_bind_ok.
  apply result_bind_ok in H as ([] & Hdup%raise_if_ok%has_duplicate_spec & H).
  apply result_bind_ok in H as ([] & Hdeps%raise_if_ok & H).
  apply result_bind_ok in H as (st & Hst & _).
  assert (well_formed (steps d)) as Hwf.
  { split; [done|]. intros s dep Hs Hdep.
    destruct (decide (dep ∈ ids (steps d))) as [|Hn]; [done|]. exfalso.
    rewrite <- not_true_iff_false in Hdeps. apply Hdeps. apply existsb_exists. exists s.
    rewrite <- list_elem_of_In. split; [done|]. apply existsb_exists. exists dep.
    rewrite <- list_elem_of_In. split; [done|]. by rewrite (bool_decide_false _ Hn), orb_true_r. }
  split; [done|]. split; [unfold MAX_STEPS in Hlen; lia|].
  destruct (fold_visit_sound (steps d) _ _ _ _ (visit_sound _ Hwf _) Hst) as [(_ & _ & Ha) Hl].
  intros x Hx. apply Ha; [set_solver|]. by apply Hl.
Qed.

(** C27: [_validate_dag] accepts exactly the definitions of at most 64 steps
    with distinct ids, known dependencies and no dependency cycle; its
    depth-first search ends within the recursion the steps allow. *)
Theorem validate_dag_iff d :
  validate_dag d = Ok tt <->
  length (steps d) <= 64 /\ well_formed (steps d) /\ acyclic (steps d).
Proof.
  split.
  - intros (Hwf & Hlen & Hacc)%validate_dag_acc. split_and!; [done|done|].
    intros x Hx. eapply acc_acyclic; [|exact Hx]. by apply Hacc; eapply tc_ids.
  - intros (Hlen & Hwf & Hac). unfold validate_dag.
    assert ((MAX_STEPS <? Z.of_nat (length (steps d)))%Z = false) as -> by (unfold MAX_STEPS; lia).
    rewrite (proj2 (has_duplicate_spec _)) by apply Hwf.
    match goal with |- context [existsb ?f (steps d)] => assert (existsb f (steps d) = false) as -> end.
    2: { cbn [raise_if mbind result_bind].
         destruct (visit_all_complete (steps d) Hwf (map step_id (steps d)) ∅ Hac (fun _ H => H)) as [st' Hst].
         by rewrite Hst. }
    apply not_true_iff_false. intros (s & Hs & Hex)%existsb_exists.
    apply existsb_exists in Hex as (dep & Hdep%list_elem_of_In & Hor). apply list_elem_of_In in Hs.
    apply orb_true_iff in Hor as [->%String.eqb_eq|Hn].
    + apply (Hac (step_id s)). apply tc_once. by exists s.
    + apply negb_true_iff, bool_decide_eq_false in Hn. apply Hn. by eapply Hwf.
Qed.

(** ** Kahn's loop *)

(** The edges in the order the code adds them: dependency, dependent. *)
Definition edge_list (ss : list WorkflowStep) : list (string * string) :=
  flat_map (fun s => map (fun d => (d, step_id s)) (depends_on s)) ss.

Lemma elem_of_edges ss d x : (d, x) ∈ edge_list ss <-> needs ss d x.
Proof.
  unfold edge_list, needs. rewrite list_elem_of_In, List.in_flat_map. split.
  - intros (s & Hs & (d' & [= -> <-] & Hd)%List.in_map_iff). exists s. by rewrite !list_elem_of_In.
  - intros (s & Hs & <- & Hd). exists s. rewrite !list_elem_of_In in *. split; [done|].
    by apply List.in_map_iff; exists d.
Qed.

Definition dependents_in (es : list (string * string)) (x : string) : list string :=
  map snd (List.filter (fun e => String.eqb e.1 x) es).
Definition indegree_in (es : list (string * string)) (x : string) : nat :=
  count (fun e => String.eqb e.2 x) es.

(** Edges into [x] whose dependency is not ordered yet. *)
Definition waiting (es : list (string * string)) (ordered : list string) (x : string) : nat :=
  count (fun e => String.eqb e.2 x && negb (bool_decide (e.1 ∈ ordered))) es.

Section Kahn.
Context (ss : list WorkflowStep) (Hwf : well_formed ss).

Let es := edge_list ss.

Lemma edge_ends d x : (d, x) ∈ es -> d ∈ ids ss /\ x ∈ ids ss.
Proof using Hwf.
  intros (s & Hs & <- & Hd)%elem_of_edges. split; [by apply (proj2 Hwf s)|by apply step_in_ids].
Qed.

(** [edges] as one pass over the edge list. *)
Lemma fold_edges_flat (todo : list WorkflowStep) st :
  fold_result (fun st s => fold_result (add_edge (step_id s)) st (depends_on s)) st todo =
  fold_result (fun st e => add_edge e.2 st e.1) st (edge_list todo).
Proof using.
  revert st. induction todo as [|s todo IH]; intros st; [done|]. cbn [fold_result edge_list flat_map].
  fold (edge_list todo). rewrite fold_result_app.
  assert (forall l st, fold_result (add_edge (step_id s)) st l =
    fold_result (fun st e => add_edge e.2 st e.1) st (map (fun d => (d, step_id s)) l)) as Hl.
  { induction l as [|d l IHl]; intros st0; [done|]. cbn. destruct (add_edge _ _ _); cbn; [apply IHl|done]. }
  rewrite <- Hl. destruct (fold_result _ st (depends_on s)); cbn; [apply IH|done].
Qed.

Definition edge_inv (done_ : list (string * string)) (st : list (string * list string) * list (string * nat)) : Prop :=
  forall x, x ∈ ids ss -> dget x st.1 = Some (dependents_in done_ x) /\ dget x st.2 = Some (indegree_in done_ x).

Lemma fold_edges_inv todo done_ st :
  (forall d x, (d, x) ∈ todo -> d ∈ ids ss /\ x ∈ ids ss) ->
  NoDup (dkeys st.2) -> dkeys st.2 ≡ₚ ids ss -> edge_inv done_ st ->
  exists st', fold_result (fun st e => add_edge e.2 st e.1) st todo = Ok st' /\
    edge_inv (done_ ++ todo) st' /\ dkeys st'.2 = dkeys st.2.
Proof using.
  clear Hwf. revert done_ st. induction todo as [|[d x] todo IH]; intros dn [dp ind] Hends Hnd Hkeys Hinv.
  - rewrite app_nil_r. by exists (dp, ind).
  - destruct (Hends d x) as [Hd Hx]; [by left|]. cbn [fold_result add_edge fst snd].
    destruct (Hinv d Hd) as [Hdp Hid]. destruct (Hinv x Hx) as [_ Hix]. cbn in Hdp, Hid, Hix.
    rewrite Hid, Hix, Hdp. cbn [mbind result_bind].
    destruct (IH (dn ++ [(d, x)]) (dset d (dependents_in dn d ++ [x]) dp, dset x (S (indegree_in dn x)) ind))
      as (st' & -> & Hinv' & Hk').
    + intros d' x' Hin. apply Hends. by right.
    + by apply NoDup_dkeys_dset.
    + cbn [snd] in *. rewrite dkeys_dset_mem; [done|]. by rewrite Hkeys.
    + intros y Hy. destruct (Hinv y Hy) as [Hyd Hyi]. cbn in *. rewrite !dget_dset.
      unfold dependents_in, indegree_in. rewrite List.filter_app, map_app, count_app. cbn [List.filter].
      rewrite count_cons. cbn [fst snd]. split.
      * destruct (decide (d = y)) as [->|Hne]; [by rewrite String.eqb_refl|].
        apply String.eqb_neq in Hne as ->. by rewrite app_nil_r.
      * destruct (decide (x = y)) as [->|Hne]; [by rewrite String.eqb_refl, Nat.add_comm|].
        apply String.eqb_neq in Hne as ->. by rewrite Hyi, Nat.add_comm.
    + exists st'. rewrite <- app_assoc in Hinv'. split_and!; [done|done|]. rewrite Hk'. cbn [snd] in *.
      apply dkeys_dset_mem. by rewrite Hkeys.
Qed.

Lemma edges_ok :
  exists dp ind, edges ss = Ok (dp, ind) /\ edge_inv es (dp, ind) /\
    NoDup (dkeys ind) /\ forall x, x ∈ dkeys ind <-> x ∈ ids ss.
Proof using Hwf.
  unfold edges. rewrite fold_edges_flat.
  assert (dkeys (by_id (fun _ => 0) ss) ≡ₚ ids ss) as Hkeys.
  { apply NoDup_Permutation; [apply by_id_nodup|apply Hwf|]. intros x. apply elem_of_by_id, Hwf. }
  destruct (fold_edges_inv es [] (by_id (fun _ => []) ss, by_id (fun _ => 0) ss))
    as ([dp ind] & Hf & Hinv & Hk).
  - apply edge_ends.
  - apply by_id_nodup.
  - done.
  - intros x (s & Hs & <-)%elem_of_ids. split; [apply (dget_by_id (fun _ => []))|apply (dget_by_id (fun _ => 0))];
      solve [done|apply Hwf].
  - exists dp, ind. cbn [snd] in Hk. split_and!; [done|done| |].
    + rewrite Hk. apply by_id_nodup.
    + intros x. by rewrite Hk, Hkeys.
Qed.

(** The children of a step, one by one. *)
Lemma release_fold cs m r :
  (forall x, x ∈ cs -> count (String.eqb x) cs <= default 0 (dget x m)) ->
  exists m' new, foldl release (m, r) cs = (m', r ++ new) /\ NoDup new /\
    (forall x, dget x m' = if decide (x ∈ cs) then Some (default 0 (dget x m) - count (String.eqb x) cs)
                           else dget x m) /\
    (forall x, x ∈ new <-> x ∈ cs /\ default 0 (dget x m) = count (String.eqb x) cs).
Proof using.
  clear Hwf es. revert m r. induction cs as [|c cs IH]; intros m r Hocc.
  - exists m, []. cbn. rewrite app_nil_r. split_and!; [done|constructor|done|].
    intros x. rewrite elem_of_nil. naive_solver.
  - cbn [foldl release]. set (n := default 0 (dget c m) - 1).
    assert (forall x, default 0 (dget x (dset c n m)) = if decide (c = x) then n else default 0 (dget x m)) as Hd.
    { intros x. rewrite dget_dset. by case_decide. }
    assert (forall x, count (String.eqb x) (c :: cs) = (if decide (c = x) then 1 else 0) + count (String.eqb x) cs) as Hc.
    { intros x. rewrite count_cons. destruct (String.eqb_spec x c), (decide (c = x)); congruence. }
    pose proof (Hocc c ltac:(by left)) as Hoc. rewrite Hc, decide_True in Hoc by done.
    destruct (IH (dset c n m) (if n =? 0 then r ++ [c] else r)) as (m' & new & Hf & Hnd & Hm & Hnew).
    { intros x Hx. rewrite Hd. specialize (Hocc x ltac:(by right)). rewrite Hc in Hocc.
      case_decide; subst; lia. }
    exists m', ((if n =? 0 then [c] else []) ++ new). split_and!.
    + rewrite Hf. f_equal. destruct (n =? 0); [by rewrite <- app_assoc|done].
    + destruct (Nat.eqb_spec n 0) as [Hn|]; [|done]. apply NoDup_app.
      split; [apply NoDup_singleton|]. split; [|done]. intros x ->%list_elem_of_singleton [Hin Hx]%Hnew.
      rewrite Hd, decide_True in Hx by done. rewrite Hn in Hx. symmetry in Hx.
      apply list_elem_of_split in Hin as (l1 & l2 & ->). rewrite count_app, count_cons, String.eqb_refl in Hx. lia.
    + intros x. rewrite Hm, Hd, Hc. destruct (decide (x ∈ cs)) as [Hin|Hin].
      * destruct (decide (x ∈ c :: cs)); [|set_solver]. f_equal. case_decide; subst; lia.
      * destruct (decide (c = x)) as [->|Hne].
        -- destruct (decide (x ∈ x :: cs)); [|set_solver]. rewrite dget_dset_eq. f_equal. subst n.
           rewrite (count_zero (String.eqb x) cs); [lia|]. intros y Hy. apply String.eqb_neq. by intros ->.
        -- destruct (decide (x ∈ c :: cs)); [set_solver|]. by apply dget_dset_ne.
    + intros x. rewrite elem_of_app, Hnew, Hd, Hc, elem_of_cons.
      destruct (decide (c = x)) as [->|Hne].
      * destruct (decide (x ∈ cs)) as [Hin|Hin].
        -- destruct (Nat.eqb_spec n 0) as [Hn|Hn].
           ++ split; [intros _|intros _; left; by left]. split; [by left|].
              assert (count (String.eqb x) cs <> 0); [|lia].
              apply list_elem_of_split in Hin as (l1 & l2 & ->). rewrite count_app, count_cons, String.eqb_refl. lia.
           ++ split; [intros [?%elem_of_nil|[_ Hx]]; [done|]; split; [by left|lia]|].
              intros [_ Hx]. right. split; [done|lia].
        -- rewrite (count_zero (String.eqb x) cs) by (intros y Hy; apply String.eqb_neq; by intros ->).
           destruct (Nat.eqb_spec n 0) as [Hn|Hn].
           ++ split; [|intros _; left; by left]. intros _. split; [by left|lia].
           ++ split; [intros [?%elem_of_nil|[? _]]; done|]. intros [_ Hx]. lia.
      * split.
        -- intros [Hx|[Hin Hx]]; [|by auto]. destruct (n =? 0); [apply list_elem_of_singleton in Hx; congruence|].
           by apply elem_of_nil in Hx.
        -- intros [[?|Hin] Hx]; [congruence|]. by right.
Qed.

Let le := by_index ss.

Lemma le_total x y : le x y = true \/ le y x = true.
Proof using. unfold le, by_index. rewrite !Nat.leb_le. lia. Qed.

Lemma le_trans x y z : le x y = true -> le y z = true -> le x z = true.
Proof using. unfold le, by_index. rewrite !Nat.leb_le. lia. Qed.

Definition occurs (cur x : string) : nat := count (fun e => String.eqb e.2 x && String.eqb e.1 cur) es.

Lemma count_children cur x : count (String.eqb x) (sort_by le (dependents_in es cur)) = occurs cur x.
Proof using.
  clear Hwf.
  rewrite (count_perm _ _ _ (sort_by_perm le _)). unfold dependents_in, occurs.
  induction es as [|[d y] l IH]; [done|]. rewrite count_cons. cbn [List.filter fst snd].
  destruct (String.eqb d cur); [|by rewrite andb_false_r]. cbn [map]. rewrite count_cons, IH, andb_true_r. cbn.
  by rewrite (String.eqb_sym x y).
Qed.

Lemma waiting_step ordered cur x :
  cur ∉ ordered -> waiting es ordered x = waiting es (ordered ++ [cur]) x + occurs cur x.
Proof using.
  clear Hwf.
  intros Hcur. unfold waiting, occurs. induction es as [|[d y] l IH]; [done|]. rewrite !count_cons, IH. cbn [fst snd].
  destruct (String.eqb y x); cbn [andb]; [|lia].
  destruct (String.eqb_spec d cur) as [->|Hne].
  - rewrite (bool_decide_false _ Hcur), bool_decide_true by set_solver. cbn. lia.
  - replace (bool_decide (d ∈ ordered ++ [cur])) with (bool_decide (d ∈ ordered)); [lia|].
    apply bool_decide_ext. set_solver.
Qed.

Lemma waiting_mono l k x : (forall y, y ∈ l -> y ∈ k) -> waiting es k x <= waiting es l x.
Proof using.
  clear Hwf.
  intros Hlk. apply count_le. intros [d y] _ He. breflect. cbn in *. apply andb_true_iff. split; [done|].
  apply negb_true_iff, bool_decide_eq_false. auto.
Qed.

Lemma waiting_zero l x : waiting es l x = 0 <-> forall d, (d, x) ∈ es -> d ∈ l.
Proof using.
  clear Hwf.
  split.
  - intros H0 d Hd. destruct (decide (d ∈ l)) as [|Hn]; [done|]. exfalso.
    assert (0 < waiting es l x); [|lia]. eapply count_pos; [exact Hd|]. cbn.
    by rewrite String.eqb_refl, (bool_decide_false _ Hn).
  - intros Hall. apply count_zero. intros [d y] Hd. cbn. destruct (String.eqb_spec y x) as [->|]; [|done].
    cbn. by rewrite bool_decide_true by by apply Hall.
Qed.

(** Each step came with its dependencies done, and before every other such. *)
Definition stable (ordered : list string) : Prop :=
  forall pre x post, ordered = pre ++ x :: post ->
    waiting es pre x = 0 /\ forall y, y ∈ ids ss -> y ∉ pre -> waiting es pre y = 0 -> le x y = true.

Record kahn_inv (ind : list (string * nat)) (ready ordered : list string) : Prop := {
  ki_nodup : NoDup ordered;
  ki_ids : forall x, x ∈ ordered -> x ∈ ids ss;
  ki_ind : forall x, x ∈ ids ss -> dget x ind = Some (waiting es ordered x);
  ki_ready_nodup : NoDup ready;
  ki_ready : forall x, x ∈ ready <-> x ∈ ids ss /\ x ∉ ordered /\ waiting es ordered x = 0;
  ki_sorted : StronglySorted (fun a b => le a b = true) ready;
  ki_stable : stable ordered;
}.

Lemma stable_waiting ordered x : stable ordered -> x ∈ ordered -> waiting es ordered x = 0.
Proof using.
  clear Hwf.
  intros Hs (pre & post & ->)%list_elem_of_split. destruct (Hs pre x post eq_refl) as [Hx _].
  pose proof (waiting_mono pre (pre ++ x :: post) x ltac:(set_solver)). lia.
Qed.

Lemma stable_snoc ordered cur :
  stable ordered -> waiting es ordered cur = 0 ->
  (forall y, y ∈ ids ss -> y ∉ ordered -> waiting es ordered y = 0 -> le cur y = true) ->
  stable (ordered ++ [cur]).
Proof using.
  clear Hwf.
  intros Hs Hcur Hmin pre x post Heq. destruct (decide (post = [])) as [->|Hpost].
  - apply app_inj_tail in Heq as [-> ->]. done.
  - destruct (exists_last Hpost) as (post' & z & ->).
    rewrite app_comm_cons, app_assoc in Heq. apply app_inj_tail in Heq as [-> _]. by apply (Hs pre x post').
Qed.

(** One turn of the loop. *)
Lemma kahn_turn ind cur rest ordered :
  kahn_inv ind (cur :: rest) ordered ->
  exists ind' new, foldl release (ind, rest) (sort_by le (dependents_in es cur)) = (ind', rest ++ new) /\
    kahn_inv ind' (sort_by le (rest ++ new)) (ordered ++ [cur]).
Proof using Hwf.
  intros [Hnd Hids Hind Hrnd Hready Hsort Hst].
  assert (forall x, x ∈ ordered ++ [cur] <-> x ∈ ordered \/ x = cur) as Happ
    by (intros x; by rewrite elem_of_app, list_elem_of_singleton).
  assert (cur ∈ ids ss /\ cur ∉ ordered /\ waiting es ordered cur = 0) as (Hc1 & Hc2 & Hc3)
    by (apply Hready; by left).
  apply NoDup_cons in Hrnd as [Hcr Hrnd].
  assert (forall x, x ∈ sort_by le (dependents_in es cur) -> x ∈ ids ss) as Hch.
  { intros x. rewrite sort_by_perm. unfold dependents_in. rewrite list_elem_of_In.
    intros ([d y] & <- & [Hin _]%List.filter_In)%List.in_map_iff.
    apply list_elem_of_In in Hin. by apply edge_ends in Hin as [_ ?]. }
  assert (forall x, x ∈ sort_by le (dependents_in es cur) <-> occurs cur x <> 0) as Hocc.
  { intros x. rewrite <- count_children. split.
    - intros Hx. assert (0 < count (String.eqb x) (sort_by le (dependents_in es cur))); [|lia].
      eapply count_pos; [exact Hx|apply String.eqb_refl].
    - intros Hne. destruct (decide (x ∈ sort_by le (dependents_in es cur))) as [|Hn]; [done|].
      exfalso. apply Hne, count_zero. intros y Hy. apply String.eqb_neq. by intros ->. }
  assert (forall x, waiting es ordered x = waiting es (ordered ++ [cur]) x + occurs cur x) as Hw
    by (intros; by apply waiting_step).
  destruct (release_fold (sort_by le (dependents_in es cur)) ind rest) as (ind' & new & Hf & Hnn & Hm & Hnew).
  { intros x Hx. rewrite (Hind x) by auto. rewrite count_children, Hw. cbn. lia. }
  exists ind', new. split; [done|].
  assert (forall x, x ∈ new <-> occurs cur x <> 0 /\ waiting es (ordered ++ [cur]) x = 0) as Hnew'.
  { intros x. rewrite Hnew, Hocc, count_children. split; intros [Ho Hx]; (split; [done|]).
    - rewrite (Hind x) in Hx by (by apply Hch, Hocc). cbn in Hx. pose proof (Hw x). lia.
    - rewrite (Hind x) by (by apply Hch, Hocc). cbn. pose proof (Hw x). lia. }
  assert (forall x, occurs cur x <> 0 -> x ∉ ordered /\ x <> cur) as Hfresh.
  { intros x Ho. pose proof (Hw x). split; [intros Hx%(stable_waiting _ _ Hst)|intros ->]; lia. }
  split.
  - apply NoDup_app. split_and!; [done| |apply NoDup_singleton].
    intros x Hx ->%list_elem_of_singleton. done.
  - intros x [Hx| ->]%Happ; auto.
  - intros x Hx. rewrite Hm, count_children, (Hind x Hx). pose proof (Hw x). cbn.
    case_decide as Hd; [f_equal; lia|]. rewrite Hocc in Hd. f_equal. lia.
  - rewrite sort_by_perm. apply NoDup_app. split_and!; [done| |done].
    intros x Hx [Ho _]%Hnew'. assert (x ∈ cur :: rest) as (_ & _ & H0)%Hready by by right.
    pose proof (Hw x). lia.
  - intros x. rewrite sort_by_perm, elem_of_app, Hnew'. split.
    + intros [Hx|[Ho Hz]].
      * assert (x ∈ cur :: rest) as (H1 & H2 & H3)%Hready by by right. pose proof (Hw x).
        split_and!; [done|rewrite Happ; intros [?| ->]; done|lia].
      * destruct (Hfresh x Ho). split_and!; [by apply Hch, Hocc|rewrite Happ; by intros [?| ->]|done].
    + intros (Hx & Hn & Hz). destruct (decide (occurs cur x = 0)) as [Ho|Ho]; [left|by right].
      rewrite Happ in Hn. assert (x ∈ cur :: rest) as [->|?]%elem_of_cons; [|by destruct Hn; right|done].
      apply Hready. pose proof (Hw x). split_and!; [done|by intros ?; apply Hn; left|lia].
  - apply sort_by_sorted; [apply le_total|apply le_trans].
  - apply stable_snoc; [done|done|]. intros y Hy Hyo Hyw.
    assert (y ∈ cur :: rest) as [->|Hin]%elem_of_cons by by apply Hready.
    + destruct (le_total cur cur); done.
    + inversion Hsort as [|? ? _ Hall]; subst. rewrite Forall_forall in Hall. by apply Hall.
Qed.

Lemma kahn_inv_full ind ready ordered :
  kahn_inv ind ready ordered -> length ordered = length ss -> forall x, x ∈ ids ss -> x ∈ ordered.
Proof using Hwf.
  intros Hi Hlen x Hx. apply list_elem_of_In.
  apply (List.NoDup_length_incl (l := ordered) (l' := ids ss)).
  - apply NoDup_ListNoDup, (ki_nodup _ _ _ Hi).
  - unfold ids. rewrite length_map. lia.
  - intros y Hy. apply list_elem_of_In, (ki_ids _ _ _ Hi). by apply list_elem_of_In.
  - by apply list_elem_of_In.
Qed.

(** The loop ends with a stable order that no step can extend. *)
Lemma kahn_ends dp fuel ind ready ordered :
  (forall x, x ∈ ids ss -> dget x dp = Some (dependents_in es x)) ->
  kahn_inv ind ready ordered -> fuel + length ordered = length ss ->
  let out := kahn fuel le dp ind ready ordered in
  NoDup out /\ stable out /\ (forall x, x ∈ out -> x ∈ ids ss) /\
  forall x, x ∈ ids ss -> x ∉ out -> waiting es out x <> 0.
Proof using Hwf.
  intros Hdp. revert ind ready ordered. induction fuel as [|fuel IH]; intros ind ready ordered Hi Hlen.
  - pose proof (kahn_inv_full _ _ _ Hi Hlen) as Hfull. destruct Hi. cbn. split_and!; try done.
    intros x Hx Hn. by apply Hfull in Hx.
  - cbn [kahn]. destruct ready as [|cur rest].
    + destruct Hi as [H1 H2 _ _ H5 _ H7]. cbn. split_and!; try done. intros x Hx Hn Hw.
      assert (x ∈ []) as []%elem_of_nil by by apply H5.
    + destruct (kahn_turn _ _ _ _ Hi) as (ind' & new & Hf & Hi').
      assert (cur ∈ ids ss) as Hcur by (apply (ki_ready _ _ _ Hi); by left).
      rewrite (Hdp cur Hcur). change (default [] (Some (dependents_in es cur))) with (dependents_in es cur).
      cbv zeta. rewrite Hf. apply IH; [done|]. rewrite length_app. cbn. lia.
Qed.

Lemma waiting_nil x : waiting es [] x = indegree_in es x.
Proof using. apply count_ext. intros [d y] _. cbn. by rewrite andb_true_r. Qed.

Lemma kahn_start dp ind :
  edge_inv es (dp, ind) -> NoDup (dkeys ind) -> (forall x, x ∈ dkeys ind <-> x ∈ ids ss) ->
  kahn_inv ind (sort_by le (map fst (List.filter (fun e => e.2 =? 0) ind))) [].
Proof using Hwf.
  intros Hinv Hnd Hkeys.
  assert (forall x, x ∈ ids ss -> dget x ind = Some (waiting es [] x)) as Hind.
  { intros x Hx. rewrite waiting_nil. by apply Hinv. }
  split; try done.
  - constructor.
  - by intros x ?%elem_of_nil.
  - rewrite sort_by_perm. clear -Hnd. induction ind as [|[k n] ind IH]; [constructor|].
    cbn [dkeys map] in Hnd. apply NoDup_cons in Hnd as [Hk Hnd]. cbn [List.filter snd].
    destruct (n =? 0); [|by apply IH]. cbn [map fst]. apply NoDup_cons. split; [|by apply IH].
    intros ([k' n'] & Heq & [Hin _]%List.filter_In)%list_elem_of_In%List.in_map_iff. cbn in Heq. subst k'.
    apply Hk. apply list_elem_of_In, List.in_map_iff. by exists (k, n').
  - intros x. rewrite sort_by_perm, list_elem_of_In, List.in_map_iff. split.
    + intros ([k n] & <- & [Hin Hn]%List.filter_In). cbn in *. apply Nat.eqb_eq in Hn as ->.
      apply list_elem_of_In in Hin. pose proof (elem_dget _ _ _ Hnd Hin) as Hg.
      assert (k ∈ ids ss) as Hk by (apply Hkeys, dget_is_Some_keys; by eexists).
      rewrite (Hind k Hk) in Hg. split_and!; [done|by intros ?%elem_of_nil|congruence].
    + intros (Hx & _ & Hw). exists (x, 0). split; [done|]. apply List.filter_In. split; [|done].
      apply list_elem_of_In, dget_Some_elem. by rewrite Hind, Hw.
  - apply sort_by_sorted; [apply le_total|apply le_trans].
  - intros pre x post Heq. by destruct pre.
Qed.

Lemma find_step_id s : s ∈ ss -> find_step ss (step_id s) = Some s.
Proof using Hwf. intros Hs. apply (dget_by_id (fun s => s)); [apply Hwf|done]. Qed.

Lemma omap_find l : (forall x, x ∈ l -> x ∈ ids ss) -> ids (omap (find_step ss) l) = l.
Proof using Hwf.
  induction l as [|x l IH]; intros Hl; [done|]. cbn [omap list_omap].
  assert (x ∈ ids ss) as (s & Hs & <-)%elem_of_ids by (apply Hl; by left).
  rewrite find_step_id by done. cbn. f_equal. apply IH. intros y Hy. apply Hl. by right.
Qed.

Lemma omap_find_perm l : l ≡ₚ ids ss -> omap (find_step ss) l ≡ₚ ss.
Proof using Hwf.
  intros ->. assert (forall k, (forall s, s ∈ k -> s ∈ ss) -> omap (find_step ss) (ids k) = k) as Hk.
  { induction k as [|s k IH]; intros Hk; [done|]. cbn. rewrite find_step_id by (apply Hk; by left).
    f_equal. apply IH. intros t Ht. apply Hk. by right. }
  by rewrite Hk.
Qed.

(** The order of a validated definition. *)
Lemma ordered_ids :
  (forall x, x ∈ ids ss -> Acc (needs ss) x) ->
  exists out, (forall d, steps d = ss -> topological_order d = Ok (omap (find_step ss) out)) /\
    out ≡ₚ ids ss /\ stable out.
Proof using Hwf.
  intros Hacc. destruct edges_ok as (dp & ind & He & Hinv & Hnd & Hkeys).
  pose proof (kahn_start dp ind Hinv Hnd Hkeys) as Hi.
  destruct (kahn_ends dp (length ss) ind _ [] (fun x Hx => proj1 (Hinv x Hx)) Hi) as (Hond & Hst & Hsub & Hout);
    [cbn; lia|].
  set (out := kahn _ _ _ _ _ _) in *. exists out.
  assert (forall x, x ∈ ids ss -> x ∈ out) as Hall.
  { intros x Hx. specialize (Hacc x Hx). induction Hacc as [x _ IH].
    destruct (decide (x ∈ out)) as [|Hn]; [done|]. exfalso. apply (Hout x Hx Hn).
    apply waiting_zero. intros d Hd. apply IH; [by apply elem_of_edges|]. by apply edge_ends in Hd as []. }
  assert (out ≡ₚ ids ss) as Hperm.
  { apply NoDup_Permutation; [done|apply Hwf|]. intros x. split; auto. }
  split; [|done]. intros d Hd. unfold topological_order. rewrite Hd, He. cbn [mbind result_bind].
  fold le out. assert (length out = length ss) as -> by (rewrite Hperm; apply length_map).
  by rewrite Nat.eqb_refl.
Qed.
End Kahn.

(** [index] is the position of declaration. *)
Lemma fold_index_other (ps : list (nat * WorkflowStep)) d x :
  x ∉ map (fun p => step_id p.2) ps -> dget x (foldl (fun d p => dset (step_id p.2) p.1 d) d ps) = dget x d.
Proof.
  revert d. induction ps as [|p ps IH]; intros d; [done|]. cbn [map foldl]. intros [Hp Hps]%not_elem_of_cons.
  rewrite IH by done. by apply dget_dset_ne.
Qed.

Lemma fold_index (ps : list (nat * WorkflowStep)) d i s :
  NoDup (map (fun p => step_id p.2) ps) -> (i, s) ∈ ps ->
  dget (step_id s) (foldl (fun d p => dset (step_id p.2) p.1 d) d ps) = Some i.
Proof.
  revert d. induction ps as [|p ps IH]; intros d; [by intros _ ?%elem_of_nil|]. cbn [map foldl].
  intros [Hp Hps]%NoDup_cons [<-|Hin]%elem_of_cons; [|by apply IH].
  cbn. rewrite fold_index_other by done. apply dget_dset_eq.
Qed.

Lemma ids_imap (f : nat -> nat) ss : map (fun p => step_id p.2) (imap (fun j s => (f j, s)) ss) = ids ss.
Proof. revert f. induction ss as [|s ss IH]; intros f; [done|]. cbn. f_equal. apply (IH (fun j => f (S j))). Qed.

Lemma index_of_lookup ss i s : NoDup (ids ss) -> ss !! i = Some s -> index_of ss (step_id s) = i.
Proof.
  intros Hnd Hi. unfold index_of, step_index. rewrite (fold_index _ _ i s); [done| |].
  - by rewrite (ids_imap (fun j => j)).
  - apply elem_of_lookup_imap. by exists i, s.
Qed.

Definition ready_after (pre : list WorkflowStep) (s : WorkflowStep) : Prop :=
  forall d, d ∈ depends_on s -> d ∈ ids pre.

(** A stable order, in terms of the steps themselves. *)
Definition stable_order (ss order : list WorkflowStep) : Prop :=
  order ≡ₚ ss /\
  forall pre s post, order = pre ++ s :: post ->
    ready_after pre s /\
    forall t i j, t ∈ post -> ready_after pre t -> ss !! i = Some s -> ss !! j = Some t -> i < j.

Lemma waiting_ready ss pre s :
  NoDup (ids ss) -> s ∈ ss -> waiting (edge_list ss) pre (step_id s) = 0 <-> (forall d, d ∈ depends_on s -> d ∈ pre).
Proof.
  intros Hnd Hs. rewrite waiting_zero. split.
  - intros Hall d Hd. apply Hall, elem_of_edges. by exists s.
  - intros Hall d (s' & Hs' & Hid & Hd)%elem_of_edges.
    pose proof (find_unique ss s Hnd Hs) as H1. pose proof (find_unique ss s' Hnd Hs') as H2.
    rewrite Hid in H2. rewrite H1 in H2. injection H2 as ->. by apply Hall.
Qed.

Lemma stable_steps ss out :
  well_formed ss -> out ≡ₚ ids ss -> stable ss out -> stable_order ss (omap (find_step ss) out).
Proof.
  intros Hwf Hperm Hst. pose proof (omap_find_perm ss Hwf out Hperm) as Hp.
  assert (ids (omap (find_step ss) out) = out) as Hids.
  { apply omap_find; [done|]. intros x. by rewrite Hperm. }
  split; [done|]. intros pre s post Heq. rewrite Heq in Hids, Hp. unfold ids in Hids at 1.
  rewrite map_app in Hids. cbn [map] in Hids. fold (ids pre) (ids post) in Hids.
  destruct (Hst (ids pre) (step_id s) (ids post) (eq_sym Hids)) as [Hw Hmin].
  assert (forall t, t ∈ pre ++ s :: post -> t ∈ ss) as Hin by (intros t; by rewrite Hp).
  split.
  - refine (proj1 (waiting_ready ss (ids pre) s (proj1 Hwf) (Hin s _)) Hw). set_solver.
  - intros t i j Ht Hrt Hi Hj. assert (t ∈ ss) as Hts by (apply Hin; set_solver).
    assert (NoDup (ids pre ++ step_id s :: ids post)) as Hnd by (rewrite Hids, Hperm; apply Hwf).
    apply NoDup_app in Hnd as (_ & Hdis & Hnd). apply NoDup_cons in Hnd as [Hsp _].
    assert (step_id t ∈ ids post) as Htp by by apply step_in_ids.
    assert (i <= j).
    { rewrite <- (index_of_lookup ss i s), <- (index_of_lookup ss j t) by (done || apply Hwf).
      apply Nat.leb_le. apply Hmin; [by apply step_in_ids| |].
      - intros Hpre. apply (Hdis _ Hpre). by right.
      - exact (proj2 (waiting_ready ss (ids pre) t (proj1 Hwf) Hts) Hrt). }
    assert (i <> j); [|lia]. intros ->. rewrite Hi in Hj. injection Hj as ->. done.
Qed.

Lemma topological_order_stable d :
  validate_dag d = Ok tt -> exists order, topological_order d = Ok order /\ stable_order (steps d) order.
Proof.
  intros (Hwf & _ & Hacc)%validate_dag_acc.
  destruct (ordered_ids (steps d) Hwf Hacc) as (out & Ho & Hperm & Hst).
  exists (omap (find_step (steps d)) out). split; [by apply Ho|]. by apply stable_steps.
Qed.

(** A validated definition has a topological order: the loop ends with
    every step exactly once, each after all its dependencies, and whenever
    several steps could come next the one declared first does. *)
Theorem topological_order_spec d :
  validate_dag d = Ok tt ->
  exists order, topological_order d = Ok order /\ order ≡ₚ steps d /\
    forall pre s post, order = pre ++ s :: post ->
      (forall dep, dep ∈ depends_on s -> dep ∈ map step_id pre) /\
      forall t i j, t ∈ post -> (forall dep, dep ∈ depends_on t -> dep ∈ map step_id pre) ->
        steps d !! i = Some s -> steps d !! j = Some t -> i < j.
Proof. intros (order & Ho & Hp & Hs)%topological_order_stable. by exists order. Qed.

(** ** Samples *)

Example sample_order : map step_id <$> match topological_order sample_dag with Ok o => Some o | Err _ => None end =
  Some ["a"; "c"; "b"; "d"]%string.
Proof. vm_compute. reflexivity. Qed.

Example sample_cycle :
  validate_dag (mk_WorkflowDefinition "wf" "1.0.0" [sample_step "a" ["b"]; sample_step "b" ["a"]]%string) = Err ValueError.
Proof. vm_compute. reflexivity. Qed.

Lemma topological_order_spec_witness :
  exists order, topological_order sample_dag = Ok order /\ order ≡ₚ steps sample_dag.
Proof.
  destruct (topological_order_spec sample_dag) as (order & Ho & Hp & _); [vm_compute; reflexivity|].
  by exists order.
Defined.
