(* ===== verification/WfExecutor.v ===== *)
(** * The workflow executor

    [src/agency/workflows/executor.py] and the lock of [recovery.py].  An
    operation callback reads the inputs and the outputs so far and runs in a
    world of its own ([World]), where it returns a value or raises; the
    authoriser answers or raises.  [commits] is how many more statements SQLite
    commits before it fails or the process dies, so that running out of it is a
    crash at that point; a [None] never ends.  [invoked] is a history of the
    step ids whose operation was called, newest first; the code does not keep
    it.  [held] tells that a live worker has the lock file. *)
From S2P Require Import Prelude PyStr PyDict PyJson Sha256 WfRegistry WfDag.

(** [_sanitize_error]: the exception's type name. *)
Definition exn_type_name (e : exn) : string :=
  match e with
  | ValueError => "ValueError" | TypeError => "TypeError" | KeyError => "KeyError"
  | RuntimeError => "RuntimeError" | OverflowError => "OverflowError"
  | IntegrityError => "IntegrityError" | SqliteError => "OperationalError"
  | BudgetUnavailable => "BudgetUnavailable" | PilotError _ _ _ => "PilotError"
  | CallbackError name => name
  end.

(** [_check_actor] *)
Definition check_actor (a : string) : result string :=
  _ ← raise_if (is_blank a) ValueError;
  _ ← raise_if (256 <? py_len a)%Z ValueError;
  Ok a.

(** [_check_inputs], on a dict. *)
Definition check_inputs (inputs : list (string * json)) : result json :=
  _ ← dumps_bounded (JObj inputs) MAX_JSON_BYTES; Ok (JObj inputs).

Definition outputs : Type := (list (string * json)).

Section Executor.
Context {World : Type}.

Definition Operation := json -> outputs -> py World json.

(** [WorkflowExecutor] *)
Record WorkflowExecutor := mk_Executor {
  operations : list (string * Operation);
  authorizer : option (string -> string -> result bool);
  replay_safe : list string;
  operation_versions : list (string * string);
}.

Definition new_executor ops auth safe versions : result WorkflowExecutor :=
  _ ← raise_if (existsb (fun n => negb (bool_decide (n ∈ dkeys ops))) safe) ValueError;
  Ok (mk_Executor ops auth safe versions).

(** What the executor acts on. *)
Record Sys := mk_Sys {
  registry : WorkflowRegistry;
  world : World;
  commits : option nat;
  clock : nat;
  invoked : list string;
}.

Definition set_registry (r : WorkflowRegistry) (s : Sys) : Sys :=
  mk_Sys r (world s) (commits s) (clock s) (invoked s).
Definition set_commits (c : option nat) (s : Sys) : Sys :=
  mk_Sys (registry s) (world s) c (clock s) (invoked s).

Context (utcnow : nat -> string).

(** [_utcnow_iso()] *)
Definition now : py Sys string := fun s =>
  (Ok (utcnow (clock s)), mk_Sys (registry s) (world s) (commits s) (S (clock s)) (invoked s)).

(** A registry operation that commits one statement. *)
Definition committing {A} (m : bool -> py WorkflowRegistry A) : py Sys A := fun s =>
  let ok := match commits s with Some 0 => false | _ => true end in
  let '(r, reg') := m ok (registry s) in
  (r, set_commits (Nat.pred <$> commits s) (set_registry reg' s)).

(** A registry operation that only reads. *)
Definition reading {A} (m : py WorkflowRegistry A) : py Sys A := fun s =>
  let '(r, reg') := m (registry s) in (r, set_registry reg' s).

(** The call of a step's operation. *)
Definition invoke (sid : string) (op : Operation) (inputs : json) (prev : outputs) : py Sys json := fun s =>
  let '(r, w') := op inputs prev (world s) in
  (r, mk_Sys (registry s) w' (commits s) (clock s) (sid :: invoked s)).

Context (ex : WorkflowExecutor).

(** [_is_allowed] / [_strict_allowed] *)
Definition is_allowed (actor permission : string) : bool :=
  match authorizer ex with
  | None => false
  | Some auth => match auth actor permission with Ok b => b | Err _ => false end
  end.

(** The first permission the actor is denied. *)
Definition denied_permission (actor : string) (step : WorkflowStep) : option string :=
  List.find (fun p => negb (is_allowed actor p)) (permissions step).

Definition failed (error : string) : StepResult := mk_StepResult step_failed JNull (Some error).
Definition refused : StepResult :=
  mk_StepResult step_refused JNull (Some "replay refused: not replay-safe"%string).
Definition started : StepResult := mk_StepResult step_running JNull None.
Definition succeeded (output : json) : StepResult := mk_StepResult step_ok output None.

(** [_snapshot_output] and its inline copy in [run]: the JSON round trip of
    what the callback returned, or the error text. *)
Definition snapshot_output (output : json) : json + string :=
  match dumps output with
  | Err _ => inr ("non-JSON-serializable output: " +:+ type_name_of output)%string
  | Ok text => if (MAX_JSON_BYTES <? utf8_len text)%Z then inr "step output exceeds 65536 bytes"%string
               else inl (canon output)
  end.

(** ** [run] *)

(** Why the loop of [run] stops at a step, if it does before the callback. *)
Definition refuse_step (actor : string) (step : WorkflowStep) : option string :=
  match dget (operation step) (operations ex) with
  | None => Some ("unknown operation: " +:+ operation step)%string
  | Some _ => match denied_permission actor step with
              | Some p => Some ("permission denied: " +:+ p)%string
              | None => None
              end
  end.

(** The callback's outcome, recorded: the snapshot or the error text. *)
Definition call_step (step : WorkflowStep) (inputs : json) (prev : outputs) : py Sys (json + string) := fun s =>
  match dget (operation step) (operations ex) with
  | None => (Err KeyError, s)
  | Some op =>
      match invoke (step_id step) op inputs prev s with
      | (Err e, s') => (Ok (inr (exn_type_name e)), s')
      | (Ok output, s') => (Ok (snapshot_output output), s')
      end
  end.

(** The loop of [run]: the results and whether a step failed. *)
Fixpoint run_steps (actor : string) (inputs : json) (order : list WorkflowStep)
    (rs : results) (prev : outputs) : py Sys (results * bool) :=
  match order with
  | [] => mret (rs, false)
  | step :: rest =>
      match refuse_step actor step with
      | Some error => mret (dset (step_id step) (failed error) rs, true)
      | None =>
          r ← call_step step inputs prev;
          match r with
          | inr error => mret (dset (step_id step) (failed error) rs, true)
          | inl snapshot => run_steps actor inputs rest (dset (step_id step) (succeeded snapshot) rs)
                              (dset (step_id step) snapshot prev)
          end
      end
  end.

(** [run] *)
Definition run (uuid : string) (wid ver : string) (inputs : list (string * json)) (actor_id_ : string)
    : py Sys WorkflowRun :=
  actor ← lift (check_actor actor_id_);
  safe_inputs ← lift (check_inputs inputs);
  definition ← reading (get_definition wid ver);
  order ← lift (topological_order definition);
  created ← now;
  pending ← lift (new_run (mk_WorkflowRun uuid wid ver actor PENDING [] created None));
  _ ← committing (fun ok => record_run ok pending);
  running ← lift (new_run (mk_WorkflowRun uuid wid ver actor RUNNING [] created None));
  _ ← committing (fun ok => record_run ok running);
  outcome ← run_steps actor safe_inputs order [] [];
  completed ← now;
  final ← lift (new_run (mk_WorkflowRun uuid wid ver actor (if (outcome : results * bool).2 then FAILED else COMPLETED)
                           outcome.1 created (Some completed)));
  _ ← committing (fun ok => record_run ok final);
  mret final.

(** ** Recoverable runs *)

(** [_require_file_db] *)
Definition require_file_db : py Sys unit :=
  p ← gets (fun s => db_path (registry s)); raise_when (String.eqb p ":memory:") ValueError.

(** [_ops_binding] *)
Definition ops_binding (d : WorkflowDefinition) : list (string * string) :=
  foldl (fun b s => dset (operation s) (default ""%string (dget (operation s) (operation_versions ex))) b)
    [] (steps d).

Definition with_status (base : RecoverableRun) (st : RunStatus) (rs : results) (updated : string) : RecoverableRun :=
  mk_RecoverableRun (rr_run_id base) (rr_workflow_id base) (rr_version base) (rr_actor_id base) st rs
    (rr_input_digest base) (rr_definition_digest base) (rr_ops_binding base) (rr_created_at base)
    (Some updated).

(** [_persist_recoverable_state] *)
Definition persist (base : RecoverableRun) (st : RunStatus) (rs : results) : py Sys RecoverableRun :=
  updated ← now;
  record ← lift (new_recoverable (with_status base st rs updated));
  committing (fun ok => record_recoverable_run ok record).

(** Outputs of the steps recorded [ok]. *)
Definition outputs_of (rs : results) : outputs :=
  omap (fun e => if bool_decide (sr_status e.2 = step_ok) then Some (e.1, sr_output e.2) else None) rs.

Definition is_done (rs : results) (sid : string) : bool :=
  match dget sid rs with Some r => bool_decide (sr_status r = step_ok) | None => false end.

Definition replayable (step : WorkflowStep) : bool :=
  dmem (operation step) (operations ex) && bool_decide (operation step ∈ replay_safe ex).

(** The loop of [_execute_remaining], and the COMPLETED record after it. *)
Fixpoint execute_steps (actor : string) (inputs : json) (order : list WorkflowStep)
    (current : RecoverableRun) (rs : results) (prev : outputs) : py Sys RecoverableRun :=
  match order with
  | [] => catch (persist current COMPLETED rs)
            (fun e => _ ← catch (_ ← persist current FAILED rs; mret tt) (fun _ => mret tt); raise e)
  | step :: rest =>
      let sid := step_id step in
      if is_done rs sid then execute_steps actor inputs rest current rs prev
      else if negb (replayable step) then persist current INDETERMINATE (dset sid refused rs)
      else
        match denied_permission actor step with
        | Some p => persist current FAILED (dset sid (failed ("permission denied: " +:+ p)%string) rs)
        | None =>
            current ← persist current RUNNING (dset sid started rs);
            r ← call_step step inputs prev;
            match r with
            | inr error => persist current FAILED (dset sid (failed error) rs)
            | inl snapshot =>
                let rs' := dset sid (succeeded snapshot) rs in
                current ← persist current RUNNING rs';
                execute_steps actor inputs rest current rs' (dset sid snapshot prev)
            end
        end
  end.

(** [_execute_remaining] *)
Definition execute_remaining (order : list WorkflowStep) (inputs : json) (actor : string)
    (stored : RecoverableRun) : py Sys RecoverableRun :=
  execute_steps actor inputs order stored (rr_step_results stored) (outputs_of (rr_step_results stored)).

(** [run_recoverable] *)
Definition run_recoverable (held : bool) (uuid wid ver : string) (inputs : list (string * json))
    (actor_id_ : string) : py Sys RecoverableRun :=
  _ ← require_file_db;
  actor ← lift (check_actor actor_id_);
  safe_inputs ← lift (check_inputs inputs);
  dig ← lift (digest safe_inputs);
  definition ← reading (get_definition wid ver);
  order ← lift (topological_order definition);
  _ ← raise_when held RuntimeError;
  def_digest ← lift (definition_digest definition);
  created ← now;
  first ← lift (new_recoverable (mk_RecoverableRun uuid wid ver actor RUNNING [] dig def_digest
                                   (ops_binding definition) created None));
  current ← committing (fun ok => record_recoverable_run ok first);
  execute_remaining order safe_inputs actor current.

(** Equality of two dicts. *)
Definition dict_eqb (a b : list (string * string)) : bool :=
  forallb (fun e => bool_decide (dget e.1 b = Some e.2)) a &&
  forallb (fun e => bool_decide (dget e.1 a = Some e.2)) b.

(** [resume] *)
Definition resume (held : bool) (rid : string) (inputs : list (string * json)) (actor_id_ : string)
    : py Sys RecoverableRun :=
  _ ← require_file_db;
  _ ← raise_when (is_blank rid) ValueError;
  actor ← lift (check_actor actor_id_);
  safe_inputs ← lift (check_inputs inputs);
  dig ← lift (digest safe_inputs);
  _ ← raise_when held RuntimeError;
  stored ← reading (get_recoverable_run rid);
  _ ← raise_when (negb (String.eqb (rr_input_digest stored) dig)) ValueError;
  _ ← raise_when (negb (String.eqb (rr_actor_id stored) actor)) ValueError;
  definition ← reading (get_definition (rr_workflow_id stored) (rr_version stored));
  def_digest ← lift (definition_digest definition);
  _ ← raise_when (negb (String.eqb def_digest (rr_definition_digest stored))) ValueError;
  _ ← raise_when (negb (dict_eqb (ops_binding definition) (rr_ops_binding stored))) ValueError;
  if bool_decide (rr_status stored = COMPLETED) then mret stored
  else
    _ ← raise_when (negb (bool_decide (rr_status stored = INDETERMINATE))) RuntimeError;
    order ← lift (topological_order definition);
    running ← persist stored RUNNING (rr_step_results stored);
    execute_remaining order safe_inputs actor running.

(** [reconcile] *)
Definition reconcile (held : bool) : py Sys (list RecoverableRun) :=
  _ ← require_file_db;
  _ ← raise_when held RuntimeError;
  crashed ← reading (list_recoverable_runs (Some RUNNING));
  for_each (fun stored =>
    updated ← now;
    marked ← lift (new_recoverable (with_status stored INDETERMINATE (rr_step_results stored) updated));
    committing (fun ok => record_recoverable_run ok marked)) crashed.

(** [inspect_recoverable] *)
Definition inspect_recoverable (rid : string) : py Sys RecoverableRun :=
  _ ← raise_when (is_blank rid) ValueError;
  _ ← require_file_db;
  reading (get_recoverable_run rid).
End Executor.

Arguments WorkflowExecutor : clear implicits.
Arguments Operation : clear implicits.
Arguments Sys : clear implicits.

Section Facts.
Context {World : Type} (utcnow : nat -> string) (ex : WorkflowExecutor World).
Implicit Types (s : Sys World) (rs : results) (prev : outputs).

(** The authorizer's explicit consent. *)
Definition granted (actor permission : string) : Prop :=
  exists auth, authorizer ex = Some auth /\ auth actor permission = Ok true.

(** A step that may be called: its operation exists and its permissions are granted. *)
Definition callable (actor : string) (step : WorkflowStep) : Prop :=
  operation step ∈ dkeys (operations ex) /\ forall p, p ∈ permissions step -> granted actor p.

Lemma is_allowed_granted actor p : is_allowed ex actor p = true -> granted actor p.
Proof.
  unfold is_allowed, granted. destruct (authorizer ex) as [auth|]; [|done].
  destruct (auth actor p) as [[]|] eqn:Ha; [|done|done]. by exists auth.
Qed.

Lemma denied_none actor step :
  denied_permission ex actor step = None -> forall p, p ∈ permissions step -> granted actor p.
Proof.
  intros Hd p Hp. eapply find_none_elem in Hd; [|exact Hp]. by apply is_allowed_granted, negb_false_iff.
Qed.

Lemma refuse_none actor step : refuse_step ex actor step = None -> callable actor step.
Proof.
  unfold refuse_step, callable. rewrite <- dget_is_Some_keys.
  destruct (dget (operation step) (operations ex)); [|done].
  destruct (denied_permission ex actor step) eqn:Hd; [done|]. intros _. split; [done|]. by apply denied_none.
Qed.

(** A call changes nothing but the world and the history. *)
Lemma call_step_run actor step inputs prev s :
  callable actor step ->
  exists r w, call_step ex step inputs prev s =
    (Ok r, mk_Sys (registry s) w (commits s) (clock s) (step_id step :: invoked s)).
Proof.
  intros [[op Hop]%dget_is_Some_keys _]. unfold call_step, invoke. rewrite Hop.
  destruct (op inputs prev (world s)) as [[v|e] w]; cbn; by do 2 eexists.
Qed.

(** ** [run] *)

Definition statuses (rs : results) : list (string * StepStatus) := map (fun e => (e.1, sr_status e.2)) rs.

(** The steps that succeeded, then the one that failed, if any. *)
Definition outcome_of (finished_ rest : list WorkflowStep) : list (string * StepStatus) :=
  map (fun t => (step_id t, step_ok)) finished_ ++
  match rest with [] => [] | t :: _ => [(step_id t, step_failed)] end.

(** The steps called are the ones that succeeded and perhaps the next, and all
    of them were callable. *)
Definition called_of (actor : string) (finished_ rest called : list WorkflowStep) : Prop :=
  (called = finished_ \/ exists t rest', rest = t :: rest' /\ called = finished_ ++ [t]) /\
  forall t, t ∈ called -> callable actor t.

Lemma statuses_dset sid r rs :
  sid ∉ dkeys rs -> statuses (dset sid r rs) = statuses rs ++ [(sid, sr_status r)].
Proof. intros Hn. rewrite dset_absent by done. unfold statuses. by rewrite map_app. Qed.

Lemma run_steps_spec actor inputs order rs prev s :
  NoDup (ids order) -> (forall x, x ∈ ids order -> x ∉ dkeys rs) ->
  exists finished_ rest called rs' s',
    run_steps ex actor inputs order rs prev s = (Ok (rs', negb (bool_decide (rest = []))), s') /\
    order = finished_ ++ rest /\ statuses rs' = statuses rs ++ outcome_of finished_ rest /\
    called_of actor finished_ rest called /\
    registry s' = registry s /\ commits s' = commits s /\ invoked s' = rev (ids called) ++ invoked s.
Proof.
  revert rs prev s. induction order as [|t order IH]; intros rs prev s Hnd Hfresh.
  - exists [], [], [], rs, s. split_and!; try done; [by rewrite app_nil_r|]. split; [by left|].
    by intros ? ?%elem_of_nil.
  - cbn [ids map] in Hnd. apply NoDup_cons in Hnd as [Ht Hnd].
    assert (step_id t ∉ dkeys rs) as Htn by (apply Hfresh; by left). cbn [run_steps].
    destruct (refuse_step ex actor t) as [error|] eqn:Href.
    + exists [], (t :: order), [], (dset (step_id t) (failed error) rs), s.
      split_and!; try done; [by apply statuses_dset|]. split; [by left|]. by intros ? ?%elem_of_nil.
    + apply refuse_none in Href as Hcall. destruct (call_step_run actor t inputs prev s Hcall) as (r & w & Hr).
      unfold mbind, py_bind. rewrite Hr. destruct r as [snapshot|error].
      * destruct (IH (dset (step_id t) (succeeded snapshot) rs) (dset (step_id t) snapshot prev)
                    (mk_Sys (registry s) w (commits s) (clock s) (step_id t :: invoked s)))
          as (fin & rest & called & rs' & s' & Hrun & -> & Hst & [Hcalled Hall] & Hreg & Hcom & Hinv); [done| |].
        { intros x Hx. rewrite elem_of_dkeys_dset. intros [->|Hin]; [done|].
          apply (Hfresh x); [by right|done]. }
        exists (t :: fin), rest, (t :: called), rs', s'. split_and!; try done.
        -- rewrite Hst, statuses_dset, <- app_assoc by done. done.
        -- split.
           ++ destruct Hcalled as [->|(u & rest' & -> & ->)]; [by left|right]. by exists u, rest'.
           ++ intros u [->|Hu]%elem_of_cons; auto.
        -- rewrite Hinv. cbn. by rewrite <- app_assoc.
      * exists [], (t :: order), [t], (dset (step_id t) (failed error) rs),
          (mk_Sys (registry s) w (commits s) (clock s) (step_id t :: invoked s)).
        split_and!; try done; [by apply statuses_dset|]. split; [right; by exists t, order|].
        by intros u ->%list_elem_of_singleton.
Qed.

Lemma reading_run {A} (m : py WorkflowRegistry A) s : reading m s = ((m (registry s)).1, set_registry (m (registry s)).2 s).
Proof. unfold reading. by destruct (m (registry s)). Qed.

Lemma committing_frame {A} (m : bool -> py WorkflowRegistry A) s :
  invoked (committing m s).2 = invoked s /\ world (committing m s).2 = world s.
Proof. unfold committing. by destruct (m _ (registry s)). Qed.

Lemma get_definition_state wid ver r : (get_definition wid ver r).2 = r.
Proof.
  unfold get_definition. unfold_py. destruct (check_id wid); [|done]. destruct (check_version ver); [|done].
  by destruct (def_row wid ver r).
Qed.

Lemma nodup_ids_prefix l k : NoDup (ids (l ++ k)) -> NoDup (ids l).
Proof. unfold ids. rewrite map_app. by intros [? _]%NoDup_app. Qed.

(** C1: [run] fails closed: a run that returns has executed an initial part of
    the stable order, each of its steps ok; it is COMPLETED exactly when that
    part is the whole order, and otherwise FAILED with exactly the next step
    recorded as failed; every operation called was registered and all its
    permissions granted, and none was called twice. *)
Theorem run_fails_closed uuid wid ver inputs actor s final s' d :
  get_definition wid ver (registry s) = (Ok d, registry s) -> validate_dag d = Ok tt ->
  run utcnow ex uuid wid ver inputs actor s = (Ok final, s') ->
  exists order finished_ rest called,
    topological_order d = Ok order /\ order = finished_ ++ rest /\
    statuses (step_results final) = outcome_of finished_ rest /\
    status final = (if decide (rest = []) then COMPLETED else FAILED) /\
    called_of actor finished_ rest called /\
    invoked s' = rev (ids called) ++ invoked s /\ NoDup (ids called).
Proof.
  intros Hget Hval Hrun.
  destruct (topological_order_stable d Hval) as (order & Horder & Hperm & _).
  apply validate_dag_acc in Hval as ([Hnd _] & _).
  assert (NoDup (ids order)) as Hnd' by (unfold ids; rewrite Hperm; done).
  exists order. unfold run in Hrun.
  py_step Hrun a sa Ha. py_step Hrun safe sb Hsafe. clear Hsafe.
  assert (a = actor) as ->.
  { unfold check_actor in Ha. do 2 (apply result_bind_ok in Ha as (? & _ & Ha)). by injection Ha as <-. }
  py_step Hrun d' s0 Hd. rewrite reading_run, Hget in Hd. injection Hd as <- <-.
  py_step Hrun order' sd Ho. assert (order' = order) as -> by congruence.
  py_step Hrun created s1 Hn1. apply (f_equal snd) in Hn1; cbn [snd now] in Hn1. py_step Hrun pending se Hp.
  py_step Hrun r1 s2 Hc1. apply (f_equal snd) in Hc1. cbn [snd] in Hc1.
  py_step Hrun running sf Hr. py_step Hrun r2 s3 Hc2. apply (f_equal snd) in Hc2. cbn [snd] in Hc2.
  py_step Hrun outcome s4 Hloop.
  destruct (run_steps_spec actor safe order [] [] s3 Hnd') as
    (fin & rest & called & rs' & s5 & Hs5 & -> & Hst & Hcalled & _ & _ & Hinv); [by intros ? _ ?%elem_of_nil|].
  rewrite Hs5 in Hloop. injection Hloop as <- <-.
  py_step Hrun completed s6 Hn2. apply (f_equal snd) in Hn2; cbn [snd now] in Hn2. py_step Hrun frec sg Hnew.
  py_step Hrun r3 s7 Hc3. apply (f_equal snd) in Hc3. cbn [snd] in Hc3. injection Hrun as <- <-.
  assert (status frec = (if decide (rest = []) then COMPLETED else FAILED) /\ step_results frec = rs') as [Hs Hres].
  { unfold new_run in Hnew. do 5 (apply result_bind_ok in Hnew as (? & _ & Hnew)). injection Hnew as <-. cbn.
    split; [|done]. by destruct rest. }
  exists fin, rest, called. rewrite Hres. split_and!; try done.
  - rewrite <- Hc3, (proj1 (committing_frame _ _)), <- Hn2. cbn [invoked]. rewrite Hinv.
    by rewrite <- Hc2, (proj1 (committing_frame _ _)), <- Hc1, (proj1 (committing_frame _ _)), <- Hn1.
  - destruct (proj1 Hcalled) as [->|(t & rest' & -> & ->)]; [by eapply nodup_ids_prefix|].
    eapply nodup_ids_prefix. rewrite <- app_assoc. exact Hnd'.
Qed.

(** ** Recoverable runs *)

Lemma persist_invoked base st rs s : invoked (persist utcnow base st rs s).2 = invoked s.
Proof.
  unfold persist, mbind, py_bind, now, lift. cbv beta iota. destruct (new_recoverable _); [|done].
  by rewrite (proj1 (committing_frame _ _)).
Qed.

Lemma complete_invoked current rs s :
  invoked (execute_steps utcnow ex "" JNull [] current rs [] s).2 = invoked s.
Proof.
  cbn [execute_steps]. unfold catch. destruct (persist utcnow current COMPLETED rs s) as [[r|e] s1] eqn:H1;
    pose proof (persist_invoked current COMPLETED rs s) as Hi; rewrite H1 in Hi; cbn in Hi; [done|].
  unfold mbind, py_bind. destruct (persist utcnow current FAILED rs s1) as [[r|e'] s2] eqn:H2;
    pose proof (persist_invoked current FAILED rs s1) as Hi2; rewrite H2 in Hi2; cbn in *; congruence.
Qed.

Definition recorded_ok (rs : results) (sid : string) : Prop :=
  exists r, dget sid rs = Some r /\ sr_status r = step_ok.

(** The steps a loop called, in order: replay-safe, registered and permitted,
    not recorded ok before, and with every earlier step recorded ok or called. *)
Record calls_ok (actor : string) (rs : results) (order called : list WorkflowStep) : Prop := {
  co_sublist : called `sublist_of` order;
  co_safe : forall t, t ∈ called ->
    operation t ∈ replay_safe ex /\ callable actor t /\ ~ recorded_ok rs (step_id t);
  co_earlier : forall pre t post, order = pre ++ t :: post -> t ∈ called ->
    forall u, u ∈ pre -> recorded_ok rs (step_id u) \/ u ∈ called;
}.

Lemma is_done_iff rs sid : is_done rs sid = true <-> recorded_ok rs sid.
Proof.
  unfold is_done, recorded_ok. destruct (dget sid rs) as [r|]; [|naive_solver].
  rewrite bool_decide_eq_true. naive_solver.
Qed.

Lemma replayable_iff step :
  replayable ex step = true <-> operation step ∈ dkeys (operations ex) /\ operation step ∈ replay_safe ex.
Proof.
  unfold replayable, dmem. rewrite andb_true_iff, bool_decide_eq_true, <- dget_is_Some_keys.
  destruct (dget _ _); naive_solver.
Qed.

Lemma calls_ok_nil actor rs order : calls_ok actor rs order [].
Proof. split; [apply sublist_nil_l|by intros ? ?%elem_of_nil|by intros ? ? ? _ ?%elem_of_nil]. Qed.

Lemma recorded_ok_dset sid rs r x : sid <> x -> recorded_ok (dset sid r rs) x <-> recorded_ok rs x.
Proof. intros Hne. unfold recorded_ok. by rewrite dget_dset, decide_False. Qed.

Lemma calls_ok_skip actor rs t order called :
  recorded_ok rs (step_id t) -> calls_ok actor rs order called -> calls_ok actor rs (t :: order) called.
Proof.
  intros Hd [H1 H2 H3]. split; [by constructor|done|]. intros [|u pre] x post [= <- Ho] Hx y Hy.
  - by apply elem_of_nil in Hy.
  - apply elem_of_cons in Hy as [->|Hy]; [by left|]. by eapply H3.
Qed.

Lemma calls_ok_call actor rs t order called r :
  NoDup (ids (t :: order)) -> operation t ∈ replay_safe ex -> callable actor t -> ~ recorded_ok rs (step_id t) ->
  calls_ok actor (dset (step_id t) r rs) order called -> calls_ok actor rs (t :: order) (t :: called).
Proof.
  intros Hnd Hr Hc Hn [H1 H2 H3]. cbn in Hnd. apply NoDup_cons in Hnd as [Ht Hnd].
  assert (forall u, u ∈ order -> recorded_ok (dset (step_id t) r rs) (step_id u) <-> recorded_ok rs (step_id u)) as Hsame.
  { intros u Hu. apply recorded_ok_dset. intros Heq. apply Ht. rewrite Heq. by apply step_in_ids. }
  assert (forall u, u ∈ called -> u ∈ order) as Hsub by (intros u Hu; by eapply elem_of_sublist).
  split.
  - by constructor.
  - intros u [->|Hu]%elem_of_cons; [done|]. destruct (H2 u Hu) as (? & ? & Hd). rewrite Hsame in Hd by auto. done.
  - intros [|v pre] x post [= <- Ho] Hx y Hy; [by apply elem_of_nil in Hy|].
    apply elem_of_cons in Hy as [->|Hy]; [right; by left|].
    assert (x ∈ called) as Hx'.
    { apply elem_of_cons in Hx as [->|]; [|done]. exfalso. apply Ht. apply step_in_ids. rewrite Ho.
      apply elem_of_app. right. by left. }
    destruct (H3 pre x post Ho Hx' y Hy) as [Hd|Hin]; [left|right; by right].
    rewrite Hsame in Hd; [done|]. rewrite Ho. apply elem_of_app. by left.
Qed.

Lemma execute_steps_calls actor inputs order current rs prev s :
  NoDup (ids order) ->
  exists called, invoked (execute_steps utcnow ex actor inputs order current rs prev s).2 = rev (ids called) ++ invoked s /\
    calls_ok actor rs order called.
Proof.
  revert current rs prev s. induction order as [|t order IH]; intros current rs prev s Hnd.
  { exists []. split; [|apply calls_ok_nil]. apply (complete_invoked current rs s). }
  assert (NoDup (ids order)) as Hnd' by (cbn in Hnd; by apply NoDup_cons in Hnd as [_ ?]).
  cbn [execute_steps]. destruct (is_done rs (step_id t)) eqn:Hdone.
  { destruct (IH current rs prev s Hnd') as (called & Hi & Hok). exists called.
    split; [done|]. apply calls_ok_skip; [by apply is_done_iff|done]. }
  destruct (replayable ex t) eqn:Hrep; cbn [negb].
  2: { exists []. split; [by rewrite persist_invoked|apply calls_ok_nil]. }
  destruct (denied_permission ex actor t) as [p|] eqn:Hden.
  { exists []. split; [by rewrite persist_invoked|apply calls_ok_nil]. }
  assert (callable actor t) as Hcall.
  { split; [by apply replayable_iff in Hrep as [? _]|by apply denied_none]. }
  assert (~ recorded_ok rs (step_id t)) as Hnew by (rewrite <- is_done_iff, Hdone; done).
  apply replayable_iff in Hrep as [_ Hrep].
  unfold mbind at 1, py_bind at 1. destruct (persist utcnow current RUNNING _ s) as [[cur|e] s1] eqn:H1;
    pose proof (persist_invoked current RUNNING (dset (step_id t) started rs) s) as Hi1; rewrite H1 in Hi1;
    cbn [snd] in Hi1; [|exists []; split; [done|apply calls_ok_nil]].
  destruct (call_step_run actor t inputs prev s1 Hcall) as (r & w & Hr).
  unfold mbind at 1, py_bind at 1. rewrite Hr. set (s2 := mk_Sys _ _ _ _ _).
  assert (invoked s2 = rev (ids [t]) ++ invoked s) as Hi2 by (cbn; by rewrite Hi1).
  assert (calls_ok actor rs (t :: order) [t]) as Hone.
  { eapply calls_ok_call; [done|done|done|done|]. exact (calls_ok_nil actor (dset (step_id t) refused rs) order). }
  destruct r as [snapshot|error].
  - unfold mbind at 1, py_bind at 1. destruct (persist utcnow cur RUNNING _ s2) as [[cur'|e] s3] eqn:H3;
      pose proof (persist_invoked cur RUNNING (dset (step_id t) (succeeded snapshot) rs) s2) as Hi3;
      rewrite H3 in Hi3; cbn [snd] in Hi3; [|exists [t]; split; [exact (eq_trans Hi3 Hi2)|done]].
    destruct (IH cur' (dset (step_id t) (succeeded snapshot) rs) (dset (step_id t) snapshot prev) s3 Hnd')
      as (called & Hi & Hok).
    exists (t :: called). split; [|by eapply calls_ok_call]. rewrite Hi, Hi3, Hi2. cbn. by rewrite <- app_assoc.
  - exists [t]. by rewrite persist_invoked.
Qed.

Lemma dict_eqb_spec a b : dict_eqb a b = true -> forall op, dget op a = dget op b.
Proof.
  unfold dict_eqb. rewrite andb_true_iff, !forallb_forall. setoid_rewrite bool_decide_eq_true.
  intros [Hab Hba] op.
  destruct (dget op a) as [v|] eqn:Ha.
  - apply dget_Some_elem, list_elem_of_In, Hab in Ha. done.
  - destruct (dget op b) as [v|] eqn:Hb; [|done].
    apply dget_Some_elem, list_elem_of_In, Hba in Hb. cbn in Hb. congruence.
Qed.

(** What [resume] requires of the record, the caller and the executor. *)
Definition resumable (rid : string) (inputs : list (string * json)) (actor : string) (s : Sys World)
    (stored : RecoverableRun) (d : WorkflowDefinition) : Prop :=
  (get_recoverable_run rid (registry s)).1 = Ok stored /\ rr_status stored = INDETERMINATE /\
  digest (JObj inputs) = Ok (rr_input_digest stored) /\ rr_actor_id stored = actor /\
  (get_definition (rr_workflow_id stored) (rr_version stored) (registry s)).1 = Ok d /\
  definition_digest d = Ok (rr_definition_digest stored) /\
  forall op, dget op (ops_binding ex d) = dget op (rr_ops_binding stored).

Lemma reading_pure {A} (m : py WorkflowRegistry A) s :
  (m (registry s)).2 = registry s -> reading m s = ((m (registry s)).1, s).
Proof. intros Hm. rewrite reading_run, Hm. by destruct s. Qed.

Lemma get_recoverable_state rid r : (get_recoverable_run rid r).2 = r.
Proof. unfold get_recoverable_run. unfold_py. destruct (is_blank rid); [done|]. cbn. by destruct (List.find _ _). Qed.

Lemma nodup_ids_sublist l k : l `sublist_of` k -> NoDup (ids k) -> NoDup (ids l).
Proof.
  induction 1 as [|t l k Hs IH|t l k Hs IH]; cbn; [done| |]; intros [Ht Hk]%NoDup_cons; [|by apply IH].
  apply NoDup_cons. split; [|by apply IH]. intros (u & Hu & Heq)%elem_of_ids. apply Ht. rewrite <- Heq.
  apply step_in_ids. by eapply elem_of_sublist.
Qed.

Lemma validated_order d order :
  validate_dag d = Ok tt -> topological_order d = Ok order -> NoDup (ids order).
Proof.
  intros Hval Horder. destruct (topological_order_stable d Hval) as (order' & Ho & Hperm & _).
  assert (order' = order) as -> by congruence. unfold ids. rewrite Hperm.
  apply validate_dag_acc in Hval as ([? _] & _). done.
Qed.

Lemma record_recoverable_value ok r reg v reg' :
  record_recoverable_run ok r reg = (Ok v, reg') -> v = r /\ reg' = set_recoverable (replace_row rr_run_id r (recoverable reg)) reg.
Proof.
  unfold record_recoverable_run. intros H. py_step H t1 s1 H1. py_step H t2 s2 H2. py_step H t3 s3 H3.
  apply py_bind_ok in H as (t4 & s4 & [= _ <-] & [= <- <-]). done.
Qed.

Lemma persist_value base st rs s r s' :
  persist utcnow base st rs s = (Ok r, s') ->
  exists t, r = with_status base st rs t /\
    registry s' = set_recoverable (replace_row rr_run_id r (recoverable (registry s))) (registry s).
Proof.
  unfold persist. intros H. py_step H t s1 H1. injection H1 as <- <-. py_step H rec s2 H2.
  unfold committing in H. destruct (record_recoverable_run _ rec _) as [[v|e] reg'] eqn:Hrec; [|done].
  apply record_recoverable_value in Hrec as [-> ->]. injection H as <- <-.
  unfold new_recoverable in H2. do 2 (apply result_bind_ok in H2 as (? & _ & H2)). injection H2 as <-.
  by eexists.
Qed.

Lemma persist_results base st rs s r s' : persist utcnow base st rs s = (Ok r, s') -> rr_step_results r = rs.
Proof. by intros (t & -> & _)%persist_value. Qed.

(** C2: [resume] replays only what it may: either it leaves the registry, the
    world and the history as they were, or nobody held the lock, the run was
    INDETERMINATE with the same inputs, actor, definition and operation
    versions, and the operations it called were replay-safe, permitted, of steps
    not recorded ok, each once and after every earlier step of the order was
    recorded ok or called. *)
Theorem resume_replays_only_safe held rid inputs actor s :
  let s' := (resume utcnow ex held rid inputs actor s).2 in
  (registry s' = registry s /\ world s' = world s /\ invoked s' = invoked s) \/
  (held = false /\ exists stored d order, resumable rid inputs actor s stored d /\
     topological_order d = Ok order /\
     (validate_dag d = Ok tt ->
      exists called, invoked s' = rev (ids called) ++ invoked s /\ NoDup (ids called) /\
        calls_ok actor (rr_step_results stored) order called)).
Proof.
  cbv zeta. unfold resume.
  assert (require_file_db s = (if String.eqb (db_path (registry s)) ":memory:" then Err ValueError else Ok tt, s))
    as Hfile by (unfold require_file_db; rewrite bind_gets; unfold raise_when, lift; by destruct (String.eqb _ _)).
  rewrite bind_run, Hfile. destruct (String.eqb _ _); [by left|].
  rewrite bind_raise_when. destruct (is_blank rid); [by left|].
  rewrite bind_lift. destruct (check_actor actor) as [a|] eqn:Ha; [|by left].
  assert (a = actor) as ->.
  { unfold check_actor in Ha. do 2 (apply result_bind_ok in Ha as (? & _ & Ha)). by injection Ha as <-. }
  rewrite bind_lift. destruct (check_inputs inputs) as [safe|] eqn:Hsafe; [|by left].
  assert (safe = JObj inputs) as -> by (apply result_bind_ok in Hsafe as (? & _ & [= <-]); done).
  rewrite bind_lift. destruct (digest (JObj inputs)) as [dig|] eqn:Hdig; [|by left].
  rewrite bind_raise_when. destruct held; [by left|].
  rewrite bind_run, reading_pure by apply get_recoverable_state.
  destruct (get_recoverable_run rid (registry s)).1 as [stored|] eqn:Hstored; [|by left].
  rewrite bind_raise_when. destruct (String.eqb_spec (rr_input_digest stored) dig) as [<-|]; [|by left]. cbn [negb].
  rewrite bind_raise_when. destruct (String.eqb_spec (rr_actor_id stored) actor) as [<-|]; [|by left]. cbn [negb].
  rewrite bind_run, reading_pure by apply get_definition_state.
  destruct (get_definition _ _ (registry s)).1 as [d|] eqn:Hdef; [|by left].
  rewrite bind_lift. destruct (definition_digest d) as [dd|] eqn:Hdd; [|by left].
  rewrite bind_raise_when. destruct (String.eqb_spec dd (rr_definition_digest stored)) as [->|]; [|by left]. cbn [negb].
  rewrite bind_raise_when. destruct (dict_eqb _ _) eqn:Hops; [|by left]. pose proof (dict_eqb_spec _ _ Hops) as Hbind. cbn [negb].
  case_bool_decide; [by left|]. rewrite bind_raise_when. case_bool_decide as Hst; [|by left]. cbn [negb].
  rewrite bind_lift. destruct (topological_order d) as [order|] eqn:Horder; [|by left].
  right. split; [done|]. exists stored, d, order. split; [done|]. split; [done|]. intros Hval.
  pose proof (validated_order d order Hval Horder) as Hnd.
  rewrite bind_run. destruct (persist _ stored RUNNING _ s) as [[running|e] s1] eqn:H1;
    pose proof (persist_invoked stored RUNNING (rr_step_results stored) s) as Hi1; rewrite H1 in Hi1; cbn [snd] in Hi1.
  2: { exists []. split_and!; [done|constructor|apply calls_ok_nil]. }
  assert (rr_step_results running = rr_step_results stored) as Hrs by by eapply persist_results.
  unfold execute_remaining. rewrite Hrs.
  destruct (execute_steps_calls (rr_actor_id stored) (JObj inputs) order running (rr_step_results stored)
              (outputs_of (rr_step_results stored)) s1 Hnd) as (called & Hi & Hok).
  exists called. split_and!; [by rewrite Hi, Hi1| |done].
  eapply nodup_ids_sublist; [apply (co_sublist _ _ _ _ Hok)|exact Hnd].
Qed.

(** ** Reconciling *)

Definition rows (s : Sys World) : list RecoverableRun := recoverable (registry s).

Lemma replace_row_spec r (l : list RecoverableRun) x :
  x ∈ replace_row rr_run_id r l <-> (x ∈ l /\ rr_run_id x <> rr_run_id r) \/ x = r.
Proof.
  unfold replace_row. rewrite elem_of_app, list_elem_of_singleton, elem_of_filter_bool, negb_true_iff, String.eqb_neq.
  naive_solver.
Qed.

(** Marking a list of runs leaves the others. *)
Definition mark (stored : RecoverableRun) : py (Sys World) RecoverableRun :=
  persist utcnow stored INDETERMINATE (rr_step_results stored).

Lemma mark_all l s marked s' :
  NoDup (map rr_run_id l) -> for_each mark l s = (Ok marked, s') ->
  (forall x, x ∈ rows s' ->
     (x ∈ rows s /\ rr_run_id x ∉ map rr_run_id l) \/
     exists r t, r ∈ l /\ x = with_status r INDETERMINATE (rr_step_results r) t) /\
  (forall x, x ∈ rows s -> rr_run_id x ∉ map rr_run_id l -> x ∈ rows s') /\
  (forall r, r ∈ l -> exists t, with_status r INDETERMINATE (rr_step_results r) t ∈ rows s').
Proof.
  revert s marked. induction l as [|r l IH]; intros s marked Hnd Hrun.
  - injection Hrun as <- <-. split_and!; [left; split; [done|apply not_elem_of_nil]|done|by intros ? ?%elem_of_nil].
  - cbn [for_each map] in *. apply NoDup_cons in Hnd as [Hr Hnd].
    py_step Hrun y s1 H1. py_step Hrun ys s2 H2. injection Hrun as <- <-.
    apply persist_value in H1 as (t & -> & Hreg).
    destruct (IH s1 ys Hnd H2) as (Hx & Hkeep & Hall).
    assert (forall x, x ∈ rows s1 <-> (x ∈ rows s /\ rr_run_id x <> rr_run_id r) \/
              x = with_status r INDETERMINATE (rr_step_results r) t) as Hs1.
    { intros x. unfold rows. rewrite Hreg. cbn [recoverable set_recoverable]. by rewrite replace_row_spec. }
    split_and!.
    + intros x [[[[Hin Hne]| ->]%Hs1 Hn]|(r' & t' & Hr' & ->)]%Hx.
      * left. split; [done|]. by rewrite not_elem_of_cons.
      * right. exists r, t. split; [by left|done].
      * right. exists r', t'. split; [by right|done].
    + intros x Hin [Hne Hn]%not_elem_of_cons. apply Hkeep; [|done]. apply Hs1. by left.
    + intros r' [->|Hin]%elem_of_cons; [|by apply Hall]. exists t. apply Hkeep; [|done]. apply Hs1. by right.
Qed.

Lemma find_run (l : list RecoverableRun) r :
  NoDup (map rr_run_id l) -> r ∈ l -> List.find (fun x => String.eqb (rr_run_id x) (rr_run_id r)) l = Some r.
Proof.
  induction l as [|x l IH]; cbn; [by intros _ ?%elem_of_nil|].
  intros [Hx Hnd]%NoDup_cons [->|Hr]%elem_of_cons; [by rewrite String.eqb_refl|].
  destruct (String.eqb_spec (rr_run_id x) (rr_run_id r)) as [Heq|]; [|by apply IH].
  exfalso. apply Hx. rewrite Heq. by apply list_elem_of_In, List.in_map, list_elem_of_In.
Qed.

Lemma read_back_list l reg out reg' :
  NoDup (map rr_run_id (recoverable reg)) -> (forall r, r ∈ l -> r ∈ recoverable reg) ->
  for_each (fun r => get_recoverable_run (rr_run_id r)) l reg = (Ok out, reg') ->
  out = map recoverable_read l /\ reg' = reg.
Proof.
  intros Hnd. revert out. induction l as [|r l IH]; intros out Hin Hrun; [by injection Hrun as <- <-|].
  cbn [for_each] in Hrun. py_step Hrun y s1 H1. py_step Hrun ys s2 H2. injection Hrun as <- <-.
  assert (s1 = reg) as -> by (pose proof (get_recoverable_state (rr_run_id r) reg) as Hs; by rewrite H1 in Hs).
  destruct (IH ys) as [-> ->]; [intros x Hx; apply Hin; by right|done|]. split; [|done]. cbn. f_equal.
  unfold get_recoverable_run in H1. py_step H1 u1 s3 Hb. py_step H1 row s4 Hg. injection Hg as <- <-.
  rewrite find_run in H1 by (done || (apply Hin; by left)). apply lift_ok in H1 as [H1 _].
  unfold new_recoverable in H1. do 2 (apply result_bind_ok in H1 as (? & _ & H1)). by injection H1 as <-.
Qed.

(** [reconcile] marks the crashed runs and only them: when it returns, no
    live worker held the lock, every recoverable run that was RUNNING is
    INDETERMINATE with the step results its columns hold, every other run is
    untouched, and none is RUNNING. *)
Theorem reconcile_marks_crashed held s marked s' :
  NoDup (map rr_run_id (rows s)) ->
  reconcile utcnow held s = (Ok marked, s') ->
  held = false /\
  (forall r, r ∈ rows s' -> rr_status r <> RUNNING) /\
  (forall r, r ∈ rows s -> rr_status r <> RUNNING -> r ∈ rows s') /\
  (forall r, r ∈ rows s -> rr_status r = RUNNING ->
     exists t, with_status (recoverable_read r) INDETERMINATE (results_read (rr_step_results r)) t ∈ rows s').
Proof.
  intros Hnd Hrun. unfold reconcile in Hrun.
  py_step Hrun u0 s0 H0. assert (s0 = s) as ->.
  { unfold require_file_db in H0. rewrite bind_gets in H0. by apply raise_when_ok in H0 as [_ ?]. }
  py_step Hrun u1 s1 Hheld. split; [done|]. py_step Hrun crashed s2 Hc.
  set (running := List.filter (fun r => bool_decide (rr_status r = RUNNING)) (rows s)).
  assert (forall r, r ∈ running <-> rr_status r = RUNNING /\ r ∈ rows s) as Hrunning.
  { intros r. unfold running. by rewrite elem_of_filter_bool, bool_decide_eq_true. }
  unfold list_recoverable_runs in Hc. rewrite reading_run, bind_gets in Hc.
  destruct (for_each _ _ (registry s)) as [out reg'] eqn:Hfe. cbn [fst snd] in Hc. injection Hc as -> <-.
  apply read_back_list in Hfe as [-> ->]; [|done|by intros r [_ ?]%Hrunning].
  replace (set_registry (registry s) s) with s in Hrun by by destruct s.
  assert (map rr_run_id (map recoverable_read running) = map rr_run_id running) as Hids by by rewrite map_map.
  assert (NoDup (map rr_run_id running)) as Hndr.
  { clear -Hnd. subst running. induction (rows s) as [|r l IH]; cbn in *; [constructor|].
    apply NoDup_cons in Hnd as [Hr Hnd]. case_bool_decide; [|by apply IH]. cbn. apply NoDup_cons.
    split; [|by apply IH]. intros (x & Hx & [Hin _]%List.filter_In)%list_elem_of_In%List.in_map_iff.
    apply Hr. rewrite <- Hx. by apply list_elem_of_In, List.in_map. }
  destruct (mark_all (map recoverable_read running) s marked s') as (Hx & Hkeep & Hall); [by rewrite Hids|done|].
  rewrite Hids in Hx, Hkeep. split_and!.
  - intros r [[Hr Hn]|(q & t & _ & ->)]%Hx; [|done]. intros Hst. apply Hn.
    apply list_elem_of_In, List.in_map, list_elem_of_In. by apply Hrunning.
  - intros r Hr Hst. apply Hkeep; [done|].
    intros (q & Hq & [Hqs Hqr]%list_elem_of_In%Hrunning)%list_elem_of_In%List.in_map_iff.
    pose proof (find_run _ _ Hnd Hr) as H1. pose proof (find_run _ _ Hnd Hqr) as H2. rewrite Hq in H2. congruence.
  - intros r Hr Hst. destruct (Hall (recoverable_read r)) as [t Ht]; [|by exists t].
    apply list_elem_of_In, List.in_map, list_elem_of_In. by apply Hrunning.
Qed.
End Facts.

(** ** Samples *)

Definition sample_clock (n : nat) : string := "t" +:+ py_str_N (N.of_nat n).

(** Each call returns how many steps are done; the world counts the calls. *)
Definition sample_executor : WorkflowExecutor nat :=
  mk_Executor [("op"%string, fun _ prev n => (Ok (JInt (Z.of_nat (length prev))), S n))]
    (Some (fun _ _ => Ok true)) ["op"%string] [].

Definition sample_sys (c : option nat) : Sys nat :=
  mk_Sys (register true "t0" sample_dag (new_registry "wf.db")).2 0 c 0 [].

Definition sample_run := run sample_clock sample_executor "run-1" "wf" "1.0.0" [] "ada" (sample_sys None).

Lemma run_fails_closed_witness :
  exists final s' order finished_ rest,
    sample_run = (Ok final, s') /\ topological_order sample_dag = Ok order /\ order = finished_ ++ rest /\
    statuses (step_results final) = outcome_of finished_ rest /\
    status final = (if decide (rest = []) then COMPLETED else FAILED).
Proof.
  destruct sample_run as [r s'] eqn:Hrun.
  destruct r as [final|]; [|vm_compute in Hrun; discriminate].
  destruct (run_fails_closed sample_clock sample_executor "run-1" "wf" "1.0.0" [] "ada" (sample_sys None)
    final s' sample_dag) as (order & fin & rest & called & H1 & H2 & H3 & H4 & _);
    [vm_compute; reflexivity|vm_compute; reflexivity|exact Hrun|].
  by exists final, s', order, fin, rest.
Defined.

(** A process that dies after three commits: the second step was called but its
    result was not saved. *)
Definition crashed_sys : Sys nat :=
  (run_recoverable sample_clock sample_executor false "run-2" "wf" "1.0.0" [] "ada" (sample_sys (Some 4))).2.

(** The next process reconciles and resumes. *)
Definition revived : Sys nat := set_commits None crashed_sys.

Definition resumed := resume sample_clock sample_executor false "run-2" [] "ada"
  (reconcile sample_clock false revived).2.

Example sample_recovery :
  invoked crashed_sys = ["c"; "a"]%string /\
  (match resumed.1 with Ok r => Some (rr_status r, statuses (rr_step_results r)) | Err _ => None end) =
    Some (COMPLETED, [("a", step_ok); ("c", step_ok); ("b", step_ok); ("d", step_ok)]%string) /\
  invoked resumed.2 = ["d"; "b"; "c"; "c"; "a"]%string.
Proof. vm_compute. split_and!; reflexivity. Qed.

Lemma reconcile_marks_crashed_witness :
  map rr_status (rows revived) = [RUNNING] /\
  forall r, r ∈ rows (reconcile sample_clock false revived).2 -> rr_status r <> RUNNING.
Proof.
  split; [vm_compute; reflexivity|].
  destruct (reconcile sample_clock false revived) as [r s'] eqn:Hrec.
  destruct r as [marked|]; [|vm_compute in Hrec; discriminate].
  refine (proj1 (proj2 (reconcile_marks_crashed sample_clock false revived marked s' _ Hrec))).
  vm_compute. apply NoDup_singleton.
Defined.
