(* ===== verification/Evidence.v ===== *)
(** * The evidence ladder

    [EvidenceLevel] of [src/agency/evidence/store/models.py] and
    [EvidenceLevelManager] of [src/agency/evidence/levels.py]. *)
From S2P Require Import Prelude.

Inductive EvidenceLevel :=
| LEVEL_0_HYPOTHESIS
| LEVEL_1_STATIC
| LEVEL_2_BEHAVIORAL
| LEVEL_3_REPEATED
| LEVEL_4_REPRODUCED
| LEVEL_5_VERIFIED.

#[export] Instance EvidenceLevel_eq_dec : EqDecision EvidenceLevel.
Proof. solve_decision. Defined.

Definition CHAIN : list EvidenceLevel :=
  [LEVEL_0_HYPOTHESIS; LEVEL_1_STATIC; LEVEL_2_BEHAVIORAL; LEVEL_3_REPEATED; LEVEL_4_REPRODUCED;
   LEVEL_5_VERIFIED].

Definition MAX_STEP : Z := 1.

(** [CHAIN.index(level)]; every level is in [CHAIN]. *)
Fixpoint position (level : EvidenceLevel) (l : list EvidenceLevel) : Z :=
  match l with
  | [] => 0
  | x :: l' => if decide (x = level) then 0 else 1 + position level l'
  end.
Definition chain_index (level : EvidenceLevel) : Z := position level CHAIN.

Definition is_valid_level (level : EvidenceLevel) : bool := bool_decide (level ∈ CHAIN).

Definition base_level (from : option EvidenceLevel) : EvidenceLevel := default LEVEL_0_HYPOTHESIS from.

(** [can_transition] *)
Definition can_transition (from : option EvidenceLevel) (to : EvidenceLevel) : bool :=
  if negb (is_valid_level to) then false
  else if negb (is_valid_level (base_level from)) then false
  else (chain_index to - chain_index (base_level from) =? MAX_STEP)%Z.

(** [suggest_next] *)
Definition suggest_next (from : option EvidenceLevel) : option EvidenceLevel :=
  let index := (chain_index (base_level from) + MAX_STEP)%Z in
  if (Z.of_nat (length CHAIN) <=? index)%Z then None else CHAIN !! Z.to_nat index.

(** [validate_chain], from the [previous] level on. *)
Fixpoint validate_from (previous : option EvidenceLevel) (levels : list EvidenceLevel) : bool :=
  match levels with
  | [] => true
  | level :: rest =>
      if bool_decide (level = LEVEL_0_HYPOTHESIS) then
        match previous with Some _ => false | None => validate_from (Some level) rest end
      else if negb (can_transition previous level) then false
      else validate_from (Some level) rest
  end.

Definition validate_chain (levels : list EvidenceLevel) : bool := validate_from None levels.

(** [entry_advances], of the entry's level. *)
Definition entry_advances (current : option EvidenceLevel) (level : EvidenceLevel) : bool :=
  can_transition current level.

(** [strongest_level]: Python's [max] keeps the first of equal maxima. *)
Definition strongest_level (levels : list EvidenceLevel) : EvidenceLevel :=
  match levels with
  | [] => LEVEL_0_HYPOTHESIS
  | l :: rest => foldl (fun best x => if (chain_index best <? chain_index x)%Z then x else best) l rest
  end.

(** ** Facts *)

Lemma chain_index_inj a b : chain_index a = chain_index b -> a = b.
Proof. by destruct a, b. Qed.

Lemma valid_level level : is_valid_level level = true.
Proof. by destruct level. Qed.

Lemma can_transition_index from to :
  can_transition from to = true <-> chain_index to = (chain_index (base_level from) + 1)%Z.
Proof. unfold can_transition. rewrite !valid_level. unfold MAX_STEP. cbn. lia. Qed.

Lemma chain_lookup level : CHAIN !! Z.to_nat (chain_index level) = Some level.
Proof. by destruct level. Qed.

(** The ladder above a level. *)
Definition above (level : EvidenceLevel) : list EvidenceLevel := drop (S (Z.to_nat (chain_index level))) CHAIN.

Lemma above_cons level x : can_transition (Some level) x = true -> above level = x :: above x.
Proof. by destruct level, x. Qed.

Lemma above_head level x l : above level = x :: l -> can_transition (Some level) x = true /\ l = above x.
Proof. destruct level; cbn; intros [= <- <-]; done. Qed.

Lemma no_step_to_zero from : can_transition from LEVEL_0_HYPOTHESIS = false.
Proof. by destruct from as [[]|]. Qed.

Lemma validate_from_some level l : validate_from (Some level) l = true <-> l `prefix_of` above level.
Proof.
  revert level. induction l as [|x l IH]; intros level; cbn [validate_from]; [split; [intros _; apply prefix_nil|done]|].
  case_bool_decide as H0.
  - split; [done|]. intros [k Hk]. destruct (above_head level x (l ++ k) Hk) as [Hx _].
    subst x. by rewrite no_step_to_zero in Hx.
  - destruct (can_transition (Some level) x) eqn:Hx; cbn [negb].
    + rewrite (above_cons level x Hx), IH. split; [by apply prefix_cons|by apply prefix_cons_inv_2].
    + split; [done|]. intros [k Hk]. destruct (above_head level x (l ++ k) Hk) as [Hx' _]. congruence.
Qed.

(** [validate_chain] accepts exactly the gapless climbs: an initial part of
    the ladder, with or without the opening hypothesis. *)
Theorem validate_chain_iff levels :
  validate_chain levels = true <-> levels `prefix_of` CHAIN \/ levels `prefix_of` above LEVEL_0_HYPOTHESIS.
Proof.
  unfold validate_chain. destruct levels as [|x l]; [split; [intros _; left; apply prefix_nil|done]|].
  cbn [validate_from]. change CHAIN with (LEVEL_0_HYPOTHESIS :: above LEVEL_0_HYPOTHESIS).
  case_bool_decide as H0.
  - subst x. rewrite validate_from_some. split; [intros Hl; left; by apply prefix_cons|].
    intros [Hp|[k Hk]]; [by apply prefix_cons_inv_2 in Hp|done].
  - change (can_transition None x) with (can_transition (Some LEVEL_0_HYPOTHESIS) x).
    destruct (can_transition (Some LEVEL_0_HYPOTHESIS) x) eqn:Hx; cbn [negb].
    + rewrite validate_from_some. rewrite (above_cons _ _ Hx). split.
      * intros Hl. right. by apply prefix_cons.
      * intros [[k Hk]|Hp]; [by injection Hk|by apply prefix_cons_inv_2 in Hp].
    + split; [done|]. intros [[k Hk]|[k Hk]]; [by injection Hk|].
      destruct (above_head _ x (l ++ k) Hk) as [Hx' _]. congruence.
Qed.

(** [suggest_next] is the one level that advances, if there is one. *)
Lemma suggest_next_advances from to : suggest_next from = Some to <-> entry_advances from to = true.
Proof. destruct from as [[]|], to; vm_compute; done. Qed.

Lemma strongest_fold best l :
  (chain_index best <= chain_index (foldl (fun b x => if (chain_index b <? chain_index x)%Z then x else b) best l))%Z /\
  foldl (fun b x => if (chain_index b <? chain_index x)%Z then x else b) best l ∈ best :: l /\
  forall x, x ∈ l -> (chain_index x <= chain_index (foldl (fun b x => if (chain_index b <? chain_index x)%Z then x else b) best l))%Z.
Proof.
  revert best. induction l as [|y l IH]; intros best; cbn [foldl].
  - split_and!; [lia|by left|by intros x ?%elem_of_nil].
  - destruct (IH (if (chain_index best <? chain_index y)%Z then y else best)) as (H1 & H2 & H3).
    destruct (Z.ltb_spec (chain_index best) (chain_index y)).
    + split_and!; [lia|set_solver|]. intros x [->|Hx]%elem_of_cons; [done|by apply H3].
    + split_and!; [done|set_solver|]. intros x [->|Hx]%elem_of_cons; [lia|by apply H3].
Qed.

(** The next level [suggest_next] names is the only one [entry_advances]
    accepts, and [strongest_level] is a level of the list that none of it
    exceeds (the hypothesis when there is none). *)
Theorem ladder_choices from to levels :
  (suggest_next from = Some to <-> entry_advances from to = true) /\
  (levels = [] /\ strongest_level levels = LEVEL_0_HYPOTHESIS \/ strongest_level levels ∈ levels) /\
  forall x, x ∈ levels -> (chain_index x <= chain_index (strongest_level levels))%Z.
Proof.
  split; [apply suggest_next_advances|]. destruct levels as [|l rest]; [split; [by left|by intros x ?%elem_of_nil]|].
  cbn [strongest_level]. destruct (strongest_fold l rest) as (H1 & H2 & H3). split; [by right|].
  intros x [->|Hx]%elem_of_cons; [done|by apply H3].
Qed.
