(* ===== verification/MergeQueue.v ===== *)
(** * The merge gate

    [src/agency/forge/merge_queue.py].  An argument typed [Any] is a sum of the
    shapes the code tells apart; the text of a value is its [str()].  Ids and
    instants are drawn by the caller of the model.  The store keeps each report
    under its id; its JSON document is modelled by the report it parses to. *)
From S2P Require Import Prelude PyStr PyDict.

Definition CAVEATS : list string := ["never_auto_merges"; "human_approval_required"]%string.

(** A gate argument: [None], a bool, a string, an object whose [gate] is set, a
    dict (with the [str()] of its values) or anything else. *)
Inductive gate_arg :=
| GNone
| GBool (b : bool)
| GStr (s : string)
| GAttr (gate : string)
| GDict (d : list (string * string)) (text : string)
| GOther (text : string).

(** [_gate_value] *)
Definition gate_value (obj : gate_arg) : string :=
  match obj with
  | GNone => "FAIL"
  | GBool b => if b then "PASS" else "FAIL"
  | GStr s => py_upper s
  | GAttr gate => py_upper gate
  | GDict d text =>
      match dget "gate"%string d with
      | Some v => py_upper v
      | None => match dget "status"%string d with
                | Some v => py_upper v
                | None => py_upper text
                end
      end
  | GOther text => py_upper text
  end.

(** A path argument: [None], a string, a sequence (of [str()]) or anything else. *)
Inductive paths_arg := PNone | PStr (s : string) | PSeq (l : list string) | POther (text : string).

(** [_normalize_paths] *)
Definition normalize_paths (v : paths_arg) : list string :=
  match v with PNone => [] | PStr s => [s] | PSeq l => l | POther text => [text] end.

Definition backslash : ascii := "\"%char.
Definition is_slash (c : ascii) : bool := Ascii.eqb c "/"%char.
Definition is_dot_or_slash (c : ascii) : bool := Ascii.eqb c "."%char || is_slash c.

(** [s.replace("\\", "/")] *)
Definition to_slashes (s : string) : string := replace_char backslash "/"%char s.

(** [path.replace("\\", "/").lstrip("./")], then without leading slashes. *)
Definition norm_path (path : string) : string :=
  lstrip_by is_slash (lstrip_by is_dot_or_slash (to_slashes path)).

(** [str(prot).replace("\\", "/").rstrip("/")] *)
Definition norm_protected (prot : string) : string := rstrip_by is_slash (to_slashes prot).

Definition py_endswith_slash (p : string) : bool :=
  match rev (to_chars p) with c :: _ => is_slash c | [] => false end.

(** One protected path of [_is_protected]'s loop. *)
Definition covers (norm p : string) : bool :=
  if String.eqb p "" then false
  else if String.eqb norm p || py_startswith norm (p +:+ "/")%string then true
  else py_endswith_slash p && py_startswith norm p.

(** [_is_protected] *)
Definition is_protected (path : string) (protected : list string) : bool :=
  existsb (fun prot => covers (norm_path path) (norm_protected prot)) protected.

Record MergeQueueEntry := mk_Entry {
  entry_id : string;
  entry_created_at : Z;
  changed_paths : list string;
  protected_paths : list string;
  touched_protected : list string;
  approved : bool;
}.

Record MergePlan := mk_Plan { actions : list string; sealed : bool; plan_merge_allowed : bool }.

Record MergeQueueReport := mk_Report {
  report_id : string;
  report_created_at : Z;
  root : string;
  merge_allowed : bool;
  plan : MergePlan;
  entries : list MergeQueueEntry;
  blocked_reasons : list string;
  caveats : list string;
}.

(** The arguments of [evaluate_merge] and the names it also looks for in its
    [**kwargs]. *)
Record merge_args := mk_args {
  a_inspection : gate_arg; a_security : gate_arg; a_tests : gate_arg; a_review : gate_arg;
  k_inspection_gate : gate_arg; k_security_gate : gate_arg; k_test_gate : gate_arg; k_review_gate : gate_arg;
  a_changed_paths : paths_arg; a_paths : paths_arg;
  a_protected_paths : paths_arg; a_protected : paths_arg;
  a_root : option string;
  a_approved : bool; a_approval : bool; a_approved_protected : bool; a_protected_approved : bool;
}.

Definition or_else (g k : gate_arg) : gate_arg := match g with GNone => k | _ => g end.
Definition paths_or (v k : paths_arg) : paths_arg := match v with PNone => k | _ => v end.

Fixpoint comma_join (l : list string) : string :=
  match l with
  | [] => ""
  | [s] => s
  | s :: l' => (s +:+ "," +:+ comma_join l')%string
  end.

Definition gate_block (name value : string) : list string :=
  if String.eqb value "PASS" then [] else [(name +:+ "_gate_not_pass:" +:+ value)%string].

Definition checks_first : list string :=
  ["verify_inspection_gate"; "verify_security_gate"; "verify_test_gate"; "verify_review_gate";
   "check_protected_paths"]%string.

(** [evaluate_merge] *)
Definition evaluate_merge (eid rid : string) (at_entry at_report : Z) (a : merge_args) : MergeQueueReport :=
  let changed := normalize_paths (paths_or (a_changed_paths a) (a_paths a)) in
  let protected := normalize_paths (paths_or (a_protected_paths a) (a_protected a)) in
  let is_approved := a_approved a || a_approval a || a_approved_protected a || a_protected_approved a in
  let ig := gate_value (or_else (a_inspection a) (k_inspection_gate a)) in
  let sg := gate_value (or_else (a_security a) (k_security_gate a)) in
  let tg := gate_value (or_else (a_tests a) (k_test_gate a)) in
  let rg := gate_value (or_else (a_review a) (k_review_gate a)) in
  let touched := List.filter (fun p => is_protected p protected) changed in
  let blocked := gate_block "inspection" ig ++ gate_block "security" sg ++ gate_block "test" tg ++
    gate_block "review" rg ++
    (if negb (bool_decide (touched = [])) && negb is_approved
     then [("protected_path_touched_without_approval:" +:+ comma_join touched)%string] else []) in
  let allowed := bool_decide (blocked = []) in
  let acts := checks_first ++ [if allowed then "queue_for_human_merge_approval" else "block_merge"]%string ++
    ["never_auto_merge"]%string in
  mk_Report rid at_report (default ""%string (a_root a)) allowed (mk_Plan acts true allowed)
    [mk_Entry eid at_entry changed protected touched is_approved] blocked CAVEATS.

(** ** The store *)

Definition MergeQueueStore : Type := (list (string * MergeQueueReport)).

(** [save]: the primary key refuses a second report of an id. *)
Definition save (report : MergeQueueReport) : py MergeQueueStore string :=
  l ← get;
  _ ← raise_when (dmem (report_id report) l) IntegrityError;
  _ ← modify (fun l => l ++ [(report_id report, report)]);
  mret (report_id report).

(** [load] *)
Definition load (rid : string) : py MergeQueueStore (option MergeQueueReport) := gets (dget rid).

(** ** Facts *)

Definition gates_pass (a : merge_args) : Prop :=
  gate_value (or_else (a_inspection a) (k_inspection_gate a)) = "PASS"%string /\
  gate_value (or_else (a_security a) (k_security_gate a)) = "PASS"%string /\
  gate_value (or_else (a_tests a) (k_test_gate a)) = "PASS"%string /\
  gate_value (or_else (a_review a) (k_review_gate a)) = "PASS"%string.

Lemma gate_block_nil name value : gate_block name value = [] <-> value = "PASS"%string.
Proof. unfold gate_block. destruct (String.eqb_spec value "PASS"); naive_solver. Qed.

(** The merge gate: a merge is allowed exactly when all four gates read
    PASS and either an approval is given or no changed path is protected; the
    plan asks a human to approve it exactly then, blocks it otherwise, and in
    both cases ends by never merging. *)
Theorem evaluate_merge_spec eid rid t1 t2 a :
  let r := evaluate_merge eid rid t1 t2 a in
  let approved_ := a_approved a || a_approval a || a_approved_protected a || a_protected_approved a in
  (merge_allowed r = true <->
     gates_pass a /\
     (approved_ = true \/
      forall p, p ∈ normalize_paths (paths_or (a_changed_paths a) (a_paths a)) ->
        is_protected p (normalize_paths (paths_or (a_protected_paths a) (a_protected a))) = false)) /\
  plan_merge_allowed (plan r) = merge_allowed r /\
  actions (plan r) = checks_first ++
    [if merge_allowed r then "queue_for_human_merge_approval" else "block_merge"; "never_auto_merge"]%string /\
  (merge_allowed r = true <-> blocked_reasons r = []).
Proof.
  cbv zeta. cbn [merge_allowed evaluate_merge plan plan_merge_allowed actions blocked_reasons].
  rewrite bool_decide_eq_true. split; [|done].
  rewrite !app_nil_iff, !gate_block_nil. unfold gates_pass. rewrite <- filter_nil.
  set (touched := List.filter _ _). set (ok := _ || _ || _ || _).
  destruct ok; [rewrite andb_false_r; naive_solver|]. rewrite andb_true_r.
  case_bool_decide; cbn [negb]; naive_solver.
Qed.

Lemma lstrip_head p s c l : to_chars (lstrip_by p s) = c :: l -> p c = false.
Proof. unfold lstrip_by. rewrite to_of_chars. apply drop_while_head. Qed.

(** A normal path never begins with a dot or a slash. *)
Lemma norm_path_head path c l : to_chars (norm_path path) = c :: l -> is_dot_or_slash c = false.
Proof.
  unfold norm_path. set (s := lstrip_by is_dot_or_slash (to_slashes path)). intros Hc.
  assert (lstrip_by is_slash s = s) as Hs.
  { apply to_chars_inj. unfold lstrip_by at 1. rewrite to_of_chars.
    destruct (to_chars s) as [|d l'] eqn:Hd; [done|]. cbn.
    pose proof (lstrip_head _ _ _ _ Hd) as Hh. apply orb_false_iff in Hh as [_ Hh]. by rewrite Hh. }
  rewrite Hs in Hc. by apply lstrip_head in Hc.
Qed.

Lemma prefix_chars p s : String.prefix p s = true <-> exists k, to_chars s = to_chars p ++ k.
Proof.
  revert s. induction p as [|c p IH]; intros s; cbn.
  - split; [intros _; by exists (to_chars s)|by destruct s].
  - destruct s as [|d s]; cbn; [split; [done|by intros [k Hk]]|].
    destruct (ascii_dec c d) as [->|Hne].
    + rewrite IH. split; intros [k Hk]; exists k; congruence.
    + split; [done|]. intros [k Hk]. congruence.
Qed.

(** What [covers] tests, without its dead branch. *)
Lemma covers_iff norm prot :
  covers norm (norm_protected prot) = true <->
  norm_protected prot <> ""%string /\
  (norm = norm_protected prot \/ py_startswith norm (norm_protected prot +:+ "/")%string = true).
Proof.
  unfold covers. destruct (String.eqb_spec (norm_protected prot) "") as [Hp|Hp]; [naive_solver|].
  assert (py_endswith_slash (norm_protected prot) = false) as ->.
  { unfold py_endswith_slash, norm_protected, rstrip_by. rewrite to_of_chars, rev_involutive.
    destruct (drop_while is_slash _) as [|c l] eqn:Hd; [done|]. by apply drop_while_head in Hd. }
  destruct (String.eqb_spec norm (norm_protected prot)) as [->|Hne]; cbn [orb]; [naive_solver|].
  destruct (py_startswith norm _); naive_solver.
Qed.

(** What a protected entry covers: when neither name begins with a dot or a
    slash, a changed path is protected by an entry exactly when, in forward
    slashes and without the entry's trailing ones, it is that name or lies
    under it. *)
Theorem is_protected_denotes path prot c l :
  to_chars (to_slashes path) = c :: l -> is_dot_or_slash c = false ->
  is_protected path [prot] = true <->
  norm_protected prot <> ""%string /\
  (to_slashes path = norm_protected prot \/
   exists k, to_chars (to_slashes path) = to_chars (norm_protected prot) ++ "/"%char :: k).
Proof.
  intros Hl Hc. unfold is_protected. cbn [existsb]. rewrite orb_false_r.
  assert (norm_path path = to_slashes path) as ->.
  { unfold norm_path. assert (lstrip_by is_dot_or_slash (to_slashes path) = to_slashes path) as ->.
    { apply to_chars_inj. unfold lstrip_by. rewrite to_of_chars, Hl. cbn. by rewrite Hc. }
    apply to_chars_inj. unfold lstrip_by. rewrite to_of_chars, Hl. cbn.
    apply orb_false_iff in Hc as [_ Hc]. by rewrite Hc. }
  rewrite covers_iff. unfold py_startswith. rewrite prefix_chars, to_chars_app. cbn.
  setoid_rewrite <- app_assoc. done.
Qed.

(** An entry whose name begins with a dot protects nothing: the changed
    path is stripped of its leading dots before it is compared, the entry is
    not, so [.github] or [.env] never block a merge. *)
Theorem dot_entry_protects_nothing path prot c l :
  to_chars (norm_protected prot) = c :: l -> is_dot_or_slash c = true ->
  is_protected path [prot] = false.
Proof.
  intros Hl Hc. unfold is_protected. cbn [existsb]. rewrite orb_false_r. apply not_true_is_false.
  rewrite covers_iff. unfold py_startswith. rewrite prefix_chars, to_chars_app, Hl. intros [_ [Heq|[k Hk]]].
  - assert (to_chars (norm_path path) = c :: l) as Hn by (by rewrite Heq).
    apply norm_path_head in Hn. congruence.
  - apply norm_path_head in Hk. congruence.
Qed.

(** Saving a report and reading it back. *)
Lemma save_run report l :
  save report l = if dmem (report_id report) l then (Err IntegrityError, l)
                  else (Ok (report_id report), l ++ [(report_id report, report)]).
Proof. unfold save. unfold_py. by destruct (dmem _ l). Qed.

(** A saved report is permanent: it loads back as it was saved whatever is
    saved later, and its id is never taken again. *)
Theorem saved_report_is_permanent report l l' others :
  save report l = (Ok (report_id report), l') ->
  let l2 := foldl (fun l r => (save r l).2) l' others in
  load (report_id report) l2 = (Ok (Some report), l2) /\
  forall r, report_id r = report_id report -> save r l2 = (Err IntegrityError, l2).
Proof.
  rewrite save_run. unfold dmem. destruct (dget (report_id report) l) as [r0|] eqn:Hl; [done|].
  cbv zeta. intros Hs. injection Hs as <-. set (l2 := foldl _ _ others).
  assert (dget (report_id report) l2 = Some report) as Hg.
  { unfold l2. clear l2. assert (dget (report_id report) (l ++ [(report_id report, report)]) = Some report) as H1.
    { rewrite dget_app, Hl. cbn. by rewrite decide_True. }
    revert H1. generalize (l ++ [(report_id report, report)]).
    induction others as [|r others IH]; intros k Hk; [done|]. cbn. apply IH. rewrite save_run.
    destruct (dmem (report_id r) k); [done|]. cbn. by rewrite dget_app, Hk. }
  split; [unfold load, gets; by rewrite Hg|]. intros r Hr. rewrite save_run. unfold dmem. by rewrite Hr, Hg.
Qed.

(** ** Samples *)

Definition pass_args (changed protected : list string) : merge_args :=
  mk_args (GStr "pass") (GBool true) (GAttr "PASS") (GDict [("status", "Pass")]%string "{}")
    GNone GNone GNone GNone (PSeq changed) PNone (PSeq protected) PNone None false false false false.

Example sample_blocked :
  blocked_reasons (evaluate_merge "e" "r" 0 0 (pass_args ["./infra/main.tf"; "a.py"] ["infra/"])%string) =
  ["protected_path_touched_without_approval:./infra/main.tf"]%string.
Proof. vm_compute. reflexivity. Qed.

Lemma is_protected_denotes_witness : is_protected "infra\main.tf" ["infra/"]%string = true.
Proof.
  apply (is_protected_denotes "infra\main.tf" "infra/" "i"%char (to_chars "nfra/main.tf")).
  - vm_compute. reflexivity.
  - vm_compute. reflexivity.
  - split; [vm_compute; discriminate|]. right. exists (to_chars "main.tf"). vm_compute. reflexivity.
Defined.

Lemma dot_entry_protects_nothing_witness :
  is_protected ".github/workflows/ci.yml" [".github"]%string = false.
Proof.
  apply (dot_entry_protects_nothing ".github/workflows/ci.yml" ".github" "."%char (to_chars "github"));
    vm_compute; reflexivity.
Defined.

Lemma saved_report_is_permanent_witness :
  let r := evaluate_merge "e" "r" 0 0 (pass_args [] []) in
  load "r" (save r []).2 = (Ok (Some r), (save r []).2).
Proof.
  refine (proj1 (saved_report_is_permanent (evaluate_merge "e" "r" 0 0 (pass_args [] [])) []
    (save (evaluate_merge "e" "r" 0 0 (pass_args [] [])) []).2 [] _)).
  vm_compute. reflexivity.
Defined.
