(* ===== verification/Assessment.v ===== *)
(** * Execution assessments

    [src/agency/agents/assessment.py].  A Pydantic model is a record with the
    function that validates it; a failed validation is a [ValueError].  Nested
    records are validated again by the record that holds them
    ([revalidate_instances="always"]).  A score is an IEEE double.  The outcome
    of [src/agency/agents/verifier.py] this module reads is [CheckOutcome]. *)
From S2P Require Import Prelude PyStr PyDict PyJson Sha256.
From Stdlib Require Import Floats.SpecFloat.

Inductive Criterion := completeness | accuracy | safety.
Inductive Terminal := completed | failed | cancelled | timeout.
Inductive AssessmentStatus := NOT_PERFORMED | PASSED | FAILED | NEEDS_REVIEW.
Inductive Method := not_performed | legacy_keyword_coverage | legacy_denylist | legacy_risk_engine.
Inductive Reason :=
| tool_path_unchecked | isolated_path_unchecked | execution_not_completed
| no_trusted_accuracy_oracle | heuristic_passed | heuristic_failed.
Inductive RiskCategory := CRITICAL | HIGH | MEDIUM | LOW | NEGLIGIBLE.
Inductive Path := classic | tool | isolated.
Inductive RiskStatus := not_assessed | assessed | partially_assessed.

#[export] Instance Criterion_eq_dec : EqDecision Criterion.
Proof. solve_decision. Defined.
#[export] Instance Terminal_eq_dec : EqDecision Terminal.
Proof. solve_decision. Defined.
#[export] Instance AssessmentStatus_eq_dec : EqDecision AssessmentStatus.
Proof. solve_decision. Defined.
#[export] Instance Method_eq_dec : EqDecision Method.
Proof. solve_decision. Defined.
#[export] Instance Reason_eq_dec : EqDecision Reason.
Proof. solve_decision. Defined.
#[export] Instance RiskCategory_eq_dec : EqDecision RiskCategory.
Proof. solve_decision. Defined.
#[export] Instance Path_eq_dec : EqDecision Path.
Proof. solve_decision. Defined.
#[export] Instance RiskStatus_eq_dec : EqDecision RiskStatus.
Proof. solve_decision. Defined.

Definition CRITERIA : list Criterion := [completeness; accuracy; safety].

(** ** Scores *)

Definition score : Type := spec_float.

#[export] Instance score_eq_dec : EqDecision score.
Proof. solve_decision. Defined.

Definition float_zero : score := S754_zero false.
Definition float_one : score := S754_finite false 4503599627370496 (-52).

(** [Field(ge=0, le=1, allow_inf_nan=False)] *)
Definition score_ok (s : score) : bool := SFleb float_zero s && SFleb s float_one.

(** ** Checks *)

Record CheckAssessment := mk_Check {
  criterion : Criterion;
  status : AssessmentStatus;
  method : Method;
  reason : Reason;
  check_score : option score;
}.

#[export] Instance CheckAssessment_eq_dec : EqDecision CheckAssessment.
Proof. solve_decision. Defined.

Definition heuristic (c : Criterion) : option Method :=
  match c with
  | completeness => Some legacy_keyword_coverage
  | safety => Some legacy_denylist
  | accuracy => None
  end.

Definition is_verdict (r : Reason) : bool := bool_decide (r ∈ [heuristic_passed; heuristic_failed]).

(** [CheckAssessment._consistent], after the score's bounds. *)
Definition check_consistent (c : CheckAssessment) : result CheckAssessment :=
  _ ← raise_if (match check_score c with Some s => negb (score_ok s) | None => false end) ValueError;
  if bool_decide (status c = NOT_PERFORMED) then
    _ ← raise_if (negb (bool_decide (method c = not_performed)) || bool_decide (is_Some (check_score c)) ||
                  is_verdict (reason c)) ValueError;
    _ ← raise_if (bool_decide (reason c = no_trusted_accuracy_oracle) &&
                  negb (bool_decide (criterion c = accuracy))) ValueError;
    Ok c
  else
    match heuristic (criterion c), check_score c with
    | Some m, Some s =>
        _ ← raise_if (negb (bool_decide (method c = m))) ValueError;
        _ ← raise_if (negb (bool_decide (status c ∈ [PASSED; FAILED]))) ValueError;
        let passed := bool_decide (status c = PASSED) in
        _ ← raise_if (negb (bool_decide (reason c = if passed then heuristic_passed else heuristic_failed)))
              ValueError;
        _ ← raise_if ((passed && negb (SFeqb s float_one)) || (negb passed && SFeqb s float_one)) ValueError;
        _ ← raise_if (bool_decide (criterion c = safety) && negb passed && negb (SFeqb s float_zero)) ValueError;
        Ok c
    | _, _ => Err ValueError
    end.

(** ** Risk *)

Record RiskAssessment := mk_Risk {
  risk_status : RiskStatus;
  risk_method : Method;
  category : option RiskCategory;
  finding_id : option string;
}.

#[export] Instance RiskAssessment_eq_dec : EqDecision RiskAssessment.
Proof. solve_decision. Defined.

Definition blank_id (s : string) : bool := String.eqb s "".

(** [RiskAssessment._consistent] *)
Definition risk_consistent (r : RiskAssessment) : result RiskAssessment :=
  _ ← raise_if (match finding_id r with Some f => blank_id f | None => false end) ValueError;
  match risk_status r with
  | not_assessed =>
      _ ← raise_if (negb (bool_decide (risk_method r = not_performed)) || bool_decide (is_Some (category r)) ||
                    bool_decide (is_Some (finding_id r))) ValueError;
      Ok r
  | assessed =>
      _ ← raise_if (negb (bool_decide (risk_method r = legacy_risk_engine)) || bool_decide (category r = None) ||
                    bool_decide (finding_id r = None)) ValueError;
      Ok r
  | partially_assessed => Err ValueError
  end.

(** ** Aggregation *)

(** [_verification] *)
Definition verification_of (checks : list CheckAssessment) : AssessmentStatus :=
  let statuses := map status checks in
  if bool_decide (FAILED ∈ statuses) then FAILED
  else if forallb (fun s => bool_decide (s = NOT_PERFORMED)) statuses then NOT_PERFORMED
  else if bool_decide (NEEDS_REVIEW ∈ statuses) || bool_decide (NOT_PERFORMED ∈ statuses) then NEEDS_REVIEW
  else PASSED.

(** [_omission] *)
Definition omission (path : Path) (st : Terminal) : Reason :=
  if negb (bool_decide (st = completed)) then execution_not_completed
  else if bool_decide (path = isolated) then isolated_path_unchecked else tool_path_unchecked.

(** [re.fullmatch(r"[0-9a-f]{64}", value)] *)
Definition is_digest (s : string) : bool :=
  (String.length s =? 64) && forallb (fun c => is_digit c || in_range 97 102 c) (to_chars s).

(** ** Subtasks *)

Record SubtaskAssessment := mk_Subtask {
  sub_execution_status : Terminal;
  sub_output_sha256 : string;
  subtask_id : string;
  path : Path;
  sub_verification : AssessmentStatus;
  checks : list CheckAssessment;
  risk : RiskAssessment;
}.

#[export] Instance SubtaskAssessment_eq_dec : EqDecision SubtaskAssessment.
Proof. solve_decision. Defined.

(** A completed classic subtask carries real checks. *)
Definition classic_check_ok (c : CheckAssessment) : bool :=
  if bool_decide (criterion c = accuracy) then bool_decide (reason c = no_trusted_accuracy_oracle)
  else bool_decide (status c ∈ [PASSED; FAILED]).

Definition unchecked_ok (r : Reason) (c : CheckAssessment) : bool :=
  bool_decide (status c = NOT_PERFORMED) && bool_decide (reason c = r).

(** [SubtaskAssessment] *)
Definition subtask_consistent (s : SubtaskAssessment) : result SubtaskAssessment :=
  _ ← raise_if (negb (is_digest (sub_output_sha256 s))) ValueError;
  _ ← raise_if (blank_id (subtask_id s)) ValueError;
  _ ← all_ok (map check_consistent (checks s));
  _ ← risk_consistent (risk s);
  _ ← raise_if (negb (bool_decide (map criterion (checks s) = CRITERIA))) ValueError;
  _ ← raise_if (negb (bool_decide (sub_verification s = verification_of (checks s)))) ValueError;
  _ ← raise_if (match path s with
                | classic => false
                | tool => negb (String.eqb (subtask_id s) "tool_loop")
                | isolated => negb (String.eqb (subtask_id s) "isolated")
                end) ValueError;
  if bool_decide (path s = classic) && bool_decide (sub_execution_status s = completed) then
    _ ← raise_if (negb (bool_decide (risk_status (risk s) = assessed))) ValueError;
    _ ← raise_if (negb (forallb classic_check_ok (checks s))) ValueError;
    Ok s
  else
    _ ← raise_if (negb (bool_decide (risk_status (risk s) = not_assessed)) ||
                  negb (forallb (unchecked_ok (omission (path s) (sub_execution_status s))) (checks s))) ValueError;
    Ok s.

(** ** Executions *)

Record ExecutionAssessment := mk_Execution {
  execution_status : Terminal;
  output_sha256 : string;
  task_id : string;
  verification : AssessmentStatus;
  exec_risk_status : RiskStatus;
  independently_verified : bool;
  subtasks : list SubtaskAssessment;
}.

#[export] Instance ExecutionAssessment_eq_dec : EqDecision ExecutionAssessment.
Proof. solve_decision. Defined.

(** [_risk_status] *)
Definition risk_status_of (ss : list SubtaskAssessment) : RiskStatus :=
  let n := count (fun s => bool_decide (risk_status (risk s) = assessed)) ss in
  if n =? 0 then not_assessed else if n =? length ss then assessed else partially_assessed.

Definition all_checks (ss : list SubtaskAssessment) : list CheckAssessment := flat_map checks ss.

(** [ExecutionAssessment] *)
Definition execution_consistent (e : ExecutionAssessment) : result ExecutionAssessment :=
  _ ← raise_if (negb (is_digest (output_sha256 e))) ValueError;
  _ ← raise_if (blank_id (task_id e)) ValueError;
  _ ← raise_if (independently_verified e) ValueError;
  _ ← all_ok (map subtask_consistent (subtasks e));
  _ ← raise_if (bool_decide (subtasks e = []) && negb (bool_decide (execution_status e = failed))) ValueError;
  _ ← raise_if (bool_decide (execution_status e = completed) &&
                existsb (fun s => negb (bool_decide (sub_execution_status s = completed))) (subtasks e)) ValueError;
  _ ← raise_if (negb (bool_decide (verification e = verification_of (all_checks (subtasks e))))) ValueError;
  _ ← raise_if (negb (bool_decide (exec_risk_status e = risk_status_of (subtasks e)))) ValueError;
  Ok e.

(** ** Outputs *)

(** [None], a [str], or any other value with its [str()]. *)
Inductive output := ONone | OStr (s : string) | OOther (text : string).

Definition render_output (v : output) : string :=
  match v with ONone => "" | OStr s => s | OOther text => text end.

Definition output_digest (v : output) : string := sha256_hex (render_output v).

(** [_terminal] *)
Definition terminal_of (value : string) : result Terminal :=
  if String.eqb value "completed" then Ok completed
  else if String.eqb value "failed" then Ok failed
  else if String.eqb value "cancelled" then Ok cancelled
  else if String.eqb value "timeout" then Ok timeout
  else Err ValueError.

Definition terminal_value (t : Terminal) : string :=
  match t with
  | completed => "completed" | failed => "failed" | cancelled => "cancelled" | timeout => "timeout"
  end.

(** ** Builders *)

Definition blank_completed (st : string) (out : output) : bool :=
  String.eqb st "completed" && is_blank (render_output out).

Definition unchecked_check (r : Reason) (c : Criterion) : CheckAssessment :=
  mk_Check c NOT_PERFORMED not_performed r None.

Definition omission_of (p : Path) (st : string) : Reason :=
  if negb (String.eqb st "completed") then execution_not_completed
  else if bool_decide (p = isolated) then isolated_path_unchecked else tool_path_unchecked.

(** [unchecked_subtask] *)
Definition unchecked_subtask (sid : string) (p : Path) (st : string) (out : output) : result SubtaskAssessment :=
  _ ← raise_if (blank_completed st out) ValueError;
  let r := omission_of p st in
  t ← terminal_of st;
  checks ← all_ok (map (fun c => check_consistent (unchecked_check r c)) CRITERIA);
  risk ← risk_consistent (mk_Risk not_assessed not_performed None None);
  subtask_consistent (mk_Subtask t (output_digest out) sid p NOT_PERFORMED checks risk).

Record CheckOutcome := mk_Outcome { outcome_passed : bool; outcome_score : score }.

(** [VerificationResult.checks] *)
Definition VerificationResult : Type := (list (string * CheckOutcome)).

Definition criterion_name (c : Criterion) : string :=
  match c with completeness => "completeness" | accuracy => "accuracy" | safety => "safety" end.

(** One turn of the loop of [classic_subtask]. *)
Definition classic_check (v : VerificationResult) (c : Criterion) : result CheckAssessment :=
  match heuristic c with
  | None => check_consistent (unchecked_check no_trusted_accuracy_oracle accuracy)
  | Some m =>
      match dget (criterion_name c) v with
      | None => Err KeyError
      | Some o =>
          check_consistent (mk_Check c (if outcome_passed o then PASSED else FAILED) m
            (if outcome_passed o then heuristic_passed else heuristic_failed) (Some (outcome_score o)))
      end
  end.

(** [classic_subtask] *)
Definition classic_subtask (sid st : string) (out : output) (v : VerificationResult) (cat : RiskCategory)
    (finding : string) : result SubtaskAssessment :=
  _ ← raise_if (negb (String.eqb st "completed") || is_blank (render_output out)) ValueError;
  checks ← all_ok (map (classic_check v) CRITERIA);
  t ← terminal_of st;
  risk ← risk_consistent (mk_Risk assessed legacy_risk_engine (Some cat) (Some finding));
  subtask_consistent (mk_Subtask t (output_digest out) sid classic (verification_of checks) checks risk).

(** [build_assessment] *)
Definition build_assessment (tid st : string) (out : output) (ss : list SubtaskAssessment)
    : result ExecutionAssessment :=
  _ ← raise_if (blank_completed st out) ValueError;
  t ← terminal_of st;
  execution_consistent (mk_Execution t (output_digest out) tid (verification_of (all_checks ss))
                          (risk_status_of ss) false ss).

(** [bound_assessment] *)
Definition bound_assessment (a : option ExecutionAssessment) (tid st : string) (out : output)
    : option ExecutionAssessment :=
  match a with
  | None => None
  | Some a =>
      match execution_consistent a with
      | Err _ => None
      | Ok report =>
          if negb (String.eqb (task_id report) tid) ||
             negb (String.eqb (terminal_value (execution_status report)) st) ||
             negb (String.eqb (output_sha256 report) (output_digest out))
          then None else Some report
      end
  end.

Definition underscores_to_spaces (s : string) : string := replace_char "_"%char " "%char s.

Definition status_value (s : AssessmentStatus) : string :=
  match s with
  | NOT_PERFORMED => "not_performed" | PASSED => "passed" | FAILED => "failed" | NEEDS_REVIEW => "needs_review"
  end.

Definition risk_value (r : RiskStatus) : string :=
  match r with
  | not_assessed => "not_assessed" | assessed => "assessed" | partially_assessed => "partially_assessed"
  end.

(** [assessment_notice] *)
Definition assessment_notice (a : option ExecutionAssessment) : string :=
  match a with
  | None => "Runtime assessment: unavailable. No independent verification or authorization."
  | Some a =>
      let checks_text := underscores_to_spaces (status_value (verification a)) in
      let heuristic_used := existsb (fun c => negb (bool_decide (method c = not_performed))) (all_checks (subtasks a)) in
      let detail := if heuristic_used then " (heuristic checks only; accuracy not checked)" else "" in
      let risk_text := underscores_to_spaces (risk_value (exec_risk_status a)) in
      let risk_detail := if String.eqb risk_text "not assessed" then ""
                         else " (synthetic-finding heuristic, not a safety clearance)" in
      "Runtime assessment: execution " +:+ terminal_value (execution_status a) +:+ "; checks " +:+ checks_text
      +:+ detail +:+ "; risk " +:+ risk_text +:+ risk_detail
      +:+ ". No independent verification or authorization."
  end.

(** [assessed_output] *)
Definition assessed_output (out : output) (a : option ExecutionAssessment) (tid st : string) : string :=
  render_output out +:+ of_chars [newline; newline] +:+ assessment_notice (bound_assessment a tid st out).

(** ** Facts: checks *)

Lemma digest_ok out : is_digest (output_digest out) = true.
Proof.
  destruct (sha256_hex_shape (render_output out)) as [H1 H2]. unfold is_digest, output_digest. rewrite H1. exact H2.
Qed.

(** No check of accuracy is ever performed. *)
Lemma accuracy_unperformed c c' :
  check_consistent c = Ok c' -> criterion c = accuracy -> status c = NOT_PERFORMED.
Proof.
  unfold check_consistent. intros (_ & _ & H)%result_bind_ok Hc. rewrite Hc in H.
  case_bool_decide as Hs; [done|]. done.
Qed.

Lemma check_consistent_id c c' : check_consistent c = Ok c' -> c' = c.
Proof.
  unfold check_consistent. intros (_ & _ & H)%result_bind_ok. case_bool_decide.
  - do 2 (apply result_bind_ok in H as (_ & _ & H)). by injection H.
  - destruct (heuristic _), (check_score c); try done.
    do 5 (apply result_bind_ok in H as (_ & _ & H)). by injection H.
Qed.

Lemma all_ok_elem {A B} (f : A -> result B) l k x :
  all_ok (map f l) = Ok k -> x ∈ l -> exists y, f x = Ok y.
Proof.
  revert k. induction l as [|y l IH]; intros k; [by intros _ ?%elem_of_nil|]. cbn.
  intros (b & Hb & H)%result_bind_ok. apply result_bind_ok in H as (bs & Hbs & _).
  intros [->|Hx]%elem_of_cons; [by exists b|by eapply IH].
Qed.

(** What a validated subtask satisfies. *)
Lemma subtask_facts s s' :
  subtask_consistent s = Ok s' ->
  s' = s /\ map criterion (checks s) = CRITERIA /\ sub_verification s = verification_of (checks s) /\
  (forall c, c ∈ checks s -> exists c', check_consistent c = Ok c').
Proof.
  unfold subtask_consistent. intros (_ & _ & H)%result_bind_ok. apply result_bind_ok in H as (_ & _ & H).
  apply result_bind_ok in H as (k & Hk & H). apply result_bind_ok in H as (_ & _ & H).
  apply result_bind_ok in H as ([] & Hcrit%raise_if_ok & H).
  apply result_bind_ok in H as ([] & Hver%raise_if_ok & H). breflect.
  apply result_bind_ok in H as (_ & _ & H). split_and!; [|done|done|by intros c; eapply all_ok_elem].
  destruct (_ && _); do 2 (try apply result_bind_ok in H as (_ & _ & H)); by injection H.
Qed.

Lemma verification_not_passed cs c :
  c ∈ cs -> status c = NOT_PERFORMED -> verification_of cs <> PASSED.
Proof.
  intros Hin Hc. unfold verification_of. case_bool_decide; [done|].
  destruct (forallb _ _) eqn:Hall; [done|].
  assert (NOT_PERFORMED ∈ map status cs) as Hn.
  { rewrite <- Hc. by apply list_elem_of_In, List.in_map, list_elem_of_In. }
  by rewrite (bool_decide_true _ Hn), orb_true_r.
Qed.

Lemma subtask_has_unperformed s s' :
  subtask_consistent s = Ok s' -> exists c, c ∈ checks s /\ criterion c = accuracy /\ status c = NOT_PERFORMED.
Proof.
  intros (_ & Hcrit & _ & Hok)%subtask_facts.
  assert (accuracy ∈ map criterion (checks s)) as Ha by (rewrite Hcrit; set_solver).
  apply list_elem_of_In, List.in_map_iff in Ha as (c & Hc & Hin%list_elem_of_In).
  exists c. split_and!; [done|done|]. destruct (Hok c Hin) as [c' Hc']. by eapply accuracy_unperformed.
Qed.

Lemma execution_facts e e' :
  execution_consistent e = Ok e' ->
  e' = e /\ independently_verified e = false /\
  (forall s, s ∈ subtasks e -> exists s', subtask_consistent s = Ok s') /\
  (subtasks e = [] -> execution_status e = failed) /\
  (execution_status e = completed -> forall s, s ∈ subtasks e -> sub_execution_status s = completed) /\
  verification e = verification_of (all_checks (subtasks e)) /\ exec_risk_status e = risk_status_of (subtasks e).
Proof.
  unfold execution_consistent. intros (_ & _ & H)%result_bind_ok. apply result_bind_ok in H as (_ & _ & H).
  apply result_bind_ok in H as ([] & Hiv%raise_if_ok & H). apply result_bind_ok in H as (k & Hk & H).
  apply result_bind_ok in H as ([] & Hnil%raise_if_ok & H). apply result_bind_ok in H as ([] & Hcomp%raise_if_ok & H).
  apply result_bind_ok in H as ([] & Hver%raise_if_ok & H). apply result_bind_ok in H as ([] & Hrisk%raise_if_ok & H).
  breflect. injection H as <-. split_and!; try done.
  - intros s. by eapply all_ok_elem.
  - intros Hs. rewrite (bool_decide_true _ Hs) in Hnil. cbn in Hnil. by breflect.
  - intros Hst s Hs. rewrite (bool_decide_true _ Hst) in Hcomp. cbn in Hcomp.
    destruct (decide (sub_execution_status s = completed)) as [|Hne]; [done|]. exfalso.
    apply not_true_iff_false in Hcomp. apply Hcomp, existsb_exists. exists s.
    split; [by apply list_elem_of_In|]. by rewrite bool_decide_false.
Qed.

(** No report claims more than the runtime checks: a validated assessment
    is never PASSED, neither is any of its subtasks, since accuracy is checked
    by nothing, and it never claims independent verification. *)
Theorem assessment_never_passed e e' :
  execution_consistent e = Ok e' ->
  verification e <> PASSED /\ independently_verified e = false /\
  forall s, s ∈ subtasks e -> sub_verification s <> PASSED.
Proof.
  intros (_ & Hiv & Hsubs & _ & _ & Hver & _)%execution_facts. split_and!; [|done|].
  - rewrite Hver. destruct (subtasks e) as [|s ss]; [done|].
    destruct (Hsubs s) as [s' Hs]; [by left|]. destruct (subtask_has_unperformed _ _ Hs) as (c & Hc & _ & Hn).
    apply (verification_not_passed _ c); [|done]. cbn. apply elem_of_app. by left.
  - intros s Hs. destruct (Hsubs s Hs) as [s' Hs']. apply subtask_facts in Hs' as Hf.
    destruct Hf as (_ & _ & -> & _). destruct (subtask_has_unperformed _ _ Hs') as (c & Hc & _ & Hn).
    by eapply verification_not_passed.
Qed.

(** ** Facts: builders *)

Lemma terminal_of_iff st t : terminal_of st = Ok t <-> st = terminal_value t.
Proof.
  unfold terminal_of. split.
  - repeat (match goal with |- context [String.eqb st ?x] => destruct (String.eqb_spec st x) as [->|] end;
      [intros [= <-]; done|]). done.
  - intros ->. by destruct t.
Qed.

Lemma bound_iff a tid st out r :
  bound_assessment a tid st out = Some r <->
  a = Some r /\ execution_consistent r = Ok r /\ task_id r = tid /\
  st = terminal_value (execution_status r) /\ output_sha256 r = output_digest out.
Proof.
  unfold bound_assessment. destruct a as [a|]; [|naive_solver].
  destruct (execution_consistent a) as [a'|] eqn:Ha.
  - apply execution_facts in Ha as Hf. destruct Hf as (-> & _).
    destruct (String.eqb_spec (task_id a) tid) as [<-|]; cbn [negb orb]; [|naive_solver].
    destruct (String.eqb_spec (terminal_value (execution_status a)) st) as [<-|]; cbn [negb orb]; [|naive_solver].
    destruct (String.eqb_spec (output_sha256 a) (output_digest out)) as [<-|]; cbn [negb]; naive_solver.
  - split; [done|]. intros ([= ->] & Hr & _). congruence.
Qed.

(** An assessment is bound to its execution: what [build_assessment] makes
    is accepted by [bound_assessment] for the same task, status and output, and
    for another task, status or output (of another digest) never. *)
Theorem assessment_is_bound tid st out ss e tid' st' out' :
  build_assessment tid st out ss = Ok e ->
  bound_assessment (Some e) tid st out = Some e /\
  (bound_assessment (Some e) tid' st' out' = Some e <->
   tid' = tid /\ st' = st /\ output_digest out' = output_digest out).
Proof.
  unfold build_assessment. intros (_ & _ & H)%result_bind_ok.
  apply result_bind_ok in H as (t & Ht%terminal_of_iff & H). apply execution_facts in H as Hf.
  destruct Hf as (-> & _). rewrite !bound_iff. cbn [task_id execution_status output_sha256]. subst st.
  split; [done|]. naive_solver.
Qed.

Lemma unchecked_check_ok r c :
  is_verdict r = false -> (r = no_trusted_accuracy_oracle -> c = accuracy) ->
  check_consistent (unchecked_check r c) = Ok (unchecked_check r c).
Proof. intros Hr Hc. destruct r, c; try done; by specialize (Hc eq_refl). Qed.

Lemma omission_facts p st : is_verdict (omission_of p st) = false /\ omission_of p st <> no_trusted_accuracy_oracle.
Proof. unfold omission_of. destruct (negb _); [done|]. by case_bool_decide. Qed.

Lemma omission_check_ok p st c :
  check_consistent (unchecked_check (omission_of p st) c) = Ok (unchecked_check (omission_of p st) c).
Proof. destruct (omission_facts p st). by apply unchecked_check_ok. Qed.

Lemma omission_terminal p t : omission_of p (terminal_value t) = omission p t.
Proof. by destruct t. Qed.

(** The fixed unit ids. *)
Definition unit_id_ok (p : Path) (sid : string) : Prop :=
  match p with classic => sid <> ""%string | tool => sid = "tool_loop"%string | isolated => sid = "isolated"%string end.

Lemma unit_id_nonblank p sid : unit_id_ok p sid -> blank_id sid = false.
Proof. destruct p; cbn; [intros; by apply String.eqb_neq|by intros ->|by intros ->]. Qed.

Lemma unit_id_path p sid : unit_id_ok p sid ->
  match p with classic => false | tool => negb (String.eqb sid "tool_loop") | isolated => negb (String.eqb sid "isolated") end = false.
Proof. destruct p; cbn; [done|by intros ->|by intros ->]. Qed.

Definition unassessed : RiskAssessment := mk_Risk not_assessed not_performed None None.

Definition unchecked_record (t : Terminal) (digest sid : string) (p : Path) : SubtaskAssessment :=
  mk_Subtask t digest sid p NOT_PERFORMED (map (unchecked_check (omission p t)) CRITERIA) unassessed.

Lemma unchecked_record_consistent t digest sid p :
  is_digest digest = true -> unit_id_ok p sid ->
  subtask_consistent (unchecked_record t digest sid p) =
  if bool_decide (p = classic) && bool_decide (t = completed) then Err ValueError
  else Ok (unchecked_record t digest sid p).
Proof.
  intros Hd Hid. unfold subtask_consistent, unchecked_record.
  cbn [sub_output_sha256 subtask_id checks risk sub_verification path sub_execution_status].
  rewrite Hd, (unit_id_nonblank p sid Hid). destruct p, t; cbn in Hid; subst; reflexivity.
Qed.

(** An execution that was not checked can always be reported, and says so:
    for a terminal status, a unit id of its path and an output that is not blank
    if it completed, [unchecked_subtask] builds a valid report with no check
    performed, unless a classic unit completed, which it refuses. *)
Theorem unchecked_subtask_spec sid p t out :
  unit_id_ok p sid -> blank_completed (terminal_value t) out = false ->
  match unchecked_subtask sid p (terminal_value t) out with
  | Ok s => subtask_consistent s = Ok s /\ sub_verification s = NOT_PERFORMED /\ risk s = unassessed /\
            (forall c, c ∈ checks s -> status c = NOT_PERFORMED) /\ ~ (p = classic /\ t = completed)
  | Err e => e = ValueError /\ p = classic /\ t = completed
  end.
Proof.
  intros Hid Hblank. unfold unchecked_subtask. rewrite Hblank. cbn [raise_if mbind result_bind].
  rewrite (proj2 (terminal_of_iff _ t) eq_refl). cbn [mbind result_bind map CRITERIA all_ok].
  rewrite !omission_check_ok. cbn [mbind result_bind]. change (risk_consistent _) with (Ok unassessed).
  cbn [mbind result_bind]. rewrite omission_terminal.
  change (mk_Subtask _ _ _ _ _ _ _) with (unchecked_record t (output_digest out) sid p).
  pose proof (unchecked_record_consistent t (output_digest out) sid p (digest_ok out) Hid) as Hs.
  rewrite Hs. destruct (bool_decide (p = classic) && bool_decide (t = completed)) eqn:Hpc; [by breflect|].
  split_and!; [exact Hs|done|done| |].
  - intros c Hc. apply list_elem_of_In, List.in_map_iff in Hc as (k & <- & _). done.
  - intros [-> ->]. done.
Qed.

(** A check's outcome as the verifier reports it: full score exactly when it
    passed, and no score for a failed denylist. *)
Definition coherent (c : Criterion) (o : CheckOutcome) : Prop :=
  score_ok (outcome_score o) = true /\ SFeqb (outcome_score o) float_one = outcome_passed o /\
  (c = safety -> outcome_passed o = false -> SFeqb (outcome_score o) float_zero = true).

Definition heuristic_check (c : Criterion) (m : Method) (o : CheckOutcome) : CheckAssessment :=
  mk_Check c (if outcome_passed o then PASSED else FAILED) m
    (if outcome_passed o then heuristic_passed else heuristic_failed) (Some (outcome_score o)).

Lemma heuristic_check_ok c m o :
  heuristic c = Some m -> coherent c o -> check_consistent (heuristic_check c m o) = Ok (heuristic_check c m o).
Proof.
  intros Hm (Hs & H1 & H0). unfold check_consistent, heuristic_check.
  cbn [criterion status method reason check_score]. rewrite Hs. cbn [negb raise_if mbind result_bind].
  destruct (outcome_passed o) eqn:Hp; rewrite Hm, H1.
  - destruct c, m; done.
  - destruct c; [destruct m; done|done|]. rewrite (H0 eq_refl eq_refl). destruct m; done.
Qed.

Lemma classic_checks_ok v oc os :
  dget "completeness"%string v = Some oc -> dget "safety"%string v = Some os ->
  coherent completeness oc -> coherent safety os ->
  all_ok (map (classic_check v) CRITERIA) =
    Ok [heuristic_check completeness legacy_keyword_coverage oc;
        unchecked_check no_trusted_accuracy_oracle accuracy;
        heuristic_check safety legacy_denylist os].
Proof.
  intros Hc Hs Hcc Hcs. cbn [map CRITERIA all_ok]. unfold classic_check. cbn [heuristic criterion_name].
  rewrite Hc, Hs. fold (heuristic_check completeness legacy_keyword_coverage oc).
  fold (heuristic_check safety legacy_denylist os). rewrite !heuristic_check_ok by done.
  by rewrite unchecked_check_ok.
Qed.

(** A completed classic unit is reported with its two heuristic checks and
    its risk: for outcomes whose scores match their verdicts the report is valid,
    and its verdict is FAILED when a heuristic failed and otherwise only
    NEEDS_REVIEW. *)
Theorem classic_subtask_spec sid out v cat finding oc os :
  sid <> ""%string -> finding <> ""%string -> is_blank (render_output out) = false ->
  dget "completeness"%string v = Some oc -> dget "safety"%string v = Some os ->
  coherent completeness oc -> coherent safety os ->
  exists s, classic_subtask sid "completed" out v cat finding = Ok s /\ subtask_consistent s = Ok s /\
    sub_verification s = (if outcome_passed oc && outcome_passed os then NEEDS_REVIEW else FAILED) /\
    risk s = mk_Risk assessed legacy_risk_engine (Some cat) (Some finding) /\
    sub_output_sha256 s = output_digest out.
Proof.
  intros Hid Hf Hblank Hc Hs Hcc Hcs. unfold classic_subtask. rewrite Hblank, (classic_checks_ok v oc os) by done.
  cbn [negb String.eqb Ascii.eqb Bool.eqb orb raise_if mbind result_bind terminal_of].
  assert (risk_consistent (mk_Risk assessed legacy_risk_engine (Some cat) (Some finding)) =
          Ok (mk_Risk assessed legacy_risk_engine (Some cat) (Some finding))) as Hrisk.
  { unfold risk_consistent. cbn. unfold blank_id. by rewrite (proj2 (String.eqb_neq _ _) Hf). }
  change (if String.eqb "completed" "completed" then Ok completed else _) with (Ok completed).
  cbn [mbind result_bind]. rewrite Hrisk. cbn [mbind result_bind].
  set (cs := [_; _; _]). set (s := mk_Subtask _ _ _ _ _ _ _). exists s.
  assert (verification_of cs = if outcome_passed oc && outcome_passed os then NEEDS_REVIEW else FAILED) as Hv.
  { unfold cs, verification_of, heuristic_check. destruct (outcome_passed oc), (outcome_passed os); reflexivity. }
  assert (subtask_consistent s = Ok s) as Hcons; [|by split_and!].
  unfold subtask_consistent. cbn [s sub_output_sha256 subtask_id checks risk sub_verification path sub_execution_status].
  rewrite digest_ok. unfold blank_id. rewrite (proj2 (String.eqb_neq _ _) Hid), Hrisk.
  unfold cs. cbn [map all_ok]. rewrite !heuristic_check_ok by done. rewrite unchecked_check_ok by done.
  rewrite (bool_decide_true (verification_of _ = verification_of _)) by done.
  unfold heuristic_check. destruct (outcome_passed oc), (outcome_passed os); reflexivity.
Qed.

(** ** Samples *)

Definition half : score := S754_finite false 4503599627370496 (-53).

Definition sample_outcomes : VerificationResult :=
  [("completeness", mk_Outcome true float_one); ("safety", mk_Outcome true float_one)]%string.

Definition sample_subtask : SubtaskAssessment :=
  match classic_subtask "unit-1" "completed" (OStr "done") sample_outcomes LOW "finding-1" with
  | Ok s => s
  | Err _ => unchecked_record failed "" "" classic
  end.

Definition sample_assessment : ExecutionAssessment :=
  match build_assessment "task-1" "completed" (OStr "done") [sample_subtask] with
  | Ok e => e
  | Err _ => mk_Execution failed "" "" NOT_PERFORMED not_assessed false []
  end.

Example sample_notice :
  assessment_notice (Some sample_assessment) =
  "Runtime assessment: execution completed; checks needs review (heuristic checks only; accuracy not checked); risk assessed (synthetic-finding heuristic, not a safety clearance). No independent verification or authorization."%string.
Proof. vm_compute. reflexivity. Qed.

Lemma assessment_never_passed_witness :
  verification sample_assessment = NEEDS_REVIEW /\ verification sample_assessment <> PASSED.
Proof.
  split; [vm_compute; reflexivity|].
  refine (proj1 (assessment_never_passed sample_assessment sample_assessment _)). vm_compute. reflexivity.
Defined.

Lemma assessment_is_bound_witness :
  bound_assessment (Some sample_assessment) "task-1" "completed" (OStr "done") = Some sample_assessment.
Proof.
  refine (proj1 (assessment_is_bound "task-1" "completed" (OStr "done") [sample_subtask] sample_assessment "" "" ONone _)).
  vm_compute. reflexivity.
Defined.

Lemma unchecked_subtask_spec_witness :
  match unchecked_subtask "tool_loop" tool "completed" (OStr "x") with
  | Ok s => sub_verification s = NOT_PERFORMED
  | Err _ => False
  end.
Proof.
  pose proof (unchecked_subtask_spec "tool_loop" tool completed (OStr "x") eq_refl eq_refl) as H.
  cbn [terminal_value] in H. destruct (unchecked_subtask _ _ _ _) as [s|e]; [apply H|by destruct H as (_ & ? & _)].
Defined.

Lemma classic_subtask_spec_witness :
  exists s, classic_subtask "unit-1" "completed" (OStr "done")
    [("completeness", mk_Outcome false half); ("safety", mk_Outcome true float_one)]%string LOW "finding-1" = Ok s /\
    sub_verification s = FAILED.
Proof.
  destruct (classic_subtask_spec "unit-1" (OStr "done")
    [("completeness", mk_Outcome false half); ("safety", mk_Outcome true float_one)]%string LOW "finding-1"
    (mk_Outcome false half) (mk_Outcome true float_one)) as (s & H1 & _ & H2 & _);
    [discriminate|discriminate|vm_compute; reflexivity|vm_compute; reflexivity|vm_compute; reflexivity| | |].
  - split_and!; [vm_compute; reflexivity|vm_compute; reflexivity|discriminate].
  - split_and!; [vm_compute; reflexivity|vm_compute; reflexivity|discriminate].
  - exists s. split; [exact H1|exact H2].
Defined.
