(* ===== verification/AdmissionModels.v ===== *)
(** * Owner admission: identities and records

    [src/agency/admission/models.py] and [auth.py]: the sanitized errors, the
    owner's principal, its authentication, and the records the owner store
    keeps.  Arguments of a wrong Python type, which the code answers with
    [PilotError], are excluded by the types here. *)
From S2P Require Import Prelude PyStr PyDict PyJson Sha256.

(** ** Errors *)

(** [_ERRORS], the status codes *)
Definition ERRORS : list (string * Z) :=
  [("unauthorized", 401); ("forbidden", 403); ("not_found", 404); ("conflict", 409); ("too_large", 413);
   ("media", 415); ("invalid_request", 422); ("quota", 429); ("disabled", 503); ("audit", 503);
   ("store", 503); ("uncertainty", 503)]%string%Z.

(** [PilotError(code, uncertain=...)], whose [status_code] is the table's *)
Definition pilot_error (code : string) (uncertain : bool) : exn :=
  let code := if dmem code ERRORS then code else "disabled"%string in
  PilotError code (default 503%Z (dget code ERRORS)) uncertain.

Definition pilot (code : string) : exn := pilot_error code false.

(** ** Identifiers *)

(** [_identifier] *)
Definition identifier (value : string) : result unit :=
  raise_if (is_blank value || (128 <? py_len value)%Z) (pilot "invalid_request").

Definition id_tail (c : ascii) : bool :=
  is_alnum c || bool_decide (c ∈ to_chars "._:-").

(** [_id] of [store.py]: [[A-Za-z0-9][A-Za-z0-9._:-]{0,127}] as a full match. *)
Definition is_id (value : string) : bool :=
  match to_chars value with
  | c :: l => is_alnum c && forallb id_tail l && (length l <=? 127)
  | [] => false
  end.

Definition check_id (value : string) : result unit := raise_if (negb (is_id value)) (pilot "invalid_request").

(** ** The owner *)

Record OwnerPrincipal := mk_Principal { owner_id : string; transport : string; subject_id : string }.

#[export] Instance OwnerPrincipal_eq_dec : EqDecision OwnerPrincipal.
Proof. solve_decision. Defined.

(** [OwnerPrincipal.__post_init__] *)
Definition check_principal (p : OwnerPrincipal) : result unit :=
  _ ← identifier (owner_id p);
  _ ← identifier (subject_id p);
  raise_if (negb (bool_decide (transport p ∈ ["local"; "telegram"]%string))) (pilot "invalid_request").

Definition new_principal (owner tr subject : string) : result OwnerPrincipal :=
  let p := mk_Principal owner tr subject in _ ← check_principal p; Ok p.

(** ** Authentication *)

(** [OwnerAuthenticator]; the polling marker is compared by identity, which a
    number stands for. *)
Record OwnerAuthenticator := mk_Authenticator {
  au_local : OwnerPrincipal;
  au_secret : string;
  au_telegram_user : option Z;
  au_marker : option nat;
}.

Definition new_authenticator (owner subject secret : string) (user : option Z) (marker : option nat)
    : result OwnerAuthenticator :=
  p ← new_principal owner "local" subject;
  Ok (mk_Authenticator p secret user marker).

(** [authenticate_local] *)
Definition authenticate_local (authorization : option string) (a : OwnerAuthenticator) : result OwnerPrincipal :=
  match authorization with
  | None => Err (pilot "unauthorized")
  | Some given =>
      _ ← raise_if (String.eqb (au_secret a) "") (pilot "unauthorized");
      _ ← raise_if (negb (String.eqb given ("Bearer " +:+ au_secret a))) (pilot "unauthorized");
      Ok (au_local a)
  end.

(** The largest SQLite integer. *)
Definition MAX_SQLITE_INT : Z := 2 ^ 63 - 1.

(** [authenticate_telegram] *)
Definition authenticate_telegram (user_id chat_id : Z) (chat_type : string) (update_id : Z) (marker : option nat)
    (a : OwnerAuthenticator) : result OwnerPrincipal :=
  match au_telegram_user a, au_marker a with
  | Some expected, Some own =>
      _ ← raise_if ((expected <=? 0)%Z || negb (bool_decide (marker = Some own)) ||
                    negb ((0 <=? update_id)%Z && (update_id <=? MAX_SQLITE_INT)%Z) ||
                    negb (user_id =? expected)%Z || negb (chat_id =? user_id)%Z ||
                    negb (String.eqb chat_type "private")) (pilot "unauthorized");
      new_principal (owner_id (au_local a)) "telegram" (py_str_int user_id)
  | _, _ => Err (pilot "unauthorized")
  end.

(** ** Wire records *)

(** [ThreadView], [MessageView], [RequestReceipt]; the state of a request *)
Inductive RequestState := ADMITTED | RUNNING | COMPLETED | FAILED | DENIED | CANCELLED | UNCERTAIN.

#[export] Instance RequestState_eq_dec : EqDecision RequestState.
Proof. solve_decision. Defined.

Record ThreadView := mk_ThreadView {
  tv_id : string;
  tv_title : string;
  tv_parent : option string;
  tv_state : string;
  tv_created_at : string;
  tv_updated_at : string;
}.

Record MessageView := mk_MessageView {
  mv_id : string;
  mv_thread : string;
  mv_role : string;
  mv_content : string;
  mv_created_at : string;
}.

#[export] Instance MessageView_eq_dec : EqDecision MessageView.
Proof. solve_decision. Defined.

Record RequestReceipt := mk_Receipt {
  rc_request_id : string;
  rc_state : RequestState;
  rc_replayed : bool;
  rc_resource : option string;
}.

(** [OwnerTaskRequest.model_validate({"request_id": ..., **payload})] and the
    exact keys [admit] then asks for: the thread and the message. *)
Definition turn_request (rid : string) (payload : list (string * json)) : result (string * string) :=
  match dget "thread_id"%string payload, dget "message"%string payload with
  | Some (JStr tid), Some (JStr message) =>
      _ ← raise_if (negb (is_id rid) ||
                    negb ((1 <=? py_len tid) && (py_len tid <=? 128))%Z ||
                    negb ((1 <=? py_len message) && (py_len message <=? 8000))%Z ||
                    negb (length payload =? 2)) (pilot "invalid_request");
      Ok (tid, message)
  | _, _ => Err (pilot "invalid_request")
  end.

(** [_canonical]: the canonical value and the digest of its compact text. *)
Definition canonical (value : json) (maximum : Z) : result (json * string) :=
  match dumps_compact value with
  | Err _ => Err (pilot "invalid_request")
  | Ok text =>
      _ ← raise_if (maximum <? utf8_len text)%Z (pilot "too_large");
      Ok (canon value, sha256_hex text)
  end.

(** [AdmissionRecord], without [provider_config_id], which nothing writes; the
    JSON columns hold values, and every request of the store has a thread and a
    resource. *)
Record Request (T : Type) := mk_Request {
  sequence : Z;
  r_owner : string;
  request_id : string;
  operation : string;
  input_digest : string;
  input_json : json;
  task_id : option string;
  thread_id : string;
  resource_id : string;
  state : RequestState;
  phase : string;
  cancel_requested : bool;
  model_attempts : Z;
  tool_attempts : Z;
  result_json : option (json * string);   (* with result_digest *)
  error_code : option string;
  message_ids : option (string * string); (* user_message_id, assistant_message_id *)
  created_at : T;
  updated_at : T;
}.
Arguments mk_Request {T}.
Arguments sequence {T} _.
Arguments r_owner {T} _.
Arguments request_id {T} _.
Arguments operation {T} _.
Arguments input_digest {T} _.
Arguments input_json {T} _.
Arguments task_id {T} _.
Arguments thread_id {T} _.
Arguments resource_id {T} _.
Arguments state {T} _.
Arguments phase {T} _.
Arguments cancel_requested {T} _.
Arguments model_attempts {T} _.
Arguments tool_attempts {T} _.
Arguments result_json {T} _.
Arguments error_code {T} _.
Arguments message_ids {T} _.
Arguments created_at {T} _.
Arguments updated_at {T} _.

Record AdmissionRecord (T : Type) := mk_Record { record : Request T; replayed : bool }.
Arguments mk_Record {T}.
Arguments record {T} _.
Arguments replayed {T} _.
