(* ===== verification/AdmissionStore.v ===== *)
(** * The owner store

    [OwnerPilotStore] of [src/agency/admission/store.py]: durable admission of
    the owner's turns and the atomic publication of their transcripts.

    The database is the record [Db] of the tables the store uses; the Python
    sets, which a rollback does not restore, are fields of the store.  Every
    [time.time()] and [uuid.uuid4()] takes the next value of an arbitrary
    stream.  The asyncio gate makes each operation one step, except that
    [fence_publication] takes no gate: the argument [fenced] of [commit_turn]
    says that it ran meanwhile. *)
From S2P Require Import Prelude PyStr PyDict PyJson Sha256 Assessment AdmissionModels.
Import AdmissionModels.

(** ** Tables *)

Record Subject := mk_Subject { quota_subject_id : Z; su_owner : string; su_workspace : string }.

Record Workspace := mk_Workspace { ws_id : string; ws_owner : string; ws_title : string; ws_created_at : string }.

Record Thread := mk_Thread {
  th_id : string;
  th_workspace : string;
  th_owner : string;
  th_title : string;
  th_parent : option string;
  th_state : string;
  th_created_at : string;
  th_updated_at : string;
}.

Section Store.
Context {T : Type} `{Clock T}.

Record Event := mk_Event { ev_sequence : Z; ev_phase : string; ev_code : string; ev_created_at : T }.

Record Db := mk_Db {
  workspaces : list Workspace;
  subjects : list Subject;
  threads : list Thread;
  messages : list MessageView;
  requests : list (Request T);
  events : list Event;
}.

(** The schema of a new file. *)
Definition empty_db : Db := mk_Db [] [] [] [] [] [].

Record OwnerPilotStore := mk_Store {
  db : Db;
  ready : bool;
  closed : bool;
  fresh_turns : gset Z;
  blocked_sequences : gset Z;
  publication_closed : bool;
  ticks : nat;   (* clock readings so far *)
  hexes : nat;   (* uuids so far *)
}.

Definition set_db (d : Db) (s : OwnerPilotStore) : OwnerPilotStore :=
  mk_Store d (ready s) (closed s) (fresh_turns s) (blocked_sequences s) (publication_closed s) (ticks s) (hexes s).

(** [OwnerPilotStore(db_path)] over the file's present contents *)
Definition new_store (path : string) (s : OwnerPilotStore) : result OwnerPilotStore :=
  _ ← raise_if (is_blank path || String.eqb path ":memory:" || py_startswith path "file:") (pilot "invalid_request");
  Ok (mk_Store (db s) false false ∅ ∅ false (ticks s) (hexes s)).

Definition set_fresh (f : gset Z) (s : OwnerPilotStore) : OwnerPilotStore :=
  mk_Store (db s) (ready s) (closed s) f (blocked_sequences s) (publication_closed s) (ticks s) (hexes s).

(** [self._fresh_turns.discard] and [self._blocked_sequences.add] *)
Definition discard_fresh (seq : Z) (s : OwnerPilotStore) : OwnerPilotStore := set_fresh (fresh_turns s ∖ {[seq]}) s.
Definition block (seq : Z) (s : OwnerPilotStore) : OwnerPilotStore :=
  mk_Store (db s) (ready s) (closed s) (fresh_turns s) ({[seq]} ∪ blocked_sequences s) (publication_closed s)
    (ticks s) (hexes s).

(** ** Columns a statement updates *)

Definition set_life (st : RequestState) (ph : string) (err : option string) (u : T) (r : Request T) : Request T :=
  mk_Request (sequence r) (r_owner r) (request_id r) (operation r) (input_digest r) (input_json r) (task_id r)
    (thread_id r) (resource_id r) st ph (cancel_requested r) (model_attempts r) (tool_attempts r)
    (result_json r) err (message_ids r) (created_at r) u.

Definition set_phase (ph : string) (u : T) (r : Request T) : Request T := set_life (state r) ph (error_code r) u r.

Definition set_cancelled (st : RequestState) (u : T) (r : Request T) : Request T :=
  mk_Request (sequence r) (r_owner r) (request_id r) (operation r) (input_digest r) (input_json r) (task_id r)
    (thread_id r) (resource_id r) st "cancelled" true (model_attempts r) (tool_attempts r)
    (result_json r) (error_code r) (message_ids r) (created_at r) u.

Definition set_staged (res : json * string) (u : T) (r : Request T) : Request T :=
  mk_Request (sequence r) (r_owner r) (request_id r) (operation r) (input_digest r) (input_json r) (task_id r)
    (thread_id r) (resource_id r) (state r) "staged" (cancel_requested r) (model_attempts r) (tool_attempts r)
    (Some res) (error_code r) (message_ids r) (created_at r) u.

Definition set_attempts (m t : Z) (u : T) (r : Request T) : Request T :=
  mk_Request (sequence r) (r_owner r) (request_id r) (operation r) (input_digest r) (input_json r) (task_id r)
    (thread_id r) (resource_id r) (state r) (phase r) (cancel_requested r) m t
    (result_json r) (error_code r) (message_ids r) (created_at r) u.

Definition set_requests (l : list (Request T)) (d : Db) : Db :=
  mk_Db (workspaces d) (subjects d) (threads d) (messages d) l (events d).
Definition set_threads (l : list Thread) (d : Db) : Db :=
  mk_Db (workspaces d) (subjects d) l (messages d) (requests d) (events d).
Definition set_messages (l : list MessageView) (d : Db) : Db :=
  mk_Db (workspaces d) (subjects d) (threads d) l (requests d) (events d).
Definition set_events (l : list Event) (d : Db) : Db :=
  mk_Db (workspaces d) (subjects d) (threads d) (messages d) (requests d) l.

Definition update_request (seq : Z) (f : Request T -> Request T) : py OwnerPilotStore unit :=
  modify (fun s => set_db (set_requests (update_where (fun r => sequence r =? seq)%Z f (requests (db s))) (db s)) s).

(** ** Joins *)

(** The thread is the owner's, in a workspace of his. *)
Definition owned_thread (d : Db) (owner : string) (t : Thread) : bool :=
  String.eqb (th_owner t) owner &&
  existsb (fun s => String.eqb (su_workspace s) (th_workspace t) && String.eqb (su_owner s) owner) (subjects d).

Definition find_thread (d : Db) (owner tid : string) : option Thread :=
  List.find (fun t => String.eqb (th_id t) tid && owned_thread d owner t) (threads d).

(** The request's thread is its owner's. *)
Definition visible (d : Db) (r : Request T) : bool :=
  match find_thread d (r_owner r) (thread_id r) with Some _ => true | None => false end.

(** UNIQUE(owner_id, request_id) *)
Definition find_request (d : Db) (owner rid : string) : option (Request T) :=
  List.find (fun r => String.eqb (r_owner r) owner && String.eqb (request_id r) rid) (requests d).

Definition is_turn (r : Request T) : bool := String.eqb (operation r) "turn".

Definition live_state (st : RequestState) : bool := bool_decide (st ∈ [ADMITTED; RUNNING]).

(** ** Clock, uuids, transactions *)

Section Operations.
Context (time_time : nat -> T) (uuid_hex : nat -> string).
Context (iso : T -> string).  (* datetime.fromtimestamp(_, UTC).isoformat() *)
Context (model_dump : ExecutionAssessment -> json) (model_validate : json -> result ExecutionAssessment).

Definition now : py OwnerPilotStore T := fun s =>
  (Ok (time_time (ticks s)),
   mk_Store (db s) (ready s) (closed s) (fresh_turns s) (blocked_sequences s) (publication_closed s)
     (S (ticks s)) (hexes s)).

Definition uuid4 : py OwnerPilotStore string := fun s =>
  (Ok (uuid_hex (hexes s)),
   mk_Store (db s) (ready s) (closed s) (fresh_turns s) (blocked_sequences s) (publication_closed s)
     (ticks s) (S (hexes s))).

(** What SQLite and the disk do: all well, no transaction, or no COMMIT. *)
Inductive sql_outcome := SqlFine | SqlNoBegin | SqlNoCommit.

(** What [except (sqlite3.Error, OSError, ValueError)] catches. *)
Definition store_error (e : exn) : exn :=
  match e with IntegrityError | SqliteError | ValueError => pilot "store" | _ => e end.

(** [fence_publication] *)
Definition fence_publication (s : OwnerPilotStore) : OwnerPilotStore :=
  mk_Store (db s) (ready s) (closed s) (fresh_turns s) (blocked_sequences s) true (ticks s) (hexes s).

(** [_transaction]: the database is rolled back unless COMMIT succeeds, the
    sets are not; [fenced]: the fence fell before the publication gate. *)
Definition transaction {A} (sql : sql_outcome) (publication fenced : bool) (work : py OwnerPilotStore A)
    : py OwnerPilotStore A := fun s =>
  match sql with
  | SqlNoBegin => (Err (pilot "store"), s)
  | _ =>
      match work s with
      | (Err e, s') => (Err (store_error e), set_db (db s) s')
      | (Ok a, s') =>
          let s' := if fenced then fence_publication s' else s' in
          if publication && publication_closed s'
          then (Err (pilot_error "disabled" true), set_db (db s) s')
          else match sql with
               | SqlNoCommit => (Err (pilot "store"), set_db (db s) s')
               | _ => (Ok a, s')
               end
      end
  end.

(** [_run] *)
Definition run {A} (sql : sql_outcome) (work : py OwnerPilotStore A) : py OwnerPilotStore A :=
  up ← gets (fun s => ready s && negb (closed s));
  _ ← raise_when (negb up) (pilot "store");
  transaction sql false false work.

(** [_run(work, publication=True)] *)
Definition run_publication {A} (sql : sql_outcome) (fenced : bool) (work : py OwnerPilotStore A)
    : py OwnerPilotStore A :=
  up ← gets (fun s => ready s && negb (closed s));
  _ ← raise_when (negb up) (pilot "store");
  transaction sql true fenced work.

(** [initialize]; [held]: another process holds the recovery lock *)
Definition initialize (held io : bool) : py OwnerPilotStore unit :=
  shut ← gets closed;
  _ ← raise_when shut (pilot "store");
  up ← gets ready;
  if (up : bool) then mret tt
  else
    _ ← raise_when (held || negb io) (pilot "store");
    modify (fun s => mk_Store (db s) true (closed s) (fresh_turns s) (blocked_sequences s)
                       (publication_closed s) (ticks s) (hexes s)).

(** [close] *)
Definition close : py OwnerPilotStore unit :=
  modify (fun s => mk_Store (db s) false true (fresh_turns s) (blocked_sequences s) true (ticks s) (hexes s)).

(** ** Rows *)

(** AUTOINCREMENT over a table whose rows are never deleted. *)
Definition next_id {A} (l : list A) : Z := Z.of_nat (length l) + 1.

(** INSERT INTO pilot_requests *)
Definition insert_request (r : Request T) : py OwnerPilotStore unit :=
  d ← gets db;
  _ ← raise_when (existsb (fun q => String.eqb (r_owner q) (r_owner r) && String.eqb (request_id q) (request_id r) ||
                                    match task_id r with Some t => bool_decide (task_id q = Some t) | None => false end)
                    (requests d)) IntegrityError;
  modify (fun s => set_db (set_requests (requests (db s) ++ [r]) (db s)) s).

(** [_event] *)
Definition event (seq : Z) (ph code : string) : py OwnerPilotStore unit :=
  t ← now;
  modify (fun s => set_db (set_events (events (db s) ++ [mk_Event seq ph code t]) (db s)) s).

(** [_workspace] *)
Definition workspace (p : OwnerPrincipal) : py OwnerPilotStore string :=
  d ← gets db;
  match List.find (fun s => String.eqb (su_owner s) (owner_id p)) (subjects d) with
  | Some row => mret (su_workspace row)
  | None =>
      w ← uuid4;
      t ← now;
      _ ← raise_when (existsb (fun x => String.eqb (ws_id x) w) (workspaces d) ||
                      existsb (fun x => String.eqb (su_workspace x) w) (subjects d)) IntegrityError;
      _ ← modify (fun s => set_db
            (mk_Db (workspaces (db s) ++ [mk_Workspace w (owner_id p) "Owner pilot" (iso t)])
                   (subjects (db s) ++ [mk_Subject (next_id (subjects (db s))) (owner_id p) w])
                   (threads (db s)) (messages (db s)) (requests (db s)) (events (db s))) s);
      mret w
  end.

(** [ensure_workspace] *)
Definition ensure_workspace (sql : sql_outcome) (p : OwnerPrincipal) : py OwnerPilotStore string :=
  _ ← lift (check_principal p);
  run sql (workspace p).

(** [_thread] *)
Definition thread (p : OwnerPrincipal) (tid : string) : py OwnerPilotStore Thread :=
  _ ← lift (check_id tid);
  d ← gets db;
  match find_thread d (owner_id p) tid with
  | Some t => mret t
  | None => raise (pilot "not_found")
  end.

(** [_thread_view] *)
Definition thread_view (t : Thread) : ThreadView :=
  mk_ThreadView (th_id t) (th_title t) (th_parent t) (th_state t) (th_created_at t) (th_updated_at t).

(** [_request_row] *)
Definition request_row (p : OwnerPrincipal) (rid : string) : py OwnerPilotStore (Request T) :=
  d ← gets db;
  match List.find (fun r => String.eqb (r_owner r) (owner_id p) && String.eqb (request_id r) rid && visible d r)
          (requests d) with
  | Some r => mret r
  | None => raise (pilot "not_found")
  end.

(** [_turn] *)
Definition turn (seq : Z) : py OwnerPilotStore (Request T) :=
  _ ← raise_when (negb ((1 <=? seq) && (seq <=? MAX_SQLITE_INT))%Z) (pilot "invalid_request");
  d ← gets db;
  match List.find (fun r => (sequence r =? seq)%Z && is_turn r && visible d r) (requests d) with
  | Some r => mret r
  | None => raise (pilot "not_found")
  end.

(** [time.time() >= row["created_at"] + 120] *)
Definition lapsed (r : Request T) : py OwnerPilotStore bool :=
  t ← now; mret (t_le (t_add (created_at r) 120) t).

(** [_live] *)
Definition live (r : Request T) : py OwnerPilotStore unit :=
  _ ← raise_when (negb (bool_decide (state r = RUNNING)) || cancel_requested r) (pilot "conflict");
  late ← lapsed r;
  raise_when late (pilot_error "uncertainty" true).

(** The stored request answers another with the same id only if they agree. *)
Definition same_input (op digest : string) (v : json) (r : Request T) : bool :=
  String.eqb (operation r) op && String.eqb (input_digest r) digest && bool_decide (input_json r = v).

(** ** Operations *)

(** [create_thread] *)
Definition create_thread (sql : sql_outcome) (p : OwnerPrincipal) (rid title : string) (parent : option string)
    : py OwnerPilotStore (RequestReceipt * ThreadView) :=
  _ ← lift (check_principal p);
  _ ← lift (check_id rid);
  _ ← raise_when (negb ((1 <=? py_len title) && (py_len title <=? 120))%Z) (pilot "invalid_request");
  payload ← lift (canonical (JObj [("title"%string, JStr title);
                      ("parent_thread_id"%string, match parent with Some q => JStr q | None => JNull end)]) 32768);
  run sql (
    d ← gets db;
    match find_request d (owner_id p) rid with
    | Some r =>
        _ ← raise_when (negb (same_input "new_thread" payload.2 payload.1 r)) (pilot "conflict");
        t ← thread p (resource_id r);
        mret (mk_Receipt rid (state r) true (Some (th_id t)), thread_view t)
    | None =>
        w ← workspace p;
        _ ← match parent with Some q => _ ← thread p q; mret tt | None => mret tt end;
        tid ← uuid4;
        t ← now;
        d ← gets db;
        _ ← raise_when (existsb (fun x => String.eqb (th_id x) tid) (threads d)) IntegrityError;
        _ ← modify (fun s => set_db (set_threads (threads (db s) ++
              [mk_Thread tid w (owner_id p) title parent "active" (iso t) (iso t)]) (db s)) s);
        _ ← insert_request (mk_Request (next_id (requests d)) (owner_id p) rid "new_thread" payload.2 payload.1
              None tid tid COMPLETED "committed" false 0 0 None None None t t);
        view ← thread p tid;
        mret (mk_Receipt rid COMPLETED false (Some tid), thread_view view)
    end).

(** [admit] *)
Definition admit_turn (sql : sql_outcome) (p : OwnerPrincipal) (rid op : string) (payload : list (string * json))
    : py OwnerPilotStore (AdmissionRecord T) :=
  _ ← lift (check_principal p);
  _ ← lift (check_id rid);
  _ ← raise_when (negb (String.eqb op "turn")) (pilot "invalid_request");
  validated ← lift (turn_request rid payload);
  text ← lift (canonical (JObj payload) 32768);
  run sql (
    _ ← thread p validated.1;
    d ← gets db;
    match find_request d (owner_id p) rid with
    | Some r =>
        _ ← raise_when (negb (same_input op text.2 text.1 r)) (pilot "conflict");
        mret (mk_Record r true)
    | None =>
        tid ← uuid4;
        t ← now;
        user ← uuid4;
        assistant ← uuid4;
        _ ← insert_request (mk_Request (next_id (requests d)) (owner_id p) rid op text.2 text.1
              (Some tid) validated.1 tid ADMITTED "admitted" false 0 0 None None (Some (user, assistant)) t t);
        row ← request_row p rid;
        _ ← modify (fun s => set_fresh ({[sequence row]} ∪ fresh_turns s) s);
        mret (mk_Record row false)
    end).

(** [_claim]: the turn and the owner's quota subject *)
Definition claim (sql : sql_outcome) (p : OwnerPrincipal) (rid tid : string)
    : py OwnerPilotStore (AdmissionRecord T * Z) :=
  _ ← lift (check_principal p);
  _ ← lift (check_id rid);
  _ ← lift (check_id tid);
  run sql (
    row ← request_row p rid;
    _ ← raise_when (negb (bool_decide (task_id row = Some tid)) || negb (is_turn row)) (pilot "not_found");
    _ ← thread p (thread_id row);
    fresh ← gets fresh_turns;
    _ ← raise_when (negb (bool_decide (sequence row ∈ fresh)) || negb (bool_decide (state row = ADMITTED)) ||
                    negb (String.eqb (phase row) "admitted") || cancel_requested row) (pilot "conflict");
    late ← lapsed row;
    _ ← raise_when late (pilot "conflict");
    _ ← modify (discard_fresh (sequence row));
    u ← now;
    _ ← update_request (sequence row) (set_phase "reserved" u);
    d ← gets db;
    match List.find (fun s => String.eqb (su_owner s) (owner_id p)) (subjects d) with
    | Some s => mret (mk_Record row false, quota_subject_id s)
    | None => raise TypeError
    end).

(** [get] *)
Definition get_task (sql : sql_outcome) (p : OwnerPrincipal) (tid : string) : py OwnerPilotStore (AdmissionRecord T) :=
  _ ← lift (check_principal p);
  _ ← lift (check_id tid);
  run sql (
    d ← gets db;
    match List.find (fun r => String.eqb (r_owner r) (owner_id p) && bool_decide (task_id r = Some tid) && is_turn r)
            (requests d) with
    | None => raise (pilot "not_found")
    | Some row => _ ← thread p (thread_id row); mret (mk_Record row false)
    end).

(** [get_request] *)
Definition get_request (sql : sql_outcome) (p : OwnerPrincipal) (rid : string)
    : py OwnerPilotStore (AdmissionRecord T) :=
  _ ← lift (check_principal p);
  _ ← lift (check_id rid);
  run sql (row ← request_row p rid; mret (mk_Record row false)).

(** [has_uncertainty] *)
Definition has_uncertainty (sql : sql_outcome) (p : OwnerPrincipal) : py OwnerPilotStore bool :=
  _ ← lift (check_principal p);
  run sql (gets (fun s => existsb (fun r => String.eqb (r_owner r) (owner_id p) && is_turn r && visible (db s) r &&
                                     bool_decide (state r = UNCERTAIN)) (requests (db s)))).

(** [list_tasks]: newest first; rows are kept in the order of their sequence *)
Definition list_tasks (sql : sql_outcome) (p : OwnerPrincipal) (limit : Z)
    : py OwnerPilotStore (list (AdmissionRecord T)) :=
  _ ← lift (check_principal p);
  _ ← raise_when (negb ((1 <=? limit) && (limit <=? 100))%Z) (pilot "invalid_request");
  run sql (gets (fun s =>
    map (fun r => mk_Record r false)
      (take (Z.to_nat limit) (rev (List.filter (fun r =>
         String.eqb (r_owner r) (owner_id p) && is_turn r && visible (db s) r) (requests (db s))))))).

Definition TRANSITIONS (expected : RequestState) : list RequestState :=
  match expected with
  | ADMITTED => [RUNNING; FAILED; DENIED; CANCELLED; UNCERTAIN]
  | RUNNING => [FAILED; UNCERTAIN]
  | _ => []
  end.

Definition PHASES : list string :=
  ["admitted"; "reserved"; "running"; "dispatch"; "request"; "result"; "staged"; "committed"; "finished";
   "failed"; "denied"; "cancelled"; "uncertain"; "recovery"]%string.

Definition CODES : list string :=
  ["unauthorized"; "forbidden"; "not_found"; "conflict"; "too_large"; "media"; "invalid_request"; "quota";
   "disabled"; "audit"; "store"; "uncertainty"]%string.

(** [state.lower()] *)
Definition state_code (st : RequestState) : string :=
  match st with
  | ADMITTED => "admitted" | RUNNING => "running" | COMPLETED => "completed" | FAILED => "failed"
  | DENIED => "denied" | CANCELLED => "cancelled" | UNCERTAIN => "uncertain"
  end.

(** [transition] *)
Definition transition (sql : sql_outcome) (seq : Z) (expected target : RequestState) (ph : string)
    (err : option string) : py OwnerPilotStore unit :=
  _ ← raise_when (negb (bool_decide (target ∈ TRANSITIONS expected)) || negb (bool_decide (ph ∈ PHASES)))
        (pilot "conflict");
  _ ← raise_when (match err with Some c => negb (bool_decide (c ∈ CODES)) | None => false end)
        (pilot "invalid_request");
  run sql (
    row ← turn seq;
    _ ← raise_when (negb (bool_decide (state row = expected))) (pilot "conflict");
    late ← (if bool_decide (target = RUNNING) then
              if cancel_requested row then mret true else lapsed row
            else mret false);
    _ ← raise_when late (pilot "conflict");
    _ ← raise_when (bool_decide (target = CANCELLED) &&
                    negb ((model_attempts row =? 0) && (tool_attempts row =? 0))%Z) (pilot "conflict");
    u ← now;
    _ ← update_request seq (set_life target ph err u);
    _ ← event seq ph (default (state_code target) err);
    if bool_decide (target = RUNNING) then mret tt
    else _ ← modify (block seq); modify (discard_fresh seq)).

(** [_result]: what a turn's text and report become, bound to the turn *)
Definition bind_result (row : Request T) (text : string) (a : option ExecutionAssessment) : result json :=
  _ ← raise_if (is_blank text) (pilot "invalid_request");
  _ ← raise_if (65536 <? utf8_len text)%Z (pilot "too_large");
  report ← match a with
           | None => Ok JNull
           | Some a =>
               a ← execution_consistent a;
               _ ← raise_if (negb (bool_decide (task_id row = Some (Assessment.task_id a))) ||
                             negb (String.eqb (output_sha256 a) (output_digest (OStr text))) ||
                             negb (bool_decide (execution_status a = completed))) (pilot "conflict");
               Ok (model_dump a)
           end;
  Ok (JObj [("task_id", match task_id row with Some t => JStr t | None => JNull end);
            ("response", JStr text); ("assessment", report)]%string).

(** [except ValueError: raise PilotError("invalid_request")] *)
Definition reject_value_error {A} (r : result A) : result A :=
  match r with Err ValueError => Err (pilot "invalid_request") | _ => r end.

Definition snapshot_result (row : Request T) (snapshot : json) : result json :=
  reject_value_error (
    a ← match jget "assessment" snapshot with
        | Some JNull => Ok None
        | Some v => a ← model_validate v; Ok (Some a)
        | None => Err KeyError
        end;
    match jget "response" snapshot with
    | Some (JStr text) => bind_result row text a
    | _ => Err (pilot "invalid_request")
    end).

(** [stage_result] *)
Definition stage_result (sql : sql_outcome) (seq : Z) (value : list (string * json)) : py OwnerPilotStore unit :=
  _ ← raise_when (negb (forallb (fun k => dmem k value) ["task_id"; "response"; "assessment"]%string) ||
                  negb (length value =? 3)) (pilot "invalid_request");
  encoded ← lift (canonical (JObj value) 524288);
  run sql (
    row ← turn seq;
    _ ← live row;
    bound ← lift (snapshot_result row encoded.1);
    _ ← raise_when (negb (bool_decide (canon bound = encoded.1))) (pilot "conflict");
    text ← lift (canonical bound 524288);
    _ ← raise_when (match result_json row with Some old => negb (bool_decide (old = text)) | None => false end)
          (pilot "conflict");
    u ← now;
    _ ← update_request seq (set_staged text u);
    event seq "staged" "staged").

(** INSERT INTO thread_messages *)
Definition insert_message (m : MessageView) : py OwnerPilotStore unit :=
  d ← gets db;
  _ ← raise_when (existsb (fun x => String.eqb (mv_id x) (mv_id m)) (messages d)) IntegrityError;
  modify (fun s => set_db (set_messages (messages (db s) ++ [m]) (db s)) s).

(** [commit_turn]; a turn has its message ids *)
Definition commit_turn (sql : sql_outcome) (fenced : bool) (seq : Z) (text : string)
    (a : option ExecutionAssessment) : py OwnerPilotStore unit :=
  run_publication sql fenced (
    row ← turn seq;
    _ ← live row;
    bound ← lift (bind_result row text a);
    res ← lift (canonical bound 524288);
    _ ← raise_when (negb (bool_decide (result_json row = Some res))) (pilot "conflict");
    t ← now;
    digest ← lift (canonical (input_json row) 32768);
    _ ← raise_when (negb (String.eqb digest.2 (input_digest row))) (pilot "store");
    match jget "thread_id" (input_json row), jget "message" (input_json row), message_ids row with
    | Some owner_thread, Some (JStr message), Some (user, assistant) =>
        _ ← raise_when (negb (bool_decide (owner_thread = JStr (thread_id row)))) (pilot "store");
        _ ← insert_message (mk_MessageView user (thread_id row) "user" message (iso t));
        _ ← insert_message (mk_MessageView assistant (thread_id row) "assistant" text (iso t));
        _ ← modify (fun s => set_db (set_threads (update_where (fun x =>
              String.eqb (th_id x) (thread_id row) && String.eqb (th_owner x) (r_owner row))
              (fun x => mk_Thread (th_id x) (th_workspace x) (th_owner x) (th_title x) (th_parent x) (th_state x)
                          (th_created_at x) (iso t)) (threads (db s))) (db s)) s);
        _ ← update_request seq (fun r => set_life COMPLETED "committed" (error_code r) t r);
        _ ← event seq "committed" "completed";
        _ ← modify (block seq);
        modify (discard_fresh seq)
    | None, _, _ | _, None, _ => raise KeyError
    | _, _, _ => raise IntegrityError
    end).

(** [request_cancel] *)
Definition request_cancel (sql : sql_outcome) (p : OwnerPrincipal) (tid rid : string)
    : py OwnerPilotStore (AdmissionRecord T) :=
  _ ← lift (check_principal p);
  _ ← lift (check_id tid);
  _ ← lift (check_id rid);
  payload ← lift (canonical (JObj [("task_id"%string, JStr tid)]) 32768);
  run sql (
    d ← gets db;
    match List.find (fun r => String.eqb (r_owner r) (owner_id p) && bool_decide (task_id r = Some tid) && is_turn r)
            (requests d) with
    | None => raise (pilot "not_found")
    | Some target =>
        _ ← thread p (thread_id target);
        match find_request d (owner_id p) rid with
        | Some r =>
            _ ← raise_when (negb (same_input "cancel" payload.2 payload.1 r)) (pilot "conflict");
            mret (mk_Record target true)
        | None =>
            t ← now;
            _ ← insert_request (mk_Request (next_id (requests d)) (owner_id p) rid "cancel" payload.2 payload.1
                  None (thread_id target) tid COMPLETED "cancelled" false 0 0 None None None t t);
            _ ← (if live_state (state target) then
                   let st := if bool_decide (state target = ADMITTED) &&
                                ((model_attempts target =? 0) && (tool_attempts target =? 0))%Z
                             then CANCELLED else state target in
                   _ ← update_request (sequence target) (set_cancelled st t);
                   _ ← modify (discard_fresh (sequence target));
                   _ ← modify (block (sequence target));
                   event (sequence target) "cancelled" "cancelled"
                 else mret tt);
            row ← turn (sequence target);
            mret (mk_Record row false)
        end
    end).

(** One row of [recover_interrupted] *)
Definition recover_row (row : Request T) : py OwnerPilotStore (AdmissionRecord T) :=
  u ← now;
  _ ← update_request (sequence row) (set_life UNCERTAIN "recovery" (Some "uncertainty"%string) u);
  _ ← modify (discard_fresh (sequence row));
  _ ← modify (block (sequence row));
  _ ← event (sequence row) "recovery" "uncertainty";
  r ← turn (sequence row);
  mret (mk_Record r false).

(** [recover_interrupted] *)
Definition recover_interrupted (sql : sql_outcome) : py OwnerPilotStore (list (AdmissionRecord T)) :=
  run sql (
    d ← gets db;
    for_each recover_row (List.filter (fun r => is_turn r && live_state (state r)) (requests d))).

Inductive AttemptKind := model_attempt | tool_attempt.

Definition attempt_ceiling (k : AttemptKind) : Z := match k with model_attempt => 8 | tool_attempt => 4 end.
Definition attempts (k : AttemptKind) (r : Request T) : Z :=
  match k with model_attempt => model_attempts r | tool_attempt => tool_attempts r end.
Definition count_attempt (k : AttemptKind) (u : T) (r : Request T) : Request T :=
  match k with
  | model_attempt => set_attempts (model_attempts r + 1) (tool_attempts r) u r
  | tool_attempt => set_attempts (model_attempts r) (tool_attempts r + 1) u r
  end.
Definition kind_value (k : AttemptKind) : string :=
  match k with model_attempt => "model" | tool_attempt => "tool" end.

(** [reserve_attempt] *)
Definition reserve_attempt (sql : sql_outcome) (seq : Z) (kind : AttemptKind) (limit : Z)
    : py OwnerPilotStore bool :=
  _ ← raise_when (negb ((1 <=? limit) && (limit <=? attempt_ceiling kind))%Z) (pilot "invalid_request");
  run sql (
    row ← turn seq;
    over ← (if negb (bool_decide (state row = RUNNING)) || cancel_requested row || (limit <=? attempts kind row)%Z
            then mret true else lapsed row);
    if (over : bool) then mret false
    else
      u ← now;
      _ ← update_request seq (count_attempt kind u);
      _ ← event seq "dispatch" (kind_value kind);
      mret true).

(** [list_threads] *)
Definition list_threads (sql : sql_outcome) (p : OwnerPrincipal) : py OwnerPilotStore (list ThreadView) :=
  _ ← lift (check_principal p);
  run sql (gets (fun s => map thread_view (List.filter (owned_thread (db s) (owner_id p)) (threads (db s))))).

(** [list_messages] *)
Definition list_messages (sql : sql_outcome) (p : OwnerPrincipal) (tid : string)
    : py OwnerPilotStore (list MessageView) :=
  _ ← lift (check_principal p);
  run sql (
    _ ← thread p tid;
    gets (fun s => List.filter (fun m => String.eqb (mv_thread m) tid) (messages (db s)))).
End Operations.
End Store.

Arguments Db : clear implicits.
Arguments OwnerPilotStore : clear implicits.
Arguments Event : clear implicits.
