(* ===== verification/AdmissionLife.v ===== *)
(** * The life of an owner's turn

    The abstract machine of [AdmissionStore]: what one operation may do to the
    requests and the transcript ([effect]), the proof that every operation,
    whatever fails under it, is one such step, and what follows for every run:
    the life of a turn, idempotent admission, single claims, atomic
    publication, and recovery after a crash. *)
From S2P Require Import Prelude PyStr PyDict PyJson Sha256 Assessment AdmissionModels AdmissionStore.
Import AdmissionModels AdmissionStore.

Section Machine.
Context {T : Type} `{Clock T}.
Implicit Types (r q : Request T) (d : Db T).

(** ** The abstract machine *)

(** What no statement ever changes. *)
Definition same_request r q : Prop :=
  sequence q = sequence r /\ r_owner q = r_owner r /\ request_id q = request_id r /\
  operation q = operation r /\ input_digest q = input_digest r /\ input_json q = input_json r /\
  task_id q = task_id r /\ thread_id q = thread_id r /\ resource_id q = resource_id r /\
  message_ids q = message_ids r /\ created_at q = created_at r.

(** Where a state may go, without publishing. *)
Definition next_states (st : RequestState) : list RequestState :=
  match st with
  | ADMITTED => [ADMITTED; RUNNING; FAILED; DENIED; CANCELLED; UNCERTAIN]
  | RUNNING => [RUNNING; FAILED; UNCERTAIN]
  | _ => []
  end.

(** One statement on a live turn: it keeps its identity, counters never go
    down or over their ceilings, a staged result and a cancellation stay. *)
Record turn_step r q : Prop := {
  ts_turn : is_turn r = true;
  ts_same : same_request r q;
  ts_state : state q ∈ next_states (state r);
  ts_models : model_attempts q = model_attempts r \/
              (model_attempts q = model_attempts r + 1 /\ model_attempts q <= 8)%Z;
  ts_tools : tool_attempts q = tool_attempts r \/
             (tool_attempts q = tool_attempts r + 1 /\ tool_attempts q <= 4)%Z;
  ts_result : result_json r = None \/ result_json q = result_json r;
  ts_cancel : cancel_requested r = true -> cancel_requested q = true;
}.

(** A turn as it is admitted, and the receipts of the other operations. *)
Record new_turn r : Prop := {
  nt_turn : operation r = "turn"%string;
  nt_state : state r = ADMITTED;
  nt_counts : model_attempts r = 0%Z /\ tool_attempts r = 0%Z;
  nt_result : result_json r = None;
  nt_message : exists m, jget "message" (input_json r) = Some (JStr m);
}.

Definition receipt r : Prop :=
  operation r ∈ ["new_thread"; "cancel"]%string /\ state r = COMPLETED.

(** A row that INSERT accepts. *)
Definition new_row d r : Prop :=
  sequence r = next_id (requests d) /\
  (forall q, q ∈ requests d -> ~ (r_owner q = r_owner r /\ request_id q = request_id r)).

(** The turn's two messages, once its result is staged. *)
Definition turn_messages (at_ : string) r : list MessageView :=
  match message_ids r, jget "message" (input_json r), result_json r with
  | Some (user, assistant), Some (JStr message), Some (v, _) =>
      match jget "response" v with
      | Some (JStr text) =>
          [mk_MessageView user (thread_id r) "user" message at_;
           mk_MessageView assistant (thread_id r) "assistant" text at_]
      | _ => []
      end
  | _, _, _ => []
  end.

(** A running turn with a staged result becomes completed and nothing else. *)
Record publish r q : Prop := {
  pb_turn : is_turn r = true;
  pb_same : same_request r q;
  pb_running : state r = RUNNING;
  pb_alive : cancel_requested r = false;
  pb_completed : state q = COMPLETED;
  pb_staged : result_json q = result_json r;
  pb_counts : model_attempts q = model_attempts r /\ tool_attempts q = tool_attempts r;
  pb_messages : forall at_, length (turn_messages at_ r) = 2;
}.

(** Recovery of one row. *)
Definition recovered r q : Prop :=
  if is_turn r && live_state (state r)
  then turn_step r q /\ state q = UNCERTAIN
  else q = r.

(** What any operation but [commit_turn] may do. *)
Inductive quiet d d' : Prop :=
| eff_none : requests d' = requests d -> messages d' = messages d -> quiet d d'
| eff_insert r : new_row d r -> new_turn r \/ receipt r ->
    requests d' = requests d ++ [r] -> messages d' = messages d -> quiet d d'
| eff_update i r q : requests d !! i = Some r -> turn_step r q ->
    requests d' = <[i := q]> (requests d) -> messages d' = messages d -> quiet d d'
| eff_cancel i r q n : requests d !! i = Some r -> turn_step r q -> new_row d n -> receipt n ->
    requests d' = <[i := q]> (requests d) ++ [n] -> messages d' = messages d -> quiet d d'
| eff_recover : Forall2 recovered (requests d) (requests d') -> messages d' = messages d -> quiet d d'.

Inductive effect d d' : Prop :=
| eff_quiet : quiet d d' -> effect d d'
| eff_publish i r q at_ : requests d !! i = Some r -> publish r q ->
    requests d' = <[i := q]> (requests d) ->
    messages d' = messages d ++ turn_messages at_ r -> effect d d'.

(** Sequence numbers are positions. *)
Definition numbered d : Prop := forall i r, requests d !! i = Some r -> sequence r = (Z.of_nat i + 1)%Z.

Lemma numbered_update d seq i r f :
  numbered d -> requests d !! i = Some r -> sequence r = seq ->
  update_where (fun r => sequence r =? seq)%Z f (requests d) = <[i := f r]> (requests d).
Proof.
  intros Hn Hi <-. apply list_eq. intros j. unfold update_where.
  rewrite list_lookup_fmap. destruct (decide (j = i)) as [->|Hj].
  - rewrite list_lookup_insert_eq by (by eapply lookup_lt_Some). rewrite Hi. cbn. by rewrite Z.eqb_refl.
  - rewrite list_lookup_insert_ne by done. destruct (requests d !! j) as [q|] eqn:Hq; [|done]. cbn.
    rewrite (Hn _ _ Hi), (Hn _ _ Hq). by rewrite (proj2 (Z.eqb_neq _ _)) by lia.
Qed.
End Machine.

(** ** Invariants of the abstract machine *)

Section Invariants.
Context {T : Type} `{Clock T}.
Implicit Types (r q : Request T) (d : Db T).


Lemma same_sequence r q : same_request r q -> sequence q = sequence r.
Proof. by intros [? _]. Qed.

Lemma recovered_same r q : recovered r q -> same_request r q.
Proof. unfold recovered. case_match; [by intros [[] _]|intros ->; by repeat split]. Qed.

(** What a step does to one row: nothing, a move of a live turn, or its publication. *)
Lemma insert_row d i r j x q :
  requests d !! i = Some r -> requests d !! j = Some x ->
  exists y, <[j:=q]> (requests d) !! i = Some y /\ (y = r \/ (i = j /\ x = r /\ y = q)).
Proof.
  intros Hi Hj. destruct (decide (i = j)) as [->|Hne].
  - exists q. rewrite list_lookup_insert_eq by (by eapply lookup_lt_Some). split; [done|]. right. by simplify_eq.
  - exists r. rewrite list_lookup_insert_ne by done. by auto.
Qed.

Lemma quiet_row d d' i r :
  quiet d d' -> requests d !! i = Some r ->
  exists q, requests d' !! i = Some q /\ (q = r \/ turn_step r q).
Proof.
  intros He Hi. pose proof (lookup_lt_Some _ _ _ Hi) as Hlt.
  destruct He as [Hr _|n _ _ Hr _|j x q Hj Hs Hr _|j x q n Hj Hs _ _ Hr _|Hr _].
  - exists r. rewrite Hr. by auto.
  - exists r. rewrite Hr, lookup_app_l by done. by auto.
  - destruct (insert_row d i r j x q Hi Hj) as (y & Hy & Hcase). exists y. rewrite Hr. naive_solver.
  - destruct (insert_row d i r j x q Hi Hj) as (y & Hy & Hcase). exists y.
    rewrite Hr, lookup_app_l by by rewrite length_insert. naive_solver.
  - destruct (Forall2_lookup_l _ _ _ _ _ Hr Hi) as (q & Hq & Hrec). exists q. split; [done|].
    unfold recovered in Hrec. case_match; naive_solver.
Qed.

Lemma effect_row d d' i r :
  effect d d' -> requests d !! i = Some r ->
  exists q, requests d' !! i = Some q /\ (q = r \/ turn_step r q \/ publish r q).
Proof.
  intros [Hq|j x q a Hj Hs Hr _] Hi.
  - destruct (quiet_row _ _ _ _ Hq Hi) as (q & ? & ?). exists q. naive_solver.
  - destruct (insert_row d i r j x q Hi Hj) as (y & Hy & Hcase). exists y. rewrite Hr. naive_solver.
Qed.

(** Where a row of the next database comes from. *)
Lemma effect_origin d d' i q :
  effect d d' -> requests d' !! i = Some q ->
  (exists r, requests d !! i = Some r /\ same_request r q) \/
  (i = length (requests d) /\ new_row d q /\ (new_turn q \/ receipt q)).
Proof.
  assert (forall j x y, requests d !! j = Some x -> same_request x y -> <[j:=y]> (requests d) !! i = Some q ->
            exists r, requests d !! i = Some r /\ same_request r q) as Hins.
  { intros j x y Hj Hs [(-> & -> & _)|[_ Hq]]%list_lookup_insert_Some; [by exists x|]. exists q. split; [done|by repeat split]. }
  assert (forall l n, length l = length (requests d) -> (l ++ [n]) !! i = Some q ->
            l !! i = Some q \/ (i = length (requests d) /\ q = n)) as Happ.
  { intros l n Hl Hq. apply lookup_app_Some in Hq as [Hq|[Hge Hq]]; [by left|right].
    apply list_lookup_singleton_Some in Hq as [Hz ->]. split; [lia|done]. }
  intros [[Hr _|n Hn Hk Hr _|j x y Hj Hs Hr _|j x y n Hj Hs Hn Hk Hr _|Hr _]|j x y a Hj Hs Hr _] Hq.
  - rewrite Hr in Hq. left. exists q. split; [done|by repeat split].
  - rewrite Hr in Hq. apply Happ in Hq as [Hq|[-> ->]]; [left|by right|done].
    exists q. split; [done|by repeat split].
  - rewrite Hr in Hq. left. eapply Hins; [exact Hj|exact (ts_same _ _ Hs)|exact Hq].
  - rewrite Hr in Hq. apply Happ in Hq as [Hq|[-> ->]]; [left|right; auto|by rewrite length_insert].
    eapply Hins; [exact Hj|exact (ts_same _ _ Hs)|exact Hq].
  - left. destruct (Forall2_lookup_r _ _ _ _ _ Hr Hq) as (r & Hri & Hrec).
    exists r. split; [done|]. by apply recovered_same.
  - rewrite Hr in Hq. left. eapply Hins; [exact Hj|exact (pb_same _ _ Hs)|exact Hq].
Qed.

Lemma effect_numbered d d' : effect d d' -> numbered d -> numbered d'.
Proof.
  intros He Hn i q Hq. destruct (effect_origin _ _ _ _ He Hq) as [(r & Hr & Hs)|(-> & [Hseq _] & _)].
  - rewrite (same_sequence _ _ Hs). by apply Hn.
  - by rewrite Hseq.
Qed.

(** Request ids identify requests. *)
Definition keyed d : Prop := forall i j r q,
  requests d !! i = Some r -> requests d !! j = Some q ->
  r_owner r = r_owner q -> request_id r = request_id q -> i = j.

Lemma effect_keyed d d' : effect d d' -> numbered d -> keyed d -> keyed d'.
Proof.
  intros He Hn Hk i j r q Hr Hq Ho Hid.
  destruct (effect_origin _ _ _ _ He Hr) as [(r0 & Hr0 & Hsr)|(-> & [_ Hfr] & _)],
    (effect_origin _ _ _ _ He Hq) as [(q0 & Hq0 & Hsq)|(-> & [_ Hfq] & _)]; [| | |done].
  - destruct Hsr as (_ & Hor & Hir & _), Hsq as (_ & Hoq & Hiq & _).
    eapply Hk; [exact Hr0|exact Hq0|congruence|congruence].
  - destruct Hsr as (_ & Hor & Hir & _). exfalso.
    apply (Hfq r0); [by eapply list_elem_of_lookup_2|]. split; congruence.
  - destruct Hsq as (_ & Hoq & Hiq & _). exfalso.
    apply (Hfr q0); [by eapply list_elem_of_lookup_2|]. split; congruence.
Qed.

(** Counters within their ceilings, and settled receipts. *)
Definition row_ok r : Prop :=
  (0 <= model_attempts r <= 8)%Z /\ (0 <= tool_attempts r <= 4)%Z \/ is_turn r = false /\ state r = COMPLETED.

Definition rows_ok d : Prop := forall i r, requests d !! i = Some r -> row_ok r.

Lemma new_row_ok r : new_turn r \/ receipt r -> row_ok r.
Proof.
  intros [[_ _ [Hm Ht] _ _]|[Ho Hs]]; [left; lia|right].
  split; [|done]. unfold is_turn. apply String.eqb_neq. intros Heq. rewrite Heq in Ho. revert Ho. by vm_decide.
Qed.

Lemma moved_row_ok r q : row_ok r -> turn_step r q \/ publish r q -> row_ok q.
Proof.
  intros [[Hm Ht]|[Hn _]] [Hs|Hs].
  - left. pose proof (ts_models _ _ Hs). pose proof (ts_tools _ _ Hs). lia.
  - left. destruct (pb_counts _ _ Hs) as [-> ->]. lia.
  - by rewrite (ts_turn _ _ Hs) in Hn.
  - by rewrite (pb_turn _ _ Hs) in Hn.
Qed.

Lemma effect_rows_ok d d' : effect d d' -> rows_ok d -> rows_ok d'.
Proof.
  intros He Hok i q Hq. destruct (effect_origin _ _ _ _ He Hq) as [(r & Hr & _)|(_ & _ & Hnew)]; [|by apply new_row_ok].
  destruct (effect_row _ _ _ _ He Hr) as (q' & Hq' & Hcase). assert (q' = q) as -> by congruence.
  destruct Hcase as [->|Hmove]; [by eapply Hok|eapply moved_row_ok; [by eapply Hok|done]].
Qed.

(** ** The transcript *)

(** The messages of the turns at the given positions, published at the given times. *)
Definition transcript d (log : list (nat * string)) : list MessageView :=
  flat_map (fun e => match requests d !! e.1 with Some r => turn_messages e.2 r | None => [] end) log.

Definition completed_turn d (i : nat) : Prop :=
  exists r, requests d !! i = Some r /\ is_turn r = true /\ state r = COMPLETED.

Record published d (log : list (nat * string)) : Prop := {
  pu_nodup : NoDup (map fst log);
  pu_messages : messages d = transcript d log;
  pu_turns : forall i, i ∈ map fst log <-> completed_turn d i;
  pu_pairs : length (messages d) = 2 * length log;
}.

Lemma turn_messages_ext at_ r q : same_request r q -> result_json q = result_json r -> turn_messages at_ q = turn_messages at_ r.
Proof.
  intros (_ & _ & _ & _ & _ & Hi & _ & Ht & _ & Hm & _) Hres. unfold turn_messages. by rewrite Hi, Ht, Hm, Hres.
Qed.

Lemma completed_stays d d' i r :
  effect d d' -> requests d !! i = Some r -> live_state (state r) = false -> requests d' !! i = Some r.
Proof.
  intros He Hi Hl. destruct (effect_row _ _ _ _ He Hi) as (q & Hq & [->|[Hs|Hs]]); [done| |].
  - pose proof (ts_state _ _ Hs) as Hst. destruct (state r); try done; by apply elem_of_nil in Hst.
  - by rewrite (pb_running _ _ Hs) in Hl.
Qed.

Lemma transcript_stays d d' log :
  effect d d' -> (forall i, i ∈ map fst log -> completed_turn d i) -> transcript d' log = transcript d log.
Proof.
  intros He Hlog. unfold transcript. induction log as [|[i a] log IH]; [done|]. cbn.
  destruct (Hlog i) as (r & Hi & _ & Hc); [by left|].
  rewrite (completed_stays _ _ _ _ He Hi), Hi by by rewrite Hc. f_equal. apply IH. intros j Hj. apply Hlog. by right.
Qed.

Lemma quiet_completed d d' i : quiet d d' -> completed_turn d' i -> completed_turn d i.
Proof.
  intros Hq (r & Hi & Hturn & Hc).
  destruct (effect_origin _ _ _ _ (eff_quiet _ _ Hq) Hi) as [(q & Hqi & Hs)|(_ & _ & [Hn|Hn])].
  - destruct (quiet_row _ _ _ _ Hq Hqi) as (r' & Hr' & Hcase). assert (r' = r) as -> by congruence.
    destruct Hcase as [->|Hstep]; [by exists q|]. pose proof (ts_state _ _ Hstep) as Hst. rewrite Hc in Hst.
    exfalso. destruct (state q); revert Hst; by vm_decide.
  - exfalso. by rewrite (nt_state _ Hn) in Hc.
  - exfalso. destruct Hn as [Ho _]. apply String.eqb_eq in Hturn. rewrite Hturn in Ho. revert Ho. by vm_decide.
Qed.
Lemma quiet_published d d' log : quiet d d' -> published d log -> published d' log.
Proof.
  intros Hq [Hnd Hm Ht Hp]. pose proof (eff_quiet _ _ Hq) as He.
  assert (messages d' = messages d) as Hmsg by by destruct Hq.
  split; [done| | |by rewrite Hmsg].
  - rewrite Hmsg, Hm. symmetry. apply transcript_stays; [done|]. intros i. apply Ht.
  - intros i. rewrite Ht. split; [|by apply quiet_completed]. intros (r & Hi & Hturn & Hc).
    exists r. rewrite (completed_stays _ _ _ _ He Hi) by by rewrite Hc. done.
Qed.

Lemma effect_published d d' log : effect d d' -> published d log -> exists more, published d' (log ++ more).
Proof.
  intros He Hpub. destruct He as [Hq|i r q a Hi Hs Hr Hm] eqn:Heff.
  { exists []. rewrite app_nil_r. by eapply quiet_published. }
  clear Heff. destruct Hpub as [Hnd Hmsg Ht Hp]. pose proof (pb_running _ _ Hs) as Hrun.
  assert (effect d d') as He' by by eapply eff_publish.
  assert (i ∉ map fst log) as Hnew.
  { rewrite Ht. intros (x & Hx & _ & Hc). assert (x = r) as -> by congruence. by rewrite Hrun in Hc. }
  assert (requests d' !! i = Some q) as Hqi by (rewrite Hr, list_lookup_insert_eq; [done|by eapply lookup_lt_Some]).
  exists [(i, a)]. split.
  - rewrite map_app. apply NoDup_app. split; [done|]. split; [|apply NoDup_singleton].
    by intros x Hx ->%list_elem_of_singleton.
  - unfold transcript. rewrite flat_map_app. fold (transcript d' log). cbn. rewrite Hqi, app_nil_r.
    rewrite (transcript_stays _ _ _ He') by (intros j; by apply Ht). rewrite Hm, Hmsg. f_equal.
    symmetry. apply turn_messages_ext; [apply (pb_same _ _ Hs)|apply (pb_staged _ _ Hs)].
  - intros j. rewrite map_app. cbn [map fst]. rewrite elem_of_app, Ht, list_elem_of_singleton. split.
    + intros [(x & Hx & Htx & Hc)| ->].
      * exists x. rewrite (completed_stays _ _ _ _ He' Hx) by by rewrite Hc. done.
      * exists q. split; [done|]. split; [|apply (pb_completed _ _ Hs)].
        destruct (pb_same _ _ Hs) as (_ & _ & _ & Ho & _). unfold is_turn. rewrite Ho. apply (pb_turn _ _ Hs).
    + intros (x & Hx & Htx & Hc). destruct (decide (j = i)) as [->|Hj]; [by right|left].
      rewrite Hr, list_lookup_insert_ne in Hx by done. by exists x.
  - rewrite Hm, !length_app, Hp, (pb_messages _ _ Hs). cbn. lia.
Qed.

(** ** Ageing *)

(** States a turn may reach, its own included. *)
Definition later_states (st : RequestState) : list RequestState :=
  match st with
  | ADMITTED => [ADMITTED; RUNNING; COMPLETED; FAILED; DENIED; CANCELLED; UNCERTAIN]
  | RUNNING => [RUNNING; COMPLETED; FAILED; UNCERTAIN]
  | st => [st]
  end.

(** What a row may become over any number of steps. *)
Record aged r q : Prop := {
  ag_same : same_request r q;
  ag_state : state q ∈ later_states (state r);
  ag_final : live_state (state r) = false -> q = r;
  ag_counts : (model_attempts r <= model_attempts q /\ tool_attempts r <= tool_attempts q)%Z;
  ag_result : result_json r = None \/ result_json q = result_json r;
  ag_cancel : cancel_requested r = true -> cancel_requested q = true /\ (state q = COMPLETED -> state r = COMPLETED);
}.

Lemma aged_refl r : aged r r.
Proof.
  split; [by repeat split| |done|lia|by right|done]. destruct (state r); by vm_decide.
Qed.

Lemma step_states st st' : st' ∈ next_states st -> st' ∈ later_states st /\ st' <> COMPLETED /\ live_state st = true.
Proof. intros Hst. destruct st, st'; first [exfalso; revert Hst; vm_decide|split_and!; [vm_decide|done..]]. Qed.

Lemma aged_step r q : q = r \/ turn_step r q \/ publish r q -> aged r q.
Proof.
  intros [->|[Hs|Hs]]; [apply aged_refl| |].
  - destruct (step_states _ _ (ts_state _ _ Hs)) as (Hst & Hnc & Hl).
    split; [apply (ts_same _ _ Hs)|done|by rewrite Hl| |apply (ts_result _ _ Hs)|].
    + pose proof (ts_models _ _ Hs). pose proof (ts_tools _ _ Hs). lia.
    + intros Hc. split; [by apply (ts_cancel _ _ Hs)|done].
  - split; [apply (pb_same _ _ Hs)| | |destruct (pb_counts _ _ Hs); lia|right; apply (pb_staged _ _ Hs)|].
    + rewrite (pb_running _ _ Hs), (pb_completed _ _ Hs). by vm_decide.
    + by rewrite (pb_running _ _ Hs).
    + by rewrite (pb_alive _ _ Hs).
Qed.

Lemma same_request_trans r q x : same_request r q -> same_request q x -> same_request r x.
Proof. unfold same_request. intuition congruence. Qed.

Lemma later_trans st st' st'' : st' ∈ later_states st -> st'' ∈ later_states st' -> st'' ∈ later_states st.
Proof.
  destruct (decide (st'' ∈ later_states st)) as [|Hn]; [done|].
  destruct st, st'; intros H1; try (exfalso; revert H1; vm_decide);
    destruct st''; intros H2; first [exfalso; revert H2; vm_decide|vm_decide].
Qed.

Lemma aged_trans r q x : aged r q -> aged q x -> aged r x.
Proof.
  intros [Hs1 Hst1 Hf1 Hc1 Hr1 Hk1] [Hs2 Hst2 Hf2 Hc2 Hr2 Hk2]. split.
  - by eapply same_request_trans.
  - by eapply later_trans.
  - intros Hl. assert (q = r) as -> by auto. auto.
  - lia.
  - destruct Hr1 as [|Hr1]; [by left|]. destruct Hr2 as [Hr2|Hr2]; [left|right]; congruence.
  - naive_solver.
Qed.

End Invariants.

(** ** What every operation keeps

    A property of the store that the rollback, the clock, the uuids and the
    fence leave alone is kept by an operation whose writes keep it. *)
Section Keep.
Context {T : Type} `{Clock T} (time_time : nat -> T) (uuid_hex : nat -> string).
Context (I : OwnerPilotStore T -> Prop).
Context (Hrollback : forall s s', I s -> I s' -> I (set_db (db s) s')).
Context (Hstream : forall s t h, I s ->
  I (mk_Store (db s) (ready s) (closed s) (fresh_turns s) (blocked_sequences s) (publication_closed s) t h)).
Context (Hfence : forall s, I s -> I (fence_publication s)).

Lemma keep_transaction {A} sql pub fenced (m : py (OwnerPilotStore T) A) :
  preserves I m -> preserves I (transaction sql pub fenced m).
Proof using Hrollback Hfence.
  intros Hm s Hs. specialize (Hm s Hs). unfold wp, transaction in *.
  destruct sql, (m s) as [[a|e] s1], fenced; auto; cbn [andb]; destruct (pub && _); auto.
Qed.

Lemma keep_run {A} sql (m : py (OwnerPilotStore T) A) : preserves I m -> preserves I (run sql m).
Proof using Hrollback Hfence.
  intros Hm. apply preserves_bind; [apply preserves_gets|]. intros up.
  apply preserves_bind; [apply preserves_lift|]. intros u. by apply keep_transaction.
Qed.

Lemma keep_publication {A} sql fenced (m : py (OwnerPilotStore T) A) :
  preserves I m -> preserves I (run_publication sql fenced m).
Proof using Hrollback Hfence.
  intros Hm. apply preserves_bind; [apply preserves_gets|]. intros up.
  apply preserves_bind; [apply preserves_lift|]. intros u. by apply keep_transaction.
Qed.

Lemma keep_now : preserves I (now time_time).
Proof using Hstream. intros s Hs. by apply Hstream. Qed.

Lemma keep_uuid : preserves I (uuid4 uuid_hex).
Proof using Hstream. intros s Hs. by apply Hstream. Qed.

Lemma keep_for_each {A B} (f : A -> py (OwnerPilotStore T) B) l :
  (forall x, preserves I (f x)) -> preserves I (for_each f l).
Proof using.
  intros Hf. induction l as [|x l IH]; cbn [for_each]; [by intros s Hs|].
  apply preserves_bind; [apply Hf|]. intros y. apply preserves_bind; [apply IH|]. by intros ys s Hs.
Qed.
End Keep.

(** Walk through an operation; [side] closes the conditions of [Keep] and
    [write] its assignments. *)
Ltac keep side write :=
  repeat lazymatch goal with
  | |- preserves _ (mbind _ _) => apply preserves_bind; [|intros ?]
  | |- preserves _ (run _ _) => apply keep_run; [side|side|]
  | |- preserves _ (run_publication _ _ _) => apply keep_publication; [side|side|]
  | |- preserves _ (now _) => apply keep_now; side
  | |- preserves _ (uuid4 _) => apply keep_uuid; side
  | |- preserves _ (lift _) => apply preserves_lift
  | |- preserves _ (raise_when _ _) => apply preserves_lift
  | |- preserves _ (raise _) => apply preserves_raise
  | |- preserves _ (gets _) => apply preserves_gets
  | |- preserves _ (mret _) => apply preserves_ret
  | |- preserves _ (modify _) => apply preserves_modify; intros ? ?; write
  | |- preserves _ (for_each _ _) => apply keep_for_each; intros ?
  | |- preserves _ (match ?x with _ => _ end) => destruct x
  | |- preserves _ ?m =>
      progress unfold update_request, event, insert_request, insert_message, lapsed, live, thread, turn,
        request_row, workspace, recover_row
  end.

(** ** What each statement does *)

Section Statements.
Context {T : Type} `{Clock T} (time_time : nat -> T) (uuid_hex : nat -> string) (iso : T -> string).
Context (model_dump : ExecutionAssessment -> json) (model_validate : json -> result ExecutionAssessment).
Implicit Types (s : OwnerPilotStore T) (d : Db T) (r q : Request T).

(** Requests and transcript untouched. *)
Definition frame s s1 : Prop := requests (db s1) = requests (db s) /\ messages (db s1) = messages (db s).

Lemma now_ok s t s1 : now time_time s = (Ok t, s1) -> db s1 = db s.
Proof. by intros [= <- <-]. Qed.

Lemma uuid_ok s u s1 : uuid4 uuid_hex s = (Ok u, s1) -> db s1 = db s.
Proof. by intros [= <- <-]. Qed.

Lemma gets_ok {A} (f : OwnerPilotStore T -> A) s a s1 : gets f s = (Ok a, s1) -> a = f s /\ s1 = s.
Proof. by intros [= <- <-]. Qed.

Lemma modify_ok (f : OwnerPilotStore T -> OwnerPilotStore T) s a s1 : modify f s = (Ok a, s1) -> s1 = f s.
Proof. by intros [= <- <-]. Qed.

Lemma lapsed_ok r s b s1 : lapsed time_time r s = (Ok b, s1) -> db s1 = db s.
Proof. unfold lapsed. intros Hl. py_step Hl t s2 Ht. apply now_ok in Ht. by injection Hl as _ <-. Qed.

Lemma thread_ok p tid s t s1 : thread p tid s = (Ok t, s1) -> s1 = s.
Proof.
  unfold thread. intros Ht. py_step Ht u s2 Hu. py_step Ht d s3 Hd. apply gets_ok in Hd as [-> ->].
  by destruct (find_thread _ _ _); [injection Ht as _ <-|].
Qed.

Lemma request_row_ok p rid s r s1 :
  request_row p rid s = (Ok r, s1) ->
  s1 = s /\ r ∈ requests (db s) /\ r_owner r = owner_id p /\ request_id r = rid.
Proof.
  unfold request_row. intros Hr. py_step Hr d s3 Hd. apply gets_ok in Hd as [-> ->].
  destruct (List.find _ _) as [x|] eqn:Hf; [|done]. injection Hr as <- <-.
  apply find_some_elem in Hf as [Hin Hx]. breflect.
  split; [done|]. split; [done|]. by split; apply String.eqb_eq.
Qed.

Lemma turn_ok seq s r s1 :
  turn seq s = (Ok r, s1) -> s1 = s /\ r ∈ requests (db s) /\ sequence r = seq /\ is_turn r = true.
Proof.
  unfold turn. intros Hr. py_step Hr u s2 Hu. py_step Hr d s3 Hd. apply gets_ok in Hd as [-> ->].
  destruct (List.find _ _) as [x|] eqn:Hf; [|done]. injection Hr as <- <-.
  apply find_some_elem in Hf as [Hin Hx]. breflect. split; [done|]. split; [done|]. by split; [apply Z.eqb_eq|].
Qed.

Lemma live_ok r s u s1 :
  live time_time r s = (Ok u, s1) -> db s1 = db s /\ state r = RUNNING /\ cancel_requested r = false.
Proof.
  unfold live. intros Hl. py_step Hl u1 s2 H1. py_step Hl b s3 H2. apply lapsed_ok in H2.
  apply raise_when_ok in Hl as [_ ->]. by breflect.
Qed.

Lemma event_ok seq ph code s u s1 : event time_time seq ph code s = (Ok u, s1) -> frame s s1.
Proof.
  unfold event. intros He. py_step He t s2 Ht. apply now_ok in Ht. apply modify_ok in He as ->.
  by unfold frame; cbn; rewrite Ht.
Qed.

Lemma workspace_ok p s w s1 : workspace time_time uuid_hex iso p s = (Ok w, s1) -> frame s s1.
Proof.
  unfold workspace. intros Hw. py_step Hw d s2 Hd. apply gets_ok in Hd as [-> ->].
  destruct (List.find _ _) as [x|]; [by injection Hw as _ <-|].
  py_step Hw w1 s2 H1. apply uuid_ok in H1. py_step Hw t s3 H2. apply now_ok in H2.
  py_step Hw u s4 H3. py_step Hw u1 s5 H4. apply modify_ok in H4 as ->. injection Hw as _ <-.
  unfold frame. cbn. by rewrite H2, H1.
Qed.

Lemma update_request_ok seq f s u s1 :
  update_request seq f s = (Ok u, s1) ->
  requests (db s1) = update_where (fun r => sequence r =? seq)%Z f (requests (db s)) /\
  messages (db s1) = messages (db s).
Proof. by intros ->%modify_ok. Qed.

Lemma insert_request_ok r s u s1 :
  insert_request r s = (Ok u, s1) ->
  requests (db s1) = requests (db s) ++ [r] /\ messages (db s1) = messages (db s) /\
  forall q, q ∈ requests (db s) -> ~ (r_owner q = r_owner r /\ request_id q = request_id r).
Proof.
  unfold insert_request. intros Hi. py_step Hi d s2 Hd. apply gets_ok in Hd as [-> ->].
  py_step Hi u1 s3 Hdup. apply modify_ok in Hi as ->. split_and!; [done|done|].
  intros q Hq [Ho Hr]. apply not_true_iff_false in Hdup. apply Hdup, existsb_exists.
  exists q. split; [by apply list_elem_of_In|]. by rewrite Ho, Hr, !String.eqb_refl.
Qed.

Lemma insert_message_ok m s u s1 :
  insert_message m s = (Ok u, s1) ->
  requests (db s1) = requests (db s) /\ messages (db s1) = messages (db s) ++ [m].
Proof.
  unfold insert_message. intros Hi. py_step Hi d s2 Hd. apply gets_ok in Hd as [-> ->].
  py_step Hi u1 s3 Hdup. by apply modify_ok in Hi as ->.
Qed.

(** ** Running *)

(** A failed operation leaves the database as it was. *)
Lemma transaction_cases {A} sql pub fenced (m : py (OwnerPilotStore T) A) s out s' :
  transaction sql pub fenced m s = (out, s') ->
  (exists e, out = Err e /\ db s' = db s) \/
  exists a s1, out = Ok a /\ m s = (Ok a, s1) /\ s' = (if fenced then fence_publication s1 else s1).
Proof.
  unfold transaction. intros Ht. destruct sql; [| |].
  - destruct (m s) as [[a|e] s1]; [|injection Ht as <- <-; left; by eexists].
    destruct (pub && _); injection Ht as <- <-; [left; by eexists|right; by exists a, s1].
  - injection Ht as <- <-. left. by eexists.
  - destruct (m s) as [[a|e] s1]; [|injection Ht as <- <-; left; by eexists].
    destruct (pub && _); injection Ht as <- <-; left; by eexists.
Qed.

Lemma run_cases {A} sql (m : py (OwnerPilotStore T) A) s out s' :
  run sql m s = (out, s') ->
  (exists e, out = Err e /\ db s' = db s) \/ exists a, out = Ok a /\ m s = (Ok a, s').
Proof.
  unfold run. rewrite bind_gets, bind_raise_when. destruct (negb _).
  - intros [= <- <-]. left. by eexists.
  - intros [?|(a & s1 & -> & Hm & ->)]%transaction_cases; [by left|right; by exists a].
Qed.

Lemma run_publication_cases {A} sql fenced (m : py (OwnerPilotStore T) A) s out s' :
  run_publication sql fenced m s = (out, s') ->
  (exists e, out = Err e /\ db s' = db s) \/
  exists a s1, out = Ok a /\ m s = (Ok a, s1) /\ db s' = db s1.
Proof.
  unfold run_publication. rewrite bind_gets, bind_raise_when. destruct (negb _).
  - intros [= <- <-]. left. by eexists.
  - intros [?|(a & s1 & -> & Hm & ->)]%transaction_cases; [by left|right].
    exists a, s1. by destruct fenced.
Qed.

(** A quiet step between the states around an operation *)
Definition acts {A} (m : py (OwnerPilotStore T) A) : Prop :=
  forall s, numbered (db s) -> quiet (db s) (db (m s).2).

Lemma acts_frame {A} (m : py (OwnerPilotStore T) A) :
  (forall s a s1, m s = (Ok a, s1) -> frame s s1) -> (forall s e s1, m s = (Err e, s1) -> frame s s1) -> acts m.
Proof.
  intros Hok Herr s _. destruct (m s) as [[a|e] s1] eqn:Hm; [edestruct Hok|edestruct Herr]; eauto using eff_none.
Qed.

Lemma acts_run {A} sql (m : py (OwnerPilotStore T) A) :
  (forall s a s1, numbered (db s) -> m s = (Ok a, s1) -> quiet (db s) (db s1)) -> acts (run sql m).
Proof.
  intros Hm s Hn. destruct (run sql m s) as [r s'] eqn:Hr. cbn.
  apply run_cases in Hr as [(e & _ & ->)|(a & _ & Ha)]; [by apply eff_none|eauto].
Qed.

Lemma acts_lift {A B} (out : result A) (f : A -> py (OwnerPilotStore T) B) :
  (forall a, out = Ok a -> acts (f a)) -> acts (lift out ≫= f).
Proof. intros Hf s Hn. rewrite bind_lift. destruct out as [a|e]; [by apply Hf|by apply eff_none]. Qed.

Lemma acts_raise_when {B} b e (f : unit -> py (OwnerPilotStore T) B) :
  (b = false -> acts (f tt)) -> acts (raise_when b e ≫= f).
Proof. intros Hf s Hn. rewrite bind_raise_when. destruct b; [by apply eff_none|by apply Hf]. Qed.

(** ** Every operation is a step *)

Lemma update_at seq f r s u s1 :
  numbered (db s) -> r ∈ requests (db s) -> sequence r = seq -> update_request seq f s = (Ok u, s1) ->
  exists i, requests (db s) !! i = Some r /\ requests (db s1) = <[i := f r]> (requests (db s)) /\
    messages (db s1) = messages (db s).
Proof.
  intros Hn [i Hi]%list_elem_of_lookup_1 Hseq [Hr Hm]%update_request_ok. exists i. split; [done|].
  split; [|done]. rewrite Hr. by apply numbered_update.
Qed.

Lemma find_request_none d owner rid q :
  find_request d owner rid = None -> q ∈ requests d -> ~ (r_owner q = owner /\ request_id q = rid).
Proof.
  intros Hf Hq [Ho Hr]. eapply find_none_elem in Hf; [|exact Hq]. by rewrite Ho, Hr, !String.eqb_refl in Hf.
Qed.

Lemma acts_create_thread sql p rid title parent :
  acts (create_thread time_time uuid_hex iso sql p rid title parent).
Proof.
  unfold create_thread. do 2 (apply acts_lift; intros _ _). apply acts_raise_when. intros _.
  apply acts_lift. intros payload _. apply acts_run. intros s a s' Hn Hrun.
  py_step Hrun d s1 Hd. apply gets_ok in Hd as [-> ->].
  destruct (find_request _ _ _) as [old|] eqn:Hold.
  - py_step Hrun u s2 Hu. py_step Hrun t s3 Ht. apply thread_ok in Ht as ->. injection Hrun as _ <-. by apply eff_none.
  - py_step Hrun w s2 Hw. apply workspace_ok in Hw as [Hw1 Hw2].
    py_step Hrun u s3 Hp.
    assert (s3 = s2) as ->.
    { destruct parent; [|by injection Hp as _ <-]. py_step Hp t s4 Ht. apply thread_ok in Ht as ->. by injection Hp as _ <-. }
    py_step Hrun tid s4 Htid. apply uuid_ok in Htid. py_step Hrun t s5 Ht. apply now_ok in Ht.
    py_step Hrun d s6 Hd. apply gets_ok in Hd as [-> ->]. py_step Hrun u1 s7 H1. py_step Hrun u2 s8 H2.
    apply modify_ok in H2 as ->. py_step Hrun u3 s9 H3. apply insert_request_ok in H3 as (H3 & Hm & Hfresh).
    py_step Hrun v s10 H4. apply thread_ok in H4 as ->. injection Hrun as _ <-. cbn in H3, Hm, Hfresh.
    rewrite Ht, Htid in H3, Hm, Hfresh. rewrite Hw1 in H3, Hfresh. rewrite Hw2 in Hm.
    eapply eff_insert; [| |exact H3|exact Hm].
    + split; [reflexivity|exact Hfresh].
    + right. split; [by vm_decide|done].
Qed.

Lemma turn_request_message rid payload v text :
  turn_request rid payload = Ok v -> canonical (JObj payload) 32768 = Ok text ->
  exists m, jget "message" text.1 = Some (JStr m).
Proof.
  unfold turn_request, canonical. intros Hv Ht.
  destruct (dget "thread_id"%string payload) as [[]|]; try done.
  destruct (dget "message"%string payload) as [[]|] eqn:Hm; try done.
  destruct (dumps_compact _); [|done]. apply result_bind_ok in Ht as (u & _ & [= <-]). cbn [fst].
  exists s0. pose proof (jget_canon "message" payload) as Hj. rewrite Hm in Hj. exact Hj.
Qed.

Lemma acts_admit sql p rid op payload : acts (admit_turn time_time uuid_hex sql p rid op payload).
Proof.
  unfold admit_turn. do 2 (apply acts_lift; intros _ _). apply acts_raise_when. intros Hop.
  apply acts_lift. intros v Hv. apply acts_lift. intros text Htext. apply acts_run. intros s a s' Hn Hrun.
  py_step Hrun t s1 Ht. apply thread_ok in Ht as ->. py_step Hrun d s1 Hd. apply gets_ok in Hd as [-> ->].
  destruct (find_request _ _ _) as [old|] eqn:Hold.
  - py_step Hrun u s2 Hu. injection Hrun as _ <-. by apply eff_none.
  - py_step Hrun tid s2 H1. apply uuid_ok in H1. py_step Hrun w s3 H2. apply now_ok in H2.
    py_step Hrun user s4 H3. apply uuid_ok in H3. py_step Hrun assistant s5 H4. apply uuid_ok in H4.
    py_step Hrun u s6 H5. apply insert_request_ok in H5 as (H5 & H6 & H7).
    py_step Hrun row s7 H8. apply request_row_ok in H8 as (-> & _). py_step Hrun u2 s8 H9.
    apply modify_ok in H9 as ->. injection Hrun as _ <-. cbn [db set_fresh].
    rewrite H4, H3, H2, H1 in H5, H6, H7. eapply eff_insert; [| |exact H5|exact H6]; [split; [reflexivity|exact H7]|].
    left. apply negb_false_iff, String.eqb_eq in Hop. split; try done. by eapply turn_request_message.
Qed.

Lemma acts_claim sql p rid tid : acts (claim time_time sql p rid tid).
Proof.
  unfold claim. do 3 (apply acts_lift; intros _ _). apply acts_run. intros s a s' Hn Hrun.
  py_step Hrun row s1 H1. apply request_row_ok in H1 as (-> & Hin & _). py_step Hrun u s1 H2.
  py_step Hrun t s1 H3. apply thread_ok in H3 as ->. py_step Hrun f s1 H4. apply gets_ok in H4 as [-> ->].
  py_step Hrun u1 s1 H5. py_step Hrun late s1 H6. apply lapsed_ok in H6. py_step Hrun u2 s2 H7.
  py_step Hrun u3 s3 H8. apply modify_ok in H8 as ->. py_step Hrun v s4 H9. apply now_ok in H9.
  cbn [db discard_fresh set_fresh] in H9. rewrite H6 in H9.
  py_step Hrun u4 s5 H10. py_step Hrun d s6 H11. apply gets_ok in H11 as [-> ->].
  assert (s' = s5) as -> by (destruct (List.find _ _); by injection Hrun).
  eapply update_at in H10 as (i & Hi & Hr & Hm); [|by rewrite H9|by rewrite H9|done]. rewrite H9 in Hi, Hr, Hm.
  eapply eff_update; [exact Hi| |exact Hr|exact Hm]. breflect.
  assert (state row = ADMITTED) as Hst by done.
  split; cbn; [done|by repeat split|rewrite Hst; by left|by left|by left|by right|done].
Qed.

Lemma next_of_transition st st' : st' ∈ TRANSITIONS st -> st' ∈ next_states st.
Proof. destruct st; cbn; rewrite ?elem_of_cons, ?elem_of_nil; intuition. Qed.

(** A transition that returns moved the turn of this number along the table. *)
Lemma transition_ok sql seq expected target ph err s u s' :
  numbered (db s) -> transition time_time sql seq expected target ph err s = (Ok u, s') ->
  target ∈ TRANSITIONS expected /\
  exists i r q, requests (db s) !! i = Some r /\ sequence r = seq /\ turn_step r q /\ state r = expected /\
    state q = target /\ requests (db s') = <[i := q]> (requests (db s)) /\ messages (db s') = messages (db s).
Proof.
  unfold transition. intros Hn Hrun. py_step Hrun u1 s1 H1. py_step Hrun u2 s2 H2.
  apply run_cases in Hrun as [(e & ? & _)|(v & _ & Hrun)]; [done|].
  py_step Hrun row s3 H3. apply turn_ok in H3 as (-> & Hin & Hseq & Hturn). py_step Hrun u4 s4 H4.
  py_step Hrun late s5 H5.
  assert (db s5 = db s) as H5'.
  { case_bool_decide; [|by injection H5 as _ <-]. destruct (cancel_requested row); [by injection H5 as _ <-|].
    by apply lapsed_ok in H5. }
  py_step Hrun u6 s6 H6. py_step Hrun u7 s7 H7. py_step Hrun t s8 H8. apply now_ok in H8. rewrite H5' in H8.
  py_step Hrun u9 s9 H9. py_step Hrun u10 s10 H10. apply event_ok in H10 as [H10 H10'].
  assert (db s' = db s10) as ->.
  { case_bool_decide; [by injection Hrun as _ <-|]. py_step Hrun u11 s11 H11.
    apply modify_ok in H11 as ->. by apply modify_ok in Hrun as ->. }
  eapply update_at in H9 as (i & Hi & Hr & Hm); [|by rewrite H8|by rewrite H8|done]. rewrite H8 in Hi, Hr, Hm.
  apply orb_false_iff in H1 as [H1%negb_false_iff%bool_decide_eq_true _]. apply negb_false_iff, bool_decide_eq_true in H4.
  split; [done|]. exists i, row, (set_life target ph err t row).
  split_and!; [done|done| |done|done|by rewrite H10|by rewrite H10'].
  split; cbn; [done|by repeat split| |by left|by left|by right|done]. apply next_of_transition. by rewrite H4.
Qed.

Lemma acts_transition sql seq expected target ph err :
  acts (transition time_time sql seq expected target ph err).
Proof.
  intros s Hn. destruct (transition time_time sql seq expected target ph err s) as [[u|e] s'] eqn:Hrun; cbn [snd].
  - apply transition_ok in Hrun as (_ & i & r & q & Hi & _ & Hs & _ & _ & Hr & Hm); [|done]. by eapply eff_update.
  - unfold transition in Hrun. rewrite !bind_raise_when in Hrun.
    destruct (negb _ || negb _); [injection Hrun as _ <-; by apply eff_none|].
    destruct (match err with Some _ => _ | None => _ end); [injection Hrun as _ <-; by apply eff_none|].
    apply run_cases in Hrun as [(e' & _ & Hd)|(v & ? & _)]; [by apply eff_none; rewrite Hd|done].
Qed.

Lemma acts_reserve_attempt sql seq kind limit : acts (reserve_attempt time_time sql seq kind limit).
Proof.
  unfold reserve_attempt. apply acts_raise_when. intros Hlim. apply acts_run. intros s a s' Hn Hrun.
  py_step Hrun row s1 H1. apply turn_ok in H1 as (-> & Hin & Hseq & Hturn). py_step Hrun over s1 H2.
  destruct (_ || (limit <=? attempts kind row)%Z) eqn:Hover; [injection H2 as <- <-; injection Hrun as _ <-; by apply eff_none|].
  apply lapsed_ok in H2. destruct over; [injection Hrun as _ <-; apply eff_none; by rewrite H2|].
  py_step Hrun v s2 H3. apply now_ok in H3. rewrite H2 in H3. py_step Hrun u s3 H4.
  py_step Hrun u1 s4 H5. apply event_ok in H5 as [H5 H5']. injection Hrun as _ <-.
  eapply update_at in H4 as (i & Hi & Hr & Hm); [|by rewrite H3|by rewrite H3|done]. rewrite H3 in Hi, Hr, Hm.
  eapply eff_update; [exact Hi| |by rewrite H5|by rewrite H5'].
  apply orb_false_iff in Hover as [[Hst%negb_false_iff%bool_decide_eq_true Hc]%orb_false_iff Hunder%Z.leb_gt].
  apply negb_false_iff, andb_true_iff in Hlim as [_ Hmax%Z.leb_le].
  destruct kind; cbn in *;
    (split; cbn; [done|by repeat split|rewrite Hst; by left| | |by right|done]);
    first [by left|right; lia].
Qed.

Lemma acts_stage_result sql seq value :
  acts (stage_result time_time model_dump model_validate sql seq value).
Proof.
  unfold stage_result. apply acts_raise_when. intros _. apply acts_lift. intros encoded _.
  apply acts_run. intros s a s' Hn Hrun.
  py_step Hrun row s1 H1. apply turn_ok in H1 as (-> & Hin & Hseq & Hturn). py_step Hrun u s1 H2.
  apply live_ok in H2 as (H2 & Hst & Hc). py_step Hrun bound s2 H3. py_step Hrun u1 s2 H4.
  py_step Hrun text s2 H5. py_step Hrun u2 s2 H6. py_step Hrun v s2 H7. apply now_ok in H7. rewrite H2 in H7.
  py_step Hrun u3 s3 H8. apply event_ok in Hrun as [H9 H9'].
  eapply update_at in H8 as (i & Hi & Hr & Hm); [|by rewrite H7|by rewrite H7|done]. rewrite H7 in Hi, Hr, Hm.
  eapply eff_update; [exact Hi| |by rewrite H9|by rewrite H9'].
  split; cbn; [done|by repeat split|rewrite Hst; by left|by left|by left| |done].
  destruct (result_json row) as [old|]; [right|by left]. breflect. by f_equal.
Qed.

Lemma bound_response r text a bound m res :
  bind_result model_dump r text a = Ok bound -> canonical bound m = Ok res ->
  jget "response" res.1 = Some (JStr text).
Proof.
  unfold bind_result, canonical. intros Hb Hc.
  apply result_bind_ok in Hb as (u1 & _ & Hb). apply result_bind_ok in Hb as (u2 & _ & Hb).
  apply result_bind_ok in Hb as (rep & _ & [= <-]).
  destruct (dumps_compact _); [|done]. apply result_bind_ok in Hc as (u3 & _ & [= <-]).
  reflexivity.
Qed.

(** A commit that returns published the turn of this number, with the result
    that was staged for this text. *)
Lemma commit_ok sql fenced seq text a s u s0 :
  numbered (db s) -> commit_turn time_time iso model_dump sql fenced seq text a s = (Ok u, s0) ->
  exists i r q at_ bound res, requests (db s) !! i = Some r /\ sequence r = seq /\ publish r q /\
    bind_result model_dump r text a = Ok bound /\ canonical bound 524288 = Ok res /\ result_json q = Some res /\
    requests (db s0) = <[i := q]> (requests (db s)) /\ messages (db s0) = messages (db s) ++ turn_messages at_ r.
Proof.
  intros Hn Hrun. apply run_publication_cases in Hrun as [(e & ? & _)|(out & s' & _ & Hrun & ->)]; [done|].
  py_step Hrun row s1 H1. apply turn_ok in H1 as (-> & Hin & Hseq & Hturn). py_step Hrun u0 s1 H2.
  apply live_ok in H2 as (H2 & Hst & Hc). py_step Hrun bound s2 H3. py_step Hrun res s2 H4. py_step Hrun u1 s2 H5.
  apply negb_false_iff, bool_decide_eq_true in H5. pose proof (bound_response _ _ _ _ _ _ H3 H4) as Hresp.
  py_step Hrun t s2 H6. apply now_ok in H6. rewrite H2 in H6. py_step Hrun dig s3 H7. py_step Hrun u2 s3 H8.
  destruct (jget "thread_id" _) as [owner_thread|]; [|done].
  destruct (jget "message" _) as [[| | | |message| | |]|] eqn:Hmsg; try done.
  destruct (message_ids row) as [[user assistant]|] eqn:Hids; [|done].
  py_step Hrun u3 s3 H9. py_step Hrun u4 s4 H10. apply insert_message_ok in H10 as [H10 H10'].
  py_step Hrun u5 s5 H11. apply insert_message_ok in H11 as [H11 H11'].
  py_step Hrun u6 s6 H12. apply modify_ok in H12 as ->. py_step Hrun u7 s6 H13.
  py_step Hrun u8 s7 H14. apply event_ok in H14 as [H14 H14']. py_step Hrun u9 s8 H15. apply modify_ok in H15 as ->.
  apply modify_ok in Hrun as ->. cbn [db block discard_fresh set_fresh].
  assert (requests (db s5) = requests (db s)) as Hreq by (by rewrite H11, H10, H6).
  assert (exists i, requests (db s) !! i = Some row) as [i Hi] by by apply list_elem_of_lookup_1.
  apply update_request_ok in H13 as [Hr Hm]. cbn [db set_db set_threads requests messages] in Hr, Hm.
  rewrite Hreq, (numbered_update _ _ _ _ _ Hn Hi Hseq) in Hr. rewrite H11', H10', H6 in Hm.
  assert (forall at_, turn_messages at_ row =
            [mk_MessageView user (thread_id row) "user" message at_;
             mk_MessageView assistant (thread_id row) "assistant" text at_]) as Hview.
  { intros at_. unfold turn_messages. rewrite Hids, Hmsg, H5. destruct res as [v dg]. cbn in Hresp. by rewrite Hresp. }
  exists i, row, (set_life COMPLETED "committed" (error_code row) t row), (iso t), bound, res.
  split_and!; [done|done| |done|done|exact H5|by rewrite H14|by rewrite H14', Hm, Hview, <- app_assoc].
  split; cbn; try done. intros at_. by rewrite Hview.
Qed.

Lemma acts_commit_turn sql fenced seq text a :
  forall s, numbered (db s) ->
    effect (db s) (db (commit_turn time_time iso model_dump sql fenced seq text a s).2).
Proof.
  intros s Hn. destruct (commit_turn time_time iso model_dump sql fenced seq text a s) as [[u|e] s0] eqn:Hrun; cbn [snd].
  - apply commit_ok in Hrun as (i & r & q & at_ & bound & res & Hi & _ & Hp & _ & _ & _ & Hr & Hm); [|done].
    by eapply eff_publish.
  - apply run_publication_cases in Hrun as [(e' & _ & ->)|(out & s' & ? & _)]; [by apply eff_quiet, eff_none|done].
Qed.

Lemma acts_request_cancel sql p tid rid : acts (request_cancel time_time sql p tid rid).
Proof.
  unfold request_cancel. do 3 (apply acts_lift; intros _ _). apply acts_lift. intros payload _.
  apply acts_run. intros s a s' Hn Hrun. py_step Hrun d s1 Hd. apply gets_ok in Hd as [-> ->].
  destruct (List.find _ _) as [target|] eqn:Hfind; [|done].
  apply find_some_elem in Hfind as [Hin [_ Hturn]%andb_true_iff].
  py_step Hrun t s1 H1. apply thread_ok in H1 as ->.
  destruct (find_request _ _ _) as [old|].
  { py_step Hrun u s2 Hu. injection Hrun as _ <-. by apply eff_none. }
  py_step Hrun v s1 H2. apply now_ok in H2. py_step Hrun u s2 H3.
  apply insert_request_ok in H3 as (H3 & H3' & Hfresh). rewrite H2 in H3, H3', Hfresh.
  py_step Hrun u1 s3 H4. py_step Hrun row s4 H5. apply turn_ok in H5 as (-> & _). injection Hrun as _ <-.
  assert (forall n : Request T, operation n = "cancel"%string -> state n = COMPLETED -> receipt n) as Hrec.
  { intros n Ho Hs. split; [rewrite Ho; by vm_decide|done]. }
  destruct (live_state (state target)) eqn:Hlive.
  2: { injection H4 as _ <-. eapply eff_insert; [| |exact H3|exact H3']; [split; [reflexivity|exact Hfresh]|]. by right; apply Hrec. }
  py_step H4 u2 s4 H6. apply update_request_ok in H6 as [H6 H6'].
  py_step H4 u3 s5 H7. apply modify_ok in H7 as ->. py_step H4 u4 s6 H8. apply modify_ok in H8 as ->.
  apply event_ok in H4 as [H4 H4']. cbn in H4, H4'. rewrite H6 in H4. rewrite H6', H3' in H4'.
  apply list_elem_of_lookup_1 in Hin as [i Hi].
  rewrite H3, update_where_app in H4. cbn [update_where map] in H4.
  rewrite (numbered_update _ _ _ _ _ Hn Hi eq_refl) in H4.
  assert ((next_id (requests (db s)) =? sequence target)%Z = false) as Hne.
  { apply Z.eqb_neq. rewrite (Hn _ _ Hi). apply lookup_lt_Some in Hi. unfold next_id. lia. }
  cbn [sequence] in H4. rewrite Hne in H4.
  eapply eff_cancel; [exact Hi| | | |exact H4|exact H4']; [| |by apply Hrec].
  - split; cbn; [done|by repeat split| |by left|by left|by right|done].
    unfold live_state in Hlive. apply bool_decide_eq_true in Hlive.
    destruct (state target); try (exfalso; revert Hlive; by vm_decide); cbn;
      [destruct (_ && _); cbn|]; by vm_decide.
  - split; [reflexivity|exact Hfresh].
Qed.

Lemma numbered_insert d i r q : numbered d -> requests d !! i = Some r -> sequence q = sequence r ->
  forall d', requests d' = <[i := q]> (requests d) -> numbered d'.
Proof.
  intros Hn Hi Hs d' Hd j x. rewrite Hd. intros [(-> & -> & _)|[_ Hx]]%list_lookup_insert_Some; [|by apply Hn].
  by rewrite Hs, (Hn _ _ Hi).
Qed.

Lemma recover_row_step r s a s1 :
  numbered (db s) -> r ∈ requests (db s) -> is_turn r = true -> live_state (state r) = true ->
  recover_row time_time r s = (Ok a, s1) ->
  exists i q, requests (db s) !! i = Some r /\ requests (db s1) = <[i := q]> (requests (db s)) /\
    messages (db s1) = messages (db s) /\ turn_step r q /\ state q = UNCERTAIN.
Proof.
  intros Hn Hin Hturn Hlive Hrun. unfold recover_row in Hrun.
  py_step Hrun u s2 H1. apply now_ok in H1. py_step Hrun u1 s3 H2. py_step Hrun u2 s4 H3. apply modify_ok in H3 as ->.
  py_step Hrun u3 s4 H4. apply modify_ok in H4 as ->. py_step Hrun u4 s5 H5. apply event_ok in H5 as [H5 H5'].
  cbn in H5, H5'. py_step Hrun x s6 H6. apply turn_ok in H6 as (-> & _). injection Hrun as _ <-.
  eapply update_at in H2 as (i & Hi & Hr & Hm); [|by rewrite H1|by rewrite H1|done]. rewrite H1 in Hi, Hr, Hm.
  eexists i, _. split; [done|]. split; [by rewrite H5, Hr|]. split; [by rewrite H5'|]. split; [|done].
  split; cbn; [done|by repeat split| |by left|by left|by right|done].
  apply bool_decide_eq_true in Hlive. destruct (state r); try (exfalso; revert Hlive; by vm_decide); by vm_decide.
Qed.

(** A row other than the ones recovered so far is as it was. *)
Definition recovered_in (l : list (Request T)) r q : Prop :=
  if decide (sequence r ∈ map sequence l) then turn_step r q /\ state q = UNCERTAIN else q = r.

Lemma for_each_recover l s outs s' :
  numbered (db s) -> NoDup (map sequence l) ->
  (forall r, r ∈ l -> r ∈ requests (db s) /\ is_turn r = true /\ live_state (state r) = true) ->
  for_each (recover_row time_time) l s = (Ok outs, s') ->
  Forall2 (recovered_in l) (requests (db s)) (requests (db s')) /\ messages (db s') = messages (db s).
Proof.
  revert s outs. induction l as [|x l IH]; intros s outs Hn Hnd Hl Hrun; cbn [for_each map] in *.
  { injection Hrun as _ <-. split; [|done]. apply Forall_Forall2_diag, Forall_true. intros r.
    unfold recovered_in. rewrite decide_False; [done|]. by intros ?%elem_of_nil. }
  py_step Hrun a s1 H1. py_step Hrun outs' s2 H2. injection Hrun as _ <-.
  apply NoDup_cons in Hnd as [Hx Hnd]. destruct (Hl x) as (Hin & Hturn & Hlive); [by left|].
  destruct (recover_row_step _ _ _ _ Hn Hin Hturn Hlive H1) as (i & q & Hi & Hreq & Hmsg & Hstep & Hst).
  assert (numbered (db s1)) as Hn1.
  { eapply numbered_insert; [exact Hn|exact Hi| |exact Hreq]. apply (ts_same _ _ Hstep). }
  destruct (IH s1 outs' Hn1 Hnd) as [Hrest Hm]; [|done|split; [|by rewrite Hm, Hmsg]].
  { intros r Hr. destruct (Hl r) as (Hrin & Hrest); [by right|]. split; [|done].
    apply list_elem_of_lookup_1 in Hrin as [j Hj]. rewrite Hreq. apply list_elem_of_lookup_2 with j.
    rewrite list_lookup_insert_ne; [done|]. intros <-. assert (r = x) as -> by congruence.
    apply Hx, list_elem_of_fmap. by exists x. }
  apply Forall2_same_length_lookup_2.
  { apply Forall2_length in Hrest. rewrite <- Hrest, Hreq. by rewrite length_insert. }
  intros j r q' Hr Hq'. unfold recovered_in. cbn [map].
  destruct (decide (j = i)) as [->|Hj].
  - assert (r = x) as -> by congruence. rewrite decide_True by by left.
    assert (requests (db s1) !! i = Some q) as Hqi.
    { rewrite Hreq, list_lookup_insert_eq; [done|by eapply lookup_lt_Some]. }
    pose proof (Forall2_lookup_lr _ _ _ _ _ _ Hrest Hqi Hq') as Hl'. unfold recovered_in in Hl'.
    rewrite decide_False in Hl'; [by subst q'|]. by rewrite (proj1 (ts_same _ _ Hstep)).
  - assert (requests (db s1) !! j = Some r) as Hrj by by rewrite Hreq, list_lookup_insert_ne.
    pose proof (Forall2_lookup_lr _ _ _ _ _ _ Hrest Hrj Hq') as Hl'. unfold recovered_in in Hl'.
    assert (sequence r <> sequence x) as Hne.
    { rewrite (Hn _ _ Hr), (Hn _ _ Hi). lia. }
    destruct (decide (sequence r ∈ map sequence l)) as [Hin'|Hout]; [by rewrite decide_True by by right|].
    rewrite decide_False; [done|]. by intros [?|?]%elem_of_cons.
Qed.

Lemma numbered_nodup d : numbered d -> NoDup (map sequence (requests d)).
Proof.
  intros Hn. apply NoDup_alt. intros i j x. rewrite !list_lookup_fmap. intros Hi Hj.
  destruct (requests d !! i) eqn:Hri; [|done]. destruct (requests d !! j) eqn:Hrj; [|done].
  injection Hi as <-. injection Hj as Hj. rewrite (Hn _ _ Hri), (Hn _ _ Hrj) in Hj. lia.
Qed.

Lemma in_by_sequence d (p : Request T -> bool) j r :
  numbered d -> requests d !! j = Some r ->
  sequence r ∈ map sequence (List.filter p (requests d)) <-> p r = true.
Proof.
  intros Hn Hj. split.
  - intros (x & Hx & [Hp Hin]%elem_of_filter_bool)%list_elem_of_fmap.
    apply list_elem_of_lookup_1 in Hin as [i Hi]. rewrite (Hn _ _ Hj), (Hn _ _ Hi) in Hx.
    assert (i = j) as -> by lia. congruence.
  - intros Hp. apply list_elem_of_fmap. exists r. split; [done|]. apply elem_of_filter_bool.
    split; [done|by eapply list_elem_of_lookup_2].
Qed.

Lemma recover_spec sql s outs s' :
  numbered (db s) -> recover_interrupted time_time sql s = (Ok outs, s') ->
  Forall2 recovered (requests (db s)) (requests (db s')) /\ messages (db s') = messages (db s).
Proof.
  intros Hn Hrun. unfold recover_interrupted in Hrun.
  apply run_cases in Hrun as [(e & [=] & _)|(a & _ & Hrun)].
  py_step Hrun d s1 Hd. apply gets_ok in Hd as [-> ->].
  set (p := fun r => is_turn r && live_state (state r)) in Hrun.
  destruct (for_each_recover (List.filter p (requests (db s))) s a s') as [Hrec Hm]; [done| | |exact Hrun|].
  - eapply sublist_NoDup; [by apply numbered_nodup|]. apply (fmap_sublist sequence). clear.
    induction (requests (db s)) as [|r l IH]; cbn; [done|]. destruct (p r); by constructor.
  - intros r [Hp Hin]%elem_of_filter_bool. unfold p in Hp. by breflect.
  - split; [|done]. apply Forall2_same_length_lookup_2; [by eapply Forall2_length|].
    intros j r q Hr Hq. pose proof (Forall2_lookup_lr _ _ _ _ _ _ Hrec Hr Hq) as Hone.
    unfold recovered_in in Hone. unfold recovered. fold (p r).
    destruct (p r) eqn:Hp.
    + by rewrite decide_True in Hone by by apply (in_by_sequence _ _ j).
    + rewrite decide_False in Hone; [done|]. by rewrite (in_by_sequence _ _ j), Hp by done.
Qed.

Lemma acts_recover sql : acts (recover_interrupted time_time sql).
Proof.
  intros s Hn. destruct (recover_interrupted time_time sql s) as [[outs|e] s'] eqn:Hrun; cbn.
  - destruct (recover_spec _ _ _ _ Hn Hrun). by apply eff_recover.
  - apply run_cases in Hrun as [(? & _ & ->)|(? & [=] & _)]. by apply eff_none.
Qed.

Lemma acts_workspace sql p : acts (ensure_workspace time_time uuid_hex iso sql p).
Proof.
  unfold ensure_workspace. apply acts_lift. intros _ _. apply acts_run. intros s a s1 Hn Hw.
  apply workspace_ok in Hw as [? ?]. by apply eff_none.
Qed.

(** ** Runs *)

(** The store's operations, the death of its process followed by a new store
    on the same file, and a clock reading by another component. *)
Inductive store_op :=
| OpInitialize (held io : bool)
| OpClose
| OpFence
| OpRestart
| OpClock
| OpWorkspace (sql : sql_outcome) (p : OwnerPrincipal)
| OpCreateThread (sql : sql_outcome) (p : OwnerPrincipal) (rid title : string) (parent : option string)
| OpAdmit (sql : sql_outcome) (p : OwnerPrincipal) (rid op : string) (payload : list (string * json))
| OpClaim (sql : sql_outcome) (p : OwnerPrincipal) (rid tid : string)
| OpTransition (sql : sql_outcome) (seq : Z) (expected target : RequestState) (ph : string) (err : option string)
| OpStage (sql : sql_outcome) (seq : Z) (value : list (string * json))
| OpCommit (sql : sql_outcome) (fenced : bool) (seq : Z) (text : string) (a : option ExecutionAssessment)
| OpCancel (sql : sql_outcome) (p : OwnerPrincipal) (tid rid : string)
| OpRecover (sql : sql_outcome)
| OpReserve (sql : sql_outcome) (seq : Z) (kind : AttemptKind) (limit : Z).

Definition restart s : OwnerPilotStore T := mk_Store (db s) false false ∅ ∅ false (ticks s) (hexes s).

Definition store_exec s (op : store_op) : OwnerPilotStore T :=
  match op with
  | OpInitialize held io => (initialize held io s).2
  | OpClose => (close s).2
  | OpFence => fence_publication s
  | OpRestart => restart s
  | OpClock => (now time_time s).2
  | OpWorkspace sql p => (ensure_workspace time_time uuid_hex iso sql p s).2
  | OpCreateThread sql p rid title parent => (create_thread time_time uuid_hex iso sql p rid title parent s).2
  | OpAdmit sql p rid op payload => (admit_turn time_time uuid_hex sql p rid op payload s).2
  | OpClaim sql p rid tid => (claim time_time sql p rid tid s).2
  | OpTransition sql seq expected target ph err => (transition time_time sql seq expected target ph err s).2
  | OpStage sql seq value => (stage_result time_time model_dump model_validate sql seq value s).2
  | OpCommit sql fenced seq text a => (commit_turn time_time iso model_dump sql fenced seq text a s).2
  | OpCancel sql p tid rid => (request_cancel time_time sql p tid rid s).2
  | OpRecover sql => (recover_interrupted time_time sql s).2
  | OpReserve sql seq kind limit => (reserve_attempt time_time sql seq kind limit s).2
  end.

Definition store_run (ops : list store_op) s : OwnerPilotStore T := foldl store_exec s ops.

Definition new_file : OwnerPilotStore T := mk_Store empty_db false false ∅ ∅ false 0 0.

Definition is_commit (op : store_op) : bool := match op with OpCommit _ _ _ _ _ => true | _ => false end.

Lemma exec_quiet s op : numbered (db s) -> is_commit op = false -> quiet (db s) (db (store_exec s op)).
Proof.
  intros Hn Hc. destruct op; cbn [store_exec]; try done.
  - unfold initialize. rewrite bind_gets, bind_raise_when. destruct (closed s); [by apply eff_none|].
    rewrite bind_gets. destruct (ready s); [by apply eff_none|]. rewrite bind_raise_when.
    destruct (_ || _); by apply eff_none.
  - by apply eff_none.
  - by apply eff_none.
  - by apply eff_none.
  - by apply eff_none.
  - by apply acts_workspace.
  - by apply acts_create_thread.
  - by apply acts_admit.
  - by apply acts_claim.
  - by apply acts_transition.
  - by apply acts_stage_result.
  - by apply acts_request_cancel.
  - by apply acts_recover.
  - by apply acts_reserve_attempt.
Qed.

Lemma exec_effect s op : numbered (db s) -> effect (db s) (db (store_exec s op)).
Proof.
  intros Hn. destruct (is_commit op) eqn:Hc; [destruct op; try done; by apply acts_commit_turn|].
  by apply eff_quiet, exec_quiet.
Qed.

(** ** Fresh turns *)

Section Fresh.
Context (F : gset Z).

Definition fresh_in s : Prop := fresh_turns s ⊆ F.

Ltac keep_fresh :=
  keep ltac:(by intros) ltac:(unfold fresh_in in *; cbn; first [assumption|set_solver]).

Lemma fresh_exec s op :
  match op with OpAdmit _ _ _ _ _ => False | _ => True end -> fresh_in s -> fresh_in (store_exec s op).
Proof.
  intros Hop Hs. destruct op; cbn [store_exec]; try done; try (apply (preserves_run fresh_in); [|exact Hs]).
  - unfold initialize. keep_fresh.
  - unfold ensure_workspace. keep_fresh.
  - unfold create_thread. keep_fresh.
  - unfold claim. keep_fresh.
  - unfold transition. keep_fresh.
  - unfold stage_result. keep_fresh.
  - unfold commit_turn. keep_fresh.
  - unfold request_cancel. keep_fresh.
  - unfold recover_interrupted. keep_fresh.
  - unfold reserve_attempt. keep_fresh.
Qed.

(** A step whose success says more than that it keeps [fresh_in]. *)
Lemma fresh_step {A B} (m : py (OwnerPilotStore T) A) (f : A -> py (OwnerPilotStore T) B) s :
  preserves fresh_in m -> fresh_in s ->
  (forall a s1, m s = (Ok a, s1) -> fresh_in s1 -> fresh_in (f a s1).2) -> fresh_in ((m ≫= f) s).2.
Proof.
  intros Hm Hs Hf. specialize (Hm s Hs). unfold wp in Hm. rewrite bind_run.
  destruct (m s) as [[a|e] s1]; [by apply Hf|done].
Qed.

Lemma fresh_admit_step sql p rid op payload s :
  fresh_in s -> next_id (requests (db s)) ∈ F ->
  fresh_in (admit_turn time_time uuid_hex sql p rid op payload s).2.
Proof.
  intros Hs Hnext. unfold admit_turn.
  do 2 (apply fresh_step; [apply preserves_lift|done|intros ? ? [_ ->]%lift_ok _]).
  apply fresh_step; [apply preserves_lift|done|intros ? ? [_ ->]%raise_when_ok _].
  do 2 (apply fresh_step; [apply preserves_lift|done|intros ? ? [_ ->]%lift_ok _]).
  unfold run. apply fresh_step; [apply preserves_gets|done|intros ? ? [_ ->]%gets_ok _].
  apply fresh_step; [apply preserves_lift|done|intros ? ? [_ ->]%raise_when_ok _].
  set (work := _ ≫= _). assert (fresh_in (work s).2) as Hwork.
  2: { unfold transaction. destruct sql, (work s) as [[?|?] s1]; done. }
  unfold work. clear work. apply fresh_step; [keep_fresh|done|intros t ? ->%thread_ok _].
  apply fresh_step; [keep_fresh|done|intros ? ? [-> ->]%gets_ok _].
  destruct (find_request _ _ _) as [old|] eqn:Hold.
  { apply fresh_step; [keep_fresh|done|]. by intros ? ? [_ ->]%raise_when_ok _. }
  apply fresh_step; [keep_fresh|done|intros tid s1 H1%uuid_ok Hs1].
  apply fresh_step; [keep_fresh|done|intros u s2 H2%now_ok Hs2].
  apply fresh_step; [keep_fresh|done|intros user s3 H3%uuid_ok Hs3].
  apply fresh_step; [keep_fresh|done|intros assistant s4 H4%uuid_ok Hs4].
  apply fresh_step; [keep_fresh|done|intros ? s5 (H5 & _ & _)%insert_request_ok Hs5].
  apply fresh_step; [keep_fresh|done|intros row ? (-> & Hrow & Ho & Hr)%request_row_ok _].
  rewrite H5, H4, H3, H2, H1 in Hrow. apply elem_of_app in Hrow as [Hrow| ->%list_elem_of_singleton].
  { exfalso. by eapply find_request_none. }
  apply fresh_step; [|done|by intros]. intros x Hx. unfold wp, modify, fresh_in in *. cbn. set_solver.
Qed.
End Fresh.

Lemma exec_fresh s op :
  fresh_turns (store_exec s op) ⊆ fresh_turns s ∪ {[next_id (requests (db s))]}.
Proof.
  set (F := fresh_turns s ∪ _). assert (fresh_in F s) as Hs by (unfold fresh_in, F; set_solver).
  destruct op; try (apply (fresh_exec F); done).
  apply fresh_admit_step; [done|unfold F; set_solver].
Qed.

(** ** Admitted turns *)

Definition is_admit (op : store_op) : bool := match op with OpAdmit _ _ _ _ _ => true | _ => false end.

(** The turns of the database, by their owners and request ids *)
Definition turn_keys d : list (string * string) :=
  map (fun r => (r_owner r, request_id r)) (List.filter is_turn (requests d)).

Lemma turn_keys_update d (p : Request T -> bool) f :
  (forall r, is_turn (f r) = is_turn r /\ r_owner (f r) = r_owner r /\ request_id (f r) = request_id r) ->
  turn_keys (set_requests (update_where p f (requests d)) d) = turn_keys d.
Proof.
  intros Hf. unfold turn_keys. cbn [requests set_requests]. unfold update_where.
  induction (requests d) as [|r l IH]; [done|]. cbn [map List.filter]. destruct (Hf r) as (Ht & Ho & Hr).
  destruct (p r); [rewrite Ht|]; (destruct (is_turn r); cbn [map]; [rewrite IH|exact IH]); [by rewrite Ho, Hr|done].
Qed.

Lemma turn_keys_insert d r : is_turn r = false -> turn_keys (set_requests (requests d ++ [r]) d) = turn_keys d.
Proof.
  intros Hr. unfold turn_keys. cbn [requests set_requests]. rewrite List.filter_app. cbn. by rewrite Hr, app_nil_r.
Qed.

Section Keys.
Context (K : list (string * string)).

Definition keys_are s : Prop := turn_keys (db s) = K.

Ltac keep_keys :=
  keep ltac:(by intros) ltac:(unfold keys_are in *; cbn [db set_db set_fresh discard_fresh block];
    first [ assumption
          | rewrite turn_keys_update; [assumption|by intros ?]
          | rewrite turn_keys_insert; [assumption|reflexivity] ]).

(** No operation but an admission makes a turn. *)
Lemma keys_exec s op : is_admit op = false -> keys_are s -> keys_are (store_exec s op).
Proof.
  intros Hop Hs. destruct op; cbn [store_exec]; try done; try (apply (preserves_run keys_are); [|exact Hs]).
  - unfold initialize. keep_keys.
  - unfold ensure_workspace. keep_keys.
  - unfold create_thread. keep_keys.
  - unfold claim. keep_keys.
  - unfold transition. keep_keys.
  - unfold stage_result. keep_keys.
  - unfold commit_turn. keep_keys.
  - unfold request_cancel. keep_keys.
  - unfold recover_interrupted. keep_keys.
  - unfold reserve_attempt. destruct kind; keep_keys.
Qed.
End Keys.

Lemma exec_turn_keys s op : is_admit op = false -> turn_keys (db (store_exec s op)) = turn_keys (db s).
Proof. intros Hop. by apply keys_exec. Qed.

(** ** Reachable stores *)

Record store_ok s : Prop := {
  ok_numbered : numbered (db s);
  ok_keyed : keyed (db s);
  ok_rows : rows_ok (db s);
  ok_published : exists log, published (db s) log;
}.

Lemma new_file_ok : store_ok new_file.
Proof.
  split; [by intros ? ?|by intros ? ? ? ?|by intros ? ?|].
  exists []. split; [constructor|done| |done]. intros i. rewrite elem_of_nil. split; [done|by intros (r & ? & _)].
Qed.

Lemma exec_ok s op : store_ok s -> store_ok (store_exec s op).
Proof.
  intros [Hn Hk Hr [log Hp]]. pose proof (exec_effect s op Hn) as He. split.
  - by eapply effect_numbered.
  - by eapply effect_keyed.
  - by eapply effect_rows_ok.
  - destruct (effect_published _ _ _ He Hp). by eexists.
Qed.

Lemma run_ok ops s : store_ok s -> store_ok (store_run ops s).
Proof. revert s. induction ops as [|op ops IH]; intros s Hs; [done|]. by apply IH, exec_ok. Qed.

Lemma reachable_store_ok ops : store_ok (store_run ops new_file).
Proof. apply run_ok, new_file_ok. Qed.

Lemma run_row ops s i r :
  store_ok s -> requests (db s) !! i = Some r ->
  exists q, requests (db (store_run ops s)) !! i = Some q /\ aged r q.
Proof.
  revert s r. induction ops as [|op ops IH]; intros s r Hok Hi; [exists r; split; [done|apply aged_refl]|].
  destruct (effect_row _ _ _ _ (exec_effect s op (ok_numbered _ Hok)) Hi) as (q & Hq & Hcase).
  destruct (IH _ _ (exec_ok s op Hok) Hq) as (x & Hx & Hag). exists x. split; [done|].
  eapply aged_trans; [by apply aged_step|done].
Qed.

Lemma run_length ops s : store_ok s -> length (requests (db s)) <= length (requests (db (store_run ops s))).
Proof.
  intros Hok. destruct (length (requests (db s))) as [|n] eqn:Hn; [lia|].
  destruct (lookup_lt_is_Some_2 (requests (db s)) n) as [r Hr]; [lia|].
  destruct (run_row ops s n r Hok Hr) as (q & Hq & _). apply lookup_lt_Some in Hq. lia.
Qed.

Lemma run_fresh ops s x :
  store_ok s -> x ∈ fresh_turns (store_run ops s) -> x ∈ fresh_turns s \/ (next_id (requests (db s)) <= x)%Z.
Proof.
  revert s. induction ops as [|op ops IH]; intros s Hok Hx; [by left|].
  apply IH in Hx; [|by apply exec_ok].
  assert (next_id (requests (db s)) <= next_id (requests (db (store_exec s op))))%Z as Hle.
  { pose proof (run_length [op] s Hok) as Hl. cbn in Hl. unfold next_id. lia. }
  destruct Hx as [Hx|Hx]; [|right; lia]. apply exec_fresh in Hx. set_solver by lia.
Qed.

(** What a claim that returns has done. *)
Lemma claim_ok sql p rid tid rec subj s s' :
  claim time_time sql p rid tid s = (Ok (rec, subj), s') ->
  sequence (record rec) ∈ fresh_turns s /\ fresh_turns s' = fresh_turns s ∖ {[sequence (record rec)]} /\
  record rec ∈ requests (db s) /\ r_owner (record rec) = owner_id p /\ state (record rec) = ADMITTED /\
  is_turn (record rec) = true.
Proof.
  unfold claim. intros Hrun. py_step Hrun u1 s1 K1. py_step Hrun u2 s1 K2. py_step Hrun u3 s1 K3.
  apply run_cases in Hrun as [(e & [=] & _)|(a & [= <-] & Hrun)].
  py_step Hrun row s1 K4. apply request_row_ok in K4 as (-> & Hin & Ho & _). py_step Hrun u4 s1 K5.
  py_step Hrun t s1 K6. apply thread_ok in K6 as ->. rewrite bind_gets in Hrun.
  py_step Hrun u5 s1 K7. breflect. py_step Hrun late s1 K8. injection K8 as _ <-. py_step Hrun u6 s1 K9.
  py_step Hrun u7 s1 K10. apply modify_ok in K10 as ->. py_step Hrun w s1 K11. injection K11 as _ <-.
  py_step Hrun u8 s1 K12. apply modify_ok in K12 as ->. rewrite bind_gets in Hrun.
  destruct (List.find _ _); [|done]. by injection Hrun as <- _ <-.
Qed.
End Statements.
