(* ===== verification/AdmissionTheorems.v ===== *)
(** * What the owner store guarantees

    The properties of [AdmissionStore] over all reachable stores: any sequence
    of operations, failures of SQLite and restarts, from a new file.  They
    follow from the abstract machine of [AdmissionLife]. *)
From S2P Require Import Prelude PyStr PyDict PyJson Sha256 Assessment AdmissionModels AdmissionStore AdmissionLife.
Import AdmissionModels AdmissionStore.

Section Theorems.
Context {T : Type} `{Clock T} (time_time : nat -> T) (uuid_hex : nat -> string) (iso : T -> string).
Context (model_dump : ExecutionAssessment -> json) (model_validate : json -> result ExecutionAssessment).
Implicit Types (s : OwnerPilotStore T) (d : Db T) (r q : Request T).

Abbreviation exec := (store_exec time_time uuid_hex iso model_dump model_validate).
Abbreviation execs := (store_run time_time uuid_hex iso model_dump model_validate).
Abbreviation reachable ops := (execs ops new_file).

Lemma execs_app ops ops' s : execs (ops ++ ops') s = execs ops' (execs ops s).
Proof. apply foldl_app. Qed.

(** ** Publication *)

Lemma exec_closed s op :
  op <> OpRestart -> publication_closed s = true -> publication_closed (exec s op) = true.
Proof.
  set (I := fun s => publication_closed s = true). intros Hop Hs.
  assert (forall {A} (m : py (OwnerPilotStore T) A), preserves I m -> publication_closed (m s).2 = true) as Hkeep.
  { intros A m Hm. by apply (preserves_run I). }
  destruct op; cbn [store_exec]; try done; apply Hkeep;
    unfold initialize, close, ensure_workspace, create_thread, admit_turn, claim, transition, stage_result, commit_turn,
      request_cancel, recover_interrupted, reserve_attempt;
    keep ltac:(by intros) ltac:(assumption || done).
Qed.

Lemma commit_when_closed sql fenced seq text a s :
  publication_closed s = true -> db (commit_turn time_time iso model_dump sql fenced seq text a s).2 = db s.
Proof.
  intros Hs. destruct (commit_turn _ _ _ _ _ _ _ _ s) as [out s'] eqn:Hrun. cbn.
  unfold commit_turn, run_publication in Hrun. rewrite bind_gets, bind_raise_when in Hrun.
  destruct (negb _); [by injection Hrun as _ <-|]. set (work := _ ≫= _) in Hrun.
  assert (preserves (fun s => publication_closed s = true) work) as Hwork.
  { unfold work. keep ltac:(by intros) ltac:(assumption || done). }
  specialize (Hwork s Hs). unfold wp in Hwork. unfold transaction in Hrun.
  destruct sql; [|by injection Hrun as _ <-|]; destruct (work s) as [[[]|e] s1];
    try by injection Hrun as _ <-.
  all: destruct fenced; cbn [publication_closed fence_publication] in Hrun; rewrite ?Hwork in Hrun;
    by injection Hrun as _ <-.
Qed.

Lemma exec_fenced s op :
  numbered (db s) -> publication_closed s = true -> quiet (db s) (db (exec s op)).
Proof.
  intros Hn Hs. destruct (is_commit op) eqn:Hc; [|by apply exec_quiet].
  destruct op; try done. cbn [store_exec]. rewrite commit_when_closed by done. by apply eff_none.
Qed.

(** ** Threads stay *)

Definition has_thread (owner tid : string) s : Prop := is_Some (find_thread (db s) owner tid).

Lemma has_thread_exists owner tid s :
  has_thread owner tid s <-> exists t, t ∈ threads (db s) /\ th_id t = tid /\ owned_thread (db s) owner t = true.
Proof.
  unfold has_thread, find_thread. split.
  - intros [t Ht]. apply find_some_elem in Ht as [Hin [Hid Ho]%andb_true_iff]. exists t. by apply String.eqb_eq in Hid.
  - intros (t & Hin & <- & Ho). destruct (List.find _ _) as [x|] eqn:Hf; [by exists x|].
    eapply find_none_elem in Hf; [|exact Hin]. cbn beta in Hf. by rewrite String.eqb_refl, Ho in Hf.
Qed.

(** Threads only join or are touched, subjects only join. *)
Definition grows d d' : Prop :=
  (forall t, t ∈ threads d -> exists t', t' ∈ threads d' /\ th_id t' = th_id t /\ th_owner t' = th_owner t /\
                                          th_workspace t' = th_workspace t) /\
  (forall x, x ∈ subjects d -> x ∈ subjects d').

Lemma grows_same d d' : threads d' = threads d -> subjects d' = subjects d -> grows d d'.
Proof. intros Ht Hs. split; [|by rewrite Hs]. intros t Hin. exists t. by rewrite Ht. Qed.

Lemma grows_app d d' l k : threads d' = threads d ++ l -> subjects d' = subjects d ++ k -> grows d d'.
Proof.
  intros Ht Hs. split.
  - intros t Hin. exists t. rewrite Ht, elem_of_app. by auto.
  - intros x. rewrite Hs, elem_of_app. by left.
Qed.

Lemma grows_update d d' p f :
  (forall t, th_id (f t) = th_id t /\ th_owner (f t) = th_owner t /\ th_workspace (f t) = th_workspace t) ->
  threads d' = update_where p f (threads d) -> subjects d' = subjects d -> grows d d'.
Proof.
  intros Hf Ht Hs. split; [|by rewrite Hs]. intros t Hin. exists (if p t then f t else t).
  split; [rewrite Ht; apply elem_of_update_where; by exists t|]. by destruct (p t).
Qed.

Lemma has_thread_grows owner tid s s' : has_thread owner tid s -> grows (db s) (db s') -> has_thread owner tid s'.
Proof.
  rewrite !has_thread_exists. intros (t & Hin & <- & Ho) [Ht Hs]. destruct (Ht t Hin) as (t' & Hin' & Hid & Hto & Htw).
  exists t'. split; [done|]. split; [done|]. unfold owned_thread in *. rewrite Hto, Htw.
  apply andb_true_iff in Ho as [-> (x & Hx & Hcond)%existsb_exists]. apply existsb_exists.
  exists x. split; [|done]. by apply list_elem_of_In, Hs, list_elem_of_In.
Qed.

Ltac grow :=
  first
    [ by apply grows_same
    | eapply grows_app; [reflexivity|cbn; symmetry; apply app_nil_r]
    | eapply grows_app; [cbn; symmetry; apply app_nil_r|reflexivity]
    | eapply grows_update; [|reflexivity|reflexivity]; by intros ].

Lemma exec_has_thread owner tid s op : has_thread owner tid s -> has_thread owner tid (exec s op).
Proof.
  set (I := has_thread owner tid). intros Hs.
  assert (forall {A} (m : py (OwnerPilotStore T) A), preserves I m -> I (m s).2) as Hkeep.
  { intros A m Hm. by apply (preserves_run I). }
  destruct op; cbn [store_exec]; try done; apply Hkeep;
    unfold initialize, close, ensure_workspace, create_thread, admit_turn, claim, transition, stage_result, commit_turn,
      request_cancel, recover_interrupted, reserve_attempt;
    keep ltac:(by intros) ltac:(eapply has_thread_grows; [eassumption|grow]).
Qed.

Lemma execs_has_thread owner tid ops s : has_thread owner tid s -> has_thread owner tid (execs ops s).
Proof. revert s. induction ops as [|op ops IH]; intros s Hs; [done|]. by apply IH, exec_has_thread. Qed.
(** ** Admission *)

Lemma thread_found p tid s :
  check_id tid = Ok tt -> has_thread (owner_id p) tid s -> exists t, thread p tid s = (Ok t, s).
Proof.
  intros Hid [t Ht]. unfold thread. rewrite bind_lift, Hid, bind_gets. unfold has_thread in Ht. rewrite Ht. by exists t.
Qed.

Lemma thread_has p tid s t s1 : thread p tid s = (Ok t, s1) -> check_id tid = Ok tt /\ has_thread (owner_id p) tid s.
Proof.
  unfold thread. intros Ht. py_step Ht u s2 Hu. destruct u. split; [done|]. rewrite bind_gets in Ht.
  unfold has_thread. destruct (find_thread _ _ _); [by eexists|done].
Qed.

(** What an admission that returns has checked. *)
Record admitted_input (p : OwnerPrincipal) (rid op : string) (payload : list (string * json))
    (v text : _) r s : Prop := {
  ai_principal : check_principal p = Ok tt;
  ai_id : check_id rid = Ok tt;
  ai_op : op = "turn"%string;
  ai_turn : turn_request rid payload = Ok v;
  ai_text : canonical (JObj payload) 32768 = Ok text;
  ai_row : r ∈ requests (db s);
  ai_owner : r_owner r = owner_id p /\ request_id r = rid;
  ai_same : same_input op text.2 text.1 r = true;
  ai_thread_id : check_id v.1 = Ok tt;
  ai_thread : has_thread (owner_id p) v.1 s;
}.

Lemma same_input_refl op (text : json * string) r :
  operation r = op -> input_digest r = text.2 -> input_json r = text.1 -> same_input op text.2 text.1 r = true.
Proof. intros <- <- <-. unfold same_input. rewrite !String.eqb_refl. by rewrite bool_decide_true. Qed.

Lemma find_request_some d owner rid r :
  find_request d owner rid = Some r -> r ∈ requests d /\ r_owner r = owner /\ request_id r = rid.
Proof. intros [Hin [Ho%String.eqb_eq Hr%String.eqb_eq]%andb_true_iff]%find_some_elem. done. Qed.

Lemma admit_ok sql p rid op payload rec s s' :
  admit_turn time_time uuid_hex sql p rid op payload s = (Ok rec, s') ->
  exists v text, admitted_input p rid op payload v text (record rec) s' /\
    ((replayed rec = true /\ db s' = db s /\ find_request (db s) (owner_id p) rid = Some (record rec)) \/
     (replayed rec = false /\ sequence (record rec) ∈ fresh_turns s' /\
      find_request (db s) (owner_id p) rid = None)).
Proof.
  unfold admit_turn. intros Hrun. py_step Hrun u1 s1 H1. py_step Hrun u2 s1 H2. py_step Hrun u3 s1 H3.
  py_step Hrun v s1 H4. py_step Hrun text s1 H5. destruct u1, u2.
  apply run_cases in Hrun as [(e & [=] & _)|(a & [= <-] & Hrun)].
  py_step Hrun t s1 H6. pose proof (thread_has _ _ _ _ _ H6) as [Hid Hth]. apply thread_ok in H6 as ->.
  rewrite bind_gets in Hrun. apply negb_false_iff, String.eqb_eq in H3. exists v, text.
  destruct (find_request _ _ _) as [old|] eqn:Hold.
  - py_step Hrun u s1 H7. injection Hrun as <- <-. apply find_request_some in Hold as Hfind.
    apply negb_false_iff in H7. split; [|by left]. by destruct Hfind.
  - py_step Hrun tid s2 K1. apply uuid_ok in K1. py_step Hrun w s3 K2. apply now_ok in K2.
    py_step Hrun user s4 K3. apply uuid_ok in K3. py_step Hrun assistant s5 K4. apply uuid_ok in K4.
    py_step Hrun u s6 K5. pose proof K5 as K5'. apply insert_request_ok in K5 as (K5 & _ & _).
    py_step Hrun row s7 K6. apply request_row_ok in K6 as (-> & Hin & Ho & Hr).
    py_step Hrun u4 s8 K7. apply modify_ok in K7 as ->. injection Hrun as <- <-.
    split; [|right; cbn; set_solver].
    rewrite K5, K4, K3, K2, K1 in Hin.
    apply elem_of_app in Hin as [Hin|Hin%list_elem_of_singleton]; [exfalso; by eapply find_request_none|].
    split; cbn [record db set_fresh]; try done.
    + rewrite K5, K4, K3, K2, K1, Hin. apply elem_of_app. right. by left.
    + rewrite Hin. by apply same_input_refl.
    + unfold has_thread in *. unfold insert_request in K5'. rewrite bind_gets, bind_raise_when in K5'.
      destruct (existsb _ _); [done|]. apply modify_ok in K5' as ->. unfold find_thread, owned_thread in *.
      cbn [db set_db set_requests threads subjects set_fresh]. by rewrite K4, K3, K2, K1.
Qed.
(** A keyed row is the one its key finds. *)
Lemma find_request_keyed d i r owner rid :
  keyed d -> requests d !! i = Some r -> r_owner r = owner -> request_id r = rid ->
  find_request d owner rid = Some r.
Proof.
  intros Hk Hi Ho Hr. destruct (find_request d owner rid) as [q|] eqn:Hq.
  - apply find_request_some in Hq as ([j Hj]%list_elem_of_lookup_1 & Hqo & Hqr).
    assert (i = j) as -> by (eapply Hk; [exact Hi|exact Hj|congruence|congruence]). congruence.
  - exfalso. apply list_elem_of_lookup_2 in Hi. by eapply find_request_none.
Qed.

Lemma admitted_text p rid op payload v text r s op' text' q :
  admitted_input p rid op payload v text r s -> same_request r q ->
  same_input op' text'.2 text'.1 q = true -> text' = text.
Proof.
  intros Hin (_ & _ & _ & _ & Hd & Hi & _) Hsame. pose proof (ai_same _ _ _ _ _ _ _ _ Hin) as Hs.
  unfold same_input in *. breflect. destruct text, text'. cbn in *.
  repeat match goal with E : String.eqb _ _ = true |- _ => apply String.eqb_eq in E end. congruence.
Qed.

Lemma admit_store_ok sql p rid op payload s : store_ok s -> store_ok (admit_turn time_time uuid_hex sql p rid op payload s).2.
Proof. intros Hs. by apply (exec_ok time_time uuid_hex iso model_dump model_validate s (OpAdmit sql p rid op payload)). Qed.

(** ** The properties *)

(** C4: Refinement: on every reachable store each operation, whether it
    returns or raises and whatever SQLite does, is one step of the abstract
    machine: it changes nothing, admits one new turn or receipt, moves one live
    turn along its life, cancels, recovers every live turn, or publishes one
    turn; only [commit_turn] publishes.  Sequence numbers stay the row numbers
    and (owner, request id) stays a key. *)
Theorem operations_refine_machine ops op :
  let d := db (reachable ops) in
  let d' := db (exec (reachable ops) op) in
  effect d d' /\ (is_commit op = false -> quiet d d') /\ numbered d' /\ keyed d'.
Proof.
  pose proof (reachable_store_ok time_time uuid_hex iso model_dump model_validate ops) as Hok.
  pose proof (exec_ok time_time uuid_hex iso model_dump model_validate _ op Hok) as Hok'.
  split; [apply exec_effect, Hok|]. split; [apply exec_quiet, Hok|]. split; apply Hok'.
Qed.

(** C7: The life of a turn: a row, once written, is never deleted; whatever
    operations and restarts follow it keeps its identity, input and ids, moves
    only forward along the state machine, is immutable once settled, keeps its
    staged result, stays cancelled, never completes after a cancellation, and
    its model and tool attempts only grow and stay within 8 and 4. *)
Theorem turn_life ops ops' i r :
  requests (db (reachable ops)) !! i = Some r ->
  exists q, requests (db (reachable (ops ++ ops'))) !! i = Some q /\ aged r q /\ row_ok q.
Proof.
  intros Hi. pose proof (reachable_store_ok time_time uuid_hex iso model_dump model_validate ops) as Hok.
  rewrite execs_app. destruct (run_row time_time uuid_hex iso model_dump model_validate ops' _ _ _ Hok Hi) as (q & Hq & Hag).
  exists q. split; [done|]. split; [done|]. eapply ok_rows; [|exact Hq]. by apply run_ok.
Qed.

(** C5: Atomic publication: the transcript is, in the order of the commits,
    exactly the two messages (the owner's and the staged answer) of each
    completed turn, once each; later operations only extend it. *)
Theorem transcript_is_committed_turns ops ops' :
  exists log more, published (db (reachable ops)) log /\ published (db (reachable (ops ++ ops'))) (log ++ more).
Proof.
  pose proof (reachable_store_ok time_time uuid_hex iso model_dump model_validate ops) as Hok.
  rewrite execs_app. destruct (ok_published _ Hok) as [log Hlog]. exists log.
  enough (exists more, published (db (execs ops' (reachable ops))) (log ++ more)) as [more Hmore] by by exists more.
  clear - Hok Hlog. revert log Hlog Hok. generalize (reachable ops) as s.
  induction ops' as [|op ops' IH]; intros s log Hlog Hok; [exists []; by rewrite app_nil_r|].
  pose proof (exec_effect time_time uuid_hex iso model_dump model_validate s op (ok_numbered _ Hok)) as He.
  destruct (effect_published _ _ _ He Hlog) as [more Hmore].
  destruct (IH _ _ Hmore (exec_ok _ _ _ _ _ _ op Hok)) as [more' Hmore'].
  exists (more ++ more'). by rewrite app_assoc.
Qed.

(** C8: The publication fence: once [fence_publication] (or [close]) has run,
    no operation of the process publishes: the transcript and the set of
    completed turns stay as they are until the store is opened anew. *)
Theorem fence_stops_publication ops ops' :
  OpRestart ∉ ops' ->
  let s := fence_publication (reachable ops) in
  messages (db (execs ops' s)) = messages (db s) /\
  forall i, completed_turn (db (execs ops' s)) i <-> completed_turn (db s) i.
Proof.
  intros Hno. cbn zeta. set (s := fence_publication (reachable ops)).
  pose proof (reachable_store_ok time_time uuid_hex iso model_dump model_validate (ops ++ [OpFence])) as Hok.
  rewrite execs_app in Hok. cbn [store_run foldl store_exec] in Hok. fold s in Hok.
  assert (publication_closed s = true) as Hc by done. clearbody s.
  revert s Hok Hc. induction ops' as [|op ops' IH]; intros s Hok Hc; [done|]. cbn [store_run foldl].
  rewrite not_elem_of_cons in Hno. destruct Hno as [Hop Hno].
  pose proof (exec_fenced s op (ok_numbered _ Hok) Hc) as Hq.
  destruct (IH Hno (exec s op)) as [Hm Hi].
  { by apply exec_ok. }
  { by apply exec_closed. }
  unfold store_run in Hm, Hi. split.
  - rewrite Hm. by destruct Hq.
  - intros i. rewrite Hi. split; [by apply quiet_completed|]. intros (r & Hr & Ht & Hst).
    exists r. rewrite (completed_stays _ _ _ _ (eff_quiet _ _ Hq) Hr) by by rewrite Hst. done.
Qed.

(** Recovery: when [recover_interrupted] returns, exactly the live turns
    have become UNCERTAIN, no turn is live any more, every other row and the
    transcript are untouched. *)
Theorem recovery_settles_turns sql ops outs s' :
  recover_interrupted time_time sql (reachable ops) = (Ok outs, s') ->
  Forall2 recovered (requests (db (reachable ops))) (requests (db s')) /\
  (forall r, r ∈ requests (db s') -> is_turn r = true -> live_state (state r) = false) /\
  messages (db s') = messages (db (reachable ops)).
Proof.
  intros Hrun. pose proof (reachable_store_ok time_time uuid_hex iso model_dump model_validate ops) as Hok.
  destruct (recover_spec time_time _ _ _ _ (ok_numbered _ Hok) Hrun) as [Hrec Hm].
  split; [done|]. split; [|done]. intros q [i Hi]%list_elem_of_lookup_1 Hturn.
  destruct (Forall2_lookup_r _ _ _ _ _ Hrec Hi) as (r & _ & Hr). unfold recovered in Hr.
  destruct (is_turn r && live_state (state r)) eqn:Hlive; [by destruct Hr as [_ ->]|]. subst q.
  by rewrite Hturn in Hlive.
Qed.
(** C6: Admission is idempotent and always answers: once a turn is admitted
    under a request id, then, whatever operations and restarts follow, the same
    admission returns the same turn as replayed and changes nothing, and any
    admission of the owner that returns under that id carries the same
    canonical input. *)
Theorem admission_idempotent ops ops' sql p rid op payload rec s1 :
  admit_turn time_time uuid_hex sql p rid op payload (reachable ops) = (Ok rec, s1) ->
  let s2 := execs ops' s1 in
  (ready s2 && negb (closed s2) = true ->
   exists row, admit_turn time_time uuid_hex SqlFine p rid op payload s2 = (Ok (mk_Record row true), s2) /\
     sequence row = sequence (record rec)) /\
  forall sql' p' op' payload' rec' s3, owner_id p' = owner_id p ->
    admit_turn time_time uuid_hex sql' p' rid op' payload' s2 = (Ok rec', s3) ->
    replayed rec' = true /\ sequence (record rec') = sequence (record rec) /\ db s3 = db s2 /\
    canonical (JObj payload') 32768 = canonical (JObj payload) 32768.
Proof.
  intros Hadmit. cbn zeta.
  pose proof (admit_store_ok sql p rid op payload _ (reachable_store_ok time_time uuid_hex iso model_dump model_validate ops)) as Hok1.
  rewrite Hadmit in Hok1. cbn [snd] in Hok1. apply admit_ok in Hadmit as (v & text & Hin & _).
  pose proof (ai_row _ _ _ _ _ _ _ _ Hin) as [i Hi]%list_elem_of_lookup_1.
  destruct (run_row time_time uuid_hex iso model_dump model_validate ops' _ _ _ Hok1 Hi) as (row & Hrow & Hag).
  pose proof (run_ok time_time uuid_hex iso model_dump model_validate ops' _ Hok1) as Hok2.
  pose proof (execs_has_thread _ _ ops' _ (ai_thread _ _ _ _ _ _ _ _ Hin)) as Hth.
  set (s2 := execs ops' s1) in *. pose proof (ag_same _ _ Hag) as Hsame.
  assert (find_request (db s2) (owner_id p) rid = Some row) as Hfind.
  { destruct (ai_owner _ _ _ _ _ _ _ _ Hin) as [Ho Hr]. destruct Hsame as (_ & Hso & Hsr & _).
    eapply find_request_keyed; [apply Hok2|exact Hrow|congruence|congruence]. }
  split.
  - intros Hup. exists row. split; [|by apply same_sequence]. unfold admit_turn. destruct Hin.
    rewrite (bind_lift_ok _ _ _ _ ai_principal0), (bind_lift_ok _ _ _ _ ai_id0), bind_raise_when, ai_op0.
    cbn [String.eqb negb Ascii.eqb Bool.eqb].
    rewrite (bind_lift_ok _ _ _ _ ai_turn0), (bind_lift_ok _ _ _ _ ai_text0). unfold run. rewrite bind_gets, bind_raise_when, Hup.
    cbn [negb]. unfold transaction. rewrite bind_run.
    destruct (thread_found p v.1 s2 ai_thread_id0 Hth) as [t ->].
    rewrite bind_gets, Hfind, bind_raise_when.
    destruct Hsame as (_ & _ & _ & Hso & Hsd & Hsi & _). unfold same_input in *. rewrite Hso, Hsd, Hsi.
    rewrite ai_op0 in ai_same0. by rewrite ai_same0.
  - intros sql' p' op' payload' rec' s3 Hp Hrun. apply admit_ok in Hrun as (v' & text' & Hin' & Hcase).
    rewrite Hp in Hcase. destruct Hcase as [(Hrep & Hdb & Hf)|(_ & _ & Hf)]; [|congruence].
    assert (record rec' = row) as Hrr by congruence. split; [done|]. rewrite Hrr.
    split; [by apply same_sequence|]. split; [done|].
    rewrite (ai_text _ _ _ _ _ _ _ _ Hin), (ai_text _ _ _ _ _ _ _ _ Hin'). f_equal.
    pose proof (ai_same _ _ _ _ _ _ _ _ Hin') as Hs'. rewrite Hrr in Hs'. by eapply admitted_text.
Qed.

(** A turn is claimed at most once: after a claim returns, no later claim,
    by anyone and across any operations and restarts, returns that turn. *)
Theorem turn_claimed_once ops ops' sql p rid tid rec subj s1 sql' p' rid' tid' rec' subj' s2 :
  claim time_time sql p rid tid (reachable ops) = (Ok (rec, subj), s1) ->
  claim time_time sql' p' rid' tid' (execs ops' s1) = (Ok (rec', subj'), s2) ->
  sequence (record rec') <> sequence (record rec).
Proof.
  intros H1 H2. pose proof (reachable_store_ok time_time uuid_hex iso model_dump model_validate ops) as Hok.
  pose proof (exec_ok time_time uuid_hex iso model_dump model_validate _ (OpClaim sql p rid tid) Hok) as Hok1.
  pose proof (run_length time_time uuid_hex iso model_dump model_validate [OpClaim sql p rid tid] _ Hok) as Hlen.
  cbn [store_run foldl store_exec] in Hok1, Hlen. rewrite H1 in Hok1, Hlen. cbn [snd] in Hok1, Hlen.
  apply claim_ok in H1 as (Hf & Hf1 & [i Hi]%list_elem_of_lookup_1 & _). apply claim_ok in H2 as (Hf2 & _).
  apply run_fresh in Hf2; [|done]. rewrite Hf1 in Hf2. destruct Hf2 as [Hf2|Hf2]; [set_solver|].
  assert (sequence (record rec) < next_id (requests (db s1)))%Z; [|lia].
  pose proof (ok_numbered _ Hok _ _ Hi). apply lookup_lt_Some in Hi. unfold next_id. lia.
Qed.

(** No turn outlives its process unstarted: after a restart no claim
    returns a turn admitted before it. *)
Theorem restart_drops_claims ops ops' sql p rid tid rec subj s2 :
  claim time_time sql p rid tid (execs ops' (restart (reachable ops))) = (Ok (rec, subj), s2) ->
  forall r, r ∈ requests (db (reachable ops)) -> (sequence r < sequence (record rec))%Z.
Proof.
  intros Hc r [i Hi]%list_elem_of_lookup_1. pose proof (reachable_store_ok time_time uuid_hex iso model_dump model_validate ops) as Hok.
  apply claim_ok in Hc as (Hf & _). apply run_fresh in Hf.
  2: { by apply (exec_ok time_time uuid_hex iso model_dump model_validate _ OpRestart). }
  cbn [restart fresh_turns db] in Hf. destruct Hf as [Hf|Hf]; [set_solver|].
  pose proof (ok_numbered _ Hok _ _ Hi). apply lookup_lt_Some in Hi. unfold next_id in Hf. lia.
Qed.
End Theorems.

(** ** Witnesses *)

Definition demo_time (n : nat) : Z := 1000 + Z.of_nat n.
Definition demo_uuid (n : nat) : string := String (Ascii.ascii_of_nat (97 + n)) "0".
Definition demo_iso (t : Z) : string := "2026-01-01T00:00:00+00:00".
Definition demo_dump (a : ExecutionAssessment) : json := JNull.
Definition demo_validate (v : json) : result ExecutionAssessment := Err ValueError.
Definition demo_owner : OwnerPrincipal := mk_Principal "owner" "local" "owner-1".
Definition demo_payload : list (string * json) := [("thread_id", JStr "b0"); ("message", JStr "hello")]%string.
Definition demo_result : list (string * json) :=
  [("task_id", JStr "c0"); ("response", JStr "hi"); ("assessment", JNull)]%string.

(** A thread *)
Definition demo_open : list store_op :=
  [OpInitialize false true; OpCreateThread SqlFine demo_owner "r1" "chat" None].
(** A turn in it *)
Definition demo_admit : list store_op := demo_open ++ [OpAdmit SqlFine demo_owner "r2" "turn" demo_payload].
(** The turn run to its publication *)
Definition demo_serve : list store_op :=
  [OpClaim SqlFine demo_owner "r2" "c0"; OpTransition SqlFine 2 ADMITTED RUNNING "running" None;
   OpReserve SqlFine 2 model_attempt 8; OpStage SqlFine 2 demo_result; OpCommit SqlFine false 2 "hi" None].

Abbreviation demo ops := (store_run demo_time demo_uuid demo_iso demo_dump demo_validate ops new_file).

Example demo_publishes :
  map mv_content (messages (db (demo (demo_admit ++ demo_serve)))) = ["hello"; "hi"]%string /\
  map state (requests (db (demo (demo_admit ++ demo_serve)))) = [COMPLETED; COMPLETED].
Proof. by vm_compute. Qed.

(** The turn admitted in row 1 is completed by the next operations. *)
Example turn_life_witness :
  match requests (db (demo demo_admit)) !! 1 with
  | Some r => state r = ADMITTED /\
              exists q, requests (db (demo (demo_admit ++ demo_serve))) !! 1 = Some q /\ aged r q /\ row_ok q
  | None => False
  end.
Proof.
  destruct (requests (db (demo demo_admit)) !! 1) as [r|] eqn:Hr; [|by vm_compute in Hr].
  split; [by vm_compute in Hr; injection Hr as <-|].
  exact (turn_life demo_time demo_uuid demo_iso demo_dump demo_validate demo_admit demo_serve 1 r Hr).
Defined.

Example fence_stops_publication_witness :
  messages (db (store_run demo_time demo_uuid demo_iso demo_dump demo_validate demo_serve
                  (fence_publication (demo demo_admit)))) = [].
Proof.
  assert (OpRestart ∉ demo_serve) as Hno.
  { unfold demo_serve. rewrite !not_elem_of_cons. repeat split; try discriminate. apply not_elem_of_nil. }
  etransitivity; [exact (proj1 (fence_stops_publication demo_time demo_uuid demo_iso demo_dump demo_validate
                                  demo_admit demo_serve Hno))|by vm_compute].
Defined.

Example recovery_settles_turns_witness :
  match recover_interrupted demo_time SqlFine (demo demo_admit) with
  | (Ok outs, s') => map state (requests (db s')) = [COMPLETED; UNCERTAIN] /\
                     forall r, r ∈ requests (db s') -> is_turn r = true -> live_state (state r) = false
  | _ => False
  end.
Proof.
  destruct (recover_interrupted demo_time SqlFine (demo demo_admit)) as [[outs|e] s'] eqn:Hr; [|by vm_compute in Hr].
  split; [by vm_compute in Hr; injection Hr as _ <-|].
  exact (proj1 (proj2 (recovery_settles_turns demo_time demo_uuid demo_iso demo_dump demo_validate
                         SqlFine demo_admit outs s' Hr))).
Defined.

Example admission_idempotent_witness :
  match admit_turn demo_time demo_uuid SqlFine demo_owner "r2" "turn" demo_payload (demo demo_open) with
  | (Ok rec, s1) =>
      let s2 := store_run demo_time demo_uuid demo_iso demo_dump demo_validate demo_serve s1 in
      exists row, admit_turn demo_time demo_uuid SqlFine demo_owner "r2" "turn" demo_payload s2 = (Ok (mk_Record row true), s2) /\
        sequence row = sequence (record rec)
  | _ => False
  end.
Proof.
  destruct (admit_turn demo_time demo_uuid SqlFine demo_owner "r2" "turn" demo_payload (demo demo_open))
    as [[rec|e] s1] eqn:Hr; [|by vm_compute in Hr].
  apply (proj1 (admission_idempotent demo_time demo_uuid demo_iso demo_dump demo_validate demo_open demo_serve
                  SqlFine demo_owner "r2" "turn" demo_payload rec s1 Hr)).
  vm_compute in Hr. injection Hr as _ <-. by vm_compute.
Defined.

(** A second turn is claimed after the first, which was claimed before. *)
Definition demo_second : list store_op :=
  demo_serve ++ [OpAdmit SqlFine demo_owner "r3" "turn" demo_payload].

Example turn_claimed_once_witness :
  match claim demo_time SqlFine demo_owner "r2" "c0" (demo demo_admit) with
  | (Ok (rec, _), s1) =>
      match claim demo_time SqlFine demo_owner "r3" "f0"
              (store_run demo_time demo_uuid demo_iso demo_dump demo_validate demo_second s1) with
      | (Ok (rec', _), _) => sequence (record rec') <> sequence (record rec)
      | _ => False
      end
  | _ => False
  end.
Proof.
  destruct (claim demo_time SqlFine demo_owner "r2" "c0" (demo demo_admit)) as [[[rec subj]|e] s1] eqn:H1;
    [|by vm_compute in H1].
  destruct (claim demo_time SqlFine demo_owner "r3" "f0" _) as [[[rec' subj']|e] s2] eqn:H2.
  - exact (turn_claimed_once demo_time demo_uuid demo_iso demo_dump demo_validate demo_admit demo_second
             _ _ _ _ _ _ _ _ _ _ _ _ _ _ H1 H2).
  - vm_compute in H1. injection H1 as _ _ <-. by vm_compute in H2.
Defined.

Example restart_drops_claims_witness :
  match claim demo_time SqlFine demo_owner "r3" "f0"
          (store_run demo_time demo_uuid demo_iso demo_dump demo_validate
             [OpInitialize false true; OpAdmit SqlFine demo_owner "r3" "turn" demo_payload] (restart (demo demo_admit))) with
  | (Ok (rec, _), _) => forall r, r ∈ requests (db (demo demo_admit)) -> (sequence r < sequence (record rec))%Z
  | _ => False
  end.
Proof.
  destruct (claim demo_time SqlFine demo_owner "r3" "f0" _) as [[[rec subj]|e] s2] eqn:H1; [|by vm_compute in H1].
  exact (restart_drops_claims demo_time demo_uuid demo_iso demo_dump demo_validate demo_admit _ _ _ _ _ _ _ _ H1).
Defined.
