(* ===== verification/OwnerBudget.v ===== *)
(** * The owner's budget

    [src/agency/admission/budget.py] with the lease, grant and binding of
    [models.py]: one turn's permission to call models and tools, over the owner
    store ([AdmissionStore]) and the quota ledger ([BudgetStore]).

    The gate makes the operations of the adapter follow one another; at each
    [_wait] the other coroutines may act on the store, revoke a lease or close
    the adapter ([outside]), the caller may be cancelled, and SQLite may fail.
    What happens at the n-th await is given by streams. *)
From S2P Require Import Prelude PyStr PyDict PyJson Sha256 Assessment.
From S2P Require Import BudgetStore.
From S2P Require Import AdmissionModels AdmissionStore AdmissionLife.
Import AdmissionModels AdmissionStore.

(** ** Leases *)

(** [RequestLease]; [lease_object] is the identity of the object. *)
Record RequestLease (T : Type) := mk_Lease {
  lease_object : nat;
  principal : OwnerPrincipal;
  l_request_id : string;
  l_task_id : string;
  l_sequence : Z;
  l_quota_subject_id : Z;
  l_capability : string;
  deadline_at : T;
}.
Arguments mk_Lease {T}.
Arguments lease_object {T} _.
Arguments principal {T} _.
Arguments l_request_id {T} _.
Arguments l_task_id {T} _.
Arguments l_sequence {T} _.
Arguments l_quota_subject_id {T} _.
Arguments l_capability {T} _.
Arguments deadline_at {T} _.

Inductive LeaseState := LeaseReserved | LeaseRunning.

#[export] Instance LeaseState_eq_dec : EqDecision LeaseState.
Proof. solve_decision. Defined.

Section Budget.
Context {T : Type} `{Clock T}.
Implicit Types (l : RequestLease T).

(** [RequestLease.__post_init__] *)
Definition check_lease l : result unit :=
  _ ← check_principal (principal l);
  _ ← check_id (l_request_id l);
  _ ← identifier (l_task_id l);
  _ ← raise_if (negb ((1 <=? l_sequence l) && (l_sequence l <=? MAX_SQLITE_INT))%Z ||
                negb ((1 <=? l_quota_subject_id l) && (l_quota_subject_id l <=? MAX_SQLITE_INT))%Z)
        (pilot "invalid_request");
  _ ← raise_if (negb ((32 <=? py_len (l_capability l)) && (py_len (l_capability l) <=? 128))%Z)
        (pilot "invalid_request");
  raise_if (negb (t_finite (deadline_at l)) || negb (t_pos (deadline_at l))) (pilot "invalid_request").

(** [_snapshot(lease)], and [==] of two of them *)
Definition snapshot_eq (o l : RequestLease T) : bool :=
  bool_decide (principal o = principal l) && String.eqb (l_request_id o) (l_request_id l) &&
  String.eqb (l_task_id o) (l_task_id l) && (l_sequence o =? l_sequence l)%Z &&
  (l_quota_subject_id o =? l_quota_subject_id l)%Z && String.eqb (l_capability o) (l_capability l) &&
  t_eq (deadline_at o) (deadline_at l).

(** [_Owned]; the snapshot holds the lease's fields as they were at first. *)
Record Owned := mk_Owned {
  ow_lease : nat;
  ow_snapshot : RequestLease T;
  ow_backend_capability : string;
  ow_state : LeaseState;
}.

Record OwnerBudgetAdapter := mk_Adapter {
  ad_backend : BetaBudgetStore T;
  ad_store : OwnerPilotStore T;
  ad_namespace : string;
  ad_owned : list (Z * Owned);
  ad_closed : bool;
  ad_awaits : nat;    (* awaits so far *)
  ad_objects : nat;   (* lease objects made so far *)
}.

(** [OwnerBudgetAdapter(backend, store, namespace=...)] *)
Definition new_adapter (backend : BetaBudgetStore T) (store : OwnerPilotStore T) (namespace : string)
    : result OwnerBudgetAdapter :=
  _ ← raise_if (is_blank namespace || (128 <? py_len namespace)%Z) (pilot "invalid_request");
  Ok (mk_Adapter backend store namespace [] false 0 0).

Definition set_store (s : OwnerPilotStore T) (a : OwnerBudgetAdapter) : OwnerBudgetAdapter :=
  mk_Adapter (ad_backend a) s (ad_namespace a) (ad_owned a) (ad_closed a) (ad_awaits a) (ad_objects a).
Definition set_backend (b : BetaBudgetStore T) (a : OwnerBudgetAdapter) : OwnerBudgetAdapter :=
  mk_Adapter b (ad_store a) (ad_namespace a) (ad_owned a) (ad_closed a) (ad_awaits a) (ad_objects a).
Definition set_owned (o : list (Z * Owned)) (a : OwnerBudgetAdapter) : OwnerBudgetAdapter :=
  mk_Adapter (ad_backend a) (ad_store a) (ad_namespace a) o (ad_closed a) (ad_awaits a) (ad_objects a).
Definition set_ad_closed (a : OwnerBudgetAdapter) : OwnerBudgetAdapter :=
  mk_Adapter (ad_backend a) (ad_store a) (ad_namespace a) (ad_owned a) true (ad_awaits a) (ad_objects a).
Definition next_await (a : OwnerBudgetAdapter) : OwnerBudgetAdapter :=
  mk_Adapter (ad_backend a) (ad_store a) (ad_namespace a) (ad_owned a) (ad_closed a) (S (ad_awaits a)) (ad_objects a).
Definition next_object (a : OwnerBudgetAdapter) : OwnerBudgetAdapter :=
  mk_Adapter (ad_backend a) (ad_store a) (ad_namespace a) (ad_owned a) (ad_closed a) (ad_awaits a) (S (ad_objects a)).

(** [limits] *)
Definition adapter_limits (a : OwnerBudgetAdapter) : BudgetLimits := BudgetStore.limits (ad_backend a).

(** [revoke]: the first entry of the lease's object is popped. *)
Definition revoke_object (o : nat) (a : OwnerBudgetAdapter) : OwnerBudgetAdapter :=
  match List.find (fun kv => ow_lease kv.2 =? o) (ad_owned a) with
  | Some kv => set_owned (ddel kv.1 (ad_owned a)) a
  | None => a
  end.

Definition revoke l : py OwnerBudgetAdapter unit := modify (revoke_object (lease_object l)).

(** ** The surroundings *)

Context (time_time : nat -> T) (uuid_hex : nat -> string) (iso : T -> string).
Context (model_dump : ExecutionAssessment -> json) (model_validate : json -> result ExecutionAssessment).

(** What other coroutines do while one of the adapter's waits. *)
Inductive outside :=
| OutStore (op : store_op)
| OutRevoke (o : nat)
| OutClose.

Definition outside_exec (a : OwnerBudgetAdapter) (o : outside) : OwnerBudgetAdapter :=
  match o with
  | OutStore op => set_store (store_exec time_time uuid_hex iso model_dump model_validate (ad_store a) op) a
  | OutRevoke o => revoke_object o a
  | OutClose => set_owned [] (set_ad_closed a)
  end.

(** At the n-th await: how SQLite behaves in the owner store and in the ledger,
    the ledger's clock, the ledger's and the adapter's random tokens, what the
    others do meanwhile, and whether the caller is cancelled. *)
Context (w_sql : nat -> sql_outcome) (w_io : nat -> bool) (w_reading : nat -> option T).
Context (w_token w_lease_token : nat -> string) (w_others : nat -> list outside) (w_cancelled : nat -> bool).

(** The exceptions that [_wait] passes on. *)
Definition wait_error (e : exn) : exn :=
  match e with
  | BudgetUnavailable | IntegrityError | SqliteError | ValueError | TypeError | RuntimeError => pilot_error "store" true
  | _ => e
  end.

(** [_wait]: the operation runs to its end even when the caller is cancelled. *)
Definition wait {A} (m : nat -> py OwnerBudgetAdapter A) : py OwnerBudgetAdapter A := fun a =>
  let n := ad_awaits a in
  let '(r, a1) := m n a in
  let a2 := foldl outside_exec (next_await a1) (w_others n) in
  (if w_cancelled n then Err CancelledError else match r with Ok v => Ok v | Err e => Err (wait_error e) end, a2).

Definition on_store {A} (m : py (OwnerPilotStore T) A) : py OwnerBudgetAdapter A := fun a =>
  let '(r, s) := m (ad_store a) in (r, set_store s a).
Definition on_backend {A} (m : string -> py (BetaBudgetStore T) A) : py OwnerBudgetAdapter A := fun a =>
  let '(r, b) := m (ad_namespace a) (ad_backend a) in (r, set_backend b a).

(** [initialize] *)
Definition initialize_adapter : py OwnerBudgetAdapter unit :=
  shut ← gets ad_closed;
  _ ← raise_when shut (pilot "disabled");
  wait (fun n => raise_when (negb (w_io n)) BudgetUnavailable).

(** [owns]: the clock is read only when all else holds. *)
Definition owns l : py OwnerBudgetAdapter bool :=
  a ← get;
  if ad_closed a || negb (ready (ad_store a)) || AdmissionStore.closed (ad_store a) then mret false
  else match check_lease l with
  | Err _ => mret false
  | Ok _ =>
      if bool_decide (l_sequence l ∈ blocked_sequences (ad_store a)) then mret false
      else match dget (l_sequence l) (ad_owned a) with
      | None => mret false
      | Some o =>
          if (ow_lease o =? lease_object l) && snapshot_eq (ow_snapshot o) l then
            t ← on_store (now time_time);
            mret (t_lt t (deadline_at l))
          else mret false
      end
  end.

(** [_require] *)
Definition require l : py OwnerBudgetAdapter Owned :=
  mine ← owns l;
  _ ← raise_when (negb mine) (pilot "forbidden");
  a ← get;
  match dget (l_sequence l) (ad_owned a) with
  | Some o => mret o
  | None => raise KeyError
  end.

(** [_current] *)
Definition current l (st : RequestState) : py OwnerBudgetAdapter (Request T) :=
  _ ← require l;
  rec ← wait (fun n => on_store (get_task (w_sql n) (principal l) (l_task_id l)));
  _ ← require l;
  let row := record rec in
  if negb (sequence row =? l_sequence l)%Z || negb (String.eqb (request_id row) (l_request_id l)) ||
     negb (String.eqb (r_owner row) (owner_id (principal l))) ||
     negb (t_eq (t_add (created_at row) 120) (deadline_at l)) ||
     negb (bool_decide (AdmissionModels.state row = st)) || cancel_requested row
  then _ ← revoke l; raise (pilot "conflict")
  else mret row.

(** [except BaseException: self.revoke(lease); raise] *)
Definition or_revoke {A} l (m : py OwnerBudgetAdapter A) : py OwnerBudgetAdapter A :=
  catch m (fun e => _ ← revoke l; raise e).

(** [self._owned[row.sequence] = _Owned(lease, _snapshot(lease), reservation.capability)] *)
Definition own_lease l (cap : string) (a : OwnerBudgetAdapter) : OwnerBudgetAdapter :=
  next_object (set_owned (dset (l_sequence l) (mk_Owned (lease_object l) l cap LeaseReserved) (ad_owned a)) a).

(** [reserve_request] *)
Definition reserve_request (p : OwnerPrincipal) (rid tid : string) : py OwnerBudgetAdapter (RequestLease T) :=
  shut ← gets ad_closed;
  _ ← raise_when shut (pilot "disabled");
  claimed ← wait (fun n => on_store (claim time_time (w_sql n) p rid tid));
  let row := record claimed.1 in
  let quota := claimed.2 in
  reservation ← wait (fun n => on_backend (fun ns =>
    BudgetStore.reserve_request (w_io n) (w_reading n) (w_token n) id ns (sequence row) quota));
  _ ← raise_when (duplicate reservation) (pilot "conflict");
  _ ← raise_when (negb (allowed reservation)) (pilot "quota");
  cap ← match BudgetStore.state reservation, capability reservation with
        | Row BudgetStore.RESERVED, Some cap => _ ← raise_when (String.eqb cap "") (pilot_error "store" true); mret cap
        | _, _ => raise (pilot_error "store" true)
        end;
  a ← get;
  let lease := mk_Lease (ad_objects a) p rid tid (sequence row) quota (w_lease_token (ad_objects a))
                 (t_add (created_at row) 120) in
  _ ← lift (check_lease lease);
  _ ← modify (own_lease lease cap);
  _ ← or_revoke lease (current lease ADMITTED);
  mret lease.

(** [owned.state = "RUNNING"], on the object in the dict *)
Definition set_running l (a : OwnerBudgetAdapter) : OwnerBudgetAdapter :=
  match dget (l_sequence l) (ad_owned a) with
  | Some o => set_owned (dset (l_sequence l)
                (mk_Owned (ow_lease o) (ow_snapshot o) (ow_backend_capability o) LeaseRunning) (ad_owned a)) a
  | None => a
  end.

(** [mark_running] *)
Definition mark_running l : py OwnerBudgetAdapter unit :=
  owned ← require l;
  _ ← raise_when (negb (bool_decide (ow_state owned = LeaseReserved))) (pilot "conflict");
  or_revoke l (
    _ ← current l ADMITTED;
    _ ← wait (fun n => on_backend (fun ns =>
      BudgetStore.mark_running (w_io n) (w_reading n) id ns (l_sequence l) (l_quota_subject_id l)
        (Some (ow_backend_capability owned))));
    _ ← require l;
    _ ← wait (fun n => on_store (transition time_time (w_sql n) (l_sequence l) ADMITTED RUNNING "running" None));
    _ ← current l RUNNING;
    modify (set_running l)).

(** [_active] *)
Definition active l : py OwnerBudgetAdapter bool :=
  mine ← owns l;
  a ← get;
  if negb mine || negb (match dget (l_sequence l) (ad_owned a) with
                        | Some o => bool_decide (ow_state o = LeaseRunning)
                        | None => false
                        end)
  then mret false
  else
    still ← catch (_ ← current l RUNNING; mret true)
              (fun e => match e with
                        | PilotError code _ _ =>
                            if String.eqb code "forbidden" || String.eqb code "conflict" then mret false else raise e
                        | _ => raise e
                        end);
    if (still : bool) then owns l else mret false.

(** The body of [reserve_model_call]'s [try] *)
Definition try_model_call l (limit : Z) : py OwnerBudgetAdapter bool :=
  ok ← active l;
  if negb ok then mret false
  else
    owned ← require l;
    counted ← wait (fun n => on_store (reserve_attempt time_time (w_sql n) (l_sequence l) model_attempt limit));
    if negb counted then mret false
    else
      mine ← owns l;
      if negb mine then mret false
      else
        reserved ← wait (fun n => on_backend (fun ns =>
          BudgetStore.reserve_model_call (w_io n) (w_reading n) id ns (l_sequence l) (l_quota_subject_id l)
            (Some (ow_backend_capability owned))));
        if (reserved : bool) then active l else mret false.

(** [reserve_model_call] *)
Definition reserve_model_call l (limit : Z) : py OwnerBudgetAdapter bool := or_revoke l (try_model_call l limit).

Definition OWNER_TOOLS : list string := ["calculator"; "utc_time"; "web_search"]%string.

(** The body of [reserve_tool_call]'s [try] *)
Definition try_tool_call l (limit : Z) : py OwnerBudgetAdapter bool :=
  ok ← active l;
  if negb ok then mret false
  else
    counted ← wait (fun n => on_store (reserve_attempt time_time (w_sql n) (l_sequence l) tool_attempt limit));
    if (counted : bool) then active l else mret false.

(** [reserve_tool_call] *)
Definition reserve_tool_call l (tool : string) (limit : Z) : py OwnerBudgetAdapter bool :=
  if negb (bool_decide (tool ∈ OWNER_TOOLS)) then mret false else or_revoke l (try_tool_call l limit).

(** [try: ... finally: self.revoke(lease)] *)
Definition then_revoke {A} l (m : py OwnerBudgetAdapter A) : py OwnerBudgetAdapter A := fun a =>
  let '(r, a1) := m a in (r, revoke_object (lease_object l) a1).

(** The body of [finish_request]'s [try] *)
Definition try_finish l (success : bool) (owned : Owned) : py OwnerBudgetAdapter unit :=
  _ ← current l RUNNING;
  wait (fun n => on_backend (fun ns =>
    BudgetStore.finish_request (w_io n) (w_reading n) id ns (l_sequence l) (l_quota_subject_id l) success
      (Some (ow_backend_capability owned)))).

(** [finish_request] *)
Definition finish_request l (success : bool) : py OwnerBudgetAdapter unit :=
  owned ← require l;
  _ ← raise_when (negb (bool_decide (ow_state owned = LeaseRunning))) (pilot "conflict");
  then_revoke l (try_finish l success owned).

(** [close] *)
Definition close_adapter : py OwnerBudgetAdapter unit :=
  _ ← modify (fun a => set_owned [] (set_ad_closed a));
  wait (fun _ => on_backend (fun _ => modify close_store)).

(** ** Grants *)

(** [OwnerExecutionGrant]; its budget is this adapter. *)
Record OwnerExecutionGrant := mk_Grant {
  g_lease : RequestLease T;
  allowed_tools : list string;
  max_tool_calls : Z;
  max_model_calls : Z;
}.

(** [OwnerExecutionGrant.__post_init__] *)
Definition check_grant (g : OwnerExecutionGrant) : py OwnerBudgetAdapter unit :=
  mine ← owns (g_lease g);
  _ ← raise_when (negb mine) (pilot "forbidden");
  _ ← raise_when (negb (forallb (fun t => bool_decide (t ∈ OWNER_TOOLS)) (allowed_tools g))) (pilot "invalid_request");
  raise_when (negb ((1 <=? max_tool_calls g) && (max_tool_calls g <=? 4))%Z ||
              negb ((1 <=? max_model_calls g) && (max_model_calls g <=? 8))%Z) (pilot "invalid_request").

(** [OwnerMeteredBinding] *)
Record OwnerMeteredBinding := mk_Binding {
  ob_grant : OwnerExecutionGrant;
  ob_provider : string;
  ob_model : string;
  ob_config_id : string;
}.

(** [OwnerMeteredBinding.__post_init__] *)
Definition check_binding (b : OwnerMeteredBinding) : py OwnerBudgetAdapter unit :=
  _ ← check_grant (ob_grant b);
  _ ← raise_when (negb (bool_decide (ob_provider b ∈ ["openai"; "echo"]%string))) (pilot "invalid_request");
  _ ← lift (identifier (ob_model b));
  lift (identifier (ob_config_id b)).
End Budget.

Arguments Owned : clear implicits.
Arguments OwnerBudgetAdapter : clear implicits.
Arguments OwnerExecutionGrant : clear implicits.
Arguments OwnerMeteredBinding : clear implicits.
