(* ===== verification/OwnerBudgetLife.v ===== *)
(** * What the owner's budget guarantees

    Runs of [OwnerBudget]: every operation acts on the owner store and on the
    quota ledger only through their own operations, so that their invariants
    carry over, and every model or tool call it grants is counted in both. *)
From S2P Require Import Prelude PyStr PyDict PyJson Sha256 Assessment.
From S2P Require Import BudgetStore.
From S2P Require Import AdmissionModels AdmissionStore AdmissionLife OwnerBudget.
Import AdmissionModels AdmissionStore.

Section Life.
Context {T : Type} `{Clock T} (time_time : nat -> T) (uuid_hex : nat -> string) (iso : T -> string).
Context (model_dump : ExecutionAssessment -> json) (model_validate : json -> result ExecutionAssessment).
Context (w_sql : nat -> sql_outcome) (w_io : nat -> bool) (w_reading : nat -> option T).
Context (w_token w_lease_token : nat -> string) (w_others : nat -> list outside) (w_cancelled : nat -> bool).
Implicit Types (l : RequestLease T) (a : OwnerBudgetAdapter T) (r q : Request T).

Abbreviation wait := (wait time_time uuid_hex iso model_dump model_validate w_others w_cancelled).
Abbreviation owns := (owns time_time).
Abbreviation require := (require time_time).
Abbreviation current := (current time_time uuid_hex iso model_dump model_validate w_sql w_others w_cancelled).
Abbreviation active := (active time_time uuid_hex iso model_dump model_validate w_sql w_others w_cancelled).
Abbreviation outside_exec := (outside_exec time_time uuid_hex iso model_dump model_validate).
Abbreviation store_run := (store_run time_time uuid_hex iso model_dump model_validate).

(** ** Runs of the adapter *)

Inductive budget_op :=
| BInitialize
| BReserve (p : OwnerPrincipal) (rid tid : string)
| BMark l
| BModel l (limit : Z)
| BTool l (tool : string) (limit : Z)
| BFinish l (success : bool)
| BOwns l
| BRevoke l
| BClose
| BOutside (o : outside).

(** What was handed out: a lease, a model call (with the ledger's clock), a tool call. *)
Inductive grant :=
| Leased l
| ModelCall l (reading : option T)
| ToolCall l.

Definition grant_lease (g : grant) : RequestLease T :=
  match g with Leased l | ModelCall l _ | ToolCall l => l end.

Definition reserve_request := (reserve_request time_time uuid_hex iso model_dump model_validate w_sql w_io w_reading
  w_token w_lease_token w_others w_cancelled).
Definition mark_running := (mark_running time_time uuid_hex iso model_dump model_validate w_sql w_io w_reading
  w_others w_cancelled).
Definition reserve_model_call := (reserve_model_call time_time uuid_hex iso model_dump model_validate w_sql w_io w_reading
  w_others w_cancelled).
Definition reserve_tool_call := (reserve_tool_call time_time uuid_hex iso model_dump model_validate w_sql
  w_others w_cancelled).
Definition finish_request := (finish_request time_time uuid_hex iso model_dump model_validate w_sql w_io w_reading
  w_others w_cancelled).
Definition initialize_adapter := (initialize_adapter time_time uuid_hex iso model_dump model_validate w_io w_others w_cancelled).
Definition close_adapter := (close_adapter time_time uuid_hex iso model_dump model_validate w_others w_cancelled).

Definition budget_exec (st : OwnerBudgetAdapter T * list grant) (op : budget_op) : OwnerBudgetAdapter T * list grant :=
  let '(a, log) := st in
  match op with
  | BInitialize => ((initialize_adapter a).2, log)
  | BReserve p rid tid =>
      match reserve_request p rid tid a with (Ok l, a') => (a', Leased l :: log) | (_, a') => (a', log) end
  | BMark l => ((mark_running l a).2, log)
  | BModel l limit =>
      match reserve_model_call l limit a with
      | (Ok true, a') => (a', ModelCall l (w_reading (S (S (ad_awaits a)))) :: log)
      | (_, a') => (a', log)
      end
  | BTool l name limit =>
      match reserve_tool_call l name limit a with (Ok true, a') => (a', ToolCall l :: log) | (_, a') => (a', log) end
  | BFinish l success => ((finish_request l success a).2, log)
  | BOwns l => ((owns l a).2, log)
  | BRevoke l => ((revoke l a).2, log)
  | BClose => ((close_adapter a).2, log)
  | BOutside o => (outside_exec a o, log)
  end.

Definition budget_run (ops : list budget_op) (st : OwnerBudgetAdapter T * list grant) : OwnerBudgetAdapter T * list grant :=
  foldl budget_exec st ops.

(** ** Through the parts' own operations *)

Abbreviation quotas a := (foldl (fun st op => quota_exec (BudgetStore.limits (ad_backend a)) (ad_namespace a) op st)).

(** The store moved by [ops], the ledger by [qops]. *)
Record moved (ops : list store_op) (qops : list (quota_op T)) a a' : Prop := {
  mv_store : ad_store a' = store_run ops (ad_store a);
  mv_ledger : ledger (ad_backend a') = (quotas a (ledger (ad_backend a), []) qops).1;
  mv_limits : BudgetStore.limits (ad_backend a') = BudgetStore.limits (ad_backend a);
  mv_namespace : ad_namespace a' = ad_namespace a;
}.

Lemma quotas_log lim bot qops (led : Ledger T) log :
  foldl (fun st op => quota_exec lim bot op st) (led, log) qops =
  ((foldl (fun st op => quota_exec lim bot op st) (led, []) qops).1,
   (foldl (fun st op => quota_exec lim bot op st) (led, []) qops).2 ++ log).
Proof.
  revert led log. induction qops as [|op qops IH]; intros led log; [done|]. cbn [foldl].
  rewrite (quota_exec_log _ _ _ _ log). destruct (quota_exec lim bot op (led, [])) as [led' log']. cbn [fst snd].
  rewrite (IH led' (log' ++ log)), (IH led' log'). cbn [fst snd]. by rewrite app_assoc.
Qed.

Lemma moved_refl a : moved [] [] a a.
Proof. by split. Qed.

Lemma moved_trans ops qops ops' qops' a a' a'' :
  moved ops qops a a' -> moved ops' qops' a' a'' -> moved (ops ++ ops') (qops ++ qops') a a''.
Proof.
  intros [Hs Hl Hli Hn] [Hs' Hl' Hli' Hn']. split; [| |congruence|congruence].
  - by rewrite Hs', Hs; unfold store_run; rewrite foldl_app.
  - rewrite Hl', Hl, Hli, Hn, foldl_app. set (st := foldl _ _ qops). destruct st as [led log]. cbn [fst].
    by rewrite (quotas_log _ _ _ _ log).
Qed.

Definition moves a a' : Prop := exists ops qops, moved ops qops a a'.

#[export] Instance moves_preorder : PreOrder moves.
Proof.
  split; [intros a; by exists [], []; apply moved_refl|].
  intros a a' a'' (ops & qops & Hm) (ops' & qops' & Hm'). eexists _, _. by eapply moved_trans.
Qed.

(** Whatever does not touch the two parts *)
Lemma moves_aside a a' :
  ad_store a' = ad_store a -> ad_backend a' = ad_backend a -> ad_namespace a' = ad_namespace a -> moves a a'.
Proof. intros Hs Hb Hn. exists [], []. split; [done| | |done]; by rewrite Hb. Qed.

Lemma moves_store a s' op :
  s' = store_exec time_time uuid_hex iso model_dump model_validate (ad_store a) op -> moves a (OwnerBudget.set_store s' a).
Proof. intros ->. exists [op], []. by split. Qed.

Lemma moves_revoke o a : moves a (revoke_object o a).
Proof. unfold revoke_object. destruct (List.find _ _); by apply moves_aside. Qed.

Lemma moves_outside a o : moves a (outside_exec a o).
Proof. destruct o; [by eapply moves_store|by apply moves_revoke|by apply moves_aside]. Qed.

Lemma moves_outsides os a : moves a (foldl outside_exec a os).
Proof. revert a. induction os as [|o os IH]; intros a; [done|]. cbn. etransitivity; [apply moves_outside|apply IH]. Qed.
(** ** The ledger's operations *)

Definition ledgers (lim : BudgetLimits) (ns : string) (qops : list (quota_op T)) (led : Ledger T) : Ledger T :=
  (foldl (fun st op => quota_exec lim ns op st) (led, []) qops).1.

(** The ledger moved by its own transactions. *)
Definition backed {A} (m : string -> py (BetaBudgetStore T) A) : Prop := forall ns b,
  (exists qops, ledger (m ns b).2 = ledgers (BudgetStore.limits b) ns qops (ledger b)) /\
  BudgetStore.limits (m ns b).2 = BudgetStore.limits b.

Lemma backed_reserve io rd tok upd user : backed (fun ns => BudgetStore.reserve_request (T:=T) io rd tok id ns upd user).
Proof.
  intros ns b. unfold BudgetStore.reserve_request. unfold_py.
  destruct (validate_key ns upd user) as [[]|e]; [|split; [by exists []|done]].
  destruct (BudgetStore.closed b) eqn:Hc; [split; [by exists []|done]|]. unfold to_thread, id.
  split; [exists [ReserveRequest io rd upd user]|]; unfold ledgers; cbn [foldl quota_exec];
    destruct (reserve_request_sync _ _ _ _ _ _ _) as [[r|e] led']; cbn; rewrite ?Hc; cbn;
    repeat case_match; simplify_eq; done.
Qed.

Lemma backed_running io rd upd user cap : backed (fun ns => BudgetStore.mark_running (T:=T) io rd id ns upd user cap).
Proof.
  intros ns b. unfold BudgetStore.mark_running. unfold_py.
  destruct (validate_key ns upd user) as [[]|e]; [|split; [by exists []|done]].
  destruct (negb _); [split; [by exists []|done]|]. unfold to_thread, id.
  split; [exists [MarkRunning io rd upd user]|]; unfold ledgers; cbn [foldl quota_exec fst];
    by destruct (mark_running_sync _ _ _ _ _ _) as [[r|e] led'].
Qed.

Lemma backed_finish io rd upd user ok cap :
  backed (fun ns => BudgetStore.finish_request (T:=T) io rd id ns upd user ok cap).
Proof.
  intros ns b. unfold BudgetStore.finish_request. unfold_py.
  destruct (validate_key ns upd user) as [[]|e]; [|split; [by exists []|done]].
  destruct (negb _); [split; [by exists []|done]|]. unfold to_thread, id.
  split; [exists [FinishRequest io rd upd user ok]|]; unfold ledgers; cbn [foldl quota_exec fst];
    by destruct (finish_request_sync _ _ _ _ _ _ _) as [[r|e] led'].
Qed.

(** A model call, and what the ledger logs when it is granted. *)
Lemma model_call_ledger io rd ns upd user cap (b : BetaBudgetStore T) :
  (exists qops, ledger (BudgetStore.reserve_model_call io rd id ns upd user cap b).2 =
     ledgers (BudgetStore.limits b) ns qops (ledger b) /\
   ((BudgetStore.reserve_model_call io rd id ns upd user cap b).1 = Ok true ->
    (foldl (fun st op => quota_exec (BudgetStore.limits b) ns op st) (ledger b, []) qops).2 = logged rd (Called upd user) [])) /\
  BudgetStore.limits (BudgetStore.reserve_model_call io rd id ns upd user cap b).2 = BudgetStore.limits b.
Proof.
  unfold BudgetStore.reserve_model_call. unfold_py.
  destruct (validate_key ns upd user) as [[]|e]; [|split; [by exists []|done]].
  destruct (negb _); [split; [by exists []|done]|]. unfold to_thread, id.
  split; [exists [ReserveModelCall io rd upd user]|]; unfold ledgers; cbn [foldl quota_exec];
    destruct (reserve_model_call_sync _ _ _ _ _ _ _) as [[[]|e] led']; done.
Qed.

Lemma backed_model io rd upd user cap : backed (fun ns => BudgetStore.reserve_model_call (T:=T) io rd id ns upd user cap).
Proof.
  intros ns b. destruct (model_call_ledger io rd ns upd user cap b) as [(qops & Hl & _) Hli].
  split; [by exists qops|done].
Qed.

Lemma backed_close : backed (fun _ => modify (close_store (T:=T))).
Proof. intros ns b. split; [by exists []|done]. Qed.

(** ** Every operation keeps a frame *)

(** A relation the adapter's operations stay within: it holds of what touches
    neither part, of the store's own operations (the adapter publishes nothing),
    of the ledger's transactions and of what the others do. *)
Class Framed (R : relation (OwnerBudgetAdapter T)) : Prop := {
  fr_preorder :: PreOrder R;
  fr_aside a a' : ad_store a' = ad_store a -> ad_backend a' = ad_backend a -> ad_namespace a' = ad_namespace a -> R a a';
  fr_store a op : is_commit op = false ->
    R a (OwnerBudget.set_store (store_exec time_time uuid_hex iso model_dump model_validate (ad_store a) op) a);
  fr_backend a b' : (exists qops, ledger b' = ledgers (BudgetStore.limits (ad_backend a)) (ad_namespace a) qops (ledger (ad_backend a))) ->
    BudgetStore.limits b' = BudgetStore.limits (ad_backend a) -> R a (set_backend b' a);
  fr_outside n o a : o ∈ w_others n -> R a (outside_exec a o);
}.

#[export] Instance moves_framed : Framed moves.
Proof.
  split; [apply _|apply moves_aside| | |by intros; apply moves_outside].
  - intros a op _. by eapply moves_store.
  - intros a b' [qops Hl] Hli. exists [], qops. by split.
Qed.

Lemma frame_outsides (R : relation (OwnerBudgetAdapter T)) `{!Framed R} n os a : (forall o, o ∈ os -> o ∈ w_others n) -> R a (foldl outside_exec a os).
Proof.
  revert a. induction os as [|o os IH]; intros a Hos; [reflexivity|]. cbn. etransitivity.
  - apply (fr_outside n o). apply Hos. by left.
  - apply IH. intros o' Ho. apply Hos. by right.
Qed.

Lemma frame_revoke (R : relation (OwnerBudgetAdapter T)) `{!Framed R} o a : R a (revoke_object o a).
Proof. unfold revoke_object. destruct (List.find _ _); by apply fr_aside. Qed.

Lemma keep_wait {A} (R : relation (OwnerBudgetAdapter T)) `{!Framed R} a0 (m : nat -> py (OwnerBudgetAdapter T) A) : (forall n, preserves (R a0) (m n)) -> preserves (R a0) (wait m).
Proof.
  intros Hm a Ha. specialize (Hm (ad_awaits a) a Ha). unfold wp, OwnerBudget.wait in *.
  destruct (m (ad_awaits a) a) as [r a1].
  assert ((R a0) (foldl outside_exec (next_await a1) (w_others (ad_awaits a)))) as Hout.
  { etransitivity; [|by apply (frame_outsides R (ad_awaits a))]. etransitivity; [|by apply (fr_aside a1)]. by destruct r. }
  destruct (w_cancelled _), r; exact Hout.
Qed.

Lemma keep_store {A} (R : relation (OwnerBudgetAdapter T)) `{!Framed R} a0 (m : py (OwnerPilotStore T) A) :
  (forall s, exists op, is_commit op = false /\ (m s).2 = store_exec time_time uuid_hex iso model_dump model_validate s op) ->
  preserves (R a0) (on_store m).
Proof.
  intros Hm a Ha. destruct (Hm (ad_store a)) as (op & Hc & Hop). unfold wp, on_store. destruct (m (ad_store a)) as [r s'].
  cbn in Hop. assert (R a0 (OwnerBudget.set_store s' a)) as Hs by (etransitivity; [exact Ha|subst s'; by apply fr_store]).
  by destruct r.
Qed.

Lemma keep_backend {A} (R : relation (OwnerBudgetAdapter T)) `{!Framed R} a0 (m : string -> py (BetaBudgetStore T) A) : backed m -> preserves (R a0) (on_backend m).
Proof.
  intros Hm a Ha. destruct (Hm (ad_namespace a) (ad_backend a)) as [[qops Hl] Hli].
  unfold wp, on_backend. destruct (m _ (ad_backend a)) as [r b'].
  assert ((R a0) (set_backend b' a)) as Hb by (etransitivity; [exact Ha|apply fr_backend; [by exists qops|done]]).
  by destruct r.
Qed.

Lemma keep_revoke (R : relation (OwnerBudgetAdapter T)) `{!Framed R} a0 l : preserves (R a0) (revoke l).
Proof. intros a Ha. unfold wp, revoke, modify. etransitivity; [exact Ha|apply (frame_revoke R)]. Qed.

Lemma keep_then_revoke {A} (R : relation (OwnerBudgetAdapter T)) `{!Framed R} a0 l (m : py (OwnerBudgetAdapter T) A) : preserves (R a0) m -> preserves (R a0) (then_revoke l m).
Proof.
  intros Hm a Ha. specialize (Hm a Ha). unfold wp, then_revoke in *.
  destruct (m a) as [[x|e] a1]; (etransitivity; [exact Hm|apply (frame_revoke R)]).
Qed.

Lemma keep_modify (R : relation (OwnerBudgetAdapter T)) `{!Framed R} a0 (f : OwnerBudgetAdapter T -> OwnerBudgetAdapter T) :
  (forall a, ad_store (f a) = ad_store a) -> (forall a, ad_backend (f a) = ad_backend a) ->
  (forall a, ad_namespace (f a) = ad_namespace a) -> preserves (R a0) (modify f).
Proof. intros ? ? ? a Ha. unfold wp, modify. etransitivity; [exact Ha|by apply fr_aside]. Qed.

Lemma get_task_state sql p tid (s : OwnerPilotStore T) : (get_task sql p tid s).2 = s.
Proof.
  assert (forall d, d = db s -> AdmissionStore.set_db d s = s) as Hset by (intros d ->; by destruct s).
  unfold get_task. rewrite bind_lift. destruct (check_principal p); [|done]. rewrite bind_lift.
  destruct (check_id tid); [|done]. unfold run. rewrite bind_gets, bind_raise_when. destruct (negb _); [done|].
  assert (forall A (m : py (OwnerPilotStore T) A), (m s).2 = s -> (transaction sql false false m s).2 = s) as Htx.
  { intros A m Hm. unfold transaction. destruct (m s) as [[x|e] s1]; cbn in Hm; subst s1; destruct sql; cbn; auto. }
  apply Htx. rewrite bind_gets. destruct (List.find _ _); [|done]. unfold thread. rewrite bind_run, bind_lift.
  destruct (check_id _); [|done]. rewrite bind_gets. by destruct (find_thread _ _ _).
Qed.

Lemma keep_get (R : relation (OwnerBudgetAdapter T)) `{!Framed R} a0 sql p tid : preserves (R a0) (on_store (get_task sql p tid)).
Proof.
  intros a Ha. unfold wp, on_store. pose proof (get_task_state sql p tid (ad_store a)) as Hs.
  destruct (get_task _ _ _ _) as [r s']. cbn in Hs. subst s'.
  assert ((R a0) (OwnerBudget.set_store (ad_store a) a)) as Hi by (etransitivity; [exact Ha|by apply fr_aside]).
  by destruct r.
Qed.

Ltac walk :=
  repeat lazymatch goal with
  | |- preserves _ (mbind _ _) => apply preserves_bind; [|intros ?]
  | |- preserves (?R _) (OwnerBudget.wait _ _ _ _ _ _ _ _) => apply (keep_wait R); intros ?
  | |- preserves _ (lift _) => apply preserves_lift
  | |- preserves _ (raise_when _ _) => apply preserves_lift
  | |- preserves _ (raise _) => apply preserves_raise
  | |- preserves _ (gets _) => apply preserves_gets
  | |- preserves _ get => apply (preserves_gets _ id)
  | |- preserves _ (mret _) => apply preserves_ret
  | |- preserves _ (catch _ _) => apply preserves_catch; [|intros ?]
  | |- preserves _ (or_revoke _ _) => unfold or_revoke
  | |- preserves (?R _) (then_revoke _ _) => apply (keep_then_revoke R)
  | |- preserves (?R _) (revoke _) => apply (keep_revoke R)
  | |- preserves (?R _) (on_store (get_task _ _ _)) => apply (keep_get R)
  | |- preserves (?R _) (on_store (now _)) => apply (keep_store R); intros ?; by exists OpClock
  | |- preserves (?R _) (on_store (claim _ _ _ _ _)) => apply (keep_store R); intros ?; by eexists (OpClaim _ _ _ _)
  | |- preserves (?R _) (on_store (transition _ _ _ _ _ _ _)) => apply (keep_store R); intros ?; by eexists (OpTransition _ _ _ _ _ _)
  | |- preserves (?R _) (on_store (reserve_attempt _ _ _ _ _)) => apply (keep_store R); intros ?; by eexists (OpReserve _ _ _ _)
  | |- preserves (?R _) (on_backend _) =>
      apply (keep_backend R); first [apply backed_reserve|apply backed_running|apply backed_finish|apply backed_model|apply backed_close]
  | |- preserves _ (match ?x with _ => _ end) => destruct x
  | |- preserves (?R _) (modify _) => apply (keep_modify R); intros ?; try reflexivity
  | |- preserves _ ?m =>
      progress unfold OwnerBudget.owns, OwnerBudget.require, OwnerBudget.current, OwnerBudget.active,
        try_model_call, try_tool_call, try_finish, OwnerBudget.initialize_adapter, OwnerBudget.close_adapter, initialize_adapter, close_adapter
  end.

Lemma keep_owns (R : relation (OwnerBudgetAdapter T)) `{!Framed R} a0 l : preserves (R a0) (owns l).
Proof. walk. Qed.

Lemma keep_grant (R : relation (OwnerBudgetAdapter T)) `{!Framed R} a0 g : preserves (R a0) (check_grant time_time g).
Proof. unfold check_grant. walk. Qed.

Lemma keep_require (R : relation (OwnerBudgetAdapter T)) `{!Framed R} a0 l : preserves (R a0) (require l).
Proof. walk. Qed.

Lemma keep_current (R : relation (OwnerBudgetAdapter T)) `{!Framed R} a0 l st : preserves (R a0) (current l st).
Proof. walk. Qed.

Lemma keep_active (R : relation (OwnerBudgetAdapter T)) `{!Framed R} a0 l : preserves (R a0) (active l).
Proof. walk. Qed.

Lemma set_running_aside l a :
  ad_store (set_running l a) = ad_store a /\ ad_backend (set_running l a) = ad_backend a /\
  ad_namespace (set_running l a) = ad_namespace a.
Proof. unfold set_running. by destruct (dget _ _). Qed.

Lemma keep_reserve (R : relation (OwnerBudgetAdapter T)) `{!Framed R} a0 p rid tid : preserves (R a0) (reserve_request p rid tid).
Proof. unfold reserve_request, OwnerBudget.reserve_request. walk. Qed.

Lemma keep_mark (R : relation (OwnerBudgetAdapter T)) `{!Framed R} a0 l : preserves (R a0) (mark_running l).
Proof. unfold mark_running, OwnerBudget.mark_running. walk; apply set_running_aside. Qed.

Lemma keep_model (R : relation (OwnerBudgetAdapter T)) `{!Framed R} a0 l limit : preserves (R a0) (reserve_model_call l limit).
Proof. unfold reserve_model_call, OwnerBudget.reserve_model_call. walk. Qed.

Lemma keep_tool (R : relation (OwnerBudgetAdapter T)) `{!Framed R} a0 l name limit : preserves (R a0) (reserve_tool_call l name limit).
Proof. unfold reserve_tool_call, OwnerBudget.reserve_tool_call. walk. Qed.

Lemma keep_finish (R : relation (OwnerBudgetAdapter T)) `{!Framed R} a0 l ok : preserves (R a0) (finish_request l ok).
Proof. unfold finish_request, OwnerBudget.finish_request. walk. Qed.

Lemma keep_initialize (R : relation (OwnerBudgetAdapter T)) `{!Framed R} a0 : preserves (R a0) initialize_adapter.
Proof. walk. Qed.

Lemma keep_close (R : relation (OwnerBudgetAdapter T)) `{!Framed R} a0 : preserves (R a0) close_adapter.
Proof. walk. Qed.

(** ** What a call that returns went through *)

Lemma catch_ok {S A} (m : py S A) h s x s' :
  (forall e s1, h e s1 <> (Ok x, s')) -> catch m h s = (Ok x, s') -> m s = (Ok x, s').
Proof. unfold catch. destruct (m s) as [[y|e] s1]; [done|]. intros Hh Hc. by apply Hh in Hc. Qed.

Lemma or_revoke_ok {A} l (m : py (OwnerBudgetAdapter T) A) a x a' : or_revoke l m a = (Ok x, a') -> m a = (Ok x, a').
Proof. by apply catch_ok. Qed.

Lemma outside_awaits os a : ad_awaits (foldl outside_exec a os) = ad_awaits a.
Proof.
  revert a. induction os as [|o os IH]; intros a; [done|]. cbn. rewrite IH. destruct o; try done.
  cbn. unfold revoke_object. by destruct (List.find _ _).
Qed.

Lemma wait_ok {A} (m : nat -> py (OwnerBudgetAdapter T) A) a x a' :
  wait m a = (Ok x, a') ->
  exists a1, m (ad_awaits a) a = (Ok x, a1) /\ moves a1 a' /\ ad_awaits a' = S (ad_awaits a1).
Proof.
  unfold OwnerBudget.wait. destruct (m (ad_awaits a) a) as [r a1]. destruct (w_cancelled _); [done|].
  destruct r as [y|e]; [|done]. intros [= -> <-]. exists a1. split; [done|]. split.
  - etransitivity; [by apply (moves_aside a1 (next_await a1))|apply moves_outsides].
  - by rewrite outside_awaits.
Qed.

Lemma on_store_ok {A} (m : py (OwnerPilotStore T) A) a x a' :
  on_store m a = (Ok x, a') -> exists s, m (ad_store a) = (Ok x, s) /\ a' = OwnerBudget.set_store s a.
Proof. unfold on_store. destruct (m _) as [r s]. intros [= -> <-]. by exists s. Qed.

Lemma on_backend_ok {A} (m : string -> py (BetaBudgetStore T) A) a x a' :
  on_backend m a = (Ok x, a') -> exists b, m (ad_namespace a) (ad_backend a) = (Ok x, b) /\ a' = set_backend b a.
Proof. unfold on_backend. destruct (m _ _) as [r b]. intros [= -> <-]. by exists b. Qed.

Lemma went {A} (m : py (OwnerBudgetAdapter T) A) a x a' :
  (forall a0, preserves (moves a0) m) -> m a = (Ok x, a') -> moves a a'.
Proof. intros Hm Hr. pose proof (Hm a a (reflexivity a)) as Hp. unfold wp in Hp. by rewrite Hr in Hp. Qed.

Lemma owns_awaits l a b a' : owns l a = (Ok b, a') -> ad_awaits a' = ad_awaits a.
Proof.
  unfold OwnerBudget.owns, get. intros Ho. rewrite bind_run in Ho. cbn beta iota in Ho.
  repeat (case_match; try (by injection Ho as _ <-)).
Qed.

Lemma require_awaits l a o a' : require l a = (Ok o, a') -> ad_awaits a' = ad_awaits a.
Proof.
  unfold OwnerBudget.require. intros Hr. py_step Hr b a1 Hb. apply owns_awaits in Hb. py_step Hr u a2 Hu.
  unfold get in Hr. rewrite bind_run in Hr. cbn beta iota in Hr. case_match; [by injection Hr as _ <-|done].
Qed.

Lemma current_awaits l st a r a' : current l st a = (Ok r, a') -> ad_awaits a' = S (ad_awaits a).
Proof.
  unfold OwnerBudget.current. intros Hc. py_step Hc o a1 Ho. apply require_awaits in Ho.
  py_step Hc rec a2 Hw. apply wait_ok in Hw as (a3 & Hg & _ & Hn). apply on_store_ok in Hg as (s & _ & ->).
  py_step Hc o' a4 Ho'. apply require_awaits in Ho'. cbn in Hn.
  case_match; [py_step Hc u a5 Hu; done|]. injection Hc as _ <-. congruence.
Qed.

Lemma active_awaits l a a' : active l a = (Ok true, a') -> ad_awaits a' = S (ad_awaits a).
Proof.
  unfold OwnerBudget.active. intros Hc. py_step Hc o a1 Ho. apply owns_awaits in Ho.
  unfold get in Hc. rewrite bind_run in Hc. cbn beta iota in Hc. case_match; [done|].
  py_step Hc still a2 Hs. destruct still; [|done]. apply owns_awaits in Hc. apply catch_ok in Hs.
  - py_step Hs r a3 Hr. apply current_awaits in Hr. injection Hs as <-. congruence.
  - intros e s1. unfold raise, mret, py_ret. destruct e as [| | | | | | | |code c u|]; try done. destruct (String.eqb code _), (String.eqb code _); done.
Qed.

(** One attempt of a turn counted in the store. *)
Definition counted (k : AttemptKind) (seq : Z) a a' : Prop :=
  moves a a' /\ exists i r q, requests (db (ad_store a)) !! i = Some r /\ sequence r = seq /\
    requests (db (ad_store a')) = <[i := q]> (requests (db (ad_store a))) /\ is_turn r = true /\
    attempts k q = (attempts k r + 1)%Z /\ same_request r q /\ forall k', (attempts k' r <= attempts k' q)%Z.

Lemma reserve_attempt_ok sql seq k limit (s s' : OwnerPilotStore T) :
  numbered (db s) -> reserve_attempt time_time sql seq k limit s = (Ok true, s') ->
  exists i r u, requests (db s) !! i = Some r /\ sequence r = seq /\ is_turn r = true /\
    requests (db s') = <[i := count_attempt k u r]> (requests (db s)).
Proof.
  intros Hn. unfold reserve_attempt. intros Hrun. py_step Hrun u0 s0 H0.
  apply run_cases in Hrun as [(e & [=] & _)|(x & [= <-] & Hrun)].
  py_step Hrun row s1 H1. apply turn_ok in H1 as (-> & Hin & Hseq & Hturn). py_step Hrun over s1 H2.
  destruct over; [done|]. assert (db s1 = db s) as H2'.
  { destruct (_ || _); [by injection H2|]. by apply lapsed_ok in H2. }
  py_step Hrun v s2 H3. apply now_ok in H3. rewrite H2' in H3. py_step Hrun u s3 H4.
  py_step Hrun u1 s4 H5. apply event_ok in H5 as [H5 _]. injection Hrun as <-.
  apply list_elem_of_lookup_1 in Hin as [i Hi]. apply update_request_ok in H4 as [Hr _].
  rewrite H3, (numbered_update _ _ _ _ _ Hn Hi Hseq) in Hr. exists i, row, v. by rewrite H5.
Qed.

Lemma wait_counted sql k l limit a a' :
  numbered (db (ad_store a)) ->
  wait (fun n => on_store (reserve_attempt time_time (sql n) (l_sequence l) k limit)) a = (Ok true, a') ->
  exists a1, counted k (l_sequence l) a a1 /\ moves a1 a' /\ ad_awaits a' = S (ad_awaits a).
Proof.
  intros Hn (a1 & Hr & Hm & Haw)%wait_ok. apply on_store_ok in Hr as (s & Hr & ->).
  exists (OwnerBudget.set_store s a). split; [|done]. split.
  { eapply (moves_store a s (OpReserve (sql (ad_awaits a)) (l_sequence l) k limit)). cbn. by rewrite Hr. }
  apply reserve_attempt_ok in Hr as (i & r & u & Hi & Hseq & Ht & Hreq); [|done].
  exists i, r, (count_attempt k u r). split_and!; try done; destruct k; try done; try by repeat split.
  all: intros []; cbn; lia.
Qed.
(** A model call granted by the ledger. *)
Definition called (reading : option T) l a a' : Prop :=
  exists qops, moved [] qops a a' /\
    (quotas a (ledger (ad_backend a), []) qops).2 = logged reading (Called (l_sequence l) (l_quota_subject_id l)) [].

Lemma wait_called l cap a a' :
  wait (fun n => on_backend (fun ns =>
    BudgetStore.reserve_model_call (w_io n) (w_reading n) id ns (l_sequence l) (l_quota_subject_id l) cap)) a = (Ok true, a') ->
  exists a1, called (w_reading (ad_awaits a)) l a a1 /\ moves a1 a'.
Proof.
  intros (a1 & Hr & Hm & _)%wait_ok. exists a1. split; [|done]. apply on_backend_ok in Hr as (b & Hr & ->).
  destruct (model_call_ledger (w_io (ad_awaits a)) (w_reading (ad_awaits a)) (ad_namespace a) (l_sequence l)
              (l_quota_subject_id l) cap (ad_backend a)) as [(qops & Hl & Hlog) Hli].
  rewrite Hr in Hl, Hlog, Hli. exists qops. split; [by split|by apply Hlog].
Qed.

(** A granted model call was counted in the store, then in the ledger. *)
Lemma model_call_ok l limit a a' :
  store_ok (ad_store a) -> reserve_model_call l limit a = (Ok true, a') ->
  exists a1 a2 a3 a4, moves a a1 /\ counted model_attempt (l_sequence l) a1 a2 /\ moves a2 a3 /\
    called (w_reading (S (S (ad_awaits a)))) l a3 a4 /\ moves a4 a'.
Proof.
  unfold reserve_model_call, OwnerBudget.reserve_model_call. intros Hok Hrun. apply or_revoke_ok in Hrun.
  unfold try_model_call in Hrun.
  py_step Hrun ok b1 H1. destruct ok; [|done]. pose proof (active_awaits _ _ _ H1) as Haw.
  apply went in H1; [|intros; apply (keep_active moves)]. cbn [negb] in Hrun.
  py_step Hrun o b2 H2. pose proof (require_awaits _ _ _ _ H2) as Haw2. apply went in H2; [|intros; apply (keep_require moves)].
  py_step Hrun c b3 H3. destruct c; [|done]. cbn [negb] in Hrun.
  assert (moves a b2) as Hmv by by etransitivity. assert (store_ok (ad_store b2)) as Hok2.
  { destruct Hmv as (ops & qops & Hmv). rewrite (mv_store _ _ _ _ Hmv). by apply run_ok. }
  apply wait_counted in H3 as (c2 & Hc & Hm3 & Haw3); [|apply Hok2].
  py_step Hrun mine b4 H4. destruct mine; [|done]. cbn [negb] in Hrun. pose proof (owns_awaits _ _ _ _ H4) as Haw4.
  apply went in H4; [|intros; apply (keep_owns moves)]. py_step Hrun r b5 H5. destruct r; [|done].
  apply wait_called in H5 as (c4 & Hcall & Hm5). apply went in Hrun; [|intros; apply (keep_active moves)].
  exists b2, c2, b4, c4. split_and!; [done|done|by etransitivity| |by etransitivity].
  by replace (S (S (ad_awaits a))) with (ad_awaits b4) by congruence.
Qed.

(** A granted tool call was counted in the store. *)
Lemma tool_call_ok l name limit a a' :
  store_ok (ad_store a) -> reserve_tool_call l name limit a = (Ok true, a') ->
  exists a1 a2, moves a a1 /\ counted tool_attempt (l_sequence l) a1 a2 /\ moves a2 a'.
Proof.
  unfold reserve_tool_call, OwnerBudget.reserve_tool_call. intros Hok Hrun. destruct (negb _); [done|].
  apply or_revoke_ok in Hrun. unfold try_tool_call in Hrun. py_step Hrun ok b1 H1. destruct ok; [|done].
  apply went in H1; [|intros; apply (keep_active moves)]. cbn [negb] in Hrun. py_step Hrun c b2 H2. destruct c; [|done].
  assert (store_ok (ad_store b1)) as Hok1.
  { destruct H1 as (ops & qops & Hmv). rewrite (mv_store _ _ _ _ Hmv). by apply run_ok. }
  apply wait_counted in H2 as (c2 & Hc & Hm & _); [|apply Hok1]. apply went in Hrun; [|intros; apply (keep_active moves)].
  exists b1, c2. split_and!; [done|done|by etransitivity].
Qed.

(** The turn with this sequence number. *)
Definition turn_row (seq : Z) a : Prop :=
  exists i r, requests (db (ad_store a)) !! i = Some r /\ sequence r = seq /\ is_turn r = true.

(** A lease's turn was claimed. *)
Lemma reserve_request_ok p rid tid a l a' :
  store_ok (ad_store a) -> reserve_request p rid tid a = (Ok l, a') ->
  exists a1, moves a a1 /\ moves a1 a' /\ l_sequence l ∈ fresh_turns (ad_store a) /\
    l_sequence l ∉ fresh_turns (ad_store a1) /\ turn_row (l_sequence l) a.
Proof.
  unfold reserve_request, OwnerBudget.reserve_request. intros Hok Hrun. rewrite bind_gets in Hrun.
  py_step Hrun u0 b0 H1. py_step Hrun c b1 H2.
  apply wait_ok in H2 as (a1 & H2 & Hm & _). apply on_store_ok in H2 as (s & H2 & ->). destruct c as [rec quota].
  assert (moves a (OwnerBudget.set_store s a)) as Hclaim.
  { eapply (moves_store a s (OpClaim (w_sql (ad_awaits a)) p rid tid)). cbn. by rewrite H2. }
  apply claim_ok in H2 as (Hf & Hf1 & [i Hi]%list_elem_of_lookup_1 & _ & _ & Ht). exists (OwnerBudget.set_store s a).
  assert (l_sequence l = sequence (record rec) /\ moves b1 a') as [-> Hrest].
  2: { split; [done|]. split; [by etransitivity|]. split; [done|]. split; [cbn; rewrite Hf1; set_solver|].
       by exists i, (record rec). }
  split; [|revert Hrun; apply went; intros a2; walk]. cbn [fst snd] in Hrun.
  py_step Hrun res b2 H3. py_step Hrun u1 b3 H4. py_step Hrun u2 b3 H5. py_step Hrun cap b4 H6.
  unfold get in Hrun. rewrite bind_run in Hrun. cbn beta iota in Hrun.
  py_step Hrun u3 b5 H7. py_step Hrun u4 b6 H8. py_step Hrun r b8 H10. by injection Hrun as <- _.
Qed.

(** ** Invariants of a run *)

Lemma moves_ok a a' : moves a a' -> store_ok (ad_store a) -> store_ok (ad_store a').
Proof. intros (ops & qops & Hm) Hok. rewrite (mv_store _ _ _ _ Hm). by apply run_ok. Qed.

Lemma moves_row a a' i r :
  moves a a' -> store_ok (ad_store a) -> requests (db (ad_store a)) !! i = Some r ->
  exists q, requests (db (ad_store a')) !! i = Some q /\ aged r q.
Proof. intros (ops & qops & Hm) Hok Hi. rewrite (mv_store _ _ _ _ Hm). by apply run_row. Qed.

Lemma same_turn (r q : Request T) : same_request r q -> is_turn q = is_turn r.
Proof. intros (_ & _ & _ & Ho & _). unfold is_turn. by rewrite Ho. Qed.

Lemma turn_row_moves seq a a' : moves a a' -> store_ok (ad_store a) -> turn_row seq a -> turn_row seq a'.
Proof.
  intros Hm Hok (i & r & Hi & <- & Ht). destruct (moves_row _ _ _ _ Hm Hok Hi) as (q & Hq & Hag).
  pose proof (ag_same _ _ Hag) as Hs. exists i, q. split; [done|]. rewrite (same_turn _ _ Hs). split; [apply Hs|done].
Qed.

Definition granted (k : AttemptKind) (seq : Z) (g : grant) : bool :=
  match k, g with
  | model_attempt, ModelCall l _ => (l_sequence l =? seq)%Z
  | tool_attempt, ToolCall l => (l_sequence l =? seq)%Z
  | _, _ => false
  end.

(** Every grant is of a known turn, whose attempts count it. *)
Record counts_ok (log : list grant) a : Prop := {
  co_known : forall g, g ∈ log -> turn_row (l_sequence (grant_lease g)) a;
  co_count : forall i r k, requests (db (ad_store a)) !! i = Some r -> is_turn r = true ->
    (Z.of_nat (count (granted k (sequence r)) log) <= attempts k r)%Z;
}.

Lemma granted_lease k seq g : granted k seq g = true -> l_sequence (grant_lease g) = seq.
Proof. destruct k, g; cbn; try done; intros ?%Z.eqb_eq; done. Qed.

Lemma attempts_nonneg (s : OwnerPilotStore T) i r k :
  store_ok s -> requests (db s) !! i = Some r -> is_turn r = true -> (0 <= attempts k r <= attempt_ceiling k)%Z.
Proof.
  intros Hok Hi Ht. destruct (ok_rows _ Hok _ _ Hi) as [[Hm Htl]|[Hn _]]; [|by rewrite Ht in Hn]. destruct k; cbn; lia.
Qed.

Lemma counts_moves log a a' : moves a a' -> store_ok (ad_store a) -> counts_ok log a -> counts_ok log a'.
Proof.
  intros Hm Hok [Hk Hc]. split; [intros g Hg; by eapply turn_row_moves; eauto|].
  intros i q k Hq Ht. pose proof (moves_ok _ _ Hm Hok) as Hok'.
  destruct (requests (db (ad_store a)) !! i) as [r|] eqn:Hi.
  - destruct (moves_row _ _ _ _ Hm Hok Hi) as (q' & Hq' & Hag). assert (q' = q) as -> by congruence.
    pose proof (ag_same _ _ Hag) as Hs. rewrite (same_turn _ _ Hs) in Ht. rewrite (same_sequence _ _ Hs).
    specialize (Hc i r k Hi Ht). destruct (ag_counts _ _ Hag). destruct k; cbn in *; lia.
  - rewrite count_zero; [destruct (attempts_nonneg _ _ _ k Hok' Hq Ht); lia|].
    intros g Hg. apply not_true_iff_false. intros Hgr%granted_lease.
    destruct (Hk g Hg) as (j & x & Hj & Hjs & _). rewrite Hgr in Hjs. apply lookup_ge_None in Hi.
    rewrite (ok_numbered _ Hok' _ _ Hq), (ok_numbered _ Hok _ _ Hj) in Hjs. apply lookup_lt_Some in Hj. lia.
Qed.

Lemma counts_counted log a a' k g :
  counted k (l_sequence (grant_lease g)) a a' -> (forall k' seq, granted k' seq g = true -> k' = k) ->
  store_ok (ad_store a) -> counts_ok log a -> counts_ok (g :: log) a'.
Proof.
  intros [Hm (i & r & q & Hi & Hseq & Hreq & Ht & Hq & Hs & Hge)] Hkind Hok Hc.
  pose proof (moves_ok _ _ Hm Hok) as Hok'. pose proof (counts_moves _ _ _ Hm Hok Hc) as Hc'. split.
  - intros g' [->|Hg]%elem_of_cons; [|by apply (co_known _ _ Hc')]. eapply turn_row_moves; [done|done|]. by exists i, r.
  - intros j x k' Hx Htx. rewrite count_cons.
    destruct (granted k' (sequence x) g) eqn:Hgr; [|by apply (co_count _ _ Hc' j)].
    pose proof (Hkind _ _ Hgr) as ->. apply granted_lease in Hgr.
    assert (j = i) as ->.
    { rewrite Hreq in Hx. rewrite Hgr in Hseq. destruct (decide (j = i)) as [|Hne]; [done|].
      rewrite list_lookup_insert_ne in Hx by done.
      rewrite (ok_numbered _ Hok _ _ Hi), (ok_numbered _ Hok _ _ Hx) in Hseq. lia. }
    rewrite Hreq, list_lookup_insert_eq in Hx by by eapply lookup_lt_Some. injection Hx as <-.
    rewrite (same_sequence _ _ Hs). destruct Hc as [_ Hc]. specialize (Hc i r k Hi Ht). lia.
Qed.

(** What the ledger's log shows of a grant. *)
Definition ledger_event (g : grant) : option (BudgetStore.event T) :=
  match g with ModelCall l (Some t) => Some (Called (l_sequence l) (l_quota_subject_id l) t) | _ => None end.

(** The ledger comes from its own transactions, and they logged every call. *)
Definition quota_ok (lim : BudgetLimits) (ns : string) (log : list grant) a : Prop :=
  BudgetStore.limits (ad_backend a) = lim /\ ad_namespace a = ns /\
  exists qops, ledger (ad_backend a) = (quota_run lim ns qops).1 /\
    omap ledger_event log `sublist_of` (quota_run lim ns qops).2.

Lemma quota_moved lim ns log g qops a a' :
  moved [] qops a a' ->
  match ledger_event g with
  | Some e => (quotas a (ledger (ad_backend a), []) qops).2 = [e]
  | None => True
  end -> quota_ok lim ns log a -> quota_ok lim ns (g :: log) a'.
Proof.
  intros [_ Hl Hli Hn] Hg (<- & <- & qops0 & Hl0 & Hsub). split; [done|]. split; [done|].
  exists (qops0 ++ qops). unfold quota_run in *. rewrite foldl_app.
  destruct (foldl _ (empty_ledger, []) qops0) as [led log0]. cbn [fst snd] in Hl0, Hsub. subst led.
  rewrite (quotas_log _ _ _ _ log0). split; [done|]. cbn [omap list_omap snd].
  destruct (ledger_event g) as [e|]; [rewrite Hg; by apply sublist_skip|by apply sublist_inserts_l].
Qed.

Lemma quota_moves lim ns log a a' : moves a a' -> quota_ok lim ns log a -> quota_ok lim ns log a'.
Proof.
  intros (ops & qops & [_ Hl Hli Hn]) (<- & <- & qops0 & Hl0 & Hsub). split; [done|]. split; [done|].
  exists (qops0 ++ qops). unfold quota_run in *. rewrite foldl_app.
  destruct (foldl _ (empty_ledger, []) qops0) as [led log0]. cbn [fst snd] in Hl0, Hsub. subst led.
  rewrite (quotas_log _ _ _ _ log0). split; [done|]. by apply sublist_inserts_l.
Qed.

Definition leased (g : grant) : option Z := match g with Leased l => Some (l_sequence l) | _ => None end.

(** A turn is leased once, and is not fresh after. *)
Record leases_ok (log : list grant) a : Prop := {
  le_once : NoDup (omap leased log);
  le_spent : forall seq, seq ∈ omap leased log -> seq ∉ fresh_turns (ad_store a) /\ turn_row seq a;
}.

Lemma leases_moves log a a' : moves a a' -> store_ok (ad_store a) -> leases_ok log a -> leases_ok log a'.
Proof.
  intros Hm Hok [Ho Hs]. split; [done|]. intros seq Hseq. destruct (Hs seq Hseq) as [Hf Ht].
  split; [|by eapply turn_row_moves]. destruct Hm as (ops & qops & Hm). rewrite (mv_store _ _ _ _ Hm).
  intros [Hin|Hge]%run_fresh; [done| |done]. destruct Ht as (i & r & Hi & <- & _).
  rewrite (ok_numbered _ Hok _ _ Hi) in Hge. apply lookup_lt_Some in Hi. unfold next_id in Hge. lia.
Qed.

Record budget_ok (lim : BudgetLimits) (ns : string) (st : OwnerBudgetAdapter T * list grant) : Prop := {
  bk_store : store_ok (ad_store st.1);
  bk_counts : counts_ok st.2 st.1;
  bk_quota : quota_ok lim ns st.2 st.1;
  bk_leases : leases_ok st.2 st.1;
}.

Lemma budget_moves lim ns log a a' : moves a a' -> budget_ok lim ns (a, log) -> budget_ok lim ns (a', log).
Proof.
  intros Hm [Hs Hc Hq Hl]. cbn in *. split; cbn;
    [by eapply moves_ok|by eapply counts_moves|by eapply quota_moves|by eapply leases_moves].
Qed.

Lemma budget_exec_ok lim ns st op : budget_ok lim ns st -> budget_ok lim ns (budget_exec st op).
Proof.
  destruct st as [a log]. intros Hok.
  assert (forall {A} (m : py (OwnerBudgetAdapter T) A), (forall a0, preserves (moves a0) m) ->
            budget_ok lim ns ((m a).2, log)) as Hmove.
  { intros A m Hm. eapply budget_moves; [|exact Hok]. apply (preserves_run (moves a)); [apply Hm|reflexivity]. }
  destruct op as [|p rid tid|l|l limit|l name limit|l ok|l|l| |o]; cbn [budget_exec];
    try (apply Hmove; intros a0; first
           [apply (keep_initialize moves)|apply (keep_mark moves)|apply (keep_finish moves)|apply (keep_owns moves)|apply (keep_revoke moves)|apply (keep_close moves)]).
  - destruct (reserve_request p rid tid a) as [[l|e] a'] eqn:Hr.
    2: { specialize (Hmove _ (reserve_request p rid tid) (fun a0 => keep_reserve moves a0 p rid tid)). by rewrite Hr in Hmove. }
    apply reserve_request_ok in Hr as (a1 & Hm1 & Hm2 & Hf & Hf1 & Ht); [|apply Hok].
    pose proof (budget_moves _ _ _ _ _ Hm1 Hok) as [Hs Hc Hq Hl]. cbn in *.
    apply (budget_moves _ _ _ _ _ Hm2). pose proof (turn_row_moves _ _ _ Hm1 (bk_store _ _ _ Hok) Ht) as Ht1.
    split; cbn; [done| | |].
    + destruct Hc as [Hk Hc]. split; [by intros g [->|Hg]%elem_of_cons; auto|]. intros i r k Hi Htr.
      rewrite count_cons. by destruct k; apply (Hc i).
    + eapply (quota_moved _ _ _ (Leased l) []); [|done|exact Hq]. apply moved_refl.
    + destruct (bk_leases _ _ _ Hok) as [_ Hspent]. destruct Hl as [Ho Hsp]. split.
      * cbn. constructor; [|done]. intros Hin. by destruct (Hspent _ Hin).
      * cbn. intros seq [->|Hin]%elem_of_cons; auto.
  - destruct (reserve_model_call l limit a) as [[[]|e] a'] eqn:Hr.
    2,3: specialize (Hmove _ (reserve_model_call l limit) (fun a0 => keep_model moves a0 l limit)); by rewrite Hr in Hmove.
    apply model_call_ok in Hr as (a1 & a2 & a3 & a4 & Hm1 & Hc1 & Hm2 & Hcall & Hm4); [|apply Hok].
    pose proof (budget_moves _ _ _ _ _ Hm1 Hok) as Hok1.
    pose proof (budget_moves _ _ _ _ _ (proj1 Hc1) Hok1) as Hok2.
    pose proof (budget_moves _ _ _ _ _ Hm2 Hok2) as Hok3. set (g := ModelCall l _).
    assert (counts_ok (g :: log) a2) as Hg2.
    { eapply (counts_counted _ a1 a2 model_attempt g); [done| |apply Hok1|apply Hok1]. by intros [] seq. }
    destruct Hcall as (qops & Hmv & Hlog). assert (moves a3 a4) as Hm3 by by exists [], qops.
    apply (budget_moves _ _ _ _ _ Hm4). pose proof (budget_moves _ _ _ _ _ Hm3 Hok3) as Hok4.
    split; cbn; [apply Hok4| | |].
    + eapply counts_moves; [exact Hm3|apply Hok3|]. by eapply counts_moves; [exact Hm2|apply Hok2|].
    + eapply quota_moved; [exact Hmv| |apply Hok3]. cbn. by destruct (w_reading _).
    + destruct (bk_leases _ _ _ Hok4) as [Ho Hs]. by split.
  - destruct (reserve_tool_call l name limit a) as [[[]|e] a'] eqn:Hr.
    2,3: specialize (Hmove _ (reserve_tool_call l name limit) (fun a0 => keep_tool moves a0 l name limit)); by rewrite Hr in Hmove.
    apply tool_call_ok in Hr as (a1 & a2 & Hm1 & Hc1 & Hm2); [|apply Hok].
    pose proof (budget_moves _ _ _ _ _ Hm1 Hok) as Hok1. pose proof (budget_moves _ _ _ _ _ (proj1 Hc1) Hok1) as Hok2.
    apply (budget_moves _ _ _ _ _ Hm2). split; cbn; [apply Hok2| | |].
    + eapply (counts_counted _ a1 a2 tool_attempt); [done| |apply Hok1|apply Hok1]. by intros [] seq.
    + eapply (quota_moved _ _ _ (ToolCall l) []); [|done|apply Hok2]. apply moved_refl.
    + destruct (bk_leases _ _ _ Hok2) as [Ho Hs]. by split.
  - eapply budget_moves; [apply moves_outside|exact Hok].
Qed.

Lemma budget_run_ok lim ns ops st : budget_ok lim ns st -> budget_ok lim ns (budget_run ops st).
Proof. revert st. induction ops as [|op ops IH]; intros st Hst; [done|]. by apply IH, budget_exec_ok. Qed.

(** An adapter over a fresh ledger and any reachable store. *)
Definition first_adapter (lim : BudgetLimits) (ns : string) (ops : list store_op) : OwnerBudgetAdapter T :=
  mk_Adapter (BudgetStore.mk_Store empty_ledger lim false ∅) (store_run ops new_file) ns [] false 0 0.

Lemma first_adapter_ok lim ns ops : budget_ok lim ns (first_adapter lim ns ops, []).
Proof.
  pose proof (reachable_store_ok time_time uuid_hex iso model_dump model_validate ops) as Hok. split; [done| | |].
  - split; [by intros g ?%elem_of_nil|]. intros i r k Hi Ht. by apply (attempts_nonneg _ _ _ k Hok Hi).
  - split; [done|]. split; [done|]. by exists [].
  - split; [constructor|]. by intros seq ?%elem_of_nil.
Qed.
End Life.
