(* ===== verification/OwnerBudgetSafety.v ===== *)
(** * Leases end, and calls are bounded

    The properties of [OwnerBudget] over all its runs: which calls it grants,
    and that a lease that was revoked, failed or finished grants nothing more. *)
From S2P Require Import Prelude PyStr PyDict PyJson Sha256 Assessment.
From S2P Require Import BudgetStore.
From S2P Require Import AdmissionModels AdmissionStore AdmissionLife AdmissionTheorems OwnerBudget OwnerBudgetLife.
Import AdmissionModels AdmissionStore.

Section Safety.
Context {T : Type} `{Clock T} (time_time : nat -> T) (uuid_hex : nat -> string) (iso : T -> string).
Context (model_dump : ExecutionAssessment -> json) (model_validate : json -> result ExecutionAssessment).
Context (w_sql : nat -> sql_outcome) (w_io : nat -> bool) (w_reading : nat -> option T).
Context (w_token w_lease_token : nat -> string) (w_others : nat -> list outside) (w_cancelled : nat -> bool).
Implicit Types (l : RequestLease T) (a : OwnerBudgetAdapter T).

Abbreviation wait := (wait time_time uuid_hex iso model_dump model_validate w_others w_cancelled).
Abbreviation owns := (owns time_time).
Abbreviation outside_exec := (outside_exec time_time uuid_hex iso model_dump model_validate).
Abbreviation budget_exec := (budget_exec time_time uuid_hex iso model_dump model_validate w_sql w_io w_reading w_token
  w_lease_token w_others w_cancelled).
Abbreviation budget_run := (budget_run time_time uuid_hex iso model_dump model_validate w_sql w_io w_reading w_token
  w_lease_token w_others w_cancelled).
Abbreviation first_adapter := (first_adapter time_time uuid_hex iso model_dump model_validate).
Abbreviation reserve_request := (reserve_request time_time uuid_hex iso model_dump model_validate w_sql w_io w_reading
  w_token w_lease_token w_others w_cancelled).
Abbreviation reserve_model_call := (reserve_model_call time_time uuid_hex iso model_dump model_validate w_sql w_io
  w_reading w_others w_cancelled).
Abbreviation reserve_tool_call := (reserve_tool_call time_time uuid_hex iso model_dump model_validate w_sql
  w_others w_cancelled).

(** ** The table of leases

    A property of the table that survives dropping entries, marking one as
    running and adding one for a new lease survives every operation. *)
Section Table.
Context (I : OwnerBudgetAdapter T -> Prop).
Context (Hdrop : forall a a', ad_owned a' `sublist_of` ad_owned a -> ad_objects a' = ad_objects a -> I a -> I a').
Context (Hrunning : forall l a, I a -> I (set_running l a)).
Context (Hown : forall l cap a, lease_object l = ad_objects a -> I a -> I (own_lease l cap a)).

Lemma table_frame a a' : ad_owned a' = ad_owned a -> ad_objects a' = ad_objects a -> I a -> I a'.
Proof using Hdrop. intros Ho. apply Hdrop. by rewrite Ho. Qed.

Lemma table_revoke o a : I a -> I (revoke_object o a).
Proof using Hdrop.
  intros Ha. unfold revoke_object. destruct (List.find _ _) as [kv|]; [|done].
  apply (Hdrop a); [|done|exact Ha]. cbn. unfold ddel. clear. induction (ad_owned a) as [|x l IH]; cbn; [done|].
  destruct (negb _); by constructor.
Qed.

Lemma table_outside os a : I a -> I (foldl outside_exec a os).
Proof using Hdrop.
  revert a. induction os as [|o os IH]; intros a Ha; [done|]. apply IH. destruct o; cbn.
  - by apply (table_frame a).
  - by apply table_revoke.
  - apply (Hdrop a); [|done|exact Ha]. cbn. apply sublist_nil_l.
Qed.

Lemma table_wait {A} (m : nat -> py (OwnerBudgetAdapter T) A) : (forall n, preserves I (m n)) -> preserves I (wait m).
Proof using Hdrop.
  intros Hm a Ha. specialize (Hm (ad_awaits a) a Ha). unfold wp, OwnerBudget.wait in *.
  destruct (m (ad_awaits a) a) as [r a1].
  assert (I (foldl outside_exec (next_await a1) (w_others (ad_awaits a)))) as Hout.
  { apply table_outside, (table_frame a1); [done|done|]. by destruct r. }
  destruct (w_cancelled _), r; exact Hout.
Qed.

Lemma table_store {A} (m : py (OwnerPilotStore T) A) : preserves I (on_store m).
Proof using Hdrop.
  intros a Ha. unfold wp, on_store. destruct (m _) as [[x|e] s]; by apply (table_frame a).
Qed.

Lemma table_backend {A} (m : string -> py (BetaBudgetStore T) A) : preserves I (on_backend m).
Proof using Hdrop.
  intros a Ha. unfold wp, on_backend. destruct (m _ _) as [[x|e] b]; by apply (table_frame a).
Qed.

Lemma table_then_revoke {A} l (m : py (OwnerBudgetAdapter T) A) : preserves I m -> preserves I (then_revoke l m).
Proof using Hdrop.
  intros Hm a Ha. specialize (Hm a Ha). unfold wp, then_revoke in *.
  destruct (m a) as [[x|e] a1]; by apply table_revoke.
Qed.

Lemma table_new_lease {A} (lease : OwnerBudgetAdapter T -> RequestLease T) cap (f : RequestLease T -> py (OwnerBudgetAdapter T) A) :
  (forall a, lease_object (lease a) = ad_objects a) -> (forall l, preserves I (f l)) ->
  preserves I (a ← get; _ ← lift (check_lease (lease a)); _ ← modify (own_lease (lease a) cap); f (lease a)).
Proof using Hown.
  intros Hl Hf a Ha. unfold wp, get. rewrite bind_run. cbn beta iota. rewrite bind_lift.
  destruct (check_lease _); [|done]. unfold modify. rewrite bind_run. cbn beta iota.
  apply (Hf (lease a)). by apply Hown.
Qed.

Ltac walk :=
  repeat lazymatch goal with
  | |- preserves _ (get ≫= fun a => lift (check_lease _) ≫= _) =>
      apply (table_new_lease (fun a => mk_Lease (ad_objects a) _ _ _ _ _ _ _) _ (fun l => _ ← or_revoke l _; mret l)); [done|intros ?]
  | |- preserves _ (mbind _ _) => apply preserves_bind; [|intros ?]
  | |- preserves _ (OwnerBudget.wait _ _ _ _ _ _ _ _) => apply table_wait; intros ?
  | |- preserves _ (lift _) => apply preserves_lift
  | |- preserves _ (raise_when _ _) => apply preserves_lift
  | |- preserves _ (raise _) => apply preserves_raise
  | |- preserves _ (gets _) => apply preserves_gets
  | |- preserves _ get => apply (preserves_gets _ id)
  | |- preserves _ (mret _) => apply preserves_ret
  | |- preserves _ (catch _ _) => apply preserves_catch; [|intros ?]
  | |- preserves _ (or_revoke _ _) => unfold or_revoke
  | |- preserves _ (then_revoke _ _) => apply table_then_revoke
  | |- preserves _ (revoke _) => apply preserves_modify; intros ?; apply table_revoke
  | |- preserves _ (on_store _) => apply table_store
  | |- preserves _ (on_backend _) => apply table_backend
  | |- preserves _ (modify (set_running _)) => apply preserves_modify, Hrunning
  | |- preserves _ (match ?x with _ => _ end) => destruct x
  | |- preserves _ ?m =>
      progress unfold OwnerBudget.owns, OwnerBudget.require, OwnerBudget.current, OwnerBudget.active,
        try_model_call, try_tool_call, try_finish
  end.

Lemma table_require l : preserves I (OwnerBudget.require time_time l).
Proof using Hdrop. walk. Qed.

Lemma table_try_model l limit : preserves I (try_model_call time_time uuid_hex iso model_dump model_validate w_sql w_io
  w_reading w_others w_cancelled l limit).
Proof using Hdrop. walk. Qed.

Lemma table_try_tool l limit : preserves I (try_tool_call time_time uuid_hex iso model_dump model_validate w_sql
  w_others w_cancelled l limit).
Proof using Hdrop. walk. Qed.

Lemma table_try_finish l ok o : preserves I (try_finish time_time uuid_hex iso model_dump model_validate w_sql w_io
  w_reading w_others w_cancelled l ok o).
Proof using Hdrop. walk. Qed.

Lemma table_reserve p rid tid : preserves I (reserve_request p rid tid).
Proof using Hdrop Hown. unfold OwnerBudgetLife.reserve_request, OwnerBudget.reserve_request. walk. Qed.

Lemma table_exec st op : I st.1 -> I (budget_exec st op).1.
Proof using Hdrop Hown Hrunning.
  destruct st as [a log]. cbn [fst]. intros Ha.
  assert (forall {A} (m : py (OwnerBudgetAdapter T) A), preserves I m -> I (m a).2) as Hk.
  { intros A m Hm. by apply (preserves_run I). }
  destruct op as [|p rid tid|l|l limit|l name limit|l ok|l|l| |o]; cbn [OwnerBudgetLife.budget_exec fst].
  - apply Hk. unfold initialize_adapter, OwnerBudget.initialize_adapter. walk.
  - specialize (Hk _ _ (table_reserve p rid tid)). by destruct (reserve_request p rid tid a) as [[l|e] a'].
  - apply Hk. unfold mark_running, OwnerBudget.mark_running. walk.
  - assert (preserves I (reserve_model_call l limit)) as Hm.
    { unfold OwnerBudgetLife.reserve_model_call, OwnerBudget.reserve_model_call. walk. }
    specialize (Hk _ _ Hm). by destruct (reserve_model_call l limit a) as [[[]|e] a'].
  - assert (preserves I (reserve_tool_call l name limit)) as Hm.
    { unfold OwnerBudgetLife.reserve_tool_call, OwnerBudget.reserve_tool_call. walk. }
    specialize (Hk _ _ Hm). by destruct (reserve_tool_call l name limit a) as [[[]|e] a'].
  - apply Hk. unfold finish_request, OwnerBudget.finish_request. walk.
  - apply Hk. walk.
  - by apply table_revoke.
  - apply Hk. unfold close_adapter, OwnerBudget.close_adapter. apply preserves_bind; [|intros ?; walk].
    apply preserves_modify. intros b Hb. apply (Hdrop b); [|done|exact Hb]. apply sublist_nil_l.
  - apply (table_outside [o] a Ha).
Qed.

Lemma table_run ops st : I st.1 -> I (budget_run ops st).1.
Proof using Hdrop Hown Hrunning.
  revert st. induction ops as [|op ops IH]; intros st Hst; [done|]. by apply IH, table_exec.
Qed.
End Table.

(** ** Ended leases *)

(** Lease objects are made once and owned once. *)
Record table_ok a : Prop := {
  tb_once : NoDup (map (fun kv => ow_lease kv.2) (ad_owned a));
  tb_made : forall kv, kv ∈ ad_owned a -> ow_lease kv.2 < ad_objects a;
}.

(** The object was made and no entry holds it. *)
Definition ended (o : nat) a : Prop := o < ad_objects a /\ forall kv, kv ∈ ad_owned a -> ow_lease kv.2 <> o.

Lemma table_ok_drop a a' :
  ad_owned a' `sublist_of` ad_owned a -> ad_objects a' = ad_objects a -> table_ok a -> table_ok a'.
Proof.
  intros Hs Ho [Hn Hm]. split.
  - eapply sublist_NoDup; [exact Hn|]. by apply (fmap_sublist (fun kv => ow_lease kv.2)).
  - intros kv Hkv. rewrite Ho. apply Hm. by eapply elem_of_sublist.
Qed.

Lemma ended_drop o a a' :
  ad_owned a' `sublist_of` ad_owned a -> ad_objects a' = ad_objects a -> ended o a -> ended o a'.
Proof. intros Hs Ho [Hm He]. split; [by rewrite Ho|]. intros kv Hkv. apply He. by eapply elem_of_sublist. Qed.

(** Replacing a present value or appending a new one. *)
Lemma dset_map {K V B} `{EqDecision K} (f : V -> B) (k : K) v d o :
  dget k d = Some o -> f v = f o -> map (fun kv => f kv.2) (dset k v d) = map (fun kv => f kv.2) d.
Proof.
  intros Hg Hf. induction d as [|[k' v'] d IH]; [done|]. cbn in *.
  destruct (decide (k = k')); [|cbn; by rewrite IH]. cbn. by simplify_eq; rewrite Hf.
Qed.

Lemma elem_of_dset {K V} `{EqDecision K} (k : K) (v : V) d kv : kv ∈ dset k v d -> kv = (k, v) \/ kv ∈ d.
Proof.
  induction d as [|[k' v'] d IH]; cbn; [by intros ->%list_elem_of_singleton; left|].
  destruct (decide (k = k')) as [->|]; rewrite !elem_of_cons; naive_solver.
Qed.

Lemma NoDup_dset_map {K V B} `{EqDecision K} (f : V -> B) (k : K) v d :
  NoDup (map (fun kv => f kv.2) d) -> (forall kv, kv ∈ d -> f kv.2 <> f v) ->
  NoDup (map (fun kv => f kv.2) (dset k v d)).
Proof.
  induction d as [|[k' v'] d IH]; cbn; intros Hn Hv; [apply NoDup_singleton|].
  apply NoDup_cons in Hn as [Hx Hn]. destruct (decide (k = k')); cbn; apply NoDup_cons.
  - split; [|done]. intros ((k1 & v1) & Heq & Hin)%list_elem_of_fmap. apply (Hv (k1, v1)); [by right|done].
  - split; [|apply IH; [done|]; intros kv Hkv; apply Hv; by right].
    intros (kv & Heq & [->|Hin]%elem_of_dset)%list_elem_of_fmap; [by apply (Hv (k', v')); [left|]|].
    apply Hx, list_elem_of_fmap. by exists kv.
Qed.

Lemma table_ok_running l a : table_ok a -> table_ok (set_running l a).
Proof.
  intros [Hn Hm]. unfold set_running. destruct (dget _ _) as [o|] eqn:Hg; [|by split]. split; cbn.
  - by rewrite (dset_map ow_lease _ _ _ o).
  - intros kv [->|Hkv]%elem_of_dset; [|by apply Hm]. cbn. apply (Hm (l_sequence l, o)), (dget_Some_elem _ _ _ Hg).
Qed.

Lemma ended_running o l a : ended o a -> ended o (set_running l a).
Proof.
  intros [Hm He]. unfold set_running. destruct (dget _ _) as [x|] eqn:Hg; [|by split]. split; [done|]. cbn.
  intros kv [->|Hkv]%elem_of_dset; [|by apply He]. cbn. apply (He (l_sequence l, x)), (dget_Some_elem _ _ _ Hg).
Qed.

Lemma table_ok_own l cap a : lease_object l = ad_objects a -> table_ok a -> table_ok (own_lease l cap a).
Proof.
  intros Hl [Hn Hm]. split; cbn.
  - apply (NoDup_dset_map ow_lease); [done|]. intros kv Hkv. cbn. pose proof (Hm _ Hkv). lia.
  - intros kv [->|Hkv]%elem_of_dset; cbn; [lia|]. pose proof (Hm _ Hkv). lia.
Qed.

Lemma ended_own o l cap a : lease_object l = ad_objects a -> ended o a -> ended o (own_lease l cap a).
Proof.
  intros Hl [Hm He]. split; cbn; [lia|]. intros kv [->|Hkv]%elem_of_dset; cbn; [lia|by apply He].
Qed.

#[local] Hint Resolve table_ok_drop ended_drop table_ok_running ended_running table_ok_own ended_own : core.

Lemma revoke_ends o a : table_ok a -> o < ad_objects a -> ended o (revoke_object o a).
Proof.
  intros [Hn Hm] Ho. unfold revoke_object. destruct (List.find _ _) as [[k v]|] eqn:Hf.
  - apply find_some_elem in Hf as [Hin Hv%Nat.eqb_eq]. cbn in Hv. split; [done|]. cbn.
    intros kv [Hkey Hkv]%elem_of_filter_bool Heq. apply negb_true_iff, bool_decide_eq_false in Hkey.
    apply Hkey. apply list_elem_of_lookup_1 in Hin as [i Hi]. apply list_elem_of_lookup_1 in Hkv as [j Hj].
    assert (i = j) as ->; [|by rewrite Hi in Hj; injection Hj as <-].
    eapply (NoDup_lookup _ _ _ o Hn); rewrite list_lookup_fmap; [rewrite Hi|rewrite Hj]; cbn; congruence.
  - split; [done|]. intros kv Hkv Heq. eapply find_none_elem in Hf; [|exact Hkv]. cbn in Hf.
    by apply Nat.eqb_neq in Hf.
Qed.

Lemma or_revoke_ends {A} l (m : py (OwnerBudgetAdapter T) A) a e a' :
  preserves (fun a => table_ok a /\ lease_object l < ad_objects a) m -> table_ok a -> lease_object l < ad_objects a ->
  or_revoke l m a = (Err e, a') -> ended (lease_object l) a'.
Proof.
  intros Hm Hok Ho. specialize (Hm a (conj Hok Ho)). unfold or_revoke, catch, wp in *.
  destruct (m a) as [[x|e1] a1]; [done|]. unfold revoke, modify. rewrite bind_run. cbn.
  unfold raise. intros [= _ <-]. destruct Hm. by apply revoke_ends.
Qed.

Lemma owns_owned l a a' : owns l a = (Ok true, a') -> exists kv, kv ∈ ad_owned a /\ ow_lease kv.2 = lease_object l.
Proof.
  unfold OwnerBudget.owns, get. intros Ho. rewrite bind_run in Ho. cbn beta iota in Ho.
  destruct (_ || _ || _); [done|]. destruct (check_lease l); [|done]. case_bool_decide; [done|].
  destruct (dget _ _) as [o|] eqn:Hg; [|done]. destruct (_ && _) eqn:Hsame; [|done].
  apply andb_true_iff in Hsame as [Hl%Nat.eqb_eq _]. exists (l_sequence l, o). split; [|done].
  by apply dget_Some_elem.
Qed.

Lemma keeps_ended {A} o (m : py (OwnerBudgetAdapter T) A) a x a' :
  preserves (ended o) m -> m a = (Ok x, a') -> ended o a -> ended o a'.
Proof. intros Hm Hr Ha. specialize (Hm a Ha). unfold wp in Hm. by rewrite Hr in Hm. Qed.

Lemma active_owned l a a' b :
  active time_time uuid_hex iso model_dump model_validate w_sql w_others w_cancelled l a = (Ok b, a') ->
  b = true -> exists kv, kv ∈ ad_owned a /\ ow_lease kv.2 = lease_object l.
Proof.
  unfold active. intros Hc ->. py_step Hc o a1 Ho. unfold get in Hc. rewrite bind_run in Hc. cbn beta iota in Hc.
  destruct (negb o || _) eqn:Hno; [done|]. apply orb_false_iff in Hno as [->%negb_false_iff _]. by eapply owns_owned.
Qed.

(** No grant is made with an ended lease. *)
Lemma exec_ended o st op g :
  ended o st.1 -> g ∈ (budget_exec st op).2 -> g ∈ st.2 \/ lease_object (grant_lease g) <> o.
Proof.
  destruct st as [a log]. cbn [fst snd]. intros Ha.
  destruct op as [|p rid tid|l|l limit|l name limit|l ok|l|l| |out]; cbn [OwnerBudgetLife.budget_exec snd]; try by left.
  - destruct (reserve_request p rid tid a) as [[l|e] a'] eqn:Hr; [|by left].
    intros [->|Hg]%elem_of_cons; [right; cbn|by left].
    unfold OwnerBudgetLife.reserve_request, OwnerBudget.reserve_request in Hr. rewrite bind_gets in Hr.
    py_step Hr u0 b0 H1. py_step Hr c b1 H2.
    apply keeps_ended with (o := o) in H2; [|apply table_wait; [apply ended_drop|intros n; apply table_store, ended_drop]|done].
    py_step Hr res b2 H3.
    apply keeps_ended with (o := o) in H3; [|apply table_wait; [apply ended_drop|intros n; apply table_backend, ended_drop]|done].
    py_step Hr u1 b3 H4. py_step Hr u2 b3 H5. py_step Hr cap b4 H6.
    assert (b4 = b2) as ->.
    { destruct (BudgetStore.state res) as [[]| |], (capability res); try done. py_step H6 u b5 H7. by injection H6 as _ <-. }
    unfold get in Hr. rewrite bind_run in Hr. cbn beta iota in Hr.
    py_step Hr u3 b5 H7. py_step Hr u4 b6 H8. py_step Hr r b7 H9. injection Hr as <- _. cbn.
    destruct H3. lia.
  - destruct (reserve_model_call l limit a) as [[[]|e] a'] eqn:Hr; try by left.
    intros [->|Hg]%elem_of_cons; [right; cbn|by left]. apply or_revoke_ok in Hr. unfold try_model_call, try_tool_call in Hr. py_step Hr ok a1 Hok.
    destruct ok; [|done]. destruct (active_owned _ _ _ _ Hok eq_refl) as (kv & Hkv & <-). by apply Ha.
  - destruct (reserve_tool_call l name limit a) as [[[]|e] a'] eqn:Hr; try by left.
    intros [->|Hg]%elem_of_cons; [right; cbn|by left].
    unfold OwnerBudgetLife.reserve_tool_call, OwnerBudget.reserve_tool_call in Hr. destruct (negb _); [done|].
    apply or_revoke_ok in Hr. unfold try_model_call, try_tool_call in Hr. py_step Hr ok a1 Hok.
    destruct ok; [|done]. destruct (active_owned _ _ _ _ Hok eq_refl) as (kv & Hkv & <-). by apply Ha.
Qed.

Lemma run_ended o ops st g :
  ended o st.1 -> g ∈ (budget_run ops st).2 -> g ∈ st.2 \/ lease_object (grant_lease g) <> o.
Proof.
  revert st. induction ops as [|op ops IH]; intros st Ha Hg; [by left|].
  apply IH in Hg; [|by apply (table_exec (ended o)); eauto]. destruct Hg as [Hg|]; [by eapply exec_ended|by right].
Qed.

(** Operations after which the lease is ended *)
Definition ends a l (op : budget_op) : Prop :=
  match op with
  | BRevoke l' => lease_object l' = lease_object l
  | BClose => True
  | BModel l' limit => lease_object l' = lease_object l /\ exists e, (reserve_model_call l' limit a).1 = Err e
  | BTool l' name limit => lease_object l' = lease_object l /\ exists e, (reserve_tool_call l' name limit a).1 = Err e
  | BFinish l' ok => lease_object l' = lease_object l /\
      (finish_request time_time uuid_hex iso model_dump model_validate w_sql w_io w_reading w_others w_cancelled l' ok a).1 = Ok tt
  | _ => False
  end.

Definition made_ok (n : nat) a : Prop := table_ok a /\ n < ad_objects a.

Lemma made_ok_drop n a a' :
  ad_owned a' `sublist_of` ad_owned a -> ad_objects a' = ad_objects a -> made_ok n a -> made_ok n a'.
Proof. intros Hs Ho [Ht Hn]. split; [by eapply table_ok_drop|by rewrite Ho]. Qed.

Lemma set_running_objects l a : ad_objects (set_running l a) = ad_objects a.
Proof. unfold set_running. by destruct (dget _ _). Qed.

Lemma made_ok_running n l a : made_ok n a -> made_ok n (set_running l a).
Proof. intros [Ht Hn]. split; [by apply table_ok_running|by rewrite set_running_objects]. Qed.

Lemma first_table_ok lim ns ops : table_ok (first_adapter lim ns ops).
Proof. split; [constructor|by intros kv ?%elem_of_nil]. Qed.

Lemma ends_ended a log l op :
  table_ok a -> lease_object l < ad_objects a -> ends a l op -> ended (lease_object l) (budget_exec (a, log) op).1.
Proof.
  intros Ht Ho. pose proof (conj Ht Ho : made_ok (lease_object l) a) as Hmade.
  destruct op as [| | |l' limit|l' name limit|l' ok| |l'| |]; cbn [ends OwnerBudgetLife.budget_exec fst]; try done.
  - intros [Hl [e He]]. rewrite <- Hl in *. destruct (reserve_model_call l' limit a) as [[b|e'] a'] eqn:Hr; [done|].
    eapply or_revoke_ends; [|exact Ht|exact Ho|exact Hr]. apply (table_try_model (made_ok _)), made_ok_drop.
  - intros [Hl [e He]]. rewrite <- Hl in *. destruct (reserve_tool_call l' name limit a) as [[b|e'] a'] eqn:Hr; [done|].
    unfold OwnerBudgetLife.reserve_tool_call, OwnerBudget.reserve_tool_call in Hr. destruct (negb _); [done|].
    eapply or_revoke_ends; [|exact Ht|exact Ho|exact Hr]. apply (table_try_tool (made_ok _)), made_ok_drop.
  - unfold finish_request. intros [Hl He]. rewrite <- Hl in *. destruct (OwnerBudget.finish_request _ _ _ _ _ _ _ _ _ _ l' ok a) as [r a'] eqn:Hr.
    cbn in He. subst r. cbn [snd]. unfold OwnerBudget.finish_request in Hr. py_step Hr o a1 H1. py_step Hr u a2 H2.
    pose proof (table_require (made_ok (lease_object l')) (made_ok_drop _) l' a Hmade) as Hm1.
    unfold wp in Hm1. rewrite H1 in Hm1.
    pose proof (table_try_finish (made_ok (lease_object l')) (made_ok_drop _) l' ok o a1 Hm1) as Hm2.
    unfold then_revoke, wp in *. destruct (try_finish _ _ _ _ _ _ _ _ _ _ l' ok o a1) as [r a3].
    injection Hr as -> <-. apply revoke_ends; apply Hm2.
  - intros Hl. rewrite <- Hl in *. by apply revoke_ends.
  - intros _. unfold close_adapter, OwnerBudget.close_adapter. unfold modify at 1. rewrite bind_run. cbn beta iota.
    apply (preserves_run (ended (lease_object l))).
    + apply table_wait; [apply ended_drop|]. intros n. apply table_backend, ended_drop.
    + split; [done|]. by intros kv ?%elem_of_nil.
Qed.

(** ** The properties *)

(** C12: Bounded calls: in every run of the adapter over a reachable owner
    store, whatever SQLite, the clocks, cancellations and the other coroutines
    do, a turn is granted at most 8 model calls and 4 tool calls, and in every
    hour or day window the model calls granted to a quota subject stay within
    the ledger's limits. *)
Theorem owner_calls_bounded `{!ClockLaws T} lim ns ops0 ops seq user t :
  let log := (budget_run ops (first_adapter lim ns ops0, [])).2 in
  count (granted model_attempt seq) log <= 8 /\ count (granted tool_attempt seq) log <= 4 /\
  count (in_window is_call user HOUR_SECONDS t) (omap ledger_event log) <= Z.to_nat (model_calls_per_hour lim) /\
  count (in_window is_call user DAY_SECONDS t) (omap ledger_event log) <= Z.to_nat (model_calls_per_day lim).
Proof.
  cbn zeta. pose proof (first_adapter_ok time_time uuid_hex iso model_dump model_validate lim ns ops0) as Hok.
  apply (budget_run_ok time_time uuid_hex iso model_dump model_validate w_sql w_io w_reading w_token w_lease_token
           w_others w_cancelled lim ns ops) in Hok. destruct (budget_run ops _) as [a log]. cbn [snd].
  destruct Hok as [Hs [Hk Hc] (_ & _ & qops & _ & Hsub) _]. cbn [fst snd] in *.
  assert (forall k, (Z.of_nat (count (granted k seq) log) <= attempt_ceiling k)%Z) as Hb.
  { intros k. destruct (count (granted k seq) log) as [|n] eqn:Hn; [by destruct k|].
    assert (exists g, g ∈ log /\ granted k seq g = true) as (g & Hg & Hgr%granted_lease).
    { unfold count in Hn. destruct (List.filter _ log) as [|g l] eqn:Hf; [done|]. exists g.
      assert (g ∈ List.filter (granted k seq) log) as []%elem_of_filter_bool by (rewrite Hf; by left). done. }
    destruct (Hk g Hg) as (i & r & Hi & Hseq & Ht). rewrite <- Hn. rewrite Hgr in Hseq. rewrite <- Hseq.
    pose proof (Hc i r k Hi Ht). pose proof (attempts_nonneg _ _ _ k Hs Hi Ht). lia. }
  pose proof (Hb model_attempt) as Hb1. pose proof (Hb tool_attempt) as Hb2. cbn in Hb1, Hb2.
  destruct (quota_good_run lim ns qops) as [_ ? ? ? ? ? _].
  assert (forall p, count p (omap ledger_event log) <= count p (quota_run lim ns qops).2) as Hle.
  { intros p. by apply count_sublist. }
  split; [lia|]. split; [lia|]. split; (etransitivity; [apply Hle|done]).
Qed.

(** One lease a turn: over all runs a turn is leased at most once. *)
Theorem one_lease_per_turn lim ns ops0 ops :
  NoDup (omap leased (budget_run ops (first_adapter lim ns ops0, [])).2).
Proof.
  pose proof (first_adapter_ok time_time uuid_hex iso model_dump model_validate lim ns ops0) as Hok.
  apply (budget_run_ok time_time uuid_hex iso model_dump model_validate w_sql w_io w_reading w_token w_lease_token
           w_others w_cancelled lim ns ops) in Hok. apply (bk_leases _ _ _ Hok).
Qed.

(** C13: Fail closed: once a lease was revoked, its adapter closed, its request
    finished, or a model or tool call with it raised anything, cancellation
    included, no later operation of anyone grants anything with it. *)
Theorem ended_lease_grants_nothing lim ns ops0 ops l op ops' g :
  let a := (budget_run ops (first_adapter lim ns ops0, [])).1 in
  lease_object l < ad_objects a -> ends a l op ->
  g ∈ (budget_run ops' ((budget_exec (a, []) op).1, [])).2 -> lease_object (grant_lease g) <> lease_object l.
Proof.
  cbn zeta. set (a := (budget_run ops _).1). intros Ho Hends Hg.
  assert (table_ok a) as Ht.
  { apply (table_run table_ok); eauto. apply first_table_ok. }
  pose proof (ends_ended a [] l op Ht Ho Hends) as He.
  destruct (run_ended _ ops' ((budget_exec (a, []) op).1, []) g He Hg) as [Hin|]; [by apply elem_of_nil in Hin|done].
Qed.
End Safety.

(** ** Witnesses *)

Definition demo_token (n : nat) : string := "0123456789abcdef0123456789abcdef".
Definition demo_sql (n : nat) : sql_outcome := SqlFine.
Definition demo_io (n : nat) : bool := true.
Definition demo_reading (n : nat) : option Z := Some (1000 + Z.of_nat n)%Z.
Definition demo_others (n : nat) : list outside := [].
Definition demo_cancelled (n : nat) : bool := false.

Abbreviation demo_run := (budget_run demo_time demo_uuid demo_iso demo_dump demo_validate demo_sql demo_io demo_reading
  demo_token demo_token demo_others demo_cancelled).
Abbreviation demo_exec := (budget_exec demo_time demo_uuid demo_iso demo_dump demo_validate demo_sql demo_io demo_reading
  demo_token demo_token demo_others demo_cancelled).
Abbreviation demo_adapter := (first_adapter demo_time demo_uuid demo_iso demo_dump demo_validate small_limits "owner-pilot:v1" demo_admit).

Definition demo_lease : RequestLease Z := mk_Lease 0 demo_owner "r2" "c0" 2 1 (demo_token 0) 1122%Z.

(** A turn with one model call of one that the small limits allow, and two tool calls *)
Definition demo_calls : list (budget_op (T:=Z)) :=
  [BReserve demo_owner "r2" "c0"; BMark demo_lease; BModel demo_lease 8; BModel demo_lease 8;
   BTool demo_lease "calculator" 4; BTool demo_lease "shell" 4; BTool demo_lease "utc_time" 4]%string.

Example demo_grants :
  (demo_run demo_calls (demo_adapter, [])).2 =
  [ToolCall demo_lease; ToolCall demo_lease; ModelCall demo_lease (Some 1009%Z); Leased demo_lease].
Proof. vm_compute. reflexivity. Qed.

Example owner_calls_bounded_witness :
  let log := (demo_run demo_calls (demo_adapter, [])).2 in
  count (granted model_attempt 2) log = 1 /\ count (granted model_attempt 2) log <= 8.
Proof.
  split; [vm_compute; reflexivity|].
  exact (proj1 (owner_calls_bounded demo_time demo_uuid demo_iso demo_dump demo_validate demo_sql demo_io demo_reading
    demo_token demo_token demo_others demo_cancelled small_limits "owner-pilot:v1" demo_admit demo_calls 2 1 1009%Z)).
Defined.

(** Finishing the turn ends its lease, which granted before. *)
Example ended_lease_grants_nothing_witness :
  let a := (demo_run demo_calls (demo_adapter, [])).1 in
  (demo_run demo_calls ((demo_exec (a, []) (BFinish demo_lease true)).1, [])).2 = [] /\
  forall g, g ∈ (demo_run demo_calls ((demo_exec (a, []) (BFinish demo_lease true)).1, [])).2 ->
    lease_object (grant_lease g) <> lease_object demo_lease.
Proof.
  split; [vm_compute; reflexivity|]. intros g.
  apply (ended_lease_grants_nothing demo_time demo_uuid demo_iso demo_dump demo_validate demo_sql demo_io demo_reading
    demo_token demo_token demo_others demo_cancelled small_limits "owner-pilot:v1" demo_admit demo_calls demo_lease
    (BFinish demo_lease true) demo_calls g).
  - apply Nat.ltb_lt. vm_compute. reflexivity.
  - split; vm_compute; reflexivity.
Defined.
