(* ===== verification/Tools.v ===== *)
(** * Tools: specifications, argument schemas, policies

    [src/agency/tools/base.py], the schema validation of
    [src/agency/tools/registry.py] and [OwnerToolPolicy] of
    [src/agency/admission/policy.py].

    A schema is the tree of the keywords the validator reads; keywords of a
    wrong JSON type, which no tool of the repository has, are excluded by its
    type.  Texts of reasons and violations are replaced by their constructors. *)
From S2P Require Import Prelude PyStr PyDict PyJson.

(** ** Specifications *)

Inductive ToolRisk := READ_ONLY | MUTATES_STATE | EXECUTES_CODE.

#[export] Instance ToolRisk_eq_dec : EqDecision ToolRisk.
Proof. solve_decision. Defined.

(** A schema's ["type"]: one name or a list of alternatives *)
Inductive type_spec := OneType (t : string) | AnyType (ts : list string).

(** The keywords read: [type], [properties] (a non-dict subschema is [None]),
    [required], [additionalProperties is False], [items]. *)
Inductive schema := Schema {
  sc_type : option type_spec;
  sc_properties : list (string * option schema);
  sc_required : list string;
  sc_closed : bool;
  sc_items : option schema;
}.

(** [ToolSpec]; [None] stands for the empty [parameters]. *)
Record ToolSpec := mk_ToolSpec {
  sp_name : string;
  sp_description : string;
  sp_parameters : option schema;
  sp_risk : ToolRisk;
}.

(** [_NAME_RE]: [^[a-z][a-z0-9_]*$] by [re.match] *)
Definition name_head (c : ascii) : bool := in_range 97 122 c.
Definition name_tail (c : ascii) : bool := name_head c || is_digit c || bool_decide (c = "_"%char).
Definition is_tool_name (s : string) : bool := match_dollar (head_tail name_head name_tail) s.

(** [ToolSpec.__post_init__] *)
Definition new_spec (name description : string) (parameters : option schema) (risk : ToolRisk) : result ToolSpec :=
  _ ← raise_if (String.eqb name "" || negb (is_tool_name name)) ValueError;
  Ok (mk_ToolSpec name description parameters risk).

(** ** Schema validation *)

Definition TYPE_NAMES : list string := ["string"; "integer"; "number"; "boolean"; "array"; "object"]%string.

(** [_type_matches] *)
Definition type_matches (v : json) (expected : string) : bool :=
  if String.eqb expected "string" then match v with JStr _ => true | _ => false end
  else if String.eqb expected "integer" then match v with JInt _ => true | _ => false end
  else if String.eqb expected "number" then match v with JInt _ | JFloat _ => true | _ => false end
  else if String.eqb expected "boolean" then match v with JBool _ => true | _ => false end
  else if String.eqb expected "array" then match v with JList _ => true | _ => false end
  else if String.eqb expected "object" then match v with JObj _ => true | _ => false end
  else true.

Inductive Violation :=
| BadType (path : list string)
| MissingProperty (path : list string) (key : string)
| UnknownProperty (path : list string) (key : string)
| NotAnObject.

Definition type_error (t : option type_spec) (v : json) : bool :=
  match t with
  | None => false
  | Some (AnyType ts) => negb (existsb (type_matches v) ts)
  | Some (OneType t) => bool_decide (t ∈ TYPE_NAMES) && negb (type_matches v t)
  end.

(** The first violation of a list of checks *)
Definition first_of {A} (f : A -> option Violation) : list A -> option Violation :=
  fix go l := match l with
              | [] => None
              | x :: l' => match f x with Some e => Some e | None => go l' end
              end.

(** The loop over [properties.items()] *)
Definition check_properties (validate : schema -> json -> list string -> option Violation) (d : list (string * json))
    (path : list string) : list (string * option schema) -> option Violation :=
  fix go ps := match ps with
               | [] => None
               | (k, sub) :: ps' =>
                   match dget k d, sub with
                   | Some x, Some sub => match validate sub x (path ++ [k]) with Some e => Some e | None => go ps' end
                   | _, _ => go ps'
                   end
               end.

(** [_validate_value] *)
Fixpoint validate_value (sc : schema) (v : json) (path : list string) {struct sc} : option Violation :=
  match sc with
  | Schema ty properties required closed items =>
      if type_error ty v then Some (BadType path)
      else
        let in_object := match v with
          | JObj d =>
              match List.find (fun k => negb (dmem k d)) required with
              | Some k => Some (MissingProperty path k)
              | None =>
                  match check_properties (fun sub => validate_value sub) d path properties with
                  | Some e => Some e
                  | None =>
                      if closed then
                        match List.find (fun k => negb (dmem k properties)) (dkeys d) with
                        | Some k => Some (UnknownProperty path k)
                        | None => None
                        end
                      else None
                  end
              end
          | _ => None
          end in
        match in_object with
        | Some e => Some e
        | None =>
            match v, items with
            | JList l, Some sub => first_of (fun x => validate_value sub x (path ++ ["[]"%string])) l
            | _, _ => None
            end
        end
  end.

(** [_validate_args] *)
Definition validate_args (spec : ToolSpec) (args : json) : option Violation :=
  match args with
  | JObj _ =>
      match sp_parameters spec with
      | None => None
      | Some sc => validate_value sc args ["args"%string]
      end
  | _ => Some NotAnObject
  end.

(** ** Contexts and decisions *)

(** [BetaPrincipal] *)
Record BetaPrincipal := mk_BetaPrincipal { telegram_user_id : Z; private_chat : bool }.

#[export] Instance BetaPrincipal_eq_dec : EqDecision BetaPrincipal.
Proof. solve_decision. Defined.

(** [BetaPrincipal.__post_init__] *)
Definition new_beta_principal (uid : Z) (private : bool) : result BetaPrincipal :=
  _ ← raise_if (uid <=? 0)%Z ValueError; Ok (mk_BetaPrincipal uid private).

(** An audit handle: the process's durable beta log, or another object. *)
Inductive AuditHandle := BetaAudit | OtherAudit.

#[export] Instance AuditHandle_eq_dec : EqDecision AuditHandle.
Proof. solve_decision. Defined.

(** [ToolContext]; of the privileged handles only their presence is read. *)
Record ToolContext (G : Type) := mk_ToolContext {
  cx_agent_id : string;
  cx_task_id : string;
  cx_memory_store : bool;
  cx_sandbox_manager : bool;
  cx_lattice : bool;
  cx_audit : option AuditHandle;
  cx_beta_principal : option BetaPrincipal;
  cx_owner_grant : option G;
}.
Arguments mk_ToolContext {G}.
Arguments cx_agent_id {G} _.
Arguments cx_task_id {G} _.
Arguments cx_memory_store {G} _.
Arguments cx_sandbox_manager {G} _.
Arguments cx_lattice {G} _.
Arguments cx_audit {G} _.
Arguments cx_beta_principal {G} _.
Arguments cx_owner_grant {G} _.

Inductive Reason :=
| Allowed
| MissingIdentity | GroupScope | MemoryDisabled | WebFetchDisabled | RiskDenied | NotAllowlisted
| QueryRequired | QueryTooLong | ResultsOutOfBounds
| MissingGrant | MixedIdentity | PrivilegedHandles | InvalidGrant | GrantNotLive | TaskMismatch | ToolDenied
| BadArguments.

#[export] Instance Reason_eq_dec : EqDecision Reason.
Proof. solve_decision. Defined.

(** [ToolPolicyDecision] *)
Record ToolPolicyDecision := mk_Decision { allowed : bool; reason : Reason }.

#[export] Instance ToolPolicyDecision_eq_dec : EqDecision ToolPolicyDecision.
Proof. solve_decision. Defined.

Definition deny (r : Reason) : ToolPolicyDecision := mk_Decision false r.
Definition allow : ToolPolicyDecision := mk_Decision true Allowed.

(** ** The beta policy *)

Definition MEMORY_TOOLS : list string := ["memory_query"; "memory_write"]%string.

(** [BetaToolPolicy] *)
Record BetaToolPolicy := mk_BetaToolPolicy {
  bp_allowed : list string;
  max_query_chars : Z;
  max_results : Z;
}.

(** [BetaToolPolicy()] *)
Definition default_beta_policy : BetaToolPolicy := mk_BetaToolPolicy ["web_search"%string] 200 5.

(** A query that is not blank, and its length when stripped *)
Definition query_text (args : list (string * json)) : option string :=
  match dget "query"%string args with
  | Some (JStr q) => if is_blank q then None else Some q
  | _ => None
  end.

Definition results_in (bound : Z) (args : list (string * json)) : bool :=
  match dget "max_results"%string args with
  | None => (1 <=? 5)%Z && (5 <=? bound)%Z
  | Some (JInt n) => (1 <=? n)%Z && (n <=? bound)%Z
  | Some _ => false
  end.

(** [BetaToolPolicy.__call__], on a dict *)
Definition beta_decide {G} (p : BetaToolPolicy) (spec : ToolSpec) (args : list (string * json)) (ctx : ToolContext G)
    : ToolPolicyDecision :=
  match cx_beta_principal ctx with
  | None => deny MissingIdentity
  | Some who =>
      if (telegram_user_id who <=? 0)%Z then deny MissingIdentity
      else if negb (private_chat who) then deny GroupScope
      else if bool_decide (sp_name spec ∈ MEMORY_TOOLS) then deny MemoryDisabled
      else if String.eqb (sp_name spec) "web_fetch" then deny WebFetchDisabled
      else if negb (bool_decide (sp_risk spec = READ_ONLY)) then deny RiskDenied
      else if negb (bool_decide (sp_name spec ∈ bp_allowed p)) then deny NotAllowlisted
      else if String.eqb (sp_name spec) "web_search" then
        match query_text args with
        | None => deny QueryRequired
        | Some q =>
            if (max_query_chars p <? py_len (py_strip q))%Z then deny QueryTooLong
            else if negb (results_in (max_results p) args) then deny ResultsOutOfBounds
            else allow
        end
      else allow
  end.

(** ** The owner policy *)

(** What the tools see of an owner's grant and the adapter that issued it:
    [check] is [OwnerExecutionGrant.__post_init__], [live] is [budget.owns],
    [active] and [reserve] are [budget._active] and [budget.reserve_tool_call]. *)
Class OwnerGate (G W : Type) := {
  og_task : G -> string;
  og_tools : G -> list string;
  og_check : G -> py W unit;
  og_live : G -> py W bool;
  og_active : G -> py W bool;
  og_reserve : G -> string -> py W bool;
}.

(** What an adapter promises its clients: the world moves along [og_moves], in
    which the tool calls reserved for a turn are only ever counted up; a
    reservation counts one more, and a turn has at most [og_ceiling]. *)
Class OwnerGateLaws (G W : Type) `{OwnerGate G W} := {
  og_moves : relation W;
  og_valid : W -> Prop;
  og_turn : G -> Z;
  og_spent : Z -> W -> nat;
  og_ceiling : nat;
  law_preorder :: PreOrder og_moves;
  law_check : forall g w, og_moves w (og_check g w).2;
  law_live : forall g w, og_moves w (og_live g w).2;
  law_active : forall g w, og_moves w (og_active g w).2;
  law_reserve_moves : forall g name w, og_moves w (og_reserve g name w).2;
  law_moves : forall w w', og_moves w w' -> og_valid w -> og_valid w' /\ forall k, og_spent k w <= og_spent k w';
  law_reserve : forall g name w w', og_valid w -> og_reserve g name w = (Ok true, w') ->
    og_spent (og_turn g) w < og_spent (og_turn g) w';
  law_ceiling : forall w k, og_valid w -> og_spent k w <= og_ceiling;
}.

Definition OWNER_ALLOWED : list string := ["calculator"; "utc_time"; "web_search"]%string.
Definition MAX_EXPRESSION_CHARS : Z := 120.
Definition MAX_QUERY_CHARS : Z := 200.

(** The arguments of each tool *)
Definition owner_args (name : string) (args : list (string * json)) : bool :=
  if String.eqb name "calculator" then
    match args with
    | [(k, JStr e)] => String.eqb k "expression" && negb (is_blank e) && (py_len e <=? MAX_EXPRESSION_CHARS)%Z
    | _ => false
    end
  else if String.eqb name "utc_time" then bool_decide (args = [])
  else
    forallb (fun k => bool_decide (k ∈ ["query"; "max_results"]%string)) (dkeys args) &&
    match query_text args with
    | Some q => (py_len (py_strip q) <=? MAX_QUERY_CHARS)%Z && results_in 5 args
    | None => false
    end.

(** [OwnerToolPolicy.__call__] *)
Definition owner_decide {G W} `{OwnerGate G W} (spec : ToolSpec) (args : json) (ctx : ToolContext G)
    : py W ToolPolicyDecision :=
  match cx_owner_grant ctx with
  | None => mret (deny MissingGrant)
  | Some g =>
      if bool_decide (is_Some (cx_beta_principal ctx)) then mret (deny MixedIdentity)
      else if cx_memory_store ctx || cx_sandbox_manager ctx || cx_lattice ctx then mret (deny PrivilegedHandles)
      else
        live ← catch (_ ← og_check g; b ← og_live g; mret (Some b))
                 (fun e => match e with
                           | PilotError _ _ _ | TypeError | ValueError => mret None
                           | CallbackError "AttributeError" => mret None
                           | _ => raise e
                           end);
        match live with
        | None => mret (deny InvalidGrant)
        | Some live =>
            if negb live then mret (deny GrantNotLive)
            else if negb (String.eqb (cx_task_id ctx) (og_task g)) then mret (deny TaskMismatch)
            else if negb (bool_decide (sp_name spec ∈ OWNER_ALLOWED)) || negb (bool_decide (sp_name spec ∈ og_tools g))
            then mret (deny ToolDenied)
            else if negb (bool_decide (sp_risk spec = READ_ONLY)) then mret (deny RiskDenied)
            else match args with
                 | JObj d => mret (if owner_args (sp_name spec) d then allow else deny BadArguments)
                 | _ => mret (deny BadArguments)
                 end
        end
  end.

(** ** What a schema means *)

(** The values of a type name; an unknown name excludes nothing. *)
Inductive has_type : json -> string -> Prop :=
| ht_string s : has_type (JStr s) "string"
| ht_integer z : has_type (JInt z) "integer"
| ht_number_int z : has_type (JInt z) "number"
| ht_number_float r : has_type (JFloat r) "number"
| ht_boolean b : has_type (JBool b) "boolean"
| ht_array l : has_type (JList l) "array"
| ht_object d : has_type (JObj d) "object"
| ht_unknown v t : t ∉ TYPE_NAMES -> has_type v t.

Definition type_ok (t : option type_spec) (v : json) : Prop :=
  match t with
  | None => True
  | Some (OneType t) => has_type v t
  | Some (AnyType ts) => exists t, t ∈ ts /\ has_type v t
  end.

(** The values of a schema *)
Inductive conforms : schema -> json -> Prop :=
| conforms_intro ty properties required closed items v :
    type_ok ty v ->
    (forall d, v = JObj d ->
       (forall k, k ∈ required -> k ∈ dkeys d) /\
       (forall k sub x, (k, Some sub) ∈ properties -> dget k d = Some x -> conforms sub x) /\
       (closed = true -> forall k, k ∈ dkeys d -> k ∈ dkeys properties)) ->
    (forall l sub x, v = JList l -> items = Some sub -> x ∈ l -> conforms sub x) ->
    conforms (Schema ty properties required closed items) v.

Section SchemaInd.
Context (P : schema -> Prop).
Context (Hs : forall ty ps rq cl it, (forall k sub, (k, Some sub) ∈ ps -> P sub) ->
  (forall sub, it = Some sub -> P sub) -> P (Schema ty ps rq cl it)).

Fixpoint schema_ind' (sc : schema) : P sc.
Proof.
  destruct sc as [ty ps rq cl it]. apply Hs.
  - induction ps as [|[k' [sub'|]] ps IH]; intros k sub Hin.
    + exfalso. by apply elem_of_nil in Hin.
    + apply elem_of_cons in Hin. destruct Hin as [Heq|Hin]; [injection Heq as -> ->; apply schema_ind'|by eapply IH].
    + apply elem_of_cons in Hin. destruct Hin as [Heq|Hin]; [discriminate Heq|by eapply IH].
  - intros sub Hit. destruct it as [x|]; [|discriminate Hit]. injection Hit as <-. apply schema_ind'.
Qed.
End SchemaInd.

Lemma type_matches_iff v t : type_matches v t = true <-> has_type v t.
Proof.
  split.
  - unfold type_matches.
    repeat (match goal with |- context [String.eqb t ?n] => destruct (String.eqb_spec t n) as [->|] end;
            [by destruct v; first [discriminate|constructor]|]).
    intros _. apply ht_unknown. unfold TYPE_NAMES. rewrite !not_elem_of_cons.
    split_and!; first [done|apply not_elem_of_nil].
  - destruct 1 as [| | | | | | |v t Hn]; try done. unfold TYPE_NAMES in Hn. rewrite !not_elem_of_cons in Hn.
    destruct Hn as (? & ? & ? & ? & ? & ? & _). unfold type_matches.
    by repeat rewrite (proj2 (String.eqb_neq _ _)) by done.
Qed.

Lemma type_error_iff t v : type_error t v = false <-> type_ok t v.
Proof.
  destruct t as [[t|ts]|]; cbn; [| |done].
  - rewrite <- type_matches_iff, andb_false_iff, negb_false_iff, bool_decide_eq_false. split; [|by right].
    intros [Hn|]; [|done]. apply type_matches_iff. by apply ht_unknown.
  - rewrite negb_false_iff, existsb_exists. split; intros (t & Hin & Hm); exists t;
      rewrite ?list_elem_of_In in *; split; try done; by apply type_matches_iff.
Qed.

Lemma find_missing {V} (d : list (string * V)) l : List.find (fun k => negb (dmem k d)) l = None <-> forall k, k ∈ l -> k ∈ dkeys d.
Proof.
  induction l as [|k l IH]; cbn; [split; [by intros _ k ?%elem_of_nil|done]|].
  unfold dmem at 1. pose proof (dget_is_Some_keys k d) as Hk. destruct (dget k d) as [v|] eqn:Hg; cbn.
  - rewrite IH. split; [|intros Hl x Hx; apply Hl; by right].
    intros Hl x [->|Hx]%elem_of_cons; [apply Hk; by eexists|by apply Hl].
  - split; [done|]. intros Hl. exfalso. assert (k ∈ dkeys d) as Hin by (apply Hl; by left). apply Hk in Hin. by destruct Hin.
Qed.

Lemma first_of_none {A} (f : A -> option Violation) l : first_of f l = None <-> forall x, x ∈ l -> f x = None.
Proof.
  induction l as [|x l IH]; cbn; [split; [by intros _ x ?%elem_of_nil|done]|].
  destruct (f x) eqn:Hf; [split; [done|intros Hl; rewrite (Hl x) in Hf by (by left); done]|].
  rewrite IH. split; [intros Hl y [->|Hy]%elem_of_cons; auto|intros Hl y Hy; apply Hl; by right].
Qed.

Lemma check_properties_none validate d path ps :
  (forall k sub, (k, Some sub) ∈ ps -> forall v path, validate sub v path = None <-> conforms sub v) ->
  check_properties validate d path ps = None <->
  forall k sub x, (k, Some sub) ∈ ps -> dget k d = Some x -> conforms sub x.
Proof.
  induction ps as [|[k sub] ps IH]; intros Hv; cbn; [split; [by intros _ k sub x ?%elem_of_nil|done]|].
  assert (forall k sub, (k, Some sub) ∈ ps -> forall v path, validate sub v path = None <-> conforms sub v) as Hv'.
  { intros k' sub' Hin. apply (Hv k'). by right. }
  specialize (IH Hv'). fold (check_properties validate d path).
  assert (check_properties validate d path ps = None /\
          (forall sub' x, sub = Some sub' -> dget k d = Some x -> conforms sub' x) <->
          forall k' sub' x, (k', Some sub') ∈ (k, sub) :: ps -> dget k' d = Some x -> conforms sub' x) as <-.
  { rewrite IH. split.
    - intros [Hall Hhead] k' sub' x [[= -> <-]|Hin]%elem_of_cons Hd; [by apply Hhead|by eapply Hall].
    - intros Hall. split; [intros k' sub' x Hin; apply Hall; by right|].
      intros sub' x -> Hd. eapply Hall; [by left|done]. }
  destruct (dget k d) as [x|], sub as [sub|]; try (split; [intros Hc; split; [done|naive_solver]|by intros [? _]]).
  assert (validate sub x (path ++ [k]) = None <-> conforms sub x) as Hx by (apply (Hv k); by left).
  destruct (validate sub x (path ++ [k])) as [e|]; split.
  - done.
  - intros [_ Hc]. by apply Hx, Hc.
  - intros Hc. split; [done|]. intros sub' x' [= <-] [= <-]. by apply Hx.
  - by intros [? _].
Qed.

Lemma validate_value_iff sc v path : validate_value sc v path = None <-> conforms sc v.
Proof.
  revert v path. induction sc as [ty ps rq cl it IHp IHi] using schema_ind'. intros v path.
  cbn [validate_value]. destruct (type_error ty v) eqn:Hty.
  { split; [done|]. inversion_clear 1 as [? ? ? ? ? ? Hok]. apply type_error_iff in Hok. congruence. }
  apply type_error_iff in Hty.
  assert (match v, it with
          | JList l, Some sub => first_of (fun x => validate_value sub x (path ++ ["[]"%string])) l
          | _, _ => None
          end = None <-> forall l sub x, v = JList l -> it = Some sub -> x ∈ l -> conforms sub x) as Hitems.
  { destruct v, it as [sub|]; try (split; [intros _; by intros|done]). rewrite first_of_none. split.
    - intros Hl l' sub' x [= <-] [= <-] Hx. eapply IHi; [done|]. by apply Hl.
    - intros Hl x Hx. apply IHi; [done|]. by eapply Hl. }
  destruct v as [| | | | | |d|];
    try (rewrite Hitems; split; [intros Hl; by constructor|by inversion_clear 1]).
  pose proof (check_properties_none (fun sub => validate_value sub) d path ps IHp) as Hprops.
  destruct (List.find (fun k => negb (dmem k d)) rq) as [k|] eqn:Hreq.
  { split; [done|]. inversion_clear 1 as [? ? ? ? ? ? _ Hobj _]. destruct (Hobj d eq_refl) as [Hr _].
    rewrite <- (find_missing d) in Hr. congruence. }
  rewrite (find_missing d) in Hreq. destruct (check_properties _ d path ps) as [e|] eqn:Hck.
  { split; [done|]. inversion_clear 1 as [? ? ? ? ? ? _ Hobj _]. destruct (Hobj d eq_refl) as (_ & Hp & _).
    by apply Hprops in Hp. }
  pose proof (proj1 Hprops eq_refl) as Hck'. clear Hck.
  assert ((if cl then match List.find (fun k => negb (dmem k ps)) (dkeys d) with
                      | Some k => Some (UnknownProperty path k) | None => None end else None) = None <->
          (cl = true -> forall k, k ∈ dkeys d -> k ∈ dkeys ps)) as Hclosed.
  { destruct cl; [|done]. pose proof (find_missing ps (dkeys d)) as Hf.
    destruct (List.find (fun k => negb (dmem k ps)) (dkeys d)) as [k|]; (split; [try done|]).
    - intros Hk. exfalso. by pose proof (proj2 Hf (Hk eq_refl)).
    - intros _ _. by apply Hf.
    - done. }
  destruct (if cl then _ else None) as [e|].
  - split; [done|]. inversion_clear 1 as [? ? ? ? ? ? _ Hobj _]. destruct (Hobj d eq_refl) as (_ & _ & Hcl).
    by apply Hclosed in Hcl.
  - rewrite Hitems. split.
    + intros Hl. constructor; [done| |done]. intros d' [= <-]. split; [done|]. split; [done|]. by apply Hclosed.
    + by inversion_clear 1.
Qed.

(** C25: [_validate_args] accepts exactly the objects that conform to the tool's
    schema: types, required, unknown and nested properties, and items. *)
Theorem validate_args_iff spec args :
  validate_args spec args = None <->
  (exists d, args = JObj d) /\ (forall sc, sp_parameters spec = Some sc -> conforms sc args).
Proof.
  unfold validate_args. destruct args; try (split; [done|]; by intros [[d' ?] _]).
  destruct (sp_parameters spec) as [sc|].
  - rewrite validate_value_iff. split; [intros Hc; split; [by eexists|by intros ? [= <-]]|intros [_ Hc]; by apply Hc].
  - split; [intros _; split; [by eexists|done]|done].
Qed.
