(* ===== verification/ToolRegistry.v ===== *)
(** * The tool registry

    [ToolRegistry] of [src/agency/tools/registry.py]: registration, and the
    call of a tool behind validation, policy, owner and audit gates.

    [W] is the rest of the world: what the tools act on and the state behind
    the owner's grants ([OwnerGate]).  The durable log is [AuditTrail]'s.  At
    the n-th await streams give the connections SQLite presents, the generated
    ids and times, what other coroutines do to the log, the world and the
    registry's suspension, and whether the task is cancelled before or after an
    operation on the log; a cancellation elsewhere is an exception of that
    operation.  [ran] is a history of the tool bodies entered, newest first,
    with the rows of the log at that moment; the code does not keep it. *)
From S2P Require Import Prelude PyStr PyDict PyJson Identity AuditTrail AdmissionModels Tools.

Section Registry.
Context {G W Seconds : Type} `{OwnerGate G W}.

(** ** Results *)

(** What a [ToolResult]'s error says. *)
Inductive ToolFailure :=
| UnknownTool
| InvalidArgs (v : option Violation)
| AuditUnavailable
| PolicyError (e : exn)
| PolicyDenied (r : option Reason)
| ToolFailed
| Timeout
| Raised (e : exn)
| Message (s : string).

Record ToolResult := mk_Result {
  tr_tool : string;
  tr_ok : bool;
  tr_output : json;
  tr_error : option ToolFailure;
  tr_duration_ms : Z;
  tr_evidence : list (string * json);
}.

Definition failed (name : string) (e : ToolFailure) : ToolResult := mk_Result name false JNull (Some e) 0 [].

(** How a tool body ends. *)
Inductive Dispatched :=
| Returned (r : ToolResult)
| Plain (v : json)
| TimedOut
| Threw (e : exn).

(** A [Tool]: its spec, and its body under [asyncio.wait_for] *)
Record Tool := mk_Tool {
  t_spec : ToolSpec;
  t_run : Seconds -> json -> ToolContext G -> W -> Dispatched * W;
}.

(** What a policy returns: a bool, a decision, or anything else *)
Inductive Verdict := VBool (b : bool) | VDecision (d : ToolPolicyDecision) | VOther.

(** [_coerce_policy_verdict] *)
Definition coerce_policy_verdict (v : Verdict) : bool * option Reason :=
  match v with
  | VBool b => (b, None)
  | VDecision d => (allowed d, Some (reason d))
  | VOther => (false, None)
  end.

(** A beta policy: [BetaToolPolicy] or another callable *)
Inductive BetaPolicy :=
| ConcreteBeta (p : BetaToolPolicy)
| CustomPolicy (f : ToolSpec -> json -> ToolContext G -> py W Verdict).

(** ** The registry *)

Record ToolRegistry := mk_Registry {
  tools : list (string * Tool);
  timeouts : list (string * Seconds);
  reg_audit : option AuditHandle;
  default_timeout_s : Seconds;
  beta_policy : option BetaPolicy;
  owner_policy : bool;
  beta_suspended : bool;
}.

(** A tool body entered, or a model asked ([Metered]): the name, the id of its
    intent, its grant, the log *)
Record Entered := mk_Entered {
  en_tool : string;
  en_call : option string;
  en_grant : option G;
  en_rows : list Row;
  en_model : bool;
}.

Record State := mk_State {
  reg : ToolRegistry;
  log : AuditLog;
  world : W;
  steps : nat;                        (* awaits so far *)
  ran : list Entered;
}.

(** [ToolRegistry(audit, default_timeout_s, beta_policy, owner_policy=...)] *)
Definition new_registry (audit : option AuditHandle) (timeout : Seconds) (beta : option BetaPolicy) (owner : bool)
    : result ToolRegistry :=
  _ ← raise_if (owner && bool_decide (is_Some beta)) TypeError;
  Ok (mk_Registry [] [] audit timeout beta owner false).

(** [ToolError] *)
Definition ToolError : exn := CallbackError "ToolError".

(** [register] *)
Definition register (t : Tool) (r : ToolRegistry) : result ToolRegistry :=
  _ ← raise_if (dmem (sp_name (t_spec t)) (tools r)) ToolError;
  Ok (mk_Registry (dset (sp_name (t_spec t)) t (tools r)) (timeouts r) (reg_audit r) (default_timeout_s r)
        (beta_policy r) (owner_policy r) (beta_suspended r)).

(** [get] *)
Definition get_tool (name : string) (r : ToolRegistry) : result Tool :=
  match dget name (tools r) with Some t => Ok t | None => Err ToolError end.

(** [list_specs] *)
Definition list_specs (r : ToolRegistry) : list ToolSpec :=
  map t_spec (map snd (sort_by (fun a b => str_le a.1 b.1) (tools r))).

(** [set_timeout]; [positive] is [seconds > 0] *)
Definition set_timeout (positive : Seconds -> bool) (name : string) (seconds : Seconds) (r : ToolRegistry)
    : result ToolRegistry :=
  _ ← raise_if (negb (dmem name (tools r))) ToolError;
  _ ← raise_if (negb (positive seconds)) ValueError;
  Ok (mk_Registry (tools r) (dset name seconds (timeouts r)) (reg_audit r) (default_timeout_s r)
        (beta_policy r) (owner_policy r) (beta_suspended r)).

(** [_strict] *)
Definition strict (r : ToolRegistry) : bool := bool_decide (is_Some (beta_policy r)) || owner_policy r.

(** [self._audit if self._audit is not None else ctx.audit] *)
Definition audit_of (ctx : ToolContext G) (r : ToolRegistry) : option AuditHandle :=
  match reg_audit r with Some a => Some a | None => cx_audit ctx end.

(** ** The surroundings *)

Inductive interrupt := Calm | CancelBefore | CancelAfter.

Context (w_main w_own : nat -> Connection) (w_id : nat -> string) (w_stamp : nat -> stamp).
Context (w_call_id : nat -> string) (w_duration : nat -> Z) (w_interrupt : nat -> interrupt).
Context (w_log : nat -> list audit_op) (w_world : nat -> W -> W) (w_suspend : nat -> bool).
(** The text of an error; an exception's is Python's. *)
Context (w_text : ToolFailure -> string).

(** [self._beta_suspended = True] *)
Definition suspended (r : ToolRegistry) : ToolRegistry :=
  mk_Registry (tools r) (timeouts r) (reg_audit r) (default_timeout_s r) (beta_policy r) (owner_policy r) true.

Definition suspend : py State unit := modify (fun s =>
  mk_State (suspended (reg s)) (log s) (world s) (steps s) (ran s)).

(** What the other coroutines do while one awaits *)
Definition pass (s : State) : State :=
  let n := steps s in
  mk_State (if w_suspend n then suspended (reg s) else reg s) (foldl audit_exec (log s) (w_log n))
    (w_world n (world s)) (S n) (ran s).

(** An operation on the log, awaited *)
Definition auditing {A} (m : nat -> py AuditLog A) : py State A := fun s =>
  match w_interrupt (steps s) with
  | CancelBefore => (Err CancelledError, pass s)
  | k =>
      let '(r, l) := m (steps s) (log s) in
      (match k with CancelAfter => Err CancelledError | _ => r end,
       pass (mk_State (reg s) l (world s) (steps s) (ran s)))
  end.

(** An operation on the rest of the world, and one that is awaited *)
Definition on_world {A} (m : py W A) : py State A := fun s =>
  let '(r, w) := m (world s) in (r, mk_State (reg s) (log s) w (steps s) (ran s)).
Definition awaiting {A} (m : py W A) : py State A := fun s =>
  let '(r, s1) := on_world m s in (r, pass s1).

(** A fresh value of a stream that no await consumes *)
Definition draw {A} (f : nat -> A) : py State A := fun s =>
  (Ok (f (steps s)), mk_State (reg s) (log s) (world s) (S (steps s)) (ran s)).

(** ** Gates *)

(** [_validate_owner] *)
Definition validate_owner (ctx : ToolContext G) (g : G) : py State unit :=
  r ← gets reg;
  _ ← raise_when (negb (owner_policy r) || bool_decide (is_Some (beta_policy r)) ||
                  negb (bool_decide (reg_audit r = Some BetaAudit)) ||
                  negb (bool_decide (cx_audit ctx = Some BetaAudit)) ||
                  bool_decide (is_Some (cx_beta_principal ctx)) ||
                  cx_memory_store ctx || cx_sandbox_manager ctx || cx_lattice ctx) (pilot "forbidden");
  _ ← on_world (og_check g);
  raise_when (negb (String.eqb (cx_task_id ctx) (og_task g))) (pilot "forbidden").

(** [_check_owner] *)
Definition check_owner (ctx : ToolContext G) (g : G) (uncertain : bool) : py State unit :=
  catch (_ ← validate_owner ctx g;
         active ← awaiting (og_active g);
         _ ← validate_owner ctx g;
         raise_when (negb active) (pilot "forbidden"))
    (fun _ => raise (pilot_error (if uncertain then "uncertainty" else "forbidden") uncertain)).

Definition check_bound (ctx : ToolContext G) (b : option G) (uncertain : bool) : py State unit :=
  match b with Some g => check_owner ctx g uncertain | None => mret tt end.

(** An [AuditEntry] of the gate *)
Definition gate_entry (n : nat) (owner : bool) (name act res : string) (ev : list (string * json)) : AuditEntry :=
  mk_AuditEntry (w_id n) (w_stamp n) (if owner then Some "owner-tools"%string else None)
    (if owner then Some "owner-pilot"%string else None) (Some name) None None (Some (AText act)) res (Some ev)
    None None None None.

Definition intent_evidence (name call_id : string) : list (string * json) :=
  [("call_id", JStr call_id); ("tool", JStr name); ("phase", JStr "intent")]%string.

(** [_beta_claim] *)
Definition beta_claim (name call_id : string) : py State (option bool) :=
  owner ← gets (fun s => owner_policy (reg s));
  catch (b ← auditing (fun n => claim_intent (w_main n) (w_own n)
               (gate_entry n owner name "tool.call" "pending" (intent_evidence name call_id)));
         mret (Some b))
    (fun e => if bool_decide (e = CancelledError)
              then _ ← suspend; raise (if owner then pilot_error "audit" true else CancelledError)
              else mret None).

(** [_beta_persist] *)
Definition beta_persist (ctx : ToolContext G) (name act outcome phase : string) (extra : list (string * json))
    (call_id : option string) : py State bool :=
  r ← gets reg;
  match audit_of ctx r with
  | Some BetaAudit =>
      cid ← match call_id with Some c => mret c | None => draw w_call_id end;
      let ev := ([("call_id", JStr cid); ("tool", JStr name); ("phase", JStr phase)]%string ++ extra) in
      catch (ok ← auditing (fun n =>
               let e := gate_entry n (owner_policy r) name act outcome ev in
               id ← append_beta (w_main n) e; mret (String.eqb id (entry_id e)));
             mret ok)
        (fun e => if bool_decide (e = CancelledError)
                  then _ ← suspend; raise (if owner_policy r then pilot_error "audit" true else CancelledError)
                  else mret false)
  | _ => mret false
  end.

(** [_audit_call]: denials of a strict registry, and the best effort otherwise *)
Definition audit_call (ctx : ToolContext G) (name : string) (res : ToolResult) : py State unit :=
  r ← gets reg;
  if strict r then _ ← beta_persist ctx name "tool.error" "denied" "denial" [] None; mret tt
  else
    match audit_of ctx r with
    | Some BetaAudit =>
        (* append(agent=...) raises TypeError, then append(entry) *)
        catch_exception
          (_ ← auditing (fun n => append
                 (mk_AuditEntry (w_id n) (w_stamp n) (Some (cx_agent_id ctx)) (Some (cx_task_id ctx)) (Some name) None None
                    (Some (AText (if tr_ok res then "tool.call" else "tool.error")))
                    (if tr_ok res then "ok" else "error")
                    (Some ([("agent_id", JStr (cx_agent_id ctx)); ("task_id", JStr (cx_task_id ctx)); ("tool", JStr name);
                            ("ok", JBool (tr_ok res)); ("duration_ms", JInt (tr_duration_ms res))]%string ++
                           match tr_error res with
                           | Some e => if String.eqb (w_text e) "" then [] else [("error"%string, JStr (w_text e))]
                           | None => []
                           end))
                    None None None None));
           mret tt)
          (fun _ => mret tt)
    | _ => mret tt
    end.

(** A denial, audited *)
Definition refused (ctx : ToolContext G) (name : string) (res : ToolResult) : py State (ToolResult + string) :=
  _ ← audit_call ctx name res; mret (inl res).

Definition unavailable (name status : string) (ms : Z) : ToolResult :=
  mk_Result name false JNull (Some AuditUnavailable) ms [("status"%string, JStr status)].

(** The policy in force; the owner's is asked about the arguments as they are. *)
Definition ask_policy (r : ToolRegistry) (t : Tool) (args : json) (ctx : ToolContext G) : py W Verdict :=
  if owner_policy r then d ← owner_decide (t_spec t) args ctx; mret (VDecision d)
  else match beta_policy r with
       | Some (ConcreteBeta p) =>
           mret (VDecision (beta_decide p (t_spec t) (match args with JObj d => d | _ => [] end) ctx))
       | Some (CustomPolicy f) => f (t_spec t) args ctx
       | None => mret VOther
       end.

(** [call] up to the execution, in a strict registry: a result, or the call id
    of the acknowledged intent *)
Definition strict_gate (name : string) (t : Tool) (args : json) (ctx : ToolContext G) (b : option G)
    : py State (ToolResult + string) :=
  r ← gets reg;
  if beta_suspended r then
    if owner_policy r then raise (pilot_error "audit" true)
    else mret (inl (unavailable name "INDETERMINATE" 0))
  else
    verdict ← catch_exception (v ← on_world (ask_policy r t args ctx); mret (Ok v)) (fun e => mret (Err e));
    match verdict with
    | Err e => refused ctx name (failed name (PolicyError e))
    | Ok v =>
        let '(ok, why) := coerce_policy_verdict v in
        if negb ok then
          refused ctx name (failed name (PolicyDenied
            (match beta_policy r with Some (ConcreteBeta _) => why | _ => None end)))
        else if negb (bool_decide (audit_of ctx r = Some BetaAudit)) then
          _ ← suspend; mret (inl (unavailable name "INDETERMINATE" 0))
        else
          _ ← match b with
              | Some g =>
                  reserved ← awaiting (og_reserve g name);
                  _ ← check_owner ctx g false;
                  raise_when (negb reserved) (pilot "quota")
              | None => mret tt
              end;
          call_id ← draw w_call_id;
          claim ← beta_claim name call_id;
          _ ← check_bound ctx b false;
          match claim with
          | Some true => mret (inr call_id)
          | claim =>
              _ ← (if owner_policy r then _ ← suspend; raise (pilot_error "audit" true) else mret tt);
              match claim with
              | Some _ => mret (inl (unavailable name "INDETERMINATE" 0))
              | None => _ ← suspend; mret (inl (unavailable name "FAILED" 0))
              end
          end
    end.

(** The body, entered *)
Definition enter (name : string) (call_id : option string) (t : Tool) (timeout : Seconds) (args : json)
    (ctx : ToolContext G) (b : option G) : py State Dispatched := fun s =>
  let '(d, w) := t_run t timeout args ctx (world s) in
  (Ok d, pass (mk_State (reg s) (log s) w (steps s) (mk_Entered name call_id b (rows (log s)) false :: ran s))).

(** [dispatch], and what it raises *)
Definition dispatch (name : string) (call_id : option string) (t : Tool) (args : json) (ctx : ToolContext G)
    (b : option G) : py State Dispatched :=
  r ← gets reg;
  catch (_ ← match b with
             | Some g =>
                 _ ← check_owner ctx g false;
                 d ← on_world (owner_decide (t_spec t) args ctx);
                 raise_when (negb (allowed d)) (pilot "forbidden")
             | None => mret tt
             end;
         enter name call_id t (default (default_timeout_s r) (dget name (timeouts r))) args ctx b)
    (fun e => mret (Threw e)).

(** The result of a body, or the exception of the call *)
Definition collect (name : string) (d : Dispatched) : py State ToolResult :=
  r ← gets reg;
  ms ← draw w_duration;
  let bad e := mk_Result name false JNull (Some e) ms [] in
  match d with
  | Returned raw =>
      mret (mk_Result (if String.eqb (tr_tool raw) "" then name else tr_tool raw) (tr_ok raw) (tr_output raw)
              (tr_error raw) ms (tr_evidence raw))
  | Plain v => mret (mk_Result name true v None ms [])
  | TimedOut => if owner_policy r then _ ← suspend; raise (pilot_error "uncertainty" true) else mret (bad Timeout)
  | Threw e =>
      if bool_decide (e = CancelledError) then
        if owner_policy r then _ ← suspend; raise (pilot_error "uncertainty" true)
        else if strict r then _ ← suspend; raise e else raise e
      else if owner_policy r then
        match e with
        | PilotError _ _ _ => raise e
        | _ => _ ← suspend; raise (pilot_error "uncertainty" true)
        end
      else mret (bad (Raised e))
  end.

(** The outcome of a strict call, persisted before it is returned *)
Definition settle (name call_id : string) (ctx : ToolContext G) (b : option G) (res : ToolResult) : py State ToolResult :=
  r ← gets reg;
  let res := if tr_ok res then res else mk_Result name false JNull (Some ToolFailed) (tr_duration_ms res) [] in
  persisted ← beta_persist ctx name (if tr_ok res then "tool.call" else "tool.error")
                (if tr_ok res then "ok" else "error") "outcome"
                [("ok", JBool (tr_ok res)); ("duration_ms", JInt (tr_duration_ms res))]%string (Some call_id);
  _ ← check_bound ctx b true;
  if negb persisted then
    _ ← suspend;
    if owner_policy r then raise (pilot_error "audit" true)
    else mret (unavailable name "INDETERMINATE" (tr_duration_ms res))
  else mret res.

(** [call] *)
Definition call (name : string) (args : json) (ctx : ToolContext G) : py State ToolResult :=
  r ← gets reg;
  b ← (if owner_policy r then
         match cx_owner_grant ctx with Some g => mret (Some g) | None => raise (pilot "forbidden") end
       else mret None);
  _ ← match b with
      | Some g => check_owner ctx g false
      | None => raise_when (bool_decide (is_Some (cx_owner_grant ctx))) (pilot "forbidden")
      end;
  match dget name (tools r) with
  | None =>
      let safe := if strict r then "unknown"%string else name in
      let res := failed safe UnknownTool in
      _ ← audit_call ctx safe res; mret res
  | Some t =>
      match validate_args (t_spec t) args with
      | Some v =>
          let res := failed name (InvalidArgs (if strict r then None else Some v)) in
          _ ← audit_call ctx name res; mret res
      | None =>
          gate ← (if strict r then g ← strict_gate name t args ctx b; mret (Some g) else mret None);
          match gate with
          | Some (inl res) => mret res
          | Some (inr call_id) =>
              d ← dispatch name (Some call_id) t args ctx b;
              res ← collect name d;
              _ ← check_bound ctx b true;
              settle name call_id ctx b res
          | None =>
              d ← dispatch name None t args ctx b;
              res ← collect name d;
              _ ← check_bound ctx b true;
              _ ← audit_call ctx name res; mret res
          end
      end
  end.

(** ** What every operation keeps

    [R] is any relation the world moves along: the surroundings, the gate and
    the registered tools and policy are asked to keep it. *)
Section Frame.
Context (R : relation W) `{!PreOrder R}.
Context (R_world : forall n w, R w (w_world n w)).
Context (R_check : forall g w, R w (og_check g w).2) (R_live : forall g w, R w (og_live g w).2).
Context (R_active : forall g w, R w (og_active g w).2) (R_reserve : forall g name w, R w (og_reserve g name w).2).

(** The tools and the custom policy of a registry stay within [R]. *)
Definition reg_in (r : ToolRegistry) : Prop :=
  (forall name t timeout args ctx w, dget name (tools r) = Some t -> R w (t_run t timeout args ctx w).2) /\
  (forall f spec args ctx w, beta_policy r = Some (CustomPolicy f) -> R w (f spec args ctx w).2).

(** From [s] to [s'] the bodies [l] were entered: the registry may be
    suspended, the log grows, the world moves. *)
Record grows (l : list Entered) (s s' : State) : Prop := {
  gr_reg : reg s' = reg s \/ reg s' = suspended (reg s);
  gr_rows : rows (log s) `prefix_of` rows (log s');
  gr_world : R (world s) (world s');
  gr_ran : ran s' = l ++ ran s;
  gr_steps : steps s <= steps s';
}.

Abbreviation evolves := (grows []).

Lemma grows_trans l l' s1 s2 s3 : grows l s1 s2 -> grows l' s2 s3 -> grows (l' ++ l) s1 s3.
Proof using PreOrder0.
  intros [Hr Hl Hw Hn Hs] [Hr' Hl' Hw' Hn' Hs']. split; [|by etransitivity|by etransitivity| |lia].
  - destruct Hr as [Hr|Hr], Hr' as [Hr'|Hr']; rewrite Hr', Hr; auto.
  - by rewrite Hn', Hn, app_assoc.
Qed.

#[local] Instance evolves_preorder : PreOrder evolves.
Proof using PreOrder0. split; [intros s; by split; [left| | | |]|]. intros s1 s2 s3. apply grows_trans. Qed.

Lemma audit_prefix ops l : rows l `prefix_of` rows (foldl audit_exec l ops).
Proof.
  revert l. induction ops as [|op ops IH]; intros l; [done|]. cbn. etransitivity; [|apply IH].
  destruct (audit_exec_rows l op) as [->|(e & _ & ->)]; [done|by apply prefix_app_r].
Qed.

Lemma pass_evolves s : evolves s (pass s).
Proof using R_world PreOrder0. split; cbn; [destruct (w_suspend _); auto|apply audit_prefix|apply R_world|done|lia]. Qed.

Lemma world_evolves s w n : steps s <= n -> R (world s) w -> evolves s (mk_State (reg s) (log s) w n (ran s)).
Proof. by split; [left| | | |]. Qed.


Lemma keep_suspend (s0 : State) : preserves (evolves s0) suspend.
Proof using PreOrder0. intros s Hs. apply wp_modify. etransitivity; [exact Hs|]. by split; [right| | | |]. Qed.

Lemma keep_draw {A} (s0 : State) (f : nat -> A) : preserves (evolves s0) (draw f).
Proof using PreOrder0. intros s Hs. unfold wp, draw. etransitivity; [exact Hs|]. apply world_evolves; [lia|reflexivity]. Qed.

Lemma keep_on_world {A} (s0 : State) (m : py W A) : (forall w, R w (m w).2) -> preserves (evolves s0) (on_world m).
Proof using PreOrder0.
  intros Hm s Hs. unfold wp, on_world. pose proof (Hm (world s)) as Hw. destruct (m (world s)) as [r w].
  assert (evolves s0 (mk_State (reg s) (log s) w (steps s) (ran s))) by (etransitivity; [exact Hs|by apply world_evolves; [lia|]]).
  by destruct r.
Qed.

Lemma keep_awaiting {A} (s0 : State) (m : py W A) : (forall w, R w (m w).2) -> preserves (evolves s0) (awaiting m).
Proof using R_world PreOrder0.
  intros Hm s Hs. pose proof (keep_on_world s0 m Hm s Hs) as Hw. unfold wp, awaiting in *.
  destruct (on_world m s) as [r s1]. assert (evolves s0 (pass s1)) by (etransitivity; [|apply pass_evolves]; by destruct r).
  by destruct r.
Qed.

(** Operations on the log that are the audit log's own *)
Definition audited {A} (m : py AuditLog A) : Prop := forall l, exists ops, (m l).2 = foldl audit_exec l ops.

Lemma audited_append main e : audited (id ← append_beta main e; mret (String.eqb id (entry_id e))).
Proof.
  intros l. exists [AppendBeta main e]. cbn. unfold mbind, py_bind. by destruct (append_beta main e l) as [[x|x] l'].
Qed.

Lemma audited_claim main own e : audited (claim_intent main own e).
Proof. intros l. by exists [ClaimIntent main own e]. Qed.

Lemma audited_append_entry e : audited (append e).
Proof. intros l. by exists [Append e]. Qed.

Lemma keep_auditing {A} (s0 : State) (m : nat -> py AuditLog A) :
  (forall n, audited (m n)) -> preserves (evolves s0) (auditing m).
Proof using R_world PreOrder0.
  intros Hm s Hs. unfold wp, auditing. pose proof (pass_evolves s) as Hp.
  destruct (Hm (steps s) (log s)) as [ops Hops]. destruct (m (steps s) (log s)) as [r l]. cbn in Hops. subst l.
  set (s1 := mk_State (reg s) _ (world s) (steps s) (ran s)).
  assert (evolves s s1) as H1 by (split; cbn; [by left|apply audit_prefix|done|done|lia]).
  assert (evolves s0 (pass s1)) as H2 by (etransitivity; [exact Hs|]; etransitivity; [exact H1|apply pass_evolves]).
  assert (evolves s0 (pass s)) as H3 by (etransitivity; [exact Hs|exact Hp]). by destruct (w_interrupt (steps s)), r.
Qed.

Ltac walk_step :=
  lazymatch goal with
  | |- preserves _ (mbind _ _) => apply preserves_bind; [|intros ?]
  | |- preserves _ (mret _) => apply preserves_ret
  | |- preserves _ (raise _) => apply preserves_raise
  | |- preserves _ (raise_when _ _) => apply preserves_lift
  | |- preserves _ (gets _) => apply preserves_gets
  | |- preserves _ (catch _ _) => apply preserves_catch; [|intros ?]
  | |- preserves _ (catch_exception _ _) => apply preserves_catch_exception; [|intros ?]
  | |- preserves _ suspend => apply keep_suspend
  | |- preserves _ (draw _) => apply keep_draw
  | |- preserves _ (on_world (og_check _)) => apply keep_on_world, R_check
  | |- preserves _ (awaiting (og_active _)) => apply keep_awaiting, R_active
  | |- preserves _ (awaiting (og_reserve _ _)) => apply keep_awaiting, R_reserve
  | |- preserves _ (auditing _) => apply keep_auditing; intros ?
  | |- audited (claim_intent _ _ _) => apply audited_claim
  | |- audited (append _) => apply audited_append_entry
  | |- audited _ => apply audited_append
  | |- preserves _ (match ?x with _ => _ end) => destruct x
  | |- preserves _ (let '(_, _) := ?x in _) => destruct x
  | |- preserves _ ?m =>
      progress unfold validate_owner, check_owner, check_bound, beta_claim, beta_persist, audit_call, refused, collect, settle
  end.

Ltac walk := repeat walk_step.

Lemma keep_check_bound (s0 : State) ctx b uncertain : preserves (evolves s0) (check_bound ctx b uncertain).
Proof using R_world R_check R_active PreOrder0. walk. Qed.

Lemma keep_claim (s0 : State) name cid : preserves (evolves s0) (beta_claim name cid).
Proof using R_world PreOrder0. walk. Qed.

Lemma keep_persist (s0 : State) ctx name act outcome phase extra cid :
  preserves (evolves s0) (beta_persist ctx name act outcome phase extra cid).
Proof using R_world PreOrder0. walk. Qed.

Lemma keep_audit_call (s0 : State) ctx name res : preserves (evolves s0) (audit_call ctx name res).
Proof using R_world PreOrder0. walk. Qed.

Lemma keep_collect (s0 : State) name d : preserves (evolves s0) (collect name d).
Proof using R_world PreOrder0. walk. Qed.

Lemma keep_settle (s0 : State) name cid ctx b res : preserves (evolves s0) (settle name cid ctx b res).
Proof using R_world R_check R_active PreOrder0. unfold settle. walk. all: apply keep_persist || apply keep_check_bound. Qed.

Lemma keep_policy w0 spec args ctx : preserves (R w0) (owner_decide spec args ctx).
Proof using R_check R_live PreOrder0.
  assert (forall A (m : py W A), (forall w, R w (m w).2) -> preserves (R w0) m) as Hm.
  { intros A m Hm w Hw. unfold wp. specialize (Hm w). destruct (m w) as [[x|e] w']; by etransitivity. }
  unfold owner_decide. destruct (cx_owner_grant ctx) as [g|]; [|apply preserves_ret].
  repeat lazymatch goal with
  | |- preserves _ (mbind _ _) => apply preserves_bind; [|intros ?]
  | |- preserves _ (mret _) => apply preserves_ret
  | |- preserves _ (raise _) => apply preserves_raise
  | |- preserves _ (catch _ _) => apply preserves_catch; [|intros ?]
  | |- preserves _ (match ?x with _ => _ end) => destruct x
  | |- preserves _ _ => apply Hm; auto
  end.
Qed.

Lemma R_decide spec args ctx w : R w (owner_decide spec args ctx w).2.
Proof using R_check R_live PreOrder0. apply (preserves_run (R w)); [apply keep_policy|reflexivity]. Qed.

Lemma R_policy r t args ctx w : reg_in r -> R w (ask_policy r t args ctx w).2.
Proof using R_check R_live PreOrder0.
  intros [_ Hp]. unfold ask_policy. destruct (owner_policy r).
  - pose proof (R_decide (t_spec t) args ctx w) as Hd. unfold mbind, py_bind.
    by destruct (owner_decide _ _ _ w) as [[d|e] w'].
  - destruct (beta_policy r) as [[p|f]|] eqn:Hb; [reflexivity|by apply Hp|reflexivity].
Qed.

(** ** What a strict call call_went through *)

Lemma call_went {A} (m : py State A) s x s' : preserves (evolves s) m -> m s = (x, s') -> evolves s s'.
Proof using PreOrder0. intros Hm Hr. pose proof (preserves_run _ m s Hm ltac:(reflexivity)) as He. by rewrite Hr in He. Qed.

Lemma suspended_back l s s' : grows l s s' -> beta_suspended (reg s') = false -> beta_suspended (reg s) = false.
Proof. by intros [[Hr|Hr] _ _ _ _]; rewrite Hr. Qed.

Lemma same_reg {A} (f : ToolRegistry -> A) l s s' :
  grows l s s' -> (forall r, f (suspended r) = f r) -> f (reg s') = f (reg s).
Proof. by intros [[Hr|Hr] _ _ _ _] Hf; rewrite Hr. Qed.

Lemma reg_in_grows l s s' : grows l s s' -> reg_in (reg s) -> reg_in (reg s').
Proof. by intros [[Hr|Hr] _ _ _ _]; rewrite Hr. Qed.

(** The row of a call in the log *)
Definition intent_row (cid : string) (row : Row) : Prop :=
  is_intent row = true /\ call_id row = Some (SText cid).

Definition outcome_row (cid outcome : string) (row : Row) : Prop :=
  has_phase "outcome" row = true /\ call_id row = Some (SText cid) /\ r_result row = outcome.

Lemma gate_row n owner name act res (cid phase : string) extra :
  let row := row_of (gate_entry n owner name act res
               ([("call_id", JStr cid); ("tool", JStr name); ("phase", JStr phase)]%string ++ extra)) in
  call_id row = Some (SText cid) /\ has_phase phase row = true /\ r_result row = res.
Proof.
  cbn zeta. unfold call_id, has_phase, json_extract. cbn [row_of r_evidence r_result gate_entry evidence result_].
  cbn [json_column fmap option_fmap option_map]. rewrite !jget_canon. cbn [app]. cbn. by rewrite bool_decide_true.
Qed.

Lemma auditing_ok {A} (m : nat -> py AuditLog A) s (x : A) s' :
  auditing m s = (Ok x, s') ->
  exists l, m (steps s) (log s) = (Ok x, l) /\ rows l `prefix_of` rows (log s').
Proof.
  unfold auditing. destruct (w_interrupt (steps s)), (m (steps s) (log s)) as [r l]; try done;
    intros [= -> <-]; exists l; (split; [done|apply (audit_prefix (w_log (steps s)) l)]).
Qed.

Lemma beta_claim_ok name cid s s' :
  beta_claim name cid s = (Ok (Some true), s') -> exists row, row ∈ rows (log s') /\ intent_row cid row.
Proof.
  unfold beta_claim. rewrite bind_gets. intros [(o & Hc & [= <-])|(e & s1 & _ & Hr)]%catch_cases.
  - py_step Hc b s2 H1. injection Hc as -> ->.
    apply auditing_ok in H1 as (l & H1 & Hp). pose proof (claim_intent_spec (w_main (steps s)) (w_own (steps s))
      (gate_entry (steps s) (owner_policy (reg s)) name "tool.call" "pending" (intent_evidence name cid)) (log s)) as Hs.
    rewrite H1 in Hs. destruct Hs as (_ & _ & _ & _ & Hi & ->). eexists. split; [eapply elem_of_prefix; [|exact Hp]|].
    + cbn. apply elem_of_app. right. by left.
    + split; [done|]. pose proof (gate_row (steps s) (owner_policy (reg s)) name "tool.call" "pending" cid "intent" [])
        as (Hid & _). by rewrite app_nil_r in Hid.
  - destruct (bool_decide _); [|done]. py_step Hr u s2 H1. by destruct (owner_policy _).
Qed.

Lemma persist_ok ctx name act outcome phase extra cid s s' :
  beta_persist ctx name act outcome phase extra (Some cid) s = (Ok true, s') ->
  exists row, row ∈ rows (log s') /\ call_id row = Some (SText cid) /\ has_phase phase row = true /\ r_result row = outcome.
Proof.
  unfold beta_persist. rewrite bind_gets. destruct (audit_of ctx (reg s)) as [[]|]; [|done|done].
  rewrite bind_run. cbn beta iota.
  change ((mret cid : py State string) s) with (Ok cid : result string, s). cbn beta iota.
  intros [(o & Hc & [= <-])|(e & s1 & _ & Hr)]%catch_cases.
  - py_step Hc b s2 H1. injection Hc as -> ->. apply auditing_ok in H1 as (l & H1 & Hp).
    cbn zeta in H1. py_step H1 eid l1 H2. rewrite append_beta_run in H2. destruct (_ || _); [done|].
    destruct (bool_decide _); [done|]. injection H2 as <- <-. injection H1 as _ <-.
    eexists. split; [eapply elem_of_prefix; [|exact Hp]; cbn; apply elem_of_app; right; by left|].
    apply gate_row.
  - destruct (bool_decide _); [|done]. py_step Hr u s2 H1. by destruct (owner_policy _).
Qed.

(** The policy in force lets this call pass in the world [w]. *)
Definition allowed_by (r : ToolRegistry) (t : Tool) (args : json) (ctx : ToolContext G) (w : W) : Prop :=
  exists v, (ask_policy r t args ctx w).1 = Ok v /\ (coerce_policy_verdict v).1 = true.

(** A strict gate passed on the way from [s] to [s'] *)
Record gated (name : string) (t : Tool) (args : json) (ctx : ToolContext G) (b : option G) (cid : string) (s s' : State) : Prop := {
  ga_live : beta_suspended (reg s) = false;
  ga_policy : allowed_by (reg s) t args ctx (world s);
  ga_audit : audit_of ctx (reg s) = Some BetaAudit;
  ga_intent : exists row, row ∈ rows (log s') /\ intent_row cid row;
  ga_reserved : forall g, b = Some g -> exists w w', R (world s) w /\ og_reserve g name w = (Ok true, w') /\ R w' (world s');
}.

Lemma keep_refused (s0 : State) ctx name res : preserves (evolves s0) (refused ctx name res).
Proof using R_world PreOrder0. unfold refused. walk. Qed.

Lemma keep_strict_gate s0 name t args ctx b s :
  reg_in (reg s0) -> evolves s0 s -> evolves s0 (strict_gate name t args ctx b s).2.
Proof using R_world R_check R_live R_active R_reserve PreOrder0.
  intros Hin Hs. pose proof (reg_in_grows _ _ _ Hs Hin) as Hin'. unfold strict_gate. rewrite bind_gets.
  apply (preserves_run (evolves s0)); [|exact Hs]. clear Hs. set (r := reg s) in *.
  assert (forall h, preserves (evolves s0) (catch_exception (v ← on_world (ask_policy r t args ctx);
            mret (Ok v : result Verdict)) (fun e => mret (h e)))) as Hask.
  { intros h. apply preserves_catch_exception; [|intros; apply preserves_ret].
    apply preserves_bind; [|intros; apply preserves_ret]. apply keep_on_world. intros w. by apply R_policy. }
  repeat first [apply Hask|apply keep_claim|apply keep_check_bound|apply keep_refused|walk_step].
Qed.

Lemma refused_ok ctx name res s x s' : refused ctx name res s = (Ok x, s') -> x = inl res.
Proof. unfold refused. intros Hr. py_step Hr u s1 H1. by injection Hr as <- <-. Qed.

(** A gate answers a failed result or the id of an acknowledged intent. *)
Lemma strict_gate_ok name t args ctx b s x s' :
  reg_in (reg s) -> strict_gate name t args ctx b s = (Ok x, s') ->
  match x with inl res => tr_ok res = false | inr cid => gated name t args ctx b cid s s' end.
Proof using R_world R_check R_live R_active R_reserve PreOrder0.
  intros Hin. unfold strict_gate. rewrite bind_gets. set (r := reg s) in *. intros Hr.
  destruct (beta_suspended r) eqn:Hsus.
  { destruct (owner_policy r); [done|by injection Hr as <- <-]. }
  py_step Hr verdict s1 H1.
  assert (evolves s s1) as E1.
  { eapply call_went, H1. apply preserves_catch_exception; [|intros; apply preserves_ret].
    apply preserves_bind; [|intros; apply preserves_ret]. apply keep_on_world. intros w. by apply R_policy. }
  destruct verdict as [v|e]; [|by apply refused_ok in Hr as ->].
  assert ((ask_policy r t args ctx (world s)).1 = Ok v) as Hv.
  { unfold catch_exception in H1. apply catch_cases in H1 as [(y & H1 & [= <-])|(e & s2 & _ & H2)].
    - py_step H1 v' s2 H2. injection H1 as <- <-. unfold on_world in H2.
      destruct (ask_policy r t args ctx (world s)) as [q w]. by injection H2 as -> <-.
    - by destruct (bool_decide _). }
  destruct (coerce_policy_verdict v) as [ok why] eqn:Hco. destruct ok; [|by apply refused_ok in Hr as ->].
  cbn [negb] in Hr. case_bool_decide as Haud; cbn [negb] in Hr; [|py_step Hr u s2 H2; by injection Hr as <- <-].
  py_step Hr u2 s2 H2.
  assert (evolves s1 s2) as E2.
  { eapply call_went, H2. repeat first [apply keep_check_bound|walk_step]. }
  assert (forall g, b = Some g -> exists w w', R (world s1) w /\ og_reserve g name w = (Ok true, w') /\ R w' (world s2)) as Hres.
  { intros g ->. cbn beta iota in H2. py_step H2 ok s3 H3. py_step H2 u3 s4 H4. apply raise_when_ok in H2 as [Hok ->].
    destruct ok; [|done]. assert (evolves s3 s4) as [_ _ Hw _] by (eapply call_went, H4; walk).
    unfold awaiting, on_world in H3. destruct (og_reserve g name (world s1)) as [q w'] eqn:Hq. injection H3 as -> <-.
    exists (world s1), w'. split; [reflexivity|]. split; [done|]. etransitivity; [|exact Hw]. apply R_world. }
  py_step Hr cid s3 H3. assert (evolves s2 s3) as E3 by (eapply call_went, H3; walk).
  py_step Hr claim s4 H4. assert (evolves s3 s4) as E4 by (eapply call_went, H4; apply keep_claim).
  py_step Hr u5 s5 H5. assert (evolves s4 s5) as E5 by (eapply call_went, H5; apply keep_check_bound).
  destruct claim as [[]|].
  - injection Hr as <- <-. apply beta_claim_ok in H4 as (row & Hrow & Hi). split; try done.
    + exists v. split; [exact Hv|by rewrite Hco].
    + exists row. split; [|done]. eapply elem_of_prefix; [exact Hrow|apply E5].
    + intros g Hb. destruct (Hres g Hb) as (w & w' & Hw & Hg & Hw'). exists w, w'.
      split; [etransitivity; [apply E1|done]|]. split; [done|]. etransitivity; [done|].
      etransitivity; [apply E3|]. etransitivity; [apply E4|apply E5].
  - py_step Hr u6 s6 H6. by injection Hr as <- <-.
  - py_step Hr u6 s6 H6. py_step Hr u7 s7 H7. by injection Hr as <- <-.
Qed.

(** A dispatch enters the body once, or raises before it. *)
Lemma dispatch_ok name cid t args ctx b s r s' :
  reg_in (reg s) -> dget name (tools (reg s)) = Some t -> dispatch name cid t args ctx b s = (r, s') ->
  exists d, r = Ok d /\
    ((evolves s s' /\ exists e, d = Threw e) \/
     exists l, rows (log s) `prefix_of` l /\ grows [mk_Entered name cid b l false] s s').
Proof using R_world R_check R_live R_active PreOrder0.
  intros Hin Ht. unfold dispatch. rewrite bind_gets. set (timeout := default _ _). set (gate := match b with Some _ => _ | None => _ end).
  assert (forall s0, preserves (evolves s0) gate) as Hgate.
  { intros s0. unfold gate. destruct b as [g|]; [|apply preserves_ret]. apply preserves_bind; [walk|intros _].
    apply preserves_bind; [apply keep_on_world; intros w; apply R_decide|intros d; walk]. }
  assert (forall s1, evolves s s1 -> exists d s2, enter name cid t timeout args ctx b s1 = (Ok d, s2) /\
            exists l, rows (log s) `prefix_of` l /\ grows [mk_Entered name cid b l false] s s2) as Henter.
  { intros s1 E1. unfold enter. pose proof (proj1 (reg_in_grows _ _ _ E1 Hin) name t timeout args ctx (world s1)) as Hw.
    destruct (t_run t timeout args ctx (world s1)) as [d w]. do 2 eexists. split; [done|]. exists (rows (log s1)).
    split; [apply E1|]. eapply (grows_trans [] [_]); [exact E1|]. eapply (grows_trans [_] []); [|apply pass_evolves].
    split; cbn; [by left|done| |done|lia]. apply Hw. by rewrite (same_reg tools _ _ _ E1). }
  intros [(d & Hd & ->)|(e & s1 & Hm & Hr)]%catch_cases.
  - py_step Hd u s1 H1. pose proof (call_went _ _ _ _ (Hgate s) H1) as E1.
    destruct (Henter s1 E1) as (d' & s2 & Hen & Hl). rewrite Hen in Hd. injection Hd as <- <-. exists d'. eauto.
  - injection Hr as <- <-. exists (Threw e). split; [done|]. left. split; [|by exists e].
    unfold mbind, py_bind in Hm. destruct (gate s) as [[u|e'] s2] eqn:Hg.
    + destruct (Henter s2 (call_went _ _ _ _ (Hgate s) Hg)) as (d' & s3 & Hen & _). by rewrite Hen in Hm.
    + injection Hm as <- <-. by eapply call_went, Hg.
Qed.

(** Only a body that returned is reported as a success. *)
Lemma collect_threw name e s res s' : collect name (Threw e) s = (Ok res, s') -> tr_ok res = false.
Proof.
  unfold collect. rewrite bind_gets. intros Hr. py_step Hr ms s1 H1.
  destruct (bool_decide _), (owner_policy _); try (by py_step Hr u s2 H2).
  - destruct (strict _); [by py_step Hr u s2 H2|done].
  - destruct e; try (by py_step Hr u s2 H2); done.
  - by injection Hr as <- <-.
Qed.

(** A settled call has its outcome in the log, or the registry is suspended. *)
Lemma settle_ok name cid ctx b res s res' s' :
  settle name cid ctx b res s = (Ok res', s') ->
  (tr_ok res' = tr_ok res /\ exists row, row ∈ rows (log s') /\ outcome_row cid (if tr_ok res' then "ok" else "error") row) \/
  (tr_ok res' = false /\ beta_suspended (reg s') = true).
Proof using R_world R_check R_active PreOrder0.
  unfold settle. rewrite bind_gets. cbn zeta. set (res1 := if tr_ok res then res else _).
  assert (tr_ok res1 = tr_ok res) as Hok by (unfold res1; by destruct (tr_ok res) eqn:Hres).
  intros Hr. py_step Hr persisted s1 H1. py_step Hr u s2 H2. destruct persisted; cbn [negb] in Hr.
  - injection Hr as <- <-. left. split; [done|]. apply persist_ok in H1 as (row & Hin & Hid & Hph & Hres).
    exists row. split; [eapply elem_of_prefix; [exact Hin|]|unfold outcome_row; by split_and!].
    apply (gr_rows _ _ _ (call_went _ _ _ _ (keep_check_bound s1 ctx b true) H2)).
  - right. py_step Hr u3 s3 H3. injection H3 as _ <-.
    destruct (owner_policy _); [done|]. by injection Hr as <- <-.
Qed.

(** ** A call *)

(** The grant a call is bound to *)
Definition bound (r : ToolRegistry) (ctx : ToolContext G) : option G := if owner_policy r then cx_owner_grant ctx else None.

(** What a call that entered a body call_went through: on a strict registry, the gate. *)
Record ran_gated (name : string) (args : json) (ctx : ToolContext G) (s s' : State) (en : Entered) : Prop := {
  rg_name : en_tool en = name;
  rg_body : en_model en = false;
  rg_grant : en_grant en = bound (reg s) ctx;
  rg_tool : exists t, dget name (tools (reg s)) = Some t /\ validate_args (t_spec t) args = None /\
    (strict (reg s) = true -> exists cid s1 s2, evolves s s1 /\ evolves s1 s2 /\ R (world s2) (world s') /\
       gated name t args ctx (bound (reg s) ctx) cid s1 s2 /\ en_call en = Some cid /\
       (exists row, row ∈ en_rows en /\ intent_row cid row));
}.

(** How a call ended *)
Definition settled (cid : string) (r : result ToolResult) (s' : State) : Prop := forall res, r = Ok res ->
  (exists row, row ∈ rows (log s') /\ outcome_row cid (if tr_ok res then "ok" else "error") row) \/
  (tr_ok res = false /\ beta_suspended (reg s') = true).

Ltac call_step H x s1 Hx :=
  apply py_bind_cases in H as [(? & Hx & ->)|(x & s1 & Hx & H)].

(** From the dispatch on *)
Lemma body_run name cid t args ctx b (k : ToolResult -> py State ToolResult) s r s' :
  reg_in (reg s) -> dget name (tools (reg s)) = Some t ->
  (forall s0 res, preserves (evolves s0) (k res)) ->
  (forall res s1 res' s2, k res s1 = (Ok res', s2) -> tr_ok res' = true -> tr_ok res = true) ->
  (d ← dispatch name cid t args ctx b; res ← collect name d; _ ← check_bound ctx b true; k res) s = (r, s') ->
  (evolves s s' /\ forall res, r = Ok res -> tr_ok res = false) \/
  exists l, rows (log s) `prefix_of` l /\ grows [mk_Entered name cid b l false] s s' /\
    forall res', r = Ok res' -> exists res s1, k res s1 = (Ok res', s').
Proof using R_world R_check R_live R_active PreOrder0.
  intros Hin Ht Hk Hok Hr. rewrite bind_run in Hr. destruct (dispatch name cid t args ctx b s) as [rd s1] eqn:Hd.
  apply (dispatch_ok _ _ _ _ _ _ _ _ _ Hin Ht) in Hd as (d & -> & Hd).
  assert (evolves s1 s') as E1.
  { eapply call_went, Hr. apply preserves_bind; [apply keep_collect|intros res].
    apply preserves_bind; [apply keep_check_bound|intros _; apply Hk]. }
  destruct Hd as [[E0 [e ->]]|(l & Hl & Hg)].
  - left. split; [by etransitivity|]. intros res' ->. py_step Hr res s2 H2. apply collect_threw in H2.
    py_step Hr u s3 H3. specialize (Hok _ _ _ _ Hr).
    destruct (tr_ok res'); [by rewrite Hok in H2|done].
  - right. exists l. split; [done|]. split; [by eapply (grows_trans [_] [])|].
    intros res' ->. py_step Hr res s2 H2. py_step Hr u s3 H3. by exists res, s3.
Qed.

Lemma bound_ok ctx r s b s' :
  (if owner_policy r then
     match cx_owner_grant ctx with Some g => mret (Some g) | None => raise (pilot "forbidden") end
   else mret None : py State (option G)) s = (Ok b, s') -> b = bound r ctx /\ s' = s.
Proof.
  unfold bound. destruct (owner_policy r); [|by intros [= <- <-]]. by destruct (cx_owner_grant ctx); [intros [= <- <-]|].
Qed.

Lemma settle_success name cid ctx b res s res' s' :
  settle name cid ctx b res s = (Ok res', s') -> tr_ok res' = true -> tr_ok res = true.
Proof using R_world R_check R_active PreOrder0. intros [[Hs _]|[Hs _]]%settle_ok; congruence. Qed.

(** A strict call, once found and validated *)
Lemma strict_call_run name t args ctx s r s' :
  let b := bound (reg s) ctx in
  reg_in (reg s) -> dget name (tools (reg s)) = Some t -> validate_args (t_spec t) args = None ->
  (g ← strict_gate name t args ctx b;
   match g with
   | inl res => mret res
   | inr cid => d ← dispatch name (Some cid) t args ctx b; res ← collect name d; _ ← check_bound ctx b true;
                settle name cid ctx b res
   end) s = (r, s') ->
  (evolves s s' /\ forall res, r = Ok res -> tr_ok res = false) \/
  exists en, grows [en] s s' /\ ran_gated name args ctx s s' en /\ forall cid, en_call en = Some cid -> settled cid r s'.
Proof using R_world R_check R_live R_active R_reserve PreOrder0.
  cbn zeta. set (b := bound (reg s) ctx). intros Hin Ht Hval Hr. rewrite bind_run in Hr.
  pose proof (keep_strict_gate s name t args ctx b s Hin ltac:(reflexivity)) as E1.
  destruct (strict_gate name t args ctx b s) as [[g|e] s1] eqn:Hg; [|by injection Hr as <- <-; left].
  cbn [snd] in E1. apply strict_gate_ok in Hg; [|done]. destruct g as [res|cid].
  { left. injection Hr as <- <-. split; [done|]. by intros res' [= <-]. }
  apply (body_run _ _ t) in Hr as [[E2 Hf]|(l & Hl & Hgr & Hend)].
  - left. split; [by etransitivity|done].
  - right. eexists. split; [eapply (grows_trans [] [_]); [exact E1|exact Hgr]|].
    split; [|intros cid' [= <-] res' Hres'; destruct (Hend _ Hres') as (res & s3 & Hs%settle_ok);
             destruct Hs as [[_ Hs]|Hs]; [by left|by right]].
    split; [done|done|done|]. exists t. split_and!; [done|done|]. intros _. exists cid, s, s1. split_and!; try done; [apply Hgr|].
    destruct (ga_intent _ _ _ _ _ _ _ _ Hg) as (row & Hrow & Hi). exists row. split; [|done]. by eapply elem_of_prefix.
  - by eapply reg_in_grows.
  - by rewrite (same_reg tools _ _ _ E1).
  - intros s0 res. apply keep_settle.
  - intros res s3 res' s4. apply settle_success.
Qed.

(** Every call: it enters no body and reports no success, or enters one body,
    gated if the registry is strict, and then settles it. *)
Lemma call_run name args ctx s r s' :
  reg_in (reg s) -> call name args ctx s = (r, s') ->
  (evolves s s' /\ forall res, r = Ok res -> tr_ok res = false) \/
  exists en, grows [en] s s' /\ ran_gated name args ctx s s' en /\
    (strict (reg s) = true -> forall cid, en_call en = Some cid -> settled cid r s').
Proof using R_world R_check R_live R_active R_reserve PreOrder0.
  intros Hin. unfold call. rewrite bind_gets. intros Hr.
  call_step Hr b s0 Hb.
  { left. split; [|done]. eapply call_went, Hb. walk. }
  apply bound_ok in Hb as [-> ->]. set (b := bound (reg s) ctx) in *.
  assert (forall s0, preserves (evolves s0) match b with
            | Some g => check_owner ctx g false
            | None => raise_when (bool_decide (is_Some (cx_owner_grant ctx))) (pilot "forbidden") end) as Hck by (intros s0; walk).
  call_step Hr u s1 Hc.
  { left. split; [|done]. by eapply call_went, Hc. }
  pose proof (call_went _ _ _ _ (Hck s) Hc) as E1. clear Hc Hck.
  assert (forall A (m : py State A) res, preserves (evolves s1) m -> tr_ok res = false -> (_ ← m; mret res) s1 = (r, s') ->
            evolves s s' /\ forall res, r = Ok res -> tr_ok res = false) as Hfail.
  { intros A m res Hm Hf Hrun. split.
    - etransitivity; [exact E1|]. eapply call_went, Hrun. apply preserves_bind; [done|intros; apply preserves_ret].
    - intros res' ->. py_step Hrun x s2 H2. by injection Hrun as <- <-. }
  destruct (dget name (tools (reg s))) as [t|] eqn:Ht.
  2: { left. eapply Hfail, Hr; [apply keep_audit_call|done]. }
  destruct (validate_args (t_spec t) args) as [v|] eqn:Hval.
  { left. eapply Hfail, Hr; [apply keep_audit_call|done]. }
  clear Hfail. pose proof (reg_in_grows _ _ _ E1 Hin) as Hin1.
  assert (dget name (tools (reg s1)) = Some t) as Ht1 by by rewrite (same_reg tools _ _ _ E1).
  destruct (strict (reg s)) eqn:Hstrict.
  - assert (bound (reg s1) ctx = b) as Hb by by unfold bound; rewrite (same_reg owner_policy _ _ _ E1).
    rewrite <- Hb in Hr. destruct (strict_call_run name t args ctx s1 r s') as [[E2 Hf]|(en & Hgr & Hen & Hset)]; try done.
    + rewrite bind_run. rewrite !bind_run in Hr. by destruct (strict_gate _ _ _ _ _ s1) as [[[]|e] s2].
    + left. split; [by etransitivity|done].
    + right. exists en. split; [by eapply (grows_trans [] [_])|]. split; [|done]. destruct Hen as [Hn Hbody Hgr' (t' & Ht' & Hv' & Hx)].
      split; [done|done|by rewrite Hgr'|]. exists t'. split_and!; [by rewrite (same_reg tools _ _ _ E1) in Ht'|done|]. intros _.
      destruct Hx as (cid & s2 & s3 & E2 & Hx); [by rewrite (same_reg strict _ _ _ E1)|]. rewrite Hb in Hx.
      exists cid, s2, s3. split; [by etransitivity|done].
  - rewrite bind_run in Hr.
    change ((mret None : py State (option (ToolResult + string))) s1) with (Ok None : result (option (ToolResult + string)), s1) in Hr.
    cbn beta iota in Hr. apply (body_run _ _ t _ _ _ (fun res => _ ← audit_call ctx name res; mret res)) in Hr
      as [[E3 Hf]|(l & Hl & Hgr & Hend)]; [| |done|done| |].
    + left. split; [by etransitivity|done].
    + right. eexists. split; [eapply (grows_trans [] [_]); [exact E1|exact Hgr]|]. split; [|done].
      split; [done|done|done|]. exists t. split_and!; congruence.
    + intros s0 res. apply preserves_bind; [apply keep_audit_call|intros; apply preserves_ret].
    + intros res s3 res' s4 Hk Hok. py_step Hk u' s5 H5. by injection Hk as <- <-.
Qed.

End Frame.

(** ** Runs of a registry *)

Inductive reg_op :=
| RRegister (t : Tool)
| RTimeout (positive : Seconds -> bool) (name : string) (seconds : Seconds)
| RCall (name : string) (args : json) (ctx : ToolContext G).

Definition set_reg (r : ToolRegistry) (s : State) : State := mk_State r (log s) (world s) (steps s) (ran s).

Definition reg_exec (s : State) (op : reg_op) : State :=
  match op with
  | RRegister t => match register t (reg s) with Ok r => set_reg r s | Err _ => s end
  | RTimeout positive name seconds => match set_timeout positive name seconds (reg s) with Ok r => set_reg r s | Err _ => s end
  | RCall name args ctx => (call name args ctx s).2
  end.

Definition reg_run (ops : list reg_op) (s : State) : State := foldl reg_exec s ops.

(** With the relation that relates any two worlds *)
Lemma call_run_any name args ctx s r s' :
  call name args ctx s = (r, s') ->
  (grows (fun _ _ => True) [] s s' /\ forall res, r = Ok res -> tr_ok res = false) \/
  exists en, grows (fun _ _ => True) [en] s s' /\ ran_gated (fun _ _ => True) name args ctx s s' en /\
    (strict (reg s) = true -> forall cid, en_call en = Some cid -> settled cid r s').
Proof. by apply call_run. Qed.

(** C14: A strict registry runs a tool body only through its gates.  Whatever the
    tools, policies, other coroutines, SQLite and cancellations do, a call
    enters at most one body, and enters it only if the tool is registered, the
    arguments conform to its schema, the registry was not suspended, the policy
    allowed this very call and the log held an acknowledged intent with the
    call's id; a success is reported only then, and every result returned
    after it is in the log as this call's outcome, or is a failure and leaves
    the registry suspended. *)
Theorem strict_call_gated name args ctx s r s' :
  strict (reg s) = true -> call name args ctx s = (r, s') ->
  (ran s' = ran s /\ forall res, r = Ok res -> tr_ok res = false) \/
  exists t cid held w,
    ran s' = mk_Entered name (Some cid) (bound (reg s) ctx) held false :: ran s /\
    dget name (tools (reg s)) = Some t /\ validate_args (t_spec t) args = None /\
    beta_suspended (reg s) = false /\ allowed_by (reg s) t args ctx w /\
    (exists row, row ∈ held /\ intent_row cid row) /\ settled cid r s'.
Proof.
  intros Hs [[[_ _ _ Hr _] Hf]|(en & Hg & [Hn Hb Hgr (t & Ht & Hv & Hx)] & Hset)]%call_run_any; [by left|right].
  destruct (Hx Hs) as (cid & s1 & s2 & E1 & _ & _ & Hga & Hcid & Hrow).
  exists t, cid, (en_rows en), (world s1). split_and!; try done; [|by eapply suspended_back, ga_live| |by apply Hset].
  - rewrite (gr_ran _ _ _ _ Hg). destruct en. cbn in *. by subst.
  - pose proof (ga_policy _ _ _ _ _ _ _ _ _ Hga) as Hp.
    by rewrite (same_reg _ (fun r => allowed_by r t args ctx (world s1)) _ _ _ E1) in Hp.
Qed.

(** Fail stop: once a strict registry is suspended no call of any later run
    enters a tool body, whatever is registered or called. *)
Theorem suspended_runs_nothing ops s :
  strict (reg s) = true -> beta_suspended (reg s) = true -> ran (reg_run ops s) = ran s.
Proof.
  revert s. induction ops as [|op ops IH]; intros s Hs Hb; [done|].
  assert (strict (reg (reg_exec s op)) = true /\ beta_suspended (reg (reg_exec s op)) = true /\ ran (reg_exec s op) = ran s)
    as (Hs' & Hb' & <-); [|by apply IH].
  destruct op as [t|positive name seconds|name args ctx]; cbn [reg_exec].
  - unfold register. by destruct (dmem _ _).
  - unfold set_timeout. destruct (negb (dmem _ _)); [done|]. by destruct (negb _).
  - destruct (call name args ctx s) as [r s'] eqn:Hc. cbn [snd].
    apply call_run_any in Hc as [[Hg _]|(en & _ & [_ _ _ (t & _ & _ & Hx)] & _)].
    + rewrite (same_reg _ strict _ _ _ Hg) by done. split_and!; [done| |apply (gr_ran _ _ _ _ Hg)].
      by destruct Hg as [[-> | ->] _ _ _ _].
    + exfalso. destruct (Hx Hs) as (cid & s1 & s2 & E1 & _ & _ & Hga & _).
      pose proof (suspended_back _ _ _ _ E1 (ga_live _ _ _ _ _ _ _ _ _ Hga)). congruence.
Qed.
End Registry.
