(* ===== verification/Calculator.v ===== *)
(** * The calculator and clock tools

    [CalculatorTool] of [src/agency/tools/builtin/calculator.py] and
    [UtcTimeTool] of [utc_time.py], as tools of [ToolRegistry].

    [ast_parse] is [ast.parse(text, mode="eval")], by the nodes [_compute] tells
    apart: any other node is [Unsupported] with its children.  A Python int is a
    [Z], a float a binary64 [spec_float]; [float_repr] is [repr].  The operators
    meet only values the evaluator returned, which [evaluates_within] shows are at
    most 1e15, so an int converts to a float exactly. *)
From Stdlib Require Import SpecFloat.
From S2P Require Import Prelude PyStr PyDict PyJson AuditTrail AdmissionModels Tools ToolRegistry.

(** ** Numbers *)

Inductive num := NInt (z : Z) | NFloat (f : spec_float).

Definition float_of_int (z : Z) : spec_float := binary_normalize 53 1024 z 0 false.
Definition to_float (n : num) : spec_float := match n with NInt z => float_of_int z | NFloat f => f end.

Definition MAX_MAGNITUDE : Z := 10 ^ 15.
Definition max_float : spec_float := float_of_int MAX_MAGNITUDE.

(** [math.isfinite]; an int that rounds past the largest float overflows. *)
Definition isfinite (n : num) : result bool :=
  match n with
  | NInt z => _ ← raise_if (2 ^ 1024 - 2 ^ 970 <=? Z.abs z)%Z OverflowError; Ok true
  | NFloat (S754_zero _ | S754_finite _ _ _) => Ok true
  | NFloat _ => Ok false
  end.

(** [abs(n) > 1e15] *)
Definition too_big (n : num) : bool :=
  match n with NInt z => (MAX_MAGNITUDE <? Z.abs z)%Z | NFloat f => SFltb max_float (SFabs f) end.

Definition is_zero (n : num) : bool :=
  match n with NInt z => (z =? 0)%Z | NFloat f => SFeqb f (S754_zero false) end.

(** ** Expressions *)

Inductive constant := CInt (z : Z) | CFloat (f : spec_float) | COther.
Inductive unary := UAdd | USub | UOther.
Inductive binary := Add | Sub | Mult | Div | BOther.

Inductive node :=
| Expression (body : node)
| Constant (c : constant)
| UnaryOp (op : unary) (operand : node)
| BinOp (op : binary) (left right : node)
| Unsupported (children : list node).

(** [sum(1 for _ in ast.walk(parsed))]; an operator is a node. *)
Fixpoint nodes (n : node) : nat :=
  match n with
  | Expression body => S (nodes body)
  | Constant _ => 1
  | UnaryOp _ x => 2 + nodes x
  | BinOp _ x y => 2 + nodes x + nodes y
  | Unsupported l => S (list_sum (map nodes l))
  end.

Definition MAX_CHARS : Z := 120.
Definition MAX_NODES : nat := 64.
Definition MAX_DEPTH : nat := 12.

(** [_InvalidExpression] *)
Definition InvalidExpression (reason : string) : exn := CallbackError reason.

(** The checks of every result *)
Definition checked (r : num) : result num :=
  finite ← isfinite r;
  _ ← raise_if (negb finite) (InvalidExpression "result is not finite");
  _ ← raise_if (too_big r) (InvalidExpression "result out of range");
  Ok r.

(** A literal *)
Definition operand (v : num) : result num :=
  finite ← isfinite v;
  _ ← raise_if (negb finite || too_big v) (InvalidExpression "operand out of range");
  Ok v.

Definition negate (n : num) : num := match n with NInt z => NInt (- z) | NFloat f => NFloat (SFopp f) end.

Definition arith (fz : Z -> Z -> Z) (ff : spec_float -> spec_float -> spec_float) (x y : num) : num :=
  match x, y with
  | NInt a, NInt b => NInt (fz a b)
  | _, _ => NFloat (ff (to_float x) (to_float y))
  end.

Definition apply_binary (op : binary) (x y : num) : result num :=
  match op with
  | Add => Ok (arith Z.add (SFadd 53 1024) x y)
  | Sub => Ok (arith Z.sub (SFsub 53 1024) x y)
  | Mult => Ok (arith Z.mul (SFmul 53 1024) x y)
  | Div =>
      _ ← raise_if (is_zero y) (InvalidExpression "division by zero");
      Ok (NFloat (SFdiv 53 1024 (to_float x) (to_float y)))
  | BOther => Err (InvalidExpression "unsupported syntax")
  end.

(** [_compute] *)
Fixpoint compute (n : node) (depth : nat) : result num :=
  if MAX_DEPTH <? depth then Err (InvalidExpression "expression too complex")
  else
    match n with
    | Expression body => compute body (S depth)
    | Constant (CInt z) => operand (NInt z)
    | Constant (CFloat f) => operand (NFloat f)
    | UnaryOp UAdd x => v ← compute x (S depth); checked v
    | UnaryOp USub x => v ← compute x (S depth); checked (negate v)
    | BinOp BOther _ _ | Constant COther | UnaryOp UOther _ | Unsupported _ =>
        Err (InvalidExpression "unsupported syntax")
    | BinOp op x y =>
        a ← compute x (S depth);
        b ← compute y (S depth);
        r ← apply_binary op a b;
        checked r
    end.

(** ** Typing

    The static type of an expression tells the type of its value, and an
    expression of ints denotes an integer. *)

Inductive ty := TInt | TFloat.

#[export] Instance ty_eq_dec : EqDecision ty.
Proof. solve_decision. Defined.

Definition join (s t : ty) : ty := match s, t with TInt, TInt => TInt | _, _ => TFloat end.

Fixpoint expr_type (n : node) : option ty :=
  match n with
  | Expression body => expr_type body
  | Constant (CInt _) => Some TInt
  | Constant (CFloat _) => Some TFloat
  | UnaryOp (UAdd | USub) x => expr_type x
  | BinOp Div x y => _ ← expr_type x; _ ← expr_type y; Some TFloat
  | BinOp (Add | Sub | Mult) x y => s ← expr_type x; t ← expr_type y; Some (join s t)
  | _ => None
  end.

Definition num_type (v : num) : ty := match v with NInt _ => TInt | NFloat _ => TFloat end.

Fixpoint denote (n : node) : Z :=
  match n with
  | Expression body => denote body
  | Constant (CInt z) => z
  | UnaryOp USub x => - denote x
  | UnaryOp _ x => denote x
  | BinOp Add x y => denote x + denote y
  | BinOp Sub x y => denote x - denote y
  | BinOp Mult x y => denote x * denote y
  | _ => 0
  end%Z.

(** How deep [_compute] goes *)
Fixpoint height (n : node) : nat :=
  match n with
  | Expression body => S (height body)
  | UnaryOp (UAdd | USub) x => S (height x)
  | BinOp (Add | Sub | Mult | Div) x y => S (Nat.max (height x) (height y))
  | _ => 0
  end.

(** Finite and at most 1e15: an integer by its size, a float not infinite, not a
    NaN, and no larger than the float of 1e15. *)
Definition within (v : num) : Prop :=
  match v with
  | NInt z => (Z.abs z <= 10 ^ 15)%Z
  | NFloat (S754_zero _) => True
  | NFloat (S754_finite _ m e) => SFleb (S754_finite false m e) (S754_finite false 8000000000000000 (-3)) = true
  | NFloat _ => False
  end.

(** Neither an infinity nor a NaN *)
Definition finite (v : num) : Prop :=
  match v with NFloat (S754_infinity _ | S754_nan) => False | _ => True end.

(** The integer zero and the two zeros of the floats *)
Definition zero (v : num) : Prop := v = NInt 0 \/ exists s, v = NFloat (S754_zero s).

(** The value is of the static type, and the integer an int expression denotes. *)
Definition has_meaning (n : node) (v : num) : Prop :=
  expr_type n = Some (num_type v) /\ match v with NInt z => z = denote n | NFloat _ => True end.

(** ** The meaning of an expression

    [applies op x y r]: the operator relates the operands to the result, exactly
    on two ints, rounded to the nearest binary64 when one of them is a float; a
    quotient has a divisor that is not zero, and is a float. *)
Definition mixed (x y : num) : Prop := num_type x = TFloat \/ num_type y = TFloat.

Inductive applies : binary -> num -> num -> num -> Prop :=
| Add_ints a b : applies Add (NInt a) (NInt b) (NInt (a + b))
| Sub_ints a b : applies Sub (NInt a) (NInt b) (NInt (a - b))
| Mult_ints a b : applies Mult (NInt a) (NInt b) (NInt (a * b))
| Add_floats x y : mixed x y -> applies Add x y (NFloat (SFadd 53 1024 (to_float x) (to_float y)))
| Sub_floats x y : mixed x y -> applies Sub x y (NFloat (SFsub 53 1024 (to_float x) (to_float y)))
| Mult_floats x y : mixed x y -> applies Mult x y (NFloat (SFmul 53 1024 (to_float x) (to_float y)))
| Quotient x y : ~ zero y -> applies Div x y (NFloat (SFdiv 53 1024 (to_float x) (to_float y))).

(** [evaluates d n v]: at depth [d], [n] has the value [v]. *)
Inductive evaluates : nat -> node -> num -> Prop :=
| Eval_expression d n v : d <= 12 -> evaluates (S d) n v -> evaluates d (Expression n) v
| Eval_int d z : d <= 12 -> within (NInt z) -> evaluates d (Constant (CInt z)) (NInt z)
| Eval_float d f : d <= 12 -> within (NFloat f) -> evaluates d (Constant (CFloat f)) (NFloat f)
| Eval_plus d n v : d <= 12 -> evaluates (S d) n v -> evaluates d (UnaryOp UAdd n) v
| Eval_minus_int d n z : d <= 12 -> evaluates (S d) n (NInt z) -> evaluates d (UnaryOp USub n) (NInt (- z))
| Eval_minus_float d n f :
    d <= 12 -> evaluates (S d) n (NFloat f) -> evaluates d (UnaryOp USub n) (NFloat (SFopp f))
| Eval_binary d op m n x y r :
    d <= 12 -> evaluates (S d) m x -> evaluates (S d) n y -> applies op x y r -> within r ->
    evaluates d (BinOp op m n) r.

(** Syntax the calculator does not know *)
Inductive unsupported : node -> Prop :=
| Other_constant : unsupported (Constant COther)
| Other_unary n : unsupported (UnaryOp UOther n)
| Other_binary m n : unsupported (BinOp BOther m n)
| Other_node l : unsupported (Unsupported l).

(** The first integer [float] refuses *)
Definition FLOAT_LIMIT : Z := 2 ^ 1024 - 2 ^ 970.

(** [fails d n e]: at depth [d], [n] has no value, for the reason [e]; operands are
    looked at from the left, and the operator only when both have a value. *)
Inductive fails : nat -> node -> exn -> Prop :=
| Fail_depth d n : 12 < d -> fails d n (InvalidExpression "expression too complex")
| Fail_syntax d n : d <= 12 -> unsupported n -> fails d n (InvalidExpression "unsupported syntax")
| Fail_huge d z : d <= 12 -> (FLOAT_LIMIT <= Z.abs z)%Z -> fails d (Constant (CInt z)) OverflowError
| Fail_int d z :
    d <= 12 -> (10 ^ 15 < Z.abs z < FLOAT_LIMIT)%Z ->
    fails d (Constant (CInt z)) (InvalidExpression "operand out of range")
| Fail_float d f :
    d <= 12 -> ~ within (NFloat f) -> fails d (Constant (CFloat f)) (InvalidExpression "operand out of range")
| Fail_expression d n e : d <= 12 -> fails (S d) n e -> fails d (Expression n) e
| Fail_unary d op n e : d <= 12 -> op <> UOther -> fails (S d) n e -> fails d (UnaryOp op n) e
| Fail_left d op m n e : d <= 12 -> op <> BOther -> fails (S d) m e -> fails d (BinOp op m n) e
| Fail_right d op m n x e :
    d <= 12 -> op <> BOther -> evaluates (S d) m x -> fails (S d) n e -> fails d (BinOp op m n) e
| Fail_zero d m n x y :
    d <= 12 -> evaluates (S d) m x -> evaluates (S d) n y -> zero y ->
    fails d (BinOp Div m n) (InvalidExpression "division by zero")
| Fail_infinite d op m n x y r :
    d <= 12 -> evaluates (S d) m x -> evaluates (S d) n y -> applies op x y r -> ~ finite r ->
    fails d (BinOp op m n) (InvalidExpression "result is not finite")
| Fail_range d op m n x y r :
    d <= 12 -> evaluates (S d) m x -> evaluates (S d) n y -> applies op x y r -> finite r -> ~ within r ->
    fails d (BinOp op m n) (InvalidExpression "result out of range").

#[export] Instance within_dec v : Decision (within v).
Proof. destruct v as [z | [| | |]]; apply _. Defined.

#[export] Instance finite_dec v : Decision (finite v).
Proof. destruct v as [z | [| | |]]; apply _. Defined.

#[export] Instance zero_dec v : Decision (zero v).
Proof.
  destruct v as [z | f].
  - destruct (decide (z = 0%Z)) as [-> | H]; [by left; left | right; intros [[=] | [? [=]]]; done].
  - destruct f; [left; right; eauto | right; intros [[=] | [? [=]]]..].
Defined.

Lemma is_zero_spec v : is_zero v = bool_decide (zero v).
Proof.
  destruct v as [z | f].
  - cbn. destruct (Z.eqb_spec z 0) as [-> | H]; symmetry; [by apply bool_decide_eq_true; left|].
    apply bool_decide_eq_false. intros [[=] | [? [=]]]; done.
  - destruct (bool_decide_reflect (zero (NFloat f))) as [[[=] | [s [= ->]]] | H]; [done|].
    destruct f as [s | [] | | [] m e]; try done. exfalso. apply H. right. eauto.
Qed.

Lemma float_le_spec m e m' e' :
  SFltb (S754_finite false m' e') (S754_finite false m e) = negb (SFleb (S754_finite false m e) (S754_finite false m' e')).
Proof.
  unfold SFltb, SFleb, SFcompare. rewrite (Z.compare_antisym e e'). pose proof (Pos.compare_cont_antisym m m' Eq) as Hm. cbn in Hm.
  destruct (e ?= e')%Z; cbn; [|done..]. rewrite <- Hm. by destruct (Pos.compare_cont Eq m m').
Qed.

Lemma max_float_value : max_float = S754_finite false 8000000000000000 (-3).
Proof. vm_compute. reflexivity. Qed.

Lemma too_big_spec v : finite v -> too_big v = negb (bool_decide (within v)).
Proof.
  destruct v as [z | [s | s | | s m e]]; intros H; cbn in H; try done.
  - unfold too_big. rewrite Z.ltb_antisym. f_equal.
    destruct (bool_decide_reflect (within (NInt z))) as [Hw | Hw]; [by apply Z.leb_le | by apply Z.leb_nle].
  - unfold too_big. rewrite max_float_value. cbn [SFabs]. rewrite float_le_spec. f_equal.
    destruct (bool_decide_reflect (within (NFloat (S754_finite s m e)))) as [Hw | Hw]; [done | by apply not_true_is_false].
Qed.

(** An int that does not overflow; every float is one. *)
Definition representable (v : num) : Prop := match v with NInt z => (Z.abs z < FLOAT_LIMIT)%Z | NFloat _ => True end.

Lemma isfinite_spec v : representable v -> isfinite v = Ok (bool_decide (finite v)).
Proof.
  destruct v as [z | [| | |]]; intros H; try done. unfold isfinite, raise_if.
  change (2 ^ 1024 - 2 ^ 970)%Z with FLOAT_LIMIT. by rewrite (proj2 (Z.leb_gt _ _) H).
Qed.

Lemma within_finite v : within v -> finite v.
Proof. by destruct v as [| []]. Qed.

Lemma small_representable z : (Z.abs z <= 10 ^ 30)%Z -> representable (NInt z).
Proof. intros H. eapply Z.le_lt_trans; [exact H | by vm_compute]. Qed.

Lemma within_representable v : within v -> representable v.
Proof. destruct v; [|done]. intros H. apply small_representable. unfold within in H. lia. Qed.

(** The cases of a result: in range, finite, or neither *)
Ltac by_range r H :=
  rewrite (isfinite_spec r H); cbn -[within too_big];
  destruct (decide (finite r)) as [Hf | Hf];
    [ rewrite bool_decide_eq_true_2, too_big_spec by done; cbn -[within];
      destruct (decide (within r)) as [Hw | Hw]; [by rewrite bool_decide_eq_true_2 | by rewrite bool_decide_eq_false_2]
    | rewrite bool_decide_eq_false_2 by done; rewrite decide_False; [done | by intros ?%within_finite] ].

Lemma checked_spec r :
  representable r ->
  checked r = if decide (within r) then Ok r
              else Err (InvalidExpression (if decide (finite r) then "result out of range" else "result is not finite")).
Proof.
  intros H. unfold checked. by_range r H.
Qed.

Lemma operand_spec r :
  representable r -> operand r = if decide (within r) then Ok r else Err (InvalidExpression "operand out of range").
Proof.
  intros H. unfold operand. by_range r H.
Qed.

Lemma checked_within r : within r -> checked r = Ok r.
Proof. intros H. rewrite checked_spec by by apply within_representable. by rewrite decide_True. Qed.

Lemma within_negate v : within v -> within (negate v).
Proof. destruct v as [z | [| | |]]; try done. unfold within, negate. by rewrite Z.abs_opp. Qed.

(** An operator on values within range has a result that does not overflow. *)
Lemma applies_apply op x y r : applies op x y r -> apply_binary op x y = Ok r /\ op <> BOther.
Proof.
  destruct 1 as [| | | x y H | x y H | x y H | x y H]; split; try done; cbn;
    [destruct x, y, H; done..|]. unfold raise_if. by rewrite is_zero_spec, bool_decide_eq_false_2.
Qed.

Lemma applies_representable op x y r : applies op x y r -> within x -> within y -> representable r.
Proof. destruct 1; intros Hx Hy; try done; apply small_representable; unfold within in *; nia. Qed.

Lemma applies_total op x y : op <> BOther -> (op = Div /\ zero y) \/ exists r, applies op x y r.
Proof.
  intros Hop. destruct (decide (zero y)) as [Hz | Hz], op, x, y; try done;
    first [left; split; done
          | right; eexists; first [constructor; fail | constructor; solve [done | by left | by right]]].
Qed.

Lemma evaluates_within d n v : evaluates d n v -> within v.
Proof. induction 1; try done; [by apply (within_negate (NInt z)) | by apply (within_negate (NFloat f))]. Qed.

(** [_compute] on a binary node of a known operator *)
Lemma compute_binary op m n d :
  op <> BOther -> d <= 12 ->
  compute (BinOp op m n) d = (a ← compute m (S d); b ← compute n (S d); r ← apply_binary op a b; checked r).
Proof.
  intros Hop Hd. assert ((MAX_DEPTH <? d) = false) as E by by apply Nat.ltb_ge.
  destruct op; cbn [compute]; by rewrite E.
Qed.

Ltac shallow d Hd := rewrite (proj2 (Nat.ltb_ge MAX_DEPTH d) Hd).

Lemma evaluates_compute d n v : evaluates d n v -> compute n d = Ok v.
Proof.
  induction 1 as [d n v Hd H IH | d z Hd H | d f Hd H | d n v Hd H IH | d n z Hd H IH | d n f Hd H IH
                 | d op m n x y r Hd Hx IHx Hy IHy Ha Hr];
    [cbn [compute]; shallow d Hd..|].
  - done.
  - rewrite operand_spec by by apply within_representable. by rewrite decide_True.
  - rewrite operand_spec by done. by rewrite decide_True.
  - rewrite IH. cbn -[checked]. eapply checked_within, evaluates_within, H.
  - rewrite IH. cbn -[checked]. apply checked_within. apply (within_negate (NInt z)). by eapply evaluates_within.
  - rewrite IH. cbn -[checked]. apply checked_within. apply (within_negate (NFloat f)). by eapply evaluates_within.
  - destruct (applies_apply _ _ _ _ Ha) as [Hb Hop]. rewrite compute_binary by done. rewrite IHx. cbn -[checked]. rewrite IHy.
    cbn -[checked]. rewrite Hb. cbn -[checked]. by apply checked_within.
Qed.

Lemma fails_compute d n e : fails d n e -> compute n d = Err e.
Proof.
  induction 1 as [d n Hd | d n Hd H | d z Hd H | d z Hd H | d f Hd H | d n e Hd H IH | d op n e Hd Hop H IH
                 | d op m n e Hd Hop H IH | d op m n x e Hd Hop Hx H IH | d m n x y Hd Hx Hy Hz
                 | d op m n x y r Hd Hx Hy Ha Hr | d op m n x y r Hd Hx Hy Ha Hf Hr].
  - assert ((MAX_DEPTH <? d) = true) as Hb by by apply Nat.ltb_lt. destruct n; cbn [compute]; by rewrite Hb.
  - destruct H; cbn [compute]; by shallow d Hd.
  - cbn [compute]. shallow d Hd. unfold operand, isfinite, raise_if.
    change (2 ^ 1024 - 2 ^ 970)%Z with FLOAT_LIMIT. by rewrite (proj2 (Z.leb_le _ _) H).
  - cbn [compute]. shallow d Hd. rewrite operand_spec by (unfold representable; clear -H; lia).
    rewrite decide_False; [done|]. unfold within. lia.
  - cbn [compute]. shallow d Hd. rewrite operand_spec by done. by rewrite decide_False.
  - cbn [compute]. by shallow d Hd.
  - destruct op; [..|done]; cbn [compute]; shallow d Hd; by rewrite IH.
  - rewrite compute_binary by done. by rewrite IH.
  - rewrite compute_binary by done. rewrite (evaluates_compute _ _ _ Hx). cbn. by rewrite IH.
  - rewrite compute_binary, (evaluates_compute _ _ _ Hx) by done. cbn -[checked]. rewrite (evaluates_compute _ _ _ Hy). cbn -[checked].
    unfold raise_if. by rewrite is_zero_spec, bool_decide_eq_true_2.
  - destruct (applies_apply _ _ _ _ Ha) as [Hb Hop].
    rewrite compute_binary, (evaluates_compute _ _ _ Hx) by done. cbn -[checked]. rewrite (evaluates_compute _ _ _ Hy). cbn -[checked].
    rewrite Hb. cbn -[checked]. rewrite checked_spec by eauto using applies_representable, evaluates_within.
    rewrite decide_False by by intros ?%within_finite. by rewrite decide_False.
  - destruct (applies_apply _ _ _ _ Ha) as [Hb Hop].
    rewrite compute_binary, (evaluates_compute _ _ _ Hx) by done. cbn -[checked]. rewrite (evaluates_compute _ _ _ Hy). cbn -[checked].
    rewrite Hb. cbn -[checked]. rewrite checked_spec by eauto using applies_representable, evaluates_within.
    rewrite decide_False by done. by rewrite decide_True.
Qed.

(** Every expression has a value at a depth, or fails there. *)
Definition settled (d : nat) (n : node) : Prop := (exists v, evaluates d n v) \/ exists e, fails d n e.

#[local] Hint Constructors evaluates fails unsupported : calc.

Lemma constant_settled d c : d <= 12 -> settled d (Constant c).
Proof.
  intros Hd. destruct c as [z | f |]; [| |right; eauto with calc].
  - destruct (decide (within (NInt z))) as [H | H]; [left; eauto with calc|]. right. unfold within in H.
    destruct (Z.le_gt_cases FLOAT_LIMIT (Z.abs z)); eexists; [by apply Fail_huge | apply Fail_int; [done | lia]].
  - destruct (decide (within (NFloat f))); [left | right]; eauto with calc.
Qed.

Lemma binary_settled d op m n :
  d <= 12 -> settled (S d) m -> settled (S d) n -> settled d (BinOp op m n).
Proof.
  intros Hd Hm Hn. assert (op = BOther \/ op <> BOther) as [-> | Hop] by (destruct op; auto); [right; eauto with calc|].
  destruct Hm as [[x Hx] | [e He]]; [|right; eauto with calc].
  destruct Hn as [[y Hy] | [e He]]; [|right; eauto with calc].
  destruct (applies_total op x y Hop) as [[-> Hz] | [r Hr]]; [right; eauto with calc|].
  destruct (decide (within r)); [left; eauto with calc|].
  right. destruct (decide (finite r)); eauto with calc.
Qed.

Lemma evaluates_or_fails n : forall d, settled d n.
Proof.
  induction n as [n IH | c | op x IH | op x IHx y IHy | l]; intros d;
    (destruct (Nat.le_gt_cases d 12) as [Hd | Hd]; [|right; eauto with calc]).
  - destruct (IH (S d)) as [[v H] | [e H]]; [left | right]; eauto with calc.
  - by apply constant_settled.
  - destruct op; [| |right; eauto with calc];
      (destruct (IH (S d)) as [[[z | f] H] | [e H]]; [left; eauto with calc..|]);
      right; eexists; apply Fail_unary; done.
  - by apply binary_settled.
  - right. eauto with calc.
Qed.

Lemma compute_iff n d :
  (forall v, compute n d = Ok v <-> evaluates d n v) /\ (forall e, compute n d = Err e <-> fails d n e).
Proof.
  split; intros r; (split; [|first [apply evaluates_compute | apply fails_compute]]); intros Hr;
    (destruct (evaluates_or_fails n d) as [[v H] | [e H]];
     [pose proof (evaluates_compute _ _ _ H) | pose proof (fails_compute _ _ _ H)]); congruence.
Qed.

(** The tool's own reason is none of the evaluator's. *)
Lemma fails_reason d n e : fails d n e -> e <> CallbackError "invalid request".
Proof. by induction 1. Qed.

Lemma applies_meaning op m n x y r :
  applies op x y r -> has_meaning m x -> has_meaning n y -> has_meaning (BinOp op m n) r.
Proof.
  intros H [Tx Mx] [Ty My]. unfold has_meaning.
  destruct H as [| | | x y H | x y H | x y H | x y H]; cbn in *; rewrite Tx, Ty; cbn; try (split; congruence);
    (split; [|done]); destruct x, y; cbn; try done; by destruct H.
Qed.

Lemma evaluates_meaning d n v : evaluates d n v -> has_meaning n v /\ within v /\ height n + d <= 12.
Proof.
  intros H. split; [|split; [by eapply evaluates_within|]].
  - induction H; try done; try (unfold has_meaning in *; cbn in *; intuition congruence).
    by eapply applies_meaning.
  - induction H as [| | | | | | d op m n x y r Hd Hx IHx Hy IHy Ha Hr]; cbn; try lia. destruct Ha; lia.
Qed.

(** C22: The calculator computes what its expressions mean. _compute returns a value exactly when the expression has
    one by the rules [evaluates]: literals and intermediate results finite and at most 1e15 in magnitude, nesting at
    most 12, int sums, differences and products exact, mixed ones and every quotient the binary64 ones, no quotient by
    zero. It raises exactly when the rules [fails] say so, and for the reason of the leftmost failure. A value is of
    the static type of the expression, and an expression of ints without division gives the integer it denotes. *)
Theorem compute_typed n d :
  (forall v, compute n d = Ok v <-> evaluates d n v) /\
  (forall e, compute n d = Err e <-> fails d n e) /\
  (forall v, compute n d = Ok v -> has_meaning n v /\ within v /\ height n + d <= 12).
Proof.
  destruct (compute_iff n d) as [Hv He]. split; [done | split; [done|]].
  intros v H%Hv. by eapply evaluates_meaning.
Qed.

(** ** The tools *)

(** A character of [[0-9.eE+*/()\s-]] *)
Definition calculator_char (c : ascii) : bool :=
  is_digit c || is_space c || bool_decide (c ∈ [".";"e";"E";"+";"*";"/";"(";")";"-"]%char).

(** The scan of the parentheses: [None] when they nest deeper than 11 *)
Fixpoint nesting_ok (l : chars) (nesting : Z) : bool :=
  match l with
  | [] => true
  | c :: l' =>
      if Ascii.eqb c "(" then (nesting + 1 <=? 11)%Z && nesting_ok l' (nesting + 1)
      else if Ascii.eqb c ")" then nesting_ok l' (nesting - 1)
      else nesting_ok l' nesting
  end.

Section Tools.
Context {G W Seconds : Type}.
Context (ast_parse : string -> result node) (float_repr : spec_float -> string).

Definition failure (name reason : string) : ToolResult := mk_Result name false JNull (Some (Message reason)) 0 [].

Definition json_of (n : num) : json := match n with NInt z => JInt z | NFloat f => JFloat (float_repr f) end.

(** The [try] of [run]; exceptions of the parser are [SyntaxError]s and the like. *)
Definition evaluate (expression : string) : result num + exn :=
  match ast_parse (py_strip expression) with
  | Err e => inr e
  | Ok parsed =>
      inl (_ ← raise_if (MAX_NODES <? nodes parsed) (InvalidExpression "expression too complex"); compute parsed 0)
  end.

(** [CalculatorTool.run] *)
Definition calculate (args : json) : ToolResult :=
  let failed reason := failure "calculator" ("calculator: " +:+ reason)%string in
  match args with
  | JObj [(k, JStr expression)] =>
      if negb (String.eqb k "expression") || is_blank expression then failed "invalid request"%string
      else if (MAX_CHARS <? py_len expression)%Z then failed "expression too long"%string
      else if negb (forallb calculator_char (to_chars expression)) then failed "unsupported syntax"%string
      else if negb (nesting_ok (to_chars expression) 0) then failed "expression too complex"%string
      else
        match evaluate expression with
        | inr _ => failed "unsupported syntax"%string
        | inl (Err (CallbackError reason)) => failed reason
        | inl (Err _) => failed "unsupported syntax"%string
        | inl (Ok v) =>
            mk_Result "calculator" true (JObj [("expression", JStr expression); ("result", json_of v)]%string) None 0
              [("expression_chars"%string, JInt (py_len expression))]
        end
  | _ => failed "invalid request"%string
  end.

Definition calculator_spec : ToolSpec :=
  mk_ToolSpec "calculator" "Calculate bounded arithmetic (+, -, *, /, parentheses)."
    (Some (Schema (Some (OneType "object")) [("expression", Some (Schema (Some (OneType "string")) [] [] false None))]
             ["expression"] true None)) READ_ONLY.

Definition CalculatorTool : Tool (G:=G) (W:=W) (Seconds:=Seconds) :=
  mk_Tool calculator_spec (fun _ args _ w => (Returned (calculate args), w)).

(** [UtcTimeTool.run]; [clock] is what the clock returns or raises, and
    [astimezone_utc] the same moment in UTC. *)
Context (clock : W -> result stamp * W) (astimezone_utc : stamp -> stamp).

Definition tell_time (args : json) (w : W) : ToolResult * W :=
  match args with
  | JObj [] =>
      let '(moment, w') := clock w in
      match moment with
      | Ok m => if bool_decide (is_Some (utcoffset m)) then
                  (mk_Result "utc_time" true
                     (JObj [("utc", JStr (isoformat (astimezone_utc m))); ("tz", JStr "UTC")]%string) None 0 [], w')
                else (failure "utc_time" "utc_time: clock unavailable", w')
      | Err _ => (failure "utc_time" "utc_time: clock unavailable", w')
      end
  | _ => (failure "utc_time" "utc_time: invalid request", w)
  end.

Definition utc_time_spec : ToolSpec :=
  mk_ToolSpec "utc_time" "Return the current UTC timestamp in ISO-8601 format."
    (Some (Schema (Some (OneType "object")) [] [] true None)) READ_ONLY.

Definition UtcTimeTool : Tool (G:=G) (W:=W) (Seconds:=Seconds) :=
  mk_Tool utc_time_spec (fun _ args _ w => let '(r, w') := tell_time args w in (Returned r, w')).
(** The owner policy lets through only arguments the tool reads. *)
Lemma owner_args_request args :
  owner_args "calculator" args = true ->
  exists e, args = [("expression"%string, JStr e)] /\ is_blank e = false /\ (py_len e <= MAX_CHARS)%Z.
Proof.
  unfold owner_args. cbn. destruct args as [|[k []] []]; try done.
  rewrite !andb_true_iff, negb_true_iff, String.eqb_eq, Z.leb_le. intros [[-> ?] ?]. eauto.
Qed.

(** An accepted request is answered with the value of the parsed expression, of
    its type and within 1e15, or with a reason; nothing is raised. *)
Lemma calculate_answer e :
  owner_args "calculator" [("expression"%string, JStr e)] = true ->
  let r := calculate (JObj [("expression"%string, JStr e)]) in
  (exists parsed v, ast_parse (py_strip e) = Ok parsed /\ nodes parsed <= MAX_NODES /\
     compute parsed 0 = Ok v /\ has_meaning parsed v /\ within v /\
     r = mk_Result "calculator" true (JObj [("expression", JStr e); ("result", json_of v)]%string) None 0
           [("expression_chars"%string, JInt (py_len e))]) \/
  exists reason, r = failure "calculator" reason /\
    reason <> "calculator: invalid request"%string.
Proof.
  intros (e' & He & Hb & Hl)%owner_args_request. simplify_eq He. intros <-. cbn. rewrite Hb.
  assert ((MAX_CHARS <? py_len e)%Z = false) as -> by (apply Z.ltb_ge; lia).
  assert (forall s, String.eqb s "invalid request" = false -> ("calculator: " +:+ s)%string <> "calculator: invalid request"%string)
    as Hne by (intros s Hs%String.eqb_neq Heq; apply Hs; by simplify_eq Heq).
  destruct (forallb _ _); cbn; [|right; eexists; split; [done | by apply Hne]].
  destruct (nesting_ok _ _); cbn; [|right; eexists; split; [done | by apply Hne]].
  unfold evaluate. destruct (ast_parse _) as [parsed | x] eqn:Hp; [|right; eexists; split; [done | by apply Hne]].
  unfold raise_if.
  destruct (MAX_NODES <? nodes parsed) eqn:Hn; cbn -[MAX_NODES]; [right; eexists; split; [done | by apply Hne]|].
  apply Nat.ltb_ge in Hn.
  destruct (evaluates_or_fails parsed 0) as [[v Hv] | [e' Hf]].
  - left. rewrite (evaluates_compute _ _ _ Hv). destruct (evaluates_meaning _ _ _ Hv) as (? & ? & _).
    by exists parsed, v; rewrite ?(evaluates_compute _ _ _ Hv).
  - right. rewrite (fails_compute _ _ _ Hf). apply fails_reason in Hf.
    destruct e' as [| | | | | | | | | reason]; try (eexists; split; [done | by apply Hne]).
    eexists; split; [done|]. apply Hne, String.eqb_neq. congruence.
Qed.

End Tools.

(** ** Examples *)

Example seven_halves :
  compute (Expression (BinOp Div (Constant (CInt 7)) (Constant (CInt 2)))) 0 =
  Ok (NFloat (S754_finite false 7881299347898368 (-51))).
Proof. vm_compute. reflexivity. Qed.

Example int_product :
  compute (Expression (BinOp Mult (Constant (CInt 2)) (UnaryOp USub (Constant (CInt 21))))) 0 = Ok (NInt (-42)).
Proof. vm_compute. reflexivity. Qed.

Example too_large :
  compute (BinOp Mult (Constant (CInt (10 ^ 8))) (Constant (CInt (10 ^ 8)))) 0 =
  Err (InvalidExpression "result out of range").
Proof. vm_compute. reflexivity. Qed.

Example division_by_negative_zero :
  compute (BinOp Div (Constant (CInt 1)) (UnaryOp USub (Constant (CFloat (S754_zero false))))) 0 =
  Err (InvalidExpression "division by zero").
Proof. vm_compute. reflexivity. Qed.
