(* ===== verification/JsonText.v ===== *)
(** * Reading JSON text

    [json.loads] on strings of [PyStr], and [_extract_json] of
    [src/agency/tools/driver.py].

    [parse_float] is [repr(float(text))], which the C library computes.  [limit]
    is the number of nested arrays and objects the interpreter's stack allows;
    beyond it [json.loads] raises [RecursionError].  A [\u] escape beyond
    Latin-1, whose string the model has no value for, ends the parse with
    [NotLatin1]. *)
From S2P Require Import Prelude PyStr PyDict PyJson.

Definition RecursionError : exn := CallbackError "RecursionError".
Definition NotLatin1 : exn := CallbackError "NotLatin1".

(** ** Tokens *)

Definition is_ws (c : ascii) : bool := bool_decide (code c ∈ [32; 9; 10; 13]%N).
Definition skip_ws : chars -> chars := drop_while is_ws.

Definition hex_value (c : ascii) : option N :=
  if is_digit c then Some (code c - 48)%N
  else if in_range 97 102 c then Some (code c - 87)%N
  else if in_range 65 70 c then Some (code c - 55)%N
  else None.

(** The character of [\uXXXX] *)
Definition unicode_escape (h1 h2 h3 h4 : ascii) : result ascii :=
  match hex_value h1, hex_value h2, hex_value h3, hex_value h4 with
  | Some a, Some b, Some c, Some d =>
      let n := (((a * 16 + b) * 16 + c) * 16 + d)%N in
      if (n <? 256)%N then Ok (ascii_of_N n) else Err NotLatin1
  | _, _, _, _ => Err ValueError
  end.

(** The character of [\e] *)
Definition simple_escape (e : ascii) : option ascii :=
  let n := code e in
  if (n =? 34)%N || (n =? 92)%N || (n =? 47)%N then Some e
  else if (n =? 98)%N then Some (ascii_of_N 8)
  else if (n =? 102)%N then Some (ascii_of_N 12)
  else if (n =? 110)%N then Some (ascii_of_N 10)
  else if (n =? 114)%N then Some (ascii_of_N 13)
  else if (n =? 116)%N then Some (ascii_of_N 9)
  else None.

(** [scanstring], after the opening quote: the string and what follows *)
Fixpoint parse_string (l : chars) : result (chars * chars) :=
  match l with
  | [] => Err ValueError
  | c :: l1 =>
      if (code c =? 34)%N then Ok ([], l1)
      else if (code c =? 92)%N then
        match l1 with
        | [] => Err ValueError
        | e :: l2 =>
            if (code e =? 117)%N then
              match l2 with
              | h1 :: h2 :: h3 :: h4 :: l3 =>
                  x ← unicode_escape h1 h2 h3 h4; r ← parse_string l3; Ok (x :: r.1, r.2)
              | _ => Err ValueError
              end
            else
              match simple_escape e with
              | Some x => r ← parse_string l2; Ok (x :: r.1, r.2)
              | None => Err ValueError
              end
        end
      else if (code c <? 32)%N then Err ValueError
      else r ← parse_string l1; Ok (c :: r.1, r.2)
  end.

(** The longest run of digits, and what follows *)
Fixpoint span_digits (l : chars) : chars * chars :=
  match l with
  | c :: l' => if is_digit c then let r := span_digits l' in (c :: r.1, r.2) else ([], l)
  | [] => ([], [])
  end.

(** An integer without leading zeros *)
Definition match_int (l : chars) : option (chars * chars) :=
  match l with
  | c :: l' => if (code c =? 48)%N then Some ([c], l')
               else if is_digit c then Some (span_digits l) else None
  | [] => None
  end.

(** An optional fraction *)
Definition match_frac (l : chars) : chars * chars :=
  match l with
  | c :: l' => if (code c =? 46)%N then
                 match span_digits l' with ([], _) => ([], l) | (ds, r) => (c :: ds, r) end
               else ([], l)
  | [] => ([], [])
  end.

Definition is_sign (c : ascii) : bool := (code c =? 43)%N || (code c =? 45)%N.

(** An optional exponent *)
Definition match_exp (l : chars) : chars * chars :=
  match l with
  | c :: l' =>
      if (code c =? 101)%N || (code c =? 69)%N then
        let sl := match l' with s :: l2 => if is_sign s then ([s], l2) else ([], l') | [] => ([], []) end in
        match span_digits sl.2 with ([], _) => ([], l) | (ds, r) => (c :: sl.1 ++ ds, r) end
      else ([], l)
  | [] => ([], [])
  end.

Record number := mk_number { nu_neg : bool; nu_int : chars; nu_frac : chars; nu_exp : chars }.

Definition number_text (n : number) : chars :=
  (if nu_neg n then ["-"%char] else []) ++ nu_int n ++ nu_frac n ++ nu_exp n.

(** [NUMBER_RE] *)
Definition match_number (l : chars) : option (number * chars) :=
  let nl := match l with c :: l' => if (code c =? 45)%N then (true, l') else (false, l) | [] => (false, []) end in
  match match_int nl.2 with
  | None => None
  | Some (i, l1) =>
      let '(f, l2) := match_frac l1 in
      let '(e, l3) := match_exp l2 in
      Some (mk_number nl.1 i f e, l3)
  end.

Definition digits_value (l : chars) : N := fold_left (fun n c => (n * 10 + (code c - 48))%N) l 0%N.

(** [sys.get_int_max_str_digits()] *)
Definition MAX_STR_DIGITS : nat := N.to_nat 4300.

(** A literal, if the text starts with it *)
Fixpoint strip_literal (lit l : chars) : option chars :=
  match lit, l with
  | [], _ => Some l
  | a :: lit', c :: l' => if Ascii.eqb a c then strip_literal lit' l' else None
  | _ :: _, [] => None
  end.

Definition literals : list (string * json) :=
  [("null", JNull); ("true", JBool true); ("false", JBool false);
   ("NaN", JFloat "nan"); ("Infinity", JFloat "inf"); ("-Infinity", JFloat "-inf")]%string.

Fixpoint match_literal (lits : list (string * json)) (l : chars) : option (json * chars) :=
  match lits with
  | [] => None
  | (t, v) :: lits' => match strip_literal (to_chars t) l with Some r => Some (v, r) | None => match_literal lits' l end
  end.

(** ** Values *)

Section Loads.
Context (parse_float : string -> string).

Definition number_value (n : number) : result json :=
  match nu_frac n, nu_exp n with
  | [], [] =>
      _ ← raise_if (MAX_STR_DIGITS <? length (nu_int n)) ValueError;
      let z := Z.of_N (digits_value (nu_int n)) in Ok (JInt (if nu_neg n then (- z)%Z else z))
  | _, _ => Ok (JFloat (parse_float (of_chars (number_text n))))
  end.

(** The members of an object, from its first key, and the elements of an array;
    [n] is at least the number of those to come. *)
Fixpoint parse_members (value : chars -> result (json * chars)) (n : nat) (d : list (string * json)) (l : chars)
    : result (json * chars) :=
  match n, l with
  | S n', c :: l1 =>
      if (code c =? 34)%N then
        k ← parse_string l1;
        match skip_ws k.2 with
        | c2 :: l2 =>
            if (code c2 =? 58)%N then
              v ← value (skip_ws l2);
              let d' := dset (of_chars k.1) v.1 d in
              match skip_ws v.2 with
              | c3 :: l3 =>
                  if (code c3 =? 125)%N then Ok (JObj d', l3)
                  else if (code c3 =? 44)%N then parse_members value n' d' (skip_ws l3)
                  else Err ValueError
              | [] => Err ValueError
              end
            else Err ValueError
        | [] => Err ValueError
        end
      else Err ValueError
  | _, _ => Err ValueError
  end.

Fixpoint parse_elements (value : chars -> result (json * chars)) (n : nat) (acc : list json) (l : chars)
    : result (json * chars) :=
  match n with
  | 0 => Err ValueError
  | S n' =>
      v ← value l;
      match skip_ws v.2 with
      | c :: l1 =>
          if (code c =? 93)%N then Ok (JList (acc ++ [v.1]), l1)
          else if (code c =? 44)%N then parse_elements value n' (acc ++ [v.1]) (skip_ws l1)
          else Err ValueError
      | [] => Err ValueError
      end
  end.

(** [scan_once] *)
Fixpoint parse_value (limit : nat) (l : chars) {struct limit} : result (json * chars) :=
  match l with
  | [] => Err ValueError
  | c :: l1 =>
      if (code c =? 34)%N then s ← parse_string l1; Ok (JStr (of_chars s.1), s.2)
      else if (code c =? 123)%N then
        match limit with
        | 0 => Err RecursionError
        | S limit' =>
            match skip_ws l1 with
            | c2 :: l2 => if (code c2 =? 125)%N then Ok (JObj [], l2)
                          else parse_members (parse_value limit') (length l1) [] (c2 :: l2)
            | [] => Err ValueError
            end
        end
      else if (code c =? 91)%N then
        match limit with
        | 0 => Err RecursionError
        | S limit' =>
            match skip_ws l1 with
            | c2 :: l2 => if (code c2 =? 93)%N then Ok (JList [], l2)
                          else parse_elements (parse_value limit') (length l1) [] (c2 :: l2)
            | [] => Err ValueError
            end
        end
      else
        match match_literal literals l with
        | Some r => Ok r
        | None =>
            match match_number l with
            | Some (n, r) => v ← number_value n; Ok (v, r)
            | None => Err ValueError
            end
        end
  end.

(** [json.loads] *)
Definition json_loads (limit : nat) (s : string) : result json :=
  r ← parse_value limit (skip_ws (to_chars s));
  _ ← raise_if (negb (bool_decide (skip_ws r.2 = []))) ValueError;
  Ok r.1.

(** ** [_extract_json] *)

(** [held] is the text since [start], newest first; it is read only while
    [depth] is positive. *)
Fixpoint scan (limit : nat) (l held : chars) (depth : nat) (in_string escaped : bool)
    : result (option (list (string * json))) :=
  match l with
  | [] => Ok None
  | c :: l' =>
      if in_string then
        if escaped then scan limit l' (c :: held) depth true false
        else if (code c =? 92)%N then scan limit l' (c :: held) depth true true
        else scan limit l' (c :: held) depth (negb (code c =? 34)%N) false
      else if (code c =? 34)%N then scan limit l' (c :: held) depth true escaped
      else if (code c =? 123)%N then
        scan limit l' (if depth =? 0 then [c] else c :: held) (S depth) false escaped
      else if (code c =? 125)%N then
        match depth with
        | 0 => scan limit l' (c :: held) 0 false escaped
        | 1 =>
            match json_loads limit (of_chars (rev (c :: held))) with
            | Ok (JObj d) => Ok (Some d)
            | Err ValueError | Ok _ => scan limit l' [] 0 false escaped
            | Err e => Err e
            end
        | S depth' => scan limit l' (c :: held) depth' false escaped
        end
      else scan limit l' (c :: held) depth false escaped
  end.

Definition extract_json (limit : nat) (text : string) : result (option (list (string * json))) :=
  scan limit (to_chars text) [] 0 false false.
End Loads.

Example loads_sample :
  json_loads id 10 (of_chars (map (fun c => if Ascii.eqb c "'"%char then quote else c)
    (to_chars " {'a' : [1, -2.5e3 ,true] ,'b':'x\u00e9\n', 'a':null}"))) =
  Ok (JObj [("a", JNull); ("b", JStr (of_chars ["x"; ascii_of_N 233; ascii_of_N 10]%char))]%string).
Proof. vm_compute. reflexivity. Qed.

(** ** Printed text is read back *)

Lemma escape_parse c l : parse_string (escape_char c ++ l) = r ← parse_string l; Ok (c :: r.1, r.2).
Proof. by destruct c as [[] [] [] [] [] [] [] []]. Qed.

Lemma parse_escaped s l : parse_string (flat_map escape_char s ++ quote :: l) = Ok (s, l).
Proof. induction s as [|c s IH]; [done|]. cbn [flat_map]. by rewrite <- app_assoc, escape_parse, IH. Qed.

(** What may follow a number for it to end there *)
Definition number_ends (l : chars) : Prop :=
  match l with [] => True | c :: _ => negb (is_digit c || bool_decide (code c ∈ [46; 101; 69]%N)) = true end.

Lemma span_digits_app l ds r rest :
  span_digits l = (ds, r) -> (r = [] -> match rest with c :: _ => is_digit c = false | [] => True end) ->
  span_digits (l ++ rest) = (ds, r ++ rest).
Proof.
  revert ds r. induction l as [|c l IH]; intros ds r.
  - intros [= <- <-] Hr. specialize (Hr eq_refl). destruct rest as [|c rest]; [done|]. cbn. by rewrite Hr.
  - cbn. destruct (is_digit c); [|by intros [= <- <-]]. destruct (span_digits l) as [ds' r'].
    intros [= <- <-] Hr. by rewrite (IH ds' r').
Qed.

Lemma span_all_digits l rest :
  forallb is_digit l = true -> match rest with c :: _ => is_digit c = false | [] => True end ->
  span_digits (l ++ rest) = (l, rest).
Proof.
  intros Hl Hr. assert (span_digits l = (l, [])) as Hs.
  { clear Hr. induction l as [|c l IH]; [done|]. cbn in *. apply andb_true_iff in Hl as [-> Hl]. by rewrite IH. }
  by apply (span_digits_app l l [] rest Hs).
Qed.

(** The numbers of JSON *)
Definition wf_digits (l : chars) : bool := negb (bool_decide (l = [])) && forallb is_digit l.
Definition wf_int (l : chars) : bool :=
  match l with c :: l' => if (code c =? 48)%N then bool_decide (l' = []) else is_digit c && forallb is_digit l' | [] => false end.
Definition wf_frac (l : chars) : bool := match l with c :: l' => (code c =? 46)%N && wf_digits l' | [] => true end.
Definition wf_exp (l : chars) : bool :=
  match l with
  | c :: l' => ((code c =? 101)%N || (code c =? 69)%N) &&
               wf_digits (match l' with s :: l2 => if is_sign s then l2 else l' | [] => [] end)
  | [] => true
  end.
Definition wf_number (n : number) : bool := wf_int (nu_int n) && wf_frac (nu_frac n) && wf_exp (nu_exp n).

Definition head_is (p : ascii -> bool) (l : chars) : bool := match l with c :: _ => p c | [] => false end.
Definition no_digit (l : chars) : Prop := head_is is_digit l = false.

Lemma number_ends_iff l : number_ends l <->
  no_digit l /\ head_is (fun c => code c =? 46)%N l = false /\ head_is (fun c => (code c =? 101)%N || (code c =? 69)%N) l = false.
Proof.
  unfold number_ends, no_digit, head_is. destruct l as [|c l]; [done|]. rewrite negb_true_iff, orb_false_iff, bool_decide_eq_false.
  rewrite !not_elem_of_cons, orb_false_iff, !N.eqb_neq. split; [tauto|]. intros (? & ? & ? & ?). split_and!; try done. apply not_elem_of_nil.
Qed.

Lemma digit_code c : is_digit c = true <-> (48 <= code c <= 57)%N.
Proof. unfold is_digit, in_range. rewrite andb_true_iff, !N.leb_le. done. Qed.

Lemma span_wf ds rest : forallb is_digit ds = true -> no_digit rest -> span_digits (ds ++ rest) = (ds, rest).
Proof. intros Hd Hr. apply span_all_digits; [done|]. by destruct rest. Qed.

Lemma match_int_wf i rest : wf_int i = true -> no_digit rest -> match_int (i ++ rest) = Some (i, rest).
Proof.
  unfold wf_int, match_int. destruct i as [|c i]; [done|]. cbn [app]. destruct (code c =? 48)%N.
  - by intros ->%bool_decide_eq_true.
  - intros [Hc Hi]%andb_true_iff Hr. rewrite Hc. change (c :: i ++ rest) with ((c :: i) ++ rest).
    rewrite span_wf; [done| |done]. cbn. by rewrite Hc.
Qed.

Lemma match_frac_wf f rest :
  wf_frac f = true -> no_digit rest -> (f = [] -> head_is (fun c => code c =? 46)%N rest = false) ->
  match_frac (f ++ rest) = (f, rest).
Proof.
  unfold wf_frac, match_frac. destruct f as [|c f]; cbn [app].
  - intros _ _ Hr. specialize (Hr eq_refl). destruct rest as [|c rest]; [done|]. cbn in Hr. by rewrite Hr.
  - intros [-> [Hne Hf]%andb_true_iff]%andb_true_iff Hr _. rewrite span_wf by done. by destruct f.
Qed.

Lemma match_exp_wf e rest :
  wf_exp e = true -> no_digit rest -> (e = [] -> head_is (fun c => (code c =? 101)%N || (code c =? 69)%N) rest = false) ->
  match_exp (e ++ rest) = (e, rest).
Proof.
  unfold wf_exp, match_exp. destruct e as [|c e]; cbn [app].
  - intros _ _ Hr. specialize (Hr eq_refl). destruct rest as [|c rest]; [done|]. cbn in Hr. by rewrite Hr.
  - intros [-> [Hne Hf]%andb_true_iff]%andb_true_iff Hr _. destruct e as [|s e]; [done|]. cbn [app].
    destruct (is_sign s); cbn [fst snd].
    + rewrite span_wf by done. by destruct e.
    + change (s :: e ++ rest) with ((s :: e) ++ rest). by rewrite span_wf.
Qed.

Lemma match_number_wf n rest :
  wf_number n = true -> number_ends rest -> match_number (number_text n ++ rest) = Some (n, rest).
Proof.
  destruct n as [neg i f e]. unfold wf_number, number_text, match_number. cbn [nu_neg nu_int nu_frac nu_exp].
  intros [[Hi Hf]%andb_true_iff He]%andb_true_iff (Hd & Hdot & Hexp)%number_ends_iff.
  assert (no_digit (e ++ rest)) as Hde.
  { destruct e as [|c e]; [done|]. cbn in *. apply andb_true_iff in He as [Hc _]. unfold no_digit. cbn.
    apply not_true_iff_false. rewrite digit_code. apply orb_true_iff in Hc as [Hc%N.eqb_eq|Hc%N.eqb_eq]; lia. }
  assert (no_digit (f ++ e ++ rest)) as Hdf.
  { destruct f as [|c f]; [done|]. cbn in *. apply andb_true_iff in Hf as [Hc%N.eqb_eq _]. unfold no_digit. cbn.
    apply not_true_iff_false. rewrite digit_code. lia. }
  assert (head_is (fun c => code c =? 46)%N (e ++ rest) = false) as Hdot'.
  { destruct e as [|c e]; [done|]. cbn in *. apply andb_true_iff in He as [Hc _]. apply N.eqb_neq.
    apply orb_true_iff in Hc as [Hc%N.eqb_eq|Hc%N.eqb_eq]; lia. }
  assert (exists c i', i = c :: i' /\ (code c =? 45)%N = false) as (c & i' & -> & Hc).
  { destruct i as [|c i]; [done|]. exists c, i. split; [done|]. cbn in Hi. apply N.eqb_neq.
    destruct (N.eqb_spec (code c) 48); [lia|]. apply andb_true_iff in Hi as [Hc%digit_code _]. lia. }
  destruct neg; cbn [app].
  - change ((code "-" =? 45)%N) with true. cbn [snd fst]. rewrite <- !app_assoc. change (c :: i' ++ f ++ e ++ rest) with ((c :: i') ++ f ++ e ++ rest).
    rewrite match_int_wf by done. rewrite match_frac_wf by done. by rewrite match_exp_wf.
  - rewrite <- !app_assoc. cbn [app]. rewrite Hc. cbn [fst snd]. change (c :: i' ++ f ++ e ++ rest) with ((c :: i') ++ f ++ e ++ rest).
    rewrite match_int_wf by done. rewrite match_frac_wf by done. by rewrite match_exp_wf.
Qed.

(** Integers *)
Lemma code_digit d : (d < 10)%N -> code (ascii_of_N (48 + d)) = (48 + d)%N.
Proof. intros Hd. unfold code. apply N_ascii_embedding. lia. Qed.

Lemma is_digit_of d : (d < 10)%N -> is_digit (ascii_of_N (48 + d)) = true.
Proof. intros Hd. rewrite digit_code, code_digit by done. lia. Qed.

Lemma digits_value_snoc l d : (d < 10)%N -> digits_value (l ++ [ascii_of_N (48 + d)]) = (digits_value l * 10 + d)%N.
Proof. intros Hd. unfold digits_value. rewrite fold_left_app. cbn [fold_left]. rewrite code_digit by done. lia. Qed.

Lemma digits_of_spec fuel n acc : (N.to_nat (N.log2 n) < fuel) ->
  exists c ds, digits_of fuel n acc = c :: ds ++ acc /\ is_digit c = true /\ forallb is_digit ds = true /\
    digits_value (c :: ds) = n /\ ((0 < n)%N -> code c <> 48%N) /\ ((n < 10)%N -> ds = []).
Proof.
  revert n acc. induction fuel as [|fuel IH]; intros n acc Hf; [lia|]. cbn [digits_of].
  pose proof (N.mod_lt n 10 ltac:(lia)) as Hm. destruct (N.ltb_spec n 10) as [Hn|Hn].
  - rewrite N.mod_small by done. exists (ascii_of_N (48 + n)), []. split_and!; try done.
    + by apply is_digit_of.
    + by apply (digits_value_snoc []).
    + intros ?. rewrite code_digit by done. lia.
  - assert (N.log2 (n / 10) < N.log2 n)%N as Hlog.
    { pose proof (N.Div0.mul_div_le n 10) as Hdm. assert (0 < n / 10)%N as Hq by (apply N.div_str_pos; lia).
      apply N.log2_lt_pow2; [done|]. pose proof (N.log2_spec n ltac:(lia)) as [Hlo Hhi].
      rewrite N.pow_succ_r' in Hhi. lia. }
    destruct (IH (n / 10)%N (ascii_of_N (48 + n mod 10) :: acc)) as (c & ds & -> & Hc & Hds & Hv & Hz & _); [lia|].
    exists c, (ds ++ [ascii_of_N (48 + n mod 10)]). split_and!; [by rewrite <- app_assoc|done| | | |lia].
    + rewrite forallb_app, Hds. cbn. by rewrite is_digit_of.
    + change (c :: ds ++ [ascii_of_N (48 + n mod 10)]) with ((c :: ds) ++ [ascii_of_N (48 + n mod 10)]).
      rewrite digits_value_snoc, Hv by done. pose proof (N.Div0.div_mod n 10). lia.
    + intros _. apply Hz. apply N.div_str_pos. lia.
Qed.

(** The number [str(z)] spells *)
Lemma int_text z : exists ds, to_chars (py_str_int z) = number_text (mk_number (z <? 0)%Z ds [] []) /\
  wf_int ds = true /\ (if (z <? 0)%Z then - Z.of_N (digits_value ds) else Z.of_N (digits_value ds))%Z = z.
Proof.
  assert (forall n, exists ds, to_chars (py_str_N n) = ds /\ wf_int ds = true /\ digits_value ds = n) as HN.
  { intros n. unfold py_str_N. destruct (digits_of_spec (S (N.to_nat (N.log2 n))) n []) as (c & ds & -> & Hc & Hds & Hv & Hz & Hs); [lia|].
    rewrite app_nil_r, to_of_chars. exists (c :: ds). split_and!; [done| |done]. cbn.
    destruct (N.eqb_spec (code c) 48) as [H48|]; [|by rewrite Hc].
    apply bool_decide_eq_true, Hs. destruct (N.eq_0_gt_0_cases n) as [->|Hpos]; [done|]. by apply Hz in Hpos. }
  unfold py_str_int. destruct (Z.ltb_spec z 0) as [Hz|Hz].
  - destruct (HN (Z.to_N (- z))) as (ds & Ht & Hw & Hv). exists ds. split_and!; [|done|].
    + rewrite to_chars_app, Ht. unfold number_text. cbn. by rewrite !app_nil_r.
    + rewrite Hv. lia.
  - destruct (HN (Z.to_N z)) as (ds & Ht & Hw & Hv). exists ds. split_and!; [|done|].
    + rewrite Ht. unfold number_text. cbn. by rewrite !app_nil_r.
    + rewrite Hv. lia.
Qed.

Lemma all_ok_each {A B} (f : A -> result B) l ks : all_ok (map f l) = Ok ks -> Forall2 (fun x k => f x = Ok k) l ks.
Proof.
  revert ks. induction l as [|x l IH]; intros ks; cbn; [by intros [= <-]|].
  intros (k & Hk & (rest & Hr & [= <-])%result_bind_ok)%result_bind_ok. constructor; auto.
Qed.

(** What a value may start with: neither white space nor a closing bracket *)
Definition opens (c : ascii) : bool := negb (is_ws c) && negb (code c =? 93)%N.

Lemma skip_ws_app w l : forallb is_ws w = true -> head_is opens l = true -> skip_ws (w ++ l) = l.
Proof.
  intros Hw Hl. induction w as [|c w IH]; cbn in *.
  - destruct l as [|c l]; [done|]. cbn in *. by apply andb_true_iff in Hl as [->%negb_true_iff _].
  - apply andb_true_iff in Hw as [-> Hw]. by apply IH.
Qed.

Lemma skip_ws_id l : head_is opens l = true -> skip_ws l = l.
Proof. by apply (skip_ws_app []). Qed.

Lemma head_is_app p l k : head_is p l = true -> head_is p (l ++ k) = true.
Proof. by destruct l. Qed.

Section Printed.
Context (parse_float : string -> string) (wi wc : chars).
Context (wi_ws : forallb is_ws wi = true) (wc_ws : forallb is_ws wc = true).

(** Separators: a comma and a colon with white space after them *)
Let si : string := of_chars (","%char :: wi).
Let sc : string := of_chars (":"%char :: wc).

(** The values a text stands for: floats print as a number that reads back as
    the same float, integers are short enough to be read, keys are distinct,
    and no value is of another type. *)
Inductive printable : json -> Prop :=
| pr_null : printable JNull
| pr_bool b : printable (JBool b)
| pr_int z : String.length (py_str_int z) <= MAX_STR_DIGITS -> printable (JInt z)
| pr_float n : wf_number n = true -> nu_frac n ++ nu_exp n <> [] ->
    parse_float (of_chars (number_text n)) = of_chars (number_text n) -> printable (JFloat (of_chars (number_text n)))
| pr_str s : printable (JStr s)
| pr_list l : Forall printable l -> printable (JList l)
| pr_obj d : NoDup (dkeys d) -> Forall (fun e => printable e.2) d -> printable (JObj d).

(** The nesting of arrays and objects *)
Fixpoint nesting (v : json) : nat :=
  match v with
  | JList l => S (list_max (map nesting l))
  | JObj d => S (list_max (map (fun e => nesting e.2) d))
  | _ => 0
  end.

Lemma number_head n : wf_number n = true ->
  exists c l, number_text n = c :: l /\ (is_digit c = true \/ c = "-"%char /\ head_is is_digit l = true).
Proof.
  destruct n as [neg i f e]. unfold wf_number, number_text. cbn. intros [[Hi _]%andb_true_iff _]%andb_true_iff.
  destruct i as [|c i]; [done|]. assert (is_digit c = true) as Hc.
  { cbn in Hi. destruct (N.eqb_spec (code c) 48) as [H48|]; [rewrite digit_code; lia|]. by apply andb_true_iff in Hi as [? _]. }
  destruct neg; [exists "-"%char, (c :: i ++ f ++ e); by auto|exists c, (i ++ f ++ e); by auto].
Qed.

Lemma not_literal l c : head_is is_digit l = true \/ (exists l', l = "-"%char :: l' /\ head_is is_digit l' = true) ->
  c = l -> match_literal literals c = None.
Proof.
  intros Hl ->. destruct Hl as [Hl|(l' & -> & Hl)].
  - destruct l as [|c l]; [done|]. cbn in Hl. by destruct c as [[] [] [] [] [] [] [] []].
  - destruct l' as [|c l]; [done|]. cbn in Hl. by destruct c as [[] [] [] [] [] [] [] []].
Qed.

Lemma parse_number limit n rest v :
  wf_number n = true -> number_ends rest -> number_value parse_float n = Ok v ->
  parse_value parse_float limit (number_text n ++ rest) = Ok (v, rest).
Proof.
  intros Hw He Hv. pose proof (match_number_wf n rest Hw He) as Hm.
  destruct (number_head n Hw) as (c & l & Ht & Hc).
  assert (match_literal literals (number_text n ++ rest) = None) as Hl.
  { eapply not_literal; [|done]. rewrite Ht. destruct Hc as [Hc|[-> Hl]]; [by left|].
    right. exists (l ++ rest). split; [done|]. by apply head_is_app. }
  assert ((code c =? 34)%N = false /\ (code c =? 123)%N = false /\ (code c =? 91)%N = false) as (H1 & H2 & H3).
  { destruct Hc as [Hc%digit_code|[-> _]]; [|done]. rewrite !N.eqb_neq. lia. }
  rewrite Ht in *. cbn [app] in *. destruct limit; cbn [parse_value]; by rewrite H1, H2, H3, Hl, Hm, Hv.
Qed.
(** A text that [value] reads as [v], whatever ends it *)
Definition reads (value : chars -> result (json * chars)) (v : json) (text : string) : Prop :=
  head_is opens (to_chars text) = true /\
  forall rest, number_ends rest -> value (to_chars text ++ rest) = Ok (v, rest).

Lemma to_join_cons a b l : to_chars (join si (a :: b :: l)) = to_chars a ++ ","%char :: wi ++ to_chars (join si (b :: l)).
Proof. cbn [join]. rewrite !to_chars_app. unfold si. by rewrite to_of_chars. Qed.

Lemma join_head (p : ascii -> bool) items : items <> [] -> Forall (fun t => head_is p (to_chars t) = true) items ->
  head_is p (to_chars (join si items)) = true.
Proof.
  intros Hne. destruct 1 as [|t ts Ht Hts]; [done|]. destruct ts as [|u ts]; [done|].
  rewrite to_join_cons. by apply head_is_app.
Qed.

Lemma elements_read value n acc l items rest :
  Forall2 (reads value) l items -> l <> [] -> length l <= n ->
  parse_elements value n acc (to_chars (join si items) ++ "]"%char :: rest) = Ok (JList (acc ++ l), rest).
Proof using wi_ws.
  intros Hl. revert n acc. induction Hl as [|v t l items [Hh Hv] Hl IH]; intros n acc Hne Hn; [done|].
  destruct n as [|n]; [cbn in Hn; lia|]. cbn [parse_elements]. destruct Hl as [|v' t' l items Hv' Hl].
  - cbn [join]. by rewrite Hv.
  - rewrite to_join_cons, <- app_assoc. cbn [app]. rewrite Hv by done. cbn [mbind result_bind fst snd].
    change (skip_ws (","%char :: ?x)) with (","%char :: x). cbn beta iota.
    change ((code ",") =? 93)%N with false. change ((code ",") =? 44)%N with true. cbn beta iota.
    rewrite <- app_assoc, skip_ws_app; [|done|].
    + rewrite IH by (done || cbn in *; lia). by rewrite <- app_assoc.
    + apply head_is_app, join_head; [done|]. constructor; [apply Hv'|]. clear -Hl. induction Hl as [|? ? ? ? []]; auto.
Qed.

(** A member's text *)
Definition member_text (k t : string) : string := (dump_str k +:+ sc +:+ t)%string.

Lemma to_member k t : to_chars (member_text k t) = quote :: flat_map escape_char (to_chars k) ++ quote :: ":"%char :: wc ++ to_chars t.
Proof.
  unfold member_text, dump_str, sc. rewrite !to_chars_app, !to_of_chars. cbn [app]. by rewrite <- !app_assoc.
Qed.

Lemma member_step value n acc k v t tail :
  reads value v t -> number_ends tail ->
  parse_members value (S n) acc (to_chars (member_text k t) ++ tail) =
  match skip_ws tail with
  | c3 :: l3 =>
      if (code c3 =? 125)%N then Ok (JObj (dset k v acc), l3)
      else if (code c3 =? 44)%N then parse_members value n (dset k v acc) (skip_ws l3)
      else Err ValueError
  | [] => Err ValueError
  end.
Proof using wc_ws.
  intros [Hh Hv] Ht. rewrite to_member. cbn [app parse_members]. change (code quote =? 34)%N with true. cbn beta iota.
  rewrite <- app_assoc. cbn [app]. rewrite parse_escaped. cbn [mbind result_bind fst snd].
  change (skip_ws (":"%char :: (wc ++ to_chars t) ++ tail)) with (":"%char :: (wc ++ to_chars t) ++ tail). cbn beta iota.
  change ((code ":") =? 58)%N with true. cbn beta iota.
  rewrite <- app_assoc, skip_ws_app by (done || by apply head_is_app). rewrite Hv by done. cbn [mbind result_bind fst snd].
  by rewrite of_to_chars.
Qed.

Lemma members_read value n acc d items rest :
  Forall2 (fun e it => exists t, it = member_text e.1 t /\ reads value e.2 t) d items -> d <> [] -> length d <= n ->
  NoDup (dkeys acc ++ dkeys d) ->
  parse_members value n acc (to_chars (join si items) ++ "}"%char :: rest) = Ok (JObj (acc ++ d), rest).
Proof using wi_ws wc_ws.
  intros Hd. revert n acc. induction Hd as [|[k v] it d items (t & -> & Hv) Hd IH]; intros n acc Hne Hn Hk; [done|].
  destruct n as [|n]; [cbn in Hn; lia|]. cbn [fst snd dkeys map] in *.
  assert (dset k v acc = acc ++ [(k, v)]) as Hset.
  { apply dset_absent. intros Hin. apply NoDup_app in Hk as (_ & Hk & _). apply (Hk k Hin). by left. }
  destruct Hd as [|e it d items He Hd].
  - cbn [join]. rewrite (member_step _ _ _ _ _ _ _ Hv) by done. cbn. by rewrite Hset.
  - rewrite to_join_cons, <- app_assoc. cbn [app]. rewrite (member_step _ _ _ _ _ _ _ Hv) by done.
    change (skip_ws (","%char :: ?x)) with (","%char :: x). cbn beta iota.
    change ((code ",") =? 125)%N with false. change ((code ",") =? 44)%N with true. cbn beta iota.
    rewrite <- app_assoc, skip_ws_app; [|done|].
    + rewrite Hset, IH; [by rewrite <- app_assoc|done|cbn in *; lia|].
      unfold dkeys in *. by rewrite map_app, <- app_assoc.
    + apply head_is_app, join_head; [done|]. assert (forall e it, (exists t, it = member_text e.1 t /\ reads value e.2 t) ->
        head_is opens (to_chars it) = true) as Hhead by (intros e' it' (t' & -> & _); by rewrite to_member).
      constructor; [by eapply Hhead|]. clear -Hd Hhead. induction Hd; constructor; eauto.
Qed.
Lemma join_length p items : Forall (fun t => head_is p (to_chars t) = true) items ->
  length items <= length (to_chars (join si items)).
Proof.
  induction 1 as [|t ts Ht Hts IH]; [cbn; lia|]. assert (0 < length (to_chars t)) by (destruct (to_chars t); [done|cbn; lia]).
  destruct ts as [|u ts]; [cbn in *; lia|]. rewrite to_join_cons, length_app. cbn [length] in *. rewrite length_app. lia.
Qed.

Lemma nesting_le {A} (f : A -> nat) l n x : list_max (map f l) <= n -> x ∈ l -> f x <= n.
Proof. intros Hl Hx. apply list_max_le in Hl. rewrite Forall_map, Forall_forall in Hl. by apply Hl. Qed.

(** Reading the brackets *)
Lemma array_read limit l items rest :
  Forall2 (reads (parse_value parse_float limit)) l items ->
  parse_value parse_float (S limit) ("["%char :: to_chars (join si items) ++ "]"%char :: rest) = Ok (JList l, rest).
Proof using wi_ws.
  intros Hl. cbn [parse_value]. change ((code "[") =? 34)%N with false. change ((code "[") =? 123)%N with false.
  change ((code "[") =? 91)%N with true. cbn beta iota. destruct (decide (items = [])) as [->|Hne]; [by inversion Hl|].
  assert (Forall (fun t => head_is opens (to_chars t) = true) items) as Hh.
  { clear -Hl. induction Hl as [|? ? ? ? []]; auto. }
  pose proof (join_head _ _ Hne Hh) as Hj. pose proof (join_length _ _ Hh) as Hn. pose proof (Forall2_length _ _ _ Hl) as Hlen.
  rewrite skip_ws_id by by apply head_is_app.
  pose proof (elements_read _ (length (to_chars (join si items) ++ "]"%char :: rest)) [] _ _ rest Hl) as He.
  rewrite length_app in *. destruct (to_chars (join si items)) as [|c j]; [done|]. cbn [app] in *.
  apply andb_true_iff in Hj as [_ ->%negb_true_iff]. apply He; [|cbn in *; lia]. intros ->. by inversion Hl.
Qed.

Lemma object_read limit d items rest :
  Forall2 (fun e it => exists t, it = member_text e.1 t /\ reads (parse_value parse_float limit) e.2 t) d items ->
  NoDup (dkeys d) ->
  parse_value parse_float (S limit) ("{"%char :: to_chars (join si items) ++ "}"%char :: rest) = Ok (JObj d, rest).
Proof using wi_ws wc_ws.
  intros Hd Hk. cbn [parse_value]. change ((code "{") =? 34)%N with false. change ((code "{") =? 123)%N with true.
  cbn beta iota. destruct (decide (items = [])) as [->|Hne]; [by inversion Hd|].
  assert (Forall (fun t => head_is (fun c => code c =? 34)%N (to_chars t) = true) items) as Hh.
  { clear -Hd. induction Hd as [|? ? ? ? (t & -> & _)]; constructor; [by rewrite to_member|done]. }
  pose proof (join_head _ _ Hne Hh) as Hj. pose proof (join_length _ _ Hh) as Hn. pose proof (Forall2_length _ _ _ Hd) as Hlen.
  pose proof (members_read _ (length (to_chars (join si items) ++ "}"%char :: rest)) [] _ _ rest Hd) as He.
  rewrite length_app in *. destruct (to_chars (join si items)) as [|c j]; [done|]. cbn [app] in *.
  apply N.eqb_eq in Hj. assert (c = quote) as -> by by rewrite <- (ascii_N_embedding c); unfold code in Hj; rewrite Hj.
  cbn [skip_ws]. apply He; [|cbn in *; lia|done]. intros ->. by inversion Hd.
Qed.
Lemma number_opens n : wf_number n = true -> head_is opens (number_text n) = true.
Proof.
  intros (c & l & -> & Hc)%number_head. cbn [head_is]. destruct Hc as [Hc|[-> _]]; [|by vm_compute].
  unfold opens, is_ws. apply digit_code in Hc. rewrite bool_decide_false, (proj2 (N.eqb_neq _ _)); [done|lia|].
  rewrite !not_elem_of_cons. split_and!; try lia. apply not_elem_of_nil.
Qed.

Lemma to_brackets a b s : to_chars (String a "" +:+ s +:+ String b "")%string = a :: to_chars s ++ [b].
Proof. by rewrite !to_chars_app. Qed.

Lemma dump_reads v limit text :
  printable v -> nesting v <= limit -> dump_with si sc v = Ok text -> reads (parse_value parse_float limit) v text.
Proof using wi_ws wc_ws.
  revert limit text.
  induction v as [|b|z|r|s|n|l IH|d IH] using json_ind'; intros limit text Hp Hn Hd; cbn [dump_with] in Hd.
  - injection Hd as <-. split; [done|]. intros rest _. by destruct limit.
  - destruct b; injection Hd as <-; (split; [done|]); intros rest _; by destruct limit.
  - inversion Hp as [| |? Hlen| | | |]; subst. injection Hd as <-. destruct (int_text z) as (ds & Ht & Hw & Hz).
    assert (wf_number (mk_number (z <? 0)%Z ds [] []) = true) as Hwf by (unfold wf_number; cbn; by rewrite Hw).
    split; rewrite Ht; [by apply number_opens|]. intros rest He. apply parse_number; [done|done|].
    unfold number_value. cbn [nu_frac nu_exp nu_int nu_neg]. rewrite <- length_to_chars, Ht in Hlen.
    unfold number_text in Hlen. cbn [nu_neg nu_int nu_frac nu_exp] in Hlen. rewrite !length_app in Hlen.
    rewrite (proj2 (Nat.ltb_ge _ _)) by lia. cbn. by rewrite Hz.
  - inversion Hp as [| | |n Hw Hne Hf| | |]; subst. destruct (finite_repr _); [|done]. injection Hd as <-.
    split; rewrite to_of_chars; [by apply number_opens|]. intros rest He. apply parse_number; [done|done|].
    unfold number_value. rewrite Hf. by destruct (nu_frac n), (nu_exp n).
  - injection Hd as <-. unfold dump_str. split; rewrite to_of_chars; [done|]. intros rest _. cbn [app].
    rewrite <- app_assoc. cbn [app]. destruct limit; cbn [parse_value];
      change (code quote =? 34)%N with true; cbn beta iota; rewrite parse_escaped; cbn; by rewrite of_to_chars.
  - by inversion Hp.
  - apply result_bind_ok in Hd as (items & Hi%all_ok_each & [= <-]). inversion Hp as [| | | | |? Hl|]; subst.
    destruct limit as [|limit]; [cbn in Hn; lia|]. cbn [nesting] in Hn. apply le_S_n in Hn.
    split; rewrite to_brackets; [done|]. intros rest _. cbn [app]. rewrite <- app_assoc. apply array_read.
    rewrite Forall_forall in IH, Hl. apply Forall2_same_length_lookup_2; [by eapply Forall2_length|].
    intros i v t Hv Ht. pose proof (Forall2_lookup_lr _ _ _ _ _ _ Hi Hv Ht) as Hdump.
    apply list_elem_of_lookup_2 in Hv. apply IH; eauto. by eapply nesting_le in Hn.
  - apply result_bind_ok in Hd as (items & Hi%all_ok_each & [= <-]). inversion Hp as [| | | | | |? Hk Hl]; subst.
    destruct limit as [|limit]; [cbn in Hn; lia|]. cbn [nesting] in Hn. apply le_S_n in Hn.
    split; rewrite to_brackets; [done|]. intros rest _. cbn [app]. rewrite <- app_assoc. apply object_read; [|done].
    rewrite Forall_forall in IH, Hl. apply Forall2_same_length_lookup_2; [by eapply Forall2_length|].
    intros i e t Hv Ht. pose proof (Forall2_lookup_lr _ _ _ _ _ _ Hi Hv Ht) as Hdump. cbn beta in Hdump.
    apply result_bind_ok in Hdump as (t' & Ht' & [= <-]). exists t'. split; [done|].
    apply list_elem_of_lookup_2 in Hv. apply IH; eauto. by eapply (nesting_le (fun e => nesting e.2)) in Hn.
Qed.

(** [json.loads(json.dumps(v)) == v]. *)
Lemma loads_dumped v limit text :
  printable v -> nesting v <= limit -> dump_with si sc v = Ok text -> json_loads parse_float limit text = Ok v.
Proof using wi_ws wc_ws.
  intros Hp Hn Hd. destruct (dump_reads v limit text Hp Hn Hd) as [Hh Hv]. specialize (Hv [] I). rewrite app_nil_r in Hv.
  unfold json_loads. by rewrite skip_ws_id, Hv.
Qed.
(** *** Scanning printed text *)

Abbreviation scan := (scan parse_float).

(** Characters the scanner passes over outside strings *)
Definition quiet (c : ascii) : bool := negb (bool_decide (code c ∈ [34; 123; 125]%N)).

Lemma quiet_codes c : quiet c = true -> (code c =? 34)%N = false /\ (code c =? 123)%N = false /\ (code c =? 125)%N = false.
Proof.
  unfold quiet. rewrite negb_true_iff, bool_decide_eq_false, !not_elem_of_cons, !N.eqb_neq. tauto.
Qed.

Lemma scan_quiet limit l rest held n : forallb quiet l = true ->
  scan limit (l ++ rest) held n false false = scan limit rest (rev l ++ held) n false false.
Proof.
  revert held. induction l as [|c l IH]; intros held; [done|]. cbn [forallb app]. intros [(H1 & H2 & H3)%quiet_codes Hl]%andb_true_iff.
  cbn [JsonText.scan]. rewrite H1, H2, H3. rewrite IH by done. cbn [rev]. by rewrite <- app_assoc.
Qed.

Lemma scan_escaped limit s rest held n :
  scan limit (flat_map escape_char s ++ rest) held n true false =
  scan limit rest (rev (flat_map escape_char s) ++ held) n true false.
Proof.
  assert (forall c l k, scan limit (escape_char c ++ l) k n true false = scan limit l (rev (escape_char c) ++ k) n true false) as Hc
    by (intros c l k; by destruct c as [[] [] [] [] [] [] [] []]).
  revert held. induction s as [|c s IH]; intros held; [done|]. cbn [flat_map].
  by rewrite <- app_assoc, Hc, IH, rev_app_distr, <- app_assoc.
Qed.

(** Text that leaves the scanner where it was, inside an object *)
Definition balanced (l : chars) : Prop := forall limit rest held n,
  scan limit (l ++ rest) held (S n) false false = scan limit rest (rev l ++ held) (S n) false false.

Lemma balanced_quiet l : forallb quiet l = true -> balanced l.
Proof. intros Hl limit rest held n. by apply scan_quiet. Qed.

Lemma balanced_app l k : balanced l -> balanced k -> balanced (l ++ k).
Proof. intros Hl Hk limit rest held n. by rewrite <- app_assoc, Hl, Hk, rev_app_distr, <- app_assoc. Qed.

Lemma balanced_str s : balanced (to_chars (dump_str s)).
Proof.
  intros limit rest held n. unfold dump_str. rewrite to_of_chars. cbn [app JsonText.scan].
  change (code quote =? 34)%N with true. cbn beta iota. rewrite <- app_assoc, scan_escaped. cbn [app JsonText.scan].
  change (code quote =? 34)%N with true. change (code quote =? 92)%N with false. cbn beta iota. cbn [negb rev].
  rewrite rev_app_distr. cbn [rev app]. by rewrite <- app_assoc.
Qed.

Lemma ws_quiet w : forallb is_ws w = true -> forallb quiet w = true.
Proof.
  rewrite !forallb_forall. intros Hw c Hc. specialize (Hw c Hc). unfold is_ws, quiet in *. apply bool_decide_eq_true in Hw.
  apply negb_true_iff, bool_decide_eq_false. rewrite !elem_of_cons in *. rewrite elem_of_nil in *. lia.
Qed.

Lemma number_quiet n : wf_number n = true -> forallb quiet (number_text n) = true.
Proof.
  assert (forall l, forallb is_digit l = true -> forallb quiet l = true) as Hd.
  { intros l. rewrite !forallb_forall. intros Hl c Hc. specialize (Hl c Hc). apply digit_code in Hl.
    unfold quiet. rewrite bool_decide_false; [done|]. rewrite !not_elem_of_cons. split_and!; try lia. apply not_elem_of_nil. }
  assert (forall c k, code c = k -> (k =? 34)%N = false -> (k =? 123)%N = false -> (k =? 125)%N = false -> quiet c = true) as Hq.
  { intros c k <- ?%N.eqb_neq ?%N.eqb_neq ?%N.eqb_neq. unfold quiet. rewrite bool_decide_false; [done|].
    rewrite !not_elem_of_cons. split_and!; try done. apply not_elem_of_nil. }
  destruct n as [neg i f e]. unfold wf_number, number_text, wf_int, wf_frac, wf_exp. cbn [nu_neg nu_int nu_frac nu_exp].
  intros [[Hi Hf]%andb_true_iff He]%andb_true_iff. rewrite !forallb_app, !andb_true_iff. split_and!.
  - by destruct neg.
  - destruct i as [|c i]; [done|]. cbn. destruct (N.eqb_spec (code c) 48) as [H48|_].
    + apply bool_decide_eq_true in Hi as ->. by rewrite (Hq c 48%N).
    + apply andb_true_iff in Hi as [Hc Hi]. apply (Hd (c :: i)). cbn. by rewrite Hc.
  - destruct f as [|c f]; [done|]. cbn. apply andb_true_iff in Hf as [Hc%N.eqb_eq [_ Hf]%andb_true_iff].
    by rewrite (Hq c 46%N), Hd.
  - destruct e as [|c e]; [done|]. cbn. apply andb_true_iff in He as [Hc [_ He]%andb_true_iff].
    assert (quiet c = true) as ->.
    { apply orb_true_iff in Hc as [Hc%N.eqb_eq|Hc%N.eqb_eq]; by eapply Hq. }
    destruct e as [|s e]; [done|]. destruct (is_sign s) eqn:Hs; [|by apply Hd]. cbn. rewrite Hd by done.
    unfold is_sign in Hs. apply orb_true_iff in Hs as [Hs%N.eqb_eq|Hs%N.eqb_eq]; by rewrite (Hq s _ Hs).
Qed.

Lemma balanced_join items : Forall (fun t => balanced (to_chars t)) items -> balanced (to_chars (join si items)).
Proof using wi_ws.
  induction 1 as [|t ts Ht Hts IH]; [by apply balanced_quiet|]. destruct ts as [|u ts]; [done|].
  rewrite to_join_cons. apply balanced_app; [done|]. change (","%char :: wi ++ ?x) with ((","%char :: wi) ++ x).
  apply balanced_app; [|done]. apply balanced_quiet. cbn. by apply ws_quiet.
Qed.

Lemma balanced_member k t : balanced (to_chars t) -> balanced (to_chars (member_text k t)).
Proof using wi_ws wc_ws.
  intros Ht. unfold member_text, sc. rewrite !to_chars_app, to_of_chars. apply balanced_app; [apply balanced_str|].
  apply balanced_app; [|done]. apply balanced_quiet. cbn. by apply ws_quiet.
Qed.

Lemma balanced_braces l : balanced l -> balanced ("{"%char :: l ++ ["}"%char]).
Proof.
  intros Hl limit rest held n. cbn [app JsonText.scan]. change ((code "{") =? 34)%N with false. change ((code "{") =? 123)%N with true.
  cbn beta iota. cbn [Nat.eqb]. rewrite <- app_assoc, Hl. cbn [app JsonText.scan rev]. rewrite rev_app_distr. cbn [rev app].
  by rewrite <- app_assoc.
Qed.

Lemma balanced_dump v text : printable v -> dump_with si sc v = Ok text -> balanced (to_chars text).
Proof using wi_ws wc_ws.
  revert text. induction v as [|b|z|r|s|n|l IH|d IH] using json_ind'; intros text Hp Hd; cbn [dump_with] in Hd.
  - injection Hd as <-. by apply balanced_quiet.
  - destruct b; injection Hd as <-; by apply balanced_quiet.
  - injection Hd as <-. destruct (int_text z) as (ds & -> & Hw & _). apply balanced_quiet, number_quiet.
    unfold wf_number. cbn. by rewrite Hw.
  - inversion Hp; subst. destruct (finite_repr _); [|done]. injection Hd as <-. rewrite to_of_chars.
    by apply balanced_quiet, number_quiet.
  - injection Hd as <-. apply balanced_str.
  - done.
  - apply result_bind_ok in Hd as (items & Hi%all_ok_each & [= <-]). inversion Hp as [| | | | |? Hl|]; subst.
    rewrite to_brackets. change ("["%char :: ?x) with (["["%char] ++ x).
    repeat apply balanced_app; [by apply balanced_quiet| |by apply balanced_quiet]. apply balanced_join.
    rewrite Forall_forall in IH, Hl. apply Forall_forall. intros t Ht. apply list_elem_of_lookup in Ht as [i Ht].
    destruct (Forall2_lookup_r _ _ _ _ _ Hi Ht) as (v & Hv & Hdump). apply list_elem_of_lookup_2 in Hv. eauto.
  - apply result_bind_ok in Hd as (items & Hi%all_ok_each & [= <-]). inversion Hp as [| | | | | |? Hk Hl]; subst.
    rewrite to_brackets. apply balanced_braces, balanced_join.
    rewrite Forall_forall in IH, Hl. apply Forall_forall. intros t Ht. apply list_elem_of_lookup in Ht as [i Ht].
    destruct (Forall2_lookup_r _ _ _ _ _ Hi Ht) as (e & He & Hdump). cbn beta in Hdump.
    apply result_bind_ok in Hdump as (t' & Ht' & [= <-]). apply list_elem_of_lookup_2 in He.
    apply balanced_member. eauto.
Qed.

(** Before the first brace, outside strings *)
Lemma scan_prose limit l rest held : forallb (fun c => negb (bool_decide (code c ∈ [34; 123]%N))) l = true ->
  exists held', scan limit (l ++ rest) held 0 false false = scan limit rest held' 0 false false.
Proof.
  revert held. induction l as [|c l IH]; intros held; [by exists held|]. cbn [forallb app].
  intros [Hc%negb_true_iff Hl]%andb_true_iff. rewrite bool_decide_eq_false, !not_elem_of_cons, <- !N.eqb_neq in Hc.
  destruct Hc as (H1 & H2 & _). cbn [JsonText.scan]. rewrite H1, H2. destruct (code c =? 125)%N; by apply IH.
Qed.

(** C21: What the model was asked to write is what is read: a reply that holds a
    printed object, after any prose without a brace or a quotation mark and
    before any text whatever, is read as that object. *)
Theorem extract_dumped d limit text prose tail :
  printable (JObj d) -> nesting (JObj d) <= limit -> dump_with si sc (JObj d) = Ok text ->
  forallb (fun c => negb (bool_decide (code c ∈ [34; 123]%N))) (to_chars prose) = true ->
  extract_json parse_float limit (prose +:+ text +:+ tail)%string = Ok (Some d).
Proof using wi_ws wc_ws.
  intros Hp Hn Hd Hprose. pose proof (loads_dumped _ _ _ Hp Hn Hd) as Hl. unfold extract_json.
  rewrite !to_chars_app. destruct (scan_prose limit (to_chars prose) (to_chars text ++ to_chars tail) [] Hprose) as [held ->].
  cbn [dump_with] in Hd. apply result_bind_ok in Hd as (items & Hi%all_ok_each & [= <-]). rewrite to_brackets.
  assert (balanced (to_chars (join si items))) as Hb.
  { apply balanced_join. inversion Hp as [| | | | | |? Hk Hv]; subst. rewrite Forall_forall in Hv. apply Forall_forall.
    intros t Ht. apply list_elem_of_lookup in Ht as [i Ht]. destruct (Forall2_lookup_r _ _ _ _ _ Hi Ht) as (e & He & Hdump).
    cbn beta in Hdump. apply result_bind_ok in Hdump as (t' & Ht' & [= <-]). apply list_elem_of_lookup_2 in He.
    apply balanced_member. eapply balanced_dump; [by apply Hv|exact Ht']. }
  cbn [app JsonText.scan]. change ((code "{") =? 34)%N with false. change ((code "{") =? 123)%N with true. cbn beta iota.
  cbn [Nat.eqb]. rewrite <- app_assoc, Hb. cbn [app JsonText.scan]. change ((code "}") =? 34)%N with false.
  change ((code "}") =? 123)%N with false. change ((code "}") =? 125)%N with true. cbn beta iota.
  cbn [rev]. rewrite rev_app_distr, rev_involutive. cbn [rev app].
  rewrite <- to_brackets, of_to_chars. by rewrite Hl.
Qed.
End Printed.

Definition sample_reply : list (string * json) :=
  [("final", JStr "42"); ("n", JList [JInt (-7); JFloat "2.5"])]%string.
Definition sample_text : string := match dump_plain (JObj sample_reply) with Ok t => t | Err _ => "" end.

Example extract_dumped_witness :
  extract_json id 100 ("Sure: " +:+ sample_text +:+ " } {")%string = Ok (Some sample_reply).
Proof.
  assert (printable id (JObj sample_reply)) as Hp.
  { apply pr_obj; [vm_decide|]. constructor; [apply pr_str|]. constructor; [|constructor]. cbn [snd]. apply pr_list.
    constructor; [|constructor; [|constructor]].
    - apply pr_int. apply Nat.leb_le. vm_compute. reflexivity.
    - apply (pr_float id (mk_number false ["2"] [".";"5"] [])%char); [reflexivity|discriminate|reflexivity]. }
  apply (extract_dumped id [" "%char] [" "%char] eq_refl eq_refl _ _ _ "Sure: " " } {" Hp);
    [cbn; lia|vm_compute; reflexivity|reflexivity].
Defined.
