(* ===== verification/Llm.v ===== *)
(** * Model providers

    [src/agency/llm/]: the configuration of [config.py], the adapter of
    [adapter.py] with the owner's frozen dispatch, and the router of [router.py].

    [env] is [os.environ] as it is when it is read; [py_int] and [py_float] are
    [int(text)] and [float(text)], [float_repr] is [repr].  A request is what
    [httpx] is asked to post, and [post] what comes back: the decoded body, or
    the exception of the exchange. *)
From Stdlib Require Import SpecFloat.
From S2P Require Import Prelude PyStr PyDict PyJson JsonText.

Definition AttributeError : exn := CallbackError "AttributeError".
Definition IndexError : exn := CallbackError "IndexError".

(** ** Configuration *)

Inductive ProviderKind := OPENAI | ANTHROPIC | OPENROUTER | OLLAMA | LOCAL | ECHO | POLLINATIONS.

#[export] Instance ProviderKind_eq_dec : EqDecision ProviderKind.
Proof. solve_decision. Defined.

Definition kind_value (k : ProviderKind) : string :=
  match k with
  | OPENAI => "openai" | ANTHROPIC => "anthropic" | OPENROUTER => "openrouter" | OLLAMA => "ollama"
  | LOCAL => "local" | ECHO => "echo" | POLLINATIONS => "pollinations"
  end.

Definition all_kinds : list ProviderKind := [OPENAI; ANTHROPIC; OPENROUTER; OLLAMA; LOCAL; ECHO; POLLINATIONS].

(** [ProviderKind(text)] *)
Definition kind_of (text : string) : result ProviderKind :=
  match List.find (fun k => String.eqb (kind_value k) text) all_kinds with Some k => Ok k | None => Err ValueError end.

Record LLMConfig := mk_Config {
  provider : ProviderKind;
  model : string;
  api_key : option string;
  base_url : option string;
  max_tokens : Z;
  temperature : spec_float;
  timeout : spec_float;
}.

Definition two : spec_float := binary_normalize 53 1024 2 0 false.
Definition zero : spec_float := S754_zero false.
Definition sixty : spec_float := binary_normalize 53 1024 60 0 false.
Definition forty_five : spec_float := binary_normalize 53 1024 45 0 false.
(** [0.7] *)
Definition seven_tenths : spec_float := SFdiv 53 1024 (binary_normalize 53 1024 7 0 false) (binary_normalize 53 1024 10 0 false).

Definition DEFAULT_MODELS (k : ProviderKind) : string :=
  match k with
  | OPENAI => "gpt-4o-mini" | ANTHROPIC => "claude-sonnet-4-20250514" | OPENROUTER => "openrouter/auto"
  | OLLAMA => "llama3.1" | LOCAL => "local-model" | ECHO => "echo" | POLLINATIONS => "openai-fast"
  end.

Definition NAMED_PRESETS : list (string * (ProviderKind * string)) :=
  [("claude", (ANTHROPIC, "claude-sonnet-4-20250514")); ("claude-opus", (ANTHROPIC, "claude-opus-4-20250514"));
   ("claude-haiku", (ANTHROPIC, "claude-haiku-3-5-20241022")); ("gpt", (OPENAI, "gpt-4o-mini"));
   ("gpt4", (OPENAI, "gpt-4o")); ("gpt35", (OPENAI, "gpt-3.5-turbo")); ("openrouter", (OPENROUTER, "openrouter/auto"));
   ("local", (OLLAMA, "llama3.1")); ("ollama", (OLLAMA, "llama3.1")); ("echo", (ECHO, "echo"))]%string.

Definition Env : Type := list (string * string).

Definition nonempty (s : option string) : option string :=
  match s with Some t => if String.eqb t "" then None else Some t | None => None end.

(** Python's [a or b] on optional strings *)
Definition por (a b : option string) : option string := match nonempty a with Some s => Some s | None => b end.

(** [_get(env, *names)] *)
Fixpoint get_env (env : Env) (names : list string) : option string :=
  match names with
  | [] => None
  | n :: names' => match nonempty (dget n env) with Some v => Some v | None => get_env env names' end
  end.

(** [os.environ.get(name, d)] *)
Definition environ_get (env : Env) (name d : string) : string := default d (dget name env).

(** A line of [_load_dotenv] *)
Definition load_env_line (env : Env) (raw : string) : Env :=
  let line := py_strip raw in
  if String.eqb line "" || py_startswith line "#" then env
  else match partition_at "="%char (to_chars line) with
       | None => env
       | Some (k, v) =>
           let key := py_strip (of_chars k) in
           let value := strip_by (fun c => Ascii.eqb c "'" || Ascii.eqb c quote) (py_strip (of_chars v)) in
           if negb (String.eqb key "") && negb (dmem key env) then dset key value env else env
       end.

(** [_load_dotenv]: what each candidate file holds, [None] for no file *)
Fixpoint load_env_files (env : Env) (candidates : list (option (result string))) : result Env :=
  match candidates with
  | [] => Ok env
  | None :: l | Some (Err SqliteError) :: l => load_env_files env l
  | Some (Err e) :: _ => Err e
  | Some (Ok text) :: _ => Ok (fold_left load_env_line (splitlines text) env)
  end.

Section Config.
Context (py_int : string -> result Z) (py_float : string -> result spec_float) (nan_ok : bool).

(** The field constraints; [nan_ok] is whether Pydantic lets a nan pass a bound. *)
Definition bounded (test : spec_float -> bool) (f : spec_float) : bool :=
  match f with S754_nan => nan_ok | _ => test f end.

Definition new_config (k : ProviderKind) (m : string) (key url : option string) (tokens : Z) (temp time : spec_float)
    : result LLMConfig :=
  _ ← raise_if (negb (0 <? tokens)%Z) ValueError;
  _ ← raise_if (negb (bounded (fun f => SFleb zero f && SFleb f two) temp)) ValueError;
  _ ← raise_if (negb (bounded (SFltb zero) time)) ValueError;
  Ok (mk_Config k m key url tokens temp time).

Definition detect_kind (env : Env) : ProviderKind :=
  if bool_decide (is_Some (get_env env ["OPENAI_API_KEY"%string])) then OPENAI
  else if bool_decide (is_Some (get_env env ["ANTHROPIC_API_KEY"%string])) then ANTHROPIC
  else if bool_decide (is_Some (get_env env ["OPENROUTER_API_KEY"%string])) then OPENROUTER
  else if bool_decide (is_Some (get_env env ["OLLAMA_HOST"; "OLLAMA_BASE_URL"]%string)) then OLLAMA
  else if bool_decide (is_Some (get_env env ["OPENAI_BASE_URL"; "LLM_BASE_URL"; "LOCAL_LLM_URL"]%string)) then LOCAL
  else ECHO.

(** The provider's own variables: its key, its endpoint, its model *)
Definition provider_env (k : ProviderKind) : list string * list string * list string :=
  match k with
  | OPENAI => (["OPENAI_API_KEY"], ["OPENAI_BASE_URL"], ["OPENAI_MODEL"])
  | ANTHROPIC => (["ANTHROPIC_API_KEY"], ["ANTHROPIC_BASE_URL"], ["ANTHROPIC_MODEL"])
  | OPENROUTER => (["OPENROUTER_API_KEY"], ["OPENROUTER_BASE_URL"; "OPENAI_BASE_URL"], ["OPENROUTER_MODEL"])
  | OLLAMA | LOCAL => ([], ["OLLAMA_HOST"; "OLLAMA_BASE_URL"; "LOCAL_LLM_URL"], ["OLLAMA_MODEL"; "LOCAL_LLM_MODEL"])
  | ECHO | POLLINATIONS => ([], [], [])
  end%string.

(** The default of the branch taken: the last branch is every other kind's. *)
Definition branch_default (k : ProviderKind) : string :=
  match k with ECHO | POLLINATIONS => DEFAULT_MODELS ECHO | _ => DEFAULT_MODELS k end.

(** [load_config], after the dotenv files; [kind] is a kind or its name *)
Definition load_config (env : Env) (kind : option (ProviderKind + string)) (m : option string) : result LLMConfig :=
  k ← match kind with
      | None => match get_env env ["LLM_PROVIDER"%string] with
                | Some raw => kind_of (py_lower raw)
                | None => Ok (detect_kind env)
                end
      | Some (inl k) => Ok k
      | Some (inr name) => kind_of (py_lower name)
      end;
  let '(keys, urls, models) := provider_env k in
  let key := por (get_env env ["LLM_API_KEY"%string]) (get_env env keys) in
  let url := por (get_env env ["LLM_BASE_URL"%string]) (get_env env urls) in
  let resolved := por (por m (get_env env ["LLM_MODEL"%string])) (Some (default (branch_default k) (get_env env models))) in
  tokens ← match get_env env ["LLM_MAX_TOKENS"%string] with Some t => py_int t | None => Ok 1024%Z end;
  temp ← match get_env env ["LLM_TEMPERATURE"%string] with Some t => py_float t | None => Ok seven_tenths end;
  time ← match get_env env ["LLM_TIMEOUT"; "LLM_TIMEOUT_S"]%string with Some t => py_float t | None => Ok sixty end;
  new_config k (default (DEFAULT_MODELS ECHO) (nonempty resolved)) (nonempty key) url tokens temp time.

(** [load_named_provider(name, load_dotenv=False)] *)
Definition load_named_provider (env : Env) (name : string) : result LLMConfig :=
  let key := py_lower (py_strip name) in
  match dget key NAMED_PRESETS with
  | None => Err ValueError
  | Some (k, default_model) =>
      let prefix := py_upper (replace_char "-"%char "_"%char key) in
      let m := default default_model (get_env env [prefix +:+ "_MODEL"]%string) in
      base ← load_config env (Some (inl k)) (Some m);
      new_config (provider base) (model base)
        (match get_env env [prefix +:+ "_API_KEY"]%string with Some v => Some v | None => api_key base end)
        (match get_env env [prefix +:+ "_BASE_URL"]%string with Some v => Some v | None => base_url base end)
        (max_tokens base) (temperature base) (timeout base)
  end.
End Config.

(** ** The owner's dispatch *)

Definition MAX_DISPATCH : Z := 65536.

(** [_bounded_dispatch_text]; Latin-1 always encodes. *)
Definition bounded_dispatch_text (value : string) : result string :=
  _ ← raise_if (MAX_DISPATCH <? py_len value)%Z ValueError;
  _ ← raise_if (MAX_DISPATCH <? utf8_len value)%Z ValueError;
  Ok value.

(** [_response_text] *)
Definition response_text (value : json) : result string :=
  match value with JStr s => Ok s | _ => Err TypeError end.

(** [urlsplit(url)] with the attributes read from it *)
Record Endpoint := mk_Endpoint {
  scheme : string;
  hostname : option string;
  username : option string;
  password : option string;
  port : option Z;
}.

Record LLMDispatchSnapshot := mk_Snapshot {
  sn_provider : string;
  sn_model : string;
  sn_base_url : string;
  sn_api_key : string;
  sn_max_tokens : Z;
  sn_temperature : spec_float;
  sn_timeout : spec_float;
}.

Definition finite (f : spec_float) : bool :=
  match f with S754_zero _ | S754_finite _ _ _ => true | _ => false end.

(** [char.isspace() or ord(char) < 32] *)
Definition unprintable (c : ascii) : bool := is_space c || (code c <? 32)%N.

Section Adapter.
(** [None] where [urlsplit], [hostname] or [port] raise [ValueError]; [ip_address(host).is_loopback] *)
Context (urlsplit : string -> option Endpoint) (is_loopback : string -> option bool).

(** [_validate_dispatch_endpoint] *)
Definition validate_dispatch_endpoint (url : string) : result unit :=
  _ ← raise_if (String.eqb url "" || existsb unprintable (to_chars url)) ValueError;
  _ ← raise_if (existsb (fun c => bool_decide (c ∈ ["\"; "?"; "#"]%char)) (to_chars url)) ValueError;
  match urlsplit url with
  | None => Err ValueError
  | Some e =>
      match nonempty (hostname e) with
      | None => Err ValueError
      | Some host =>
          _ ← raise_if (bool_decide (is_Some (username e)) || bool_decide (is_Some (password e)) ||
                        match port e with Some p => (p <=? 0)%Z | None => false end) ValueError;
          if String.eqb (scheme e) "https" then Ok tt
          else if String.eqb (scheme e) "http" then
            if String.eqb host "localhost" then Ok tt
            else match is_loopback host with Some true => Ok tt | _ => Err ValueError end
          else Err ValueError
      end
  end.

(** [LLMDispatchSnapshot.__post_init__] *)
Definition check_snapshot (s : LLMDispatchSnapshot) : result unit :=
  _ ← raise_if (negb (bool_decide (sn_provider s ∈ ["openai"; "echo"]%string))) ValueError;
  _ ← raise_if (String.eqb (sn_model s) "" || existsb unprintable (to_chars (sn_model s))) ValueError;
  _ ← raise_if (sn_max_tokens s <=? 0)%Z ValueError;
  _ ← raise_if (negb (finite (sn_temperature s)) || negb (SFleb zero (sn_temperature s) && SFleb (sn_temperature s) two))
        ValueError;
  _ ← raise_if (negb (finite (sn_timeout s)) || negb (SFltb zero (sn_timeout s) && SFleb (sn_timeout s) forty_five)) ValueError;
  if String.eqb (sn_provider s) "echo" then
    raise_if (negb (String.eqb (sn_base_url s) "") || negb (String.eqb (sn_api_key s) "")) ValueError
  else
    _ ← raise_if (String.eqb (sn_api_key s) "" || negb (forallb (in_range 33 126) (to_chars (sn_api_key s)))) ValueError;
    validate_dispatch_endpoint (sn_base_url s).

(** [LLMAdapter] *)
Record LLMAdapter := mk_LLMAdapter {
  la_explicit : bool;
  la_provider : string;
  la_model : string;
  la_api_key : string;
  la_base_url : string;
  la_max_tokens : Z;
  la_temperature : spec_float;
  la_timeout : spec_float;
}.

(** [LLMAdapter(config=...)] *)
Definition adapter_of_config (c : LLMConfig) : LLMAdapter :=
  mk_LLMAdapter true (kind_value (provider c)) (model c) (default "" (api_key c))%string (default "" (base_url c))%string
    (max_tokens c) (temperature c) (timeout c).

(** [_detect_provider] *)
Definition detect_provider (env : Env) : string :=
  if bool_decide (is_Some (get_env env ["OPENAI_API_KEY"%string])) then "openai"
  else if bool_decide (is_Some (get_env env ["ANTHROPIC_API_KEY"%string])) then "anthropic"
  else if bool_decide (is_Some (get_env env ["OPENROUTER_API_KEY"%string])) then "openrouter"
  else if bool_decide (is_Some (get_env env ["OLLAMA_HOST"; "OLLAMA_BASE_URL"]%string)) then "ollama"
  else "pollinations".

(** [_default_model] *)
Definition default_model (p : string) : string :=
  default "openai-fast" (dget p
    [("nous", "meituan/longcat-2.0:free"); ("openai", "gpt-4o-mini"); ("anthropic", "claude-3-5-haiku-20241022");
     ("openrouter", "qwen/qwen3.8-27b:free"); ("pollinations", "openai-fast"); ("ollama", "llama3.1"); ("echo", "echo")])%string.

(** [LLMAdapter(provider, model, api_key, base_url, ...)] *)
Definition new_llm_adapter (env : Env) (p m key url : option string) (tokens : Z) (temp time : spec_float) : LLMAdapter :=
  let given := fun o => bool_decide (is_Some (nonempty o)) in
  let or_env := fun o name => default (environ_get env name "") (nonempty o) in
  let p1 := or_env p "AGENCY_LLM_PROVIDER"%string in
  let provider := if String.eqb p1 "" then detect_provider env else p1 in
  let m1 := or_env m "AGENCY_LLM_MODEL"%string in
  mk_LLMAdapter (given p && given m && (bool_decide (p = Some "echo"%string) || given url && given key)) provider
    (if String.eqb m1 "" then default_model provider else m1)
    (or_env key "AGENCY_LLM_API_KEY"%string) (or_env url "AGENCY_LLM_BASE_URL"%string) tokens temp time.

(** [freeze_dispatch] *)
Definition freeze_dispatch (a : LLMAdapter) : result LLMDispatchSnapshot :=
  _ ← raise_if (negb (la_explicit a)) ValueError;
  let s := mk_Snapshot (la_provider a) (la_model a) (la_base_url a) (la_api_key a) (la_max_tokens a) (la_temperature a)
             (la_timeout a) in
  _ ← check_snapshot s; Ok s.

(** ** Requests *)

Record Request := mk_Request {
  rq_url : string;
  rq_headers : list (string * string);
  rq_body : json;
  rq_timeout : spec_float;
  rq_trust_env : bool;
}.

Context {W : Type} (post : Request -> py W json) (float_repr : spec_float -> string).

(** [v[key]] and [v[0]] *)
Definition item (key : string) (v : json) : result json :=
  match v with
  | JObj d => match dget key d with Some x => Ok x | None => Err KeyError end
  | _ => Err TypeError
  end.

Definition first (v : json) : result json :=
  match v with
  | JList (x :: _) => Ok x
  | JStr (String c _) => Ok (JStr (String c ""))
  | JList [] | JStr "" => Err IndexError
  | JObj _ => Err KeyError
  | _ => Err TypeError
  end.

Definition user_message (prompt : string) : json :=
  JList [JObj [("role", JStr "user"); ("content", JStr prompt)]]%string.

Definition chat_body (m : json) (prompt : string) (tokens : Z) (temp : spec_float) : json :=
  JObj [("model", m); ("messages", user_message prompt); ("max_tokens", JInt tokens); ("temperature", JFloat (float_repr temp))]%string.

Definition bearer (key : string) : list (string * string) :=
  [("Authorization", "Bearer " +:+ key); ("Content-Type", "application/json")]%string.

(** [data["choices"][0]["message"]["content"]], which must be text *)
Definition chat_text (data : json) : result string :=
  choices ← item "choices" data; c ← first choices; m ← item "message" c; x ← item "content" m; response_text x.

(** [_echo_generate] *)
Definition echo_generate (prompt : string) : string := ("Echo: " +:+ prompt)%string.

(** [generate_bound] *)
Definition generate_bound (prompt : string) (s : LLMDispatchSnapshot) : py W string :=
  _ ← lift (check_snapshot s);
  prompt ← lift (bounded_dispatch_text prompt);
  if String.eqb (sn_provider s) "echo" then lift (bounded_dispatch_text (echo_generate prompt))
  else
    data ← post (mk_Request (rstrip_by (fun c => Ascii.eqb c "/") (sn_base_url s) +:+ "/chat/completions")
                   (bearer (sn_api_key s)) (chat_body (JStr (sn_model s)) prompt (sn_max_tokens s) (sn_temperature s))
                   (sn_timeout s) false);
    text ← lift (chat_text data);
    lift (bounded_dispatch_text text).

(** ** The other providers *)

(** [v.get(key)], absent as [None]; what is no dict has no [get]. *)
Definition get_item (key : string) (v : json) : result (option json) :=
  match v with JObj d => Ok (dget key d) | _ => Err AttributeError end.

(** A value that is false in a condition *)
Definition falsy (v : json) : bool :=
  match v with
  | JNull | JBool false | JStr "" | JList [] | JObj [] => true
  | JInt z => (z =? 0)%Z
  | JFloat r => bool_decide (r ∈ ["0.0"; "-0.0"]%string)
  | _ => false
  end.

Definition nonblank (v : option json) : option string :=
  match v with Some (JStr t) => if is_blank t then None else Some t | _ => None end.

(** [json.dumps] with its defaults, on a value read from JSON *)
Fixpoint name_nonfinite (v : json) : json :=
  match v with
  | JFloat "nan" => JFloat "NaN"
  | JFloat "inf" => JFloat "Infinity"
  | JFloat "-inf" => JFloat "-Infinity"
  | JList l => JList (map name_nonfinite l)
  | JObj d => JObj (map (fun e => (e.1, name_nonfinite e.2)) d)
  | _ => v
  end.
Definition ascii_escape (c : ascii) : chars :=
  if (127 <=? code c)%N then to_chars "\u00" ++ [hex_digit (code c / 16); hex_digit (code c mod 16)] else [c].
Definition dumps_ascii (v : json) : result string :=
  text ← dump_plain (name_nonfinite v); Ok (of_chars (flat_map ascii_escape (to_chars text))).

Context (parse_float : string -> string) (limit : nat).

(** A native tool call, in the driver's protocol *)
Definition call_text (message : json) : result (option string) :=
  calls ← get_item "tool_calls" message;
  match calls with
  | Some (JList (c :: _)) =>
      function ← match c with
                 | JObj d => Ok (default (JObj []) (dget "function"%string d))
                 | _ => Ok (JObj [])
                 end;
      name ← get_item "name" function;
      match nonblank name with
      | None => Ok None
      | Some n =>
          raw ← get_item "arguments" function;
          args ← match default (JStr "{}") raw with
                 | JStr t => match json_loads parse_float limit t with
                             | Err ValueError => Ok (JObj [])
                             | r => r
                             end
                 | v => Ok v
                 end;
          text ← dumps_ascii (JObj [("action"%string, JObj [("name", JStr (py_strip n)); ("args", args)]%string)]);
          Ok (Some text)
      end
  | _ => Ok None
  end.

(** The text of a Pollinations answer *)
Definition pollinations_text (data : json) : result string :=
  match data with
  | JStr t => Ok t
  | _ =>
      choices ← get_item "choices" data;
      found ← match choices with
              | Some (JList (c :: _)) =>
                  let message := match c with JObj d => default (JObj []) (dget "message"%string d) | _ => JObj [] end in
                  content ← get_item "content" message;
                  match nonblank content with
                  | Some t => Ok (Some t)
                  | None =>
                      call ← call_text message;
                      match call with
                      | Some t => Ok (Some t)
                      | None => reasoning ← get_item "reasoning" message; Ok (nonblank reasoning)
                      end
                  end
              | _ => Ok None
              end;
      match found with
      | Some t => Ok t
      | None =>
          content ← get_item "content" data;
          match nonblank content with Some t => Ok t | None => Err ValueError end
      end
  end.

(** [a or b] on strings *)
Definition sor (a b : string) : string := if String.eqb a "" then b else a.

Definition chat_request (a : LLMAdapter) (base key : string) (m : json) (prompt : string) : Request :=
  mk_Request (base +:+ "/chat/completions") (bearer key) (chat_body m prompt (la_max_tokens a) (la_temperature a))
    (la_timeout a) true.

Definition remove_suffix (suffix s : string) : string :=
  let '(l, k) := (rev (to_chars s), rev (to_chars suffix)) in
  if String.prefix (of_chars k) (of_chars l) then of_chars (rev (drop (length k) l)) else s.

(** [_nous_generate] and the other generators, by provider *)
Definition provider_request (env : Env) (a : LLMAdapter) (p : string) (m : json) (prompt : string) : option Request :=
  if String.eqb p "nous" then
    Some (chat_request a (sor (la_base_url a) "https://api.nousresearch.com/v1")
            (sor (la_api_key a) (environ_get env "NOUS_API_KEY" "")) m prompt)
  else if String.eqb p "openai" then
    Some (chat_request a (sor (la_base_url a) "https://api.openai.com/v1") (la_api_key a) m prompt)
  else if String.eqb p "anthropic" then
    Some (mk_Request (sor (la_base_url a) "https://api.anthropic.com/v1" +:+ "/messages")
            [("x-api-key", la_api_key a); ("Content-Type", "application/json"); ("anthropic-version", "2023-06-01")]
            (JObj [("model", m); ("max_tokens", JInt (la_max_tokens a)); ("messages", user_message prompt)])
            (la_timeout a) true)
  else if String.eqb p "openrouter" then
    Some (chat_request a (sor (la_base_url a) "https://openrouter.ai/api/v1") (la_api_key a) m prompt)
  else if String.eqb p "pollinations" then
    Some (mk_Request "https://text.pollinations.ai/openai" []
            (JObj [("model", m); ("messages", user_message prompt)]) (la_timeout a) true)
  else if String.eqb p "ollama" then
    let base := sor (la_base_url a) (environ_get env "OLLAMA_HOST" "http://localhost:11434") in
    Some (mk_Request (remove_suffix "/v1" base +:+ "/api/generate") []
            (JObj [("model", m); ("prompt", JStr prompt); ("stream", JBool false)]) (la_timeout a) true)
  else None%string.

Definition provider_text (p : string) (data : json) : result string :=
  if String.eqb p "anthropic" then c ← item "content" data; x ← first c; t ← item "text" x; response_text t
  else if String.eqb p "pollinations" then pollinations_text data
  else if String.eqb p "ollama" then r ← get_item "response" data; response_text (default (JStr "") r)
  else chat_text data.

(** [generate(prompt, context)] *)
Definition generate (env : Env) (a : LLMAdapter) (prompt : string) (ctx : list (string * json)) : py W string :=
  let m := default (JStr (la_model a)) (dget "model"%string ctx) in
  match default (JStr (la_provider a)) (dget "provider"%string ctx) with
  | JStr p =>
      if String.eqb p "echo" then mret (echo_generate prompt)
      else match provider_request env a p m prompt with
           | Some rq => data ← post rq; lift (provider_text p data)
           | None => raise ValueError
           end
  | _ => raise ValueError
  end.
End Adapter.

(** ** Routing *)

Inductive TaskKind := REASONING | CODE | FAST | PRIVATE | GENERAL.

#[export] Instance TaskKind_eq_dec : EqDecision TaskKind.
Proof. solve_decision. Defined.

Definition task_value (k : TaskKind) : string :=
  match k with REASONING => "reasoning" | CODE => "code" | FAST => "fast" | PRIVATE => "private" | GENERAL => "general" end.

Definition task_kind_of (text : string) : option TaskKind :=
  List.find (fun k => String.eqb (task_value k) text) [REASONING; CODE; FAST; PRIVATE; GENERAL].

Definition REASONING_HINTS : list string :=
  ["prove"; "theorem"; "reason"; "analyse"; "analyze"; "strategy"; "plan"; "argue"; "philosoph"; "research"; "opinion";
   "complex"]%string.
Definition CODE_HINTS : list string :=
  ["code"; "python"; "typescript"; "rust"; " refactor"; "debug"; "function"; "class "; "sql"; "regex"; "implement";
   "compile"]%string.
Definition FAST_HINTS : list string :=
  ["summarise"; "summarize"; "tldr"; "quick"; "short"; "headline"; "classify"; "label"]%string.
Definition PRIVATE_HINTS : list string := ["secret"; "private"; "internal"; "confidential"; "offline"; "local"]%string.

(** [classify_task] *)
Definition classify_task (task : string) : TaskKind :=
  let lowered := py_lower task in
  let hinted := existsb (fun h => str_contains h lowered) in
  if hinted PRIVATE_HINTS then PRIVATE
  else if hinted CODE_HINTS then CODE
  else if hinted REASONING_HINTS then REASONING
  else if hinted FAST_HINTS || (length (py_split task) <? 12) then FAST
  else GENERAL.

Definition TASK_ROUTES (k : TaskKind) : list string :=
  match k with
  | REASONING => ["claude-opus"; "claude"; "gpt4"; "gpt"]
  | CODE => ["gpt4"; "claude"; "gpt"; "local"]
  | FAST => ["claude-haiku"; "gpt35"; "gpt"; "local"]
  | PRIVATE => ["local"; "ollama"; "echo"]
  | GENERAL => ["gpt"; "claude"; "local"]
  end%string.

Section Router.
(** Whether the [ollama] package imports *)
Context (py_int : string -> result Z) (py_float : string -> result spec_float) (nan_ok has_ollama : bool).

(** [_preset_usable] *)
Definition preset_usable (c : LLMConfig) : bool :=
  match provider c with
  | ECHO => true
  | OLLAMA | LOCAL => has_ollama
  | _ => bool_decide (is_Some (api_key c))
  end.

Record LLMRouter := mk_Router {
  rt_adapter : LLMAdapter;
  rt_routes : TaskKind -> list string;
  rt_cache : list (string * LLMAdapter);
}.

(** [_adapter_for_preset] *)
Definition adapter_for_preset (env : Env) (preset : string) : py LLMRouter (option LLMAdapter) :=
  r ← get;
  match dget preset (rt_cache r) with
  | Some a => mret (Some a)
  | None =>
      match load_named_provider py_int py_float nan_ok env preset with
      | Err ValueError => mret None
      | Err e => raise e
      | Ok c =>
          if negb (preset_usable c) then mret None
          else
            let a := adapter_of_config c in
            _ ← modify (fun r => mk_Router (rt_adapter r) (rt_routes r) (dset preset a (rt_cache r)));
            mret (Some a)
      end
  end.

(** The first preset of the list that has an adapter *)
Fixpoint first_adapter (env : Env) (presets : list string) : py LLMRouter (option LLMAdapter) :=
  match presets with
  | [] => mret None
  | p :: l => a ← adapter_for_preset env p; match a with Some a => mret (Some a) | None => first_adapter env l end
  end.

Abbreviation RouteContext := (list (string * json)).

Definition truthy_at (key : string) (ctx : RouteContext) : option json :=
  match dget key ctx with Some v => if falsy v then None else Some v | None => None end.

(** [_kind_of]; the text of a value that is no string names no kind. *)
Definition task_kind (task : string) (ctx : RouteContext) : TaskKind :=
  match truthy_at "task_kind" ctx with
  | Some (JStr t) => default (classify_task task) (task_kind_of (py_lower t))
  | _ => classify_task task
  end.

(** [_select] *)
Definition select (env : Env) (task : string) (ctx : RouteContext) : py LLMRouter LLMAdapter :=
  match dget "provider"%string ctx with
  | Some (JStr preset) =>
      if is_blank preset then raise ValueError
      else a ← adapter_for_preset env preset; match a with Some a => mret a | None => raise ValueError end
  | Some _ => raise ValueError
  | None =>
      r ← get;
      match truthy_at "model" ctx with
      | Some _ => mret (rt_adapter r)
      | None => a ← first_adapter env (rt_routes r (task_kind task ctx)); mret (default (rt_adapter r) a)
      end
  end.

(** [_merged_context] *)
Definition merged_context (ctx : RouteContext) (a : LLMAdapter) : RouteContext :=
  if dmem "provider"%string ctx then
    dset "strict"%string (JBool true) (dset "provider"%string (JStr (la_provider a)) ctx)
  else ctx.

(** [route] *)
Context {W : Type} (post : Request -> py W json) (float_repr : spec_float -> string).
Context (parse_float : string -> string) (limit : nat).

Definition on_router {A} (m : py LLMRouter A) : py (LLMRouter * W) A := fun s =>
  let '(x, r) := m s.1 in (x, (r, s.2)).
Definition on_net {A} (m : py W A) : py (LLMRouter * W) A := fun s => let '(x, w) := m s.2 in (x, (s.1, w)).

Definition route (env : Env) (task : string) (ctx : RouteContext) : py (LLMRouter * W) string :=
  a ← on_router (select env task ctx);
  on_net (generate post float_repr parse_float limit env a task (merged_context ctx a)).

(** ** A supplied provider is a constraint *)

(** An adapter the router made for a preset *)
Definition made_for (preset : string) (a : LLMAdapter) : Prop :=
  exists env c, load_named_provider py_int py_float nan_ok env preset = Ok c /\ preset_usable c = true /\ a = adapter_of_config c.

Definition cache_ok (r : LLMRouter) : Prop := forall p a, dget p (rt_cache r) = Some a -> made_for p a.

Lemma new_config_kind k m key url tokens temp time c : new_config nan_ok k m key url tokens temp time = Ok c -> provider c = k.
Proof.
  unfold new_config. intros (u1 & _ & (u2 & _ & (u3 & _ & [= <-])%result_bind_ok)%result_bind_ok)%result_bind_ok. done.
Qed.

Lemma load_kind env preset c : load_named_provider py_int py_float nan_ok env preset = Ok c ->
  exists k m, dget (py_lower (py_strip preset)) NAMED_PRESETS = Some (k, m) /\ provider c = k.
Proof.
  unfold load_named_provider. intros Hc.
  destruct (dget _ NAMED_PRESETS) as [[k m]|] eqn:Hk; [|done]. exists k, m. split; [done|].
  apply result_bind_ok in Hc as (b & Hb & Hc). apply new_config_kind in Hc. rewrite Hc.
  unfold load_config in Hb. cbn [mbind result_bind] in Hb. destruct (provider_env k) as [[? ?] ?].
  apply result_bind_ok in Hb as (t & _ & (u & _ & (x & _ & Hb)%result_bind_ok)%result_bind_ok). by apply new_config_kind in Hb.
Qed.

(** A preset is served by its own backend. *)
Lemma made_for_kind preset a :
  made_for preset a -> exists k m, dget (py_lower (py_strip preset)) NAMED_PRESETS = Some (k, m) /\ la_provider a = kind_value k.
Proof. intros (env & c & (k & m & Hk & <-)%load_kind & _ & ->). eauto. Qed.

Lemma adapter_for_preset_run env preset r x r' :
  cache_ok r -> adapter_for_preset env preset r = (x, r') ->
  cache_ok r' /\ rt_adapter r' = rt_adapter r /\ rt_routes r' = rt_routes r /\
  forall a, x = Ok (Some a) -> made_for preset a.
Proof.
  intros Hok. unfold adapter_for_preset, get. rewrite bind_run. destruct (dget preset (rt_cache r)) as [a|] eqn:Hc.
  { intros [= <- <-]. split_and!; try done. intros a' [= <-]. by apply Hok. }
  destruct (load_named_provider _ _ _ env preset) as [c|[]] eqn:Hl; try (intros [= <- <-]; by split_and!).
  destruct (preset_usable c) eqn:Hu; cbn [negb]; [|by intros [= <- <-]]. intros [= <- <-]. cbn.
  assert (made_for preset (adapter_of_config c)) as Hm by by exists env, c. split_and!; [|done|done|by intros a' [= <-]].
  intros p a. cbn. rewrite dget_dset. destruct (decide _) as [<-|]; [by intros [= <-]|apply Hok].
Qed.

Lemma first_adapter_run env presets r x r' :
  cache_ok r -> first_adapter env presets r = (x, r') ->
  cache_ok r' /\ rt_adapter r' = rt_adapter r /\
  forall a, x = Ok (Some a) -> exists p, p ∈ presets /\ made_for p a.
Proof.
  revert r. induction presets as [|p l IH]; intros r Hok Hr; [by injection Hr as <- <-|]. cbn in Hr.
  apply py_bind_cases in Hr as [(e & H1 & ->)|(o & r1 & H1 & Hr)];
    apply adapter_for_preset_run in H1 as (Hok1 & Ha & _ & Hm); try done.
  destruct o as [a|].
  - injection Hr as <- <-. split_and!; [done|done|]. intros a' [= <-]. exists p. split; [by left|by apply Hm].
  - apply IH in Hr as (Hok2 & Ha' & Hm'); [|done]. split_and!; [done|congruence|]. intros a Hx.
    destruct (Hm' a Hx) as (q & Hq & ?). exists q. by split; [right|].
Qed.

(** What one generation does with the backend [p] and the model [m]: the echo
    provider answers by itself; any other posts its one request, and the reply is
    the text of the answer, or the error of the network or of an answer without a
    text; a backend without a request fails. *)
Definition answered env (a : LLMAdapter) (p : string) (m : json) (prompt : string) (w : W) (x : result string) (w' : W) : Prop :=
  if String.eqb p "echo" then w' = w /\ x = Ok ("Echo: " +:+ prompt)%string
  else match provider_request float_repr env a p m prompt with
       | None => w' = w /\ x = Err ValueError
       | Some rq => (exists d, post rq w = (Ok d, w') /\ x = provider_text parse_float limit p d) \/
                    exists e, post rq w = (Err e, w') /\ x = Err e
       end.

Lemma generate_answered env a prompt ctx w x w' p :
  default (JStr (la_provider a)) (dget "provider"%string ctx) = JStr p ->
  generate post float_repr parse_float limit env a prompt ctx w = (x, w') ->
  answered env a p (default (JStr (la_model a)) (dget "model"%string ctx)) prompt w x w'.
Proof.
  intros Hp. unfold generate, answered. rewrite Hp. destruct (String.eqb p "echo"); [by intros [= <- <-]|].
  destruct (provider_request _ _ _ _ _ _) as [rq|]; [|by intros [= <- <-]].
  rewrite bind_run. destruct (post rq w) as [[d|e] w1]; intros [= <- <-]; eauto.
Qed.

(** The router's adapter for a preset: the one it made before, or one made now from
    the preset's configuration, and kept. *)
Definition serves env (preset : string) (r : LLMRouter) (a : LLMAdapter) (r' : LLMRouter) : Prop :=
  match dget preset (rt_cache r) with
  | Some b => a = b /\ r' = r
  | None => exists c, load_named_provider py_int py_float nan_ok env preset = Ok c /\ preset_usable c = true /\
              a = adapter_of_config c /\ r' = mk_Router (rt_adapter r) (rt_routes r) (dset preset a (rt_cache r))
  end.

(** The preset has no configuration in this environment, or an unusable one. *)
Definition unavailable env (preset : string) (r : LLMRouter) (e : exn) : Prop :=
  dget preset (rt_cache r) = None /\
  (load_named_provider py_int py_float nan_ok env preset = Err e \/
   e = ValueError /\ exists c, load_named_provider py_int py_float nan_ok env preset = Ok c /\ preset_usable c = false).

(** A provider that is no name *)
Definition no_name (v : json) : Prop := match v with JStr preset => is_blank preset = true | _ => True end.

Lemma select_given env task ctx v r x r' :
  dget "provider"%string ctx = Some v -> select env task ctx r = (x, r') ->
  match x with
  | Ok a => exists preset, v = JStr preset /\ is_blank preset = false /\ serves env preset r a r'
  | Err e => r' = r /\ (no_name v /\ e = ValueError \/ exists preset, v = JStr preset /\ unavailable env preset r e)
  end.
Proof.
  intros Hv. unfold select, no_name, serves, unavailable. rewrite Hv.
  destruct v as [| | | |preset| | |]; try (intros [= <- <-]; by auto).
  destruct (is_blank preset) eqn:Hb; [intros [= <- <-]; by auto|].
  unfold adapter_for_preset, get. rewrite !bind_run. destruct (dget preset (rt_cache r)) as [a|] eqn:Hc.
  { intros [= <- <-]. exists preset. by rewrite Hc. }
  destruct (load_named_provider _ _ _ env preset) as [c|e] eqn:Hl.
  - destruct (preset_usable c) eqn:Hu; cbn [negb]; intros [= <- <-].
    + exists preset. rewrite Hc. eauto 10.
    + split; [done|]. right. exists preset. rewrite Hl. eauto 10.
  - intros Hx. assert (x = Err e /\ r' = r) as [-> ->] by (destruct e; by injection Hx as <- <-).
    split; [done|]. right. exists preset. rewrite Hl. auto.
Qed.

Lemma serves_made env preset r a r' :
  cache_ok r -> serves env preset r a r' -> cache_ok r' /\ made_for preset a.
Proof.
  unfold serves. intros Hok. destruct (dget preset (rt_cache r)) as [b|] eqn:Hc.
  { intros [-> ->]. split; [done | by apply Hok]. }
  intros (c & Hl & Hu & -> & ->). assert (made_for preset (adapter_of_config c)) as Hm by by exists env, c.
  split; [|done]. intros p a. cbn. rewrite dget_dset. destruct (decide _) as [<-|]; [by intros [= <-] | apply Hok].
Qed.

(** C24: A supplied provider is a constraint. A routed task whose context names a
    provider fails, having posted nothing and kept its router, when that is no
    non-blank name or its preset is not available here; otherwise the adapter is
    the preset's own (the kept one, or one made from its configuration and kept),
    and the task's outcome is what that backend, with the context's model or its
    own, makes of the task: the text of the one answer to its one request, or an
    error. A failed backend is never answered by the echo provider or another. *)
Theorem provider_is_constraint env task ctx v r w x r' w' :
  cache_ok r -> dget "provider"%string ctx = Some v -> route env task ctx (r, w) = (x, (r', w')) ->
  cache_ok r' /\
  ((r' = r /\ w' = w /\
    exists e, x = Err e /\ (no_name v /\ e = ValueError \/ exists preset, v = JStr preset /\ unavailable env preset r e)) \/
   exists preset k m a, v = JStr preset /\ is_blank preset = false /\ serves env preset r a r' /\
     dget (py_lower (py_strip preset)) NAMED_PRESETS = Some (k, m) /\ la_provider a = kind_value k /\
     answered env a (kind_value k) (default (JStr (la_model a)) (dget "model"%string ctx)) task w x w').
Proof.
  intros Hok Hv. unfold route. rewrite bind_run. unfold on_router at 1. cbn [fst snd].
  destruct (select env task ctx r) as [[a|e] r1] eqn:Hs; apply (select_given _ _ _ _ _ _ _ Hv) in Hs.
  2: { intros [= <- <- <-]. destruct Hs as [-> Hs]. split; [done|]. left. eauto. }
  destruct Hs as (preset & -> & Hb & Hs). destruct (serves_made _ _ _ _ _ Hok Hs) as [Hok1 (k & m & Hk & Ha)%made_for_kind].
  unfold on_net. cbn [fst snd]. destruct (generate _ _ _ _ env a task _ w) as [z w1] eqn:Hg.
  intros [= <- <- <-]. split; [done|]. right. exists preset, k, m, a. split_and!; [done..|].
  unfold merged_context, dmem in Hg. rewrite Hv, Ha in Hg.
  apply (generate_answered _ _ _ _ _ _ _ (kind_value k)) in Hg; [|by rewrite dget_dset_ne, dget_dset_eq].
  by rewrite !dget_dset_ne in Hg.
Qed.

(** Private tasks stay local: with the default routes and no override in
    the context, a task classified as private is served by Ollama or the echo
    provider, as long as the echo preset loads. *)
Theorem private_stays_local env task ctx r a r' :
  cache_ok r -> rt_routes r = TASK_ROUTES -> dget "provider"%string ctx = None -> truthy_at "model" ctx = None ->
  task_kind task ctx = PRIVATE -> (exists c, load_named_provider py_int py_float nan_ok env "echo" = Ok c) ->
  select env task ctx r = (Ok a, r') -> la_provider a ∈ ["ollama"; "echo"]%string.
Proof using py_int py_float nan_ok has_ollama.
  clear. intros Hok Hroutes Hp Hm Hk [c Hc] Hs. unfold select in Hs. rewrite Hp in Hs. unfold get in Hs. rewrite bind_run in Hs.
  rewrite Hm, Hroutes, Hk in Hs. cbn [TASK_ROUTES] in Hs. py_step Hs o r1 H1. injection Hs as <- <-.
  destruct o as [b|].
  - change (la_provider b ∈ ["ollama"; "echo"]%string).
    apply first_adapter_run in H1 as (_ & _ & Hf); [|done]. destruct (Hf b eq_refl) as (p & Hin & (k & m & Hn & ->)%made_for_kind).
    rewrite !elem_of_cons in Hin. destruct Hin as [->|[->|[->|[]%not_elem_of_nil]]]; vm_compute in Hn; injection Hn as <- <-; set_solver.
  - exfalso. cbn [first_adapter] in H1. py_step H1 o2 r2 H2. destruct o2; [by injection H1|].
    py_step H1 o3 r3 H3. destruct o3; [by injection H1|]. py_step H1 o4 r4 H4. destruct o4; [by injection H1|].
    unfold adapter_for_preset, get in H4. rewrite bind_run in H4. destruct (dget "echo"%string _); [by injection H4|].
    rewrite Hc in H4. unfold preset_usable in H4.
    destruct (load_kind _ _ _ Hc) as (k & m & Hn & He). vm_compute in Hn. injection Hn as <- <-.
    rewrite He in H4. done.
Qed.
End Router.

(** ** The owner's dispatch *)

Section Bound.
Context (urlsplit : string -> option Endpoint) (is_loopback : string -> option bool).
Context {W : Type} (post : Request -> py W json) (float_repr : spec_float -> string).

Abbreviation freeze := (freeze_dispatch urlsplit is_loopback).
Abbreviation dispatch := (generate_bound urlsplit is_loopback post float_repr).

(** An endpoint the owner's text may go to: HTTPS, or HTTP to the machine itself *)
Definition safe_endpoint (url : string) : Prop :=
  exists e host, urlsplit url = Some e /\ hostname e = Some host /\ host <> ""%string /\
    username e = None /\ password e = None /\
    (scheme e = "https"%string \/
     scheme e = "http"%string /\ (host = "localhost"%string \/ is_loopback host = Some true)).

Lemma validate_safe url : validate_dispatch_endpoint urlsplit is_loopback url = Ok tt -> safe_endpoint url.
Proof.
  unfold validate_dispatch_endpoint.
  intros (u1 & _ & (u2 & _ & H)%result_bind_ok)%result_bind_ok.
  destruct (urlsplit url) as [e|] eqn:He; [|done]. unfold nonempty in H.
  destruct (hostname e) as [host|] eqn:Hh; [|done]. destruct (String.eqb_spec host ""); [done|].
  apply result_bind_ok in H as (u3 & Hu & H). destruct u3. apply raise_if_ok in Hu. breflect.
  exists e, host. split_and!; try done.
  - by apply eq_None_not_Some.
  - by apply eq_None_not_Some.
  - destruct (String.eqb_spec (scheme e) "https"); [by left|]. right.
    destruct (String.eqb_spec (scheme e) "http"); [|done]. split; [done|].
    destruct (String.eqb_spec host "localhost"); [by left|]. right. by destruct (is_loopback host) as [[]|].
Qed.

(** C23: The owner's text leaves only over the validated endpoint: one dispatch
    posts at most once, the owner's bounded prompt to the snapshot's own HTTPS
    or loopback endpoint under its key, without the environment's proxies; the
    echo provider posts nothing; and the text returned is at most 64 KiB. *)
Theorem owner_text_bound prompt s w x w' :
  dispatch prompt s w = (x, w') ->
  (forall t, x = Ok t -> (utf8_len t <= MAX_DISPATCH)%Z) /\
  (w' = w \/
   exists rq d, post rq w = (d, w') /\ sn_provider s = "openai"%string /\ safe_endpoint (sn_base_url s) /\
     (utf8_len prompt <= MAX_DISPATCH)%Z /\
     rq = mk_Request (rstrip_by (fun c => Ascii.eqb c "/") (sn_base_url s) +:+ "/chat/completions")
            (bearer (sn_api_key s)) (chat_body float_repr (JStr (sn_model s)) prompt (sn_max_tokens s) (sn_temperature s))
            (sn_timeout s) false).
Proof.
  assert (forall t u, bounded_dispatch_text t = Ok u -> u = t /\ (utf8_len t <= MAX_DISPATCH)%Z) as Hb.
  { intros t u (u1 & _ & ([] & Hu%raise_if_ok & [= <-])%result_bind_ok)%result_bind_ok. breflect. split; [done|lia]. }
  unfold generate_bound. intros Hr.
  apply py_bind_cases in Hr as [(e & [= _ <-] & ->)|(u & s1 & [Hs ->]%lift_ok & Hr)]; [by split; [|left]|]. destruct u.
  apply py_bind_cases in Hr as [(e & [= _ <-] & ->)|(p & s1 & [[-> Hp]%Hb ->]%lift_ok & Hr)]; [by split; [|left]|].
  destruct (String.eqb_spec (sn_provider s) "echo") as [He|He].
  { injection Hr as <- <-. split; [|by left]. by intros t [-> ?]%Hb. }
  assert (sn_provider s = "openai"%string /\ safe_endpoint (sn_base_url s)) as [Ho Hsafe].
  { unfold check_snapshot in Hs. do 5 (apply result_bind_ok in Hs as ([] & ?%raise_if_ok & Hs)).
    destruct (String.eqb_spec (sn_provider s) "echo"); [done|]. apply result_bind_ok in Hs as ([] & _ & Hs%validate_safe).
    breflect. split; [|done]. set_solver. }
  apply py_bind_cases in Hr as [(e & Hpost & ->)|(d & s1 & Hpost & Hr)].
  { split; [done|]. right. do 2 eexists. by split_and!. }
  assert (s1 = w' /\ forall t, x = Ok t -> (utf8_len t <= MAX_DISPATCH)%Z) as [-> Hx].
  { apply py_bind_cases in Hr as [(e & [= _ <-] & ->)|(t & s2 & [_ ->]%lift_ok & Hr)]; [done|].
    injection Hr as <- <-. split; [done|]. by intros u [-> ?]%Hb. }
  split; [done|]. right. do 2 eexists. by split_and!.
Qed.

(** Nothing is read from the environment when everything is given. *)
Lemma new_llm_adapter_explicit env p m key url tokens temp time :
  p <> ""%string -> m <> ""%string -> key <> ""%string -> url <> ""%string ->
  new_llm_adapter env (Some p) (Some m) (Some key) (Some url) tokens temp time = mk_LLMAdapter true p m key url tokens temp time.
Proof.
  intros Hp%String.eqb_neq Hm%String.eqb_neq Hk%String.eqb_neq Hu%String.eqb_neq.
  unfold new_llm_adapter, nonempty. rewrite Hp, Hm, Hk, Hu. cbn [default from_option id]. rewrite Hp, Hm.
  rewrite !(bool_decide_true (is_Some _)) by done. by rewrite orb_true_r.
Qed.

(** The adapter the service rebuilds from a frozen OpenAI configuration freezes
    to the same dispatch. *)
Lemma refreeze env c s :
  freeze (adapter_of_config c) = Ok s -> sn_provider s = "openai"%string ->
  freeze (new_llm_adapter env (Some (sn_provider s)) (Some (sn_model s)) (Some (sn_api_key s)) (Some (sn_base_url s))
    (sn_max_tokens s) (sn_temperature s) (sn_timeout s)) = Ok s.
Proof.
  unfold freeze_dispatch at 1. cbn [la_explicit adapter_of_config negb].
  intros (u1 & _ & (u2 & Hs & [= <-])%result_bind_ok)%result_bind_ok Ho. destruct u2.
  set (s := mk_Snapshot _ _ _ _ _ _ _) in *. clearbody s. pose proof Hs as Hc. unfold check_snapshot in Hc.
  do 5 (apply result_bind_ok in Hc as ([] & ?%raise_if_ok & Hc)). rewrite Ho in Hc. cbn [String.eqb Ascii.eqb eqb] in Hc.
  apply result_bind_ok in Hc as ([] & Hk%raise_if_ok & Hv). breflect. rewrite new_llm_adapter_explicit.
  - unfold freeze_dispatch.
    cbn [la_explicit la_provider la_model la_base_url la_api_key la_max_tokens la_temperature la_timeout negb raise_if mbind result_bind].
    replace (mk_Snapshot _ _ _ _ _ _ _) with s by by destruct s. by rewrite Hs.
  - by rewrite Ho.
  - by apply String.eqb_neq.
  - by apply String.eqb_neq.
  - intros E. by rewrite E in Hv.
Qed.
End Bound.

(** ** Examples and witnesses *)

Definition no_int (t : string) : result Z := Err ValueError.
Definition no_float (t : string) : result spec_float := Err ValueError.
Definition no_repr (f : spec_float) : string := "0.7".

(** A network that answers every request alike and remembers where it went *)
Definition demo_post (rq : Request) : py (list string) json := fun sent =>
  (Ok (JObj [("content", JList [JObj [("text", JStr "hi")]])]%string), rq_url rq :: sent).

Definition demo_env : Env := [("CLAUDE_API_KEY", "k")]%string.
Definition default_adapter : LLMAdapter := new_llm_adapter [] None None None None 1024 seven_tenths sixty.
Definition demo_router : LLMRouter := mk_Router default_adapter TASK_ROUTES [].

Abbreviation demo_route := (route no_int no_float false false demo_post no_repr id 100 demo_env).

Definition claude_adapter : LLMAdapter :=
  mk_LLMAdapter true "anthropic" "claude-sonnet-4-20250514" "k" "" 1024 seven_tenths sixty.

Definition claude_router : LLMRouter := mk_Router default_adapter TASK_ROUTES [("claude"%string, claude_adapter)].

Example claude_answers :
  demo_route "hello" [("provider"%string, JStr "claude")] (demo_router, []) =
  (Ok "hi", (claude_router, ["https://api.anthropic.com/v1/messages"]))%string.
Proof. vm_compute. reflexivity. Qed.

Lemma provider_is_constraint_witness :
  cache_ok no_int no_float false false claude_router /\
  ((claude_router = demo_router /\ ["https://api.anthropic.com/v1/messages"] = [] /\
    exists e, Ok "hi" = Err e /\
      (no_name (JStr "claude") /\ e = ValueError \/
       exists preset, JStr "claude" = JStr preset /\ unavailable no_int no_float false false demo_env preset demo_router e)) \/
   exists preset k m a, JStr "claude" = JStr preset /\ is_blank preset = false /\
     serves no_int no_float false false demo_env preset demo_router a claude_router /\
     dget (py_lower (py_strip preset)) NAMED_PRESETS = Some (k, m) /\ la_provider a = kind_value k /\
     answered demo_post no_repr id 100 demo_env a (kind_value k) (default (JStr (la_model a)) None) "hello" []
       (Ok "hi") ["https://api.anthropic.com/v1/messages"])%string.
Proof.
  apply (provider_is_constraint no_int no_float false false demo_post no_repr id 100 demo_env "hello"
    [("provider"%string, JStr "claude")] (JStr "claude") demo_router [] (Ok "hi"%string)); [done|done|].
  vm_compute. reflexivity.
Defined.

(** Without the Ollama package a private task is echoed. *)
Lemma private_stays_local_witness : "echo"%string ∈ ["ollama"; "echo"]%string.
Proof.
  apply (private_stays_local no_int no_float false false demo_env "a secret" []%list demo_router
    (mk_LLMAdapter true "echo" "echo" "" "" 1024 seven_tenths sixty)
    (mk_Router default_adapter TASK_ROUTES
       [("echo"%string, mk_LLMAdapter true "echo" "echo" "" "" 1024 seven_tenths sixty)])); try done.
  - by eexists; vm_compute.
Defined.

Definition demo_split (url : string) : option Endpoint :=
  if py_startswith url "https://" then Some (mk_Endpoint "https" (Some "api.example.com"%string) None None None) else None.

Definition demo_snapshot : LLMDispatchSnapshot :=
  mk_Snapshot "openai" "gpt-4o-mini" "https://api.example.com/v1" "key" 1024 seven_tenths forty_five.

Lemma owner_text_bound_witness :
  (forall t, Err KeyError = Ok t -> (utf8_len t <= MAX_DISPATCH)%Z) /\
  (["https://api.example.com/v1/chat/completions"] = [] \/
   exists rq d, demo_post rq [] = (d, ["https://api.example.com/v1/chat/completions"]) /\
     sn_provider demo_snapshot = "openai" /\ safe_endpoint demo_split (fun _ => None) (sn_base_url demo_snapshot) /\
     (utf8_len "hello" <= MAX_DISPATCH)%Z /\
     rq = mk_Request (rstrip_by (fun c => Ascii.eqb c "/") (sn_base_url demo_snapshot) +:+ "/chat/completions")
            (bearer (sn_api_key demo_snapshot))
            (chat_body no_repr (JStr (sn_model demo_snapshot)) "hello" (sn_max_tokens demo_snapshot) (sn_temperature demo_snapshot))
            (sn_timeout demo_snapshot) false)%string.
Proof.
  apply (owner_text_bound demo_split (fun _ => None) demo_post no_repr "hello" demo_snapshot [] (Err KeyError)).
  vm_compute. reflexivity.
Defined.

(** [load_config] gives Pollinations the echo provider's default model. *)
Lemma pollinations_default :
  option_map model (match load_config no_int no_float false [] (Some (inl POLLINATIONS)) None with Ok c => Some c | Err _ => None end)
  = Some "echo"%string /\ DEFAULT_MODELS POLLINATIONS = "openai-fast"%string.
Proof. by vm_compute. Qed.

(** The adapter has no backend for the kind [local], which [detect_provider] may choose. *)
Lemma local_unsupported {W} (post : Request -> py W json) repr pf lim env c prompt w :
  provider c = LOCAL -> generate post repr pf lim env (adapter_of_config c) prompt [] w = (Err ValueError, w).
Proof. intros Hc. unfold generate. cbn. by rewrite Hc. Qed.

(** The echo dispatch the service froze is refused when it is rebuilt while the
    environment holds a key for the adapter. *)
Lemma echo_refreeze_fails :
  let c := mk_Config ECHO "echo" None None 1024 seven_tenths forty_five in
  let env := [("AGENCY_LLM_API_KEY", "k")]%string in
  (exists s, freeze_dispatch demo_split (fun _ => None) (adapter_of_config c) = Ok s /\
     freeze_dispatch demo_split (fun _ => None)
       (new_llm_adapter env (Some (sn_provider s)) (Some (sn_model s)) (Some (sn_api_key s)) (Some (sn_base_url s))
          (sn_max_tokens s) (sn_temperature s) (sn_timeout s)) = Err ValueError).
Proof. exists (mk_Snapshot "echo" "echo" "" "" 1024 seven_tenths forty_five). split; vm_compute; reflexivity. Qed.
