(* ===== verification/ToolDriver.v ===== *)
(** * The tool-calling loop

    [ToolDriver] of [src/agency/tools/driver.py] over [ToolRegistry]: the loop
    asks the model, reads its reply with [JsonText.extract_json], calls the tool
    the reply names, and stops at an answer, an error or the budget.

    A prompt is what its text is built from, and an observation what it says;
    [w_exc] is [str(exc)], and [py_eq] Python's [==] on JSON values.  The
    identities that [_check_owner] compares again cannot change in the model, so
    what is left of it is the registry's check. *)
From S2P Require Import Prelude PyStr PyDict PyJson Identity AuditTrail AdmissionModels Tools ToolRegistry JsonText.

Section Driver.
Context {G W Seconds : Type} `{OwnerGate G W}.
Context (w_main w_own : nat -> Connection) (w_id : nat -> string) (w_stamp : nat -> stamp).
Context (w_call_id : nat -> string) (w_duration : nat -> Z) (w_interrupt : nat -> interrupt).
Context (w_log : nat -> list audit_op) (w_world : nat -> W -> W) (w_suspend : nat -> bool) (w_text : ToolFailure -> string).
Context (parse_float : string -> string) (limit : nat) (w_exc : exn -> string) (py_eq : json -> json -> bool).
(** [is] on grants *)
Context (same : G -> G -> bool).

Abbreviation State := (State (G:=G) (W:=W) (Seconds:=Seconds)).
Abbreviation call := (call w_main w_own w_id w_stamp w_call_id w_duration w_interrupt w_log w_world w_suspend w_text).
Abbreviation check_bound := (check_bound w_log w_world w_suspend).

(** ** Prompts and models *)

Inductive Observation :=
| InvalidReply
| ForcedFinal
| ToolObservation (tool : string) (res : ToolResult).

Record Prompt := mk_Prompt {
  p_task : string;
  p_system : string;
  p_specs : list ToolSpec;
  p_history : list (string * Observation);
}.

Inductive Binding := NoBinding | BetaBinding (p : BetaPrincipal) | OwnerBinding (g : G).

Record LlmContext := mk_LlmContext {
  lc_task : string;
  lc_grant : option G;
  lc_principal : option BetaPrincipal;
}.

(** A model: whether it is a [MeteredModel], its binding, its log, its replies *)
Record Model := mk_Model {
  md_metered : bool;
  md_binding : Binding;
  md_audit : option AuditHandle;
  md_generate : Prompt -> LlmContext -> py State string;
}.

Definition MeteredDenied : exn := CallbackError "MeteredDenied".
Definition MeteredError : exn := CallbackError "MeteredError".

(** [except (MeteredDenied, MeteredError, PilotError): raise], and what
    [except Exception] does not catch *)
Definition passes (e : exn) : bool :=
  match e with
  | PilotError _ _ _ => true
  | _ => bool_decide (e = MeteredDenied) || bool_decide (e = MeteredError) || bool_decide (e = CancelledError)
  end.

(** ** Results *)

Record ToolLoopStep := mk_Step {
  st_tool : string;
  st_args : json;
  st_ok : bool;
  st_duration_ms : Z;
  st_error : option ToolFailure;
}.

Inductive LoopStatus := LCompleted | LToolError | LAuditError | LLlmError | LParseError | LMaxIterations.

#[export] Instance LoopStatus_eq_dec : EqDecision LoopStatus.
Proof. solve_decision. Defined.

Record ToolLoopResult := mk_LoopResult {
  final_answer : string;
  lr_steps : list ToolLoopStep;
  lr_evidence : list (string * json);
  llm_calls : nat;
  status : LoopStatus;
}.

Definition LIST_EVIDENCE_KEYS : list string := ["urls"; "sources"; "queries"; "url"]%string.

(** [if item not in bucket: bucket.append(item)] *)
Definition add_item (bucket : list json) (item : json) : list json :=
  if existsb (fun x => py_eq x item) bucket then bucket else bucket ++ [item].

Definition bucket_of (key : string) (evidence : list (string * json)) : list json :=
  match dget key evidence with Some (JList l) => l | _ => [] end.

(** [_aggregate_evidence] *)
Definition aggregate_key (found : list (string * json)) (evidence : list (string * json)) (key : string) : list (string * json) :=
  match dget key found with
  | None | Some JNull => evidence
  | Some v =>
      let items := match v with JList l => l | _ => [v] end in
      let bucket := if String.eqb key "url" then "urls"%string else key in
      dset bucket (JList (fold_left add_item items (bucket_of bucket evidence))) evidence
  end.

Definition aggregate_evidence (evidence found : list (string * json)) : list (string * json) :=
  let evidence := fold_left (aggregate_key found) LIST_EVIDENCE_KEYS evidence in
  match dget "engine"%string found with
  | None | Some (JNull | JList _ | JObj _) => evidence
  | Some v => dset "engine"%string v evidence
  end.

(** ** The owner's binding *)

(** [_owner_binding] *)
Definition owner_binding (m : Model) (ctx : ToolContext G) : py State G :=
  r ← gets reg;
  _ ← raise_when (negb (md_metered m) || negb (owner_policy r) || bool_decide (is_Some (beta_policy r)) ||
                  negb (bool_decide (cx_audit ctx = Some BetaAudit)) ||
                  negb (bool_decide (reg_audit r = cx_audit ctx)) || negb (bool_decide (md_audit m = cx_audit ctx)))
        (pilot "forbidden");
  match cx_owner_grant ctx, md_binding m with
  | Some g, OwnerBinding g' => _ ← raise_when (negb (same g' g)) (pilot "forbidden"); mret g
  | _, _ => raise (pilot "forbidden")
  end.

(** [_generate] *)
Definition generate (m : Model) (p : Prompt) (c : LlmContext) : py State string :=
  catch (md_generate m p c)
    (fun e => if bool_decide (e = MeteredDenied) || bool_decide (e = MeteredError) then raise e
              else if md_metered m then raise MeteredError else raise e).

(** One question: the reply, or the exception that becomes [llm_error] *)
Definition ask (m : Model) (ctx : ToolContext G) (b : option G) (p : Prompt) (c : LlmContext) : py State (string + exn) :=
  catch (_ ← check_bound ctx b false; raw ← generate m p c; _ ← check_bound ctx b false; mret (inl raw))
    (fun e => if passes e then raise e else mret (inr e)).

(** One call: what the registry answers, or the exception as a failed result *)
Definition invoke (ctx : ToolContext G) (b : option G) (name : string) (args : json) : py State ToolResult :=
  catch (_ ← check_bound ctx b false; res ← call name args ctx; _ ← check_bound ctx b false; mret res)
    (fun e => if passes e then raise e else mret (failed name (Raised e))).

(** ** Replies *)

Definition final_of (parsed : option (list (string * json))) : option string :=
  match parsed with
  | Some d => match dget "final"%string d with Some (JStr s) => if is_blank s then None else Some s | _ => None end
  | None => None
  end.

(** The tool a reply names, and its arguments *)
Definition action_of (parsed : option (list (string * json))) : option (string * json) :=
  match parsed with
  | Some d =>
      match dget "action"%string d with
      | Some (JObj a) =>
          match dget "name"%string a, default (JObj []) (dget "args"%string a) with
          | Some (JStr n), JObj args => if is_blank n then None else Some (py_strip n, JObj args)
          | _, _ => None
          end
      | _ => None
      end
  | None => None
  end.

(** The [beta_denied] end of a beta run *)
Definition audit_failure (res : ToolResult) : bool :=
  match tr_error res with
  | Some AuditUnavailable => true
  | Some (Message s) => String.eqb s "beta audit unavailable"
  | _ => false
  end ||
  match dget "status"%string (tr_evidence res) with
  | Some (JStr s) => bool_decide (s ∈ ["FAILED"; "INDETERMINATE"]%string)
  | _ => false
  end.

Definition beta_denied (res : ToolResult) (calls : nat) : ToolLoopResult :=
  let a := audit_failure res in
  mk_LoopResult (if a then "Beta audit unavailable." else "Beta tool unavailable.")
    [mk_Step "beta_denied" (JObj []) false 0
       (Some (Message (if a then "beta audit unavailable" else "beta policy denied")))]
    [] calls (if a then LAuditError else LToolError).

Definition beta_unavailable : ToolLoopResult := mk_LoopResult "Beta tool unavailable." [] [] 0 LToolError.

(** ** The loop *)

Record Loop := mk_Loop {
  lp_steps : list ToolLoopStep;
  lp_evidence : list (string * json);
  lp_history : list (string * Observation);
  lp_calls : nat;
  lp_failures : nat;
  lp_tools : nat;
}.

Definition finish (l : Loop) (calls : nat) (answer : string) (st : LoopStatus) : ToolLoopResult :=
  mk_LoopResult answer (lp_steps l) (lp_evidence l) calls st.

(** A run's constants *)
Record Run := mk_Run {
  rn_model : Model;
  rn_ctx : ToolContext G;
  rn_bound : option G;
  rn_owner : bool;
  rn_beta : bool;
  rn_budget : Z;
  rn_task : string;
  rn_system : string;
  rn_specs : list ToolSpec;
}.

Definition llm_context (r : Run) : LlmContext :=
  mk_LlmContext (cx_task_id (rn_ctx r)) (if rn_owner r then cx_owner_grant (rn_ctx r) else None)
    (if rn_owner r then None else if rn_beta r then cx_beta_principal (rn_ctx r) else None).

Definition prompt_of (r : Run) (history : list (string * Observation)) : Prompt :=
  mk_Prompt (rn_task r) (rn_system r) (rn_specs r) history.

Definition question (r : Run) (history : list (string * Observation)) : py State (string + exn) :=
  ask (rn_model r) (rn_ctx r) (rn_bound r) (prompt_of r history) (llm_context r).

Definition llm_error (r : Run) (l : Loop) (calls : nat) (e : exn) : ToolLoopResult :=
  finish l calls (if rn_beta r then "Model unavailable." else "LLM error: " +:+ w_exc e)%string LLlmError.

(** The last question, when the calls are used up *)
Definition force (r : Run) (l : Loop) : py State ToolLoopResult :=
  let calls := S (lp_calls l) in
  reply ← question r (lp_history l ++ [(""%string, ForcedFinal)]);
  match reply with
  | inr e => mret (llm_error r l calls e)
  | inl raw =>
      parsed ← lift (extract_json parse_float limit raw);
      match final_of parsed with
      | Some answer => mret (finish l calls answer LCompleted)
      | None => mret (finish l calls (if String.eqb (py_strip raw) "" then "Maximum tool iterations reached without a final answer."
                                      else py_strip raw) LMaxIterations)
      end
  end.

(** After a call: the run ends, or goes on *)
Definition after_call (r : Run) (l : Loop) (raw name : string) (args : json) (res : ToolResult) : py State (ToolLoopResult + Loop) :=
  _ ← raise_when (rn_owner r && negb (tr_ok res)) (pilot "forbidden");
  if rn_beta r && negb (tr_ok res) then mret (inl (beta_denied res (lp_calls l)))
  else
    let l := mk_Loop (lp_steps l ++ [mk_Step name args (tr_ok res) (tr_duration_ms res) (tr_error res)])
               (aggregate_evidence (lp_evidence l) (tr_evidence res))
               (lp_history l ++ [(raw, ToolObservation name res)]) (lp_calls l) 0 (S (lp_tools l)) in
    if (rn_budget r <=? Z.of_nat (lp_tools l))%Z then out ← force r l; mret (inl out) else mret (inr l).

(** One round of [while True] *)
Definition round (r : Run) (l : Loop) : py State (ToolLoopResult + Loop) :=
  reply ← question r (lp_history l);
  let l := mk_Loop (lp_steps l) (lp_evidence l) (lp_history l) (S (lp_calls l)) (lp_failures l) (lp_tools l) in
  match reply with
  | inr e => mret (inl (llm_error r l (lp_calls l) e))
  | inl raw =>
      parsed ← lift (extract_json parse_float limit raw);
      match final_of parsed with
      | Some answer => mret (inl (finish l (lp_calls l) answer LCompleted))
      | None =>
          match action_of parsed with
          | Some (name, args) =>
              res ← invoke (rn_ctx r) (rn_bound r) name args;
              after_call r l raw name args res
          | None =>
              if 2 <=? S (lp_failures l) then
                mret (inl (finish l (lp_calls l) "Could not produce a final answer." LParseError))
              else mret (inr (mk_Loop (lp_steps l) (lp_evidence l) (lp_history l ++ [(raw, InvalidReply)])
                                (lp_calls l) (S (lp_failures l)) (lp_tools l)))
          end
      end
  end.

(** [while True], for at most [fuel] rounds *)
Fixpoint loop (fuel : nat) (r : Run) (l : Loop) : py State (option ToolLoopResult) :=
  match fuel with
  | 0 => mret None
  | S fuel' => out ← round r l; match out with inl res => mret (Some res) | inr l' => loop fuel' r l' end
  end.

Definition is_owner_binding (b : Binding) : bool := match b with OwnerBinding _ => true | _ => false end.

(** The beta path needs a metered model bound to the context's principal. *)
Definition beta_bound (m : Model) (ctx : ToolContext G) : bool :=
  md_metered m &&
  match md_binding m, cx_beta_principal ctx with
  | BetaBinding p, Some who => private_chat who && bool_decide (p = who)
  | _, _ => false
  end &&
  bool_decide (cx_audit ctx = Some BetaAudit) && bool_decide (md_audit m = cx_audit ctx).

(** Enough rounds for the budget *)
Definition rounds (budget : Z) : nat := 2 * Z.to_nat (Z.max 1 budget).

(** [run]; [budget] is [max_tool_iterations]. *)
Definition run (m : Model) (task system_prompt : string) (ctx : ToolContext G) (budget : Z) : py State (option ToolLoopResult) :=
  r ← gets reg;
  let owner := bool_decide (is_Some (cx_owner_grant ctx)) || owner_policy r || is_owner_binding (md_binding m) in
  b ← (if owner then g ← owner_binding m ctx; mret (Some g) else mret None);
  _ ← check_bound ctx b false;
  let strict_registry := bool_decide (is_Some (beta_policy r)) in
  let beta := strict_registry || bool_decide (is_Some (cx_beta_principal ctx)) in
  if beta && (negb strict_registry || negb (bool_decide (is_Some (cx_beta_principal ctx)))) then mret (Some beta_unavailable)
  else if beta && negb (beta_bound m ctx) then mret (Some beta_unavailable)
  else
    specs ← gets (fun s => list_specs (reg s));
    loop (rounds budget) (mk_Run m ctx b owner beta budget task system_prompt specs) (mk_Loop [] [] [] 0 0 0).
(** ** What a run does to the registry *)

(** The tool bodies among what was entered *)
Definition bodies (k : list (Entered (G:=G))) : list (Entered (G:=G)) := List.filter (fun en => negb (en_model en)) k.

Lemma bodies_app k k' : bodies (k ++ k') = bodies k ++ bodies k'.
Proof. apply List.filter_app. Qed.

Section Frame.
(** The world moves along [R], and the model within it. *)
Context (R : relation W) `{!PreOrder R} (R_world : forall n w, R w (w_world n w)).
Context (R_check : forall g w, R w (og_check g w).2) (R_live : forall g w, R w (og_live g w).2).
Context (R_active : forall g w, R w (og_active g w).2) (R_reserve : forall g name w, R w (og_reserve g name w).2).

(** From [s] to [s'] the bodies [l] were entered, newest first. *)
Abbreviation grows := (grows (G:=G) (W:=W) (Seconds:=Seconds) R).
Abbreviation evolves := (grows []).

#[local] Instance evolves_pre : PreOrder evolves.
Proof using PreOrder0. apply evolves_preorder; apply _. Qed.

Lemma grows_comp l l' s1 s2 s3 : grows l s1 s2 -> grows l' s2 s3 -> grows (l' ++ l) s1 s3.
Proof using PreOrder0. apply grows_trans. apply _. Qed.

(** From [s] to [s'] no body was entered, but a model may have been asked. *)
Definition asks (s s' : State) : Prop := exists k, bodies k = [] /\ grows k s s'.

#[local] Instance asks_pre : PreOrder asks.
Proof using PreOrder0.
  split; [intros s; by exists []|]. intros s1 s2 s3 (k & Hk & Hg) (k' & Hk' & Hg').
  exists (k' ++ k). split; [by rewrite bodies_app, Hk, Hk'|by eapply grows_comp].
Qed.

Lemma evolves_asks s s' : evolves s s' -> asks s s'.
Proof. by exists []. Qed.

(** The model enters no body and moves within [R]. *)
Definition model_in (m : Model) : Prop := forall p c s, asks s (md_generate m p c s).2.

Lemma keep_step {A} (m : py State A) (s0 : State) : (forall s, asks s (m s).2) -> preserves (asks s0) m.
Proof using PreOrder0. intros Hm. apply preserves_snd. intros s Hs. etransitivity; [exact Hs|apply Hm]. Qed.

Lemma keep_bound (s0 : State) ctx b : preserves (evolves s0) (check_bound ctx b false).
Proof using R_world R_check R_active PreOrder0. by apply keep_check_bound. Qed.

Lemma bound_asks (s0 : State) ctx b : preserves (asks s0) (check_bound ctx b false).
Proof using R_world R_check R_active PreOrder0.
  apply keep_step. intros s. apply evolves_asks, (preserves_run (evolves s)); [apply keep_bound|reflexivity].
Qed.

Lemma keep_ask (s0 : State) m ctx b p c : model_in m -> preserves (asks s0) (ask m ctx b p c).
Proof using R_world R_check R_active PreOrder0.
  intros Hm. assert (preserves (asks s0) (generate m p c)) as Hg.
  { apply preserves_catch; [apply keep_step, Hm|]. intros e.
    destruct (_ || _), (md_metered m); apply preserves_raise. }
  apply preserves_catch; [|intros e; destruct (passes e); [apply preserves_raise|apply preserves_ret]].
  apply preserves_bind; [apply bound_asks|intros _]. apply preserves_bind; [done|intros raw].
  apply preserves_bind; [apply bound_asks|intros _]. apply preserves_ret.
Qed.

Lemma keep_force (s0 : State) r l : model_in (rn_model r) -> preserves (asks s0) (force r l).
Proof using R_world R_check R_active PreOrder0.
  intros Hm. apply preserves_bind; [by apply keep_ask|intros [raw|e]]; [|apply preserves_ret].
  apply preserves_bind; [apply preserves_lift|intros parsed]. destruct (final_of parsed); apply preserves_ret.
Qed.

Lemma asks_run {A} (m : py State A) s x s' : preserves (asks s) m -> m s = (x, s') -> asks s s'.
Proof using PreOrder0. intros Hm Hr. pose proof (preserves_run _ m s Hm ltac:(reflexivity)) as He. by rewrite Hr in He. Qed.

Lemma evolves_run {A} (m : py State A) s x s' : preserves (evolves s) m -> m s = (x, s') -> evolves s s'.
Proof using PreOrder0. intros Hm Hr. pose proof (preserves_run _ m s Hm ltac:(reflexivity)) as He. by rewrite Hr in He. Qed.

Lemma reg_kept k s s' : grows k s s' -> reg_in R (reg s) -> reg_in R (reg s').
Proof. apply reg_in_grows. Qed.

(** A call enters at most one body; on a strict registry, a successful one
    enters exactly the body of the tool it names. *)
Lemma invoke_run ctx b name args s x s' :
  reg_in R (reg s) -> invoke ctx b name args s = (x, s') ->
  exists l, grows l s s' /\ bodies l = l /\ length l <= 1 /\
    forall res, x = Ok res -> tr_ok res = true -> map en_tool l = [name].
Proof using R_world R_check R_live R_active R_reserve PreOrder0.
  intros Hin. unfold invoke. intros Hr.
  assert (forall rr s1, (_ ← check_bound ctx b false; res ← call name args ctx; _ ← check_bound ctx b false; mret res) s = (rr, s1) ->
    exists l, grows l s s1 /\ bodies l = l /\ length l <= 1 /\ forall res, rr = Ok res -> tr_ok res = true -> map en_tool l = [name]) as Hbody.
  { clear Hr. intros rr s1 Hr. apply py_bind_cases in Hr as [(e & H1 & ->)|(u & s2 & H1 & Hr)].
    { exists []. split; [eapply evolves_run, H1; apply keep_bound|]. split; [done|]. split; [cbn; lia|done]. }
    pose proof (evolves_run _ _ _ _ (keep_bound s ctx b) H1) as E1. pose proof (reg_kept _ _ _ E1 Hin) as Hin2.
    assert (forall en : Entered, en_model en = false -> bodies [en] = [en]) as Hbodies by (intros en Hen; unfold bodies; cbn; by rewrite Hen).
    apply py_bind_cases in Hr as [(e & H2 & ->)|(res & s3 & H2 & Hr)]; eapply (call_run (Seconds:=Seconds)) in H2; eauto.
    - destruct H2 as [[Hg _]|(en & Hg & Hen & _)]; eexists; (split; [by eapply grows_comp; [exact E1|exact Hg]|]).
      + split; [done|]. split; [cbn; lia|done].
      + split; [apply Hbodies, Hen|]. split; [cbn; lia|done].
    - assert (forall s4 rr', (_ ← check_bound ctx b false; mret res) s3 = (rr', s4) -> evolves s3 s4 /\ forall res', rr' = Ok res' -> res' = res) as Htail.
      { intros s4 rr' Hq. split; [eapply evolves_run, Hq; apply preserves_bind; [apply keep_bound|intros; apply preserves_ret]|].
        intros res' ->. py_step Hq u' s5 H5. by injection Hq as -> _. }
      apply Htail in Hr as [E3 Hsame]. destruct H2 as [[Hg Hf]|(en & Hg & Hen & _)].
      + exists []. split; [etransitivity; [exact E1|]; etransitivity; [exact Hg|exact E3]|]. split; [done|]. split; [cbn; lia|].
        intros res' ->%Hsame. rewrite (Hf res eq_refl). done.
      + exists [en]. split; [|split; [apply Hbodies, Hen|split; [cbn; lia|]]].
        * eapply (grows_comp [en] []); [|exact E3]. by eapply (grows_comp [] [en]).
        * intros _ _ _. cbn. f_equal. apply Hen. }
  apply catch_cases in Hr as [(res & Hb & ->)|(e & s1 & Hb & Hh)].
  - apply Hbody in Hb as (l & Hl). exists l. destruct Hl as (Hg & Hbo & Hn & Hl). split_and!; [done|done|done|]. by intros res' [= <-]; apply Hl.
  - apply Hbody in Hb as (l & Hg & Hbo & Hn & _). exists l. destruct (passes e); injection Hh as <- <-; (split_and!; [done|done|done|]); [done|].
    by intros res' [= <-].
Qed.
(** ** One round *)

(** The bodies [k] are those of the steps [new], which all succeeded. *)
Definition accounts (k : list (Entered (G:=G))) (new : list ToolLoopStep) : Prop :=
  Forall (fun st => st_ok st = true) new /\ map en_tool (bodies k) = rev (map st_tool new).

(** The run ends with a failed call. *)
Definition refusal (out : ToolLoopResult) : bool := bool_decide (status out ∈ [LToolError; LAuditError]).

(** In a round that enters [k], how a loop or a result follows from a loop *)
Definition continues (r : Run) (l l' : Loop) (k : list (Entered (G:=G))) : Prop :=
  lp_calls l' = S (lp_calls l) /\
  ((lp_tools l' = lp_tools l /\ lp_failures l = 0 /\ lp_failures l' = 1 /\ lp_steps l' = lp_steps l /\ bodies k = []) \/
   (lp_tools l' = S (lp_tools l) /\ lp_failures l' = 0 /\ (Z.of_nat (lp_tools l') < rn_budget r)%Z /\
    exists st, lp_steps l' = lp_steps l ++ [st] /\ (rn_owner r || rn_beta r = true -> accounts k [st]))).

Definition ends (r : Run) (l : Loop) (out : ToolLoopResult) (k : list (Entered (G:=G))) : Prop :=
  llm_calls out <= lp_calls l + 2 /\
  (refusal out = true /\ length (lr_steps out) = 1 \/
   refusal out = false /\ exists new, lr_steps out = lp_steps l ++ new /\ length new <= 1 /\
     (rn_owner r || rn_beta r = true -> accounts k new)).

Lemma accounts_nil k : bodies k = [] -> accounts k [].
Proof. intros Hk. split; [done|by rewrite Hk]. Qed.

Lemma after_call_run r l raw name args res k s x s' :
  map en_tool (bodies k) = [name] \/ tr_ok res = false -> after_call r l raw name args res s = (Ok x, s') ->
  match x with
  | inl out => llm_calls out <= lp_calls l + 1 /\
      (refusal out = true /\ length (lr_steps out) = 1 \/
       refusal out = false /\ exists new, lr_steps out = lp_steps l ++ new /\ length new <= 1 /\
         (rn_owner r || rn_beta r = true -> accounts k new))
  | inr l' => lp_calls l' = lp_calls l /\ lp_tools l' = S (lp_tools l) /\ lp_failures l' = 0 /\
      (Z.of_nat (lp_tools l') < rn_budget r)%Z /\
      exists st, lp_steps l' = lp_steps l ++ [st] /\ (rn_owner r || rn_beta r = true -> accounts k [st])
  end.
Proof.
  intros Hk Hr. unfold after_call in Hr. py_step Hr u s1 H1.
  set (st := mk_Step name args (tr_ok res) (tr_duration_ms res) (tr_error res)) in *.
  destruct (rn_beta r && negb (tr_ok res)) eqn:Hbeta.
  { injection Hr as <- <-. unfold beta_denied. cbn. split; [lia|]. left. split; [|done]. by destruct (audit_failure res). }
  assert (rn_owner r || rn_beta r = true -> accounts k [st]) as Hacc.
  { intros Hstrict. assert (tr_ok res = true) as Hok by (destruct (rn_owner r), (rn_beta r), (tr_ok res); done).
    destruct Hk as [Hk|]; [|congruence]. split; [by constructor|by rewrite Hk]. }
  cbn [lp_tools] in Hr. destruct (Z.leb_spec (rn_budget r) (Z.of_nat (S (lp_tools l)))) as [Hb|Hb].
  - py_step Hr out s2 H2. injection Hr as <- <-. unfold force in H2. py_step H2 reply s3 H3. destruct reply as [raw'|e].
    + py_step H2 parsed s4 H4.
      destruct (final_of parsed); injection H2 as <- <-; (split; [cbn; lia|]); right; (split; [done|]);
        exists [st]; (split; [done|split; [cbn; lia|exact Hacc]]).
    + injection H2 as <- <-. split; [cbn; lia|]. right. split; [done|]. exists [st]. split; [done|split; [cbn; lia|exact Hacc]].
  - injection Hr as <- <-. split_and!; try done. by exists st.
Qed.

Lemma keep_after_call s0 r l raw name args res : model_in (rn_model r) -> preserves (asks s0) (after_call r l raw name args res).
Proof using R_world R_check R_active PreOrder0.
  intros Hm. apply preserves_bind; [apply preserves_lift|intros _]. destruct (rn_beta r && _); [apply preserves_ret|].
  cbv zeta. destruct (_ <=? _)%Z; [|apply preserves_ret].
  apply preserves_bind; [by apply keep_force|intros; apply preserves_ret].
Qed.

Lemma round_run r l s x s' :
  reg_in R (reg s) -> model_in (rn_model r) -> lp_failures l <= 1 -> round r l s = (x, s') ->
  exists k, grows k s s' /\ length (bodies k) <= 1 /\
    match x with
    | Ok (inl out) => ends r l out k
    | Ok (inr l') => continues r l l' k
    | Err _ => True
    end.
Proof using R_world R_check R_live R_active R_reserve PreOrder0.
  intros Hin Hm Hf Hr. unfold round in Hr.
  apply py_bind_cases in Hr as [(e & H1 & ->)|(reply & s1 & H1 & Hr)];
    destruct (asks_run _ _ _ _ (keep_ask s _ _ _ _ _ Hm) H1) as (k0 & Hk0 & E1).
  { exists k0. rewrite Hk0. split_and!; [exact E1|cbn; lia|done]. }
  assert (forall out, lr_steps out = lp_steps l -> llm_calls out <= lp_calls l + 2 -> refusal out = false -> ends r l out k0) as Hend.
  { intros out Hst Hc Href. split; [done|]. right. split; [done|]. exists []. rewrite app_nil_r.
    split_and!; [done|cbn; lia|intros _; by apply accounts_nil]. }
  destruct reply as [raw|e].
  2: { injection Hr as <- <-. exists k0. rewrite Hk0. split_and!; [exact E1|cbn; lia|]. apply Hend; done || (cbn; lia). }
  apply py_bind_cases in Hr as [(e & H2 & ->)|(parsed & s2 & H2 & Hr)].
  { exists k0. injection H2 as _ <-. rewrite Hk0. split_and!; [exact E1|cbn; lia|done]. }
  apply lift_ok in H2 as [H2 ->]. destruct (final_of parsed) as [answer|].
  { injection Hr as <- <-. exists k0. rewrite Hk0. split_and!; [exact E1|cbn; lia|]. apply Hend; done || (cbn; lia). }
  destruct (action_of parsed) as [[name args]|].
  - pose proof (reg_kept _ _ _ E1 Hin) as Hin1.
    apply py_bind_cases in Hr as [(e & H3 & ->)|(res & s3 & H3 & Hr)]; apply invoke_run in H3 as (k & Hg & Hbo & Hn & Hk); [|done| |done].
    { exists (k ++ k0). rewrite bodies_app, Hk0, Hbo, app_nil_r. split_and!; [by eapply grows_comp|done|done]. }
    assert (asks s3 s') as (k1 & Hk1 & E3) by by eapply asks_run, Hr; apply keep_after_call.
    assert (bodies (k1 ++ k ++ k0) = k) as Hall by by rewrite !bodies_app, Hk0, Hk1, Hbo, app_nil_r.
    exists (k1 ++ k ++ k0). split; [|rewrite Hall; split; [done|]].
    { eapply grows_comp; [|exact E3]. by eapply grows_comp. }
    destruct x as [x|]; [|done]. apply (after_call_run _ _ _ _ _ _ (k1 ++ k ++ k0)) in Hr.
    + destruct x as [out|l'].
      * destruct Hr as [Hc Hr]. cbn [lp_calls lp_steps] in *. split; [lia|exact Hr].
      * destruct Hr as (Hc & Ht & Hfl & Hb & Hst). split; [exact Hc|]. right. by split_and!.
    + rewrite Hall. destruct (tr_ok res) eqn:Hok; [|by right]. left. by apply (Hk res).
  - cbn [lp_failures] in Hr. exists k0. destruct (2 <=? S (lp_failures l)) eqn:Hle; injection Hr as <- <-; rewrite Hk0.
    + split_and!; [exact E1|cbn; lia|]. apply Hend; done || (cbn; lia).
    + split_and!; [exact E1|cbn; lia|]. split; [done|]. left. apply Nat.leb_gt in Hle. cbn. split_and!; try done; lia.
Qed.

(** ** The whole run *)

Abbreviation budget_of r := (Z.to_nat (Z.max 1 (rn_budget r))).

Lemma loop_run fuel r l s x s' :
  reg_in R (reg s) -> model_in (rn_model r) ->
  lp_failures l <= 1 -> lp_tools l < budget_of r -> length (lp_steps l) = lp_tools l ->
  2 * (budget_of r - lp_tools l) - lp_failures l <= fuel -> loop fuel r l s = (x, s') ->
  x <> Ok None /\
  exists k, grows k s s' /\ length (bodies k) + lp_tools l <= budget_of r /\
    forall out, x = Ok (Some out) ->
      llm_calls out <= lp_calls l + (2 * (budget_of r - lp_tools l) - lp_failures l) + 1 /\
      length (lr_steps out) <= budget_of r /\
      (refusal out = false -> rn_owner r || rn_beta r = true ->
       exists new, lr_steps out = lp_steps l ++ new /\ accounts k new).
Proof using R_world R_check R_live R_active R_reserve PreOrder0.
  revert l s. induction fuel as [|fuel IH]; intros l s Hin Hm Hf Ht Hlen Hfuel Hr; [lia|]. cbn [loop] in Hr.
  apply py_bind_cases in Hr as [(e & H1 & ->)|(o & s1 & H1 & Hr)]; destruct (round_run _ _ _ _ _ Hin Hm Hf H1) as (k & Hg & Hn & Hk); clear H1; rename Hk into H1.
  { split; [done|]. exists k. split_and!; [done|lia|done]. }
  destruct o as [out|l'].
  - injection Hr as <- <-. split; [done|]. exists k. split_and!; [done|lia|]. intros out' [= <-].
    destruct H1 as [Hc [[Href Hst]|(Href & new & Hst & Hnew & Hacc)]].
    + split_and!; [lia|lia|congruence].
    + split_and!; [lia|rewrite Hst, length_app; lia|]. intros _ Hs. exists new. auto.
  - destruct H1 as [Hc [(Ht' & Hf0 & Hf1 & Hst & Hnone)|(Ht' & Hf0 & Hb & st & Hst & Hacc)]].
    + apply IH in Hr as (Hx & k' & Hg' & Hn' & Hout); [|by eapply reg_kept|done| |rewrite Ht'; lia|congruence|rewrite Ht'; lia]; [|lia].
      split; [done|]. exists (k' ++ k). rewrite bodies_app, Hnone, app_nil_r. split_and!.
      * by eapply grows_comp.
      * lia.
      * intros out ->. destruct (Hout out eq_refl) as (Hc' & Hl' & Ha'). split_and!; [lia|done|]. rewrite <- Hst.
        intros Href Hs. destruct (Ha' Href Hs) as (new & Hnew & Hok & Hmap). exists new. split; [done|]. split; [done|].
        by rewrite bodies_app, Hnone, app_nil_r.
    + apply IH in Hr as (Hx & k' & Hg' & Hn' & Hout); [|by eapply reg_kept|done|lia|lia|rewrite Hst, length_app; cbn; lia|lia].
      split; [done|]. exists (k' ++ k). split_and!.
      * by eapply grows_comp.
      * rewrite bodies_app, length_app. lia.
      * intros out ->. destruct (Hout out eq_refl) as (Hc' & Hl' & Ha'). split_and!; [lia|done|]. intros Href Hs.
        destruct (Ha' Href Hs) as (new & Hnew & Hok & Hmap). destruct (Hacc Hs) as [Hok1 Hmap1].
        exists (st :: new). rewrite Hnew, Hst, <- app_assoc. split; [done|]. split; [by apply Forall_app_2 with (l1 := [st])|].
        rewrite bodies_app, map_app, Hmap, Hmap1. cbn. done.
Qed.

(** What a run establishes before its loop *)
Lemma run_loop m task system ctx budget s x s' :
  run m task system ctx budget s = (x, s') ->
  (evolves s s' /\ x <> Ok None /\ forall out, x = Ok (Some out) -> out = beta_unavailable) \/
  exists r s1, evolves s s1 /\ rn_budget r = budget /\ rn_model r = m /\
    (strict (reg s) = true -> rn_owner r || rn_beta r = true) /\
    loop (rounds budget) r (mk_Loop [] [] [] 0 0 0) s1 = (x, s').
Proof using R_world R_check R_active PreOrder0.
  intros Hr. unfold run in Hr. rewrite bind_gets in Hr. set (owner := _ || _ || _) in Hr.
  assert (forall s0 A (f : option G -> py State A), (forall b, preserves (evolves s0) (f b)) ->
            preserves (evolves s0) (b ← (if owner then g ← owner_binding m ctx; mret (Some g) else mret None); f b)) as Hown.
  { intros s0 A f Hk. apply preserves_bind; [|done]. destruct owner; [|apply preserves_ret].
    apply preserves_bind; [|intros; apply preserves_ret]. unfold owner_binding.
    apply preserves_bind; [apply preserves_gets|intros rg]. apply preserves_bind; [apply preserves_lift|intros _].
    destruct (cx_owner_grant ctx), (md_binding m); try apply preserves_raise.
    apply preserves_bind; [apply preserves_lift|intros _; apply preserves_ret]. }
  apply py_bind_cases in Hr as [(e & H1 & ->)|(b & s1 & H1 & Hr)].
  { left. split; [|done]. eapply evolves_run; [|].
    - apply (Hown s _ mret). intros; apply preserves_ret.
    - rewrite bind_run, H1. done. }
  assert (evolves s s1) as E1.
  { eapply (evolves_run _ s (Ok b)); [apply (Hown s _ mret); intros; apply preserves_ret|]. by rewrite bind_run, H1. }
  clear Hown H1. apply py_bind_cases in Hr as [(e & H2 & ->)|(u & s2 & H2 & Hr)];
    pose proof (evolves_run _ _ _ _ (keep_bound s1 ctx b) H2) as E2.
  { left. split; [by etransitivity|done]. }
  assert (evolves s s2) as E by by etransitivity. clear E1 E2.
  set (strictr := bool_decide (is_Some (beta_policy (reg s)))) in *. set (beta := strictr || _) in *.
  destruct (beta && (negb strictr || _)); [injection Hr as <- <-; left; split_and!; [done|done|by intros out [= <-]]|].
  destruct (beta && negb _); [injection Hr as <- <-; left; split_and!; [done|done|by intros out [= <-]]|].
  rewrite bind_gets in Hr. right. eexists _, s2. split; [exact E|]. split; [|split; [|split; [|exact Hr]]]; [done|done|].
  cbn. unfold strict, owner, beta, strictr. destruct (bool_decide (is_Some (beta_policy (reg s)))), (owner_policy (reg s)); cbn; try done;
    rewrite ?orb_true_r; done.
Qed.

(** A run ends; the bodies it entered are counted, and reported. *)
Lemma run_run m task system ctx budget s x s' :
  let n := Z.to_nat (Z.max 1 budget) in
  reg_in R (reg s) -> model_in m -> run m task system ctx budget s = (x, s') ->
  x <> Ok None /\ exists k, grows k s s' /\ length (bodies k) <= n /\
    forall out, x = Ok (Some out) ->
      llm_calls out <= 2 * n + 1 /\ length (lr_steps out) <= n /\
      (strict (reg s) = true -> refusal out = false ->
       Forall (fun st => st_ok st = true) (lr_steps out) /\ map en_tool (rev (bodies k)) = map st_tool (lr_steps out)).
Proof using R_world R_check R_live R_active R_reserve PreOrder0.
  cbn zeta. intros Hin Hm Hr. apply run_loop in Hr as [(Hg & Hx & Hout)|(r & s1 & E1 & Hb & Hrm & Hs & Hr)].
  - split; [done|]. exists []. split; [done|]. split; [cbn; lia|]. intros out ->%Hout. cbn. split_and!; [lia|lia|done].
  - rewrite <- Hb in *. apply loop_run in Hr as (Hx & k & Hg & Hn & Hout); [|by eapply reg_kept|by rewrite Hrm|cbn; lia|cbn; lia|done|cbn; unfold rounds; lia].
    split; [done|]. exists k. split; [by eapply (grows_comp [] k) in Hg; [rewrite app_nil_r in Hg|]|]. split; [cbn in Hn; lia|].
    intros out ->. destruct (Hout out eq_refl) as (Hc & Hl & Ha). cbn in Hc. split_and!; [lia|lia|]. intros Hst Href.
    destruct (Ha Href (Hs Hst)) as (new & Hnew & Hok & Hmap). cbn in Hnew. rewrite Hnew. split; [done|].
    rewrite map_rev, Hmap. apply rev_involutive.
Qed.
End Frame.

(** A model that enters no tool body, keeps the registry but for its
    suspension, and only appends to the log *)
Definition model_keeps (m : Model) : Prop := model_in (fun _ _ => True) m.

Lemma any_run m task system ctx budget s x s' :
  let n := Z.to_nat (Z.max 1 budget) in
  model_keeps m -> run m task system ctx budget s = (x, s') ->
  x <> Ok None /\ exists k, grows (fun _ _ => True) k s s' /\ length (bodies k) <= n /\
    forall out, x = Ok (Some out) ->
      llm_calls out <= 2 * n + 1 /\ length (lr_steps out) <= n /\
      (strict (reg s) = true -> refusal out = false ->
       Forall (fun st => st_ok st = true) (lr_steps out) /\ map en_tool (rev (bodies k)) = map st_tool (lr_steps out)).
Proof. intros n Hm. by apply run_run; [by split|done..]. Qed.

(** C19: A run ends: after at most two rounds per tool call it returns a result
    or raises, having entered at most [max_tool_iterations] tool bodies (one, if
    that is less); a result counts at most that many steps, and two questions
    to the model per tool call and one more. *)
Theorem run_terminates m task system ctx budget s :
  let n := Z.to_nat (Z.max 1 budget) in
  model_keeps m ->
  exists x s' k, run m task system ctx budget s = (x, s') /\ x <> Ok None /\
    ran s' = k ++ ran s /\ length (bodies k) <= n /\
    forall out, x = Ok (Some out) -> llm_calls out <= 2 * n + 1 /\ length (lr_steps out) <= n.
Proof.
  cbn zeta. intros Hm. destruct (run m task system ctx budget s) as [x s'] eqn:Hr.
  apply any_run in Hr as (Hx & k & Hg & Hn & Hout); [|done]. exists x, s', k.
  split_and!; [done|done|apply (gr_ran _ _ _ _ Hg)|done|]. intros out ->. by destruct (Hout out eq_refl) as (Hc & Hl & _).
Qed.

(** C20: No invented results: on a strict registry, a run that ends otherwise
    than by a refused or failed call reports exactly the tool bodies it
    entered, in order, and each of them succeeded. *)
Theorem run_reports_what_ran m task system ctx budget s out s' :
  model_keeps m -> strict (reg s) = true -> run m task system ctx budget s = (Ok (Some out), s') -> refusal out = false ->
  Forall (fun st => st_ok st = true) (lr_steps out) /\
  exists k, ran s' = k ++ ran s /\ map en_tool (rev (bodies k)) = map st_tool (lr_steps out).
Proof.
  intros Hm Hs Hr Href. apply any_run in Hr as (_ & k & Hg & _ & Hout); [|done].
  destruct (Hout out eq_refl) as (_ & _ & Hrep). destruct (Hrep Hs Href) as [Hok Hmap].
  split; [done|]. exists k. split; [apply (gr_ran _ _ _ _ Hg)|done].
Qed.
End Driver.
