(* ===== verification/Metered.v ===== *)
(** * The metered model

    [src/agency/llm/metered.py]: a model bound to one admitted request.  A call
    is checked, counted in the budget, announced by an intent in the audit log,
    dispatched once through [Llm], and settled by an outcome.

    The state is [ToolRegistry.State], whose surroundings it shares: the log is
    the one behind the wrapper's [_audit], and [attrs] reads the wrapper's
    attributes, which other coroutines may replace, from the world.  A dispatch
    is remembered in [ran] under the name [model.generate].  Objects have
    numbers for [is]; frozen values cannot change, so the facts [_owner_facts]
    compares again are those of the binding itself.  [w_ending] is how
    [asyncio.wait_for] ends the dispatch, [exc_name] is [type(exc).__name__]. *)
From Stdlib Require Import SpecFloat.
From S2P Require Import BudgetStore.
From S2P Require Import Prelude PyStr PyDict PyJson Identity AuditTrail AdmissionModels Llm Tools ToolRegistry ToolDriver.

Definition TimeoutError : exn := CallbackError "TimeoutError".

(** ** Bindings *)

Record MeteredBinding := mk_MeteredBinding {
  mb_bot_id : string;
  mb_update_id : Z;
  mb_user_id : Z;
  mb_capability : string;
  mb_principal : BetaPrincipal;
  mb_provider : string;
  mb_model : string;
}.

(** [MeteredBinding.__post_init__] *)
Definition check_metered_binding (b : MeteredBinding) : result unit :=
  _ ← validate_bot_id (mb_bot_id b);
  _ ← raise_if (mb_update_id b <? 0)%Z ValueError;
  _ ← raise_if (mb_user_id b <=? 0)%Z ValueError;
  _ ← raise_if (String.eqb (mb_capability b) "") ValueError;
  _ ← raise_if (is_blank (mb_provider b)) ValueError;
  _ ← raise_if (is_blank (mb_model b)) ValueError;
  raise_if (negb (mb_user_id b =? telegram_user_id (mb_principal b))%Z) ValueError.

(** [OwnerMeteredBinding]; [om_budget] is the identity of [grant.budget]. *)
Record OwnerMetered (G : Type) := mk_OwnerMetered {
  om_grant : G;
  om_budget : nat;
  om_provider : string;
  om_model : string;
  om_config_id : string;
}.
Arguments mk_OwnerMetered {G}.
Arguments om_grant {G} _.
Arguments om_budget {G} _.
Arguments om_provider {G} _.
Arguments om_model {G} _.
Arguments om_config_id {G} _.

(** What the two budgets offer a model: [reserve_model_call] *)
Class ModelBudget (G W : Type) := {
  mg_reserve : G -> py W bool;
  mg_reserve_beta : MeteredBinding -> py W bool;
}.

Section Metered.
Context {G W Seconds : Type} `{OwnerGate G W} `{ModelBudget G W}.
Context (w_main w_own : nat -> Connection) (w_id : nat -> string) (w_stamp : nat -> stamp).
Context (w_call_id : nat -> string) (w_interrupt : nat -> interrupt).
Context (w_log : nat -> list audit_op) (w_world : nat -> W -> W) (w_suspend : nat -> bool).
Context (same : G -> G -> bool) (exc_name : exn -> string).

Abbreviation State := (State (G:=G) (W:=W) (Seconds:=Seconds)).
Abbreviation auditing := (auditing w_interrupt w_log w_world w_suspend).
Abbreviation awaiting := (awaiting w_log w_world w_suspend).
Abbreviation pass := (pass w_log w_world w_suspend).

(** ** The wrapper *)

Inductive MBinding := MOwner (object : nat) (b : OwnerMetered G) | MBeta (object : nat) (b : MeteredBinding) | MOther.
Inductive StoreKind := BetaStore | OwnerStore | OtherStore.

(** The attributes that are compared with what was issued *)
Record Attrs := mk_Attrs {
  at_inner : nat;
  at_inner_exact : bool;             (* [type(self._inner) is LLMAdapter] *)
  at_adapter : LLMAdapter;
  at_binding : MBinding;
  at_store : nat;
  at_store_kind : StoreKind;
  at_audit : nat;
  at_audit_exact : bool;
}.

Definition binding_object (b : MBinding) : option nat :=
  match b with MOwner o _ | MBeta o _ => Some o | MOther => None end.

(** The attributes that are the wrapper's own *)
Record MeteredModel := mk_Metered {
  mm_issued : Attrs;
  mm_snapshot : option LLMDispatchSnapshot;
  mm_grant : option G;
}.

Context (attrs : W -> Attrs).
Context (urlsplit : string -> option Endpoint) (is_loopback : string -> option bool).
Context (post : Request -> py W json) (float_repr : spec_float -> string).
Context (parse_float : string -> string) (limit : nat) (env : Env).

Definition current_attrs : py State Attrs := gets (fun s => attrs (world s)).

(** [OwnerMeteredBinding.__post_init__] *)
Definition check_owner_metered (b : OwnerMetered G) : py W unit :=
  _ ← og_check (om_grant b);
  _ ← raise_when (negb (bool_decide (om_provider b ∈ ["openai"; "echo"]%string))) (pilot "invalid_request");
  _ ← lift (identifier (om_model b));
  lift (identifier (om_config_id b)).

(** [MeteredModel(inner, binding, store, audit, timeout_s)] *)
Definition new_metered (a : Attrs) (timeout : spec_float) : py W MeteredModel :=
  _ ← raise_when (negb (at_inner_exact a)) TypeError;
  _ ← raise_when (negb match at_binding a, at_store_kind a with
                       | MBeta _ _, BetaStore | MOwner _ _, OwnerStore => true | _, _ => false end) TypeError;
  _ ← raise_when (negb (at_audit_exact a)) TypeError;
  _ ← raise_when (negb (SFltb zero timeout) || match timeout with S754_infinity _ => true | _ => false end) ValueError;
  let '(p, m) := match at_binding a with
                 | MOwner _ b => (om_provider b, om_model b)
                 | MBeta _ b => (mb_provider b, mb_model b)
                 | MOther => ("", "")%string
                 end in
  _ ← raise_when (negb (String.eqb p (la_provider (at_adapter a))) || negb (String.eqb m (la_model (at_adapter a)))) ValueError;
  match at_binding a with
  | MOwner _ b =>
      _ ← raise_when (SFltb forty_five timeout) ValueError;
      _ ← check_owner_metered b;
      _ ← raise_when (negb (om_budget b =? at_store a)) TypeError;
      snapshot ← lift (freeze_dispatch urlsplit is_loopback (at_adapter a));
      mret (mk_Metered a (Some snapshot) (Some (om_grant b)))
  | MBeta _ b =>
      _ ← raise_when (negb (mb_user_id b =? telegram_user_id (mb_principal b))%Z) ValueError;
      mret (mk_Metered a None None)
  | MOther => mret (mk_Metered a None None)
  end.

(** A value of the context a call is given *)
Inductive CtxValue := CGrant (g : G) | CPrincipal (p : BetaPrincipal) | CJson (v : json).

(** ** Who may call *)

(** The wrapper's parts are the issued ones. *)
Definition undrifted (a i : Attrs) : bool :=
  (at_inner a =? at_inner i) && bool_decide (binding_object (at_binding a) = binding_object (at_binding i)) &&
  (at_store a =? at_store i) && (at_audit a =? at_audit i).

(** [_validate_owner] *)
Definition validate_owner (m : MeteredModel) (g : G) (c : option (list (string * CtxValue))) : py State unit :=
  a ← current_attrs;
  match at_binding a with
  | MOwner _ b =>
      _ ← raise_when (negb (same (om_grant b) g) || negb match at_store_kind a with OwnerStore => true | _ => false end ||
                      negb (om_budget b =? at_store a) || negb (at_audit_exact a) || negb (at_inner_exact a) ||
                      negb (undrifted a (mm_issued m))) MeteredDenied;
      _ ← catch (on_world (check_owner_metered b))
            (fun e => match e with
                      | PilotError _ _ _ | TypeError | ValueError => raise MeteredDenied
                      | _ => if bool_decide (e = AttributeError) then raise MeteredDenied else raise e
                      end);
      match c with
      | None => raise MeteredDenied
      | Some d =>
          _ ← raise_when (negb match dget "owner_grant"%string d with Some (CGrant g') => same g' g | _ => false end)
                MeteredDenied;
          _ ← raise_when (negb (forallb (fun k => bool_decide (k ∈ ["owner_grant"; "task_id"; "strict"]%string)) (dkeys d)))
                MeteredDenied;
          raise_when (negb match dget "task_id"%string d with
                           | None => true
                           | Some (CJson (JStr t)) => String.eqb t (og_task g)
                           | Some _ => false
                           end) MeteredDenied
      end
  | _ => raise MeteredDenied
  end.

(** [_check_owner] *)
Definition check_owner (m : MeteredModel) (c : option (list (string * CtxValue))) : py State unit :=
  match mm_grant m with
  | None => mret tt
  | Some g =>
      _ ← validate_owner m g c;
      active ← catch (awaiting (og_active g)) (fun _ => raise MeteredDenied);
      _ ← validate_owner m g c;
      raise_when (negb active) MeteredDenied
  end.

(** [_validate_beta] *)
Definition validate_beta (a : Attrs) (b : MeteredBinding) (c : option (list (string * CtxValue))) : result unit :=
  _ ← raise_if (negb match at_store_kind a with BetaStore => true | _ => false end) MeteredDenied;
  _ ← raise_if (is_blank (mb_bot_id b) || (128 <? py_len (mb_bot_id b))%Z || (mb_update_id b <? 0)%Z ||
                (mb_user_id b <=? 0)%Z || String.eqb (mb_capability b) "" || is_blank (mb_provider b) ||
                is_blank (mb_model b) || negb (mb_user_id b =? telegram_user_id (mb_principal b))%Z) MeteredDenied;
  _ ← raise_if (negb (String.eqb (la_provider (at_adapter a)) (mb_provider b)) ||
                negb (String.eqb (la_model (at_adapter a)) (mb_model b))) MeteredDenied;
  _ ← raise_if (negb (private_chat (mb_principal b))) MeteredDenied;
  match c with
  | None => Err MeteredDenied
  | Some d =>
      _ ← raise_if (existsb (fun k => dmem k d) ["provider"; "model"; "binding"; "capability"; "principal"]%string) MeteredDenied;
      match dget "beta_principal"%string d with
      | Some (CPrincipal p) => raise_if (negb (bool_decide (p = mb_principal b))) MeteredDenied
      | _ => Err MeteredDenied
      end
  end.

(** ** The audit entries *)

(** What an entry says of the call: provider, model, task and identity *)
Definition entry_labels (m : MeteredModel) (a : Attrs) : result (string * string * string * (string * json)) :=
  match mm_grant m with
  | Some _ =>
      match mm_snapshot m with
      | Some sn => Ok (sn_provider sn, sn_model sn, "owner-pilot", ("identity", JStr "owner-pilot"))%string
      | None => Err MeteredError
      end
  | None =>
      match at_binding a with
      | MBeta _ b => Ok (mb_provider b, mb_model b, mb_bot_id b +:+ ":" +:+ py_str_int (mb_update_id b),
                         ("user_id", JInt (telegram_user_id (mb_principal b))))%string
      | _ => Err MeteredError
      end
  end.

(** [_entry] *)
Definition call_entry (l : string * string * string * (string * json)) (n : nat) (cid res phase : string)
    (error_class : option string) : AuditEntry :=
  let '(p, mo, task, who) := l in
  mk_AuditEntry (w_id n) (w_stamp n) (Some "metered-model"%string) (Some task) (Some "model.generate"%string)
    (Some "granted"%string) None (Some (AText "model.generate")) res
    (Some ([("phase", JStr phase); ("call_id", JStr cid); ("provider", JStr p); ("model", JStr mo); who]%string ++
           match error_class with Some e => [("error_class"%string, JStr e)] | None => [] end))
    None None None None.

(** [_record_outcome] *)
Definition record_outcome (m : MeteredModel) (cid res error_class : string) : py State unit :=
  a ← current_attrs;
  l ← lift (entry_labels m a);
  let phase := if String.eqb res "unknown" then "uncertainty"%string else "outcome"%string in
  let write := auditing (fun n => let e := call_entry l n cid res phase (Some error_class) in
                           id ← append_beta (w_main n) e; mret (String.eqb id (entry_id e))) in
  match mm_grant m with
  | None => _ ← write; mret tt
  | Some _ => ok ← catch write (fun _ => raise MeteredError); raise_when (negb ok) MeteredError
  end.

(** ** One call *)

(** An exception of the budget or of the log before the dispatch: the owner's is
    denied whatever it is, a beta caller's cancellation goes on. *)
Definition denied_unless_cancelled {A} (m : MeteredModel) (op : py State A) : py State A :=
  catch op (fun e => match mm_grant m with
                     | None => if bool_decide (e = CancelledError) then raise CancelledError else raise MeteredDenied
                     | Some _ => raise MeteredDenied
                     end).

(** [generate] up to the acknowledged intent: the binding it started with, and the call id *)
Definition prepare (m : MeteredModel) (prompt : string) (c : option (list (string * CtxValue))) : py State (MBinding * string) :=
  a ← current_attrs;
  _ ← raise_when (is_blank prompt) MeteredDenied;
  _ ← raise_when (negb (at_inner_exact a) || match at_store_kind a with OtherStore => true | _ => false end ||
                  negb (at_audit_exact a)) MeteredDenied;
  _ ← match at_binding a with
      | MOwner _ _ =>
          _ ← raise_when (match bounded_dispatch_text prompt with Ok _ => false | Err _ => true end) MeteredDenied;
          check_owner m c
      | MBeta _ b => lift (validate_beta a b c)
      | MOther => raise MeteredDenied
      end;
  reserved ← denied_unless_cancelled m
    (now ← current_attrs;
     match at_binding a, at_store_kind now with
     | MOwner _ b, OwnerStore => awaiting (mg_reserve (om_grant b))
     | MBeta _ b, BetaStore => awaiting (mg_reserve_beta b)
     | _, _ => raise MeteredDenied
     end);
  _ ← raise_when (negb reserved) MeteredDenied;
  _ ← check_owner m c;
  cid ← draw w_call_id;
  now ← current_attrs;
  l ← lift (entry_labels m now);
  claimed ← denied_unless_cancelled m
    (auditing (fun n => claim_intent (w_main n) (w_own n) (call_entry l n cid "pending" "intent" None)));
  _ ← raise_when (negb claimed) MeteredDenied;
  _ ← check_owner m c;
  mret (at_binding a, cid).

(** How [asyncio.wait_for] ends the dispatch *)
Inductive ending := InTime | TooLate | Interrupted.
Context (w_ending : nat -> ending).

(** The adapter's call: the frozen dispatch of an owner's model, [generate] of the
    current adapter otherwise *)
Definition exchange (m : MeteredModel) (prompt : string) : py W string := fun w =>
  match mm_snapshot m with
  | Some sn => generate_bound urlsplit is_loopback post float_repr prompt sn w
  | None => Llm.generate post float_repr parse_float limit env (at_adapter (attrs w)) prompt [] w
  end.

(** The same under [wait_for], remembered *)
Definition send (m : MeteredModel) (cid prompt : string) : py State string := fun s =>
  let '(r, w) := exchange m prompt (world s) in
  (match w_ending (steps s) with InTime => r | TooLate => Err TimeoutError | Interrupted => Err CancelledError end,
   pass (mk_State (reg s) (log s) w (steps s)
           (mk_Entered "model.generate" (Some cid) (mm_grant m) (rows (log s)) true :: ran s))).

(** [_dispatch] under [wait_for] *)
Definition dispatch (m : MeteredModel) (cid prompt : string) (c : option (list (string * CtxValue))) : py State string :=
  _ ← check_owner m c; send m cid prompt.

(** The uncertain end of a call *)
Definition unknown (m : MeteredModel) (cid error_class : string) : py State string :=
  _ ← record_outcome m cid "unknown" error_class; raise MeteredError.

Definition unless_denied {A} (op : py State A) (h : py State A) : py State A :=
  catch op (fun e => if bool_decide (e = MeteredDenied) then h else raise e).

(** [generate] from what the dispatch gave *)
Definition settle_call (m : MeteredModel) (c : option (list (string * CtxValue))) (cid : string) (r : result string)
    : py State string :=
  match r with
  | Err e =>
      if bool_decide (e = MeteredDenied) then
        match mm_grant m with Some _ => raise MeteredDenied | None => unknown m cid "MeteredDenied" end
      else if bool_decide (e = TimeoutError) then raise MeteredError
      else unknown m cid (exc_name e)
  | Ok raw =>
      if is_blank raw then unknown m cid "EmptyResponse"
      else
        _ ← unless_denied (check_owner m c) (_ ← unknown m cid "OwnerBindingChanged"; mret tt);
        _ ← record_outcome m cid "ok" "Generate";
        _ ← unless_denied (check_owner m c) (raise MeteredError);
        mret raw
  end.

(** What an operation gives, as a value *)
Definition attempt {A} (op : py State A) : py State (result A) := fun s => let '(r, s') := op s in (Ok r, s').

(** [generate] *)
Definition generate (m : MeteredModel) (prompt : string) (c : option (list (string * CtxValue))) : py State string :=
  '(b, cid) ← prepare m prompt c;
  a ← current_attrs;
  _ ← raise_when (match mm_snapshot m with
                  | Some _ => false
                  | None =>
                      let '(p, mo) := match b with
                                      | MOwner _ b => (om_provider b, om_model b)
                                      | MBeta _ b => (mb_provider b, mb_model b)
                                      | MOther => ("", "")%string
                                      end in
                      negb (at_inner_exact a) || negb (String.eqb (la_provider (at_adapter a)) p) ||
                      negb (String.eqb (la_model (at_adapter a)) mo)
                  end) MeteredDenied;
  r ← attempt (dispatch m cid prompt c);
  settle_call m c cid r.
End Metered.

(** ** Calls without an outcome *)

(** No row of [l] is an outcome of the call [c]. *)
Definition quiet (c : string) (l : list Row) : Prop :=
  Forall (fun row => ~ (has_phase "outcome" row = true /\ call_id row = Some (SText c))) l.

(** The intent of [c] is in the log, and no outcome. *)
Definition unresolved (c : string) (l : list Row) : Prop :=
  (exists row, row ∈ l /\ intent_row c row) /\ quiet c l.

(** An operation of the log that writes no outcome of [c] *)
Definition silent (c : string) (op : audit_op) : Prop :=
  match op with Append e | AppendBeta _ e | ClaimIntent _ _ e => quiet c [row_of e] | Initialize | Close => True end.

Lemma unresolved_pending c l : unresolved c l -> pending_calls l <> [].
Proof.
  intros [(row & Hin & Hi & Hc) Hq] Hp.
  assert (row ∈ pending_calls l) as Hrow; [|by rewrite Hp in Hrow; apply not_elem_of_nil in Hrow].
  unfold pending_calls. apply list_elem_of_In, filter_In. split; [by apply list_elem_of_In|]. rewrite Hi. cbn [andb].
  apply negb_true_iff, not_true_iff_false. intros (o & Ho%list_elem_of_In & Hr)%existsb_exists.
  unfold quiet in Hq. rewrite Forall_forall in Hq. apply (Hq o Ho). unfold resolves in Hr. breflect. split; [done|].
  rewrite Hc in H0. destruct (call_id o) as [v|]; [|done]. by apply bool_decide_eq_true in H0 as ->.
Qed.

(** While a call has no outcome, no intent is claimed. *)
Lemma unresolved_claim c main own e l x l' :
  unresolved c (rows l) -> claim_intent main own e l = (x, l') -> x <> Ok true.
Proof.
  intros Hu%unresolved_pending. rewrite claim_intent_run. destruct (negb _); [by intros [= <- <-]|].
  destruct (negb _); [by intros [= <- <-]|]. destruct (negb _); [by intros [= <- <-]|].
  rewrite bool_decide_false by done. by intros [= <- <-].
Qed.

Lemma quiet_exec c l op : silent c op -> quiet c (rows l) -> quiet c (rows (audit_exec l op)).
Proof.
  unfold quiet. destruct op as [| |e|main e|main own e]; cbn [silent audit_exec]; try done; intros Hs Hq.
  - rewrite append_run. destruct (negb _); [done|]. case_bool_decide; [done|]. cbn. by apply Forall_app.
  - rewrite append_beta_run. destruct (_ || _); [done|]. case_bool_decide; [done|]. cbn. by apply Forall_app.
  - rewrite claim_intent_run. do 3 (destruct (negb _); [done|]). destruct (negb _); [done|]. case_bool_decide; [done|].
    cbn. by apply Forall_app.
Qed.

Lemma quiet_run c l ops : Forall (silent c) ops -> quiet c (rows l) -> quiet c (rows (foldl audit_exec l ops)).
Proof. intros Hops. revert l. induction Hops as [|op ops Hop _ IH]; intros l Hq; [done|]. by apply IH, quiet_exec. Qed.

(** Only rows of the phase [outcome] are outcomes. *)
Lemma entry_phase w_id w_stamp l n cid res phase err :
  has_phase phase (row_of (call_entry w_id w_stamp l n cid res phase err)) = true /\
  call_id (row_of (call_entry w_id w_stamp l n cid res phase err)) = Some (SText cid) /\
  r_result (row_of (call_entry w_id w_stamp l n cid res phase err)) = res.
Proof.
  destruct l as [[[p mo] task] [k v]]. unfold call_entry, has_phase, call_id, json_extract.
  cbn [row_of r_evidence r_result evidence result_ json_column fmap option_fmap option_map]. rewrite !jget_canon.
  cbn. by rewrite bool_decide_true.
Qed.

Lemma phase_unique p q row : has_phase p row = true -> has_phase q row = true -> p = q.
Proof. unfold has_phase. intros Hp%bool_decide_eq_true Hq%bool_decide_eq_true. congruence. Qed.

Lemma entry_quiet c w_id w_stamp l n cid res phase err :
  phase <> "outcome"%string -> quiet c [row_of (call_entry w_id w_stamp l n cid res phase err)].
Proof.
  intros Hp. apply Forall_singleton. intros [Ho _].
  destruct (entry_phase w_id w_stamp l n cid res phase err) as [Hph _]. by apply Hp, (phase_unique _ _ _ Hph Ho).
Qed.

(** ** What a call keeps *)

Section Calls.
Context {G W Seconds : Type} `{OwnerGate G W} `{ModelBudget G W}.
Context (w_main w_own : nat -> Connection) (w_id : nat -> string) (w_stamp : nat -> stamp).
Context (w_call_id : nat -> string) (w_interrupt : nat -> interrupt).
Context (w_log : nat -> list audit_op) (w_world : nat -> W -> W) (w_suspend : nat -> bool).
Context (same : G -> G -> bool) (exc_name : exn -> string) (attrs : W -> Attrs (G:=G)).
Context (urlsplit : string -> option Endpoint) (is_loopback : string -> option bool).
Context (post : Request -> py W json) (float_repr : spec_float -> string).
Context (parse_float : string -> string) (limit : nat) (env : Env) (w_ending : nat -> ending).

Abbreviation State := (State (G:=G) (W:=W) (Seconds:=Seconds)).
Abbreviation pass := (pass w_log w_world w_suspend).
Abbreviation auditing := (auditing w_interrupt w_log w_world w_suspend).
Abbreviation awaiting := (awaiting w_log w_world w_suspend).
Abbreviation check_owner := (check_owner w_log w_world w_suspend same attrs).
Abbreviation record_outcome := (record_outcome w_main w_id w_stamp w_interrupt w_log w_world w_suspend attrs).
Abbreviation prepare := (prepare w_main w_own w_id w_stamp w_call_id w_interrupt w_log w_world w_suspend same attrs).
Abbreviation exchange := (exchange attrs urlsplit is_loopback post float_repr parse_float limit env).
Abbreviation send := (send w_log w_world w_suspend attrs urlsplit is_loopback post float_repr parse_float limit env w_ending).
Abbreviation dispatch := (dispatch w_log w_world w_suspend same attrs urlsplit is_loopback post float_repr parse_float limit env w_ending).
Abbreviation unknown := (unknown w_main w_id w_stamp w_interrupt w_log w_world w_suspend attrs).
Abbreviation settle_call := (settle_call w_main w_id w_stamp w_interrupt w_log w_world w_suspend same exc_name attrs).
Abbreviation generate := (generate w_main w_own w_id w_stamp w_call_id w_interrupt w_log w_world w_suspend same exc_name
  attrs urlsplit is_loopback post float_repr parse_float limit env w_ending).

(** The world moves along [R]; the others write no outcome of the calls [cs]. *)
Context (R : relation W) `{!PreOrder R} (cs : string -> Prop).
Context (R_world : forall n w, R w (w_world n w)).
Context (R_check : forall g w, R w (og_check g w).2) (R_active : forall g w, R w (og_active g w).2).
Context (R_reserve : forall g w, R w (mg_reserve g w).2) (R_beta : forall b w, R w (mg_reserve_beta b w).2).
Context (R_post : forall rq w, R w (post rq w).2).
Context (others_silent : forall c n op, cs c -> op ∈ w_log n -> silent c op).

Abbreviation grows := (grows (G:=G) (W:=W) (Seconds:=Seconds) R).
Abbreviation evolves := (grows []).

(** From [s0] to [s] the bodies [l] were entered, and the calls [cs] are still without outcome. *)
Record kept (l : list (Entered (G:=G))) (s0 s : State) : Prop := {
  kp_grows : grows l s0 s;
  kp_steps : steps s0 <= steps s;
  kp_quiet : forall c, cs c -> quiet c (rows (log s0)) -> quiet c (rows (log s));
}.

#[local] Instance kept_preorder : PreOrder (kept []).
Proof using PreOrder0.
  split.
  - intros s. split; [apply evolves_preorder; apply _|lia|done].
  - intros s1 s2 s3 [H1 H2 H3] [H1' H2' H3']. split; [by eapply (grows_trans _ [] [])|lia|auto].
Qed.

Lemma kept_trans l l' s1 s2 s3 : kept l s1 s2 -> kept l' s2 s3 -> kept (l' ++ l) s1 s3.
Proof using PreOrder0. intros [H1 H2 H3] [H1' H2' H3']. split; [by eapply grows_trans|lia|auto]. Qed.

Lemma pass_kept s : kept [] s (pass s).
Proof using R_world PreOrder0 others_silent.
  split; [by apply pass_evolves|cbn; lia|]. intros c Hc Hq. cbn. apply quiet_run; [|done].
  apply Forall_forall. intros op Hop. by eapply others_silent.
Qed.

Lemma keep_kept_world {A} (s0 : State) (m : py W A) : (forall w, R w (m w).2) -> preserves (kept [] s0) (on_world m).
Proof using PreOrder0.
  intros Hm s Hs. unfold wp, on_world. pose proof (Hm (world s)) as Hw. destruct (m (world s)) as [r w].
  assert (kept [] s0 (mk_State (reg s) (log s) w (steps s) (ran s))); [|by destruct r].
  etransitivity; [exact Hs|]. split; [|done|done]. split; [by left|done|done|done|cbn; lia].
Qed.

Lemma keep_kept_awaiting {A} (s0 : State) (m : py W A) : (forall w, R w (m w).2) -> preserves (kept [] s0) (awaiting m).
Proof using R_world PreOrder0 others_silent.
  intros Hm s Hs. pose proof (keep_kept_world s0 m Hm s Hs) as Hw. unfold wp, ToolRegistry.awaiting in *.
  destruct (on_world m s) as [r s1]. assert (kept [] s0 (pass s1)) by (etransitivity; [|apply pass_kept]; by destruct r).
  by destruct r.
Qed.

Lemma keep_kept_draw {A} (s0 : State) (f : nat -> A) : preserves (kept [] s0) (draw f).
Proof using PreOrder0.
  intros s Hs. unfold wp, draw. etransitivity; [exact Hs|]. split; [|cbn; lia|done]. split; [by left|done|done|done|cbn; lia].
Qed.

(** Operations on the log that write no outcome of [cs] *)
Definition hushed {A} (m : py AuditLog A) : Prop := forall l, exists ops,
  (m l).2 = foldl audit_exec l ops /\ forall c, cs c -> Forall (silent c) ops.

Lemma keep_kept_auditing {A} (s0 : State) (m : nat -> py AuditLog A) :
  (forall n, hushed (m n)) -> preserves (kept [] s0) (auditing m).
Proof using R_world PreOrder0 others_silent.
  intros Hm s Hs. unfold wp, ToolRegistry.auditing. pose proof (pass_kept s) as Hp.
  destruct (Hm (steps s) (log s)) as (ops & Hops & Hsil). destruct (m (steps s) (log s)) as [r l]. cbn in Hops. subst l.
  set (s1 := mk_State (reg s) _ (world s) (steps s) (ran s)).
  assert (kept [] s s1) as H1.
  { split; [|done|]; [split; cbn; [by left|apply audit_prefix|done|done|done]|]. intros c Hc Hq. apply quiet_run; [by apply Hsil|done]. }
  assert (kept [] s0 (pass s1)) as H2 by (etransitivity; [exact Hs|]; etransitivity; [exact H1|apply pass_kept]).
  assert (kept [] s0 (pass s)) as H3 by (etransitivity; [exact Hs|exact Hp]). by destruct (w_interrupt (steps s)), r.
Qed.

Lemma hushed_claim n l cid res err :
  hushed (claim_intent (w_main n) (w_own n) (call_entry w_id w_stamp l n cid res "intent" err)).
Proof. intros lg. exists [ClaimIntent (w_main n) (w_own n) (call_entry w_id w_stamp l n cid res "intent" err)]. split; [done|]. intros c _. apply Forall_singleton. by apply entry_quiet. Qed.

Lemma hushed_append n l cid res phase err :
  phase <> "outcome"%string ->
  hushed (id ← append_beta (w_main n) (call_entry w_id w_stamp l n cid res phase err);
          mret (String.eqb id (entry_id (call_entry w_id w_stamp l n cid res phase err)))).
Proof.
  intros Hp lg. exists [AppendBeta (w_main n) (call_entry w_id w_stamp l n cid res phase err)]. split; [|intros c _; apply Forall_singleton; by apply entry_quiet].
  cbn. unfold mbind, py_bind. by destruct (append_beta _ _ lg) as [[x|x] l'].
Qed.

Lemma R_owner_metered (b : OwnerMetered G) w : R w (check_owner_metered b w).2.
Proof using R_check PreOrder0.
  apply (preserves_run (R w)); [|reflexivity]. unfold check_owner_metered.
  apply preserves_bind; [|intros _; repeat (apply preserves_bind; [apply preserves_lift|intros _]); apply preserves_lift].
  intros v Hv. unfold wp. pose proof (R_check (om_grant b) v) as Hc. by destruct (og_check (om_grant b) v) as [[x|e] v']; etransitivity.
Qed.

Ltac call_walk_step :=
  lazymatch goal with
  | |- preserves _ (mbind _ _) => apply preserves_bind; [|intros ?]
  | |- preserves _ (mret _) => apply preserves_ret
  | |- preserves _ (raise _) => apply preserves_raise
  | |- preserves _ (raise_when _ _) => apply preserves_lift
  | |- preserves _ (lift _) => apply preserves_lift
  | |- preserves _ (gets _) => apply preserves_gets
  | |- preserves _ (current_attrs _) => apply preserves_gets
  | |- preserves _ (catch _ _) => apply preserves_catch; [|intros ?]
  | |- preserves _ (draw _) => apply keep_kept_draw
  | |- preserves _ (on_world (check_owner_metered _)) => apply keep_kept_world, R_owner_metered
  | |- preserves _ (ToolRegistry.awaiting _ _ _ (og_active _)) => apply keep_kept_awaiting, R_active
  | |- preserves _ (ToolRegistry.awaiting _ _ _ (mg_reserve _)) => apply keep_kept_awaiting, R_reserve
  | |- preserves _ (ToolRegistry.awaiting _ _ _ (mg_reserve_beta _)) => apply keep_kept_awaiting, R_beta
  | |- preserves _ (ToolRegistry.auditing _ _ _ _ _) => apply keep_kept_auditing; intros ?
  | |- hushed (claim_intent _ _ _) => apply hushed_claim
  | |- hushed _ => apply hushed_append
  | |- preserves _ (match ?x with _ => _ end) => destruct x
  | |- preserves _ ?m => progress unfold Metered.check_owner, validate_owner, denied_unless_cancelled, Metered.record_outcome,
      Metered.unknown, unless_denied
  end.

Lemma keep_check (s0 : State) m c : preserves (kept [] s0) (check_owner m c).
Proof using R_world R_check R_active PreOrder0 others_silent. repeat call_walk_step. Qed.

Lemma keep_unknown (s0 : State) m cid err : preserves (kept [] s0) (unknown m cid err).
Proof using R_world PreOrder0 others_silent.
  unfold Metered.unknown, Metered.record_outcome. cbn [String.eqb Ascii.eqb eqb]. repeat call_walk_step; done.
Qed.

Lemma keep_prepare (s0 : State) m prompt c : preserves (kept [] s0) (prepare m prompt c).
Proof using R_world R_check R_active R_reserve R_beta PreOrder0 others_silent.
  unfold Metered.prepare. repeat first [apply keep_check|call_walk_step].
Qed.

(** ** What a dispatched call went through *)

Lemma kept_run {A} (m : py State A) s x s' : preserves (kept [] s) m -> m s = (x, s') -> kept [] s s'.
Proof using PreOrder0. intros Hm Hr. pose proof (preserves_run _ m s Hm ltac:(reflexivity)) as He. by rewrite Hr in He. Qed.

Lemma unresolved_kept c l s s' : kept l s s' -> cs c -> unresolved c (rows (log s)) -> unresolved c (rows (log s')).
Proof.
  intros [Hg _ Hq] Hc [(row & Hin & Hi) Hquiet]. split; [|by apply Hq]. exists row. split; [|done].
  eapply elem_of_prefix; [exact Hin|apply Hg].
Qed.

Lemma dispatch_op_ok {A} m (op : py State A) s x s' : denied_unless_cancelled m op s = (Ok x, s') -> op s = (Ok x, s').
Proof.
  unfold denied_unless_cancelled. intros [(a & Ha & [= <-])|(e & s1 & _ & Hr)]%catch_cases; [done|].
  destruct (mm_grant m); [done|]. by destruct (bool_decide _).
Qed.

(** The owner's check passes only on a binding of the wrapper's own grant. *)
Lemma validate_binding m g c (s : State) u s' :
  validate_owner same attrs m g c s = (Ok u, s') ->
  exists o b, at_binding (attrs (world s)) = MOwner o b /\ same (om_grant b) g = true /\
    at_store_kind (attrs (world s)) = OwnerStore.
Proof.
  unfold validate_owner, current_attrs. rewrite bind_gets. destruct (at_binding _) as [o b| |]; [|done|done].
  intros Hr. py_step Hr u1 s1 H1. exists o, b. breflect. split_and!; [done|done|].
  by destruct (at_store_kind _).
Qed.

(** What was reserved on the way from [s] to [s'], for the binding at [s] *)
Definition reserved (m : MeteredModel (G:=G)) (s s' : State) : Prop :=
  exists w w', R (world s) w /\ R w' (world s') /\
  match at_binding (attrs (world s)) with
  | MOwner _ b => mg_reserve (om_grant b) w = (Ok true, w') /\ forall g, mm_grant m = Some g -> same (om_grant b) g = true
  | MBeta _ b => mg_reserve_beta b w = (Ok true, w')
  | MOther => False
  end.

Lemma awaiting_ok {A} (m : py W A) (s : State) (x : A) s' :
  awaiting m s = (Ok x, s') -> exists w, m (world s) = (Ok x, w) /\ R w (world s').
Proof using R_world.
  unfold ToolRegistry.awaiting, on_world. destruct (m (world s)) as [r w]. intros [= -> <-]. exists w. split; [done|]. apply R_world.
Qed.

Lemma claim_granted l cid (s : State) s' :
  auditing (fun n => claim_intent (w_main n) (w_own n) (call_entry w_id w_stamp l n cid "pending" "intent" None)) s = (Ok true, s') ->
  (exists row, row ∈ rows (log s') /\ intent_row cid row) /\ forall c, unresolved c (rows (log s)) -> False.
Proof.
  intros (lg & Hc & Hp)%auditing_ok. split.
  - pose proof (claim_intent_run (w_main (steps s)) (w_own (steps s)) (call_entry w_id w_stamp l (steps s) cid "pending" "intent" None)
      (log s)) as Hrun. rewrite Hc in Hrun.
    destruct (negb (conn (log s))); [done|]. destruct (negb (claimable _)); [done|]. destruct (negb (_ && _)); [done|].
    destruct (negb (bool_decide _)); [done|]. destruct (bool_decide _); [done|]. injection Hrun as ->.
    eexists. split; [eapply elem_of_prefix; [|exact Hp]; cbn; apply elem_of_app; right; by left|].
    destruct (entry_phase w_id w_stamp l (steps s) cid "pending" "intent" None) as (Hph & Hid & Hres).
    split; [|done]. unfold is_intent. by rewrite Hres, Hph.
  - intros c Hu. by eapply unresolved_claim.
Qed.

Lemma prepare_ok m prompt c (s : State) b cid s' :
  prepare m prompt c s = (Ok (b, cid), s') ->
  kept [] s s' /\ (exists n, cid = w_call_id n /\ steps s <= n) /\ (exists row, row ∈ rows (log s') /\ intent_row cid row) /\
  (forall c', cs c' -> unresolved c' (rows (log s)) -> False) /\ reserved m s s'.
Proof using R_world R_check R_active R_reserve R_beta PreOrder0 others_silent.
  intros Hr. pose proof (kept_run _ _ _ _ (keep_prepare s m prompt c) Hr) as K. split; [done|]. revert Hr.
  unfold Metered.prepare, current_attrs. rewrite bind_gets. intros Hr.
  py_step Hr u1 s1 H1. py_step Hr u2 s2 H2.
  py_step Hr u3 s3 H3.
  assert (kept [] s s3) as K3.
  { eapply kept_run, H3. repeat first [apply keep_check|call_walk_step]. }
  py_step Hr res s4 H4. apply dispatch_op_ok in H4. rewrite bind_gets in H4.
  assert (kept [] s3 s4) as K4 by (eapply kept_run, H4; repeat call_walk_step).
  py_step Hr u5 s5 H5. destruct res; [clear H5|done].
  py_step Hr u6 s6 H6. assert (kept [] s4 s6) as K6 by (eapply kept_run, H6; apply keep_check).
  py_step Hr cid' s7 H7. assert (kept [] s6 s7) as K7 by (eapply kept_run, H7; call_walk_step).
  rewrite bind_gets in Hr. py_step Hr l s8 H8.
  py_step Hr claimed s9 H9. apply dispatch_op_ok in H9. py_step Hr u10 s10 H10.
  destruct claimed; [clear H10|done]. py_step Hr u11 s11 H11. injection Hr as _ <- <-.
  assert (kept [] s9 s11) as K11 by (eapply kept_run, H11; apply keep_check).
  assert (kept [] s7 s9) as K9 by (eapply kept_run, H9; call_walk_step; apply hushed_claim).
  apply claim_granted in H9 as [(row & Hrow & Hi) Hun].
  assert (kept [] s s7) as K07 by (etransitivity; [exact K3|]; etransitivity; [exact K4|]; etransitivity; [exact K6|exact K7]).
  split_and!.
  - injection H7 as <- _. exists (steps s6). split; [done|].
    pose proof (kp_steps _ _ _ K3). pose proof (kp_steps _ _ _ K4). pose proof (kp_steps _ _ _ K6). lia.
  - exists row. split; [|done]. eapply elem_of_prefix; [exact Hrow|apply K11].
  - intros c' Hc' Hu. eapply Hun. by eapply unresolved_kept.
  - assert (R (world s4) (world s11)) as R4.
    { etransitivity; [apply (kp_grows _ _ _ K6)|]. etransitivity; [apply (kp_grows _ _ _ K7)|].
      etransitivity; [apply (kp_grows _ _ _ K9)|]. apply (kp_grows _ _ _ K11). }
    unfold reserved. destruct (at_binding (attrs (world s))) as [o ob|o ob|] eqn:Hbind; [| |done].
    + destruct (at_store_kind (attrs (world s3))); try done. apply awaiting_ok in H4 as (w & Hw & Hw'). exists (world s3), w.
      split; [apply (kp_grows _ _ _ K3)|]. split; [by etransitivity|]. split; [done|]. intros g Hg.
      py_step H3 u12 s12 H12.
      unfold Metered.check_owner in H3. rewrite Hg in H3. py_step H3 u13 s13 H13.
      apply validate_binding in H13 as (o1 & b1 & Hb1 & Hs & _). rewrite Hbind in Hb1. by injection Hb1 as _ ->.
    + destruct (at_store_kind (attrs (world s3))); try done. apply awaiting_ok in H4 as (w & Hw & Hw'). exists (world s3), w.
      split; [apply (kp_grows _ _ _ K3)|]. by split; [etransitivity|].
Qed.

(** ** The dispatch and its outcome *)

Lemma R_bound prompt sn w : R w (generate_bound urlsplit is_loopback post float_repr prompt sn w).2.
Proof using R_post PreOrder0.
  apply (preserves_run (R w)); [|reflexivity]. unfold generate_bound.
  apply preserves_bind; [apply preserves_lift|intros _]. apply preserves_bind; [apply preserves_lift|intros p].
  destruct (String.eqb _ _); [apply preserves_lift|]. apply preserves_bind; [|intros d].
  - intros v Hv. unfold wp. pose proof (R_post) as Hp. match goal with |- context [post ?q v] => specialize (Hp q v); destruct (post q v) as [[x|e] v'] end;
      by etransitivity.
  - apply preserves_bind; [apply preserves_lift|intros t; apply preserves_lift].
Qed.

Lemma R_adapter a prompt w : R w (Llm.generate post float_repr parse_float limit env a prompt [] w).2.
Proof using R_post PreOrder0.
  destruct (Llm.generate _ _ _ _ _ _ _ _ w) as [x w'] eqn:Hg. apply (generate_answered _ _ _ _ _ _ _ _ _ _ _ (la_provider a)) in Hg; [|done].
  unfold answered in Hg. destruct (String.eqb _ _); [by destruct Hg as [-> _]|].
  destruct (provider_request _ _ _ _ _ _) as [rq|]; [|by destruct Hg as [-> _]].
  pose proof (R_post rq w) as Hp. by destruct Hg as [(d & Hd & _)|(e & Hd & _)]; rewrite Hd in Hp.
Qed.

Lemma send_run m cid prompt (s : State) x s' :
  send m cid prompt s = (x, s') -> kept [mk_Entered "model.generate" (Some cid) (mm_grant m) (rows (log s)) true] s s'.
Proof using R_world R_post PreOrder0 others_silent.
  unfold Metered.send. destruct (exchange m prompt (world s)) as [r w] eqn:Hw. unfold Metered.exchange in Hw.
  assert (R (world s) w) as HR.
  { destruct (mm_snapshot m); [pose proof (R_bound prompt l (world s)) as Hr|pose proof (R_adapter (at_adapter (attrs (world s))) prompt (world s)) as Hr];
      by rewrite Hw in Hr. }
  intros [= _ <-]. eapply (kept_trans [_] []); [|apply pass_kept]. split; [|done|done]. split; [by left|done|done|done|cbn; lia].
Qed.

(** The outcome is written, or nothing is and the write does not answer True. *)
Lemma write_cases l cid cls (s : State) x s' :
  auditing (fun n => let e := call_entry w_id w_stamp l n cid "ok" "outcome" cls in
              id ← append_beta (w_main n) e; mret (String.eqb id (entry_id e))) s = (x, s') ->
  (kept [] s s' /\ exists e, x = Err e /\ e <> MeteredDenied) \/
  (evolves s s' /\ steps s <= steps s' /\ x <> Err MeteredDenied /\ exists row, row ∈ rows (log s') /\ outcome_row cid "ok" row).
Proof using R_world PreOrder0 others_silent.
  intros Hr. assert (evolves s s') as E.
  { eapply (call_went R); [|exact Hr]. eapply keep_auditing; try done. intros n. apply audited_append. }
  unfold ToolRegistry.auditing in Hr. pose proof (pass_kept s) as Kp. cbn zeta in Hr.
  set (en := call_entry w_id w_stamp l (steps s) cid "ok" "outcome" cls) in *.
  assert ((id ← append_beta (w_main (steps s)) en; mret (String.eqb id (entry_id en))) (log s) =
    if negb (conn (log s)) || negb (verified (w_main (steps s))) then (Err RuntimeError, log s)
    else if bool_decide (entry_id en ∈ map r_entry_id (rows (log s))) then (Err ValueError, log s)
    else (Ok true, set_rows (rows (log s) ++ [row_of en]) (log s))) as Hm.
  { unfold mbind, py_bind. rewrite append_beta_run. destruct (_ || _); [done|]. destruct (bool_decide _); [done|].
    cbn. by rewrite String.eqb_refl. }
  rewrite Hm in Hr. replace (mk_State (reg s) (log s) (world s) (steps s) (ran s)) with s in Hr by by destruct s.
  destruct (w_interrupt (steps s)) eqn:Hi; [|injection Hr as <- <-; left; split; [done|by eexists]|];
    (destruct (_ || _); [replace (mk_State (reg s) (log s) (world s) (steps s) (ran s)) with s in Hr by (by destruct s);
                         injection Hr as <- <-; left; split; [done|by eexists]|];
     destruct (bool_decide _); [replace (mk_State (reg s) (log s) (world s) (steps s) (ran s)) with s in Hr by (by destruct s);
                         injection Hr as <- <-; left; split; [done|by eexists]|];
     injection Hr as <- <-; right; split_and!; [done|cbn; lia|done|];
     exists (row_of en); split; [eapply elem_of_prefix; [|apply audit_prefix]; cbn; apply elem_of_app; right; by left|];
     destruct (entry_phase w_id w_stamp l (steps s) cid "ok" "outcome" cls) as (Hph & Hid & Hres); by split_and!).
Qed.

Lemma record_ok m cid cls (s : State) x s' :
  record_outcome m cid "ok" cls s = (x, s') ->
  x <> Err MeteredDenied /\
  ((kept [] s s' /\ exists e, x = Err e) \/
   (evolves s s' /\ steps s <= steps s' /\ exists row, row ∈ rows (log s') /\ outcome_row cid "ok" row)).
Proof using R_world PreOrder0 others_silent.
  unfold Metered.record_outcome, current_attrs. rewrite bind_gets. intros Hr.
  apply py_bind_cases in Hr as [(e & [= Hl <-] & ->)|(l & s1 & [_ ->]%lift_ok & Hr)].
  { split; [|left; split; [reflexivity|eauto]]. unfold entry_labels in Hl.
    destruct (mm_grant m), (mm_snapshot m), (at_binding (attrs (world s))); try done; by injection Hl as <-. }
  cbn [String.eqb Ascii.eqb eqb] in Hr. destruct (mm_grant m).
  - apply py_bind_cases in Hr as [(e & Hr & ->)|(ok & s2 & Hr & Hend)].
    + apply catch_cases in Hr as [(y & _ & ?)|(e' & s2 & Hr & [= <- <-])]; [done|]. split; [done|].
      apply write_cases in Hr as [[K _]|(E & Hs & _ & Hrow)]; [left; eauto|by right].
    + unfold raise_when, lift in Hend. injection Hend as <- <-. apply catch_cases in Hr as [(y & Hr & [= <-])|(e' & s3 & _ & ?)]; [|done].
      split; [by destruct ok|]. apply write_cases in Hr as [[_ (e & ? & _)]|(E & Hs & _ & Hrow)]; [done|by right].
  - apply py_bind_cases in Hr as [(e & Hr & ->)|(ok & s2 & Hr & Hend)].
    + apply write_cases in Hr as [[K (e' & [= <-] & Hne)]|(E & Hs & Hne & Hrow)]; (split; [congruence|]); [left; eauto|by right].
    + injection Hend as <- <-. split; [done|]. apply write_cases in Hr as [[_ (e & ? & _)]|(E & Hs & _ & Hrow)]; [done|by right].
Qed.

Lemma record_not_denied m cid res cls (s : State) s' : record_outcome m cid res cls s <> (Err MeteredDenied, s').
Proof.
  unfold Metered.record_outcome, current_attrs. rewrite bind_gets. intros Hr.
  apply py_bind_cases in Hr as [(e & [= Hl _] & [= <-])|(l & s1 & [_ ->]%lift_ok & Hr)].
  { unfold entry_labels in Hl. destruct (mm_grant m), (mm_snapshot m), (at_binding (attrs (world s))); done. }
  destruct (mm_grant m).
  - apply py_bind_cases in Hr as [(e & Hr & [= <-])|(ok & s2 & _ & Hend)].
    + by apply catch_cases in Hr as [(y & _ & ?)|(e' & s2 & _ & ?)].
    + unfold raise_when, lift in Hend. by destruct ok.
  - apply py_bind_cases in Hr as [(e & Hr & [= <-])|(ok & s2 & _ & Hend)]; [|done].
    unfold ToolRegistry.auditing in Hr. destruct (w_interrupt _); [|done|]; revert Hr; cbn zeta;
      unfold mbind, py_bind; rewrite append_beta_run; destruct (_ || _); [done| |done|]; by destruct (bool_decide _).
Qed.

Lemma unknown_run m cid err (s : State) x s' :
  unknown m cid err s = (x, s') -> kept [] s s' /\ (exists e, x = Err e) /\ x <> Err MeteredDenied.
Proof using R_world PreOrder0 others_silent.
  intros Hr. split; [by eapply kept_run, Hr; apply keep_unknown|]. unfold Metered.unknown in Hr.
  apply py_bind_cases in Hr as [(e & Hr & ->)|(u & s1 & _ & [= <- <-])]; [|split; [by eexists|done]].
  split; [by eexists|]. intros [= ->]. by apply record_not_denied in Hr.
Qed.

(** The owner's check, where its denial is turned into something else *)
Lemma recheck_run m c (h : py State unit) (s : State) x s' :
  (forall s0, preserves (kept [] s0) h) -> (forall s1 y s2, h s1 = (y, s2) -> (exists e, y = Err e) /\ y <> Err MeteredDenied) ->
  unless_denied (check_owner m c) h s = (x, s') -> kept [] s s' /\ x <> Err MeteredDenied.
Proof using R_world R_check R_active PreOrder0 others_silent.
  intros Hk Hh Hr. split.
  - eapply kept_run, Hr. apply preserves_catch; [apply keep_check|intros e]. destruct (bool_decide _); [apply Hk|apply preserves_raise].
  - unfold unless_denied in Hr. apply catch_cases in Hr as [(u & _ & ->)|(e & s1 & _ & Hr)]; [done|].
    case_bool_decide as He; [by destruct (Hh _ _ _ Hr)|]. injection Hr as <- _. by intros [= ->].
Qed.

Lemma settle_run m c cid r (s : State) x s' :
  settle_call m c cid r s = (x, s') ->
  (mm_grant m = None \/ r <> Err MeteredDenied -> x <> Err MeteredDenied) /\
  ((kept [] s s' /\ exists e, x = Err e) \/
   (evolves s s' /\ steps s <= steps s' /\ (exists row, row ∈ rows (log s') /\ outcome_row cid "ok" row) /\
    (exists raw, r = Ok raw /\ is_blank raw = false /\ forall raw', x = Ok raw' -> raw' = raw))).
Proof using R_world R_check R_active PreOrder0 others_silent.
  assert (forall err, unknown m cid err s = (x, s') ->
    (mm_grant m = None \/ r <> Err MeteredDenied -> x <> Err MeteredDenied) /\ ((kept [] s s' /\ exists e, x = Err e) \/ False)) as Hunk.
  { intros err (K & He & Hd)%unknown_run. split; [done|by left]. }
  unfold Metered.settle_call. destruct r as [raw|e].
  2: { case_bool_decide as Hd; [destruct (mm_grant m)|case_bool_decide].
       - intros [= <- <-]. split; [intros [?|?]; congruence|]. left. split; [reflexivity|eauto].
       - intros [? [?|[]]]%Hunk. split; [done|by left].
       - intros [= <- <-]. split; [done|]. left. split; [reflexivity|eauto].
       - intros [? [?|[]]]%Hunk. split; [done|by left]. }
  destruct (is_blank raw) eqn:Hb; [intros [? [?|[]]]%Hunk; split; [done|by left]|]. intros Hr. clear Hunk.
  assert (forall y s3, unless_denied (check_owner m c) (_ ← unknown m cid "OwnerBindingChanged"; mret tt) s = (y, s3) ->
    kept [] s s3 /\ y <> Err MeteredDenied) as Hfirst.
  { intros y s3. apply recheck_run.
    - intros s0. apply preserves_bind; [apply keep_unknown|intros; apply preserves_ret].
    - intros s4 z s5 Hz. apply py_bind_cases in Hz as [(e & Hz & ->)|(v & s6 & Hz & _)];
        apply unknown_run in Hz as (_ & (e2 & He) & Hd); [|done]. split; [by eexists|]. intros [= ->]. by apply Hd. }
  apply py_bind_cases in Hr as [(e & H1 & ->)|(u1 & s1 & H1 & Hr)]; apply Hfirst in H1 as [K1 Hd1].
  { split; [intros _ [= ->]; by apply Hd1|left; eauto]. }
  apply py_bind_cases in Hr as [(e & H2 & ->)|(u2 & s2 & H2 & Hr)]; apply record_ok in H2 as [Hd H2].
  { split; [intros _ [= ->]; by apply Hd|]. destruct H2 as [[K2 _]|(E2 & Hs & row & Hrow)].
    - left. split; [by etransitivity|eauto].
    - right. split; [by eapply (grows_trans _ [] []); [apply K1|]|]. split; [pose proof (kp_steps _ _ _ K1); lia|].
      split; [by exists row|by exists raw]. }
  destruct H2 as [[_ [e ?]]|(E2 & Hs & row & Hrow & Ho)]; [done|].
  assert (forall y s3, unless_denied (check_owner m c) (raise MeteredError) s2 = (y, s3) -> kept [] s2 s3 /\ y <> Err MeteredDenied) as Hlast.
  { intros y s3. apply recheck_run; [intros; apply preserves_raise|]. intros s4 z s5 [= <- <-]. split; [by eexists|done]. }
  assert (kept [] s2 s' /\ (x = Ok raw \/ exists e, x = Err e /\ e <> MeteredDenied)) as [K3 Hx].
  { apply py_bind_cases in Hr as [(e & H3 & ->)|(u3 & s3 & H3 & [= <- <-])]; apply Hlast in H3 as [K Hd3]; split; try done;
      [right; exists e; split; [done|congruence]|by left]. }
  split; [intros _; destruct Hx as [->|(e & -> & Hne)]; congruence|]. right. split.
  - eapply (grows_trans _ [] []); [eapply (grows_trans _ [] []); [apply K1|exact E2]|apply K3].
  - split; [pose proof (kp_steps _ _ _ K1); pose proof (kp_steps _ _ _ K3); lia|]. split.
    + exists row. split; [eapply elem_of_prefix; [exact Hrow|apply K3]|done].
    + exists raw. split_and!; [done|done|]. intros raw' ->. by destruct Hx as [[= ->]|(e & ? & _)].
Qed.

(** ** The whole call *)

Lemma item_error key v e : item key v = Err e -> e <> MeteredDenied.
Proof. unfold item. destruct v; try (by intros [= <-]). by destruct (dget _ _); [|intros [= <-]]. Qed.

Lemma chat_text_error data e : chat_text data = Err e -> e <> MeteredDenied.
Proof.
  unfold chat_text, mbind, result_bind. destruct (item "choices" data) as [v1|e1] eqn:H1; [|intros [= <-]; by eapply item_error].
  destruct (first v1) as [v2|e2] eqn:H2; [|intros [= <-]; unfold first in H2; by repeat case_match; simplify_eq].
  destruct (item "message" v2) as [v3|e3] eqn:H3; [|intros [= <-]; by eapply item_error].
  destruct (item "content" v3) as [v4|e4] eqn:H4; [|intros [= <-]; by eapply item_error].
  unfold response_text. destruct v4; by intros [= <-].
Qed.

Lemma check_snapshot_error sn e : check_snapshot urlsplit is_loopback sn = Err e -> e = ValueError.
Proof.
  unfold check_snapshot, validate_dispatch_endpoint, raise_if, mbind, result_bind. intros Hr. repeat case_match; simplify_eq; done.
Qed.

Lemma bounded_error t e : bounded_dispatch_text t = Err e -> e = ValueError.
Proof. unfold bounded_dispatch_text, raise_if, mbind, result_bind. intros Hr. repeat case_match; simplify_eq; done. Qed.

(** [httpx] raises no exception of this module. *)
Context (post_sane : forall rq w, (post rq w).1 <> Err MeteredDenied).

Lemma bound_not_denied prompt sn w : (generate_bound urlsplit is_loopback post float_repr prompt sn w).1 <> Err MeteredDenied.
Proof using post_sane.
  destruct (generate_bound _ _ _ _ prompt sn w) as [x w'] eqn:Hr. cbn [fst]. intros ->. unfold generate_bound in Hr.
  apply py_bind_cases in Hr as [(e & [= Hc _] & [= <-])|(u & s1 & [_ ->]%lift_ok & Hr)]; [by apply check_snapshot_error in Hc|].
  apply py_bind_cases in Hr as [(e & [= Hc _] & [= <-])|(p & s1 & [_ ->]%lift_ok & Hr)]; [by apply bounded_error in Hc|].
  destruct (String.eqb _ _); [injection Hr as Hc _; by apply bounded_error in Hc|].
  apply py_bind_cases in Hr as [(e & Hc & [= <-])|(d & s1 & _ & Hr)]; [by apply (f_equal fst), post_sane in Hc|].
  apply py_bind_cases in Hr as [(e & [= Hc _] & [= <-])|(t & s2 & [_ ->]%lift_ok & [= Hc _])];
    [by apply chat_text_error in Hc|by apply bounded_error in Hc].
Qed.

(** A call that went all the way to the provider *)
Record dispatched (m : MeteredModel (G:=G)) (x : result string) (cid : string) (en : Entered (G:=G)) (s s' : State) : Prop := {
  ds_id : exists n, cid = w_call_id n /\ steps s <= n;
  ds_name : en_tool en = "model.generate"%string;
  ds_model : en_model en = true;
  ds_call : en_call en = Some cid;
  ds_grant : en_grant en = mm_grant m;
  ds_intent : exists row, row ∈ en_rows en /\ intent_row cid row;
  ds_rows : en_rows en `prefix_of` rows (log s');
  ds_reserved : reserved m s s';
  ds_grows : grows [en] s s';
  ds_clear : forall c, cs c -> unresolved c (rows (log s)) -> False;
  ds_not_denied : (is_Some (mm_grant m) -> is_Some (mm_snapshot m)) -> x <> Err MeteredDenied;
}.

(** The provider answered the call in time, with text: the step of the dispatch and
    the world it met. *)
Definition answered_call (m : MeteredModel (G:=G)) (prompt : string) (x : result string) (s s' : State) : Prop :=
  exists k w raw, steps s <= k < steps s' /\ w_ending k = InTime /\ (exchange m prompt w).1 = Ok raw /\
    is_blank raw = false /\ forall raw', x = Ok raw' -> raw' = raw.

(** How a call that was sent ends: it raises and no outcome was written, or the
    provider had answered and its outcome is in the log. *)
Definition ended (m : MeteredModel (G:=G)) (prompt : string) (x : result string) (cid : string) (en : Entered (G:=G))
    (s s' : State) : Prop :=
  (kept [en] s s' /\ exists e, x = Err e) \/
  ((exists row, row ∈ rows (log s') /\ outcome_row cid "ok" row) /\ answered_call m prompt x s s').

Lemma send_answer m cid prompt (s : State) raw s' :
  send m cid prompt s = (Ok raw, s') ->
  w_ending (steps s) = InTime /\ (exchange m prompt (world s)).1 = Ok raw /\ steps s < steps s'.
Proof.
  unfold Metered.send. destruct (exchange m prompt (world s)) as [r w]. destruct (w_ending (steps s)); intros [= -> <-].
  split_and!; [done|done|cbn; lia].
Qed.

(** A call raises before anything is sent, or sends once. *)
Lemma generate_run m prompt c (s : State) x s' :
  generate m prompt c s = (x, s') ->
  (kept [] s s' /\ exists e, x = Err e) \/ exists cid en, dispatched m x cid en s s' /\ ended m prompt x cid en s s'.
Proof using R_world R_check R_active R_reserve R_beta R_post PreOrder0 others_silent post_sane.
  unfold Metered.generate, current_attrs. intros Hr.
  apply py_bind_cases in Hr as [(e & H1 & ->)|([b cid] & s1 & H1 & Hr)].
  { left. split; [by eapply kept_run, H1; apply keep_prepare|by eexists]. }
  apply prepare_ok in H1 as (K1 & Hid & (row & Hrow & Hi) & Hclear & Hres). rewrite bind_gets in Hr.
  apply py_bind_cases in Hr as [(e & H2 & ->)|(u & s2 & H2 & Hr)].
  { unfold raise_when, lift in H2. injection H2 as _ <-. left. split; [done|by eexists]. }
  unfold raise_when in H2. apply lift_ok in H2 as [_ ->].
  apply py_bind_cases in Hr as [(e & H3 & ->)|(r & s3 & H3 & Hr)].
  { unfold attempt in H3. by destruct (dispatch m cid prompt c s1). }
  unfold attempt in H3. destruct (dispatch m cid prompt c s1) as [r' s3'] eqn:Hd. injection H3 as -> ->.
  apply settle_run in Hr as [Hden Hend]. unfold Metered.dispatch in Hd.
  apply py_bind_cases in Hd as [(e & H4 & ->)|(u4 & s4 & H4 & Hd)]; pose proof (kept_run _ _ _ _ (keep_check s1 m c) H4) as K4.
  { left. destruct Hend as [[K3 He]|(_ & _ & _ & (raw & ? & _))]; [|done].
    split; [|done]. etransitivity; [exact K1|]. by etransitivity. }
  right. set (en := mk_Entered "model.generate" (Some cid) (mm_grant m) (rows (log s4)) true).
  assert (kept [en] s s3) as K3.
  { eapply (kept_trans [] [en]); [by etransitivity|]. by apply send_run in Hd. }
  exists cid, en. split; [split; try done|].
  - exists row. split; [|done]. eapply elem_of_prefix; [exact Hrow|apply K4].
  - cbn. apply send_run in Hd. etransitivity; [apply Hd|]. destruct Hend as [[K _]|[E _]]; [apply K|apply E].
  - destruct Hres as (w & w' & Hw & Hw' & Hb). exists w, w'. split_and!; [done| |done].
    etransitivity; [exact Hw'|]. etransitivity; [apply K4|]. apply send_run in Hd.
    etransitivity; [apply Hd|]. destruct Hend as [[K _]|[E _]]; [apply K|apply E].
  - eapply (grows_trans _ [en] []); [apply K3|]. destruct Hend as [[K _]|[E _]]; [apply K|apply E].
  - intros Hsn. apply Hden. destruct (mm_grant m) as [g|]; [right|by left]. intros ->.
    destruct (mm_snapshot m) as [sn|] eqn:Hs; [|by destruct (Hsn ltac:(by eexists))]. unfold Metered.send, Metered.exchange in Hd. rewrite Hs in Hd.
    pose proof (bound_not_denied prompt sn (world s4)) as Hb. destruct (generate_bound _ _ _ _ prompt sn (world s4)) as [y w].
    injection Hd as Hd _. by destruct (w_ending (steps s4)); [apply Hb|..].
  - destruct Hend as [[K He]|(E & Hs3 & Hrow' & (raw & -> & Hb & Hx))].
    + left. split; [|done]. by eapply (kept_trans [en] []).
    + right. split; [done|]. destruct (send_answer _ _ _ _ _ _ Hd) as (Ht & Hw & Hs4).
      exists (steps s4), (world s4), raw. split_and!; [|lia|done..].
      pose proof (kp_steps _ _ _ K1). pose proof (kp_steps _ _ _ K4). lia.
Qed.
End Calls.

(** ** Dispatch and uncertainty *)

Section Claims.
Context {G W Seconds : Type} `{OwnerGate G W} `{ModelBudget G W}.
Context (w_main w_own : nat -> Connection) (w_id : nat -> string) (w_stamp : nat -> stamp).
Context (w_call_id : nat -> string) (w_interrupt : nat -> interrupt).
Context (w_log : nat -> list audit_op) (w_world : nat -> W -> W) (w_suspend : nat -> bool).
Context (same : G -> G -> bool) (exc_name : exn -> string) (attrs : W -> Attrs (G:=G)).
Context (urlsplit : string -> option Endpoint) (is_loopback : string -> option bool).
Context (post : Request -> py W json) (float_repr : spec_float -> string).
Context (parse_float : string -> string) (limit : nat) (env : Env) (w_ending : nat -> ending).
Context (post_sane : forall rq w, (post rq w).1 <> Err MeteredDenied).

Abbreviation State := (State (G:=G) (W:=W) (Seconds:=Seconds)).
Abbreviation generate := (generate w_main w_own w_id w_stamp w_call_id w_interrupt w_log w_world w_suspend same exc_name
  attrs urlsplit is_loopback post float_repr parse_float limit env w_ending).
Abbreviation generate_at at_ := (Metered.generate w_main w_own w_id w_stamp w_call_id w_interrupt w_log w_world w_suspend same exc_name
  at_ urlsplit is_loopback post float_repr parse_float limit env w_ending).
Abbreviation run_at at_ cs := (generate_run w_main w_own w_id w_stamp w_call_id w_interrupt w_log w_world w_suspend same exc_name
  at_ urlsplit is_loopback post float_repr parse_float limit env w_ending (fun _ _ => True) cs).
Abbreviation run_of cs := (generate_run w_main w_own w_id w_stamp w_call_id w_interrupt w_log w_world w_suspend same exc_name
  attrs urlsplit is_loopback post float_repr parse_float limit env w_ending (fun _ _ => True) cs).

#[local] Instance any_worlds : PreOrder (fun _ _ : W => True).
Proof. by split. Qed.

(** Calls one after the other, each through its own wrapper, with its attributes *)
Fixpoint call_all (calls : list ((W -> Attrs (G:=G)) * MeteredModel (G:=G) * string * option (list (string * CtxValue (G:=G)))))
    (s : State) : list (result string) * State :=
  match calls with
  | [] => ([], s)
  | (at_, m, prompt, c) :: calls =>
      let '(x, s1) := generate_at at_ m prompt c s in
      let '(xs, s2) := call_all calls s1 in (x :: xs, s2)
  end.

(** C17: Every dispatch is accounted for: a call of the metered model raises
    with nothing sent, or sends once, and then its call id is fresh, its intent
    was in the audit log before the dispatch, and the budget had granted the
    call; a call that was sent is never reported as MeteredDenied; and a text
    is returned only when it is not blank and the outcome of the call is in the
    log. *)
Theorem dispatch_accounted m prompt c (s : State) x s' :
  (is_Some (mm_grant m) -> is_Some (mm_snapshot m)) -> generate m prompt c s = (x, s') ->
  (ran s' = ran s /\ exists e, x = Err e) \/
  exists cid en, ran s' = en :: ran s /\ en_call en = Some cid /\ (exists n, steps s <= n /\ cid = w_call_id n) /\
    (exists row, row ∈ en_rows en /\ intent_row cid row) /\
    (exists w w', match at_binding (attrs (world s)) with
                  | MOwner _ b => mg_reserve (om_grant b) w = (Ok true, w')
                  | MBeta _ b => mg_reserve_beta b w = (Ok true, w')
                  | MOther => False
                  end) /\
    x <> Err MeteredDenied /\
    forall raw, x = Ok raw -> is_blank raw = false /\ exists row, row ∈ rows (log s') /\ outcome_row cid "ok" row.
Proof using post_sane.
  intros Hsn Hr. apply (run_of (fun _ => False)) in Hr as [[[Hg _ _] He]|(cid & en & Hd & Hend)]; try done.
  - left. split; [apply (gr_ran _ _ _ _ Hg)|done].
  - right. destruct Hd as [(n & Hn & Hs) Hname _ Hc Hgr Hi _ (w & w' & _ & _ & Hres) Hg _ Hnd]. exists cid, en.
    split_and!; [apply (gr_ran _ _ _ _ Hg)|done|by exists n|done| |by apply Hnd|].
    + exists w, w'. destruct (at_binding _) as [o b|o b|]; [apply Hres|done|done].
    + intros raw ->. destruct Hend as [[_ [e ?]]|[Hrow (k & v & raw' & _ & _ & _ & Hb & Hx)]]; [done|].
      by rewrite (Hx raw eq_refl).
Qed.

(** C18: An uncertain call stays open: when a call was sent and raises, its own
    intent, under a call id drawn in it, was in the log before the dispatch, and
    either the provider had answered in time with text and that outcome is in the
    log, or the call has no outcome at all, so that its intent is pending and no
    intent of any process can be claimed any more. A timeout, a cancellation, an
    error of the exchange or a blank answer is never recorded as an outcome. *)
Theorem uncertain_call_stays_open m prompt c (s : State) e s' :
  (forall k n op, op ∈ w_log n -> silent (w_call_id k) op) ->
  (forall n, steps s <= n -> quiet (w_call_id n) (rows (log s))) ->
  generate m prompt c s = (Err e, s') -> ran s' <> ran s ->
  exists n en, steps s <= n /\ ran s' = en :: ran s /\ en_call en = Some (w_call_id n) /\
    (exists row, row ∈ en_rows en /\ intent_row (w_call_id n) row) /\ en_rows en `prefix_of` rows (log s') /\
    (((exists row, row ∈ rows (log s') /\ outcome_row (w_call_id n) "ok" row) /\
      exists k w raw, steps s <= k < steps s' /\ w_ending k = InTime /\
        (exchange attrs urlsplit is_loopback post float_repr parse_float limit env m prompt w).1 = Ok raw /\
        is_blank raw = false) \/
     (unresolved (w_call_id n) (rows (log s')) /\
      forall main own entry x l, claim_intent main own entry (log s') = (x, l) -> x <> Ok true)).
Proof using post_sane.
  intros Hsil Hq Hr Hran.
  apply (run_of (fun k => exists n, steps s <= n /\ k = w_call_id n)) in Hr as [[[Hg _ _] He]|(cid & en & Hd & Hend)]; try done.
  - by destruct Hran; apply (gr_ran _ _ _ _ Hg).
  - destruct Hd as [(n & -> & Hs) _ _ Hc _ (row & Hrow & Hi) Hrows _ Hg _ _]. exists n, en.
    split_and!; [done|apply (gr_ran _ _ _ _ Hg)|done|by exists row|done|].
    destruct Hend as [[[_ _ Hquiet] _]|[Hok (k & w & raw & Hk & Ht & Hw & Hb & _)]]; [right|left; eauto 10].
    assert (unresolved (w_call_id n) (rows (log s'))) as Hu.
    { split; [|apply Hquiet; [by exists n|by apply Hq]]. exists row. split; [|done]. by eapply elem_of_prefix. }
    split; [done|]. intros main own entry y l. by eapply unresolved_claim.
  - intros k n op (n' & _ & ->). apply Hsil.
Qed.

(** An unresolved call stops the model: while a call has an intent in the
    log and no outcome, every later call raises and nothing is sent, through
    whichever wrapper and in whatever number, and the call stays unresolved. *)
Theorem pending_blocks_dispatch c calls (s : State) xs s' :
  (forall n op, op ∈ w_log n -> silent c op) -> unresolved c (rows (log s)) ->
  call_all calls s = (xs, s') ->
  length xs = length calls /\ Forall (fun x => exists e, x = Err e) xs /\ ran s' = ran s /\ unresolved c (rows (log s')).
Proof using post_sane.
  intros Hsil. revert s xs s'. induction calls as [|[[[at_ m] prompt] ctx] calls IH]; intros s xs s' Hu; cbn [call_all].
  - intros [= <- <-]. by split_and!.
  - destruct (generate_at at_ m prompt ctx s) as [x s1] eqn:Hr. destruct (call_all calls s1) as [ys s2] eqn:Hc.
    intros [= <- <-]. apply (run_at at_ (eq c)) in Hr as [[K He]|(cid & en & Hd & _)]; try done.
    + destruct (IH s1 ys s2) as (Hl & Hf & Hran & Hu'); [by eapply unresolved_kept|done|]. split_and!; [cbn; by f_equal|by constructor| |done].
      rewrite Hran. apply (gr_ran _ _ _ _ (kp_grows _ _ _ _ _ K)).
    + by destruct (ds_clear _ _ _ _ _ _ _ _ _ _ _ Hd c).
    + intros ? n op <-. by apply Hsil.
Qed.
End Claims.

(** ** Against the budget's interface *)

(** What a budget promises a model: the world moves along [mb_moves], in which
    the model calls granted to a turn are only ever counted up; a reservation
    counts one more, and a turn has at most [mb_ceiling]. *)
Class ModelBudgetLaws (G W : Type) `{OwnerGate G W} `{!ModelBudget G W} := {
  mb_moves : relation W;
  mb_valid : W -> Prop;
  mb_turn : G -> Z;
  mb_spent : Z -> W -> nat;
  mb_ceiling : nat;
  ml_preorder :: PreOrder mb_moves;
  ml_check : forall g w, mb_moves w (og_check g w).2;
  ml_active : forall g w, mb_moves w (og_active g w).2;
  ml_reserve_moves : forall g w, mb_moves w (mg_reserve g w).2;
  ml_beta_moves : forall b w, mb_moves w (mg_reserve_beta b w).2;
  ml_moves : forall w w', mb_moves w w' -> mb_valid w -> mb_valid w' /\ forall k, mb_spent k w <= mb_spent k w';
  ml_reserve : forall g w w', mb_valid w -> mg_reserve g w = (Ok true, w') ->
    mb_spent (mb_turn g) w < mb_spent (mb_turn g) w';
  ml_ceiling : forall w k, mb_valid w -> mb_spent k w <= mb_ceiling;
}.

Section Bounded.
Context {G W Seconds : Type} `{ModelBudgetLaws G W}.
Context (w_main w_own : nat -> Connection) (w_id : nat -> string) (w_stamp : nat -> stamp).
Context (w_call_id : nat -> string) (w_interrupt : nat -> interrupt).
Context (w_log : nat -> list audit_op) (w_world : nat -> W -> W) (w_suspend : nat -> bool).
Context (same : G -> G -> bool) (exc_name : exn -> string).
Context (urlsplit : string -> option Endpoint) (is_loopback : string -> option bool).
Context (post : Request -> py W json) (float_repr : spec_float -> string).
Context (parse_float : string -> string) (limit : nat) (env : Env) (w_ending : nat -> ending).
Context (post_sane : forall rq w, (post rq w).1 <> Err MeteredDenied).
Context (others_move : forall n w, mb_moves w (w_world n w)) (post_moves : forall rq w, mb_moves w (post rq w).2).
Context (same_turn : forall g g', same g g' = true -> mb_turn g = mb_turn g').

Abbreviation State := (State (G:=G) (W:=W) (Seconds:=Seconds)).
Abbreviation call_all := (call_all w_main w_own w_id w_stamp w_call_id w_interrupt w_log w_world w_suspend same exc_name
  urlsplit is_loopback post float_repr parse_float limit env w_ending).
Abbreviation run_at at_ := (generate_run w_main w_own w_id w_stamp w_call_id w_interrupt w_log w_world w_suspend same exc_name
  at_ urlsplit is_loopback post float_repr parse_float limit env w_ending mb_moves (fun _ => False)).

(** A dispatch under a grant of the turn [k] *)
Definition under_turn (k : Z) (en : Entered (G:=G)) : bool :=
  match en_grant en with Some g => (mb_turn g =? k)%Z | None => false end.

(** The dispatches of each turn are among the calls its budget counted. *)
Definition covered (s : State) : Prop := mb_valid (world s) /\ forall k, count (under_turn k) (ran s) <= mb_spent k (world s).

Lemma covered_dispatch cs m x cid en (s s' : State) at_ :
  dispatched w_call_id same at_ mb_moves cs m x cid en s s' -> covered s ->
  (forall g, mm_grant m = Some g -> exists o b, at_binding (at_ (world s)) = MOwner o b) -> covered s'.
Proof using same_turn.
  intros Hd [Hv Hs] Hown. pose proof (ds_grows _ _ _ _ _ _ _ _ _ _ _ Hd) as Hg.
  destruct (ml_moves _ _ (gr_world _ _ _ _ Hg) Hv) as [Hv' Hk]. split; [done|]. intros k. specialize (Hs k). specialize (Hk k).
  rewrite (gr_ran _ _ _ _ Hg). cbn [app]. rewrite count_cons. unfold under_turn at 1.
  rewrite (ds_grant _ _ _ _ _ _ _ _ _ _ _ Hd). destruct (mm_grant m) as [g|] eqn:Hgr; [|lia].
  destruct (Z.eqb_spec (mb_turn g) k) as [<-|]; [|lia].
  destruct (ds_reserved _ _ _ _ _ _ _ _ _ _ _ Hd) as (w & w' & Hw & Hw' & Hres).
  destruct (Hown g eq_refl) as (o & b & Hb). rewrite Hb in Hres. destruct Hres as [Hres Hsame].
  specialize (Hsame g Hgr). apply same_turn in Hsame. destruct (ml_moves _ _ Hw Hv) as [Hvw Hk1].
  pose proof (ml_reserve _ _ _ Hvw Hres) as Hlt. pose proof (ml_reserve_moves (om_grant b) w) as Hmw. rewrite Hres in Hmw.
  destruct (ml_moves _ _ Hmw Hvw) as [Hvw' _]. destruct (ml_moves _ _ Hw' Hvw') as [_ Hk2].
  specialize (Hk1 (mb_turn g)). specialize (Hk2 (mb_turn g)). rewrite <- Hsame in *. lia.
Qed.

(** A call of an owner's wrapper gets past its first checks with an owner's binding only. *)
Lemma covered_call at_ m prompt c (s : State) x s' :
  Metered.generate w_main w_own w_id w_stamp w_call_id w_interrupt w_log w_world w_suspend same exc_name
    at_ urlsplit is_loopback post float_repr parse_float limit env w_ending m prompt c s = (x, s') ->
  (forall w, is_Some (mm_grant m) -> exists o b, at_binding (at_ w) = MOwner o b) -> covered s -> covered s'.
Proof using same_turn others_move post_moves post_sane.
  intros Hr Hown Hc. apply (run_at at_) in Hr as [[[Hg _ _] _]|(cid & en & Hd & _)]; try done;
    try (intros; first [apply ml_check|apply ml_active|apply ml_reserve_moves|apply ml_beta_moves]).
  - destruct Hc as [Hv Hs]. destruct (ml_moves _ _ (gr_world _ _ _ _ Hg) Hv) as [Hv' Hk]. split; [done|]. intros k.
    rewrite (gr_ran _ _ _ _ Hg). etransitivity; [apply Hs|apply Hk].
  - eapply covered_dispatch; [done|done|]. intros g Hg. apply Hown. by eexists.
Qed.

(** C16: Bounded dispatches: whatever calls are made through whatever wrappers,
    under any schedule of the other coroutines, as long as an owner wrapper keeps
    an owner binding, the calls dispatched to a
    provider under one turn's grants are at most the budget's ceiling. *)
Theorem model_calls_bounded calls (s : State) k :
  Forall (fun '(at_, m, _, _) => forall w, is_Some (mm_grant m) -> exists o b, at_binding (at_ w) = MOwner o b) calls ->
  mb_valid (world s) -> ran s = [] -> count (under_turn k) (ran (call_all calls s).2) <= mb_ceiling.
Proof using same_turn others_move post_moves post_sane.
  intros Hcalls Hv Hran. assert (covered s) as Hc by (split; [done|]; intros; rewrite Hran; cbn; lia). clear Hv Hran.
  assert (covered (call_all calls s).2) as [Hv Hk]; [|etransitivity; [apply Hk|by apply ml_ceiling]].
  revert s Hc. induction Hcalls as [|[[[at_ m] prompt] c] calls Hm _ IH]; intros s Hc; [done|]. cbn [Metered.call_all].
  destruct (Metered.generate _ _ _ _ _ _ _ _ _ _ _ at_ _ _ _ _ _ _ _ _ m prompt c s) as [x s1] eqn:Hr.
  apply covered_call in Hr; [|done|done]. specialize (IH s1 Hr). by destruct (call_all calls s1).
Qed.
End Bounded.
