(* ===== verification/OwnerTools.v ===== *)
(** * Owner tool calls, end to end

    The registry of [ToolRegistry] over the owner's budget of [OwnerBudget]: the
    adapter keeps the laws of [OwnerGateLaws], and any gate that does bounds the
    tool bodies a turn can enter. *)
From S2P Require Import Prelude PyStr PyDict PyJson Identity AuditTrail Sha256 Assessment.
From S2P Require Import BudgetStore.
From S2P Require Import AdmissionModels AdmissionStore AdmissionLife AdmissionTheorems.
From S2P Require Import OwnerBudget OwnerBudgetLife OwnerBudgetSafety.
From S2P Require Import Tools ToolRegistry JsonText ToolDriver.

(** ** Against the interface *)

Section Bounded.
Context {G W Seconds : Type} `{OwnerGateLaws G W}.
Context (w_main w_own : nat -> Connection) (w_id : nat -> string) (w_stamp : nat -> stamp).
Context (w_call_id : nat -> string) (w_duration : nat -> Z) (w_interrupt : nat -> interrupt).
Context (w_log : nat -> list audit_op) (w_world : nat -> W -> W) (w_suspend : nat -> bool) (w_text : ToolFailure -> string).
Context (others_move : forall n w, og_moves w (w_world n w)).

Abbreviation State := (State (G:=G) (W:=W) (Seconds:=Seconds)).
Abbreviation reg_exec := (reg_exec w_main w_own w_id w_stamp w_call_id w_duration w_interrupt w_log w_world w_suspend w_text).
Abbreviation reg_run := (reg_run w_main w_own w_id w_stamp w_call_id w_duration w_interrupt w_log w_world w_suspend w_text).

(** The tools stay within the moves of the adapter's world: none tampers with it. *)
Definition op_in (op : reg_op (G:=G) (W:=W) (Seconds:=Seconds)) : Prop :=
  match op with
  | RRegister t => forall timeout args ctx w, og_moves w (t_run t timeout args ctx w).2
  | _ => True
  end.

Definition of_turn (k : Z) (en : Entered (G:=G)) : bool :=
  match en_grant en with Some g => (og_turn g =? k)%Z | None => false end.

(** An owner registry whose entered bodies are all paid for *)
Record paid (s : State) : Prop := {
  pd_owner : owner_policy (reg s) = true;
  pd_in : reg_in og_moves (reg s);
  pd_valid : og_valid (world s);
  pd_spent : forall k, count (of_turn k) (ran s) <= og_spent k (world s);
}.

Lemma paid_evolves s s' : grows og_moves [] s s' -> paid s -> paid s'.
Proof.
  intros Hg [Ho Hi Hv Hs]. destruct (law_moves _ _ (gr_world _ _ _ _ Hg) Hv) as [Hv' Hk]. split; [| |done|].
  - by rewrite (same_reg _ owner_policy _ _ _ Hg).
  - by eapply reg_in_grows.
  - intros k. rewrite (gr_ran _ _ _ _ Hg). etransitivity; [apply Hs|apply Hk].
Qed.

Lemma paid_exec s op : op_in op -> paid s -> paid (reg_exec s op).
Proof using others_move.
  intros Hop Hp. destruct op as [t|positive name seconds|name args ctx]; cbn [ToolRegistry.reg_exec].
  - unfold register. destruct (dmem _ _); [done|]. destruct Hp as [Ho [Hi Hp] Hv Hs]. split; try done. split; [|done].
    cbn. intros name t' timeout args ctx w. rewrite dget_dset. destruct (decide _) as [<-|]; [by intros [= <-]|by apply Hi].
  - unfold set_timeout. destruct (negb (dmem _ _)); [done|]. destruct (negb _); [done|].
    destruct Hp as [Ho [Hi Hp] Hv Hs]. by split.
  - destruct (call _ _ _ _ _ _ _ _ _ _ _ name args ctx s) as [r s'] eqn:Hc. cbn [snd].
    apply (call_run _ _ _ _ _ _ _ _ _ _ _ og_moves others_move law_check law_live law_active law_reserve_moves) in Hc;
      [|apply Hp].
    destruct Hc as [[Hg _]|(en & Hg & [Hn _ Hgr (t & Ht & _ & Hx)] & _)]; [by eapply paid_evolves|].
    pose proof Hp as [Ho Hi Hv Hs]. destruct Hx as (cid & s1 & s2 & E1 & E2 & Hm & Hga & _).
    { unfold strict. by rewrite Ho, orb_true_r. }
    destruct (law_moves _ _ (gr_world _ _ _ _ Hg) Hv) as [Hv' Hk].
    split; [by rewrite (same_reg _ owner_policy _ _ _ Hg)|by eapply reg_in_grows|done|].
    intros k. rewrite (gr_ran _ _ _ _ Hg). cbn [app]. rewrite count_cons. specialize (Hs k). specialize (Hk k).
    unfold of_turn at 1. destruct (en_grant en) as [g|] eqn:Hgr'; [|lia]. destruct (Z.eqb_spec (og_turn g) k) as [<-|]; [|lia].
    destruct (ga_reserved _ _ _ _ _ _ _ _ _ Hga g) as (w & w' & Hw & Hres & Hw'); [congruence|].
    destruct (law_moves (world s) w) as [Hvw Hk1]; [|done|].
    { etransitivity; [apply (gr_world _ _ _ _ E1)|done]. }
    pose proof (law_reserve _ _ _ _ Hvw Hres) as Hlt.
    pose proof (law_reserve_moves g name w) as Hmw. rewrite Hres in Hmw. destruct (law_moves _ _ Hmw Hvw) as [Hvw' _].
    destruct (law_moves w' (world s')) as [_ Hk2]; [by etransitivity|done|].
    specialize (Hk1 (og_turn g)). specialize (Hk2 (og_turn g)). lia.
Qed.

(** C15: Bounded tools: in every run of an owner registry over an adapter that
    keeps the laws, whatever is registered, called, cancelled or done by other
    coroutines, the tool bodies entered under a turn's grants are at most the
    adapter's ceiling. *)
Theorem owner_tools_bounded ops s k :
  owner_policy (reg s) = true -> reg_in og_moves (reg s) -> og_valid (world s) -> ran s = [] ->
  Forall op_in ops -> count (of_turn k) (ran (reg_run ops s)) <= og_ceiling.
Proof using others_move.
  intros Ho Hi Hv Hr Hops. assert (paid s) as Hp by (split; try done; intros j; rewrite Hr; cbn; lia).
  assert (paid (reg_run ops s)) as [_ _ Hv' Hs].
  { clear Ho Hi Hv Hr. revert s Hp. induction Hops as [|op ops Hop _ IH]; intros s Hp; [done|]. by apply IH, paid_exec. }
  etransitivity; [apply Hs|by apply law_ceiling].
Qed.
End Bounded.

(** ** The owner's budget keeps the laws *)

Section OwnerGate.
Context {T : Type} `{Clock T} (time_time : nat -> T) (uuid_hex : nat -> string) (iso : T -> string).
Context (model_dump : ExecutionAssessment -> json) (model_validate : json -> result ExecutionAssessment).
Context (w_sql : nat -> sql_outcome) (w_io : nat -> bool) (w_reading : nat -> option T).
Context (w_token w_lease_token : nat -> string) (w_others : nat -> list outside) (w_cancelled : nat -> bool).
(** What the tools act on besides *)
Context {X : Type}.
Implicit Types a : OwnerBudgetAdapter T.

Abbreviation moves := (moves time_time uuid_hex iso model_dump model_validate).
Abbreviation Grant := (OwnerExecutionGrant T).
Abbreviation World := (OwnerBudgetAdapter T * X)%type.

Definition on_adapter {A} (m : py (OwnerBudgetAdapter T) A) : py World A := fun w =>
  let '(r, a) := m w.1 in (r, (a, w.2)).

(** The budget a grant names is this adapter. *)
#[export] Instance owner_gate : OwnerGate Grant World := {|
  og_task g := l_task_id (g_lease g);
  og_tools g := allowed_tools g;
  og_check g := on_adapter (check_grant time_time g);
  og_live g := on_adapter (owns time_time (g_lease g));
  og_active g := on_adapter (active time_time uuid_hex iso model_dump model_validate w_sql w_others w_cancelled (g_lease g));
  og_reserve g name := on_adapter (OwnerBudgetLife.reserve_tool_call time_time uuid_hex iso model_dump model_validate w_sql
    w_others w_cancelled (g_lease g) name (max_tool_calls g));
|}.

(** The calls of a kind counted for a turn *)
Definition spent (kind : AttemptKind) (k : Z) a : nat :=
  match List.find (fun r => (sequence r =? k)%Z && is_turn r) (requests (db (ad_store a))) with
  | Some r => Z.to_nat (attempts kind r)
  | None => 0
  end.

Lemma spent_row kind a i r : store_ok (ad_store a) -> requests (db (ad_store a)) !! i = Some r -> is_turn r = true ->
  spent kind (sequence r) a = Z.to_nat (attempts kind r).
Proof.
  intros Hok Hi Ht. unfold spent. destruct (List.find _ _) as [q|] eqn:Hf.
  - apply find_some_elem in Hf as [[j Hj]%list_elem_of_lookup_1 Hq]. breflect. apply Z.eqb_eq in H0.
    pose proof (ok_numbered _ Hok _ _ Hi). pose proof (ok_numbered _ Hok _ _ Hj).
    assert (i = j) as -> by lia. congruence.
  - eapply find_none_elem in Hf; [|by eapply list_elem_of_lookup_2]. by rewrite Z.eqb_refl, Ht in Hf.
Qed.

Lemma spent_none kind k a : (forall i r, requests (db (ad_store a)) !! i = Some r -> is_turn r = true -> sequence r <> k) ->
  spent kind k a = 0.
Proof.
  intros Hn. unfold spent. destruct (List.find _ _) as [q|] eqn:Hf; [|done].
  apply find_some_elem in Hf as [[j Hj]%list_elem_of_lookup_1 Hq]. breflect. apply Z.eqb_eq in H0. by destruct (Hn j q).
Qed.

(** Either a turn's row, or nothing was spent *)
Lemma spent_cases kind k a : store_ok (ad_store a) ->
  spent kind k a = 0 \/
  exists i r, requests (db (ad_store a)) !! i = Some r /\ is_turn r = true /\ sequence r = k /\
    spent kind k a = Z.to_nat (attempts kind r).
Proof.
  intros Hok. destruct (List.find (fun r => (sequence r =? k)%Z && is_turn r) (requests (db (ad_store a)))) as [r|] eqn:Hf.
  - right. apply find_some_elem in Hf as [[i Hi]%list_elem_of_lookup_1 Hr]. apply andb_true_iff in Hr as [Hk%Z.eqb_eq Ht].
    exists i, r. split_and!; [done|done|done|]. subst k. by eapply spent_row.
  - left. unfold spent. by rewrite Hf.
Qed.

Lemma spent_moves kind k a a' : moves a a' -> store_ok (ad_store a) -> spent kind k a <= spent kind k a'.
Proof.
  intros Hm Hok. destruct (spent_cases kind k a Hok) as [->|(i & r & Hi & Ht & <- & ->)]; [lia|].
  destruct (moves_row _ _ _ _ _ _ _ _ _ Hm Hok Hi) as (q & Hq & Hag). pose proof (ag_same _ _ Hag) as Hs.
  pose proof (moves_ok _ _ _ _ _ _ _ Hm Hok) as Hok'. rewrite <- (same_sequence _ _ Hs).
  rewrite (spent_row kind a' i q) by (done || by rewrite (same_turn _ _ Hs)).
  destruct (ag_counts _ _ Hag). destruct kind; cbn; lia.
Qed.

Lemma spent_ceiling kind k a : store_ok (ad_store a) -> (Z.of_nat (spent kind k a) <= attempt_ceiling kind)%Z.
Proof.
  intros Hok. destruct (spent_cases kind k a Hok) as [->|(i & r & Hi & Ht & <- & ->)]; [by destruct kind|].
  pose proof (attempts_nonneg _ _ _ kind Hok Hi Ht). lia.
Qed.

Lemma spent_counted kind k a a' :
  store_ok (ad_store a) -> counted time_time uuid_hex iso model_dump model_validate kind k a a' ->
  spent kind k a < spent kind k a'.
Proof.
  intros Hok [Hm (i & r & q & Hi & <- & Hreq & Ht & Hq & Hs & _)].
  pose proof (moves_ok _ _ _ _ _ _ _ Hm Hok) as Hok'.
  assert (requests (db (ad_store a')) !! i = Some q) as Hi' by (rewrite Hreq; apply list_lookup_insert_eq; by eapply lookup_lt_Some).
  assert (is_turn q = true) as Ht' by by rewrite (same_turn _ _ Hs).
  rewrite (spent_row kind a i r) by done. rewrite <- (same_sequence _ _ Hs), (spent_row kind a' i q) by done.
  pose proof (attempts_nonneg _ _ _ kind Hok Hi Ht). lia.
Qed.

Lemma on_adapter_moves {A} (m : py (OwnerBudgetAdapter T) A) (w : World) :
  (forall a, preserves (moves a) m) -> moves w.1 (on_adapter m w).2.1.
Proof.
  intros Hm. unfold on_adapter. pose proof (preserves_run _ m w.1 (Hm w.1) ltac:(reflexivity)) as Hr.
  by destruct (m w.1) as [r a].
Qed.

#[export] Instance owner_gate_laws : OwnerGateLaws Grant World.
Proof using.
  refine {| og_moves w w' := moves w.1 w'.1; og_valid w := store_ok (ad_store w.1);
            og_turn g := l_sequence (g_lease g); og_spent k w := spent tool_attempt k w.1; og_ceiling := 4 |}.
  - split; [intros w; reflexivity|]. intros w1 w2 w3 H12 H23. by etransitivity.
  - intros g w. apply on_adapter_moves. intros a. by apply (keep_grant time_time uuid_hex iso model_dump model_validate w_others), moves_framed.
  - intros g w. apply on_adapter_moves. intros a. by apply (keep_owns time_time uuid_hex iso model_dump model_validate w_others), moves_framed.
  - intros g w. apply on_adapter_moves. intros a. apply keep_active, moves_framed.
  - intros g name w. apply on_adapter_moves. intros a. apply keep_tool, moves_framed.
  - intros w w' Hm Hok. split; [by eapply moves_ok|]. intros k. by apply spent_moves.
  - intros g name [a x] w' Hok. cbn [og_reserve owner_gate]. unfold on_adapter. cbn [fst snd].
    destruct (reserve_tool_call _ _ _ _ _ _ _ _ _ _ _ a) as [[[]|e] a'] eqn:Hr; intros [= <-].
    apply tool_call_ok in Hr as (a1 & a2 & Hm1 & Hc & Hm2); [|done].
    pose proof (moves_ok _ _ _ _ _ _ _ Hm1 Hok) as Hok1. pose proof (moves_ok _ _ _ _ _ _ _ (proj1 Hc) Hok1) as Hok2.
    pose proof (spent_moves tool_attempt (l_sequence (g_lease g)) _ _ Hm1 Hok). pose proof (spent_counted _ _ _ _ Hok1 Hc).
    pose proof (spent_moves tool_attempt (l_sequence (g_lease g)) _ _ Hm2 Hok2). cbn [fst]. lia.
  - intros w k Hok. pose proof (spent_ceiling tool_attempt k w.1 Hok). cbn in *. lia.
Defined.

End OwnerGate.

(** ** Witnesses *)

(** A slow clock *)
Definition slow_time (n : nat) : Z := 1000 + Z.of_nat n / 100.

#[local] Instance demo_gate : OwnerGate (OwnerExecutionGrant Z) (OwnerBudgetAdapter Z * unit) :=
  owner_gate slow_time demo_uuid demo_iso demo_dump demo_validate demo_sql demo_others demo_cancelled.
#[local] Instance demo_gate_laws : OwnerGateLaws (OwnerExecutionGrant Z) (OwnerBudgetAdapter Z * unit) :=
  owner_gate_laws slow_time demo_uuid demo_iso demo_dump demo_validate demo_sql demo_others demo_cancelled.

(** The turn's lease, claimed and marked running *)
Definition slow_lease : RequestLease Z := mk_Lease 0 demo_owner "r2" "c0" 2 1 (demo_token 0) 1120%Z.
Definition slow_adapter : OwnerBudgetAdapter Z :=
  (budget_run slow_time demo_uuid demo_iso demo_dump demo_validate demo_sql demo_io demo_reading demo_token demo_token
     demo_others demo_cancelled [BReserve demo_owner "r2" "c0"; BMark slow_lease]
     (first_adapter slow_time demo_uuid demo_iso demo_dump demo_validate small_limits "owner-pilot:v1" demo_admit, []))%string.1.

Definition slow_grant : OwnerExecutionGrant Z := mk_Grant slow_lease ["utc_time"]%string 4 8.

(** A tool that reads nothing *)
Definition clock_spec : ToolSpec := mk_ToolSpec "utc_time" "" None READ_ONLY.
Definition clock_tool : Tool (G:=OwnerExecutionGrant Z) (W:=OwnerBudgetAdapter Z * unit) (Seconds:=Z) :=
  mk_Tool clock_spec (fun _ _ _ w => (Returned (mk_Result "utc_time" true (JStr "noon") None 0 []), w)).

Definition clock_context : ToolContext (OwnerExecutionGrant Z) :=
  mk_ToolContext "agent" "c0" false false false (Some BetaAudit) None (Some slow_grant).

Abbreviation DemoState := (State (G:=OwnerExecutionGrant Z) (W:=OwnerBudgetAdapter Z * unit) (Seconds:=Z)).
Abbreviation demo_op := (reg_op (G:=OwnerExecutionGrant Z) (W:=OwnerBudgetAdapter Z * unit) (Seconds:=Z)).

Definition owner_state : DemoState :=
  mk_State (mk_Registry [] [] (Some BetaAudit) 30%Z None true false) (audit_run [Initialize]) (slow_adapter, tt) 0 [].

Abbreviation demo_reg_run := (reg_run (fun _ => disk) (fun _ => disk) (fun n => String (Ascii.ascii_of_nat (33 + n)) "")
  (fun n => sample_stamp n 0 (Some 0%Z)) (fun n => String (Ascii.ascii_of_nat (33 + n)) "c") (fun _ => 1%Z) (fun _ => Calm)
  (fun _ => []) (fun _ w => w) (fun _ => false) (fun _ => ""%string)).

Definition clock_ops : list demo_op := RRegister clock_tool :: repeat (RCall "utc_time" (JObj []) clock_context) 5.

Lemma slow_adapter_valid : store_ok (ad_store slow_adapter).
Proof.
  exact (bk_store _ _ _ (budget_run_ok slow_time demo_uuid demo_iso demo_dump demo_validate demo_sql demo_io demo_reading
    demo_token demo_token demo_others demo_cancelled small_limits _ _ _
    (first_adapter_ok slow_time demo_uuid demo_iso demo_dump demo_validate small_limits "owner-pilot:v1" demo_admit))).
Qed.

(** Five calls, four bodies *)
Example owner_tools_bounded_witness :
  count (of_turn 2) (ran (demo_reg_run clock_ops owner_state)) = 4 /\
  count (of_turn 2) (ran (demo_reg_run clock_ops owner_state)) <= og_ceiling.
Proof.
  split; [vm_compute; reflexivity|]. apply owner_tools_bounded; [reflexivity|reflexivity| | |reflexivity|].
  - split; discriminate.
  - apply slow_adapter_valid.
  - constructor; [intros ? ? ? ?; reflexivity|]. by repeat constructor.
Defined.

Abbreviation demo_call := (call (fun _ => disk) (fun _ => disk) (fun n => String (Ascii.ascii_of_nat (33 + n)) "")
  (fun n => sample_stamp n 0 (Some 0%Z)) (fun n => String (Ascii.ascii_of_nat (33 + n)) "c") (fun _ => 1%Z) (fun _ => Calm)
  (fun _ => []) (fun _ w => w) (fun _ => false) (fun _ => ""%string) "utc_time"%string (JObj []) clock_context).

Definition ready_state : DemoState := demo_reg_run [RRegister clock_tool] owner_state.

Example strict_call_gated_witness :
  exists cid held w, ran (demo_call ready_state).2 = [mk_Entered "utc_time" (Some cid) (Some slow_grant) held false] /\
    allowed_by (reg ready_state) clock_tool (JObj []) clock_context w /\
    settled cid (demo_call ready_state).1 (demo_call ready_state).2.
Proof.
  destruct (strict_call_gated _ _ _ _ _ _ _ _ _ _ _ "utc_time" (JObj []) clock_context ready_state _ _ eq_refl
              (surjective_pairing (demo_call ready_state))) as [[Hr _]|(t & cid & held & w & Hr & Ht & _ & _ & Hal & _ & Hset)].
  - exfalso. assert (length (ran (demo_call ready_state).2) = 1) as Hl by (vm_compute; reflexivity). by rewrite Hr in Hl.
  - exists cid, held, w. split; [exact Hr|]. split; [|exact Hset]. by injection Ht as <-.
Defined.

Example suspended_runs_nothing_witness :
  let s := demo_reg_run clock_ops (mk_State (suspended (reg ready_state)) (log ready_state) (world ready_state) 0 []) in
  ran s = [].
Proof. cbn zeta. apply suspended_runs_nothing; vm_compute; reflexivity. Defined.

(** A model that asks for the time, then answers *)
Definition scripted (m : Prompt) (c : LlmContext (G:=OwnerExecutionGrant Z)) : py DemoState string :=
  let quoted s := of_chars (map (fun c => if Ascii.eqb c "'"%char then quote else c) (to_chars s)) in
  mret (quoted match p_history m with
               | [] => "Let me see: {'action': {'name': ' utc_time ', 'args': {}}}"
               | _ => "{'final': 'It is noon.'}"
               end)%string.

Definition clock_model : Model :=
  mk_Model true (OwnerBinding slow_grant) (Some BetaAudit) scripted.

Abbreviation demo_drive := (ToolDriver.run (fun _ => disk) (fun _ => disk) (fun n => String (Ascii.ascii_of_nat (33 + n)) "")
  (fun n => sample_stamp n 0 (Some 0%Z)) (fun n => String (Ascii.ascii_of_nat (33 + n)) "c") (fun _ => 1%Z) (fun _ => Calm)
  (fun _ => []) (fun _ w => w) (fun _ => false) (fun _ => ""%string) id 100 (fun _ => ""%string) (fun x y => bool_decide (x = y))
  (fun g g' => lease_object (g_lease g) =? lease_object (g_lease g')) clock_model "What time is it?" "Be brief." clock_context 4).

Example clock_answer :
  match (demo_drive ready_state).1 with
  | Ok (Some out) => (refusal out, final_answer out, length (lr_steps out)) = (false, "It is noon."%string, 1)
  | _ => False
  end.
Proof. vm_compute. reflexivity. Qed.

Lemma clock_model_keeps : model_keeps clock_model.
Proof. intros p c s. exists []. split; [reflexivity|]. cbn. split; [by left|reflexivity|exact I|reflexivity|reflexivity]. Qed.

Example run_terminates_witness :
  exists x s' k, demo_drive ready_state = (x, s') /\ x <> Ok None /\ ran s' = k ++ ran ready_state /\
    length (bodies k) <= 4.
Proof.
  edestruct (run_terminates (Seconds:=Z)) as (x & s' & k & Hr & Hx & Hk & Hn & _); [exact clock_model_keeps|].
  exists x, s', k. split; [exact Hr|]. split; [exact Hx|]. split; [exact Hk|exact Hn].
Defined.

Example run_reports_what_ran_witness :
  exists out k, (demo_drive ready_state).1 = Ok (Some out) /\ final_answer out = "It is noon."%string /\
    ran (demo_drive ready_state).2 = k ++ ran ready_state /\ map en_tool (rev (bodies k)) = map st_tool (lr_steps out) /\
    length (bodies k) = 1.
Proof.
  pose proof clock_answer as Hx. destruct (demo_drive ready_state) as [x s'] eqn:Hr. cbn [fst snd] in *.
  destruct x as [[out|]|]; [|destruct Hx|destruct Hx]. injection Hx as Href Hfinal Hlen.
  destruct (run_reports_what_ran _ _ _ _ _ _ _ _ _ _ _ _ _ _ _ _ _ _ _ _ _ _ _ _ clock_model_keeps (eq_refl : strict (reg ready_state) = true) Hr Href) as [_ (k & Hk & Hmap)].
  exists out, k. split; [reflexivity|]. split; [exact Hfinal|]. split; [exact Hk|]. split; [exact Hmap|].
  rewrite <- (length_rev (bodies k)), <- (length_map en_tool), Hmap, length_map. exact Hlen.
Defined.
