(* ===== verification/OwnerModels.v ===== *)
(** * Owner model calls, end to end

    The metered model of [Metered] over the owner's budget of [OwnerBudget]: the
    adapter keeps the laws of [ModelBudgetLaws], so that a turn dispatches at
    most eight calls; a demonstration turn shows what the theorems of [Metered]
    say. *)
From Stdlib Require Import SpecFloat.
From S2P Require Import BudgetStore.
From S2P Require Import Prelude PyStr PyDict PyJson Identity AuditTrail Sha256 Assessment.
From S2P Require Import AdmissionModels AdmissionStore AdmissionLife AdmissionTheorems.
From S2P Require Import OwnerBudget OwnerBudgetLife OwnerBudgetSafety.
From S2P Require Import Tools ToolRegistry Llm ToolDriver Metered OwnerTools.

Section OwnerModels.
Context {T : Type} `{Clock T} (time_time : nat -> T) (uuid_hex : nat -> string) (iso : T -> string).
Context (model_dump : ExecutionAssessment -> json) (model_validate : json -> result ExecutionAssessment).
Context (w_sql : nat -> sql_outcome) (w_io : nat -> bool) (w_reading : nat -> option T).
Context (w_token w_lease_token : nat -> string) (w_others : nat -> list outside) (w_cancelled : nat -> bool).
Context {X : Type} (beta_budget : MeteredBinding -> py X bool).

Abbreviation moves := (moves time_time uuid_hex iso model_dump model_validate).
Abbreviation Grant := (OwnerExecutionGrant T).
Abbreviation World := (OwnerBudgetAdapter T * X)%type.
#[local] Existing Instance owner_gate.
Abbreviation gate := (owner_gate (X:=X) time_time uuid_hex iso model_dump model_validate w_sql w_others w_cancelled).
Abbreviation reserve_model_call := (OwnerBudgetLife.reserve_model_call time_time uuid_hex iso model_dump model_validate w_sql w_io
  w_reading w_others w_cancelled).

(** The other store, of the beta callers, is outside the adapter. *)
Definition on_rest {A} (m : py X A) : py World A := fun w => let '(r, x) := m w.2 in (r, (w.1, x)).

#[export] Instance owner_models : ModelBudget Grant World := {|
  mg_reserve g := on_adapter (reserve_model_call (g_lease g) (max_model_calls g));
  mg_reserve_beta b := on_rest (beta_budget b);
|}.

#[export] Instance owner_model_laws : @ModelBudgetLaws Grant World gate owner_models.
Proof using.
  refine (@Build_ModelBudgetLaws _ _ gate owner_models (fun w w' => moves w.1 w'.1) (fun w => store_ok (ad_store w.1))
            (fun g => l_sequence (g_lease g)) (fun k w => spent model_attempt k w.1) 8 _ _ _ _ _ _ _ _).
  - split; [intros w; reflexivity|]. intros w1 w2 w3 H12 H23. by etransitivity.
  - intros g w. apply on_adapter_moves. intros a. by apply (keep_grant time_time uuid_hex iso model_dump model_validate w_others), moves_framed.
  - intros g w. apply on_adapter_moves. intros a. apply keep_active, moves_framed.
  - intros g w. apply on_adapter_moves. intros a. apply keep_model, moves_framed.
  - intros b [a x]. cbn. unfold on_rest. cbn. by destruct (beta_budget b x).
  - intros w w' Hm Hok. split; [by eapply moves_ok|]. intros k. by eapply spent_moves.
  - intros g [a x] w' Hok. cbn [mg_reserve owner_models]. unfold on_adapter. cbn [fst snd].
    destruct (reserve_model_call _ _ a) as [[[]|e] a'] eqn:Hr; intros [= <-].
    apply model_call_ok in Hr as (a1 & a2 & a3 & a4 & Hm1 & Hc & Hm2 & (qops & Hq & _) & Hm4); [|done].
    assert (moves a2 a') as Hm by (etransitivity; [exact Hm2|]; etransitivity; [exists [], qops; exact Hq|exact Hm4]).
    pose proof (moves_ok _ _ _ _ _ _ _ Hm1 Hok) as Hok1. pose proof (moves_ok _ _ _ _ _ _ _ (proj1 Hc) Hok1) as Hok2.
    pose proof (spent_moves _ _ _ _ _ model_attempt (l_sequence (g_lease g)) _ _ Hm1 Hok).
    pose proof (spent_counted _ _ _ _ _ _ _ _ _ Hok1 Hc).
    pose proof (spent_moves _ _ _ _ _ model_attempt (l_sequence (g_lease g)) _ _ Hm Hok2). cbn [fst]. lia.
  - intros w k Hok. pose proof (spent_ceiling model_attempt k w.1 Hok). cbn in *. lia.
Defined.
End OwnerModels.

(** ** A turn with a model *)

Definition no_beta (b : MeteredBinding) : py unit bool := mret false.
#[local] Instance demo_models : ModelBudget (OwnerExecutionGrant Z) (OwnerBudgetAdapter Z * unit) :=
  owner_models slow_time demo_uuid demo_iso demo_dump demo_validate demo_sql demo_io demo_reading demo_others demo_cancelled no_beta.
#[local] Instance demo_gate : OwnerGate (OwnerExecutionGrant Z) (OwnerBudgetAdapter Z * unit) :=
  owner_gate slow_time demo_uuid demo_iso demo_dump demo_validate demo_sql demo_others demo_cancelled.
#[local] Instance demo_laws : ModelBudgetLaws (OwnerExecutionGrant Z) (OwnerBudgetAdapter Z * unit) :=
  owner_model_laws slow_time demo_uuid demo_iso demo_dump demo_validate demo_sql demo_io demo_reading demo_others demo_cancelled no_beta.

(** The echo provider, bound to the turn's grant *)
Definition echo_adapter : LLMAdapter := mk_LLMAdapter true "echo" "echo" "" "" 1024 seven_tenths forty_five.
Definition echo_binding : OwnerMetered (OwnerExecutionGrant Z) := mk_OwnerMetered slow_grant 2 "echo" "echo" "local-echo".
Definition echo_attrs : Attrs := mk_Attrs 0 true echo_adapter (MOwner 1 echo_binding) 2 OwnerStore 3 true.
Definition echo_model : MeteredModel :=
  mk_Metered echo_attrs (Some (mk_Snapshot "echo" "echo" "" "" 1024 seven_tenths forty_five)) (Some slow_grant).
Definition echo_context : option (list (string * CtxValue)) := Some [("owner_grant"%string, CGrant slow_grant)].
Definition same_grant (g g' : OwnerExecutionGrant Z) : bool :=
  (lease_object (g_lease g) =? lease_object (g_lease g')) && (l_sequence (g_lease g) =? l_sequence (g_lease g'))%Z.

Definition no_http (r : Request) : py (OwnerBudgetAdapter Z * unit) json := raise (CallbackError "ConnectError").

Abbreviation demo_generate ends := (Metered.generate (fun _ => disk) (fun _ => disk)
  (fun n => String (Ascii.ascii_of_nat (33 + n)) "") (fun n => sample_stamp n 0 (Some 0%Z))
  (fun n => String (Ascii.ascii_of_nat (33 + n)) "c") (fun _ => Calm) (fun _ => []) (fun _ w => w) (fun _ => false)
  same_grant (fun _ => "Exception"%string) (fun _ => echo_attrs) (fun _ => None) (fun _ => None) no_http (fun _ => ""%string)
  id 100 [] (fun _ => ends) echo_model "Hello" echo_context).
Abbreviation demo_calls ends := (call_all (fun _ => disk) (fun _ => disk)
  (fun n => String (Ascii.ascii_of_nat (33 + n)) "") (fun n => sample_stamp n 0 (Some 0%Z))
  (fun n => String (Ascii.ascii_of_nat (33 + n)) "c") (fun _ => Calm) (fun _ => []) (fun _ w => w) (fun _ => false)
  same_grant (fun _ => "Exception"%string) (fun _ => None) (fun _ => None) no_http (fun _ => ""%string)
  id 100 [] (fun _ => ends)).
Abbreviation demo_call := (fun _ => echo_attrs, echo_model, "Hello"%string, echo_context).

Example echo_built :
  (new_metered (fun _ => None) (fun _ => None) echo_attrs forty_five (world owner_state)).1 = Ok echo_model.
Proof. vm_compute. reflexivity. Qed.

Example echo_answers : (demo_calls InTime [demo_call; demo_call] owner_state).1 = [Ok "Echo: Hello"%string; Err MeteredDenied].
Proof. vm_compute. reflexivity. Qed.

Definition is_ok {A} (r : result A) : bool := match r with Ok _ => true | Err _ => false end.

Lemma no_http_sane (r : Request) (w : OwnerBudgetAdapter Z * unit) : (no_http r w).1 <> Err MeteredDenied.
Proof. done. Qed.

Example dispatch_accounted_witness :
  exists cid, map en_call (ran (demo_generate InTime owner_state).2) = [Some cid] /\
    exists row, row ∈ rows (log (demo_generate InTime owner_state).2) /\ outcome_row cid "ok" row.
Proof.
  destruct (dispatch_accounted _ _ _ _ _ _ _ _ _ _ _ _ _ _ _ _ _ _ _ _ no_http_sane echo_model _ _ owner_state _ _
              (fun _ => ex_intro _ _ eq_refl) (surjective_pairing (demo_generate InTime owner_state)))
    as [[_ [e He]]|(cid & en & Hran & Hc & _ & _ & _ & _ & Hok)].
  - exfalso. assert (is_ok (demo_generate InTime owner_state).1 = true) as Ho by (vm_compute; reflexivity).
    by rewrite He in Ho.
  - exists cid. rewrite Hran. split; [cbn [map]; by rewrite Hc|].
    destruct (demo_generate InTime owner_state).1 as [raw|e] eqn:Hx; [by apply (Hok raw)|].
    assert (is_ok (demo_generate InTime owner_state).1 = true) as Ho by (vm_compute; reflexivity). by rewrite Hx in Ho.
Defined.

(** The provider is too slow: the call is open for ever. *)
Definition stuck_state : State (G:=OwnerExecutionGrant Z) (W:=OwnerBudgetAdapter Z * unit) (Seconds:=Z) :=
  (demo_generate TooLate owner_state).2.

Example uncertain_call_stays_open_witness :
  exists n en, ran stuck_state = en :: ran owner_state /\
    en_call en = Some (String (Ascii.ascii_of_nat (33 + n)) "c") /\
    unresolved (String (Ascii.ascii_of_nat (33 + n)) "c") (rows (log stuck_state)).
Proof.
  assert (exists e, (demo_generate TooLate owner_state).1 = Err e) as [e He] by (exists MeteredError; vm_compute; reflexivity).
  pose proof (surjective_pairing (demo_generate TooLate owner_state)) as Hr. rewrite He in Hr.
  apply uncertain_call_stays_open in Hr as (n & en & _ & Hran & Hc & _ & _ & [[_ (k & w & raw & _ & Hk & _)]|[Hu _]]);
    [discriminate Hk|exists n, en; exact (conj Hran (conj Hc Hu))|exact no_http_sane| | |].
  - intros k n op Hop. exact (match not_elem_of_nil _ Hop with end).
  - intros n _. constructor.
  - intros Hran. apply (f_equal length) in Hran. vm_compute in Hran. discriminate.
Defined.

Definition stuck_call : string := match ran stuck_state with en :: _ => default "" (en_call en) | [] => "" end%string.

Example stuck_unresolved : length (rows (log stuck_state)) = 1 /\
  forallb (fun row => is_intent row && bool_decide (call_id row = Some (SText stuck_call)) &&
                      negb (has_phase "outcome" row)) (rows (log stuck_state)) = true.
Proof. split; vm_compute; reflexivity. Qed.

Example pending_blocks_dispatch_witness :
  (demo_calls InTime [demo_call; demo_call] stuck_state).1 = [Err MeteredDenied; Err MeteredDenied] /\
  ran (demo_calls InTime [demo_call; demo_call] stuck_state).2 = ran stuck_state.
Proof.
  split; [vm_compute; reflexivity|].
  assert (unresolved stuck_call (rows (log stuck_state))) as Hu.
  { destruct stuck_unresolved as [Hl Hf]. destruct (rows (log stuck_state)) as [|row [|row' l]]; [discriminate| |discriminate].
    cbn [forallb] in Hf. rewrite andb_true_r in Hf. breflect. split.
    - exists row. split; [by left|]. by split.
    - apply Forall_singleton. intros [Ho _]. by rewrite Ho in H0. }
  eapply pending_blocks_dispatch; [exact no_http_sane| |exact Hu|apply surjective_pairing].
  intros n op Hop. exact (match not_elem_of_nil _ Hop with end).
Defined.

(** Two calls, one dispatched *)
Example model_calls_bounded_witness :
  count (under_turn 2) (ran (demo_calls InTime [demo_call; demo_call] owner_state).2) = 1 /\
  count (under_turn 2) (ran (demo_calls InTime [demo_call; demo_call] owner_state).2) <= mb_ceiling.
Proof.
  split; [vm_compute; reflexivity|]. apply model_calls_bounded; [exact no_http_sane|reflexivity|reflexivity| | |apply slow_adapter_valid|reflexivity].
  - unfold same_grant. intros g g' Hs. breflect. by apply Z.eqb_eq.
  - repeat constructor; intros _ _; by do 2 eexists.
Defined.
