(* ===== verification/OwnerTurns.v ===== *)
(** * What the owner's gateway guarantees

    Turns of [OwnerService]: an execution settles its turn or blocks the
    gateway, or was cancelled before its first step and leaves the turn to a
    recovery; a turn is completed only by a gateway that found itself certain;
    and no turn is started over an uncertainty or twice. *)
From Stdlib Require Import SpecFloat.
From S2P Require Import BudgetStore Llm.
From S2P Require Import Prelude PyStr PyDict PyJson Identity AuditTrail Sha256 Assessment.
From S2P Require Import Tools ToolRegistry ToolDriver Metered OwnerTools OwnerModels.
From S2P Require Import AdmissionModels AdmissionStore AdmissionLife AdmissionTheorems OwnerBudget OwnerBudgetLife OwnerBudgetSafety.
From S2P Require Import OwnerService.

(** ** Reads *)

Section Reads.
Context {T : Type} `{Clock T}.
Implicit Types s : OwnerPilotStore T.

(** An operation that reads and writes nothing *)
Definition reads {A} (m : py (OwnerPilotStore T) A) : Prop := forall s, (m s).2 = s.

Lemma reads_lift {A} (r : result A) : reads (lift r).
Proof. done. Qed.

Lemma reads_gets {A} (f : OwnerPilotStore T -> A) : reads (gets f).
Proof. done. Qed.

Lemma reads_bind {A B} (m : py (OwnerPilotStore T) A) (f : A -> py (OwnerPilotStore T) B) :
  reads m -> (forall a, reads (f a)) -> reads (m ≫= f).
Proof.
  intros Hm Hf s. rewrite bind_run. pose proof (Hm s) as H1. destruct (m s) as [[a|e] s1]; cbn in H1; subst s1; [apply Hf|done].
Qed.

Lemma reads_run {A} sql (m : py (OwnerPilotStore T) A) : reads m -> reads (run sql m).
Proof.
  intros Hm s. assert (set_db (db s) s = s) as Hset by by destruct s.
  unfold run. rewrite bind_gets, bind_raise_when. destruct (negb _); [done|]. unfold transaction.
  pose proof (Hm s) as H1. destruct (m s) as [[x|e] s1]; cbn in H1; subst s1; by destruct sql.
Qed.

Ltac read :=
  repeat lazymatch goal with
  | |- reads (mbind _ _) => apply reads_bind; [|intros ?]
  | |- reads (run _ _) => apply reads_run
  | |- reads (gets _) => apply reads_gets
  | |- reads (match ?x with _ => _ end) => destruct x
  | |- reads ?m => first [apply reads_lift|progress unfold thread, request_row|done]
  end.

Lemma reads_request sql p rid : reads (get_request sql p rid).
Proof. unfold get_request. read. Qed.

Lemma reads_task sql p tid : reads (get_task sql p tid).
Proof. unfold get_task. read. Qed.

Lemma reads_uncertainty sql p : reads (has_uncertainty sql p).
Proof. unfold has_uncertainty. read. Qed.
End Reads.

(** ** What the gateway keeps *)

Section Turns.
Context {T : Type} `{Clock T} (time_time : nat -> T) (uuid_hex : nat -> string) (iso : T -> string).
Context (model_dump : ExecutionAssessment -> json) (model_validate : json -> result ExecutionAssessment).
Context (w_sql : nat -> sql_outcome) (w_io : nat -> bool) (w_reading : nat -> option T).
Context (w_token w_lease_token : nat -> string) (w_others : nat -> list outside) (w_cancelled : nat -> bool).
Context (w_meanwhile : nat -> list (meanwhile (T:=T))) (w_interrupt : nat -> interrupt) (w_dropped : nat -> bool).
Context (w_store : nat -> sql_outcome) (w_log w_fenced w_held w_disk : nat -> bool).
Context (w_main : nat -> Connection) (w_id : nat -> string) (w_stamp : nat -> stamp) (self_owner : string).
Context (urlsplit : string -> option Endpoint) (is_loopback : string -> option bool) (env : Env).
Context (dispatch_config : LLMDispatchSnapshot) (config_id : string).
Context (drive : MeteredModel (G:=OwnerExecutionGrant T) -> string -> string -> OwnerExecutionGrant T -> Z ->
                 py (OwnerPilotService (T:=T)) ToolLoopResult).
Context (thread_context : string -> string -> string -> py (OwnerPilotService (T:=T)) string) (w_expired : nat -> bool).

Abbreviation Service := (OwnerPilotService (T:=T)).
Abbreviation Adapter := (OwnerBudgetAdapter T).
Abbreviation store_exec := (store_exec time_time uuid_hex iso model_dump model_validate).
Abbreviation store_run := (store_run time_time uuid_hex iso model_dump model_validate).
Abbreviation outside_exec := (outside_exec time_time uuid_hex iso model_dump model_validate).
Abbreviation meanwhile_exec := (meanwhile_exec time_time uuid_hex iso model_dump model_validate).
Abbreviation pass := (pass time_time uuid_hex iso model_dump model_validate w_meanwhile).
Abbreviation waiting := (waiting time_time uuid_hex iso model_dump model_validate w_meanwhile w_interrupt).
Abbreviation calling := (calling time_time uuid_hex iso model_dump model_validate w_meanwhile).
Abbreviation store_call := (store_call time_time uuid_hex iso model_dump model_validate w_meanwhile w_interrupt).
Abbreviation audit_call := (audit_call time_time uuid_hex iso model_dump model_validate w_meanwhile w_interrupt w_log).
Abbreviation Framed := (Framed time_time uuid_hex iso model_dump model_validate w_others).
Abbreviation uncertainty := (uncertainty time_time uuid_hex iso model_dump model_validate w_meanwhile w_interrupt w_store w_log).
Abbreviation require_certain := (require_certain time_time uuid_hex iso model_dump model_validate w_meanwhile w_interrupt w_store w_log).
Abbreviation scope := (scope time_time uuid_hex iso model_dump model_validate w_meanwhile w_interrupt w_store self_owner).
Abbreviation gated := (gated time_time uuid_hex iso model_dump model_validate w_meanwhile w_interrupt).
Abbreviation handle_owner_message := (handle_owner_message time_time uuid_hex iso model_dump model_validate w_meanwhile w_interrupt
  w_store drive thread_context).
Abbreviation turn_model := (turn_model time_time uuid_hex iso model_dump model_validate w_sql w_others w_cancelled
  urlsplit is_loopback env dispatch_config config_id).
Abbreviation answer_turn := (answer_turn time_time uuid_hex iso model_dump model_validate w_sql w_io w_reading w_token w_lease_token
  w_others w_cancelled w_meanwhile w_interrupt w_store w_log urlsplit is_loopback env dispatch_config
  config_id drive thread_context).
Abbreviation stage_turn := (stage_turn time_time uuid_hex iso model_dump model_validate w_sql w_io w_reading w_token w_lease_token
  w_others w_cancelled w_meanwhile w_interrupt w_store w_log w_main w_id w_stamp urlsplit is_loopback env dispatch_config
  config_id drive thread_context).
Abbreviation perform := (perform time_time uuid_hex iso model_dump model_validate w_sql w_io w_reading w_token w_lease_token
  w_others w_cancelled w_meanwhile w_interrupt w_store w_log w_fenced w_main w_id w_stamp urlsplit is_loopback env dispatch_config
  config_id drive thread_context).
Abbreviation release_request := (release_request time_time uuid_hex iso model_dump model_validate w_sql w_io w_reading
  w_others w_cancelled w_meanwhile).
Abbreviation dispose := (dispose time_time uuid_hex iso model_dump model_validate w_sql w_io w_reading
  w_others w_cancelled w_meanwhile w_interrupt w_store w_log).
Abbreviation execute := (execute time_time uuid_hex iso model_dump model_validate w_sql w_io w_reading w_token w_lease_token
  w_others w_cancelled w_meanwhile w_interrupt w_store w_log w_fenced w_main w_id w_stamp urlsplit is_loopback env dispatch_config
  config_id drive thread_context w_expired).
Abbreviation execute_task := (execute_task time_time uuid_hex iso model_dump model_validate w_sql w_io w_reading w_token w_lease_token
  w_others w_cancelled w_meanwhile w_interrupt w_store w_log w_fenced w_main w_id w_stamp urlsplit is_loopback env dispatch_config
  config_id drive thread_context w_expired).
Abbreviation submit_body := (submit_body time_time uuid_hex iso model_dump model_validate w_meanwhile w_interrupt w_store w_log
  self_owner).
Abbreviation submit := (submit time_time uuid_hex iso model_dump model_validate w_meanwhile w_interrupt w_dropped w_store w_log
  self_owner).
Abbreviation moves := (moves time_time uuid_hex iso model_dump model_validate).

(** The adapter moves along [R], which the others keep to; the others write no
    outcome of the calls [cs]; a block and a stop are never taken back. *)
Section Frame.
Context (R : relation Adapter) `{!Framed R} (cs : string -> Prop).
Context (others_framed : forall n o a, MwAdapter o ∈ w_meanwhile n -> R a (outside_exec a o)).
Context (others_silent : forall c n op, cs c -> MwAudit op ∈ w_meanwhile n -> silent c op).

Record kept (s s' : Service) : Prop := {
  kp_budget : R (sv_budget s) (sv_budget s');
  kp_rows : rows (sv_audit s) `prefix_of` rows (sv_audit s');
  kp_quiet : forall c, cs c -> Metered.quiet c (rows (sv_audit s)) -> Metered.quiet c (rows (sv_audit s'));
  kp_blocked : sv_blocked s = true -> sv_blocked s' = true;
  kp_stopping : sv_stopping s = true -> sv_stopping s' = true;
  kp_awaits : sv_awaits s <= sv_awaits s';
}.

#[export] Instance kept_preorder : PreOrder kept.
Proof using Framed0.
  split.
  - intros s. split; [reflexivity|done|auto..].
  - intros s1 s2 s3 [H1 H2 H3 H4 H5 H6] [H1' H2' H3' H4' H5' H6'].
    split; [by etransitivity|by etransitivity|auto..|lia].
Qed.

(** What touches neither the adapter nor the log, and clears no flag *)
Lemma kept_aside s s' : sv_budget s' = sv_budget s -> sv_audit s' = sv_audit s ->
  (sv_blocked s = true -> sv_blocked s' = true) -> (sv_stopping s = true -> sv_stopping s' = true) ->
  sv_awaits s <= sv_awaits s' -> kept s s'.
Proof using Framed0. intros Hb Ha Hbl Hst Hn. split; [by rewrite Hb|by rewrite Ha|by rewrite Ha|done..]. Qed.

Lemma kept_budget s a : R (sv_budget s) a -> kept s (set_budget a s).
Proof using. by intros Ha; split. Qed.

Lemma kept_revoke s : kept s (revoke_current s).
Proof using Framed0.
  unfold revoke_current. destruct (sv_lease s) as [l|]; [|reflexivity]. apply kept_budget. by eapply (frame_revoke _ _ _ _ _ w_others R).
Qed.

Lemma kept_meanwhile n o s : o ∈ w_meanwhile n -> kept s (meanwhile_exec s o).
Proof using Framed0 others_framed others_silent.
  intros Ho. destruct o as [o|op| | |r c|w|l| |]; cbn [OwnerService.meanwhile_exec].
  - by apply kept_budget, (others_framed n).
  - split; [reflexivity|apply (audit_prefix [op])| |done..].
    intros c Hc. apply Metered.quiet_exec. by eapply others_silent.
  - unfold stop_fence. etransitivity; [apply (kept_aside s (set_stopping s)); done|].
    etransitivity; [apply kept_revoke|]. apply kept_budget. by apply (fr_store time_time uuid_hex iso model_dump model_validate w_others _ OpFence).
  - by apply kept_aside.
  - by apply kept_aside.
  - by apply kept_aside.
  - by apply kept_aside.
  - by apply kept_aside.
  - by apply kept_aside.
Qed.

Lemma kept_others n os s : (forall o, o ∈ os -> o ∈ w_meanwhile n) -> kept s (foldl meanwhile_exec s os).
Proof using Framed0 others_framed others_silent.
  revert s. induction os as [|o os IH]; intros s Hos; [reflexivity|]. cbn. etransitivity.
  - apply (kept_meanwhile n). apply Hos. by left.
  - apply IH. intros o' Ho. apply Hos. by right.
Qed.

Lemma kept_pass s : kept s (pass s).
Proof using Framed0 others_framed others_silent.
  unfold OwnerService.pass. etransitivity; [|by apply (kept_others (sv_awaits s))]. apply kept_aside; try done. cbn. lia.
Qed.

Lemma keep_waiting {A} s0 (m : nat -> py Service A) : (forall n, preserves (kept s0) (m n)) -> preserves (kept s0) (waiting m).
Proof using Framed0 others_framed others_silent.
  intros Hm s Hs. unfold wp, OwnerService.waiting. pose proof (preserves_run _ _ s (Hm (sv_awaits s)) Hs) as H1.
  destruct (w_interrupt _); [destruct (m (sv_awaits s) s) as [[x|e] s1]; cbn [snd] in H1|..];
    (etransitivity; [|apply kept_pass]); done.
Qed.

Lemma keep_calling {A} s0 (m : py Service A) : preserves (kept s0) m -> preserves (kept s0) (calling m).
Proof using Framed0 others_framed others_silent.
  intros Hm s Hs. unfold wp, OwnerService.calling. pose proof (preserves_run _ _ s Hm Hs) as H1.
  destruct (m s) as [[x|e] s1]; cbn [snd] in H1; (etransitivity; [exact H1|apply kept_pass]).
Qed.

Lemma keep_budget {A} s0 (m : py Adapter A) : (forall a0, preserves (R a0) m) -> preserves (kept s0) (on_budget m).
Proof using Framed0.
  intros Hm s Hs. unfold wp, on_budget. pose proof (preserves_run (R (sv_budget s)) m (sv_budget s) (Hm _) ltac:(reflexivity)) as H1.
  destruct (m (sv_budget s)) as [[x|e] a]; cbn [snd] in H1; (etransitivity; [exact Hs|by apply kept_budget]).
Qed.

Lemma keep_reads {A} a0 (m : py (OwnerPilotStore T) A) : reads m -> preserves (R a0) (on_store m).
Proof using Framed0.
  intros Hm a Ha. unfold wp, on_store. pose proof (Hm (ad_store a)) as H1. destruct (m (ad_store a)) as [[x|e] s]; cbn [snd] in H1;
    subst s; (etransitivity; [exact Ha|by apply (fr_aside time_time uuid_hex iso model_dump model_validate w_others)]).
Qed.

(** A call of the store is one of its operations, but the publication. *)
Definition own_op {A} (m : py (OwnerPilotStore T) A) : Prop :=
  reads m \/ forall s, exists op, is_commit op = false /\ (m s).2 = store_exec s op.

Lemma keep_store_call {A} s0 (f : nat -> py (OwnerPilotStore T) A) :
  (forall n, own_op (f n)) -> preserves (kept s0) (store_call f).
Proof using Framed0 others_framed others_silent.
  intros Hf. apply keep_waiting. intros n. apply keep_budget. intros a0. destruct (Hf n) as [Hr|Hop].
  - by apply keep_reads.
  - by eapply (keep_store _ _ _ _ _ w_others R).
Qed.

(** A call of the log writes no outcome of [cs]. *)
Lemma keep_log_call {A} s0 (f : nat -> py AuditLog A) :
  (forall n l, exists ops, (f n l).2 = foldl audit_exec l ops /\ forall c, cs c -> Forall (silent c) ops) ->
  preserves (kept s0) (audit_call f).
Proof using Framed0 others_framed others_silent.
  intros Hf. apply keep_waiting. intros n. destruct (w_log n); [|apply preserves_raise].
  intros s Hs. unfold wp, on_audit. destruct (Hf n (sv_audit s)) as (ops & Hops & Hsil).
  assert (kept s0 (set_audit (f n (sv_audit s)).2 s)) as H1.
  { etransitivity; [exact Hs|]. rewrite Hops. split; cbn; [reflexivity|apply audit_prefix| |done..].
    intros c Hc. by apply quiet_run, Hsil. }
  by destruct (f n (sv_audit s)) as [[x|e] l].
Qed.

Lemma keep_pending s0 : preserves (kept s0) (audit_call (fun _ => has_pending_calls)).
Proof using Framed0 others_framed others_silent.
  apply keep_log_call. intros n l. exists []. split; [|by constructor]. unfold has_pending_calls, require_ready. unfold_py.
  by destruct (conn l).
Qed.

Lemma keep_modify_aside s0 (f : Service -> Service) : (forall s, kept s (f s)) -> preserves (kept s0) (modify f).
Proof using Framed0. intros Hf. apply preserves_modify. intros s Hs. etransitivity; [exact Hs|apply Hf]. Qed.

Context (drive_kept : forall m t i g k s0, preserves (kept s0) (drive m t i g k)).
Context (context_kept : forall o th t s0, preserves (kept s0) (thread_context o th t)).

Lemma keep_check_now s0 g : preserves (kept s0) (check_grant_now time_time g).
Proof using Framed0. apply keep_budget. intros a0. by eapply (keep_grant _ _ _ _ _ w_others R). Qed.

Lemma keep_turn_model s0 g : preserves (kept s0) (turn_model g).
Proof using Framed0.
  intros s Hs. unfold wp, OwnerService.turn_model. set (m := _ ≫= _).
  assert (R (sv_budget s) (m (sv_budget s, tt)).2.1) as H1.
  2: { destruct (m (sv_budget s, tt)) as [[x|e] w]; cbn [snd] in H1; (etransitivity; [exact Hs|by apply kept_budget]). }
  apply (preserves_run (fun w => R (sv_budget s) w.1) m (sv_budget s, tt)); [|reflexivity]. subst m.
  assert (forall b, preserves (fun w : Adapter * unit => R (sv_budget s) w.1)
            (check_owner_metered (H:=owner_gate (X:=unit) time_time uuid_hex iso model_dump model_validate w_sql w_others w_cancelled) b)) as Hc.
  { intros b. apply preserves_bind.
    - intros w Hw. unfold wp. cbn [og_check owner_gate]. unfold on_adapter.
      pose proof (preserves_run (R w.1) (check_grant time_time (om_grant b)) w.1
                    (keep_grant _ _ _ _ _ w_others R _ _) ltac:(reflexivity)) as H1.
      destruct (check_grant _ _ w.1) as [[x|e] a]; cbn [snd fst] in *; by etransitivity.
    - intros _. repeat (apply preserves_bind; [apply preserves_lift|intros _]). apply preserves_lift. }
  apply preserves_bind; [apply Hc|intros _]. unfold new_metered.
  repeat first
    [ apply Hc
    | lazymatch goal with
      | |- preserves _ (mbind _ _) => apply preserves_bind; [|intros ?]
      | |- preserves _ (raise_when _ _) => apply preserves_lift
      | |- preserves _ (lift _) => apply preserves_lift
      | |- preserves _ (mret _) => apply preserves_ret
      | |- preserves _ (match ?x with _ => _ end) => destruct x
      end ].
Qed.

Ltac own :=
  lazymatch goal with
  | |- own_op (ensure_workspace _ _ _ ?q ?p) => right; intros ?; by exists (OpWorkspace q p)
  | |- own_op (admit_turn _ _ ?q ?p ?r ?o ?l) => right; intros ?; by exists (OpAdmit q p r o l)
  | |- own_op (transition _ ?q ?n ?e ?t ?ph ?c) => right; intros ?; by exists (OpTransition q n e t ph c)
  | |- own_op (stage_result _ _ _ ?q ?n ?v) => right; intros ?; by exists (OpStage q n v)
  | |- own_op (get_request _ _ _) => left; apply reads_request
  | |- own_op (get_task _ _ _) => left; apply reads_task
  | |- own_op (has_uncertainty _ _) => left; apply reads_uncertainty
  end.

Ltac tour :=
  repeat lazymatch goal with
  | |- preserves _ (mbind _ _) => apply preserves_bind; [|intros ?]
  | |- preserves _ (mret _) => apply preserves_ret
  | |- preserves _ (raise _) => apply preserves_raise
  | |- preserves _ (raise_when _ _) => apply preserves_lift
  | |- preserves _ (lift _) => apply preserves_lift
  | |- preserves _ (gets _) => apply preserves_gets
  | |- preserves _ get => apply (preserves_gets _ id)
  | |- preserves _ (catch _ _) => apply preserves_catch; [|intros ?]
  | |- preserves _ (catch_exception _ _) => apply preserves_catch_exception; [|intros ?]
  | |- preserves _ (OwnerService.store_call _ _ _ _ _ _ _ _) => apply keep_store_call; intros ?; own
  | |- preserves _ (OwnerService.audit_call _ _ _ _ _ _ _ _ (fun _ => has_pending_calls)) => apply keep_pending
  | |- preserves _ (OwnerService.calling _ _ _ _ _ _ _) => apply keep_calling
  | |- preserves _ (OwnerService.gated _ _ _ _ _ _ _ _) => unfold OwnerService.gated
  | |- preserves _ (OwnerService.waiting _ _ _ _ _ _ _ (fun _ => mret _)) => apply keep_waiting; intros ?; apply preserves_ret
  | |- preserves _ (on_budget (OwnerBudget.reserve_request _ _ _ _ _ _ _ _ _ _ _ _ _ _ _)) =>
      apply keep_budget; intros ?; by eapply (keep_reserve _ _ _ _ _ _ _ _ _ _ _ _ R)
  | |- preserves _ (on_budget (OwnerBudget.mark_running _ _ _ _ _ _ _ _ _ _ _)) =>
      apply keep_budget; intros ?; by eapply (keep_mark _ _ _ _ _ _ _ _ _ _ R)
  | |- preserves _ (on_budget (OwnerBudget.finish_request _ _ _ _ _ _ _ _ _ _ _ _)) =>
      apply keep_budget; intros ?; by eapply (keep_finish _ _ _ _ _ _ _ _ _ _ R)
  | |- preserves _ (on_budget (OwnerBudget.owns _ _)) => apply keep_budget; intros ?; by eapply (keep_owns _ _ _ _ _ _ R)
  | |- preserves _ (check_grant_now _ _) => apply keep_check_now
  | |- preserves _ (drive _ _ _ _ _) => apply drive_kept
  | |- preserves _ (thread_context _ _ _) => apply context_kept
  | |- preserves _ (modify _) => apply keep_modify_aside; intros ?; first [apply kept_revoke|by apply kept_aside]
  | |- preserves _ (match ?x with _ => _ end) => destruct x
  end.

Lemma keep_uncertainty s0 p : preserves (kept s0) (uncertainty p).
Proof using Framed0 others_framed others_silent. unfold OwnerService.uncertainty. tour. Qed.

Lemma keep_certain s0 p : preserves (kept s0) (require_certain p).
Proof using Framed0 others_framed others_silent. apply preserves_bind; [apply keep_uncertainty|intros ?; apply preserves_lift]. Qed.

Lemma keep_owner s0 p : preserves (kept s0) (owner_check self_owner p).
Proof using. unfold owner_check. tour. Qed.

Lemma keep_scope s0 p : preserves (kept s0) (scope p).
Proof using Framed0 others_framed others_silent. unfold OwnerService.scope. repeat first [apply keep_owner|progress tour]. Qed.

Lemma keep_message s0 message thread g m : preserves (kept s0) (handle_owner_message message thread g m).
Proof using Framed0 others_framed others_silent drive_kept context_kept.
  unfold OwnerService.handle_owner_message, execute_owner_request. tour.
Qed.

Lemma hushed_gateway n l :
  exists ops, (append_gateway w_main w_id w_stamp n l).2 =
    foldl audit_exec l ops /\ forall c, cs c -> Forall (silent c) ops.
Proof using.
  exists [AppendBeta (w_main n) (gateway_entry w_id w_stamp n)]. split.
  - cbn. unfold append_gateway, mbind, py_bind. by destruct (append_beta _ _ l) as [[x|x] l'].
  - intros c _. apply Forall_singleton, Forall_singleton. intros [Ho _]. revert Ho. unfold has_phase, json_extract.
    cbn [row_of gateway_entry r_evidence evidence json_column fmap option_fmap option_map]. rewrite jget_canon. cbn.
    intros Ho%bool_decide_eq_true. discriminate.
Qed.

Lemma keep_answer s0 p row : preserves (kept s0) (answer_turn p row).
Proof using Framed0 others_framed others_silent drive_kept context_kept.
  unfold OwnerService.answer_turn. repeat first [apply keep_certain|apply keep_message|apply keep_turn_model|progress tour].
Qed.

Lemma keep_stage s0 p row : preserves (kept s0) (stage_turn p row).
Proof using Framed0 others_framed others_silent drive_kept context_kept.
  unfold OwnerService.stage_turn.
  repeat first [apply keep_answer|apply keep_certain|apply keep_log_call, hushed_gateway|progress tour].
Qed.

Lemma keep_release s0 : preserves (kept s0) release_request.
Proof using Framed0 others_framed others_silent. unfold OwnerService.release_request. tour. Qed.

Lemma keep_dispose s0 p row e : preserves (kept s0) (dispose p row e).
Proof using Framed0 others_framed others_silent. unfold OwnerService.dispose. repeat first [apply keep_release|progress tour]. Qed.

Lemma keep_submit s0 p q : preserves (kept s0) (submit_body p q).
Proof using Framed0 others_framed others_silent.
  unfold OwnerService.submit_body. repeat first [apply keep_scope|apply keep_certain|progress tour].
Qed.

Lemma kept_after {A} (m : py Service A) s x s' : (forall s0, preserves (kept s0) m) -> m s = (x, s') -> kept s s'.
Proof using Framed0. intros Hm Hr. pose proof (preserves_run _ m s (Hm s) ltac:(reflexivity)) as He. by rewrite Hr in He. Qed.
End Frame.


(** ** What a call that returns went through *)

Lemma waiting_ok {A} (m : nat -> py Service A) s x s' :
  waiting m s = (Ok x, s') -> exists s1, m (sv_awaits s) s = (Ok x, s1) /\ s' = pass s1.
Proof using.
  unfold OwnerService.waiting. destruct (w_interrupt _); [|done..]. destruct (m (sv_awaits s) s) as [r s1].
  intros [= -> <-]. by exists s1.
Qed.

Lemma store_call_ok {A} (f : nat -> py (OwnerPilotStore T) A) s x s' :
  store_call f s = (Ok x, s') -> exists st, f (sv_awaits s) (ad_store (sv_budget s)) = (Ok x, st) /\
    s' = pass (set_budget (set_store st (sv_budget s)) s).
Proof using.
  intros (s1 & H1 & ->)%waiting_ok. unfold on_budget, on_store in H1. destruct (f _ _) as [r st].
  injection H1 as -> <-. by exists st.
Qed.

Lemma audit_call_ok {A} (f : nat -> py AuditLog A) s x s' :
  audit_call f s = (Ok x, s') -> exists l, f (sv_awaits s) (sv_audit s) = (Ok x, l) /\ s' = pass (set_audit l s).
Proof using.
  intros (s1 & H1 & ->)%waiting_ok. destruct (w_log _); [|done]. unfold on_audit in H1. destruct (f _ _) as [r l].
  injection H1 as -> <-. by exists l.
Qed.

Lemma set_audit_same (s : Service) : set_audit (sv_audit s) s = s.
Proof using. by destruct s. Qed.

Lemma set_store_same (a : Adapter) : set_store (ad_store a) a = a.
Proof using. by destruct a. Qed.

Lemma set_budget_same (s : Service) : set_budget (sv_budget s) s = s.
Proof using. by destruct s. Qed.

Lemma read_call_ok {A} (f : nat -> py (OwnerPilotStore T) A) s x s' :
  (forall n, reads (f n)) -> store_call f s = (Ok x, s') ->
  f (sv_awaits s) (ad_store (sv_budget s)) = (Ok x, ad_store (sv_budget s)) /\ s' = pass s.
Proof using.
  intros Hf (st & H1 & ->)%store_call_ok. pose proof (Hf (sv_awaits s) (ad_store (sv_budget s))) as Hst.
  rewrite H1 in Hst. cbn in Hst. subst st. by rewrite set_store_same, set_budget_same.
Qed.

Lemma pending_ok s b s' :
  audit_call (fun _ => has_pending_calls) s = (Ok b, s') -> b = negb (bool_decide (pending_calls (rows (sv_audit s)) = [])) /\ s' = pass s.
Proof using.
  intros (l & H1 & ->)%audit_call_ok. unfold has_pending_calls, require_ready in H1. revert H1. unfold_py.
  destruct (conn (sv_audit s)); [|done]. intros [= <- <-]. by rewrite set_audit_same.
Qed.

(** A gateway that finds itself certain: no turn of the owner is uncertain, then
    no call is pending, and it is neither blocked nor stopping when that is known. *)
Lemma certain_ok p s u s' :
  require_certain p s = (Ok u, s') ->
  exists s1, s1 = pass s /\ s' = pass s1 /\ pending_calls (rows (sv_audit s1)) = [] /\ sv_blocked s' = false /\ sv_stopping s' = false /\
    forall r, r ∈ requests (db (ad_store (sv_budget s))) -> r_owner r = owner_id p -> is_turn r = true ->
      visible (db (ad_store (sv_budget s))) r = true -> state r <> UNCERTAIN.
Proof using.
  unfold OwnerService.require_certain, OwnerService.uncertainty. intros Hr. py_step Hr b s2 H1. apply raise_when_ok in Hr as [-> ->].
  py_step H1 durable s3 H2. apply read_call_ok in H2 as [H2 ->]; [|intros; apply reads_uncertainty].
  py_step H1 pending s4 H3. unfold catch_exception in H3. apply catch_cases in H3 as [(b' & H3 & [= <-])|(e & s5 & _ & H3)].
  2: { destruct (bool_decide _); done. }
  apply pending_ok in H3 as [-> ->]. unfold get in H1. rewrite bind_run in H1. cbn beta iota in H1. injection H1 as Hb <-.
  breflect. exists (pass s). split_and!; try done.
  intros r Hin Ho Ht Hv Hu. unfold has_uncertainty in H2. py_step H2 v s6 Hp.
  apply run_cases in H2 as [(e & ? & _)|(d & [= ->] & [= Hd])]; [done|].
  assert (existsb (fun r => String.eqb (r_owner r) (owner_id p) && is_turn r && visible (db (ad_store (sv_budget s))) r &&
            bool_decide (state r = UNCERTAIN)) (requests (db (ad_store (sv_budget s)))) = true) as Hex; [|congruence].
  apply existsb_exists. exists r. split; [by apply list_elem_of_In|]. rewrite Ho, String.eqb_refl, Ht, Hv. by apply bool_decide_eq_true.
Qed.

(** ** Turns along a run *)

Lemma find_rows {A} (f : A -> bool) (P : A -> A -> Prop) l l' r :
  List.find f l = Some r ->
  (forall i x, l !! i = Some x -> exists y, l' !! i = Some y /\ f y = f x /\ P x y) ->
  exists q, List.find f l' = Some q /\ P r q.
Proof using.
  revert l'. induction l as [|x l IH]; intros l' Hf Hl; [done|]. destruct (Hl 0 x eq_refl) as (y & Hy & Hfy & Hp).
  destruct l' as [|y' l']; [done|]. injection Hy as ->. cbn in *. rewrite Hfy. destruct (f x).
  - injection Hf as ->. by exists y.
  - apply IH; [done|]. intros i z Hz. by apply (Hl (S i)).
Qed.

(** The turn that [get] finds *)
Definition turn_of (p : OwnerPrincipal) (tid : string) (a : Adapter) : option (Request T) :=
  List.find (fun r => String.eqb (r_owner r) (owner_id p) && bool_decide (task_id r = Some tid) && is_turn r)
    (requests (db (ad_store a))).

Lemma find_moves (f : Request T -> bool) a a' r :
  (forall r q, same_request r q -> f q = f r) -> moves a a' -> store_ok (ad_store a) ->
  List.find f (requests (db (ad_store a))) = Some r ->
  exists q, List.find f (requests (db (ad_store a'))) = Some q /\ aged r q.
Proof using.
  intros Hf Hm Hok Hr. eapply find_rows; [exact Hr|]. intros i x Hx.
  destruct (moves_row _ _ _ _ _ _ _ _ _ Hm Hok Hx) as (q & Hq & Hag). exists q. split; [done|]. split; [|done].
  apply Hf, (ag_same _ _ Hag).
Qed.

Lemma turn_moves p tid a a' r :
  moves a a' -> store_ok (ad_store a) -> turn_of p tid a = Some r -> exists q, turn_of p tid a' = Some q /\ aged r q.
Proof using.
  apply find_moves. intros x q Hs. rewrite (same_turn _ _ Hs). by destruct Hs as (_ & -> & _ & _ & _ & _ & -> & _).
Qed.

Lemma turn_of_in p tid a r : turn_of p tid a = Some r -> exists i, requests (db (ad_store a)) !! i = Some r /\ is_turn r = true.
Proof using.
  intros Hf. apply find_some_elem in Hf as [[i Hi]%list_elem_of_lookup_1 Hr]. breflect. by exists i.
Qed.

(** A row is determined by its number. *)
Lemma row_unique (a : Adapter) i j r q : store_ok (ad_store a) -> requests (db (ad_store a)) !! i = Some r ->
  requests (db (ad_store a)) !! j = Some q -> sequence r = sequence q -> i = j /\ r = q.
Proof using.
  intros Hok Hi Hj Hs. pose proof (ok_numbered _ Hok _ _ Hi). pose proof (ok_numbered _ Hok _ _ Hj).
  assert (i = j) as -> by lia. split; [done|]. congruence.
Qed.

Lemma get_task_ok sql p tid (a : Adapter) rec st :
  get_task sql p tid (ad_store a) = (Ok rec, st) -> turn_of p tid a = Some (record rec).
Proof using.
  unfold get_task. intros Hr. py_step Hr u s1 H1. py_step Hr u2 s2 H2.
  apply run_cases in Hr as [(e & ? & _)|(v & [= <-] & Hr)]; [done|]. rewrite bind_gets in Hr. unfold turn_of.
  destruct (List.find _ _) as [row|]; [|done]. py_step Hr t s3 H3. by injection Hr as <-.
Qed.

(** ** Settling *)

Section Settle.
Abbreviation kept := (kept moves (fun _ => False)).
Context (drive_kept : forall m t i g k s0, preserves (kept s0) (drive m t i g k)).
Context (context_kept : forall o th t s0, preserves (kept s0) (thread_context o th t)).

Lemma meanwhile_moves n o a : MwAdapter o ∈ w_meanwhile n -> moves a (outside_exec a o).
Proof using. intros _. apply moves_outside. Qed.

Lemma nothing_silent (c : string) (n : nat) (op : audit_op) : False -> MwAudit op ∈ w_meanwhile n -> silent c op.
Proof using. done. Qed.

Lemma kept_by_pass s : kept s (pass s).
Proof using w_others. exact (kept_pass moves _ meanwhile_moves nothing_silent s). Qed.

(** The turn [row] is no longer live. *)
Definition settled (p : OwnerPrincipal) (row : Request T) (s : Service) : Prop :=
  exists q, turn_of p (default "" (task_id row))%string (sv_budget s) = Some q /\ aged row q /\ live_state (state q) = false.

Lemma settled_kept p row s s' : kept s s' -> store_ok (ad_store (sv_budget s)) -> settled p row s -> settled p row s'.
Proof using.
  intros K Hok (q & Hq & Hag & Hl). destruct (turn_moves _ _ _ _ _ (kp_budget _ _ _ _ K) Hok Hq) as (q' & Hq' & Hag').
  exists q'. split; [done|]. split; [by eapply aged_trans|]. by rewrite (ag_final _ _ Hag' Hl).
Qed.

Lemma service_ok s s' : kept s s' -> store_ok (ad_store (sv_budget s)) -> store_ok (ad_store (sv_budget s')).
Proof using. intros K. apply (moves_ok _ _ _ _ _ _ _ (kp_budget _ _ _ _ K)). Qed.

(** A store operation that leaves the turn's row in a final state settles it. *)
Lemma row_settled p row s op i r q :
  store_ok (ad_store (sv_budget s)) -> (exists x, turn_of p (default "" (task_id row))%string (sv_budget s) = Some x /\ aged row x) ->
  requests (db (ad_store (sv_budget s))) !! i = Some r -> sequence r = sequence row -> same_request r q ->
  requests (db (store_exec (ad_store (sv_budget s)) op)) !! i = Some q -> live_state (state q) = false ->
  settled p row (set_budget (set_store (store_exec (ad_store (sv_budget s)) op) (sv_budget s)) s).
Proof using.
  intros Hok (x & Hx & Hag) Hi Hseq Hs Hq Hl. set (a' := set_store _ _).
  assert (moves (sv_budget s) a') as Hm by by eapply moves_store.
  destruct (turn_moves _ _ _ _ _ Hm Hok Hx) as (y & Hy & Hag'). exists y. split; [done|]. split; [by eapply aged_trans|].
  destruct (turn_of_in _ _ _ _ Hy) as (j & Hj & _).
  destruct (row_unique a' i j q y) as [_ ->]; [by eapply moves_ok|done|done| |done].
  rewrite (same_sequence _ _ Hs), Hseq, (same_sequence _ _ (ag_same _ _ Hag')), (same_sequence _ _ (ag_same _ _ Hag)). done.
Qed.

Lemma dispose_settles p row e s u s' :
  store_ok (ad_store (sv_budget s)) -> (exists x, turn_of p (default "" (task_id row))%string (sv_budget s) = Some x /\ aged row x) ->
  dispose p row e s = (Ok u, s') -> settled p row s'.
Proof using w_others.
  intros Hok (x & Hx & Hag) Hr. unfold OwnerService.dispose in Hr.
  py_step Hr pending s1 H1.
  assert (kept s s1) as K1.
  { eapply (kept_after moves), H1. intros s0. apply preserves_catch_exception; [|intros ?].
    - exact (keep_pending moves _ meanwhile_moves nothing_silent s0).
    - apply preserves_bind; [|intros ?; apply preserves_ret]. apply (keep_modify_aside moves). intros s2. by apply (kept_aside moves). }
  py_step Hr rec s2 H2. apply read_call_ok in H2 as [H2 ->]; [|intros; apply reads_task]. apply get_task_ok in H2.
  destruct (turn_moves _ _ _ _ _ (kp_budget _ _ _ _ K1) Hok Hx) as (x1 & Hx1 & Hag1).
  assert (x1 = record rec) as -> by congruence. pose proof (service_ok _ _ K1 Hok) as Hok1.
  pose proof (service_ok _ _ (kept_by_pass s1) Hok1) as Hok2.
  destruct (live_state (state (record rec))) eqn:Hlive.
  2: { injection Hr as <- <-. eapply settled_kept; [apply kept_by_pass|done|]. exists (record rec).
       split; [done|]. split; [by eapply aged_trans|done]. }
  py_step Hr unsure s3 H3.
  assert (kept (pass s1) s3) as K3.
  { eapply (kept_after moves), H3. intros s0. destruct (_ || _); [apply preserves_ret|].
    exact (keep_release moves _ meanwhile_moves nothing_silent s0). }
  pose proof (service_ok _ _ K3 Hok2) as Hok3. apply store_call_ok in Hr as (st & Hr & ->).
  set (target := if unsure then _ else _) in Hr.
  assert (live_state target = false) as Htl by (unfold target; destruct unsure; [done|by destruct (bool_decide (_ = ADMITTED))]).
  pose proof Hr as Hr'. apply transition_ok in Hr as (_ & i & r & q & Hi & Hseq & Hst & _ & Hqs & Hreq & _); [|apply Hok3].
  set (op := OpTransition (w_store (sv_awaits s3)) (sequence row) (state (record rec)) target
               (if unsure then "uncertain" else "failed")%string
               (Some (if unsure then "uncertainty"%string else end_code e))).
  assert (st = store_exec (ad_store (sv_budget s3)) op) as -> by (unfold op; cbn [AdmissionLife.store_exec]; by rewrite Hr').
  eapply settled_kept; [apply kept_by_pass|by apply exec_ok|]. eapply (row_settled p row s3 op i r q); [done| |done|done|apply (ts_same _ _ Hst)| |by rewrite Hqs].
  - assert (moves (sv_budget s1) (sv_budget s3)) as Hm by (etransitivity; [apply (kept_by_pass s1)|apply K3]).
    destruct (turn_moves _ _ _ _ _ Hm Hok1 H2) as (y & Hy & Hagy).
    exists y. split; [done|]. eapply aged_trans; [|exact Hagy]. by eapply aged_trans.
  - rewrite Hreq. apply list_lookup_insert_eq. by eapply lookup_lt_Some.
Qed.

(** A publication, whether or not its caller still learns of it *)
Lemma commit_call_cases (f : nat -> py (OwnerPilotStore T) unit) s x s' :
  store_call f s = (x, s') ->
  s' = pass s \/ exists y st, f (sv_awaits s) (ad_store (sv_budget s)) = (y, st) /\ (x = Err CancelledError \/ x = y) /\
    s' = pass (set_budget (set_store st (sv_budget s)) s).
Proof using.
  unfold OwnerService.store_call, OwnerService.waiting, on_budget, on_store. destruct (w_interrupt _).
  - destruct (f _ _) as [y st]. intros [= <- <-]. right. exists y, st. auto.
  - intros [= <- <-]. by left.
  - destruct (f _ _) as [y st]. intros [= <- <-]. right. exists y, st. auto.
Qed.

Lemma perform_settles p row s u s' :
  store_ok (ad_store (sv_budget s)) -> (exists x, turn_of p (default "" (task_id row))%string (sv_budget s) = Some x /\ aged row x) ->
  perform p row s = (Ok u, s') -> settled p row s'.
Proof using w_others drive_kept context_kept.
  intros Hok (x & Hx & Hag) Hr. unfold OwnerService.perform in Hr. py_step Hr c s1 H1. destruct c as [text report].
  assert (kept s s1) as K1.
  { eapply (kept_after moves), H1. intros s0.
    exact (keep_stage moves _ meanwhile_moves nothing_silent drive_kept context_kept s0 p row). }
  pose proof (service_ok _ _ K1 Hok) as Hok1. apply store_call_ok in Hr as (st & Hr & ->). pose proof Hr as Hr'.
  apply commit_ok in Hr as (i & r & q & at_ & bound & res & Hi & Hseq & Hp & _ & _ & _ & Hreq & _); [|apply Hok1].
  set (op := OpCommit (w_store (sv_awaits s1)) (w_fenced (sv_awaits s1)) (sequence row) text (Some report)).
  assert (st = store_exec (ad_store (sv_budget s1)) op) as -> by (unfold op; cbn [AdmissionLife.store_exec]; by rewrite Hr').
  destruct (turn_moves _ _ _ _ _ (kp_budget _ _ _ _ K1) Hok Hx) as (y & Hy & Hagy).
  eapply settled_kept; [apply kept_by_pass|by apply exec_ok|].
  eapply (row_settled p row s1 op i r q); [done| |done|done|apply (pb_same _ _ Hp)| |by rewrite (pb_completed _ _ Hp)].
  - exists y. split; [done|]. by eapply aged_trans.
  - rewrite Hreq. apply list_lookup_insert_eq. by eapply lookup_lt_Some.
Qed.

(** The store moves along [moves] through the whole of a turn. *)
Lemma keep_perform s0 p row : preserves (fun s => moves (sv_budget s0) (sv_budget s) /\ (sv_blocked s0 = true -> sv_blocked s = true)) (perform p row).
Proof using w_others drive_kept context_kept.
  intros s [Hs Hb]. unfold OwnerService.perform. apply wp_bind.
  pose proof (preserves_run (kept s) _ s (keep_stage moves _ meanwhile_moves nothing_silent drive_kept context_kept s p row)
                ltac:(reflexivity)) as K1.
  unfold wp at 1. destruct (stage_turn p row s) as [[[text report]|e] s1]; cbn [snd] in K1.
  2: { split; [etransitivity; [exact Hs|apply K1]|]. intros Hbl. by apply (kp_blocked _ _ _ _ K1), Hb. }
  unfold wp. destruct (store_call _ s1) as [x s2] eqn:Hc.
  assert (moves (sv_budget s0) (sv_budget s2) /\ (sv_blocked s0 = true -> sv_blocked s2 = true)) as Hfin; [|by destruct x].
  assert (moves (sv_budget s0) (sv_budget s1)) as H1 by (etransitivity; [exact Hs|apply K1]).
  apply commit_call_cases in Hc as [->|(y & st & Hc & _ & ->)].
  - split; [etransitivity; [exact H1|apply (kept_by_pass s1)]|]. intros Hbl. by apply (kp_blocked _ _ _ _ (kept_by_pass s1)), (kp_blocked _ _ _ _ K1), Hb.
  - set (s3 := set_budget _ s1). split.
    + etransitivity; [exact H1|]. etransitivity; [|apply (kept_by_pass s3)].
      eapply (moves_store _ _ _ _ _ (sv_budget s1) st (OpCommit (w_store (sv_awaits s1)) (w_fenced (sv_awaits s1)) (sequence row) text (Some report))).
      cbn [AdmissionLife.store_exec]. by rewrite Hc.
    + intros Hbl. apply (kp_blocked _ _ _ _ (kept_by_pass s3)). by apply (kp_blocked _ _ _ _ K1), Hb.
Qed.

Lemma keep_moving {A} (m : py Service A) s0 : (forall s, preserves (kept s) m) -> preserves (fun s => moves (sv_budget s0) (sv_budget s)) m.
Proof using w_others.
  intros Hm. apply preserves_snd. intros s Hs. etransitivity; [exact Hs|]. exact (kp_budget _ _ _ _ (preserves_run _ _ s (Hm s) ltac:(reflexivity))). Qed.

Lemma execute_moves p row s : moves (sv_budget s) (sv_budget (execute p row s).2).
Proof using w_others drive_kept context_kept.
  apply (preserves_run (fun s' => moves (sv_budget s) (sv_budget s')) (execute p row)); [|reflexivity]. unfold OwnerService.execute.
  apply preserves_bind; [apply preserves_catch|].
  - apply preserves_bind; [|intros; apply preserves_ret]. intros s1 H1. unfold wp, timed.
    pose proof (preserves_run _ _ s1 (keep_perform s1 p row) ltac:(split; [reflexivity|done])) as [Hm _].
    destruct (perform p row s1) as [[x|e] s2]; (etransitivity; [exact H1|exact Hm]).
  - intros e. apply preserves_bind; [|intros; apply preserves_ret].
    apply preserves_catch; [apply keep_moving; intros s1; exact (keep_dispose moves _ meanwhile_moves nothing_silent s1 p row e)|].
    intros _. apply preserves_modify. intros s1 H1. exact H1.
  - intros r. apply preserves_bind; [apply preserves_modify|intros _].
    + intros s1 H1. etransitivity; [exact H1|]. apply (kp_budget _ _ _ _ (kept_revoke moves (fun _ => False) s1)).
    + apply preserves_bind; [apply preserves_modify; intros s1 H1; exact H1|intros; apply preserves_ret].
Qed.

Lemma task_moves p row s : moves (sv_budget s) (sv_budget (execute_task p row s).2).
Proof using w_others drive_kept context_kept.
  unfold OwnerService.execute_task. rewrite bind_gets. destruct (from_option _ _ _); [reflexivity|].
  exact (execute_moves p row (begin_execution s)).
Qed.

(** Every execution settles: whatever fails or is cancelled in it and
    whatever others do meanwhile, the task that executes an admitted turn ends
    without an exception of its own, and then the turn is no longer live, or the
    gateway is blocked. *)
Lemma execute_settles p row s x s' :
  store_ok (ad_store (sv_budget s)) -> turn_of p (default "" (task_id row))%string (sv_budget s) = Some row ->
  execute p row s = (x, s') ->
  (exists o, x = Ok o) /\ (sv_blocked s' = true \/ settled p row s').
Proof using w_others drive_kept context_kept.
  intros Hok Hrow Hr. unfold OwnerService.execute in Hr.
  assert (exists x0, turn_of p (default "" (task_id row))%string (sv_budget s) = Some x0 /\ aged row x0) as Hfound
    by (exists row; split; [done|apply aged_refl]).
  rewrite bind_run in Hr. unfold catch in Hr. rewrite bind_run in Hr. unfold timed in Hr.
  pose proof (preserves_run _ _ s (keep_perform s p row) ltac:(split; [reflexivity|done])) as [Hm _].
  assert (forall (o : option exn) s1, (sv_blocked s1 = true \/ settled p row s1) -> store_ok (ad_store (sv_budget s1)) ->
    (_ ← modify revoke_current; _ ← modify (on_execution (fun _ => ExDone)); mret o) s1 = (x, s') ->
    (exists o, x = Ok o) /\ (sv_blocked s' = true \/ settled p row s')) as Hend.
  { intros o s1 Hs1 Hok1 [= <- <-]. split; [by eexists|]. set (s2 := on_execution _ _).
    assert (kept s1 s2) as K.
    { transitivity (revoke_current s1).
      - apply (kept_revoke moves).
      - apply (kept_aside moves); done. }
    destruct Hs1 as [Hb|Hs1]; [left; exact (kp_blocked _ _ _ _ K Hb)|right; exact (settled_kept _ _ _ _ K Hok1 Hs1)]. }
  destruct (perform p row s) as [[u|e] s1] eqn:Hp; cbn [snd] in Hm; pose proof (moves_ok _ _ _ _ _ _ _ Hm Hok) as Hok1.
  { eapply Hend; [|exact Hok1|exact Hr]. right. exact (perform_settles _ _ _ _ _ Hok Hfound Hp). }
  set (e' := if _ && _ then TimeoutError else e) in Hr. rewrite bind_run in Hr.
  destruct (dispose p row e' s1) as [[v|e2] s2] eqn:Hd.
  - pose proof (kept_after moves _ _ _ _ _ (fun s0 => keep_dispose moves _ meanwhile_moves nothing_silent s0 p row e') Hd) as K.
    eapply (Hend (Some e') s2); [right|exact (service_ok _ _ K Hok1)|exact Hr]. eapply dispose_settles; [exact Hok1| |exact Hd].
    destruct (turn_moves _ _ _ _ _ Hm Hok Hrow) as (y & Hy & Hag). by exists y.
  - pose proof (kept_after moves _ _ _ _ _ (fun s0 => keep_dispose moves _ meanwhile_moves nothing_silent s0 p row e') Hd) as K.
    eapply (Hend (Some e') (set_blocked s2)); [by left| |exact Hr]. exact (service_ok s1 s2 K Hok1).
Qed.

(** A recovery of the store settles the turn, whatever the store did before. *)
Definition recovery_settles (p : OwnerPrincipal) (row : Request T) (s : Service) : Prop :=
  forall ops sql outs st, recover_interrupted time_time sql (store_run ops (ad_store (sv_budget s))) = (Ok outs, st) ->
    settled p row (set_budget (set_store st (sv_budget s)) s).

Lemma moves_run ops (a : Adapter) : moves a (set_store (store_run ops (ad_store a)) a).
Proof using.
  revert a. induction ops as [|op ops IH]; intros a; [by apply moves_aside|].
  etransitivity; [by apply (moves_store _ _ _ _ _ a (store_exec (ad_store a) op) op)|]. exact (IH (set_store (store_exec (ad_store a) op) a)).
Qed.

Lemma recovered_turn p row s :
  store_ok (ad_store (sv_budget s)) -> turn_of p (default "" (task_id row))%string (sv_budget s) = Some row -> recovery_settles p row s.
Proof using.
  intros Hok Hrow ops sql outs st Hr. set (a := sv_budget s) in *. set (a1 := set_store (store_run ops (ad_store a)) a).
  assert (moves a1 (set_store st a)) as Hm2.
  { apply (moves_store _ _ _ _ _ a1 st (OpRecover sql)). cbn [AdmissionLife.store_exec ad_store set_store a1]. by rewrite Hr. }
  pose proof (run_ok time_time uuid_hex iso model_dump model_validate ops _ Hok) as Hok1.
  destruct (turn_moves p (default "" (task_id row))%string a (set_store st a) row) as (y & Hy & Hag); [|exact Hok|exact Hrow|].
  { etransitivity; [apply (moves_run ops)|exact Hm2]. }
  exists y. split; [exact Hy|]. split; [exact Hag|]. destruct (turn_of_in _ _ _ _ Hy) as (j & Hj & Ht).
  apply recover_spec in Hr as [Hrec _]; [|apply Hok1]. destruct (Forall2_lookup_r _ _ _ _ _ Hrec Hj) as (r & _ & Hone).
  unfold recovered in Hone. destruct (is_turn r && live_state (state r)) eqn:Hl; [by destruct Hone as [_ ->]|].
  subst y. by rewrite Ht in Hl.
Qed.

(** The task of an execution: cancelled before its first step it ends cancelled
    and changes nothing else, so that the turn is left for the next recovery;
    otherwise it settles. *)
Lemma task_settles p row s x s' :
  store_ok (ad_store (sv_budget s)) -> turn_of p (default "" (task_id row))%string (sv_budget s) = Some row ->
  execute_task p row s = (x, s') ->
  if from_option never_begins false (sv_execution s)
  then x = Err CancelledError /\ s' = on_execution task_end s /\ recovery_settles p row s'
  else (exists o, x = Ok o) /\ (sv_blocked s' = true \/ settled p row s').
Proof using w_others drive_kept context_kept.
  intros Hok Hrow Hr. unfold OwnerService.execute_task in Hr. rewrite bind_gets in Hr. destruct (from_option never_begins false (sv_execution s)).
  - injection Hr as <- <-. split_and!; [done..|]. by apply recovered_turn.
  - exact (execute_settles p row (begin_execution s) x s' Hok Hrow Hr).
Qed.
End Settle.

(** ** Completion *)

Section Completion.
(** Only the gateway publishes. *)
Context (others_quiet : forall n op, OutStore op ∈ w_others n -> is_commit op = false).
Context (meanwhile_quiet : forall n op, MwAdapter (OutStore op) ∈ w_meanwhile n -> is_commit op = false).

(** A move that completes no turn *)
Definition unpublished (a a' : Adapter) : Prop :=
  moves a a' /\ (store_ok (ad_store a) -> forall i, completed_turn (db (ad_store a')) i -> completed_turn (db (ad_store a)) i).

#[local] Instance unpublished_preorder : PreOrder unpublished.
Proof using.
  split; [by intros a; split|]. intros a1 a2 a3 [M1 C1] [M2 C2]. split; [by etransitivity|].
  intros Hok i Hi. apply C1, C2; [done| |done]. by eapply moves_ok.
Qed.

Lemma unpublished_same a a' : moves a a' -> db (ad_store a') = db (ad_store a) -> unpublished a a'.
Proof using. intros Hm Hd. split; [done|]. by rewrite Hd. Qed.

Lemma unpublished_store a op : is_commit op = false -> unpublished a (set_store (store_exec (ad_store a) op) a).
Proof using.
  intros Hc. split; [by eapply moves_store|]. intros Hok i Hi. eapply quiet_completed; [|exact Hi].
  by apply exec_quiet; [apply Hok|].
Qed.

Lemma unpublished_outside a o : (forall op, o = OutStore op -> is_commit op = false) -> unpublished a (outside_exec a o).
Proof using.
  intros Ho. destruct o as [op|o|]; [by apply unpublished_store, Ho|apply unpublished_same; [by apply moves_revoke|]|by apply unpublished_same; [apply moves_aside|]].
  cbn. unfold revoke_object. by destruct (List.find _ _).
Qed.

#[local] Instance unpublished_framed : Framed unpublished.
Proof using others_quiet.
  split; [apply _| | | |].
  - intros a a' Hs Hb Hn. apply unpublished_same; [by apply moves_aside|by rewrite Hs].
  - intros a op. apply unpublished_store.
  - intros a b' [qops Hl] Hli. apply unpublished_same; [|done]. exists [], qops. by split.
  - intros n o a Hin. apply unpublished_outside. intros op ->. by eapply others_quiet.
Qed.

Abbreviation kept := (kept unpublished (fun _ => False)).
Context (drive_kept : forall m t i g k s0, preserves (kept s0) (drive m t i g k)).
Context (context_kept : forall o th t s0, preserves (kept s0) (thread_context o th t)).

Lemma meanwhile_unpublished n o a : MwAdapter o ∈ w_meanwhile n -> unpublished a (outside_exec a o).
Proof using meanwhile_quiet. intros Hin. apply unpublished_outside. intros op ->. by eapply meanwhile_quiet. Qed.

Abbreviation framed lem := (lem unpublished unpublished_framed (fun _ => False) meanwhile_unpublished nothing_silent).

Lemma pass_unpublished s : kept s (pass s).
Proof using w_others others_quiet meanwhile_quiet. exact (framed (@kept_pass) s). Qed.

Lemma gateway_logged s b s' :
  audit_call (append_gateway w_main w_id w_stamp) s = (Ok b, s') ->
  exists s1, rows (sv_audit s1) !! length (rows (sv_audit s)) = Some (row_of (gateway_entry w_id w_stamp (sv_awaits s))) /\
    sv_awaits s1 = sv_awaits s /\ s' = pass s1.
Proof using.
  intros (l & H1 & ->)%audit_call_ok. exists (set_audit l s). split_and!; [|done|done]. unfold append_gateway in H1. py_step H1 eid l1 H2.
  injection H1 as _ ->. rewrite append_beta_run in H2. destruct (_ || _); [done|]. destruct (bool_decide _); [done|].
  injection H2 as _ <-. cbn. by rewrite lookup_app_r, Nat.sub_diag.
Qed.

Lemma pass_awaits s : S (sv_awaits s) <= sv_awaits (pass s).
Proof using w_others others_quiet meanwhile_quiet.
  unfold OwnerService.pass. exact (kp_awaits _ _ _ _ (framed (@kept_others) (sv_awaits s) _ (next_step s) (fun _ Hin => Hin))).
Qed.

(** The check that ends the staging, from the state [s1] in which it begins to
    the state in which it leaves the gateway: no turn of the owner is uncertain,
    then no call is pending, then the gateway is neither blocked nor stopping. *)
Definition found_certain (p : OwnerPrincipal) (s1 s' : Service) : Prop :=
  s' = pass (pass s1) /\ pending_calls (rows (sv_audit (pass s1))) = [] /\ sv_blocked s' = false /\ sv_stopping s' = false /\
  forall r, r ∈ requests (db (ad_store (sv_budget s1))) -> r_owner r = owner_id p -> is_turn r = true ->
    visible (db (ad_store (sv_budget s1))) r = true -> state r <> UNCERTAIN.

(** The gateway's result was written into the log between [s] and [s1]. *)
Definition result_logged (s s1 : Service) : Prop :=
  exists k n, rows (sv_audit s1) !! k = Some (row_of (gateway_entry w_id w_stamp n)) /\
    length (rows (sv_audit s)) <= k /\ sv_awaits s <= n < sv_awaits s1.

(** What a turn that reaches its commit went through *)
Lemma stage_ok p row s text report s' :
  stage_turn p row s = (Ok (text, report), s') ->
  kept s s' /\ exists s1, result_logged s s1 /\ found_certain p s1 s'.
Proof using w_others others_quiet meanwhile_quiet drive_kept context_kept.
  intros Hr. split; [eapply (kept_after unpublished), Hr; intros s0; exact (framed (@keep_stage) drive_kept context_kept s0 p row)|].
  unfold OwnerService.stage_turn in Hr. py_step Hr c s1 H1. destruct c as [[[l tid] text'] report'].
  assert (kept s s1) as K1.
  { eapply (kept_after unpublished), H1. intros s0. exact (framed (@keep_answer) drive_kept context_kept s0 p row). }
  py_step Hr u2 s2 H2.
  assert (kept s1 s2) as K2.
  { eapply (kept_after unpublished), H2. intros s0. apply (framed (@keep_store_call)). intros n. right. intros st. by exists (OpStage (w_store n) (sequence row) [("task_id", JStr tid); ("response", JStr text'); ("assessment", model_dump report')]%string). }
  py_step Hr ok s3 H3. destruct (gateway_logged _ _ _ H3) as (s3' & Hrow & Hn & ->).
  py_step Hr u4 s4 H4. py_step Hr u5 s5 H5.
  assert (kept (pass s3') s5) as K5 by (eapply (kept_after unpublished), H5; intros s0; exact (framed (@keep_certain) s0 p)).
  py_step Hr u6 s6 H6.
  assert (kept s5 s6) as K6.
  { eapply (kept_after unpublished), H6. intros s0. apply (framed (@keep_calling)), (keep_budget unpublished). intros a0.
    by eapply (keep_finish _ _ _ _ _ _ _ _ _ _ unpublished). }
  py_step Hr u7 s7 H7. injection Hr as <- <- <-.
  exists s6. split; [|by apply certain_ok in H7 as (s8 & -> & -> & H7)].
  assert (kept s s2) as K by by etransitivity.
  assert (kept s3' s6) as K' by (etransitivity; [apply pass_unpublished|]; by etransitivity).
  exists (length (rows (sv_audit s2))), (sv_awaits s2). split_and!.
  - eapply prefix_lookup_Some; [exact Hrow|apply (kp_rows _ _ _ _ K')].
  - apply prefix_length, (kp_rows _ _ _ _ K).
  - apply (kp_awaits _ _ _ _ K).
  - pose proof (pass_awaits s3'). pose proof (kp_awaits _ _ _ _ K5). pose proof (kp_awaits _ _ _ _ K6). lia.
Qed.

(** The answer a completed turn carries: this text, and this report bound to it *)
Definition carries (q : Request T) (text : string) (report : ExecutionAssessment) : Prop :=
  exists bound res, bind_result model_dump q text (Some report) = Ok bound /\ canonical bound 524288 = Ok res /\
    result_json q = Some res.

(** The turn completed as this run of [stage_turn] left it, over a gateway that
    wrote its own result into the log in this run and then found itself certain. *)
Definition gated_completion (p : OwnerPrincipal) (row : Request T) (s s' : Service) (i : nat) : Prop :=
  exists text report s1 s2 q, stage_turn p row s = (Ok (text, report), s2) /\ result_logged s s1 /\ found_certain p s1 s2 /\
    requests (db (ad_store (sv_budget s'))) !! i = Some q /\ sequence q = sequence row /\ carries q text report.

Lemma completed_kept s s' i : kept s s' -> store_ok (ad_store (sv_budget s)) ->
  completed_turn (db (ad_store (sv_budget s'))) i -> completed_turn (db (ad_store (sv_budget s))) i.
Proof using. intros K Hok. by apply (kp_budget _ _ _ _ K). Qed.

Lemma unpublished_ok s s' : kept s s' -> store_ok (ad_store (sv_budget s)) -> store_ok (ad_store (sv_budget s')).
Proof using. intros K. apply (moves_ok _ _ _ _ _ _ _ (proj1 (kp_budget _ _ _ _ K))). Qed.

Lemma gated_kept p row s s1 s2 i : kept s1 s2 -> store_ok (ad_store (sv_budget s1)) ->
  completed_turn (db (ad_store (sv_budget s1))) i -> gated_completion p row s s1 i -> gated_completion p row s s2 i.
Proof using.
  intros K Hok (r & Hi & _ & Hc) (text & report & s3 & s4 & q & Hst & Hl & Hf & Hq & Hseq & Ht). assert (r = q) as -> by congruence.
  exists text, report, s3, s4, q. split_and!; try done.
  destruct (moves_row _ _ _ _ _ _ _ _ _ (proj1 (kp_budget _ _ _ _ K)) Hok Hq) as (q' & Hq' & Hag).
  by rewrite (ag_final _ _ Hag ltac:(by rewrite Hc)) in Hq'.
Qed.

Lemma perform_completes p row s x s' i :
  store_ok (ad_store (sv_budget s)) -> perform p row s = (x, s') ->
  completed_turn (db (ad_store (sv_budget s'))) i -> completed_turn (db (ad_store (sv_budget s))) i \/ gated_completion p row s s' i.
Proof using w_others others_quiet meanwhile_quiet drive_kept context_kept.
  intros Hok Hr Hi. unfold OwnerService.perform in Hr.
  assert (forall y s1, stage_turn p row s = (y, s1) -> kept s s1) as Kst.
  { intros y s1 Hst. eapply (kept_after unpublished), Hst. intros s0. exact (framed (@keep_stage) drive_kept context_kept s0 p row). }
  apply py_bind_cases in Hr as [(e & H1 & ->)|([text report] & s1 & H1 & Hr)]; pose proof (Kst _ _ H1) as K1.
  { left. by eapply completed_kept. }
  pose proof (unpublished_ok _ _ K1 Hok) as Hok1. destruct (stage_ok _ _ _ _ _ _ H1) as (_ & s2 & Hlog & Hcert).
  apply commit_call_cases in Hr as [->|(y & st & Hc & _ & ->)].
  { left. eapply completed_kept; [exact K1|done|]. by eapply completed_kept; [apply pass_unpublished|exact Hok1|]. }
  set (s3 := set_budget _ s1) in *. destruct y as [u|e].
  2: { left. eapply completed_kept; [exact K1|done|]. assert (db st = db (ad_store (sv_budget s1))) as Hd.
       { by apply run_publication_cases in Hc as [(e' & _ & Hd)|(a & s4 & ? & _)]. }
       apply (completed_kept s3) in Hi; [|apply pass_unpublished|]; [cbn in Hi; by rewrite Hd in Hi|].
       apply (exec_ok time_time uuid_hex iso model_dump model_validate _ (OpCommit (w_store (sv_awaits s1)) (w_fenced (sv_awaits s1)) (sequence row) text (Some report))) in Hok1.
       cbn [AdmissionLife.store_exec] in Hok1. by rewrite Hc in Hok1. }
  assert (store_ok st) as Hok3.
  { apply (exec_ok time_time uuid_hex iso model_dump model_validate _ (OpCommit (w_store (sv_awaits s1)) (w_fenced (sv_awaits s1)) (sequence row) text (Some report))) in Hok1.
    cbn [AdmissionLife.store_exec] in Hok1. by rewrite Hc in Hok1. }
  apply commit_ok in Hc as (j & r & q & at_ & bound & res & Hj & Hseq & Hpub & Hbind & Hcan & Hres & Hreq & _); [|apply Hok1].
  apply (completed_kept s3) in Hi; [|apply pass_unpublished|done].
  assert (requests (db st) !! j = Some q) as Hq by (rewrite Hreq; apply list_lookup_insert_eq; by eapply lookup_lt_Some).
  destruct (decide (i = j)) as [->|Hne].
  - right. apply (gated_kept p row s s3); [apply pass_unpublished|done|done|].
    exists text, report, s2, s1, q. split_and!; try done.
    + by rewrite (same_sequence _ _ (pb_same _ _ Hpub)).
    + exists bound, res. split_and!; [|done|done]. rewrite <- Hbind. unfold bind_result.
      by destruct (pb_same _ _ Hpub) as (_ & _ & _ & _ & _ & _ & -> & _).
  - left. eapply completed_kept; [exact K1|done|]. destruct Hi as (z & Hz & Ht & Hcz). exists z. split; [|done].
    cbn in Hz. by rewrite Hreq, list_lookup_insert_ne in Hz.
Qed.

Lemma perform_moves p row s x s' : perform p row s = (x, s') -> moves (sv_budget s) (sv_budget s').
Proof using w_others others_quiet meanwhile_quiet drive_kept context_kept.
  intros Hr. unfold OwnerService.perform in Hr.
  assert (forall y s1, stage_turn p row s = (y, s1) -> kept s s1) as Kst.
  { intros y s1 Hst. eapply (kept_after unpublished), Hst. intros s0. exact (framed (@keep_stage) drive_kept context_kept s0 p row). }
  apply py_bind_cases in Hr as [(e & H1 & ->)|([text report] & s1 & H1 & Hr)]; pose proof (kp_budget _ _ _ _ (Kst _ _ H1)) as [M1 _]; [done|].
  etransitivity; [exact M1|]. apply commit_call_cases in Hr as [->|(y & st & Hc & _ & ->)]; [apply (kp_budget _ _ _ _ (pass_unpublished s1))|].
  set (s3 := set_budget _ s1). etransitivity; [|apply (kp_budget _ _ _ _ (pass_unpublished s3))].
  eapply (moves_store _ _ _ _ _ (sv_budget s1) st (OpCommit (w_store (sv_awaits s1)) (w_fenced (sv_awaits s1)) (sequence row) text (Some report))).
  cbn [AdmissionLife.store_exec]. by rewrite Hc.
Qed.

Lemma finish_unpublished (o : option exn) s x s' :
  (_ ← modify revoke_current; _ ← modify (on_execution (fun _ => ExDone)); mret o) s = (x, s') ->
  kept s s'.
Proof using w_others others_quiet.
  intros [= _ <-]. transitivity (revoke_current s); [apply (kept_revoke unpublished)|apply (kept_aside unpublished); done].
Qed.

(** Completion is gated: when nobody else publishes, a turn becomes completed
    during an execution only as the executed turn, with the text and the report
    of its staging, and only when that staging wrote the gateway's result into
    the audit log and then found the gateway certain. *)
Lemma completion_gated p row s x s' i :
  store_ok (ad_store (sv_budget s)) -> execute p row s = (x, s') ->
  completed_turn (db (ad_store (sv_budget s'))) i -> ~ completed_turn (db (ad_store (sv_budget s))) i ->
  gated_completion p row s s' i.
Proof using w_others others_quiet meanwhile_quiet drive_kept context_kept.
  intros Hok Hr Hi Hnot. unfold OwnerService.execute in Hr. rewrite bind_run in Hr. unfold catch in Hr. rewrite bind_run in Hr.
  unfold timed in Hr. destruct (perform p row s) as [y s1] eqn:Hp.
  pose proof (moves_ok _ _ _ _ _ _ _ (perform_moves _ _ _ _ _ Hp) Hok) as Hok1.
  assert (kept s1 s') as K.
  { destruct y as [u|e]; [exact (finish_unpublished None _ _ _ Hr)|]. set (e' := if _ && _ then TimeoutError else e) in Hr.
    rewrite bind_run in Hr. destruct (dispose p row e' s1) as [[v|e2] s2] eqn:Hd;
      (etransitivity; [eapply (kept_after unpublished), Hd; intros s0; exact (framed (@keep_dispose) s0 p row e')|]).
    - exact (finish_unpublished (Some e') _ _ _ Hr).
    - transitivity (set_blocked s2); [by apply (kept_aside unpublished)|exact (finish_unpublished (Some e') _ _ _ Hr)]. }
  pose proof (completed_kept _ _ _ K Hok1 Hi) as Hi1.
  destruct (perform_completes _ _ _ _ _ _ Hok Hp Hi1) as [|Hg]; [done|]. by eapply gated_kept.
Qed.

(** The same of the task, whose first step comes before. *)
Lemma task_completion_gated p row s x s' i :
  store_ok (ad_store (sv_budget s)) -> execute_task p row s = (x, s') ->
  completed_turn (db (ad_store (sv_budget s'))) i -> ~ completed_turn (db (ad_store (sv_budget s))) i ->
  gated_completion p row (begin_execution s) s' i.
Proof using w_others others_quiet meanwhile_quiet drive_kept context_kept.
  intros Hok Hr Hi Hnot. unfold OwnerService.execute_task in Hr. rewrite bind_gets in Hr.
  destruct (from_option never_begins false (sv_execution s)).
  - by injection Hr as _ <-.
  - exact (completion_gated p row (begin_execution s) x s' i Hok Hr Hi Hnot).
Qed.
End Completion.

(** ** Submission *)

Section Submission.
Abbreviation keptc cs := (kept moves cs).

Lemma owner_same p (s : Service) y s1 : owner_check self_owner p s = (y, s1) -> s1 = s.
Proof using.
  intros Hr. pose proof (preserves_run (fun s' => s' = s) (owner_check self_owner p) s) as Hk. rewrite Hr in Hk. apply Hk; [|done].
  unfold owner_check. repeat (apply preserves_bind; [first [apply preserves_lift|apply preserves_gets]|intros ?]). apply preserves_lift.
Qed.

Lemma submit_ok p q s v s' : submit p q s = (Ok v, s') -> submit_body p q s = (Ok v, s').
Proof using.
  unfold OwnerService.submit. intros Hr. py_step Hr u s1 H1. py_step Hr u2 s2 H2.
  apply owner_same in H1 as ->.
  unfold retain in Hr. destruct (submit_body p q s) as [r s3]. destruct (w_dropped _); [done|]. by injection Hr as -> ->.
Qed.

(** What stops new turns, for good: a block, a stop, a call without outcome, an
    uncertain turn of the owner *)
Definition closed_for (p : OwnerPrincipal) (c : string) (s : Service) : Prop :=
  sv_blocked s = true \/ sv_stopping s = true \/ unresolved c (rows (sv_audit s)) \/
  exists i r, requests (db (ad_store (sv_budget s))) !! i = Some r /\ r_owner r = owner_id p /\ is_turn r = true /\
    visible (db (ad_store (sv_budget s))) r = true /\ state r = UNCERTAIN.

Lemma visible_has (a : Adapter) (r : Request T) :
  visible (db (ad_store a)) r = true <-> has_thread (r_owner r) (thread_id r) (ad_store a).
Proof using. unfold visible, has_thread. destruct (find_thread _ _ _); split; done || (by intros [? ?]). Qed.

Lemma unresolved_keptc c s s' : keptc (eq c) s s' -> unresolved c (rows (sv_audit s)) -> unresolved c (rows (sv_audit s')).
Proof using.
  intros K [(row & Hin & Hi) Hq]. split; [|by apply (kp_quiet _ _ _ _ K)]. exists row. split; [|done].
  eapply elem_of_prefix; [exact Hin|apply K].
Qed.

Lemma closed_kept p c s s' : keptc (eq c) s s' -> store_ok (ad_store (sv_budget s)) -> closed_for p c s -> closed_for p c s'.
Proof using.
  intros K Hok [Hb|[Hs|[Hun|(i & r & Hi & Ho & Ht & Hv & Hu)]]].
  - left. by apply (kp_blocked _ _ _ _ K).
  - right; left. by apply (kp_stopping _ _ _ _ K).
  - right; right; left. by eapply unresolved_keptc.
  - right; right; right. destruct (moves_row _ _ _ _ _ _ _ _ _ (kp_budget _ _ _ _ K) Hok Hi) as (q & Hq & Hag).
    rewrite (ag_final _ _ Hag ltac:(by rewrite Hu)) in Hq. exists i, r. split_and!; try done.
    apply visible_has. apply visible_has in Hv. destruct (kp_budget _ _ _ _ K) as (ops & qops & Hm).
    rewrite (mv_store _ _ _ _ _ _ _ _ _ Hm). by apply execs_has_thread.
Qed.

Lemma keptc_ok cs s s' : keptc cs s s' -> store_ok (ad_store (sv_budget s)) -> store_ok (ad_store (sv_budget s')).
Proof using. intros K. apply (moves_ok _ _ _ _ _ _ _ (kp_budget _ _ _ _ K)). Qed.

Abbreviation mlem cs sil lem := (lem moves (moves_framed time_time uuid_hex iso model_dump model_validate w_others) cs meanwhile_moves sil).

Lemma view_ok rec v : view iso model_validate rec = Ok v ->
  vw_replayed v = replayed rec /\ vw_request_id v = request_id (record rec) /\
  vw_task_id v = default ""%string (task_id (record rec)) /\ vw_thread_id v = thread_id (record rec).
Proof using.
  unfold view. intros Hv. apply result_bind_ok in Hv as (rep & _ & Hv). apply result_bind_ok in Hv as (resp & _ & Hv).
  apply result_bind_ok in Hv as (u & _ & [= <-]). done.
Qed.

Lemma closed_uncertain p c s u s' :
  (forall n op, MwAudit op ∈ w_meanwhile n -> silent c op) ->
  store_ok (ad_store (sv_budget s)) -> closed_for p c s -> require_certain p s = (Ok u, s') -> False.
Proof using w_others.
  intros Hsil Hok Hc (s1 & -> & -> & Hp & Hb & Hst & Hun)%certain_ok.
  assert (forall c' n op, eq c c' -> MwAudit op ∈ w_meanwhile n -> silent c' op) as Hs by (intros ? n op <-; apply Hsil).
  assert (keptc (eq c) s (pass s)) as K1 by apply (mlem (eq c) Hs (@kept_pass)).
  assert (keptc (eq c) (pass s) (pass (pass s))) as K2 by apply (mlem (eq c) Hs (@kept_pass)).
  destruct Hc as [Hx|[Hx|[Hx|(i & r & Hi & Ho & Ht & Hv & Hu)]]].
  - by rewrite (kp_blocked _ _ _ _ K2 (kp_blocked _ _ _ _ K1 Hx)) in Hb.
  - by rewrite (kp_stopping _ _ _ _ K2 (kp_stopping _ _ _ _ K1 Hx)) in Hst.
  - apply (unresolved_keptc _ _ _ K1), unresolved_pending in Hx. by apply Hx.
  - eapply Hun; [by eapply list_elem_of_lookup_2|done..].
Qed.

(** Nothing started between the two states: the task is the one there was, and
    if the others admit no turn, there is none more in the store. *)
Record unstarted (s s' : Service) : Prop := {
  un_execution : forall x', sv_execution s' = Some x' -> exists x, sv_execution s = Some x /\ (task_done x = true -> x' = x);
  un_active : sv_active s' = sv_active s;
  un_turns : (forall n op, MwAdapter (OutStore op) ∈ w_meanwhile n -> is_admit op = false) ->
    turn_keys (db (ad_store (sv_budget s'))) = turn_keys (db (ad_store (sv_budget s)));
}.

Lemma same_task (s s' : Service) x' : sv_execution s' = sv_execution s -> sv_execution s' = Some x' ->
  exists x, sv_execution s = Some x /\ (task_done x = true -> x' = x).
Proof using. intros -> Hx. by exists x'. Qed.

#[export] Instance unstarted_preorder : PreOrder unstarted.
Proof using.
  split; [intros s; split; [by intros x'; apply same_task|done..]|]. intros s1 s2 s3 [X1 A1 T1] [X2 A2 T2].
  split; [|congruence|intros Hn; by rewrite T2, T1].
  intros x3 (x2 & H2 & D2)%X2. destruct (X1 _ H2) as (x1 & H1 & D1). exists x1. split; [done|].
  intros Hd. rewrite D2; [by apply D1|by rewrite D1].
Qed.

(** What leaves the task alone or ends it, and keeps the store *)
Lemma unstarted_aside s s' : db (ad_store (sv_budget s')) = db (ad_store (sv_budget s)) -> sv_active s' = sv_active s ->
  sv_execution s' = sv_execution s -> unstarted s s'.
Proof using. intros Hb Ha Hx. split; [intros x'; by apply same_task|done|by rewrite Hb]. Qed.

Lemma unstarted_task f s : (forall x, task_done x = true -> f x = x) -> unstarted s (on_execution f s).
Proof using.
  intros Hf. split; [|done..]. cbn. destruct (sv_execution s) as [x|]; [|done]. intros x' [= <-]. exists x. split; [done|apply Hf].
Qed.

Lemma unstarted_meanwhile n s o : o ∈ w_meanwhile n -> unstarted s (meanwhile_exec s o).
Proof using.
  intros Ho. destruct o as [o|op| | |r c|w|l| |]; cbn [OwnerService.meanwhile_exec]; try by apply unstarted_aside.
  - split; [by intros x'; apply same_task|done|]. intros Hn. destruct o as [op|o|]; [|cbn; unfold revoke_object; by destruct (List.find _ _)|done].
    apply exec_turn_keys. by eapply Hn.
  - unfold stop_fence, revoke_current. cbn. destruct (sv_lease s); apply unstarted_aside; try done.
    cbn. unfold revoke_object. by destruct (List.find _ _).
  - by apply unstarted_task; intros [].
  - by apply unstarted_task; intros [].
Qed.

Lemma unstarted_pass s : unstarted s (pass s).
Proof using.
  unfold OwnerService.pass. assert (unstarted s (next_step s)) as H1 by by apply unstarted_aside.
  assert (forall os s1, (forall o, o ∈ os -> o ∈ w_meanwhile (sv_awaits s)) -> unstarted s s1 -> unstarted s (foldl meanwhile_exec s1 os)) as Hos.
  { induction os as [|o os IH]; intros s1 Hin Hs1; [done|]. apply IH; [intros o' Ho; apply Hin; by right|].
    etransitivity; [exact Hs1|]. apply (unstarted_meanwhile (sv_awaits s)), Hin. by left. }
  by apply Hos.
Qed.

Lemma unstarted_waiting {A} s0 (m : nat -> py Service A) : (forall n s, unstarted s (m n s).2) -> preserves (unstarted s0) (waiting m).
Proof using.
  intros Hm. apply preserves_snd. intros s Hs. etransitivity; [exact Hs|]. unfold OwnerService.waiting. specialize (Hm (sv_awaits s) s).
  destruct (w_interrupt _); [destruct (m (sv_awaits s) s) as [x s1]|..]; (etransitivity; [|apply unstarted_pass]); done.
Qed.

Lemma unstarted_store {A} s0 (f : nat -> py (OwnerPilotStore T) A) :
  (forall n, reads (f n) \/ forall s, exists op, is_admit op = false /\ (f n s).2 = store_exec s op) -> preserves (unstarted s0) (store_call f).
Proof using.
  intros Hf. apply unstarted_waiting. intros n s. unfold on_budget, on_store.
  assert (turn_keys (db (f n (ad_store (sv_budget s))).2) = turn_keys (db (ad_store (sv_budget s)))) as Hk.
  { destruct (Hf n) as [Hr|Hop]; [by rewrite Hr|]. destruct (Hop (ad_store (sv_budget s))) as (op & Ha & ->). by apply exec_turn_keys. }
  destruct (f n _) as [x st]. split; [by intros x'; apply same_task|done|by intros _].
Qed.

Lemma unstarted_certain s0 p : preserves (unstarted s0) (require_certain p).
Proof using.
  unfold OwnerService.require_certain, OwnerService.uncertainty.
  repeat lazymatch goal with
  | |- preserves _ (mbind _ _) => apply preserves_bind; [|intros ?]
  | |- preserves _ (OwnerService.store_call _ _ _ _ _ _ _ _) => apply unstarted_store; intros ?; left; apply reads_uncertainty
  | |- preserves _ (catch_exception _ _) => apply preserves_catch_exception; [|intros ?; apply preserves_raise]
  | |- preserves _ (OwnerService.audit_call _ _ _ _ _ _ _ _ _) => apply unstarted_waiting; intros ? ?
  | |- preserves _ get => apply (preserves_gets _ id)
  | |- preserves _ _ => first [apply preserves_ret|apply preserves_lift]
  end.
  destruct (w_log _); [|reflexivity]. unfold on_audit. destruct (has_pending_calls _). by apply unstarted_aside.
Qed.

Lemma unstarted_scope s0 p : preserves (unstarted s0) (scope p).
Proof using.
  unfold OwnerService.scope, owner_check.
  repeat lazymatch goal with
  | |- preserves _ (mbind _ _) => apply preserves_bind; [|intros ?]
  | |- preserves _ (OwnerService.store_call _ _ _ _ _ _ _ _) => apply unstarted_store; intros n; right; intros ?; by exists (OpWorkspace (w_store n) p)
  | |- preserves _ (modify _) => apply preserves_modify; intros ? ?; etransitivity; [eassumption|by apply unstarted_aside]
  | |- preserves _ (gets _) => apply preserves_gets
  | |- preserves _ _ => first [apply preserves_ret|apply preserves_lift]
  end.
Qed.

(** The request that the submission looks up *)
Abbreviation looked_up p q := (catch (r ← store_call (fun n => get_request (w_store n) p (tr_request_id q)); mret (Some r))
  (fun e => match e with
            | PilotError code _ _ => if String.eqb code "not_found" then mret None else raise e
            | _ => raise e
            end)).

Lemma unstarted_lookup s0 p q : preserves (unstarted s0) (looked_up p q).
Proof using.
  apply preserves_catch.
  - apply preserves_bind; [|intros; apply preserves_ret]. apply unstarted_store. intros n. left. apply reads_request.
  - intros e. destruct e; try apply preserves_raise. destruct (String.eqb _ _); [apply preserves_ret|apply preserves_raise].
Qed.

Lemma keep_lookup cs (sil : forall c n op, cs c -> MwAudit op ∈ w_meanwhile n -> silent c op) s0 p q : preserves (keptc cs s0) (looked_up p q).
Proof using w_others.
  apply preserves_catch.
  - apply preserves_bind; [|intros; apply preserves_ret]. apply (mlem cs sil (@keep_store_call)). intros n. left. apply reads_request.
  - intros e. destruct e; try apply preserves_raise. destruct (String.eqb _ _); [apply preserves_ret|apply preserves_raise].
Qed.

(** C11: An uncertain gateway starts nothing: once it is blocked or stopping, or
    a call has no outcome in the log, or a turn of the owner is uncertain, a
    submission raises or answers with the replay of an earlier request; either
    way it makes no task, the active turn is the one there was, and the store
    has no turn more than others admitted meanwhile.  This as long as nobody
    writes the call's outcome; what else the others do and when does not matter. *)
Theorem uncertainty_starts_nothing p c q s x s' :
  (forall n op, MwAudit op ∈ w_meanwhile n -> silent c op) ->
  store_ok (ad_store (sv_budget s)) -> closed_for p c s -> submit p q s = (x, s') ->
  unstarted s s' /\ ((exists e, x = Err e) \/ exists v, x = Ok (v, None) /\ vw_replayed v = true).
Proof using w_others.
  intros Hsil Hok Hc Hr. set (I1 := fun s1 => unstarted s s1 /\ closed_for p c s1 /\ store_ok (ad_store (sv_budget s1))).
  assert (I1 s) as HI by by split.
  assert (forall c' n op, eq c c' -> MwAudit op ∈ w_meanwhile n -> silent c' op) as Hs by (intros ? n op <-; apply Hsil).
  assert (forall {A} (m : py Service A), (forall s0, preserves (unstarted s0) m) -> (forall s0, preserves (keptc (eq c) s0) m) -> preserves I1 m) as Hboth.
  { intros A m Hu Hk. apply preserves_snd. intros s1 (H1 & H2 & H3).
    pose proof (preserves_run _ m s1 (Hk s1) ltac:(reflexivity)) as K. split; [by apply (preserves_run _ m s1 (Hu s))|].
    split; [by eapply closed_kept|by eapply keptc_ok]. }
  set (P := fun (r : result (OwnerTaskView * option (Request T))) s1 =>
              unstarted s s1 /\ ((exists e, r = Err e) \/ exists v, r = Ok (v, None) /\ vw_replayed v = true)).
  assert (forall e s1, I1 s1 -> P (Err e) s1) as HE by (intros e s1 [H1 _]; split; [done|left; by eexists]).
  assert (wp (submit_body p q) (fun v => P (Ok v)) (fun e => P (Err e)) s) as Hbody.
  { unfold OwnerService.submit_body, OwnerService.gated.
    apply wp_bind, (wp_preserves I1); [apply Hboth; intros s0|exact HI|exact HE|intros _ s1 _ H1].
    { apply unstarted_waiting. by intros n s1. }
    { apply (mlem (eq c) Hs (@keep_waiting)). intros. apply preserves_ret. }
    apply wp_bind, (wp_preserves I1); [apply Hboth; intros s0; [apply unstarted_scope|apply (mlem (eq c) Hs (@keep_scope))]|exact H1|exact HE|].
    intros _ s2 _ H2. apply wp_bind, wp_gets, wp_bind, wp_raise_when; [intros _; by apply HE|intros _].
    apply wp_bind, (wp_preserves I1); [apply Hboth; intros s0; [apply unstarted_lookup|by apply keep_lookup]|exact H2|exact HE|].
    intros [rec|] s3 _ H3.
    - apply wp_bind, wp_raise_when; [intros _; by apply HE|intros _]. apply wp_bind, wp_lift; [|intros e _; by apply HE].
      intros v Hv. apply wp_ret. split; [apply H3|right]. exists v. split; [done|]. by apply view_ok in Hv as [-> _].
    - apply wp_bind, wp_gets, wp_bind, wp_raise_when; [intros _; by apply HE|intros _].
      apply wp_bind, (wp_preserves I1); [apply Hboth; intros s0; [apply unstarted_certain|apply (mlem (eq c) Hs (@keep_certain))]|exact H3|exact HE|].
      intros u s4 Hu _. exfalso. destruct H3 as (_ & Hc3 & Hok3). by eapply closed_uncertain. }
  change (P x s'). unfold OwnerService.submit in Hr. apply py_bind_cases in Hr as [(e & ->%owner_same & ->)|(u & s1 & ->%owner_same & Hr)]; [by apply HE|].
  rewrite bind_lift in Hr. destruct (turn_request _ _); [|injection Hr as <- <-; by apply HE].
  unfold retain, wp in Hr, Hbody. destruct (submit_body p q s) as [r s1].
  assert (P r s1) as [Hu Hp] by by destruct r. injection Hr as <- <-. split; [exact Hu|].
  destruct (w_dropped _); [left; by eexists|exact Hp].
Qed.

(** The owner's request of this id, at whichever age *)
Definition request_at (p : OwnerPrincipal) (rid : string) (r0 : Request T) (s : Service) : Prop :=
  store_ok (ad_store (sv_budget s)) /\ exists i r, requests (db (ad_store (sv_budget s))) !! i = Some r /\ aged r0 r /\
    r_owner r = owner_id p /\ request_id r = rid.

Lemma request_kept cs p rid r0 s s' : keptc cs s s' -> request_at p rid r0 s -> request_at p rid r0 s'.
Proof using.
  intros K (Hok & i & r & Hi & Hag & Ho & Hr). split; [by eapply keptc_ok|].
  destruct (moves_row _ _ _ _ _ _ _ _ _ (kp_budget _ _ _ _ K) Hok Hi) as (q & Hq & Hag').
  destruct (ag_same _ _ Hag') as (_ & Hqo & Hqr & _).
  exists i, q. split_and!; [done|by eapply aged_trans|congruence|congruence].
Qed.

Lemma request_found p rid r0 s r :
  request_at p rid r0 s -> r ∈ requests (db (ad_store (sv_budget s))) -> r_owner r = owner_id p -> request_id r = rid ->
  same_request r0 r.
Proof using.
  intros (Hok & i & r' & Hi & Hag & Ho & Hr) [j Hj]%list_elem_of_lookup_1 Ho' Hr'.
  assert (i = j) as -> by (eapply (ok_keyed _ Hok); [exact Hi|exact Hj|congruence|congruence]).
  assert (r = r') as -> by congruence. apply Hag.
Qed.

(** Resubmission: a request id that the owner used before never starts
    another turn: submitting it again raises, or answers with the replayed view
    of that very request, whatever the service is doing and whatever the others
    do meanwhile. *)
Theorem resubmission_starts_nothing p q r s x s' :
  store_ok (ad_store (sv_budget s)) -> r ∈ requests (db (ad_store (sv_budget s))) ->
  r_owner r = owner_id p -> request_id r = tr_request_id q -> submit p q s = (x, s') ->
  (exists e, x = Err e) \/
  exists v, x = Ok (v, None) /\ vw_replayed v = true /\ vw_request_id v = request_id r /\
    vw_task_id v = default ""%string (task_id r) /\ vw_thread_id v = thread_id r.
Proof using w_others.
  intros Hok [i Hi]%list_elem_of_lookup_1 Ho Hrid Hr. destruct x as [[v o]|e]; [right|left; by eexists].
  apply submit_ok in Hr. unfold OwnerService.submit_body, OwnerService.gated in Hr. set (R0 := request_at p (tr_request_id q) r).
  assert (R0 s) as H0 by (split; [done|]; exists i, r; split_and!; [done|apply aged_refl|done|done]).
  assert (forall {A} (m : py Service A) y s1 s2, (forall s0, preserves (keptc (fun _ => False) s0) m) -> m s1 = (y, s2) -> R0 s1 -> R0 s2) as Hstep.
  { intros A m y s1 s2 Hm Hrun. apply (request_kept (fun _ => False)). exact (kept_after moves _ _ _ _ _ Hm Hrun). }
  py_step Hr u1 s1 H1. apply Hstep in H1; [|intros s0; apply (mlem _ nothing_silent (@keep_waiting)); intros; apply preserves_ret|done].
  py_step Hr u2 s2 H2. apply Hstep in H2; [|intros s0; apply (mlem _ nothing_silent (@keep_scope))|done].
  rewrite bind_gets in Hr. py_step Hr u3 s3 H3. py_step Hr old s4 H4.
  assert (forall rec b w, same_request r (record rec) -> view iso model_validate (mk_Record (record rec) b) = Ok w ->
            vw_replayed w = b /\ vw_request_id w = request_id r /\ vw_task_id w = default ""%string (task_id r) /\ vw_thread_id w = thread_id r) as Hview.
  { intros rec b w Hs Hv. apply view_ok in Hv as (-> & -> & -> & ->). cbn. destruct Hs as (_ & _ & -> & _ & _ & _ & -> & -> & _). done. }
  assert (R0 s4) as H4'.
  { eapply Hstep; [|exact H4|done]. intros s0. apply (keep_lookup _ nothing_silent). }
  destruct old as [rec|].
  - py_step Hr u5 s5 H5. py_step Hr w s6 H6. injection Hr as <- <- _. exists w. split; [done|]. apply (Hview rec); [|done].
    apply catch_cases in H4 as [(o' & H4 & [= <-])|(e & s7 & _ & H4)].
    2: { destruct e; try done. by destruct (String.eqb _ _). }
    py_step H4 rec' s7 H7. injection H4 as -> _. apply read_call_ok in H7 as [H7 _]; [|intros; apply reads_request].
    unfold get_request in H7. py_step H7 u8 s8 H8. py_step H7 u9 s9 H9.
    apply run_cases in H7 as [(e & ? & _)|(z & [= <-] & H7)]; [done|]. py_step H7 row s10 H10. injection H7 as <- _.
    apply request_row_ok in H10 as (_ & Hin & Hro & Hrr). exact (request_found _ _ _ _ _ H2 Hin Hro Hrr).
  - rewrite bind_gets in Hr. py_step Hr u5 s5 H5. py_step Hr u6 s6 H6.
    apply Hstep in H6; [|intros s0; apply (mlem _ nothing_silent (@keep_certain))|done].
    py_step Hr rec s7 H7. apply store_call_ok in H7 as (st & H7 & ->).
    assert (replayed rec = true /\ same_request r (record rec)) as [Hrep Hsame].
    { unfold admit_turn in H7. py_step H7 a1 b1 G1. py_step H7 a2 b2 G2. py_step H7 a3 b3 G3. py_step H7 a4 b4 G4. py_step H7 a5 b5 G5.
      apply run_cases in H7 as [(e & ? & _)|(z & [= <-] & H7)]; [done|]. py_step H7 t b6 G6. apply thread_ok in G6 as ->.
      rewrite bind_gets in H7. destruct (find_request _ _ _) as [old|] eqn:Hf.
      - py_step H7 a6 b7 G7. injection H7 as <- _. split; [done|]. apply find_request_some in Hf as (Hin & Hfo & Hfr).
        exact (request_found _ _ _ _ _ H6 Hin Hfo Hfr).
      - exfalso. destruct H6 as (_ & j & r' & Hj & _ & Hjo & Hjr). eapply find_request_none; [exact Hf|by eapply list_elem_of_lookup_2|done]. }
    rewrite Hrep in Hr. py_step Hr u8 s8 H8. py_step Hr w s9 H9. injection Hr as <- <- _. exists w. split; [done|].
    apply (Hview rec); [done|]. rewrite <- Hrep. by destruct rec.
Qed.
End Submission.
End Turns.
