(* ===== verification/OwnerLoop.v ===== *)
(** * A turn end to end

    [OwnerService] with the tool loop it drives: [ToolDriver.run] over the
    registry that [_perform] builds and the metered model, on the gateway's own
    adapter, log and attributes.  The theorems of [OwnerTurns] hold of it, so
    that nothing is assumed of the loop. *)
From Stdlib Require Import SpecFloat.
From S2P Require Import BudgetStore Llm.
From S2P Require Import Prelude PyStr PyDict PyJson Identity AuditTrail Sha256 Assessment.
From S2P Require Import Tools ToolRegistry Calculator ToolDriver Metered OwnerTools OwnerModels.
From S2P Require Import AdmissionModels AdmissionStore AdmissionLife AdmissionTheorems OwnerBudget OwnerBudgetLife OwnerBudgetSafety.
From S2P Require Import OwnerService OwnerTurns.

Section Loop.
Context {T Seconds : Type} `{Clock T} (time_time : nat -> T) (uuid_hex : nat -> string) (iso : T -> string).
Context (model_dump : ExecutionAssessment -> json) (model_validate : json -> result ExecutionAssessment).
Context (w_sql : nat -> sql_outcome) (w_io : nat -> bool) (w_reading : nat -> option T).
Context (w_token w_lease_token : nat -> string) (w_others : nat -> list outside) (w_cancelled : nat -> bool).
Context (w_meanwhile : nat -> list (meanwhile (T:=T))).

Abbreviation Service := (OwnerPilotService (T:=T)).
Abbreviation Adapter := (OwnerBudgetAdapter T).
Abbreviation Grant := (OwnerExecutionGrant T).
Abbreviation World := (Adapter * Service)%type.
Abbreviation meanwhile_exec := (meanwhile_exec time_time uuid_hex iso model_dump model_validate).

(** The loop's awaits *)
Context (w_main w_own : nat -> Connection) (w_id : nat -> string) (w_stamp : nat -> stamp) (w_call_id : nat -> string).
Context (w_duration : nat -> Z) (w_interrupt : nat -> interrupt) (w_text : ToolFailure -> string) (w_ending : nat -> ending).
(** Python's own functions *)
Context (parse_float : string -> string) (limit : nat) (w_exc exc_name : exn -> string) (py_eq : json -> json -> bool).
Context (float_repr : spec_float -> string) (prompt_text : Prompt -> string).
Context (urlsplit : string -> option Endpoint) (is_loopback : string -> option bool) (env : Env).
Context (ast_parse : string -> result node).
(** The exchange with the provider, the clock and the web search *)
Context (post : Llm.Request -> py World json) (clock : World -> result stamp * World) (astimezone_utc : stamp -> stamp).
Context (web_search : Tool (G:=Grant) (W:=World) (Seconds:=Seconds)) (default_timeout : Seconds).

(** ** The world of the loop: the adapter, and the gateway around it *)

Definition joined (w : World) : Service := set_budget w.1 w.2.

Definition audit_of_other (o : meanwhile (T:=T)) : option audit_op := match o with MwAudit op => Some op | _ => None end.
Definition on_gateway (o : meanwhile (T:=T)) : bool := match o with MwAudit _ => false | _ => true end.

(** What others do at an await of the loop, to the log and to the rest *)
Definition others_log (n : nat) : list audit_op := omap audit_of_other (w_meanwhile n).
Definition others_world (n : nat) (w : World) : World :=
  let s := foldl meanwhile_exec (joined w) (List.filter on_gateway (w_meanwhile n)) in (sv_budget s, s).

(** The turn's grant is one object, its lease's. *)
Definition same (g g' : Grant) : bool := lease_object (g_lease g) =? lease_object (g_lease g').

Definition no_beta (b : MeteredBinding) : py Service bool := mret false.
#[local] Instance gate : OwnerGate Grant World :=
  owner_gate (X:=Service) time_time uuid_hex iso model_dump model_validate w_sql w_others w_cancelled.
#[local] Instance budget : ModelBudget Grant World :=
  owner_models (X:=Service) time_time uuid_hex iso model_dump model_validate w_sql w_io w_reading w_others w_cancelled no_beta.

Abbreviation State := (State (G:=Grant) (W:=World) (Seconds:=Seconds)).
Abbreviation Registry := (ToolRegistry (G:=Grant) (W:=World) (Seconds:=Seconds)).
Definition nobody_suspends (n : nat) : bool := false.

(** [ToolRegistry(owner_policy=OwnerToolPolicy(), audit=self._audit)] with its tools *)
Definition owner_registry : result Registry :=
  r ← new_registry (Some BetaAudit) default_timeout None true;
  r ← register (CalculatorTool ast_parse float_repr) r;
  r ← register (UtcTimeTool clock astimezone_utc) r;
  register web_search r.

(** The context of a question, as [generate] gets it *)
Definition llm_dict (c : LlmContext (G:=Grant)) : list (string * CtxValue (G:=Grant)) :=
  match lc_grant c with Some g => [("owner_grant"%string, CGrant g)] | None => [] end ++
  [("task_id", CJson (JStr (lc_task c))); ("strict", CJson (JBool true))]%string ++
  match lc_principal c with Some p => [("beta_principal"%string, CPrincipal p)] | None => [] end.

Definition metered_generate (m : MeteredModel (G:=Grant)) (p : Prompt) (c : LlmContext) : py State string :=
  Metered.generate w_main w_own w_id w_stamp w_call_id w_interrupt others_log others_world nobody_suspends same exc_name
    (fun _ => mm_issued m) urlsplit is_loopback post float_repr parse_float limit env w_ending m (prompt_text p) (Some (llm_dict c)).

Definition loop_model (m : MeteredModel (G:=Grant)) : Model :=
  mk_Model true (match mm_grant m with Some g => OwnerBinding g | None => NoBinding end) (Some BetaAudit) (metered_generate m).

Definition loop_context (g : Grant) : ToolContext Grant :=
  mk_ToolContext "owner-pilot" (l_task_id (g_lease g)) false false false (Some BetaAudit) None (Some g).

(** The gateway as the loop sees it, and back *)
Definition enter_loop (r : ToolRegistry) (s : Service) : State := mk_State r (sv_audit s) (sv_budget s, s) (sv_awaits s) [].
Definition leave_loop (st : State) : Service :=
  let s := joined (world st) in
  mk_Service (sv_budget s) (log st) (sv_ready s) (sv_closed s) (sv_stopping s) (sv_blocked s) (sv_workspace s) (sv_lease s)
    (sv_execution s) (sv_active s) (steps st).

(** [ToolDriver(registry, model).run(...)] of [execute_owner_request]; the loop
    always answers or raises ([loop_answers]). *)
Definition owner_drive (m : MeteredModel (G:=Grant)) (message instructions : string) (g : Grant) (budget : Z)
    : py Service ToolLoopResult := fun s =>
  match owner_registry with
  | Err e => (Err e, s)
  | Ok r =>
      let '(x, st) := ToolDriver.run w_main w_own w_id w_stamp w_call_id w_duration w_interrupt others_log others_world
                        nobody_suspends w_text parse_float limit w_exc py_eq same (loop_model m) message instructions
                        (loop_context g) budget (enter_loop r s) in
      (match x with
       | Ok (Some out) => Ok out
       | Ok None => Err RuntimeError   (* never: [loop_answers] *)
       | Err e => Err e
       end, leave_loop st)
  end.

(** ** What the loop keeps *)

(** The exchange, the clock and the search touch nothing of the gateway, and the
    exchange raises no denial of the wrapper's. *)
Context (post_apart : forall rq w, (post rq w).2 = w) (post_sane : forall rq w, (post rq w).1 <> Err MeteredDenied).
Context (clock_apart : forall w, (clock w).2 = w).
Context (search_apart : forall timeout args ctx w, (t_run web_search timeout args ctx w).2 = w).

Abbreviation Framed := (Framed time_time uuid_hex iso model_dump model_validate w_others).
Abbreviation outside_exec := (outside_exec time_time uuid_hex iso model_dump model_validate).

Section Frame.
Context (R : relation Adapter) `{!Framed R}.
Context (others_framed : forall n o a, MwAdapter o ∈ w_meanwhile n -> R a (outside_exec a o)).

Abbreviation kept := (kept R (fun _ => False)).

(** The world of the loop moves as the gateway does. *)
Record world_moves (w w' : World) : Prop := {
  wm_budget : R w.1 w'.1;
  wm_blocked : sv_blocked w.2 = true -> sv_blocked w'.2 = true;
  wm_stopping : sv_stopping w.2 = true -> sv_stopping w'.2 = true;
}.

#[local] Instance world_moves_preorder : PreOrder world_moves.
Proof using Framed0.
  split; [intros w; split; [reflexivity|done..]|]. intros w1 w2 w3 [H1 H2 H3] [H1' H2' H3'].
  split; [by etransitivity|auto..].
Qed.

Lemma nothing_silent' (c : string) (n : nat) (op : audit_op) : False -> MwAudit op ∈ w_meanwhile n -> silent c op.
Proof using. done. Qed.

Lemma others_move n w : world_moves w (others_world n w).
Proof using Framed0 others_framed.
  unfold others_world. set (os := List.filter _ _).
  assert (kept (joined w) (foldl meanwhile_exec (joined w) os)) as [Hb _ _ Hbl Hst _]; [|by split].
  apply (kept_others _ _ _ _ _ _ _ R _ others_framed nothing_silent' n). intros o [Ho _]%list_elem_of_In%filter_In.
  by apply list_elem_of_In.
Qed.

Lemma adapter_moves {A} (m : py Adapter A) w : (forall a0, preserves (R a0) m) -> world_moves w (on_adapter m w).2.
Proof using Framed0.
  intros Hm. pose proof (preserves_run _ m w.1 (Hm w.1) ltac:(reflexivity)) as Ha.
  unfold on_adapter. destruct (m w.1) as [r a]. by split.
Qed.

Lemma apart_moves w w' : w' = w -> world_moves w w'.
Proof using Framed0. by intros ->. Qed.

Lemma gate_check g w : world_moves w (og_check g w).2.
Proof using Framed0. apply adapter_moves. intros a0. exact (keep_grant _ _ _ _ _ _ R a0 g). Qed.
Lemma gate_live g w : world_moves w (og_live g w).2.
Proof using Framed0. apply adapter_moves. intros a0. exact (keep_owns _ _ _ _ _ _ R a0 _). Qed.
Lemma gate_active g w : world_moves w (og_active g w).2.
Proof using Framed0. apply adapter_moves. intros a0. by apply keep_active. Qed.
Lemma gate_tool g name w : world_moves w (og_reserve g name w).2.
Proof using Framed0. apply adapter_moves. intros a0. by apply keep_tool. Qed.
Lemma budget_model g w : world_moves w (mg_reserve g w).2.
Proof using Framed0. apply adapter_moves. intros a0. by apply keep_model. Qed.
Lemma budget_beta b w : world_moves w (mg_reserve_beta b w).2.
Proof using Framed0. by apply apart_moves; destruct w. Qed.

Lemma register_in (t : Tool) (r r' : Registry) : reg_in world_moves r -> (forall timeout args ctx w, world_moves w (t_run t timeout args ctx w).2) ->
  register t r = Ok r' -> reg_in world_moves r'.
Proof using.
  unfold register. intros [Hin Hp] Ht. destruct (dmem _ _); [done|]. intros [= <-]. split; [|exact Hp].
  cbn. intros name t' timeout args ctx w. rewrite dget_dset. destruct (decide _) as [<-|]; [by intros [= <-]|by apply Hin].
Qed.

Lemma search_world timeout args ctx w : world_moves w (t_run web_search timeout args ctx w).2.
Proof using Framed0 search_apart. apply apart_moves, search_apart. Qed.

Lemma clock_world timeout args ctx w :
  world_moves w (t_run (UtcTimeTool (G:=Grant) (Seconds:=Seconds) clock astimezone_utc) timeout args ctx w).2.
Proof using Framed0 clock_apart.
  apply apart_moves. cbn. unfold tell_time. pose proof (clock_apart w) as Hc.
  destruct args as [| | | | | |l|]; try done. destruct l; [|done].
  destruct (clock w) as [[m|e] w']; cbn in *; [by destruct (bool_decide _)|done].
Qed.

Lemma registry_in (r : Registry) : owner_registry = Ok r -> reg_in world_moves r /\ strict r = true.
Proof using Framed0 clock_apart search_apart.
  unfold owner_registry. intros (r0 & H0 & (r1 & H1 & (r2 & H2 & H3)%result_bind_ok)%result_bind_ok)%result_bind_ok.
  injection H0 as <-. split.
  - eapply register_in; [|apply search_world|exact H3]. eapply register_in; [|apply clock_world|exact H2].
    eapply (register_in (CalculatorTool ast_parse float_repr)); [|intros timeout args ctx w; by apply apart_moves|exact H1]. split; by intros.
  - unfold register in *. destruct (dmem _ _) in H1; [done|]. injection H1 as <-. destruct (dmem _ _) in H2; [done|]. injection H2 as <-.
    destruct (dmem _ _) in H3; [done|]. by injection H3 as <-.
Qed.

Lemma model_moves m : model_in world_moves (loop_model m).
Proof using Framed0 others_framed post_apart post_sane.
  intros p c s. cbn [loop_model md_generate]. destruct (metered_generate m p c s) as [x s'] eqn:Hr. cbn [snd].
  assert (forall rq w, world_moves w (post rq w).2) as Hpost by (intros rq w; apply apart_moves, post_apart).
  destruct (generate_run w_main w_own w_id w_stamp w_call_id w_interrupt others_log others_world nobody_suspends same exc_name
    (fun _ => mm_issued m) urlsplit is_loopback post float_repr parse_float limit env w_ending world_moves (fun _ => False)
    others_move gate_check gate_active budget_model budget_beta Hpost (fun _ _ _ f => match f with end) post_sane
    m (prompt_text p) (Some (llm_dict c)) s x s' Hr) as [[[Hg _ _] _]|(cid & en & Hd & _)].
  - by exists [].
  - exists [en]. split; [|exact (ds_grows _ _ _ _ _ _ _ _ _ _ _ Hd)].
    unfold bodies. cbn. by rewrite (ds_model _ _ _ _ _ _ _ _ _ _ _ Hd).
Qed.

Lemma loop_runs m message instructions g k s (r : Registry) x st :
  owner_registry = Ok r ->
  ToolDriver.run w_main w_own w_id w_stamp w_call_id w_duration w_interrupt others_log others_world nobody_suspends w_text
    parse_float limit w_exc py_eq same (loop_model m) message instructions (loop_context g) k (enter_loop r s) = (x, st) ->
  x <> Ok None /\ kept s (leave_loop st).
Proof using Framed0 others_framed post_apart post_sane clock_apart search_apart.
  intros Hr Hrun. destruct (registry_in r Hr) as [Hin _].
  apply (run_run _ _ _ _ _ _ _ _ _ _ _ _ _ _ _ _ world_moves others_move gate_check gate_live gate_active gate_tool) in Hrun
    as (Hx & l & [_ Hrows [Hb Hbl Hst] _ Hsteps] & _); [|exact Hin|apply model_moves].
  split; [exact Hx|]. by split.
Qed.

Lemma keep_drive m message instructions g k s0 : preserves (kept s0) (owner_drive m message instructions g k).
Proof using Framed0 others_framed post_apart post_sane clock_apart search_apart.
  apply preserves_snd. intros s Hs. unfold owner_drive. destruct owner_registry as [r|e] eqn:Hr; [|exact Hs].
  destruct (ToolDriver.run _ _ _ _ _ _ _ _ _ _ _ _ _ _ _ _ _ _ _ _ _ _) as [x st] eqn:Hrun.
  apply loop_runs in Hrun as [_ K]; [|done]. cbn [snd]. by etransitivity.
Qed.
End Frame.

(** ** The turn *)

Context (w_store : nat -> sql_outcome) (w_log w_fenced : nat -> bool).
Context (dispatch_config : LLMDispatchSnapshot) (config_id : string) (w_expired : nat -> bool).
(** The assembly of a thread's context reads; what others do meanwhile is in [calling]. *)
Context (thread_context : string -> string -> string -> py Service string).
Context (context_apart : forall owner thread message s, (thread_context owner thread message s).2 = s).

Abbreviation moves := (moves time_time uuid_hex iso model_dump model_validate).
(** The task of [_execute] with the loop, and the part of it before the commit *)
Definition execute_turn : OwnerPrincipal -> Request T -> py Service (option exn) :=
  execute_task time_time uuid_hex iso model_dump model_validate w_sql w_io w_reading w_token w_lease_token
    w_others w_cancelled w_meanwhile w_interrupt w_store w_log w_fenced w_main w_id w_stamp urlsplit is_loopback env dispatch_config
    config_id owner_drive thread_context w_expired.

Definition staged_turn : OwnerPrincipal -> Request T -> py Service (string * ExecutionAssessment) :=
  stage_turn time_time uuid_hex iso model_dump model_validate w_sql w_io w_reading w_token w_lease_token
    w_others w_cancelled w_meanwhile w_interrupt w_store w_log w_main w_id w_stamp urlsplit is_loopback env dispatch_config
    config_id owner_drive thread_context.

Abbreviation result_logged := (result_logged w_id w_stamp).
Abbreviation found_certain := (found_certain time_time uuid_hex iso model_dump model_validate w_meanwhile).
Abbreviation settled := (settled (T:=T)).

Lemma keep_context (R : relation Adapter) o th t s0 : preserves (kept R (fun _ => False) s0) (thread_context o th t).
Proof using context_apart. apply preserves_snd. intros s Hs. by rewrite context_apart. Qed.

(** C9: Every turn settles: whatever fails, expires or is cancelled in it,
    whatever the model answers, the tools do or others do meanwhile, the task
    that executes an admitted turn ends without an exception of its own, and
    then the turn is no longer live, or the gateway is blocked.  The exception
    is the task that was cancelled before its first step: it ends cancelled and
    changes nothing, so that the turn stays as it is, and any later recovery of
    the store (the next start makes one) settles it. *)
Theorem turn_settles p row s x s' :
  store_ok (ad_store (sv_budget s)) -> turn_of p (default "" (task_id row))%string (sv_budget s) = Some row ->
  execute_turn p row s = (x, s') ->
  if from_option never_begins false (sv_execution s)
  then x = Err CancelledError /\ s' = on_execution task_end s /\
    recovery_settles time_time uuid_hex iso model_dump model_validate p row s'
  else (exists o, x = Ok o) /\ (sv_blocked s' = true \/ settled p row s').
Proof using post_apart post_sane clock_apart search_apart context_apart.
  apply task_settles; [intros; apply (keep_drive moves); intros; apply moves_outside|intros; apply keep_context].
Qed.

(** C10: Completion is gated: when nobody else publishes, a turn becomes completed
    during an execution only as the executed turn, with the text and the report
    that this run staged; and between its start and the commit this run wrote
    the gateway's own result into the audit log, and after that, in the last
    two awaits before the commit, found no turn of the owner uncertain, no call
    pending, and itself neither blocked nor stopping. *)
Theorem turn_completion_gated p row s x s' i :
  (forall n op, OutStore op ∈ w_others n -> is_commit op = false) ->
  (forall n op, MwAdapter (OutStore op) ∈ w_meanwhile n -> is_commit op = false) ->
  store_ok (ad_store (sv_budget s)) -> execute_turn p row s = (x, s') ->
  completed_turn (db (ad_store (sv_budget s'))) i -> ~ completed_turn (db (ad_store (sv_budget s))) i ->
  exists text report s1 s2 q,
    staged_turn p row (begin_execution s) = (Ok (text, report), s2) /\ result_logged s s1 /\ found_certain p s1 s2 /\
    requests (db (ad_store (sv_budget s'))) !! i = Some q /\ sequence q = sequence row /\ carries model_dump q text report.
Proof using post_apart post_sane clock_apart search_apart context_apart.
  intros Ho Hm. apply task_completion_gated; [exact Ho|exact Hm| |intros; apply keep_context].
  intros m t i' g k s0. pose proof (unpublished_framed time_time uuid_hex iso model_dump model_validate w_others Ho) as Hf.
  apply keep_drive; [exact Hf|]. intros n o a Hin. apply unpublished_outside. intros op ->. by eapply Hm.
Qed.
End Loop.

(** ** A gateway *)

Abbreviation DemoService := (OwnerPilotService (T:=Z)).

(** The echo provider repeats a prompt that is an answer; a thread has no
    committed message yet. *)
Definition answer_text : string :=
  of_chars (map (fun c => if Ascii.eqb c "'"%char then quote else c) (to_chars "{'final': 'It is noon.'}")).
Definition empty_context (owner thread message : string) : py DemoService string := mret ""%string.
Definition left_alone (n : nat) : list (meanwhile (T:=Z)) := [].
Definition echo_dispatch : LLMDispatchSnapshot := mk_Snapshot "echo" "echo" "" "" 1024 seven_tenths forty_five.
Definition demo_id (n : nat) : string := String (Ascii.ascii_of_nat (33 + n)) "".
Definition gate_stamp (n : nat) : stamp := sample_stamp n 0 (Some 0%Z).

(** The turn [r2] admitted in the thread [b0] *)
Definition open_gateway : DemoService :=
  mk_Service (first_adapter slow_time demo_uuid demo_iso demo_dump demo_validate small_limits "owner-pilot:v1" demo_admit)
    (audit_run [Initialize]) true false false false "" None None None 0.

Abbreviation DemoWorld := (OwnerBudgetAdapter Z * DemoService)%type.
Definition no_exchange (r : Llm.Request) : py DemoWorld json := raise (CallbackError "ConnectError").
Definition no_clock (w : DemoWorld) : result stamp * DemoWorld := (Err ValueError, w).
Definition no_search : Tool (G:=OwnerExecutionGrant Z) (W:=DemoWorld) (Seconds:=Z) :=
  mk_Tool (mk_ToolSpec "web_search" "" None READ_ONLY) (fun _ _ _ w => (Threw (CallbackError "ConnectError"), w)).

Abbreviation demo_execute w_log := (execute_turn slow_time demo_uuid demo_iso demo_dump demo_validate demo_sql demo_io demo_reading
  demo_token demo_token demo_others demo_cancelled left_alone (fun _ => disk) (fun _ => disk)
  demo_id gate_stamp (fun n => String (Ascii.ascii_of_nat (33 + n)) "c") (fun _ => 1%Z) (fun _ => Calm) (fun _ => ""%string)
  (fun _ => InTime) id 100 (fun _ => ""%string) (fun _ => "Exception"%string) (fun x y => bool_decide (x = y)) (fun _ => ""%string)
  (fun _ => answer_text) (fun _ => None) (fun _ => None) [] (fun _ => Err ValueError) no_exchange no_clock id no_search 30%Z
  demo_sql w_log (fun _ => false) echo_dispatch "local-echo" (fun _ => false) empty_context).

Definition turn_row : Request Z :=
  default (mk_Request 0 "" "" "" "" JNull None "" "" DENIED "" false 0 0 None None None 0 0)%Z
    (turn_of demo_owner "c0" (sv_budget open_gateway)).

Abbreviation demo_submit s rid := (submit slow_time demo_uuid demo_iso demo_dump demo_validate left_alone (fun _ => Calm)
  (fun _ => false) demo_sql (fun _ => true) "owner" demo_owner (mk_TaskRequest rid "b0" "hello") s).

(** The turn answered, the turn whose result the log did not take, and the turn
    whose task was cancelled before its first step *)
Abbreviation served := (demo_execute (fun _ => true) demo_owner turn_row open_gateway).
Abbreviation unlogged := (demo_execute (fun n => negb (n =? 25)%nat) demo_owner turn_row open_gateway).
Abbreviation unbegun := (demo_execute (fun _ => true) demo_owner turn_row (set_execution (Some (ExPending true)) (Some "c0"%string) open_gateway)).

Example gateway_ends :
  (served.1, map state (requests (db (ad_store (sv_budget served.2))))) = (Ok None, [COMPLETED; COMPLETED]) /\
  (unlogged.1, map state (requests (db (ad_store (sv_budget unlogged.2))))) = (Ok (Some SqliteError), [COMPLETED; UNCERTAIN]).
Proof. split; vm_compute; reflexivity. Qed.

Lemma open_gateway_valid : store_ok (ad_store (sv_budget open_gateway)).
Proof.
  exact (bk_store _ _ _ (first_adapter_ok slow_time demo_uuid demo_iso demo_dump demo_validate small_limits "owner-pilot:v1" demo_admit)).
Qed.

(** [completed_turn], computed *)
Definition completedb (s : DemoService) (i : nat) : bool :=
  match requests (db (ad_store (sv_budget s))) !! i with
  | Some r => is_turn r && bool_decide (state r = COMPLETED)
  | None => false
  end.

Lemma completedb_spec s i : completed_turn (db (ad_store (sv_budget s))) i <-> completedb s i = true.
Proof.
  unfold completed_turn, completedb. split.
  - intros (r & -> & -> & ->). done.
  - destruct (requests _ !! i) as [r|]; [|done]. intros Hc. breflect. by exists r.
Qed.

Definition unlogged_row : Request Z :=
  default turn_row (requests (db (ad_store (sv_budget unlogged.2))) !! 1).

Lemma turn_row_there : turn_row ∈ requests (db (ad_store (sv_budget open_gateway))).
Proof. apply (list_elem_of_lookup_2 _ 1). vm_compute. reflexivity. Qed.

Lemma unlogged_valid : store_ok (ad_store (sv_budget unlogged.2)).
Proof.
  eapply moves_ok; [eapply (execute_moves _ _ _ _ _ _ _ _ _ _ demo_others)|exact open_gateway_valid].
  - intros. apply keep_drive; [reflexivity|discriminate|reflexivity|reflexivity|apply moves_framed|]. intros; apply moves_outside.
  - intros. by apply keep_context.
Qed.

Example turn_settles_witness :
  (unlogged.1 = Ok (Some SqliteError) /\ (sv_blocked unlogged.2 = true \/ settled demo_owner turn_row unlogged.2)) /\
  (unbegun.1 = Err CancelledError /\ recovery_settles slow_time demo_uuid demo_iso demo_dump demo_validate demo_owner turn_row unbegun.2).
Proof.
  split.
  - split; [vm_compute; reflexivity|]. refine (proj2 (_ : (exists o, unlogged.1 = Ok o) /\ _)).
    eapply (turn_settles slow_time demo_uuid demo_iso demo_dump demo_validate demo_sql demo_io demo_reading
      demo_token demo_token demo_others demo_cancelled left_alone) with (s := open_gateway); [..|apply surjective_pairing];
      [reflexivity|discriminate|reflexivity|reflexivity|reflexivity|apply open_gateway_valid|vm_compute; reflexivity].
  - split; [vm_compute; reflexivity|].
    refine (proj2 (proj2 (_ : unbegun.1 = Err CancelledError /\ unbegun.2 = on_execution task_end _ /\ _))).
    eapply (turn_settles slow_time demo_uuid demo_iso demo_dump demo_validate demo_sql demo_io demo_reading
      demo_token demo_token demo_others demo_cancelled left_alone)
      with (s := set_execution (Some (ExPending true)) (Some "c0"%string) open_gateway); [..|apply surjective_pairing];
      [reflexivity|discriminate|reflexivity|reflexivity|reflexivity|apply open_gateway_valid|vm_compute; reflexivity].
Defined.

Example turn_completion_gated_witness : exists text report s1 s2 q,
  staged_turn slow_time demo_uuid demo_iso demo_dump demo_validate demo_sql demo_io demo_reading
    demo_token demo_token demo_others demo_cancelled left_alone (fun _ => disk) (fun _ => disk)
    demo_id gate_stamp (fun n => String (Ascii.ascii_of_nat (33 + n)) "c") (fun _ => 1%Z) (fun _ => Calm) (fun _ => ""%string)
    (fun _ => InTime) id 100 (fun _ => ""%string) (fun _ => "Exception"%string) (fun x y => bool_decide (x = y)) (fun _ => ""%string)
    (fun _ => answer_text) (fun _ => None) (fun _ => None) [] (fun _ => Err ValueError) no_exchange no_clock id no_search 30%Z
    demo_sql (fun _ => true) echo_dispatch "local-echo" empty_context demo_owner turn_row (begin_execution open_gateway) = (Ok (text, report), s2) /\
  result_logged demo_id gate_stamp open_gateway s1 /\
  found_certain slow_time demo_uuid demo_iso demo_dump demo_validate left_alone demo_owner s1 s2 /\
  requests (db (ad_store (sv_budget served.2))) !! 1 = Some q /\ sequence q = sequence turn_row /\ carries demo_dump q text report.
Proof.
  eapply turn_completion_gated; [..|apply surjective_pairing| |].
  - reflexivity.
  - discriminate.
  - reflexivity.
  - reflexivity.
  - reflexivity.
  - intros n op Hop. exact (match not_elem_of_nil _ Hop with end).
  - intros n op Hop. exact (match not_elem_of_nil _ Hop with end).
  - apply open_gateway_valid.
  - assert (completedb served.2 1 = true) as Hc by (vm_compute; reflexivity). by apply completedb_spec in Hc.
  - intros Hc%completedb_spec. assert (completedb open_gateway 1 = false) as Hn by (vm_compute; reflexivity). by rewrite Hn in Hc.
Defined.

(** A second turn after the one whose end is uncertain *)
Example uncertainty_starts_nothing_witness :
  (demo_submit unlogged.2 "r3"%string).1 = Err (pilot_error "uncertainty" true) /\
  unstarted left_alone unlogged.2 (demo_submit unlogged.2 "r3"%string).2.
Proof.
  split; [vm_compute; reflexivity|].
  eapply proj1, (uncertainty_starts_nothing _ _ _ _ _ demo_others _ _ _ _ _ _ _ ""%string); [| | |apply surjective_pairing].
  - intros n op Hop. exact (match not_elem_of_nil _ Hop with end).
  - apply unlogged_valid.
  - right; right; right. exists 1, unlogged_row. split; [vm_compute; reflexivity|]. split_and!; vm_compute; reflexivity.
Defined.

(** The same request once more *)
Example resubmission_starts_nothing_witness :
  exists v, (demo_submit open_gateway "r2"%string).1 = Ok (v, None) /\ vw_replayed v = true /\ vw_task_id v = "c0"%string.
Proof.
  edestruct (resubmission_starts_nothing slow_time demo_uuid demo_iso demo_dump demo_validate demo_others left_alone (fun _ => Calm)
    (fun _ => false) demo_sql (fun _ => true) "owner"%string demo_owner (mk_TaskRequest "r2" "b0" "hello") turn_row)
    as [[e He]|(v & Hv & Hr & _ & Ht & _)];
    [exact open_gateway_valid|exact turn_row_there|vm_compute; reflexivity|vm_compute; reflexivity
    |exact (surjective_pairing (demo_submit open_gateway "r2"%string))| |].
  - exfalso. assert (is_ok (demo_submit open_gateway "r2"%string).1 = true) as Hx by (vm_compute; reflexivity).
    by rewrite He in Hx.
  - exists v. split; [exact Hv|]. split; [exact Hr|]. rewrite Ht. vm_compute. reflexivity.
Defined.

(** A whole session: the gateway made and started, a thread opened, a turn
    submitted and run, the thread's messages read *)
Definition echo_config : LLMConfig := mk_Config ECHO "echo" None None 1024 seven_tenths forty_five.
Definition new_gateway : result (DemoService * LLMDispatchSnapshot) :=
  new_service (fun _ => None) (fun _ => None)
    (first_adapter slow_time demo_uuid demo_iso demo_dump demo_validate small_limits "owner-pilot:v1" []) (mk_AuditLog false [])
    echo_config "owner" "".

Definition session : py DemoService (RequestState * list string) :=
  _ ← start slow_time demo_uuid demo_iso demo_dump demo_validate demo_io demo_others demo_cancelled left_alone (fun _ => Calm)
        (fun _ => false) demo_sql (fun _ => true) (fun _ => false) (fun _ => true);
  '(_, t) ← create_thread slow_time demo_uuid demo_iso demo_dump demo_validate left_alone (fun _ => Calm) demo_sql "owner"
             demo_owner "r1" "chat" None;
  '(v, row) ← submit slow_time demo_uuid demo_iso demo_dump demo_validate left_alone (fun _ => Calm) (fun _ => false)
                demo_sql (fun _ => true) "owner" demo_owner (mk_TaskRequest "r2" (tv_id t) "hello");
  _ ← demo_execute (fun _ => true) demo_owner (default turn_row row);
  w ← get_task_view slow_time demo_uuid demo_iso demo_dump demo_validate left_alone (fun _ => Calm) demo_sql "owner" demo_owner (vw_task_id v);
  ms ← list_messages slow_time demo_uuid demo_iso demo_dump demo_validate left_alone (fun _ => Calm) demo_sql "owner" demo_owner (tv_id t);
  mret (vw_state w, map mv_content ms).

Example session_serves :
  match new_gateway with Ok (s, d) => (session s).1 = Ok (COMPLETED, ["hello"; "It is noon."]%string) /\ d = echo_dispatch | Err _ => False end.
Proof. vm_compute. split; reflexivity. Qed.

(** The stop that comes right after a submission and before the first step of
    its task: the task ends cancelled, the turn stays admitted and the gateway
    unblocked, until the next start recovers the store. *)
Definition how_it_ended {A} (m : py DemoService A) : py DemoService (result A) := fun s => let '(x, s1) := m s in (Ok x, s1).

Definition stopped_session : py DemoService (result (option exn)) :=
  '(v, row) ← submit slow_time demo_uuid demo_iso demo_dump demo_validate left_alone (fun _ => Calm) (fun _ => false)
                demo_sql (fun _ => true) "owner" demo_owner (mk_TaskRequest "r3" "b0" "hello");
  _ ← stop slow_time demo_uuid demo_iso demo_dump demo_validate demo_others demo_cancelled left_alone (fun _ => Calm)
        (fun _ => false) (fun _ => true);
  how_it_ended (demo_execute (fun _ => true) demo_owner (default turn_row row)).

Definition recovered_store (s : DemoService) : OwnerPilotStore Z :=
  store_run slow_time demo_uuid demo_iso demo_dump demo_validate [OpRestart; OpInitialize false true; OpRecover SqlFine] (ad_store (sv_budget s)).

Example stopped_before_first_step :
  let '(x, s) := stopped_session served.2 in
  (x, sv_execution s, sv_blocked s, map state (requests (db (ad_store (sv_budget s)))), map state (requests (db (recovered_store s)))) =
  (Ok (Err CancelledError), Some ExCancelled, false, [COMPLETED; COMPLETED; ADMITTED], [COMPLETED; COMPLETED; UNCERTAIN]).
Proof. vm_compute. reflexivity. Qed.
