(* ===== verification/Floats.v ===== *)
(** * Binary64 bounds

    The floats of the lattice's scores and vote weights are IEEE binary64
    numbers, [spec_float] with [prec = 53] and [emax = 1024].  A score is a
    short chain of additions, products and quotients of numbers between 0 and
    1, and every operation rounds.  [within k q f] says that [f] is a zero or a
    positive finite number whose exponent is at most [q] and whose value is at
    most [k * 2 ^ q].  The lemmas carry it through each operation: rounding to
    nearest never passes a bound that is itself representable. *)
From S2P Require Import Prelude.
From Stdlib Require Import SpecFloat.

Abbreviation float := spec_float.
Abbreviation fadd := (SFadd 53 1024).
Abbreviation fmul := (SFmul 53 1024).
Abbreviation fdiv := (SFdiv 53 1024).
Abbreviation fsub := (SFsub 53 1024).

(** [float(z)], exact up to [2 ** 53] and correctly rounded past it. *)
Definition float_of (z : Z) : float := binary_normalize 53 1024 z 0 false.

Definition f_zero : float := S754_zero false.
Definition f_one : float := S754_finite false 4503599627370496 (-52).

(** [sum(...)] of a list of floats, as CPython 3.11 adds: from the left, from zero. *)
Definition fsum (l : list float) : float := fold_left fadd l f_zero.

(** [a / b] of two positive ints: the exact quotient rounded once. *)
Definition int_div (a b : Z) : float :=
  if (a =? 0)%Z then f_zero
  else let '(q, e, l) := SFdiv_core_binary 53 1024 a 0 b 0 in binary_round_aux 53 1024 false q e l.

Local Open Scope Z_scope.

Definition within (k q : Z) (f : float) : Prop :=
  match f with
  | S754_zero _ => True
  | S754_finite false m e => e <= q /\ Zpos m <= k * 2 ^ (q - e)
  | _ => False
  end.

(** ** Shifting a mantissa right *)

Definition sticky (r : shr_record) : Z := if shr_r r || shr_s r then 1 else 0.

Lemma shr_1_bound r n : 0 <= shr_m r -> shr_m r + sticky r <= 2 * n ->
  0 <= shr_m (shr_1 r) /\ shr_m (shr_1 r) + sticky (shr_1 r) <= n.
Proof.
  destruct r as [m r s]; unfold sticky; simpl.
  destruct m as [|[p|p|]|[p|p|]]; destruct r, s; simpl; lia.
Qed.

Lemma iter_pos_nat {A} (f : A -> A) p x : iter_pos f p x = Nat.iter (Pos.to_nat p) f x.
Proof.
  revert x. induction p as [p IH|p IH|]; intros x; cbn [iter_pos].
  - rewrite !IH, Pos2Nat.inj_xI. cbn [Nat.mul]. rewrite Nat.add_0_r, Nat.iter_succ_r, Nat.iter_add. done.
  - rewrite !IH, Pos2Nat.inj_xO. cbn [Nat.mul]. rewrite Nat.add_0_r, Nat.iter_add. done.
  - done.
Qed.

Lemma shr_steps_bound k r n : 0 <= shr_m r -> shr_m r + sticky r <= n * 2 ^ Z.of_nat k ->
  0 <= shr_m (Nat.iter k shr_1 r) /\ shr_m (Nat.iter k shr_1 r) + sticky (Nat.iter k shr_1 r) <= n.
Proof.
  revert n. induction k as [|k IH]; intros n H0 H; simpl.
  - change (2 ^ Z.of_nat 0) with 1 in H. lia.
  - destruct (IH (2 * n) H0) as [H1 H2].
    { rewrite Nat2Z.inj_succ, Z.pow_succ_r in H by lia. lia. }
    by apply shr_1_bound.
Qed.

(** A bound [n] in units of [2 ^ e] that is [n'] in the units shifted to. *)
Lemma shr_bound r e d q k : 0 <= shr_m r -> e <= q -> e + d <= q -> shr_m r + sticky r <= k * 2 ^ (q - e) ->
  exists r' e', shr r e d = (r', e') /\ e' <= q /\ 0 <= shr_m r' /\ shr_m r' + sticky r' <= k * 2 ^ (q - e') /\
    e' = Z.max e (e + d).
Proof.
  intros H0 He Hq H. destruct d as [|p|p]; simpl; [exists r, e; repeat split; trivial; lia | | exists r, e; repeat split; trivial; lia].
  exists (iter_pos shr_1 p r), (e + Zpos p). split; [done|]. rewrite iter_pos_nat.
  destruct (shr_steps_bound (Pos.to_nat p) r (k * 2 ^ (q - (e + Zpos p)))) as [H1 H2]; [done| |].
  { rewrite positive_nat_Z, <- Z.mul_assoc, <- Z.pow_add_r by lia.
    replace (q - (e + Zpos p) + Zpos p) with (q - e) by lia. done. }
  repeat split; trivial. lia.
Qed.

(** ** The number of digits *)

Lemma digits2_pos_log p : Zpos (digits2_pos p) = Z.log2 (Zpos p) + 1.
Proof.
  induction p as [p IH|p IH|]; simpl digits2_pos; [| |done]; rewrite Pos2Z.inj_succ, IH.
  - rewrite (Pos2Z.inj_xI p), Z.log2_succ_double by lia. lia.
  - rewrite (Pos2Z.inj_xO p), Z.log2_double by lia. lia.
Qed.

Lemma digits_mono m n : 0 <= m <= n -> Zdigits2 m <= Zdigits2 n.
Proof.
  destruct m as [|p|p], n as [|r|r]; simpl; try lia.
  intros H. rewrite !digits2_pos_log. assert (Z.log2 (Zpos p) <= Z.log2 (Zpos r)) by (apply Z.log2_le_mono; lia). lia.
Qed.

Lemma digits_shift k d : 0 < k -> 0 <= d -> Zdigits2 (k * 2 ^ d) = Zdigits2 k + d.
Proof.
  intros Hk Hd. assert (0 < 2 ^ d) by (apply Z.pow_pos_nonneg; lia).
  assert (Hl : forall n, 0 < n -> Zdigits2 n = Z.log2 n + 1) by (intros [|p|p]; try lia; intros _; apply digits2_pos_log).
  rewrite !Hl by nia. rewrite Z.log2_mul_pow2 by lia. lia.
Qed.

(** ** Rounding *)

Definition inexact (l : location) : Z := match l with loc_Exact => 0 | _ => 1 end.

Lemma shr_of_loc_m m l : shr_m (shr_record_of_loc m l) = m.
Proof. by destruct l as [|[]]. Qed.

Lemma sticky_of_loc m l : sticky (shr_record_of_loc m l) = inexact l.
Proof. by destruct l as [|[]]. Qed.

Lemma inexact_of_record r : inexact (loc_of_shr_record r) = sticky r.
Proof. by destruct r as [m [] []]. Qed.

Lemma nearest_bound m l : m <= round_nearest_even m l <= m + inexact l.
Proof. destruct l as [|[]]; simpl; try lia. destruct (Z.even m); lia. Qed.

Lemma fexp_mono a b : a <= b -> fexp 53 1024 a <= fexp 53 1024 b.
Proof. unfold fexp, emin. lia. Qed.

(** [k * 2 ^ q] is a representable bound: rounding does not pass it. *)
Definition representable (k q : Z) : Prop := 0 < k /\ fexp 53 1024 (Zdigits2 k + q) <= q <= 971.

Lemma shift_fits k q m e : representable k q -> e <= q -> 0 <= m <= k * 2 ^ (q - e) ->
  e + (fexp 53 1024 (Zdigits2 m + e) - e) <= q.
Proof.
  intros (Hk & Hf & _) He Hm. apply digits_mono in Hm. rewrite digits_shift in Hm by lia.
  assert (fexp 53 1024 (Zdigits2 m + e) <= fexp 53 1024 (Zdigits2 k + q)) by (apply fexp_mono; lia). lia.
Qed.

Lemma shr_fexp_bound k q m e l : representable k q -> e <= q -> 0 <= m -> m + inexact l <= k * 2 ^ (q - e) ->
  exists r' e', shr_fexp 53 1024 m e l = (r', e') /\ e' <= q /\ 0 <= shr_m r' /\
    shr_m r' + inexact (loc_of_shr_record r') <= k * 2 ^ (q - e').
Proof.
  intros Hr He H0 Hm. unfold shr_fexp.
  assert (0 <= inexact l) by (destruct l; simpl; lia).
  destruct (shr_bound (shr_record_of_loc m l) e (fexp 53 1024 (Zdigits2 m + e) - e) q k) as (r' & e' & H1 & H2 & H3 & H4 & _).
  - by rewrite shr_of_loc_m.
  - done.
  - apply (shift_fits k); [done..|lia].
  - by rewrite shr_of_loc_m, sticky_of_loc.
  - exists r', e'. rewrite inexact_of_record. done.
Qed.

Lemma round_bound k q m e l : representable k q -> e <= q -> 0 <= m -> m + inexact l <= k * 2 ^ (q - e) ->
  within k q (binary_round_aux 53 1024 false m e l).
Proof.
  intros Hr He H0 Hm. unfold binary_round_aux.
  destruct (shr_fexp_bound k q m e l Hr He H0 Hm) as (r1 & e1 & -> & Hq1 & Hp1 & Hb1).
  pose proof (nearest_bound (shr_m r1) (loc_of_shr_record r1)) as Hn.
  destruct (shr_fexp_bound k q (round_nearest_even (shr_m r1) (loc_of_shr_record r1)) e1 loc_Exact)
    as (r2 & e2 & -> & Hq2 & Hp2 & Hb2); [done..|lia|simpl; lia|].
  assert (0 <= inexact (loc_of_shr_record r2)) by (destruct (loc_of_shr_record r2); simpl; lia).
  destruct Hr as (_ & _ & Hr). destruct (shr_m r2) as [|p|p] eqn:Hm2; [done| |lia].
  rewrite (proj2 (Z.leb_le e2 (1024 - 53))) by lia. simpl. lia.
Qed.

Lemma shl_align_value m e e' : fst (shl_align m e e') = m /\ snd (shl_align m e e') = e /\ e <= e' \/
  Zpos (fst (shl_align m e e')) = Zpos m * 2 ^ (e - e') /\ snd (shl_align m e e') = e' /\ e' < e.
Proof.
  unfold shl_align. destruct (e' - e) as [|d|d] eqn:Hd; simpl; [left; lia..|right].
  repeat split; [|lia]. replace (e - e') with (Zpos d) by lia. clear.
  rewrite <- Z.shiftl_mul_pow2 by done. symmetry. unfold Z.shiftl.
  revert m. induction d as [|d IH] using Pos.peano_ind; intros m; [done|].
  rewrite !Pos.iter_succ, IH. done.
Qed.

Lemma within_value k q s m e : within k q (S754_finite s m e) -> s = false /\ e <= q /\ Zpos m <= k * 2 ^ (q - e).
Proof. by destruct s. Qed.

(** Normalising a non-negative mantissa. *)
Lemma normalize_bound k q m e : representable k q -> e <= q -> 0 <= m <= k * 2 ^ (q - e) ->
  within k q (binary_normalize 53 1024 m e false).
Proof.
  intros Hr He [H0 Hm]. destruct m as [|p|p]; [done| |lia]. simpl. unfold binary_round.
  set (e' := fexp 53 1024 (Zpos (digits2_pos p) + e)).
  destruct (shl_align_value p e e') as [(H1 & H2 & H3)|(H1 & H2 & H3)];
    destruct (shl_align p e e') as [p' e2]; simpl in H1, H2; subst.
  - by apply round_bound; rewrite ?Z.add_0_r.
  - apply round_bound; [done|lia|done|]. simpl inexact. rewrite H1, Z.add_0_r.
    replace (q - e') with (q - e + (e - e')) by lia. rewrite Z.pow_add_r, Z.mul_assoc by lia.
    apply Z.mul_le_mono_nonneg_r; [|done]. apply Z.pow_nonneg. lia.
Qed.

(** ** The operations *)

Lemma within_weaken k q k' q' f : 0 <= k -> q <= q' -> k <= k' * 2 ^ (q' - q) -> within k q f -> within k' q' f.
Proof.
  intros Hk Hq Hb. destruct f as [s|s| |s m e]; simpl; try done. destruct s; [done|]. intros [H1 H2]. split; [lia|].
  etrans; [exact H2|]. replace (q' - e) with (q' - q + (q - e)) by lia. rewrite Z.pow_add_r, Z.mul_assoc by lia.
  apply Z.mul_le_mono_nonneg_r; [|done]. apply Z.pow_nonneg. lia.
Qed.

(** A product of numbers within [a * 2 ^ p] and [b * 2 ^ r]. *)
Lemma fmul_within a p b r k q f g : 0 <= a -> 0 <= b -> representable k q -> p + r <= q -> a * b <= k * 2 ^ (q - (p + r)) ->
  within a p f -> within b r g -> within k q (fmul f g).
Proof.
  intros Ha Hb Hr Hq Hab. destruct f as [s|s| |s m e], g as [s'|s'| |s' m' e']; simpl; try done.
  destruct s, s'; try done. intros [H1 H2] [H3 H4]. simpl xorb.
  apply round_bound; [done|lia|lia|]. simpl. rewrite Z.add_0_r, Pos2Z.inj_mul.
  apply Z.le_trans with (a * 2 ^ (p - e) * (b * 2 ^ (r - e'))); [apply Z.mul_le_mono_nonneg; lia|].
  replace (q - (e + e')) with (q - (p + r) + ((p - e) + (r - e'))) by lia.
  rewrite (Z.pow_add_r 2 (q - (p + r))), (Z.pow_add_r 2 (p - e)) by lia.
  rewrite (Z.mul_assoc k). apply Z.le_trans with (a * b * (2 ^ (p - e) * 2 ^ (r - e'))); [apply Z.eq_le_incl; ring|].
  apply Z.mul_le_mono_nonneg_r; [|done]. apply Z.mul_nonneg_nonneg; apply Z.pow_nonneg; lia.
Qed.

(** A sum of numbers within [a * 2 ^ p] and [b * 2 ^ p]. *)
Lemma fadd_within a b p k q f g : 0 <= a -> 0 <= b -> representable k q -> p <= q -> a + b <= k * 2 ^ (q - p) ->
  within a p f -> within b p g -> within k q (fadd f g).
Proof.
  intros Ha Hb Hr Hq Hab Hf Hg.
  destruct f as [s|s| |s m e], g as [s'|s'| |s' m' e']; simpl in Hf, Hg; try done;
    try (by destruct s, s').
  - apply (within_weaken b p); [done..|lia|exact Hg].
  - apply (within_weaken a p); [done..|lia|exact Hf].
  - destruct s, s'; try done. destruct Hf as [H1 H2], Hg as [H3 H4]. simpl.
    set (z := Z.min e e').
    assert (Hal : forall n x y, Zpos n <= x * 2 ^ (p - y) -> y <= p -> z <= y -> Zpos (fst (shl_align n y z)) <= x * 2 ^ (p - z)).
    { intros n x y Hn Hy Hz. destruct (shl_align_value n y z) as [(-> & _ & Hle)|(-> & _ & Hlt)].
      - by replace z with y by lia.
      - replace (p - z) with (p - y + (y - z)) by lia. rewrite Z.pow_add_r, Z.mul_assoc by lia.
        apply Z.mul_le_mono_nonneg_r; [|done]. apply Z.pow_nonneg. lia. }
    pose proof (Hal m a e H2 H1 ltac:(lia)). pose proof (Hal m' b e' H4 H3 ltac:(lia)).
    apply (normalize_bound k q (Zpos (fst (shl_align m e z)) + Zpos (fst (shl_align m' e' z)))); [done|lia|]. split; [lia|].
    replace (q - z) with (q - p + (p - z)) by lia. rewrite Z.pow_add_r, Z.mul_assoc by lia.
    apply Z.le_trans with ((a + b) * 2 ^ (p - z)); [lia|].
    apply Z.mul_le_mono_nonneg_r; [|done]. apply Z.pow_nonneg. lia.
Qed.

Lemma new_location_inexact n r : inexact (new_location n r) = (if r =? 0 then 0 else 1).
Proof. unfold new_location, new_location_even, new_location_odd. destruct (Z.even n), (r =? 0); try done; by destruct (_ ?= _). Qed.

(** A number within [m2 * 2 ^ e2] divided by that number is at most one. *)
Lemma div_core_bound m1 e1 m2 e2 q e l : 0 < m1 -> 0 < m2 -> e1 <= e2 -> m1 <= m2 * 2 ^ (e2 - e1) ->
  SFdiv_core_binary 53 1024 m1 e1 m2 e2 = (q, e, l) ->
  e <= -52 /\ 0 <= q /\ q + inexact l <= 2 ^ (- e).
Proof.
  intros H1 H2 He Hm. unfold SFdiv_core_binary.
  pose proof (digits_mono m1 (m2 * 2 ^ (e2 - e1)) ltac:(lia)) as Hd. rewrite digits_shift in Hd by lia.
  set (e' := Z.min (fexp 53 1024 (Zdigits2 m1 + e1 - (Zdigits2 m2 + e2))) (e1 - e2)).
  assert (He' : e' <= -52) by (unfold e', fexp, emin; lia).
  assert (Hs : match e1 - e2 - e' with 0 => m1 | Zpos _ => Z.shiftl m1 (e1 - e2 - e') | Zneg _ => 0 end = m1 * 2 ^ (e1 - e2 - e')).
  { assert (0 <= e1 - e2 - e') by lia. destruct (e1 - e2 - e') as [|p|p] eqn:E; [lia| |lia]. apply Z.shiftl_mul_pow2. lia. }
  rewrite Hs. clear Hs. set (m := m1 * 2 ^ (e1 - e2 - e')).
  assert (Hb : 0 <= m <= m2 * 2 ^ (- e')).
  { unfold m. split; [apply Z.mul_nonneg_nonneg; [lia|apply Z.pow_nonneg; lia]|].
    replace (- e') with (e2 - e1 + (e1 - e2 - e')) by lia. rewrite Z.pow_add_r, Z.mul_assoc by lia.
    apply Z.mul_le_mono_nonneg_r; [apply Z.pow_nonneg; lia|done]. }
  pose proof (Z.div_mod m m2 ltac:(lia)) as Hdm. pose proof (Z.mod_pos_bound m m2 H2) as Hmb.
  unfold Z.div, Z.modulo in Hdm, Hmb. destruct (Z.div_eucl m m2) as [q' r].
  intros [= <- <- <-]. rewrite new_location_inexact. split; [done|]. split; [nia|].
  destruct (Z.eqb_spec r 0); nia.
Qed.

Lemma one_representable : representable (2 ^ 52) (-52).
Proof. split; [lia|vm_compute; split; discriminate]. Qed.

Definition unit_float (f : float) : Prop := within (2 ^ 52) (-52) f.

Lemma quotient_unit m1 e1 m2 e2 : 0 < m1 -> 0 < m2 -> e1 <= e2 -> m1 <= m2 * 2 ^ (e2 - e1) ->
  unit_float (let '(q, e, l) := SFdiv_core_binary 53 1024 m1 e1 m2 e2 in binary_round_aux 53 1024 false q e l).
Proof.
  intros H1 H2 He Hm. destruct (SFdiv_core_binary 53 1024 m1 e1 m2 e2) as [[q e] l] eqn:E.
  apply div_core_bound in E as (Hq & H0 & Hb); [|done..].
  apply round_bound; [apply one_representable|done|done|].
  rewrite <- Z.pow_add_r by lia. by replace (52 + (-52 - e)) with (- e) by lia.
Qed.

Lemma fdiv_unit m2 e2 f : within (Zpos m2) e2 f -> unit_float (fdiv f (S754_finite false m2 e2)).
Proof.
  destruct f as [s|s| |s m e]; [done..|]. intros (-> & He & Hm)%within_value.
  apply (quotient_unit (Zpos m) e (Zpos m2) e2); lia || done.
Qed.

(** The true division of an int by a larger one. *)
Lemma int_div_unit a b : 0 <= a <= b -> 0 < b -> unit_float (int_div a b).
Proof.
  intros Ha Hb. unfold int_div. destruct (Z.eqb_spec a 0); [done|].
  apply quotient_unit; [lia..|]. change (2 ^ (0 - 0)) with 1. lia.
Qed.

(** ** Sums of unit numbers *)

Definition mantissa (n : Z) : Z := n * 2 ^ (53 - Zdigits2 n).
Definition exponent (n : Z) : Z := Zdigits2 n - 53.

Lemma digits_bounds n : 0 < n < 2 ^ 53 -> 1 <= Zdigits2 n <= 53.
Proof.
  intros H. destruct n as [|p|p]; [lia| |lia]. simpl. rewrite digits2_pos_log.
  pose proof (Z.log2_nonneg (Zpos p)). assert (Z.log2 (Zpos p) < 53) by (apply Z.log2_lt_pow2; lia). lia.
Qed.

Lemma int_representable n : 0 < n < 2 ^ 53 -> representable (mantissa n) (exponent n).
Proof.
  intros H. pose proof (digits_bounds n H). unfold mantissa, exponent.
  assert (0 < 2 ^ (53 - Zdigits2 n)) by (apply Z.pow_pos_nonneg; lia).
  split; [nia|]. rewrite digits_shift by lia. unfold fexp, emin. lia.
Qed.

Lemma add_unit n f g : 0 <= n -> n + 1 < 2 ^ 53 -> (n = 0 -> exists s, f = S754_zero s) -> within (mantissa n) (exponent n) f ->
  unit_float g -> within (mantissa (n + 1)) (exponent (n + 1)) (fadd f g).
Proof.
  intros H0 Hn Hz Hf Hg. set (d := Zdigits2 (n + 1)).
  pose proof (digits_bounds (n + 1) ltac:(lia)) as Hd. fold d in Hd.
  apply (fadd_within (n * 2 ^ (53 - d)) (2 ^ (53 - d)) (exponent (n + 1))).
  - apply Z.mul_nonneg_nonneg; [done|apply Z.pow_nonneg; lia].
  - apply Z.pow_nonneg; lia.
  - apply int_representable. lia.
  - done.
  - rewrite Z.sub_diag. unfold mantissa. fold d. change (2 ^ 0) with 1. lia.
  - destruct (decide (n = 0)) as [->|Hn0]; [by destruct (Hz eq_refl) as [s ->]|].
    pose proof (digits_bounds n ltac:(lia)) as Hdn. pose proof (digits_mono n (n + 1) ltac:(lia)) as Hm. fold d in Hm.
    refine (within_weaken _ _ _ _ _ _ _ _ Hf); unfold mantissa, exponent; fold d; [|lia|].
    + apply Z.mul_nonneg_nonneg; [lia|apply Z.pow_nonneg; lia].
    + rewrite <- Z.mul_assoc, <- Z.pow_add_r by lia.
      replace (53 - d + (d - 53 - (Zdigits2 n - 53))) with (53 - Zdigits2 n) by lia. done.
  - refine (within_weaken _ _ _ _ _ _ _ _ Hg); unfold exponent; fold d; [lia|lia|].
    rewrite <- Z.pow_add_r by lia. replace (53 - d + (d - 53 - -52)) with 52 by lia. done.
Qed.

Lemma fsum_snoc l x : fsum (l ++ [x]) = fadd (fsum l) x.
Proof. unfold fsum. by rewrite fold_left_app. Qed.

Lemma fsum_within l : Forall unit_float l -> Z.of_nat (length l) < 2 ^ 53 ->
  within (mantissa (Z.of_nat (length l))) (exponent (Z.of_nat (length l))) (fsum l).
Proof.
  induction l as [|x l IH] using rev_ind; [done|]. rewrite Forall_app, length_app, Nat2Z.inj_add, fsum_snoc.
  simpl length. intros [Hl Hx] Hn. rewrite Forall_singleton in Hx.
  apply add_unit; [lia|simpl in Hn; lia| |apply IH; [done|simpl in Hn; lia]|done].
  intros Hz. destruct l; [by exists false|simpl in Hz; lia].
Qed.

(** The lengths a rating window can have. *)
Lemma small_float n : 0 < n <= 20 -> exists m, float_of n = S754_finite false m (exponent n) /\ Zpos m = mantissa n.
Proof.
  intros H. assert (Hc : forall k, (k < 20)%nat -> match float_of (Z.of_nat (S k)) with
    | S754_finite false m e => (e =? exponent (Z.of_nat (S k))) && (Zpos m =? mantissa (Z.of_nat (S k))) | _ => false end = true).
  { intros k Hk. do 20 (destruct k as [|k]; [by vm_compute|]). lia. }
  specialize (Hc (Z.to_nat (n - 1)) ltac:(lia)). replace (Z.of_nat (S (Z.to_nat (n - 1)))) with n in Hc by lia.
  destruct (float_of n) as [?|?| |[] m e]; try done. apply andb_prop in Hc as [->%Z.eqb_eq ?%Z.eqb_eq]. by exists m.
Qed.

(** The average of at most twenty unit numbers is a unit number. *)
Lemma average_unit l : Forall unit_float l -> l <> [] -> (length l <= 20)%nat ->
  unit_float (fdiv (fsum l) (float_of (Z.of_nat (length l)))).
Proof.
  intros Hl Hne Hn. assert (0 < length l)%nat by (destruct l; [done|simpl; lia]).
  destruct (small_float (Z.of_nat (length l))) as (m & -> & Hm); [lia|].
  apply fdiv_unit. rewrite Hm. apply fsum_within; [done|lia].
Qed.

(** ** Comparisons *)

Lemma SFleb_finite m e p q : SFleb (S754_finite false m e) (S754_finite false p q) = true <->
  e < q \/ e = q /\ Zpos m <= Zpos p.
Proof.
  unfold SFleb, SFcompare. destruct (Z.compare_spec e q) as [->|Hlt|Hgt]; [|intuition lia..|intuition (discriminate || lia)].
  fold (Pos.compare m p). destruct (Pos.compare_spec m p); intuition (discriminate || lia).
Qed.

Lemma unit_float_finite s m e : unit_float (S754_finite s m e) <-> s = false /\ e <= -52 /\ Zpos m <= 2 ^ (- e).
Proof.
  unfold unit_float, within. destruct s; [intuition discriminate|].
  split; [intros [H1 H2]|intros (_ & H1 & H2)]; (rewrite <- Z.pow_add_r in * by lia);
    replace (52 + (-52 - e)) with (- e) in * by lia; auto.
Qed.

Lemma unit_float_test f : unit_float f -> SFleb f_zero f = true /\ SFleb f f_one = true.
Proof.
  destruct f as [s|s| |s m e]; try (by intros []). intros (-> & He & Hm)%unit_float_finite. split; [reflexivity|].
  apply SFleb_finite. destruct (decide (e = -52)) as [->|]; [|left; lia]. right. split; [done|exact Hm].
Qed.

(** A canonical float that passes [0.0 <= f <= 1.0]. *)
Lemma unit_float_of_test f : valid_binary 53 1024 f = true -> SFleb f_zero f = true -> SFleb f f_one = true -> unit_float f.
Proof.
  intros Hv H0 H1. destruct f as [s|[]| |[] m e]; try discriminate; [exact I|].
  apply SFleb_finite in H1. apply unit_float_finite. split; [done|]. destruct H1 as [H1|[-> H1]]; [|done].
  split; [lia|]. apply andb_prop in Hv as [Hc%Z.eqb_eq _]. unfold canonical_mantissa, fexp, emin in Hc.
  rewrite digits2_pos_log in Hc. assert (Z.log2 (Zpos m) <= 52) by lia.
  assert (Zpos m < 2 ^ 53) by (apply Z.log2_lt_pow2; lia).
  apply Z.le_trans with (2 ^ 53); [lia|]. apply Z.pow_le_mono_r; lia.
Qed.

Lemma unit_zero : unit_float f_zero.
Proof. done. Qed.

Lemma unit_one : unit_float f_one.
Proof. split; done. Qed.
