(* ===== verification/IsoTime.v ===== *)
(** * UTC timestamps as text

    A timezone-aware [datetime] normalised to UTC is its instant, in
    microseconds since 0001-01-01T00:00:00 ([Z]); [stamp_of] gives its fields by
    the proleptic Gregorian calendar of [datetime.fromordinal], and
    [AuditTrail.isoformat] prints them.  [fromisoformat] reads such text back;
    text of another shape is left to [other], an argument. *)
From S2P Require Import Prelude PyStr AuditTrail.
From Stdlib Require Import Ascii.

(** ** The calendar *)

Local Open Scope Z_scope.

Definition is_leap (y : Z) : bool := (y mod 4 =? 0) && (negb (y mod 100 =? 0) || (y mod 400 =? 0)).

(** [_days_before_year] *)
Definition days_before_year (y : Z) : Z := let z := y - 1 in z * 365 + z / 4 - z / 100 + z / 400.

Definition month_lengths (y : Z) : list Z := [31; if is_leap y then 29 else 28; 31; 30; 31; 30; 31; 31; 30; 31; 30; 31].

(** [_days_before_month] *)
Definition days_before_month (y m : Z) : Z := fold_left Z.add (firstn (Z.to_nat (m - 1)) (month_lengths y)) 0.

(** [_ymd2ord], from 0 *)
Definition ymd2ord (y m d : Z) : Z := days_before_year y + days_before_month y m + d - 1.

(** The month and day of the [n]th day of a year, from 0 *)
Fixpoint month_of (lengths : list Z) (m n : Z) : Z * Z :=
  match lengths with
  | [] => (m, n + 1)
  | l :: rest => if n <? l then (m, n + 1) else month_of rest (m + 1) (n - l)
  end.

(** [_ord2ymd], from 0 *)
Definition ord2ymd (n : Z) : Z * Z * Z :=
  let n400 := n / 146097 in let n := n mod 146097 in
  let n100 := n / 36524 in let n := n mod 36524 in
  let n4 := n / 1461 in let n := n mod 1461 in
  let n1 := n / 365 in let n := n mod 365 in
  let year := n400 * 400 + 1 + n100 * 100 + n4 * 4 + n1 in
  if (n1 =? 4) || (n100 =? 4) then (year - 1, 12, 31)
  else let '(m, d) := month_of (month_lengths year) 1 n in (year, m, d).

Definition day_us : Z := 86400000000.
Definition max_year : Z := 9999.

(** The fields of an instant in UTC *)
Definition stamp_of (t : Z) : stamp :=
  let '(y, m, d) := ord2ymd (t / day_us) in
  let us := t mod day_us in
  mk_stamp (Z.to_nat y) (Z.to_nat m) (Z.to_nat d) (Z.to_nat (us / 3600000000)) (Z.to_nat (us / 60000000 mod 60))
    (Z.to_nat (us / 1000000 mod 60)) (Z.to_nat (us mod 1000000)) (Some 0).

(** The instant of the fields *)
Definition of_stamp (s : stamp) : Z :=
  ymd2ord (Z.of_nat (year s)) (Z.of_nat (month s)) (Z.of_nat (day s)) * day_us +
  ((Z.of_nat (hour s) * 60 + Z.of_nat (minute s)) * 60 + Z.of_nat (second s)) * 1000000 + Z.of_nat (microsecond s) -
  match utcoffset s with Some m => m * 60000000 | None => 0 end.

(** Years 1 to 9999 *)
Definition in_calendar (t : Z) : bool := (0 <=? t) && (t <? days_before_year (max_year + 1) * day_us).

Lemma fold_add_acc l a : fold_left Z.add l a = a + fold_left Z.add l 0.
Proof. revert a. induction l as [|x l IH]; intros a; cbn [fold_left]; [lia|]. rewrite (IH (a + x)), (IH (0 + x)). lia. Qed.

(** The month found is the one whose days cover the [n]th of the year. *)
Lemma month_of_spec ls m n : 0 <= n < fold_left Z.add ls 0 -> Forall (fun l => l <= 31) ls ->
  let '(m', d) := month_of ls m n in
  m <= m' < m + Z.of_nat (length ls) /\ 1 <= d <= 31 /\ fold_left Z.add (firstn (Z.to_nat (m' - m)) ls) 0 + d - 1 = n.
Proof.
  revert m n. induction ls as [|l ls IH]; intros m n Hn Hl; [simpl in Hn; lia|]. inversion_clear Hl as [|? ? Hl0 Hl1].
  cbn [fold_left] in Hn. rewrite fold_add_acc in Hn. cbn [month_of]. destruct (Z.ltb_spec n l).
  - rewrite Z.sub_diag. cbn [length]. simpl. lia.
  - specialize (IH (m + 1) (n - l) ltac:(lia) Hl1). destruct (month_of ls (m + 1) (n - l)) as [m' d].
    destruct IH as (H1 & H2 & H3). cbn [length]. split; [lia|]. split; [done|].
    replace (Z.to_nat (m' - m)) with (S (Z.to_nat (m' - (m + 1)))) by lia. cbn [firstn fold_left].
    rewrite fold_add_acc. lia.
Qed.

Lemma month_lengths_spec y : Forall (fun l => l <= 31) (month_lengths y) /\ length (month_lengths y) = 12%nat /\
  365 <= fold_left Z.add (month_lengths y) 0.
Proof. unfold month_lengths. destruct (is_leap y); repeat split; repeat constructor; simpl; lia. Qed.

Lemma days_before_parts k a b c : 0 <= a < 4 -> 0 <= b < 25 -> 0 <= c < 4 ->
  days_before_year (k * 400 + 1 + a * 100 + b * 4 + c) = k * 146097 + a * 36524 + b * 1461 + c * 365.
Proof.
  intros Ha Hb Hc. unfold days_before_year. set (z := k * 400 + 1 + a * 100 + b * 4 + c - 1).
  assert (z / 4 = k * 100 + a * 25 + b) by (symmetry; apply (Z.div_unique z 4 _ c); lia).
  assert (z / 100 = k * 4 + a) by (symmetry; apply (Z.div_unique z 100 _ (b * 4 + c)); lia).
  assert (z / 400 = k) by (symmetry; apply (Z.div_unique z 400 _ (a * 100 + b * 4 + c)); lia).
  lia.
Qed.

(** The last day of a leap year *)
Lemma leap_last y : is_leap y = true -> ymd2ord y 12 31 = days_before_year y + 365.
Proof. intros H. unfold ymd2ord, days_before_month, month_lengths. rewrite H. simpl. lia. Qed.

Lemma leap_fourth k a b : 0 <= b < 24 -> is_leap (k * 400 + a * 100 + b * 4 + 4) = true.
Proof.
  intros Hb. unfold is_leap.
  replace ((k * 400 + a * 100 + b * 4 + 4) mod 4) with 0 by (apply (Z.mod_unique _ 4 (k * 100 + a * 25 + b + 1)); lia).
  replace ((k * 400 + a * 100 + b * 4 + 4) mod 100) with (b * 4 + 4) by (apply (Z.mod_unique _ 100 (k * 4 + a)); lia).
  destruct (Z.eqb_spec (b * 4 + 4) 0); [lia|done].
Qed.

(** [date.fromordinal] is inverted by [date.toordinal], and its fields are in range. *)
Lemma ord_roundtrip n : 0 <= n -> let '(y, m, d) := ord2ymd n in
  ymd2ord y m d = n /\ 1 <= y <= n / 146097 * 400 + 400 /\ 1 <= m <= 12 /\ 1 <= d <= 31.
Proof.
  intros Hn. unfold ord2ymd.
  pose proof (Z.div_mod n 146097 ltac:(lia)) as H1. pose proof (Z.mod_pos_bound n 146097 ltac:(lia)) as B1.
  assert (0 <= n / 146097) by (apply Z.div_pos; lia).
  set (k := n / 146097) in *. set (n1 := n mod 146097) in *.
  pose proof (Z.div_mod n1 36524 ltac:(lia)) as H2. pose proof (Z.mod_pos_bound n1 36524 ltac:(lia)) as B2.
  set (a := n1 / 36524) in *. set (n2 := n1 mod 36524) in *.
  pose proof (Z.div_mod n2 1461 ltac:(lia)) as H3. pose proof (Z.mod_pos_bound n2 1461 ltac:(lia)) as B3.
  set (b := n2 / 1461) in *. set (n3 := n2 mod 1461) in *.
  pose proof (Z.div_mod n3 365 ltac:(lia)) as H4. pose proof (Z.mod_pos_bound n3 365 ltac:(lia)) as B4.
  set (c := n3 / 365) in *. set (r := n3 mod 365) in *.
  clearbody k n1 a n2 b n3 c r.
  assert (0 <= a <= 4) by lia. assert (0 <= b < 25) by lia. assert (0 <= c <= 4) by lia.
  destruct (Z.eqb_spec c 4) as [->|Hc]; cbn [orb].
  - replace (k * 400 + 1 + a * 100 + b * 4 + 4 - 1) with (k * 400 + a * 100 + b * 4 + 4) by lia.
    rewrite leap_last by (apply leap_fourth; lia).
    replace (k * 400 + a * 100 + b * 4 + 4) with (k * 400 + 1 + a * 100 + b * 4 + 3) by lia.
    rewrite days_before_parts by lia. lia.
  - destruct (Z.eqb_spec a 4) as [->|Ha].
    + assert (b = 0 /\ c = 0 /\ r = 0) as (-> & -> & ->) by lia.
      replace (k * 400 + 1 + 4 * 100 + 0 * 4 + 0 - 1) with (k * 400 + 3 * 100 + 24 * 4 + 4) by lia.
      rewrite leap_last by (replace (k * 400 + 3 * 100 + 24 * 4 + 4) with ((k + 1) * 400) by lia; unfold is_leap;
        replace ((k + 1) * 400 mod 4) with 0 by (apply (Z.mod_unique _ 4 ((k + 1) * 100)); lia);
        replace ((k + 1) * 400 mod 400) with 0 by (apply (Z.mod_unique _ 400 (k + 1)); lia); by rewrite !Z.eqb_refl, orb_true_r).
      replace (k * 400 + 3 * 100 + 24 * 4 + 4) with (k * 400 + 1 + 3 * 100 + 24 * 4 + 3) by lia.
      rewrite days_before_parts by lia. lia.
    + set (y := k * 400 + 1 + a * 100 + b * 4 + c).
      destruct (month_lengths_spec y) as (Hl & Hlen & Hsum).
      pose proof (month_of_spec (month_lengths y) 1 r ltac:(lia) Hl) as Hm.
      destruct (month_of (month_lengths y) 1 r) as [m d]. destruct Hm as (Hm & Hd & Hs). rewrite Hlen in Hm.
      pose proof (days_before_parts k a b c ltac:(lia) ltac:(lia) ltac:(lia)) as Hp. fold y in Hp.
      assert (Hy : y = k * 400 + 1 + a * 100 + b * 4 + c) by done. clearbody y.
      unfold ymd2ord, days_before_month. lia.
Qed.

Lemma ymd2ord_year y : ymd2ord y 1 1 = days_before_year y.
Proof. unfold ymd2ord, days_before_month. simpl. lia. Qed.

(** ** Instants and their fields *)

Definition stamp_wf (s : stamp) : Prop :=
  (year s < 10 ^ 4 /\ month s < 10 ^ 2 /\ day s < 10 ^ 2 /\ hour s < 10 ^ 2 /\ minute s < 10 ^ 2 /\ second s < 10 ^ 2 /\
   microsecond s < 10 ^ 6)%nat /\ utcoffset s = Some 0.

Lemma days_before_month_nonneg y m : 0 <= days_before_month y m.
Proof.
  unfold days_before_month, month_lengths. generalize (Z.to_nat (m - 1)) as i. intros i.
  do 13 (destruct i as [|i]; [destruct (is_leap y); simpl; lia|]). destruct (is_leap y); simpl; lia.
Qed.

Lemma ord2ymd_range n : 0 <= n < 3652059 -> let '(y, m, d) := ord2ymd n in
  ymd2ord y m d = n /\ 1 <= y <= 9999 /\ 1 <= m <= 12 /\ 1 <= d <= 31.
Proof.
  intros Hn. pose proof (ord_roundtrip n ltac:(lia)) as Ho. destruct (ord2ymd n) as [[y m] d].
  destruct Ho as (Ho & Hy & Hm & Hd). split; [done|]. split; [|done]. split; [lia|].
  assert (n / 146097 < 25) by (apply Z.div_lt_upper_bound; lia).
  destruct (decide (y = 10000)) as [->|]; [|lia].
  unfold ymd2ord in Ho. change (days_before_year 10000) with 3652059 in Ho.
  pose proof (days_before_month_nonneg 10000 m). lia.
Qed.

Lemma to_nat_lt_pow z w : 0 <= z < 10 ^ Z.of_nat w -> (Z.to_nat z < 10 ^ w)%nat.
Proof. intros H. apply Nat2Z.inj_lt. rewrite Nat2Z.inj_pow, Z2Nat.id by lia. lia. Qed.

Lemma stamp_of_wf t : in_calendar t = true -> stamp_wf (stamp_of t) /\ of_stamp (stamp_of t) = t.
Proof.
  intros [H0%Z.leb_le H1%Z.ltb_lt]%andb_prop. change (days_before_year (max_year + 1)) with 3652059 in H1.
  unfold stamp_of, day_us in *.
  pose proof (Z.div_mod t 86400000000 ltac:(lia)) as Ht. pose proof (Z.mod_pos_bound t 86400000000 ltac:(lia)) as Hu.
  assert (Hd : 0 <= t / 86400000000 < 3652059) by (split; [apply Z.div_pos|apply Z.div_lt_upper_bound]; lia).
  pose proof (ord2ymd_range _ Hd) as Ho.
  set (n := t / 86400000000) in *. set (us := t mod 86400000000) in *. clearbody n us.
  destruct (ord2ymd n) as [[y m] d]. destruct Ho as (Ho & Hy & Hm & Hdd).
  pose proof (Z.div_mod us 3600000000 ltac:(lia)). pose proof (Z.mod_pos_bound us 3600000000 ltac:(lia)).
  assert (Hh : us / 60000000 = us / 3600000000 * 60 + us / 60000000 mod 60).
  { rewrite Z.mul_comm. replace (us / 3600000000) with (us / 60000000 / 60) by (rewrite Z.div_div by lia; done). apply Z.div_mod. lia. }
  assert (Hs : us / 1000000 = us / 60000000 * 60 + us / 1000000 mod 60).
  { rewrite Z.mul_comm. replace (us / 60000000) with (us / 1000000 / 60) by (rewrite Z.div_div by lia; done). apply Z.div_mod. lia. }
  pose proof (Z.div_mod us 1000000 ltac:(lia)). pose proof (Z.mod_pos_bound us 1000000 ltac:(lia)).
  pose proof (Z.mod_pos_bound (us / 60000000) 60 ltac:(lia)). pose proof (Z.mod_pos_bound (us / 1000000) 60 ltac:(lia)).
  assert (0 <= us / 3600000000 < 24) by (split; [apply Z.div_pos|apply Z.div_lt_upper_bound]; lia).
  set (h := us / 3600000000) in *. set (mi := us / 60000000 mod 60) in *. set (se := us / 1000000 mod 60) in *.
  set (f := us mod 1000000) in *. set (q := us / 60000000) in *. set (r := us / 1000000) in *.
  assert (Hus : us = ((h * 60 + mi) * 60 + se) * 1000000 + f) by lia.
  clearbody h mi se f q r. split.
  - unfold stamp_wf. cbn [year month day hour minute second microsecond utcoffset]. split; [|done].
    repeat split; apply to_nat_lt_pow; simpl; lia.
  - unfold of_stamp. cbn [year month day hour minute second microsecond utcoffset].
    rewrite !Z2Nat.id by lia. rewrite Ho. unfold day_us. lia.
Qed.

(** ** Reading *)

Definition digit_of (c : ascii) : option nat := if is_digit c then Some (nat_of_ascii c - 48)%nat else None.

(** [w] digits *)
Fixpoint unpad (w acc : nat) (l : chars) : option (nat * chars) :=
  match w with
  | O => Some (acc, l)
  | S w' => match l with
            | c :: l' => match digit_of c with Some d => unpad w' (acc * 10 + d) l' | None => None end
            | [] => None
            end
  end%nat.

Definition expect (c : ascii) (l : chars) : option chars :=
  match l with c' :: l' => if Ascii.eqb c c' then Some l' else None | [] => None end.

Definition unpad_then (w : nat) (sep : ascii) (l : chars) : option (nat * chars) :=
  '(n, l) ← unpad w 0 l; l ← expect sep l; Some (n, l).

(** [YYYY-MM-DDTHH:MM:SS[.ffffff]+00:00] *)
Definition parse_stamp (l : chars) : option stamp :=
  '(y, l) ← unpad_then 4 "-"%char l;
  '(mo, l) ← unpad_then 2 "-"%char l;
  '(d, l) ← unpad_then 2 "T"%char l;
  '(h, l) ← unpad_then 2 ":"%char l;
  '(mi, l) ← unpad_then 2 ":"%char l;
  '(s, l) ← unpad 2 0 l;
  '(us, l) ← match expect "."%char l with Some l' => unpad 6 0 l' | None => Some (0%nat, l) end;
  if bool_decide (l = iso_offset 0) then Some (mk_stamp y mo d h mi s us (Some 0)) else None.

(** [stamp.isoformat()] of an instant, and [datetime.fromisoformat]: text the
    first prints is read back, provided it names an instant of the calendar. *)
Definition iso (t : Z) : string := isoformat (stamp_of t).

Definition fromisoformat (other : string -> result Z) (s : string) : result Z :=
  match parse_stamp (to_chars s) with
  | Some d => let t := of_stamp d in if in_calendar t && bool_decide (stamp_of t = d) then Ok t else other s
  | None => other s
  end.

Lemma digit_of_digit d : (d < 10)%nat -> digit_of (digit d) = Some d.
Proof. intros H. do 10 (destruct d as [|d]; [done|]). lia. Qed.

Lemma unpad_pad w n acc l : (n < 10 ^ w)%nat -> unpad w acc (pad w n ++ l) = Some (acc * 10 ^ w + n, l)%nat.
Proof.
  revert n acc. induction w as [|w IH]; intros n acc Hn.
  - rewrite Nat.pow_0_r in Hn. replace n with 0%nat by lia. rewrite Nat.pow_0_r, Nat.mul_1_r, Nat.add_0_r. done.
  - cbn [pad app unpad]. rewrite Nat.pow_succ_r' in *. assert (10 ^ w <> 0)%nat by (apply Nat.pow_nonzero; lia).
    rewrite digit_of_digit by (apply Nat.Div0.div_lt_upper_bound; lia).
    rewrite IH by (by apply Nat.mod_upper_bound). do 2 f_equal.
    pose proof (Nat.div_mod_eq n (10 ^ w)). nia.
Qed.

Lemma unpad_then_pad w n sep l : (n < 10 ^ w)%nat -> unpad_then w sep (pad w n ++ sep :: l) = Some (n, l).
Proof.
  intros H. unfold unpad_then. rewrite unpad_pad by done. cbn. by rewrite Ascii.eqb_refl.
Qed.

Lemma parse_isoformat d : stamp_wf d -> parse_stamp (to_chars (isoformat d)) = Some d.
Proof.
  destruct d as [y mo dd h mi s us off]. unfold stamp_wf. cbn [year month day hour minute second microsecond utcoffset].
  intros ((H1 & H2 & H3 & H4 & H5 & H6 & H7) & ->). unfold isoformat. rewrite to_of_chars.
  cbn [year month day hour minute second microsecond utcoffset app]. unfold parse_stamp.
  do 5 (rewrite unpad_then_pad by done; cbn [mbind option_bind]).
  rewrite unpad_pad by done. cbn [mbind option_bind Nat.mul Nat.add]. unfold fraction.
  destruct (Nat.eqb_spec us 0) as [->|Hus].
  - cbn. done.
  - cbn [app]. change (expect "." ("."%char :: pad 6 us ++ iso_offset 0)) with (Some (pad 6 us ++ iso_offset 0)).
    cbn [mbind option_bind]. rewrite unpad_pad by done. cbn [mbind option_bind]. rewrite bool_decide_eq_true_2 by done.
    done.
Qed.

(** Text printed from an instant is read back as it. *)
Lemma iso_roundtrip other t : in_calendar t = true -> fromisoformat other (iso t) = Ok t.
Proof.
  intros H. destruct (stamp_of_wf t H) as [Hw Ht]. unfold fromisoformat, iso. rewrite (parse_isoformat _ Hw), Ht, H.
  cbn [andb]. by rewrite bool_decide_eq_true_2.
Qed.

Example iso_2026 : iso ((days_before_year 2026 + 31) * day_us + 3661000007) = "2026-02-01T01:01:01.000007+00:00"%string.
Proof. reflexivity. Qed.
