(* ===== verification/LatticeModels.v ===== *)
(** * Models of the lattice

    [src/agency/lattice/models.py] and the id and enum helpers of
    [src/agency/lattice/api.py].  [value] is a Python value as the dictionaries
    of the lattice hold it, a dictionary an association list in insertion order.
    [datetime] is a wall clock in microseconds ([IsoTime]) with its UTC offset,
    [None] when naive; a model keeps the instant in UTC.  A constructor takes the
    clock reading its default would take.  [other_time] is [fromisoformat] on
    text that [isoformat] does not print, [other_float] is [float(v)] of a value
    that is no number. *)
From S2P Require Import Prelude PyStr PyDict Floats AuditTrail IsoTime.
From Stdlib Require Import SpecFloat.

(** ** Values *)

Definition AttributeError : exn := CallbackError "AttributeError".

Record datetime := mk_datetime { wall : Z; offset : option Z }.

Inductive value :=
| VNone
| VBool (b : bool)
| VInt (z : Z)
| VFloat (f : float)
| VStr (s : string)
| VTime (d : datetime)
| VList (l : list value)
| VDict (d : list (string * value)).

Abbreviation dict := (list (string * value)).

(** [bool(v)]; a [datetime] is true. *)
Definition truthy (v : value) : bool :=
  match v with
  | VNone => false
  | VBool b => b
  | VInt z => negb (z =? 0)%Z
  | VFloat f => negb (SFeqb f f_zero)
  | VStr s => negb (String.eqb s "")
  | VTime _ => true
  | VList l => match l with [] => false | _ => true end
  | VDict d => match d with [] => false | _ => true end
  end.

(** ** Timestamps *)

(** [ensure_utc]: a naive time is taken as UTC; [astimezone] fails past the calendar. *)
Definition ensure_utc (d : datetime) : result Z :=
  match offset d with
  | None => Ok (wall d)
  | Some o => let t := (wall d - o)%Z in if in_calendar t then Ok t else Err OverflowError
  end.

(** [datetime.now(UTC)] at an instant *)
Definition utc (t : Z) : datetime := mk_datetime t (Some 0%Z).

Lemma ensure_utc_utc t : in_calendar t = true -> ensure_utc (utc t) = Ok t.
Proof. intros H. unfold ensure_utc, utc. cbn [offset wall]. by rewrite Z.sub_0_r, H. Qed.

(** ** Enumerations *)

Inductive NodeType := AGENT | TASK | DELIVERABLE | EVIDENCE | DECISION | POLICY | WING | EVENT.
Inductive EdgeType := DEPENDS_ON | PRODUCED_BY | EVIDENCE_FOR | VOTED_ON | GOVERNS | MEMBER_OF | TRUSTS | SUPERSEDES.

#[export] Instance NodeType_eq_dec : EqDecision NodeType.
Proof. solve_decision. Defined.
#[export] Instance EdgeType_eq_dec : EqDecision EdgeType.
Proof. solve_decision. Defined.

Definition node_type_value (t : NodeType) : string :=
  match t with
  | AGENT => "agent" | TASK => "task" | DELIVERABLE => "deliverable" | EVIDENCE => "evidence"
  | DECISION => "decision" | POLICY => "policy" | WING => "wing" | EVENT => "event"
  end.

Definition edge_type_value (t : EdgeType) : string :=
  match t with
  | DEPENDS_ON => "depends_on" | PRODUCED_BY => "produced_by" | EVIDENCE_FOR => "evidence_for" | VOTED_ON => "voted_on"
  | GOVERNS => "governs" | MEMBER_OF => "member_of" | TRUSTS => "trusts" | SUPERSEDES => "supersedes"
  end.

Definition node_types : list NodeType := [AGENT; TASK; DELIVERABLE; EVIDENCE; DECISION; POLICY; WING; EVENT].
Definition edge_types : list EdgeType :=
  [DEPENDS_ON; PRODUCED_BY; EVIDENCE_FOR; VOTED_ON; GOVERNS; MEMBER_OF; TRUSTS; SUPERSEDES].

(** [_coerce_node_type], [_coerce_edge_type]: a member, or [NodeType(str)] of its value *)
Definition coerce_node_type (t : NodeType + string) : result NodeType :=
  match t with
  | inl t => Ok t
  | inr s => match List.find (fun t => String.eqb (node_type_value t) s) node_types with Some t => Ok t | None => Err ValueError end
  end.

Definition coerce_edge_type (t : EdgeType + string) : result EdgeType :=
  match t with
  | inl t => Ok t
  | inr s => match List.find (fun t => String.eqb (edge_type_value t) s) edge_types with Some t => Ok t | None => Err ValueError end
  end.

Lemma coerce_node_value t : coerce_node_type (inr (node_type_value t)) = Ok t.
Proof. by destruct t. Qed.

Lemma coerce_edge_value t : coerce_edge_type (inr (edge_type_value t)) = Ok t.
Proof. by destruct t. Qed.

Lemma node_type_value_inj t t' : node_type_value t = node_type_value t' -> t = t'.
Proof. intros H. pose proof (coerce_node_value t) as Ht. rewrite H, coerce_node_value in Ht. by inversion Ht. Qed.

Lemma edge_type_value_inj t t' : edge_type_value t = edge_type_value t' -> t = t'.
Proof. intros H. pose proof (coerce_edge_value t) as Ht. rewrite H, coerce_edge_value in Ht. by inversion Ht. Qed.

(** ** Records *)

Record LatticeEvent := mk_LatticeEvent {
  event_id : string;
  timestamp : Z;
  event_type : string;
  actor : string;
  target_id : string;
  payload : dict;
  prior_state : option dict;
}.

Record Vote := mk_Vote {
  voter_id : string;
  vote_proposal : string;
  decision : string;
  evidence : list string;
  weight : float;
  voted_at : Z;
}.

Record Reputation := mk_Reputation {
  agent_id : string;
  score : float;
  tasks_completed : Z;
  tasks_failed : Z;
  peer_ratings : list float;
  last_updated : Z;
}.

Record ConsensusProposal := mk_ConsensusProposal {
  proposal_id : string;
  proposer_id : string;
  proposal_type : string;
  quorum_required : float;
  votes : list Vote;
  status : string;
  expires_at : Z;
}.

Definition is_empty (s : string) : bool := String.eqb s "".

(** [LatticeEvent(...)] *)
Definition new_LatticeEvent (eid : string) (ts : datetime) (ty act target : string) (pay : dict) (prior : option dict)
    : result LatticeEvent :=
  t ← ensure_utc ts;
  _ ← raise_if (is_empty eid) ValueError;
  _ ← raise_if (is_empty ty) ValueError;
  _ ← raise_if (is_empty act) ValueError;
  _ ← raise_if (is_empty target) ValueError;
  Ok (mk_LatticeEvent eid t ty act target pay prior).

(** [Vote(...)] *)
Definition new_Vote (voter proposal dec : string) (ev : list string) (w : float) (ts : datetime) : result Vote :=
  t ← ensure_utc ts;
  _ ← raise_if (is_empty voter) ValueError;
  _ ← raise_if (is_empty proposal) ValueError;
  _ ← raise_if (negb (bool_decide (dec ∈ ["approve"; "deny"; "abstain"]%string))) ValueError;
  _ ← raise_if (SFltb w f_zero) ValueError;
  Ok (mk_Vote voter proposal dec ev w t).

(** [Reputation(...)] *)
Definition new_Reputation (aid : string) (sc : float) (done_ failed : Z) (ratings : list float) (ts : datetime)
    : result Reputation :=
  t ← ensure_utc ts;
  _ ← raise_if (is_empty aid) ValueError;
  _ ← raise_if (negb (SFleb f_zero sc && SFleb sc f_one)) ValueError;
  _ ← raise_if ((done_ <? 0) || (failed <? 0))%Z ValueError;
  Ok (mk_Reputation aid sc done_ failed ratings t).

Definition f_half : float := S754_finite false 4503599627370496 (-53).

(** [Reputation(agent_id=...)] *)
Definition baseline (aid : string) (now : Z) : result Reputation := new_Reputation aid f_half 0 0 [] (utc now).

(** [ConsensusProposal(...)] *)
Definition new_ConsensusProposal (pid proposer ty : string) (q : float) (vs : list Vote) (st : string) (exp : datetime)
    : result ConsensusProposal :=
  t ← ensure_utc exp;
  _ ← raise_if (is_empty pid) ValueError;
  _ ← raise_if (is_empty proposer) ValueError;
  _ ← raise_if (is_empty ty) ValueError;
  _ ← raise_if (negb (SFltb f_zero q && SFleb q f_one)) ValueError;
  _ ← raise_if (negb (bool_decide (st ∈ ["open"; "passed"; "denied"; "expired"]%string))) ValueError;
  Ok (mk_ConsensusProposal pid proposer ty q vs st t).

(** ** Dictionaries *)

Definition event_to_dict (e : LatticeEvent) : dict :=
  [("event_id", VStr (event_id e)); ("timestamp", VStr (iso (timestamp e))); ("event_type", VStr (event_type e));
   ("actor", VStr (actor e)); ("target_id", VStr (target_id e)); ("payload", VDict (payload e));
   ("prior_state", match prior_state e with Some d => VDict d | None => VNone end)]%string.

Definition vote_to_dict (v : Vote) : dict :=
  [("voter_id", VStr (voter_id v)); ("proposal_id", VStr (vote_proposal v)); ("decision", VStr (decision v));
   ("evidence", VList (map VStr (evidence v))); ("weight", VFloat (weight v)); ("timestamp", VStr (iso (voted_at v)))]%string.

Definition reputation_to_dict (r : Reputation) : dict :=
  [("agent_id", VStr (agent_id r)); ("score", VFloat (score r)); ("tasks_completed", VInt (tasks_completed r));
   ("tasks_failed", VInt (tasks_failed r)); ("peer_ratings", VList (map VFloat (peer_ratings r)));
   ("last_updated", VStr (iso (last_updated r)))]%string.

Definition proposal_to_dict (p : ConsensusProposal) : dict :=
  [("proposal_id", VStr (proposal_id p)); ("proposer_id", VStr (proposer_id p)); ("proposal_type", VStr (proposal_type p));
   ("quorum_required", VFloat (quorum_required p)); ("votes", VList (map (fun v => VDict (vote_to_dict v)) (votes p)));
   ("status", VStr (status p)); ("expires_at", VStr (iso (expires_at p)))]%string.

Section FromDict.
Context (other_time : string -> result Z) (other_float : value -> result float).

(** [data[key]] of a text field *)
Definition str_field (key : string) (d : dict) : result string :=
  match dget key d with Some (VStr s) => Ok s | Some _ => Err TypeError | None => Err KeyError end.

(** A timestamp: text is parsed, a [datetime] kept; [ensure_utc] fails on anything else. *)
Definition time_of (v : value) : result (option datetime) :=
  match v with
  | VStr s => t ← fromisoformat other_time s; Ok (Some (utc t))
  | VTime d => Ok (Some d)
  | _ => Ok None
  end.

Definition ensure_time (d : option datetime) : result Z :=
  match d with Some d => ensure_utc d | None => Err AttributeError end.

(** A required timestamp, and one that defaults to now *)
Definition time_field (key : string) (d : dict) : result (option datetime) :=
  match dget key d with Some v => time_of v | None => Err KeyError end.

Definition time_or_now (key : string) (now : Z) (d : dict) : result (option datetime) :=
  match dget key d with Some VNone | None => Ok (Some (utc now)) | Some v => time_of v end.

(** [float(v)] *)
Definition float_of_value (v : value) : result float :=
  match v with
  | VFloat f => Ok f
  | VInt z => Ok (float_of z)
  | VBool b => Ok (float_of (if b then 1 else 0))
  | v => other_float v
  end.

Definition float_field (key : string) (default : float) (d : dict) : result float :=
  match dget key d with Some v => float_of_value v | None => Ok default end.

(** [int(data.get(key, 0))] of an int *)
Definition int_field (key : string) (d : dict) : result Z :=
  match dget key d with Some (VInt z) => Ok z | Some (VBool b) => Ok (if b then 1 else 0)%Z | Some _ => Err TypeError | None => Ok 0%Z end.

(** [data.get(key) or []] *)
Definition list_field (key : string) (d : dict) : result (list value) :=
  match dget key d with
  | Some (VList l) => Ok l
  | Some v => if truthy v then Err TypeError else Ok []
  | None => Ok []
  end.

(** [dict(data.get(key) or {})] *)
Definition dict_field (key : string) (d : dict) : result dict :=
  match dget key d with
  | Some (VDict d') => Ok d'
  | Some v => if truthy v then Err TypeError else Ok []
  | None => Ok []
  end.

Fixpoint map_ok {A B} (f : A -> result B) (l : list A) : result (list B) :=
  match l with [] => Ok [] | x :: l' => y ← f x; ys ← map_ok f l'; Ok (y :: ys) end.

Definition str_of_value (v : value) : result string := match v with VStr s => Ok s | _ => Err TypeError end.

Definition event_from_dict (d : dict) : result LatticeEvent :=
  ts ← time_field "timestamp" d;
  eid ← str_field "event_id" d;
  t ← ensure_time ts;
  ty ← str_field "event_type" d;
  act ← str_field "actor" d;
  target ← str_field "target_id" d;
  pay ← dict_field "payload" d;
  prior ← match dget "prior_state" d with
          | Some VNone | None => Ok None
          | Some (VDict p) => Ok (Some p)
          | Some _ => Err TypeError
          end;
  new_LatticeEvent eid (utc t) ty act target pay prior.

Definition vote_from_dict (now : Z) (d : dict) : result Vote :=
  ts ← time_or_now "timestamp" now d;
  voter ← str_field "voter_id" d;
  proposal ← str_field "proposal_id" d;
  dec ← str_field "decision" d;
  ev ← list_field "evidence" d;
  ev ← map_ok str_of_value ev;
  w ← float_field "weight" f_one d;
  t ← ensure_time ts;
  new_Vote voter proposal dec ev w (utc t).

Definition reputation_from_dict (now : Z) (d : dict) : result Reputation :=
  ts ← time_or_now "last_updated" now d;
  aid ← str_field "agent_id" d;
  sc ← float_field "score" f_half d;
  done_ ← int_field "tasks_completed" d;
  failed ← int_field "tasks_failed" d;
  ratings ← list_field "peer_ratings" d;
  ratings ← map_ok float_of_value ratings;
  t ← ensure_time ts;
  new_Reputation aid sc done_ failed ratings (utc t).

Definition proposal_from_dict (now : Z) (d : dict) : result ConsensusProposal :=
  ts ← time_field "expires_at" d;
  pid ← str_field "proposal_id" d;
  proposer ← str_field "proposer_id" d;
  ty ← str_field "proposal_type" d;
  q ← float_field "quorum_required" f_half d;
  vs ← list_field "votes" d;
  vs ← map_ok (fun v => match v with VDict d => vote_from_dict now d | _ => Err AttributeError end) vs;
  st ← match dget "status" d with Some (VStr s) => Ok s | Some _ => Err TypeError | None => Ok "open"%string end;
  t ← ensure_time ts;
  new_ConsensusProposal pid proposer ty q vs st (utc t).

(** ** Round trips *)

(** A record its constructor returned, and that the calendar holds *)
Definition event_ok (e : LatticeEvent) : Prop :=
  new_LatticeEvent (event_id e) (utc (timestamp e)) (event_type e) (actor e) (target_id e) (payload e) (prior_state e) = Ok e.
Definition vote_ok (v : Vote) : Prop :=
  new_Vote (voter_id v) (vote_proposal v) (decision v) (evidence v) (weight v) (utc (voted_at v)) = Ok v.
Definition reputation_ok (r : Reputation) : Prop :=
  new_Reputation (agent_id r) (score r) (tasks_completed r) (tasks_failed r) (peer_ratings r) (utc (last_updated r)) = Ok r.
Definition proposal_ok (p : ConsensusProposal) : Prop :=
  new_ConsensusProposal (proposal_id p) (proposer_id p) (proposal_type p) (quorum_required p) (votes p) (status p)
    (utc (expires_at p)) = Ok p /\ Forall vote_ok (votes p).

Lemma ensure_utc_calendar t t' : ensure_utc (utc t) = Ok t' -> t' = t /\ in_calendar t = true.
Proof.
  unfold ensure_utc, utc. cbn [offset wall]. rewrite Z.sub_0_r. destruct (in_calendar t); [|done]. by intros [= <-].
Qed.

Lemma map_ok_map {A B C} (f : B -> result C) (g : A -> B) (h : A -> C) l :
  Forall (fun x => f (g x) = Ok (h x)) l -> map_ok f (map g l) = Ok (map h l).
Proof. induction 1 as [|x l Hx Hl IH]; [done|]. cbn [map map_ok]. rewrite Hx. cbn. by rewrite IH. Qed.

Lemma map_ok_id {A B} (f : B -> result A) (g : A -> B) l : Forall (fun x => f (g x) = Ok x) l -> map_ok f (map g l) = Ok l.
Proof. intros H. rewrite <- (map_id l) at 2. by apply map_ok_map. Qed.

Lemma time_of_iso t : in_calendar t = true -> time_of (VStr (iso t)) = Ok (Some (utc t)).
Proof. intros H. cbn [time_of]. by rewrite iso_roundtrip. Qed.

Ltac read_field k d v := change (dget k d) with (Some v).
Ltac read_time H := cbv beta iota; rewrite (time_of_iso _ H); cbn [mbind result_bind ensure_time].

Lemma event_roundtrip e : event_ok e -> event_from_dict (event_to_dict e) = Ok e.
Proof.
  intros He. pose proof He as (t & Ht & _)%result_bind_ok. apply ensure_utc_calendar in Ht as [-> Hc].
  unfold event_from_dict, time_field, str_field, dict_field. set (d := event_to_dict e).
  read_field "timestamp"%string d (VStr (iso (timestamp e))). read_time Hc.
  read_field "event_id"%string d (VStr (event_id e)). cbn [mbind result_bind]. rewrite (ensure_utc_utc _ Hc).
  read_field "event_type"%string d (VStr (event_type e)). read_field "actor"%string d (VStr (actor e)).
  read_field "target_id"%string d (VStr (target_id e)). read_field "payload"%string d (VDict (payload e)).
  read_field "prior_state"%string d (match prior_state e with Some d => VDict d | None => VNone end).
  cbn [mbind result_bind]. destruct (prior_state e) eqn:Hp; cbn [mbind result_bind];
    unfold event_ok in He; rewrite Hp in He; exact He.
Qed.

Lemma vote_roundtrip now v : vote_ok v -> vote_from_dict now (vote_to_dict v) = Ok v.
Proof.
  intros Hv. pose proof Hv as (t & Ht & _)%result_bind_ok. apply ensure_utc_calendar in Ht as [-> Hc].
  unfold vote_from_dict, time_or_now, str_field, list_field, float_field. set (d := vote_to_dict v).
  read_field "timestamp"%string d (VStr (iso (voted_at v))). read_time Hc.
  read_field "voter_id"%string d (VStr (voter_id v)). read_field "proposal_id"%string d (VStr (vote_proposal v)).
  read_field "decision"%string d (VStr (decision v)). read_field "evidence"%string d (VList (map VStr (evidence v))).
  read_field "weight"%string d (VFloat (weight v)). cbn [mbind result_bind float_of_value].
  rewrite (map_ok_id str_of_value VStr) by (by apply Forall_true). cbn [mbind result_bind]. by rewrite (ensure_utc_utc _ Hc).
Qed.

Lemma reputation_roundtrip now r : reputation_ok r -> reputation_from_dict now (reputation_to_dict r) = Ok r.
Proof.
  intros Hr. pose proof Hr as (t & Ht & _)%result_bind_ok. apply ensure_utc_calendar in Ht as [-> Hc].
  unfold reputation_from_dict, time_or_now, str_field, list_field, float_field, int_field. set (d := reputation_to_dict r).
  read_field "last_updated"%string d (VStr (iso (last_updated r))). read_time Hc.
  read_field "agent_id"%string d (VStr (agent_id r)). read_field "score"%string d (VFloat (score r)).
  read_field "tasks_completed"%string d (VInt (tasks_completed r)). read_field "tasks_failed"%string d (VInt (tasks_failed r)).
  read_field "peer_ratings"%string d (VList (map VFloat (peer_ratings r))). cbn [mbind result_bind float_of_value].
  rewrite (map_ok_id float_of_value VFloat) by (by apply Forall_true). cbn [mbind result_bind]. by rewrite (ensure_utc_utc _ Hc).
Qed.

(** A proposal is read back from its dictionary with all its votes. *)
Lemma proposal_roundtrip now p : proposal_ok p -> proposal_from_dict now (proposal_to_dict p) = Ok p.
Proof.
  intros [Hp Hvs]. pose proof Hp as (t & Ht & _)%result_bind_ok. apply ensure_utc_calendar in Ht as [-> Hc].
  unfold proposal_from_dict, time_field, str_field, list_field, float_field. set (d := proposal_to_dict p).
  read_field "expires_at"%string d (VStr (iso (expires_at p))). read_time Hc.
  read_field "proposal_id"%string d (VStr (proposal_id p)). read_field "proposer_id"%string d (VStr (proposer_id p)).
  read_field "proposal_type"%string d (VStr (proposal_type p)). read_field "quorum_required"%string d (VFloat (quorum_required p)).
  read_field "votes"%string d (VList (map (fun v => VDict (vote_to_dict v)) (votes p))).
  read_field "status"%string d (VStr (status p)). cbn [mbind result_bind float_of_value].
  rewrite (map_ok_id _ (fun v => VDict (vote_to_dict v))).
  2:{ eapply Forall_impl; [exact Hvs|]. intros v. apply vote_roundtrip. }
  cbn [mbind result_bind]. by rewrite (ensure_utc_utc _ Hc).
Qed.
End FromDict.

(** ** Configuration *)

Record LatticeConfig := mk_LatticeConfig {
  cfg_backend : string;
  cfg_sqlite_path : string;
  cfg_neo4j_uri : option string;
  cfg_neo4j_user : option string;
  cfg_neo4j_password : option string;
  cfg_neo4j_database : string;
  cfg_qdrant_url : option string;
  cfg_qdrant_api_key : option string;
  cfg_vector_model : string;
  cfg_vector_dimension : Z;
  cfg_event_retention_days : Z;
  cfg_prune_enabled : bool;
  cfg_default_quorum : float;
  cfg_proposal_ttl_seconds : Z;
  cfg_reputation_window : Z;
}.

(** [__post_init__] *)
Definition normalized_backend (b : string) : string := py_lower (py_strip (if is_empty b then "sqlite" else b)).

(** [0.66] *)
Definition default_quorum : float := S754_finite false 5944751508129055 (-53).

(** [LatticeConfig()] *)
Definition default_config : LatticeConfig :=
  mk_LatticeConfig (normalized_backend "sqlite") "./data/lattice.db" None None None "theagency" None None
    "sentence-transformers/all-MiniLM-L6-v2" 384 365 false default_quorum 3600 20.
