(* ===== verification/Reputation.v ===== *)
(** * Reputation

    [src/agency/lattice/reputation.py].  [State] is what the reputation and the
    governance engines keep, and the world of the backend they mirror to; a
    [Backend] has the three operations they look for, each [None] where
    [getattr] finds none.  [clock] are the readings of [utc_now] in the order
    they are taken and [uuid] the random ids.  The code between two awaits is
    one step of a task, and the sections under a lock are such steps. *)
From S2P Require Import Prelude PyStr PyDict Floats AuditTrail IsoTime LatticeModels.
From Stdlib Require Import SpecFloat.

Definition REPUTATION_WINDOW : nat := 20.
Definition TRUSTED_VOTERS : list string := ["butler"; "user"]%string.

(** What the engines call of a lattice backend *)
Record Backend (W : Type) := mk_Backend {
  be_create_node : option (NodeType -> dict -> string -> py W string);
  be_add_edge : option (string -> string -> EdgeType -> dict -> string -> py W string);
  be_update_node : option (string -> dict -> string -> py W bool);
}.
Arguments be_create_node {W} _.
Arguments be_add_edge {W} _.
Arguments be_update_node {W} _.

Record State (W : Type) := mk_State {
  reputations : list (string * Reputation);
  proposals : list (string * ConsensusProposal);
  payloads : list (string * dict);
  ticks : nat;
  drawn : nat;
  world : W;
}.
Arguments mk_State {W}. Arguments reputations {W}. Arguments proposals {W}. Arguments payloads {W}.
Arguments ticks {W}. Arguments drawn {W}. Arguments world {W}.

(** ** Scores *)

(** [l[-n:]] *)
Definition last_n {A} (n : nat) (l : list A) : list A := drop (length l - n) l.

(** [0.6], [0.4] *)
Definition success_share : float := S754_finite false 5404319552844595 (-53).
Definition peer_share : float := S754_finite false 7205759403792794 (-54).

Definition mean (l : list float) : float := fdiv (fsum l) (float_of (Z.of_nat (length l))).

Definition compute_score (r : Reputation) : float :=
  let total := (tasks_completed r + tasks_failed r)%Z in
  let window := last_n REPUTATION_WINDOW (peer_ratings r) in
  match window with
  | [] => if (total =? 0)%Z then f_half else int_div (tasks_completed r) total
  | _ =>
      if (total =? 0)%Z then mean window
      else fadd (fmul success_share (int_div (tasks_completed r) total)) (fmul peer_share (mean window))
  end.

Section Engine.
Context {W : Type} (be : Backend W) (clock : nat -> Z) (uuid : nat -> string).
Abbreviation State := (State W).

Definition utc_now : py State Z := fun s =>
  (Ok (clock (ticks s)), mk_State (reputations s) (proposals s) (payloads s) (S (ticks s)) (drawn s) (world s)).

Definition set_reputation (r : Reputation) : py State unit :=
  modify (fun s => mk_State (dset (agent_id r) r (reputations s)) (proposals s) (payloads s) (ticks s) (drawn s) (world s)).

(** A call of the backend, which only its world sees; [except Exception] is logged. *)
Definition on_backend {A} (op : py W A) : py State unit := fun s =>
  let '(r, w) := op (world s) in
  let s' := mk_State (reputations s) (proposals s) (payloads s) (ticks s) (drawn s) w in
  match r with
  | Ok _ => (Ok tt, s')
  | Err e => if bool_decide (e = CancelledError) then (Err e, s') else (Ok tt, s')
  end.

(** [_stored_or_baseline] *)
Definition stored_or_baseline (aid : string) : py State Reputation :=
  s ← get;
  match dget aid (reputations s) with
  | Some r => mret r
  | None => now ← utc_now; lift (baseline aid now)
  end.

(** [_mirror_to_backend] *)
Definition mirror_to_backend (r : Reputation) (extra : dict) : py State unit :=
  match be_update_node be with
  | None => mret tt
  | Some update =>
      let payload := [("reputation_score", VFloat (score r)); ("tasks_completed", VInt (tasks_completed r));
                      ("tasks_failed", VInt (tasks_failed r));
                      ("peer_ratings", VList (map VFloat (last_n REPUTATION_WINDOW (peer_ratings r))))]%string in
      let set d e := match e.2 with VNone => d | v => dset e.1 v d end in
      on_backend (update (agent_id r) (fold_left set extra payload) "governance"%string)
  end.

(** [0.0 <= r <= 1.0] *)
Definition in_unit (f : float) : bool := SFleb f_zero f && SFleb f f_one.

(** The section of [record_task_completion] under the lock *)
Definition fold_outcome (aid : string) (success : bool) (rating : option float) : py State Reputation :=
  rep ← stored_or_baseline aid;
  let ratings := match rating with
                 | Some f => last_n REPUTATION_WINDOW (peer_ratings rep ++ [f])
                 | None => peer_ratings rep
                 end in
  now ← utc_now;
  updated ← lift (new_Reputation aid f_half (tasks_completed rep + (if success then 1 else 0))
                    (tasks_failed rep + (if success then 0 else 1)) ratings (utc now));
  let updated := mk_Reputation (agent_id updated) (compute_score updated) (tasks_completed updated) (tasks_failed updated)
                   (peer_ratings updated) (last_updated updated) in
  _ ← set_reputation updated;
  mret updated.

Definition record_task_completion (aid : string) (success : bool) (rating : option float) : py State Reputation :=
  _ ← raise_when (is_empty aid) ValueError;
  _ ← raise_when (match rating with Some f => negb (in_unit f) | None => false end) ValueError;
  updated ← fold_outcome aid success rating;
  _ ← mirror_to_backend updated [];
  mret updated.

(** The section of [submit_peer_rating] under the lock *)
Definition fold_rating (ratee : string) (rating : float) : py State Reputation :=
  rep ← stored_or_baseline ratee;
  now ← utc_now;
  updated ← lift (new_Reputation ratee f_half (tasks_completed rep) (tasks_failed rep)
                    (last_n REPUTATION_WINDOW (peer_ratings rep ++ [rating])) (utc now));
  let updated := mk_Reputation (agent_id updated) (compute_score updated) (tasks_completed updated) (tasks_failed updated)
                   (peer_ratings updated) (last_updated updated) in
  _ ← set_reputation updated;
  mret updated.

Definition submit_peer_rating (rater ratee : string) (rating : float) (context : option string) : py State bool :=
  _ ← raise_when (is_empty rater) ValueError;
  _ ← raise_when (is_empty ratee) ValueError;
  _ ← raise_when (negb (in_unit rating)) ValueError;
  updated ← fold_rating ratee rating;
  _ ← mirror_to_backend updated
        [("rater_id", VStr rater); ("context", match context with Some c => VStr c | None => VNone end)]%string;
  mret true.

Definition get_reputation (aid : string) : py State Reputation :=
  _ ← raise_when (is_empty aid) ValueError;
  s ← get;
  match dget aid (reputations s) with
  | None => now ← utc_now; lift (baseline aid now)
  | Some r => lift (new_Reputation (agent_id r) (score r) (tasks_completed r) (tasks_failed r) (peer_ratings r)
                      (utc (last_updated r)))
  end.

Definition get_leaderboard (limit : Z) : py State (list Reputation) :=
  _ ← raise_when (limit <=? 0)%Z ValueError;
  gets (fun s => firstn (Z.to_nat limit) (sort_by (fun a b => SFleb (score b) (score a)) (dvalues (reputations s)))).

Definition vote_weight (voter : string) : py State float :=
  _ ← raise_when (is_empty voter) ValueError;
  if bool_decide (py_lower (py_strip voter) ∈ TRUSTED_VOTERS) then mret f_one
  else rep ← get_reputation voter; mret (score rep).

(** ** Scores stay between 0 and 1 *)

(** What the engine keeps of an agent *)
Record kept_reputation (aid : string) (r : Reputation) : Prop := {
  kr_agent : agent_id r = aid;
  kr_named : is_empty aid = false;
  kr_counts : (0 <= tasks_completed r /\ 0 <= tasks_failed r)%Z;
  kr_ratings : Forall unit_float (peer_ratings r);
  kr_window : length (peer_ratings r) <= REPUTATION_WINDOW;
  kr_score : score r = compute_score r;
  kr_time : in_calendar (last_updated r) = true;
}.

Lemma last_n_all {A} n (l : list A) : length l <= n -> last_n n l = l.
Proof. intros H. unfold last_n. by replace (length l - n) with 0 by lia. Qed.

Lemma length_last_n {A} n (l : list A) : length (last_n n l) <= n.
Proof. unfold last_n. rewrite length_drop. lia. Qed.

Lemma Forall_last_n {A} (P : A -> Prop) n l : Forall P l -> Forall P (last_n n l).
Proof. apply Forall_drop. Qed.

Lemma mean_unit l : Forall unit_float l -> l <> [] -> length l <= REPUTATION_WINDOW -> unit_float (mean l).
Proof. intros H Hne Hl. apply average_unit; done. Qed.

(** [0.6 * a + 0.4 * b] of two numbers between 0 and 1 *)
Lemma blend_unit a b : unit_float a -> unit_float b -> unit_float (fadd (fmul success_share a) (fmul peer_share b)).
Proof.
  intros Ha Hb.
  apply (fadd_within 5404319552844595 3602879701896397 (-53)); [done|done|apply one_representable|lia|by vm_compute| |].
  - apply (fmul_within 5404319552844595 (-53) (2 ^ 52) (-52)); [lia|lia|split; vm_compute; [done|split; discriminate]|lia|
      by vm_compute| |exact Ha]. split; by vm_compute.
  - apply (within_weaken 7205759403792794 (-54)); [lia|lia|by vm_compute|].
    apply (fmul_within 7205759403792794 (-54) (2 ^ 52) (-52)); [lia|lia|split; vm_compute; [done|split; discriminate]|lia|
      by vm_compute| |exact Hb]. split; by vm_compute.
Qed.

Lemma compute_score_unit r : (0 <= tasks_completed r)%Z -> (0 <= tasks_failed r)%Z -> Forall unit_float (peer_ratings r) ->
  unit_float (compute_score r).
Proof.
  intros Hc Hf Hr. unfold compute_score. apply (Forall_last_n _ REPUTATION_WINDOW) in Hr.
  pose proof (length_last_n REPUTATION_WINDOW (peer_ratings r)) as Hl.
  assert (Hd : (tasks_completed r + tasks_failed r <> 0)%Z ->
    unit_float (int_div (tasks_completed r) (tasks_completed r + tasks_failed r))) by (intros; apply int_div_unit; lia).
  destruct (last_n _ _) as [|f l] eqn:E; destruct (Z.eqb_spec (tasks_completed r + tasks_failed r) 0).
  - split; [done|by vm_compute].
  - by apply Hd.
  - apply mean_unit; [exact Hr|done|exact Hl].
  - apply blend_unit; [by apply Hd|apply mean_unit; [exact Hr|done|exact Hl]].
Qed.

Definition with_ticks (s : State) (n : nat) : State :=
  mk_State (reputations s) (proposals s) (payloads s) n (drawn s) (world s).
Definition with_reputation (s : State) (aid : string) (r : Reputation) : State :=
  mk_State (dset aid r (reputations s)) (proposals s) (payloads s) (ticks s) (drawn s) (world s).

Definition reputations_ok (s : State) : Prop := forall aid r, dget aid (reputations s) = Some r -> kept_reputation aid r.

Context (Hclock : forall n, in_calendar (clock n) = true).

Lemma new_reputation_run aid sc c f l (t : Z) : in_calendar t = true -> is_empty aid = false -> in_unit sc = true ->
  (0 <= c)%Z -> (0 <= f)%Z -> new_Reputation aid sc c f l (utc t) = Ok (mk_Reputation aid sc c f l t).
Proof.
  intros Ht Ha Hs Hc Hf. unfold new_Reputation. rewrite ensure_utc_utc by done. cbn [mbind result_bind].
  rewrite Ha. unfold in_unit in Hs. rewrite Hs. cbn [negb raise_if mbind result_bind].
  rewrite (proj2 (Z.ltb_ge c 0)), (proj2 (Z.ltb_ge f 0)) by lia. done.
Qed.

Lemma baseline_ok aid t : in_calendar t = true -> is_empty aid = false ->
  baseline aid t = Ok (mk_Reputation aid f_half 0 0 [] t) /\ kept_reputation aid (mk_Reputation aid f_half 0 0 [] t).
Proof.
  intros Ht Ha. unfold baseline. split; [by apply new_reputation_run|]. split; cbn; try done; unfold REPUTATION_WINDOW; lia.
Qed.

Lemma stored_run aid s : reputations_ok s -> is_empty aid = false ->
  exists r n, stored_or_baseline aid s = (Ok r, with_ticks s n) /\ kept_reputation aid r /\ ticks s <= n /\
    (dget aid (reputations s) = Some r \/ dget aid (reputations s) = None /\ r = mk_Reputation aid f_half 0 0 [] (clock (ticks s))).
Proof using Hclock.
  intros Hs Ha. unfold stored_or_baseline, get. unfold mbind, py_bind. destruct (dget aid (reputations s)) as [r|] eqn:E.
  - exists r, (ticks s). split; [by destruct s|]. split; [by apply Hs|]. split; [done|by left].
  - destruct (baseline_ok aid (clock (ticks s)) (Hclock _) Ha) as [Hb Hk].
    exists (mk_Reputation aid f_half 0 0 [] (clock (ticks s))), (S (ticks s)). unfold utc_now, lift; cbv beta iota; rewrite Hb.
    split; [done|]. split; [done|]. split; [lia|by right].
Qed.

(** A new state of an agent, with its score recomputed *)
Lemma rescored_kept aid c f l t : is_empty aid = false -> (0 <= c)%Z -> (0 <= f)%Z -> Forall unit_float l ->
  length l <= REPUTATION_WINDOW -> in_calendar t = true ->
  kept_reputation aid (mk_Reputation aid (compute_score (mk_Reputation aid f_half c f l t)) c f l t).
Proof. intros. by split. Qed.

(** The ratings after one more *)
Definition rated (l : list float) (rating : option float) : list float :=
  match rating with Some f => last_n REPUTATION_WINDOW (l ++ [f]) | None => l end.

Definition rating_ok (rating : option float) : Prop := match rating with Some f => unit_float f | None => True end.

Lemma rated_ok l rating : Forall unit_float l -> length l <= REPUTATION_WINDOW -> rating_ok rating ->
  Forall unit_float (rated l rating) /\ length (rated l rating) <= REPUTATION_WINDOW.
Proof.
  intros Hl Hn Hr. destruct rating as [f|]; [|done]. cbn. split; [|apply length_last_n].
  apply Forall_last_n, Forall_app. split; [done|by apply Forall_singleton].
Qed.

(** Recording an outcome never fails: it counts it, adds the rating and recomputes the score. *)
Lemma fold_outcome_run aid success rating s : reputations_ok s -> is_empty aid = false -> rating_ok rating ->
  exists r r0 n, fold_outcome aid success rating s = (Ok r, with_reputation (with_ticks s n) aid r) /\
    kept_reputation aid r /\ kept_reputation aid r0 /\ ticks s < n /\ last_updated r = clock (n - 1) /\
    (dget aid (reputations s) = Some r0 \/
     dget aid (reputations s) = None /\ tasks_completed r0 = 0%Z /\ tasks_failed r0 = 0%Z /\ peer_ratings r0 = []) /\
    tasks_completed r = (tasks_completed r0 + if success then 1 else 0)%Z /\
    tasks_failed r = (tasks_failed r0 + if success then 0 else 1)%Z /\
    peer_ratings r = rated (peer_ratings r0) rating.
Proof using Hclock.
  intros Hs Ha Hr. destruct (stored_run aid s Hs Ha) as (r0 & n & Hrun & Hk & Hn & H0).
  destruct (rated_ok (peer_ratings r0) rating) as [Hr1 Hr2]; [apply Hk..|done|].
  pose proof (kr_counts _ _ Hk) as [Hc Hf].
  set (c := (tasks_completed r0 + if success then 1 else 0)%Z). set (f := (tasks_failed r0 + if success then 0 else 1)%Z).
  assert (0 <= c)%Z by (unfold c; destruct success; lia). assert (0 <= f)%Z by (unfold f; destruct success; lia).
  exists (mk_Reputation aid (compute_score (mk_Reputation aid f_half c f (rated (peer_ratings r0) rating) (clock n))) c f
            (rated (peer_ratings r0) rating) (clock n)), r0, (S n).
  split.
  - unfold fold_outcome. rewrite bind_run, Hrun. fold (rated (peer_ratings r0) rating). cbn [utc_now with_ticks ticks].
    rewrite bind_run. unfold utc_now. cbn [with_ticks ticks]. rewrite bind_lift, new_reputation_run by done. done.
  - split; [by apply rescored_kept|]. split; [done|]. split; [lia|]. split; [cbn; f_equal; lia|].
    split; [|done]. destruct H0 as [H0|[H0 ->]]; [by left|by right].
Qed.

(** So does recording a rating *)
Lemma fold_rating_run aid rating s : reputations_ok s -> is_empty aid = false -> unit_float rating ->
  exists r n, fold_rating aid rating s = (Ok r, with_reputation (with_ticks s n) aid r) /\ kept_reputation aid r /\ ticks s <= n.
Proof using Hclock.
  intros Hs Ha Hr. destruct (stored_run aid s Hs Ha) as (r0 & n & Hrun & Hk & Hn & _).
  destruct (rated_ok (peer_ratings r0) (Some rating)) as [Hr1 Hr2]; [apply Hk..|done|].
  pose proof (kr_counts _ _ Hk) as [Hc Hf].
  exists (mk_Reputation aid (compute_score (mk_Reputation aid f_half (tasks_completed r0) (tasks_failed r0)
            (rated (peer_ratings r0) (Some rating)) (clock n))) (tasks_completed r0) (tasks_failed r0)
            (rated (peer_ratings r0) (Some rating)) (clock n)), (S n).
  split; [|split; [by apply rescored_kept|lia]].
  unfold fold_rating. rewrite bind_run, Hrun. fold (rated (peer_ratings r0) (Some rating)).
  rewrite bind_run. unfold utc_now. cbn [with_ticks ticks]. rewrite bind_lift, new_reputation_run by done. done.
Qed.

Lemma with_reputation_ok s n aid r : reputations_ok s -> kept_reputation aid r ->
  reputations_ok (with_reputation (with_ticks s n) aid r).
Proof.
  intros Hs Hr aid' r'. cbn [with_reputation with_ticks reputations]. rewrite dget_dset.
  destruct (decide (aid = aid')) as [<-|]; [intros [= <-]; done|apply Hs].
Qed.

(** A kept reputation can always be read. *)
Lemma get_reputation_run aid s : reputations_ok s -> is_empty aid = false ->
  exists r n, get_reputation aid s = (Ok r, with_ticks s n) /\ kept_reputation aid r /\ ticks s <= n /\
    (dget aid (reputations s) = Some r \/ dget aid (reputations s) = None /\ score r = f_half).
Proof using Hclock.
  intros Hs Ha. unfold get_reputation. rewrite bind_raise_when, Ha. unfold get. rewrite bind_run.
  destruct (dget aid (reputations s)) as [r|] eqn:E.
  - pose proof (Hs _ _ E) as Hk. exists r, (ticks s). unfold lift. rewrite new_reputation_run.
    + split; [by destruct s, r|]. split; [done|]. split; [done|by left].
    + apply Hk.
    + by rewrite (kr_agent _ _ Hk).
    + unfold in_unit. rewrite (kr_score _ _ Hk).
      destruct (unit_float_test (compute_score r)) as [-> ->]; [|done]. apply compute_score_unit; apply Hk.
    + apply Hk.
    + apply Hk.
  - destruct (baseline_ok aid (clock (ticks s)) (Hclock _) Ha) as [Hb Hk].
    exists (mk_Reputation aid f_half 0 0 [] (clock (ticks s))), (S (ticks s)). rewrite bind_run. unfold utc_now, lift; cbv beta iota; rewrite Hb.
    split; [done|]. split; [done|]. split; [lia|by right].
Qed.

Lemma vote_weight_run voter s : reputations_ok s -> is_empty voter = false ->
  exists w n, vote_weight voter s = (Ok w, with_ticks s n) /\ unit_float w /\ ticks s <= n /\
    w = (if bool_decide (py_lower (py_strip voter) ∈ TRUSTED_VOTERS) then f_one
         else match dget voter (reputations s) with Some r => score r | None => f_half end).
Proof using Hclock.
  intros Hs Ha. unfold vote_weight. rewrite bind_raise_when, Ha. destruct (bool_decide _).
  - exists f_one, (ticks s). split; [by destruct s|]. split; [apply unit_one|done].
  - destruct (get_reputation_run voter s Hs Ha) as (r & n & Hrun & Hk & Hn & H0). exists (score r), n.
    rewrite bind_run, Hrun. split; [done|]. split.
    + rewrite (kr_score _ _ Hk). apply compute_score_unit; apply Hk.
    + split; [done|]. destruct H0 as [->|[-> ->]]; done.
Qed.
End Engine.
