(* ===== verification/Governance.v ===== *)
(** * Governance

    [src/agency/lattice/governance.py], over [Reputation].  Each section under
    the lock is a definition of its own; an operation composes them with the
    calls of the backend between, where other tasks may run. *)
From S2P Require Import Prelude PyStr PyDict Floats AuditTrail IsoTime LatticeModels Reputation.
From Stdlib Require Import SpecFloat.

Definition PROPOSAL_TYPES : list string := ["spawn_agent"; "replace_agent"; "policy_change"; "agent_restart"]%string.
Definition VOTE_DECISIONS : list string := ["approve"; "deny"; "abstain"]%string.

(** ** The tally *)

Definition weights (d : string) (vs : list Vote) : list float :=
  map weight (List.filter (fun v => String.eqb (decision v) d) vs).

Definition tally (p : ConsensusProposal) : float * float :=
  (fsum (weights "approve" (votes p)), fsum (weights "deny" (votes p))).

Definition approve_ratio (p : ConsensusProposal) : option float :=
  let '(approve, deny) := tally p in
  let total := fadd approve deny in
  if SFleb total f_zero then None else Some (fdiv approve total).

Definition meets_quorum (p : ConsensusProposal) : bool :=
  match approve_ratio p with Some r => SFleb (quorum_required p) r | None => false end.

Definition with_status (st : string) (p : ConsensusProposal) : ConsensusProposal :=
  mk_ConsensusProposal (proposal_id p) (proposer_id p) (proposal_type p) (quorum_required p) (votes p) st (expires_at p).
Definition with_votes (vs : list Vote) (p : ConsensusProposal) : ConsensusProposal :=
  mk_ConsensusProposal (proposal_id p) (proposer_id p) (proposal_type p) (quorum_required p) vs (status p) (expires_at p).

(** [voter_id.strip().lower() == "user"] *)
Definition is_user (voter : string) : bool := String.eqb (py_lower (py_strip voter)) "user".

(** ** Ballots *)

Definition user_ballot (d : string) (p : ConsensusProposal) : Prop :=
  exists v, v ∈ votes p /\ is_user (voter_id v) = true /\ decision v = d.

(** A ballot as it is counted: one of the told weights *)
Record ballot_ok (h : list (string * float)) (pid : string) (v : Vote) : Prop := {
  bo_vote : vote_ok v;
  bo_proposal : vote_proposal v = pid;
  bo_weight : (voter_id v, weight v) ∈ h;
  bo_unit : unit_float (weight v);
}.

(** The proposal with a ballot recorded in place of the voter's earlier one *)
Definition with_ballot (v : Vote) (p : ConsensusProposal) : ConsensusProposal :=
  with_votes (List.filter (fun u => negb (String.eqb (voter_id u) (voter_id v))) (votes p) ++ [v]) p.

(** Its status then *)
Definition ballot_status (v : Vote) (p : ConsensusProposal) : string :=
  if is_user (voter_id v) && bool_decide (decision v ∈ ["approve"; "deny"]%string)
  then (if String.eqb (decision v) "approve" then "passed" else "denied")%string
  else if meets_quorum p then "passed"%string else status p.

Lemma fields_ok p vs st :
  new_ConsensusProposal (proposal_id p) (proposer_id p) (proposal_type p) (quorum_required p) (votes p) (status p)
    (utc (expires_at p)) = Ok p ->
  st ∈ ["open"; "passed"; "denied"; "expired"]%string ->
  new_ConsensusProposal (proposal_id p) (proposer_id p) (proposal_type p) (quorum_required p) vs st (utc (expires_at p)) =
    Ok (with_status st (with_votes vs p)).
Proof.
  unfold new_ConsensusProposal. intros H Hst. destruct (ensure_utc (utc (expires_at p))) as [t|] eqn:Et; [|done].
  apply ensure_utc_calendar in Et as [-> _]. cbn [mbind result_bind] in *.
  destruct (is_empty (proposal_id p)), (is_empty (proposer_id p)), (is_empty (proposal_type p)); try done.
  cbn [raise_if mbind result_bind] in *. destruct (SFltb _ _ && SFleb _ _); [|done]. cbn [negb raise_if mbind result_bind].
  by rewrite bool_decide_eq_true_2.
Qed.

Lemma fields_named p : new_ConsensusProposal (proposal_id p) (proposer_id p) (proposal_type p) (quorum_required p) (votes p)
    (status p) (utc (expires_at p)) = Ok p -> is_empty (proposal_id p) = false.
Proof.
  unfold new_ConsensusProposal. destruct (ensure_utc _); [|done]. cbn [mbind result_bind]. by destruct (is_empty (proposal_id p)).
Qed.

Lemma with_votes_same p : with_votes (votes p) p = p.
Proof. by destruct p. Qed.

Lemma fields_status p st :
  new_ConsensusProposal (proposal_id p) (proposer_id p) (proposal_type p) (quorum_required p) (votes p) (status p)
    (utc (expires_at p)) = Ok p ->
  st ∈ ["open"; "passed"; "denied"; "expired"]%string ->
  new_ConsensusProposal (proposal_id p) (proposer_id p) (proposal_type p) (quorum_required p) (votes p) st (utc (expires_at p)) =
    Ok (with_status st p).
Proof. intros H Hst. rewrite (fields_ok p (votes p) st H Hst). by rewrite with_votes_same. Qed.

Lemma ballot_status_in v p : status p = "open"%string -> ballot_status v p ∈ ["open"; "passed"; "denied"; "expired"]%string.
Proof.
  intros Hp. unfold ballot_status. destruct (_ && _); [destruct (String.eqb _ _); set_solver|].
  destruct (meets_quorum p); [set_solver|rewrite Hp; set_solver].
Qed.

Lemma approve_or_deny d : d ∈ ["approve"; "deny"]%string -> d <> "approve"%string -> d = "deny"%string.
Proof. set_solver. Qed.

Lemma with_ballot_voters v p : NoDup (map voter_id (votes p)) -> NoDup (map voter_id (votes (with_ballot v p))).
Proof.
  intros H. cbn. rewrite map_app. apply NoDup_app. split; [|split; [|apply NoDup_singleton]].
  - induction (votes p) as [|u l IH]; [constructor|]. cbn in *. apply NoDup_cons in H as [Hu H].
    destruct (negb _); [|by apply IH]. cbn. apply NoDup_cons. split; [|by apply IH]. contradict Hu.
    apply list_elem_of_fmap in Hu as (u' & Hu' & [_ Hin]%elem_of_filter_bool). apply list_elem_of_fmap. by exists u'.
  - intros x Hx%list_elem_of_fmap ->%list_elem_of_singleton. destruct Hx as (u & Hu & [Hne _]%elem_of_filter_bool).
    rewrite Hu, String.eqb_refl in Hne. done.
Qed.

Lemma elem_of_with_ballot v p u : u ∈ votes (with_ballot v p) <-> u = v \/ u ∈ votes p /\ voter_id u <> voter_id v.
Proof.
  cbn. rewrite elem_of_app, list_elem_of_singleton, elem_of_filter_bool.
  destruct (String.eqb_spec (voter_id u) (voter_id v)); cbn; naive_solver.
Qed.

Lemma sub_cons {A} (x : A) l : l ⊆ x :: l.
Proof. set_solver. Qed.

Section Engine.
Context {W : Type} (be : Backend W) (clock : nat -> Z) (uuid : nat -> string) (other_time : string -> result Z)
        (other_float : value -> result float).
Abbreviation State := (State W).
Abbreviation utc_now := (utc_now (W:=W) clock).

Definition new_id : py State string := fun s =>
  (Ok ("prop_" +:+ uuid (drawn s))%string,
   mk_State (reputations s) (proposals s) (payloads s) (ticks s) (S (drawn s)) (world s)).

Definition put_proposal (pid : string) (p : ConsensusProposal) : py State unit :=
  modify (fun s => mk_State (reputations s) (dset pid p (proposals s)) (payloads s) (ticks s) (drawn s) (world s)).

(** [_require_locked] *)
Definition require (pid : string) : py State ConsensusProposal :=
  s ← get; match dget pid (proposals s) with Some p => mret p | None => raise KeyError end.

(** [_is_expired_locked] *)
Definition is_expired (p : ConsensusProposal) : py State bool := now ← utc_now; mret (expires_at p <=? now)%Z.

(** [_mark_locked] *)
Definition mark (pid st : string) : py State unit := p ← require pid; put_proposal pid (with_status st p).

(** [utc_now() + timedelta(seconds=...)] *)
Definition after_seconds (now secs : Z) : result datetime :=
  let t := (now + secs * 1000000)%Z in if in_calendar t then Ok (utc t) else Err OverflowError.

(** ** Mirroring *)

(** [_mirror_proposal] *)
Definition mirror_proposal (pid : string) (payload : dict) : py State unit :=
  match be_create_node be with
  | None => mret tt
  | Some create_node =>
      s ← get;
      match dget pid (proposals s) with
      | Some p =>
          on_backend (create_node DECISION
            [("proposal_id", VStr (proposal_id p)); ("proposer_id", VStr (proposer_id p));
             ("proposal_type", VStr (proposal_type p)); ("quorum_required", VFloat (quorum_required p));
             ("status", VStr (status p)); ("expires_at", VStr (iso (expires_at p))); ("payload", VDict payload)]%string
            (proposer_id p))
      | None => mret tt
      end
  end.

(** [_mirror_vote] *)
Definition mirror_vote (pid voter dec : string) (w : float) (ev : list string) : py State unit :=
  match be_add_edge be with
  | None => mret tt
  | Some add_edge =>
      on_backend (add_edge voter pid VOTED_ON
        [("decision", VStr dec); ("weight", VFloat w); ("evidence", VList (map VStr ev))]%string voter)
  end.

(** [_mirror_resolution_locked] *)
Definition mirror_resolution_locked (p : ConsensusProposal) : py State unit :=
  match be_create_node be with
  | None => mret tt
  | Some create_node =>
      let '(approve, deny) := tally p in
      on_backend (create_node DECISION
        [("proposal_id", VStr (proposal_id p)); ("resolution", VStr (status p)); ("approve_weight", VFloat approve);
         ("deny_weight", VFloat deny); ("vote_count", VInt (Z.of_nat (length (votes p))))]%string "governance"%string)
  end.

(** [ConsensusProposal.from_dict(p.to_dict())] *)
Definition copy_of (p : ConsensusProposal) : py State ConsensusProposal :=
  s ← get; lift (proposal_from_dict other_time other_float (clock (ticks s)) (proposal_to_dict p)).

(** [_mirror_resolution] *)
Definition mirror_resolution (pid : string) : py State unit :=
  s ← get;
  match dget pid (proposals s) with
  | Some p => snapshot ← copy_of p; mirror_resolution_locked snapshot
  | None => mret tt
  end.

(** ** The operations *)

(** The section of [submit_proposal] under the lock *)
Definition enter_proposal (pid : string) (p : ConsensusProposal) (payload : dict) : py State unit :=
  modify (fun s => mk_State (reputations s) (dset pid p (proposals s)) (dset pid payload (payloads s)) (ticks s) (drawn s) (world s)).

(** The proposal [submit_proposal] makes *)
Definition make_proposal (proposer ty : string) (quorum : float) (ttl : Z) : py State ConsensusProposal :=
  _ ← raise_when (is_empty proposer) ValueError;
  _ ← raise_when (negb (bool_decide (ty ∈ PROPOSAL_TYPES))) ValueError;
  _ ← raise_when (negb (SFltb f_zero quorum && SFleb quorum f_one)) ValueError;
  _ ← raise_when (ttl <=? 0)%Z ValueError;
  pid ← new_id;
  now ← utc_now;
  expires ← lift (after_seconds now ttl);
  t ← lift (ensure_utc expires);
  lift (new_ConsensusProposal pid proposer ty quorum [] "open" (utc t)).

Definition submit_proposal (proposer ty : string) (payload : dict) (quorum : float) (ttl : Z) : py State string :=
  p ← make_proposal proposer ty quorum ttl;
  _ ← enter_proposal (proposal_id p) p payload;
  _ ← mirror_proposal (proposal_id p) payload;
  mret (proposal_id p).

(** [_apply_quorum_locked] *)
Definition apply_quorum (pid : string) : py State bool :=
  p ← require pid;
  if meets_quorum p then _ ← mark pid "passed"; mret true else mret false.

(** Whether the ballot comes too late; a resolved proposal that has not expired takes none. *)
Definition already_expired (pid : string) (p : ConsensusProposal) : py State bool :=
  if negb (String.eqb (status p) "open") then
    expired ← (if String.eqb (status p) "expired" then mret true else is_expired p);
    if (expired : bool) then _ ← mark pid "expired"; mret true else raise ValueError
  else
    expired ← is_expired p;
    if (expired : bool) then _ ← mark pid "expired"; mret true else mret false.

(** The section of [cast_vote] under the lock: [None] when the proposal is marked
    expired, else whether the ballot resolved it, and its status. *)
Definition cast_locked (voter pid dec : string) (ev : list string) (w : float) : py State (option (bool * string)) :=
  p ← require pid;
  already ← already_expired pid p;
  if (already : bool) then
    p ← require pid;
    _ ← mirror_resolution_locked p;
    mret None
  else
    now ← utc_now;
    v ← lift (new_Vote voter pid dec ev w (utc now));
    _ ← put_proposal pid (with_votes (List.filter (fun v => negb (String.eqb (voter_id v) voter)) (votes p) ++ [v]) p);
    resolved ← (if is_user voter && bool_decide (dec ∈ ["approve"; "deny"]%string) then
                  _ ← mark pid (if String.eqb dec "approve" then "passed" else "denied"); mret true
                else apply_quorum pid);
    p ← require pid;
    mret (Some (resolved, status p)).

(** The result is the status and [quorum_reached]. *)
Definition cast_vote (voter pid dec : string) (evidence : option (list string)) : py State (string * bool) :=
  _ ← raise_when (is_empty voter) ValueError;
  _ ← raise_when (negb (bool_decide (dec ∈ VOTE_DECISIONS))) ValueError;
  w ← vote_weight clock voter;
  let ev := default [] evidence in
  r ← cast_locked voter pid dec ev w;
  match r with
  | None => mret ("expired"%string, false)
  | Some (resolved, st) =>
      _ ← mirror_vote pid voter dec w ev;
      _ ← (if String.eqb st "open" then mret tt else mirror_resolution pid);
      mret (st, resolved && String.eqb st "passed")
  end.

(** The section of [resolve_proposal] under the lock; [false] when nothing is left to resolve *)
Definition resolve_locked (pid : string) : py State (string * bool) :=
  p ← require pid;
  if negb (String.eqb (status p) "open") then mret (status p, false)
  else
    expired ← is_expired p;
    _ ← (if (expired : bool) then mark pid "expired"
         else if match approve_ratio p with Some _ => meets_quorum p | None => false end then mark pid "passed"
         else mark pid "denied");
    p ← require pid;
    mret (status p, true).

Definition resolve_proposal (pid : string) : py State string :=
  '(st, resolved) ← resolve_locked pid;
  if (resolved : bool) then _ ← mirror_resolution pid; mret st else mret st.

(** The section of [check_quorum] under the lock *)
Definition check_locked (pid : string) : py State (string * bool) :=
  p ← require pid;
  if negb (String.eqb (status p) "open") then mret (status p, false)
  else
    expired ← is_expired p;
    _ ← (if (expired : bool) then mark pid "expired" else if meets_quorum p then mark pid "passed" else mret tt);
    p ← require pid;
    mret (status p, expired || negb (String.eqb (status p) "open")).

Definition check_quorum (pid : string) : py State bool :=
  '(st, resolved) ← check_locked pid;
  if (resolved : bool) then _ ← mirror_resolution pid; mret (String.eqb st "passed") else mret (String.eqb st "passed").

Definition get_proposal_status (pid : string) : py State ConsensusProposal := p ← require pid; copy_of p.

Definition list_open_proposals : py State (list ConsensusProposal) :=
  s ← get; for_each copy_of (List.filter (fun p => String.eqb (status p) "open") (dvalues (proposals s))).

(** ** The steps of the tasks *)

(** The engines and every weight a voter was told, in whatever tasks *)
Definition config : Type := State * list (string * float).

(** What a step outside the locks may change: the readings taken and the world. *)
Definition same_store (s s' : State) : Prop :=
  reputations s' = reputations s /\ proposals s' = proposals s /\ payloads s' = payloads s /\ ticks s <= ticks s' /\
  drawn s <= drawn s'.

Definition submit_locked (proposer ty : string) (payload : dict) (quorum : float) (ttl : Z) : py State unit :=
  p ← make_proposal proposer ty quorum ttl; enter_proposal (proposal_id p) p payload.

Inductive step : config -> config -> Prop :=
| step_outcome s h aid success rating : is_empty aid = false -> rating_ok rating ->
    step (s, h) ((fold_outcome clock aid success rating s).2, h)
| step_rating s h ratee rating : is_empty ratee = false -> unit_float rating ->
    step (s, h) ((fold_rating clock ratee rating s).2, h)
| step_weigh s h voter w s' : vote_weight clock voter s = (Ok w, s') -> step (s, h) (s', (voter, w) :: h)
| step_submit s h proposer ty payload quorum ttl : step (s, h) ((submit_locked proposer ty payload quorum ttl s).2, h)
| step_cast s h voter pid dec ev w : (voter, w) ∈ h -> is_empty voter = false -> dec ∈ VOTE_DECISIONS ->
    step (s, h) ((cast_locked voter pid dec ev w s).2, h)
| step_resolve s h pid : step (s, h) ((resolve_locked pid s).2, h)
| step_check s h pid : step (s, h) ((check_locked pid s).2, h)
| step_other s h s' : same_store s s' -> step (s, h) (s', h).

(** ** What the sections keep *)

(** Why a proposal has its status, by the readings of the clock taken *)
Definition status_ok (readings : nat) (p : ConsensusProposal) : Prop :=
  status p = "open"%string /\ meets_quorum p = false /\ ~ user_ballot "approve" p /\ ~ user_ballot "deny" p \/
  status p = "passed"%string /\ (user_ballot "approve" p \/ meets_quorum p = true) \/
  status p = "denied"%string /\ (user_ballot "deny" p \/ meets_quorum p = false) \/
  status p = "expired"%string /\ exists n, n < readings /\ (expires_at p <= clock n)%Z.

Record stored_ok (h : list (string * float)) (readings : nat) (pid : string) (p : ConsensusProposal) : Prop := {
  so_id : proposal_id p = pid;
  so_fields : new_ConsensusProposal (proposal_id p) (proposer_id p) (proposal_type p) (quorum_required p) (votes p) (status p)
                (utc (expires_at p)) = Ok p;
  so_voters : NoDup (map voter_id (votes p));
  so_votes : Forall (ballot_ok h pid) (votes p);
  so_status : status_ok readings p;
}.

Definition engine_ok (c : config) : Prop :=
  reputations_ok c.1 /\ Forall (fun e => unit_float e.2 /\ is_empty e.1 = false) c.2 /\
  (forall pid p, dget pid (proposals c.1) = Some p -> stored_ok c.2 (ticks c.1) pid p) /\
  (forall pid, pid ∈ dkeys (proposals c.1) -> exists n, n < drawn c.1 /\ pid = ("prop_" +:+ uuid n)%string).

(** ** What a section does to a proposal *)

(** The changes of a proposal by the sections that run from reading [lo] to [hi] *)
Inductive change (h : list (string * float)) (lo hi : nat) (pid : string) (p : ConsensusProposal) : ConsensusProposal -> Prop :=
| change_expire n : lo <= n < hi -> (expires_at p <= clock n)%Z -> change h lo hi pid p (with_status "expired" p)
| change_expired : status p = "expired"%string -> change h lo hi pid p (with_status "expired" p)
| change_pass : status p = "open"%string -> meets_quorum p = true -> change h lo hi pid p (with_status "passed" p)
| change_deny : status p = "open"%string -> meets_quorum p = false -> change h lo hi pid p (with_status "denied" p)
| change_ballot v n : status p = "open"%string -> lo <= n < hi -> (clock n < expires_at p)%Z -> ballot_ok h pid v ->
    change h lo hi pid p (with_status (ballot_status v (with_ballot v p)) (with_ballot v p)).

Definition put (s s' : State) (pid : string) (p' : ConsensusProposal) : Prop :=
  reputations s' = reputations s /\ proposals s' = dset pid p' (proposals s) /\ payloads s' = payloads s /\
  ticks s <= ticks s' /\ drawn s' = drawn s.

Definition changes (h : list (string * float)) (pid : string) (s s' : State) : Prop :=
  same_store s s' \/
  exists p p', dget pid (proposals s) = Some p /\ put s s' pid p' /\ change h (ticks s) (ticks s') pid p p'.

Definition with_proposal (s : State) (pid : string) (p : ConsensusProposal) : State :=
  mk_State (reputations s) (dset pid p (proposals s)) (payloads s) (ticks s) (drawn s) (world s).

Lemma require_run pid s p : dget pid (proposals s) = Some p -> require pid s = (Ok p, s).
Proof. intros H. unfold require, get. rewrite bind_run. by rewrite H. Qed.

Lemma require_none pid s : dget pid (proposals s) = None -> require pid s = (Err KeyError, s).
Proof. intros H. unfold require, get. rewrite bind_run. by rewrite H. Qed.

Lemma mark_run pid st s p : dget pid (proposals s) = Some p ->
  mark pid st s = (Ok tt, with_proposal s pid (with_status st p)).
Proof. intros H. unfold mark. by rewrite bind_run, (require_run _ _ _ H). Qed.

Lemma is_expired_run p s : is_expired p s = (Ok (expires_at p <=? clock (ticks s))%Z, with_ticks s (S (ticks s))).
Proof. done. Qed.

(** The backend cancels a call that mirrors. *)
Definition cancels : Prop :=
  (exists create_node ty data actor w, be_create_node be = Some create_node /\
     (create_node ty data actor w).1 = Err CancelledError) \/
  exists add_edge source target ty data actor w, be_add_edge be = Some add_edge /\
    (add_edge source target ty data actor w).1 = Err CancelledError.

Lemma on_backend_run {A} (op : py W A) s : exists r w,
  on_backend op s = (r, mk_State (reputations s) (proposals s) (payloads s) (ticks s) (drawn s) w) /\
  (r = Ok tt \/ r = Err CancelledError /\ (op (world s)).1 = Err CancelledError).
Proof.
  unfold on_backend. destruct (op (world s)) as [[a|e] w]; [by exists (Ok tt), w; auto|].
  destruct (bool_decide_reflect (e = CancelledError)) as [->|]; [exists (Err CancelledError), w|exists (Ok tt), w]; auto.
Qed.

Lemma mirror_resolution_locked_run p s : exists r w,
  mirror_resolution_locked p s = (r, mk_State (reputations s) (proposals s) (payloads s) (ticks s) (drawn s) w) /\
  (r = Ok tt \/ r = Err CancelledError /\ cancels).
Proof.
  unfold mirror_resolution_locked. destruct (be_create_node be) as [f|] eqn:Hf; [|exists (Ok tt), (world s); destruct s; auto].
  destruct (tally p). match goal with |- context [on_backend ?op s] => destruct (on_backend_run op s) as (r & w & -> & Hr) end.
  exists r, w. split; [done|]. destruct Hr as [->|[-> Hr]]; [by left|right]. split; [done|]. left. eauto 10.
Qed.

(** A new ballot of a voter who passed the checks *)
Lemma new_vote_run voter pid dec ev w t : in_calendar t = true -> is_empty voter = false -> is_empty pid = false ->
  dec ∈ VOTE_DECISIONS -> unit_float w ->
  new_Vote voter pid dec ev w (utc t) = Ok (mk_Vote voter pid dec ev w t).
Proof.
  intros Ht Hv Hp Hd Hw. unfold new_Vote. rewrite ensure_utc_utc by done. cbn [mbind result_bind]. rewrite Hv, Hp.
  cbn [raise_if mbind result_bind]. rewrite bool_decide_eq_true_2 by exact Hd. cbn [negb raise_if mbind result_bind].
  assert (SFltb w f_zero = false) as ->; [|done]. destruct w as [[]|[]| |[] m e]; try done; by destruct Hw.
Qed.

Context (Hclock : forall n, in_calendar (clock n) = true).

(** A ballot on a proposal that is expired, by its status or by the clock, marks it so. *)
Lemma cast_late_run voter pid dec ev w s p : dget pid (proposals s) = Some p ->
  status p = "expired"%string \/ (expires_at p <= clock (ticks s))%Z ->
  exists r n w', cast_locked voter pid dec ev w s =
     (r, mk_State (reputations s) (dset pid (with_status "expired" p) (proposals s)) (payloads s) n (drawn s) w') /\
     (r = Ok None \/ r = Err CancelledError /\ cancels) /\ (n = ticks s /\ status p = "expired"%string \/
       n = S (ticks s) /\ (expires_at p <= clock (ticks s))%Z).
Proof using.
  intros Hp Hlate.
  assert (Ha : exists n, already_expired pid p s = (Ok true, with_proposal (with_ticks s n) pid (with_status "expired" p)) /\
    (n = ticks s /\ status p = "expired"%string \/ n = S (ticks s) /\ (expires_at p <= clock (ticks s))%Z)).
  { unfold already_expired. destruct (String.eqb_spec (status p) "open") as [Ho|Ho]; cbn [negb].
    - destruct Hlate as [Hlate|Hlate]; [by rewrite Hlate in Ho|].
      exists (S (ticks s)). rewrite bind_run, is_expired_run, (proj2 (Z.leb_le _ _) Hlate). cbv iota.
      rewrite bind_run, (mark_run _ _ _ p) by done. auto.
    - destruct (String.eqb_spec (status p) "expired") as [He|He].
      + exists (ticks s). rewrite bind_run. cbn [mret py_ret]. rewrite bind_run, (mark_run _ _ _ p) by done. destruct s. auto.
      + destruct Hlate as [Hlate|Hlate]; [done|].
        exists (S (ticks s)). rewrite bind_run, is_expired_run, (proj2 (Z.leb_le _ _) Hlate). cbv iota.
        rewrite bind_run, (mark_run _ _ _ p) by done. auto. }
  destruct Ha as (n & Ha & Hn). unfold cast_locked. rewrite bind_run, (require_run _ _ _ Hp), bind_run, Ha. cbv iota.
  set (s1 := with_proposal _ _ _). rewrite bind_run, (require_run _ s1 (with_status "expired" p)) by apply dget_dset_eq.
  rewrite bind_run. destruct (mirror_resolution_locked_run (with_status "expired" p) s1) as (r & w' & -> & [-> | [-> Hr]]);
    [exists (Ok None), n, w'|exists (Err CancelledError), n, w']; auto.
Qed.

(** A ballot on a passed or denied proposal in time is refused. *)
Lemma cast_resolved_run voter pid dec ev w s p : dget pid (proposals s) = Some p ->
  status p <> "open"%string -> status p <> "expired"%string -> (clock (ticks s) < expires_at p)%Z ->
  cast_locked voter pid dec ev w s = (Err ValueError, with_ticks s (S (ticks s))).
Proof using.
  intros Hp Ho He Ht. unfold cast_locked. rewrite bind_run, (require_run _ _ _ Hp), bind_run. unfold already_expired.
  apply String.eqb_neq in Ho as ->. apply String.eqb_neq in He as ->. cbn [negb].
  rewrite bind_run, is_expired_run, (proj2 (Z.leb_gt _ _) Ht). done.
Qed.

Lemma not_expired_run pid s p : status p = "open"%string -> (clock (ticks s) < expires_at p)%Z ->
  already_expired pid p s = (Ok false, with_ticks s (S (ticks s))).
Proof using.
  intros Ho Ht. unfold already_expired. rewrite Ho. change (negb (String.eqb "open" "open")) with false. cbv iota.
  rewrite bind_run, is_expired_run, (proj2 (Z.leb_gt _ _) Ht). done.
Qed.

Lemma put_mark pid st s p : dget pid (proposals s) = Some p ->
  mark pid st s = (Ok tt, with_proposal s pid (with_status st p)) /\
  put s (with_proposal s pid (with_status st p)) pid (with_status st p).
Proof using. intros H. split; [by apply mark_run|done]. Qed.

Lemma dset_dset_eq {V} k (v v' : V) (d : list (string * V)) : dset k v' (dset k v d) = dset k v' d.
Proof using.
  induction d as [|[k0 v0] d IH]; cbn; [by rewrite decide_True|]. destruct (decide (k = k0)) as [->|Hk]; cbn.
  - by rewrite decide_True.
  - rewrite decide_False by done. by rewrite IH.
Qed.

(** A ballot on an open proposal in time is recorded, and settles it if it is decisive. *)
Lemma cast_open_run voter pid dec ev w s p : dget pid (proposals s) = Some p -> is_empty pid = false -> is_empty voter = false ->
  dec ∈ VOTE_DECISIONS -> unit_float w -> status p = "open"%string -> (clock (ticks s) < expires_at p)%Z ->
  let v := mk_Vote voter pid dec ev w (clock (S (ticks s))) in
  let p' := with_status (ballot_status v (with_ballot v p)) (with_ballot v p) in
  exists resolved s', cast_locked voter pid dec ev w s = (Ok (Some (resolved, status p')), s') /\
    put s s' pid p' /\ ticks s' = S (S (ticks s)) /\ resolved = negb (String.eqb (status p') "open").
Proof using Hclock.
  intros Hp Hpid Hv Hd Hw Ho Ht v p'. unfold cast_locked. rewrite bind_run, (require_run _ _ _ Hp), bind_run.
  rewrite not_expired_run by done. cbv iota. rewrite bind_run.
  unfold utc_now, Reputation.utc_now. cbn [with_ticks ticks]. rewrite bind_lift, new_vote_run by done. fold v.
  change (with_votes _ p) with (with_ballot v p). rewrite bind_run. unfold put_proposal, modify.
  set (s1 := mk_State _ _ _ _ _ _).
  assert (H1 : dget pid (proposals s1) = Some (with_ballot v p)) by apply dget_dset_eq.
  assert (Hput : forall st, put s (with_proposal s1 pid (with_status st (with_ballot v p))) pid (with_status st (with_ballot v p))).
  { intros st. unfold put. cbn. rewrite dset_dset_eq. repeat split; lia. }
  assert (H2 : forall st, dget pid (proposals (with_proposal s1 pid (with_status st (with_ballot v p)))) =
    Some (with_status st (with_ballot v p))) by (intros; apply dget_dset_eq).
  unfold p', ballot_status. cbn [voter_id decision v]. rewrite bind_run. destruct (is_user voter && bool_decide _).
  - set (st := if String.eqb dec "approve" then "passed"%string else "denied"%string).
    exists true, (with_proposal s1 pid (with_status st (with_ballot v p))).
    rewrite bind_run, (mark_run _ _ _ _ H1). cbn [mret py_ret]. rewrite bind_run, (require_run _ _ _ (H2 _)).
    split; [done|]. split; [apply Hput|]. split; [done|]. unfold st. cbn. by destruct (String.eqb dec "approve").
  - unfold apply_quorum. rewrite bind_run, (require_run _ _ _ H1). destruct (meets_quorum (with_ballot v p)).
    + exists true, (with_proposal s1 pid (with_status "passed" (with_ballot v p))).
      rewrite bind_run, (mark_run _ _ _ _ H1). cbn [mret py_ret]. rewrite bind_run, (require_run _ _ _ (H2 _)).
      split; [done|]. split; [apply Hput|done].
    + exists false, s1. cbn [mret py_ret]. rewrite bind_run, (require_run _ _ _ H1). cbn [with_ballot with_votes status].
      rewrite Ho. split; [done|]. split; [|done]. unfold put. cbn. rewrite <- Ho. by repeat split; try lia; f_equal; destruct p.
Qed.

(** The readings of a mark *)
Lemma mark_after st n pid s p : dget pid (proposals s) = Some p -> ticks s <= n ->
  mark pid st (with_ticks s n) = (Ok tt, with_proposal (with_ticks s n) pid (with_status st p)) /\
  require pid (with_proposal (with_ticks s n) pid (with_status st p)) =
    (Ok (with_status st p), with_proposal (with_ticks s n) pid (with_status st p)) /\
  put s (with_proposal (with_ticks s n) pid (with_status st p)) pid (with_status st p).
Proof using.
  intros H Hn. split; [by apply mark_run|]. split; [apply require_run, dget_dset_eq|]. by repeat split.
Qed.

(** The status an open proposal is resolved to at a time *)
Definition resolution (p : ConsensusProposal) (now : Z) : string :=
  if (expires_at p <=? now)%Z then "expired" else if meets_quorum p then "passed" else "denied".

(** An explicit resolution decides every open proposal. *)
Lemma resolve_locked_run pid s p : dget pid (proposals s) = Some p ->
  (status p <> "open"%string /\ resolve_locked pid s = (Ok (status p, false), s)) \/
  (status p = "open"%string /\
   exists s', resolve_locked pid s = (Ok (resolution p (clock (ticks s)), true), s') /\
     put s s' pid (with_status (resolution p (clock (ticks s))) p) /\ ticks s' = S (ticks s)).
Proof using.
  intros Hp. unfold resolve_locked. rewrite bind_run, (require_run _ _ _ Hp).
  destruct (String.eqb_spec (status p) "open") as [Ho|Ho]; cbn [negb]; [right|left; done]. split; [done|].
  set (st := resolution p (clock (ticks s))). destruct (mark_after st (S (ticks s)) pid s p Hp ltac:(lia)) as (Hm & Hr & Hput).
  exists (with_proposal (with_ticks s (S (ticks s))) pid (with_status st p)). split; [|split; [done|done]].
  rewrite bind_run, is_expired_run. cbv iota. revert Hm Hr. unfold st, resolution.
  assert (Hq : match approve_ratio p with Some _ => meets_quorum p | None => false end = meets_quorum p)
    by (unfold meets_quorum; by destruct (approve_ratio p)).
  rewrite Hq. destruct (expires_at p <=? clock (ticks s))%Z; [|destruct (meets_quorum p)];
    intros Hm Hr; rewrite bind_run, Hm; cbv iota; rewrite bind_run, Hr; done.
Qed.

Lemma check_locked_run pid s p : dget pid (proposals s) = Some p ->
  (status p <> "open"%string /\ check_locked pid s = (Ok (status p, false), s)) \/
  (status p = "open"%string /\
   ((clock (ticks s) < expires_at p)%Z /\ meets_quorum p = false /\
      check_locked pid s = (Ok ("open"%string, false), with_ticks s (S (ticks s))) \/
    ((expires_at p <= clock (ticks s))%Z \/ meets_quorum p = true) /\
    exists s', check_locked pid s = (Ok (resolution p (clock (ticks s)), true), s') /\
      put s s' pid (with_status (resolution p (clock (ticks s))) p) /\ ticks s' = S (ticks s))).
Proof using.
  intros Hp. unfold check_locked. rewrite bind_run, (require_run _ _ _ Hp).
  destruct (String.eqb_spec (status p) "open") as [Ho|Ho]; cbn [negb]; [right|left; done]. split; [done|].
  rewrite bind_run, is_expired_run. cbv iota. unfold resolution.
  destruct (Z.leb_spec (expires_at p) (clock (ticks s))) as [He|He].
  - right. destruct (mark_after "expired" (S (ticks s)) pid s p Hp ltac:(lia)) as (Hm & Hr & Hput).
    split; [by left|]. eexists. split; [|split; [exact Hput|done]]. rewrite bind_run, Hm, bind_run, Hr. done.
  - destruct (meets_quorum p) eqn:Hq.
    + right. destruct (mark_after "passed" (S (ticks s)) pid s p Hp ltac:(lia)) as (Hm & Hr & Hput).
      split; [by right|]. eexists. split; [|split; [exact Hput|done]]. rewrite bind_run, Hm, bind_run, Hr. done.
    + left. split; [done|]. split; [done|]. rewrite bind_run. cbn [mret py_ret].
      rewrite bind_run, (require_run _ _ p) by done. by rewrite Ho.
Qed.

(** The sections change at most their proposal, each in one of five ways. *)
Lemma resolve_changes h pid s : changes h pid s (resolve_locked pid s).2.
Proof using.
  destruct (dget pid (proposals s)) as [p|] eqn:Hp.
  - destruct (resolve_locked_run pid s p Hp) as [[_ ->]|(Ho & s' & -> & Hput & Ht)]; [left; by repeat split|].
    right. exists p, (with_status (resolution p (clock (ticks s))) p).
    split; [done|]. split; [done|]. cbn [snd]. rewrite Ht. unfold resolution.
    destruct (Z.leb_spec (expires_at p) (clock (ticks s))); [by apply (change_expire _ _ _ _ _ (ticks s)); [lia|]|].
    destruct (meets_quorum p) eqn:Hq; [by apply change_pass|by apply change_deny].
  - left. unfold resolve_locked. rewrite bind_run, (require_none _ _ Hp). by repeat split.
Qed.

Lemma check_changes h pid s : changes h pid s (check_locked pid s).2.
Proof using.
  destruct (dget pid (proposals s)) as [p|] eqn:Hp.
  - destruct (check_locked_run pid s p Hp) as [[_ ->]|(Ho & [(_ & _ & ->)|(Hor & s' & -> & Hput & Ht)])];
      [left; by repeat split|left; repeat split; cbn; lia|].
    right. exists p, (with_status (resolution p (clock (ticks s))) p).
    split; [done|]. split; [done|]. cbn [snd]. rewrite Ht. unfold resolution.
    destruct (Z.leb_spec (expires_at p) (clock (ticks s))); [by apply (change_expire _ _ _ _ _ (ticks s)); [lia|]|].
    destruct Hor as [?|Hq]; [lia|rewrite Hq; by apply change_pass].
  - left. unfold check_locked. rewrite bind_run, (require_none _ _ Hp). by repeat split.
Qed.

Lemma vote_checks_ok pid v : new_Vote (voter_id v) pid (decision v) (evidence v) (weight v) (utc (voted_at v)) = Ok v -> vote_ok v /\ vote_proposal v = pid.
Proof using.
  intros H. assert (vote_proposal v = pid) as <-; [|done].
  pose proof H as H'. unfold new_Vote in H'.
  repeat (apply result_bind_ok in H' as (? & _ & H')). inversion H' as [Hv]. destruct v. by inversion Hv.
Qed.

Lemma cast_changes h voter pid dec ev w s : (voter, w) ∈ h -> is_empty voter = false -> dec ∈ VOTE_DECISIONS -> unit_float w ->
  (forall p, dget pid (proposals s) = Some p -> is_empty pid = false) ->
  changes h pid s (cast_locked voter pid dec ev w s).2.
Proof using Hclock.
  intros Hw Hv Hd Hu Hpid. destruct (dget pid (proposals s)) as [p|] eqn:Hp.
  2: { left. unfold cast_locked. rewrite bind_run, (require_none _ _ Hp). by repeat split. }
  destruct (decide (status p = "expired"%string \/ (expires_at p <= clock (ticks s))%Z)) as [Hl|Hl].
  - destruct (cast_late_run voter pid dec ev w s p Hp Hl) as (r & n & w' & -> & _ & Hn). right. exists p, (with_status "expired" p).
    split; [done|]. split; [repeat split; cbn; lia|]. cbn [snd ticks].
    destruct Hn as [[_ He]|[-> He]]; [by apply change_expired|by apply (change_expire _ _ _ _ _ (ticks s)); [lia|]].
  - apply Decidable.not_or in Hl as [He Ht%Z.nle_gt].
    destruct (decide (status p = "open"%string)) as [Ho|Ho].
    + destruct (cast_open_run voter pid dec ev w s p Hp (Hpid p eq_refl) Hv Hd Hu Ho Ht) as (r & s' & -> & Hput & Hr & _).
      right. eexists p, _. split; [done|]. split; [exact Hput|]. apply (change_ballot _ _ _ _ _ _ (ticks s)); [done|cbn; lia|done|].
      assert (Hn : is_empty pid = false) by exact (Hpid p eq_refl).
      pose proof (new_vote_run voter pid dec ev w (clock (S (ticks s))) (Hclock _) Hv Hn Hd Hu) as Hnew.
      split; cbn; done.
    + rewrite (cast_resolved_run voter pid dec ev w s p) by done. left. repeat split; cbn; lia.
Qed.

(** ** The invariant *)

Lemma stored_mono h h' n n' pid p : h ⊆ h' -> n <= n' -> stored_ok h n pid p -> stored_ok h' n' pid p.
Proof using.
  intros Hh Hn [H1 H2 H3 H4 H5]. split; [done|done|done| |].
  - eapply Forall_impl; [exact H4|]. intros v [B1 B2 B3 B4]. split; auto.
  - destruct H5 as [H5|[H5|[H5|(H5 & k & Hk & He)]]]; [by left|by right; left|by right; right; left|].
    right; right; right. split; [done|]. exists k. split; [lia|done].
Qed.

Lemma status_in lo p : status_ok lo p -> status p ∈ ["open"; "passed"; "denied"; "expired"]%string.
Proof using. intros [[-> _]|[[-> _]|[[-> _]|[-> _]]]]; vm_decide. Qed.

(** The status a ballot leaves is one with its reason. *)
Lemma ballot_status_ok lo hi v p : status p = "open"%string -> status_ok lo p ->
  status_ok hi (with_status (ballot_status v (with_ballot v p)) (with_ballot v p)).
Proof using.
  intros Ho Hp. assert (Hno : ~ user_ballot "approve" p /\ ~ user_ballot "deny" p).
  { destruct Hp as [(_ & _ & Ha & Hd)|[[H _]|[[H _]|[H _]]]]; [done|by rewrite Ho in H..]. }
  assert (Hin : v ∈ votes (with_ballot v p)) by (apply elem_of_with_ballot; by left).
  unfold ballot_status. destruct (is_user (voter_id v) && bool_decide (decision v ∈ _)) eqn:Hu.
  - breflect. destruct (String.eqb_spec (decision v) "approve") as [Ha|Ha].
    + right; left. split; [done|]. left. by exists v.
    + right; right; left. split; [done|]. left. exists v. split; [done|]. split; [done|]. by apply approve_or_deny.
  - change (meets_quorum (with_ballot v p)) with (meets_quorum (with_status "passed" (with_ballot v p))).
    destruct (meets_quorum (with_status "passed" (with_ballot v p))) eqn:Hq; [right; left; by auto|].
    left. cbn [with_ballot with_votes status]. split; [done|]. split; [exact Hq|].
    assert (Hd : forall d, d ∈ ["approve"; "deny"]%string -> ~ user_ballot d p ->
      ~ user_ballot d (with_status (status p) (with_ballot v p))).
    { intros d Hd Hn (u & Hin' & Hu' & Hdu). cbn [with_status votes] in Hin'. apply elem_of_with_ballot in Hin' as [->|[Hin' _]].
      - rewrite Hu' in Hu. cbn [andb] in Hu. apply bool_decide_eq_false in Hu. by rewrite Hdu in Hu.
      - apply Hn. by exists u. }
    split; apply Hd; try vm_decide; apply Hno.
Qed.

Lemma change_stored h lo hi pid p p' : lo <= hi -> stored_ok h lo pid p -> change h lo hi pid p p' -> stored_ok h hi pid p'.
Proof using.
  intros Hle Hs Hc. pose proof Hs as [H1 H2 H3 H4 H5]. destruct Hc as [n Hn He|He|Ho Hq|Ho Hq|v n Ho Hn He Hb].
  - split; [done|apply (fields_status p); [done|vm_decide]|done|done|]. right; right; right. split; [done|]. exists n. split; [lia|done].
  - assert (with_status "expired" p = p) as -> by (rewrite <- He; by destruct p). by apply (stored_mono h _ lo).
  - split; [done|apply (fields_status p); [done|vm_decide]|done|done|]. right; left. by auto.
  - split; [done|apply (fields_status p); [done|vm_decide]|done|done|]. right; right; left. by auto.
  - split; [done| |by apply with_ballot_voters| |by apply (ballot_status_ok lo)].
    + apply (fields_ok p _ _ H2). by apply ballot_status_in.
    + apply Forall_app. split; [|by apply Forall_singleton].
      apply Forall_forall. intros u [_ Hu]%elem_of_filter_bool. by eapply Forall_forall.
Qed.

(** What [make_proposal] returns is an open proposal without ballots under a new id. *)
Lemma make_proposal_run proposer ty quorum ttl s :
  (exists e s', make_proposal proposer ty quorum ttl s = (Err e, s') /\ same_store s s') \/
  exists p s', make_proposal proposer ty quorum ttl s = (Ok p, s') /\ same_store s s' /\ drawn s' = S (drawn s) /\
    proposal_id p = ("prop_" +:+ uuid (drawn s))%string /\ status p = "open"%string /\ votes p = [] /\
    proposer_id p = proposer /\ proposal_type p = ty /\ quorum_required p = quorum /\
    new_ConsensusProposal (proposal_id p) (proposer_id p) (proposal_type p) (quorum_required p) (votes p) (status p)
      (utc (expires_at p)) = Ok p /\ ty ∈ PROPOSAL_TYPES /\ expires_at p = (clock (ticks s) + ttl * 1000000)%Z.
Proof using.
  unfold make_proposal. rewrite bind_raise_when. destruct (is_empty proposer) eqn:Hpr; [left; eexists _, _; split; [done|by repeat split]|].
  rewrite bind_raise_when. destruct (bool_decide_reflect (ty ∈ PROPOSAL_TYPES)) as [Hty|]; cbn [negb];
    [|left; eexists _, _; split; [done|by repeat split]].
  rewrite bind_raise_when. destruct (SFltb f_zero quorum && SFleb quorum f_one) eqn:Hq; cbn [negb];
    [|left; eexists _, _; split; [done|by repeat split]].
  rewrite bind_raise_when. destruct (ttl <=? 0)%Z; [left; eexists _, _; split; [done|by repeat split]|].
  rewrite bind_run. unfold new_id. rewrite bind_run. unfold utc_now, Reputation.utc_now. cbn [ticks].
  rewrite bind_lift. unfold after_seconds. destruct (in_calendar (clock (ticks s) + ttl * 1000000)) eqn:Hc;
    [|left; eexists _, _; split; [done|repeat split; cbn; lia]].
  rewrite bind_lift, ensure_utc_utc by done.
  assert (Hty' : is_empty ty = false) by (unfold PROPOSAL_TYPES in Hty; destruct ty; [|done]; by apply (bool_decide_unpack _) in Hty || (exfalso; revert Hty; apply (bool_decide_unpack _); by vm_compute)).
  set (t := (clock (ticks s) + ttl * 1000000)%Z).
  assert (Hnew : new_ConsensusProposal ("prop_" +:+ uuid (drawn s)) proposer ty quorum [] "open" (utc t) =
    Ok (mk_ConsensusProposal ("prop_" +:+ uuid (drawn s)) proposer ty quorum [] "open" t)).
  { unfold new_ConsensusProposal. rewrite ensure_utc_utc by done. cbn [mbind result_bind].
    change (is_empty ("prop_" +:+ uuid (drawn s))) with false. by rewrite Hpr, Hty', Hq. }
  right. eexists _, _. split; [unfold lift; rewrite Hnew; reflexivity|]. repeat split; cbn; try lia; done.
Qed.

Lemma submit_run proposer ty payload quorum ttl s :
  same_store s (submit_locked proposer ty payload quorum ttl s).2 \/
  exists p s', make_proposal proposer ty quorum ttl s = (Ok p, s') /\ drawn s' = S (drawn s) /\
    proposal_id p = ("prop_" +:+ uuid (drawn s))%string /\ status p = "open"%string /\ votes p = [] /\ ticks s <= ticks s' /\
    new_ConsensusProposal (proposal_id p) (proposer_id p) (proposal_type p) (quorum_required p) (votes p) (status p)
      (utc (expires_at p)) = Ok p /\
    (submit_locked proposer ty payload quorum ttl s).2 =
      mk_State (reputations s) (dset (proposal_id p) p (proposals s)) (dset (proposal_id p) payload (payloads s))
        (ticks s') (S (drawn s)) (world s').
Proof using.
  unfold submit_locked. rewrite bind_run. destruct (make_proposal_run proposer ty quorum ttl s)
    as [(e & s' & -> & Hs)|(p & s' & -> & Hs & Hd & Hid & Hst & Hv & _ & _ & _ & Hok & _)]; [by left|right].
  exists p, s'. destruct Hs as (H1 & H2 & H3 & H4 & _). repeat split; try done. cbn. by rewrite H1, H2, H3, Hd.
Qed.

Lemma weigh_ok s voter w s' : reputations_ok s -> vote_weight clock voter s = (Ok w, s') ->
  is_empty voter = false /\ unit_float w /\ same_store s s'.
Proof using Hclock.
  intros Hs H. destruct (is_empty voter) eqn:He; [by unfold vote_weight in H; rewrite bind_raise_when, He in H|].
  destruct (vote_weight_run clock Hclock voter s Hs He) as (w' & n & Hrun & Hu & Hn & _). rewrite Hrun in H. inversion H; subst.
  repeat split; trivial; cbn; lia.
Qed.

Lemma same_store_ok h s s' : same_store s s' -> engine_ok (s, h) -> engine_ok (s', h).
Proof using.
  intros (H1 & H2 & H3 & H4 & H5) (I1 & I2 & I3 & I4). unfold engine_ok. cbn [fst snd] in *. rewrite H2. split; [|split; [|split]].
  - intros aid r. rewrite H1. apply I1.
  - done.
  - intros pid p Hp. apply (stored_mono h h (ticks s)); [done|done|by apply I3].
  - intros pid Hpid. destruct (I4 pid Hpid) as (n & Hn & ->). exists n. split; [lia|done].
Qed.

Lemma changes_ok h pid s s' : changes h pid s s' -> engine_ok (s, h) -> engine_ok (s', h).
Proof using.
  intros [Hs|(p & p' & Hp & (H1 & H2 & H3 & H4 & H5) & Hc)]; [by apply same_store_ok|].
  intros (I1 & I2 & I3 & I4). unfold engine_ok. cbn [fst snd] in *. rewrite H2. split; [|split; [|split]].
  - intros aid r. rewrite H1. apply I1.
  - done.
  - intros pid' q. rewrite dget_dset. destruct (decide (pid = pid')) as [<-|Hne]; intros Hq.
    + inversion Hq; subst. apply (change_stored h (ticks s) (ticks s') pid p); [done|by apply I3|done].
    + apply (stored_mono h h (ticks s)); [done|done|by apply I3].
  - intros pid'. rewrite elem_of_dkeys_dset. intros Hk. rewrite H5. destruct Hk as [->|Hk]; [|by apply I4].
    apply I4. apply dget_is_Some_keys. by exists p.
Qed.

Lemma stored_named h s pid p : engine_ok (s, h) -> dget pid (proposals s) = Some p -> is_empty pid = false.
Proof using. intros (_ & _ & I3 & _) Hp. destruct (I3 pid p Hp) as [<- H _ _ _]. by apply fields_named. Qed.

Lemma told_unit h s voter w : engine_ok (s, h) -> (voter, w) ∈ h -> unit_float w.
Proof using. intros (_ & I2 & _) Hin. rewrite Forall_forall in I2. by apply (I2 (voter, w)). Qed.

(** Every step of every task keeps the invariant. *)
Lemma step_ok c c' : step c c' -> engine_ok c -> engine_ok c'.
Proof using Hclock.
  intros Hstep Hok. destruct Hstep as [s h aid success rating Ha Hr|s h ratee rating Ha Hr|s h voter w s' Hw|s h proposer ty payload quorum ttl
    |s h voter pid dec ev w Hw Hv Hd|s h pid|s h pid|s h s' Hs].
  - destruct (fold_outcome_run clock Hclock aid success rating s) as (r & r0 & n & -> & Hk & _ & Hn & _); [apply Hok|done|done|].
    cbn [snd]. destruct Hok as (I1 & I2 & I3 & I4). split; [by apply with_reputation_ok|]. split; [done|]. split; [|done].
    intros pid p Hp. cbn [fst snd with_reputation with_ticks ticks]. apply (stored_mono h h (ticks s)); [done|lia|by apply I3].
  - destruct (fold_rating_run clock Hclock ratee rating s) as (r & n & -> & Hk & Hn); [apply Hok|done|done|].
    cbn [snd]. destruct Hok as (I1 & I2 & I3 & I4). split; [by apply with_reputation_ok|]. split; [done|]. split; [|done].
    intros pid p Hp. cbn [fst snd with_reputation with_ticks ticks]. apply (stored_mono h h (ticks s)); [done|lia|by apply I3].
  - destruct (weigh_ok s voter w s' (proj1 Hok) Hw) as (Hv & Hu & Hs).
    apply (same_store_ok _ _ _ Hs) in Hok as (I1 & I2 & I3 & I4). split; [done|]. split; [by constructor|]. split; [|done].
    intros pid p Hp. cbn [fst snd] in *. apply (stored_mono h _ (ticks s')); [apply sub_cons|done|by apply I3].
  - destruct (submit_run proposer ty payload quorum ttl s) as [Hs|(p & s' & _ & Hd & Hid & Hst & Hvs & Ht & Hf & ->)];
      [by apply (same_store_ok h s)|].
    destruct Hok as (I1 & I2 & I3 & I4). unfold engine_ok. cbn [fst snd proposals ticks drawn] in *. split; [done|split; [done|split]].
    + intros pid q. rewrite dget_dset. destruct (decide (proposal_id p = pid)) as [<-|Hne]; intros Hq.
      * inversion Hq; subst q. split; [done|done|rewrite Hvs; constructor|by rewrite Hvs|].
        left. split; [done|]. unfold meets_quorum, approve_ratio, tally, user_ballot. rewrite Hvs. split; [done|].
        split; intros (v & Hv & _); by apply not_elem_of_nil in Hv.
      * apply (stored_mono h h (ticks s)); [done|done|by apply I3].
    + intros pid. rewrite elem_of_dkeys_dset, Hid. intros [->|Hk]; [exists (drawn s); split; [lia|done]|].
      destruct (I4 pid Hk) as (n & Hn & ->). exists n. split; [lia|done].
  - apply (changes_ok h pid s); [|done]. apply cast_changes; [done..|by apply (told_unit h s voter)|].
    intros p Hp. by apply (stored_named h s pid p).
  - apply (changes_ok h pid s); [|done]. apply resolve_changes.
  - apply (changes_ok h pid s); [|done]. apply check_changes.
  - by apply (same_store_ok h s).
Qed.

(** ** Whole operations *)

Inductive call :=
| CallOutcome (aid : string) (success : bool) (rating : option float)
| CallRating (rater ratee : string) (rating : float) (context : option string)
| CallWeight (voter : string)
| CallReputation (aid : string)
| CallSubmit (proposer ty : string) (payload : dict) (quorum : float) (ttl : Z)
| CallVote (voter pid dec : string) (evidence : option (list string))
| CallResolve (pid : string)
| CallCheck (pid : string)
| CallStatus (pid : string)
| CallOpen.

Definition run_call (c : call) (s : State) : State :=
  match c with
  | CallOutcome aid success rating => (record_task_completion be clock aid success rating s).2
  | CallRating rater ratee rating context => (submit_peer_rating be clock rater ratee rating context s).2
  | CallWeight voter => (vote_weight clock voter s).2
  | CallReputation aid => (get_reputation clock aid s).2
  | CallSubmit proposer ty payload quorum ttl => (submit_proposal proposer ty payload quorum ttl s).2
  | CallVote voter pid dec evidence => (cast_vote voter pid dec evidence s).2
  | CallResolve pid => (resolve_proposal pid s).2
  | CallCheck pid => (check_quorum pid s).2
  | CallStatus pid => (get_proposal_status pid s).2
  | CallOpen => (list_open_proposals s).2
  end.

(** The floats of a call are floats of Python: canonical binary64. *)
Definition call_floats (c : call) : Prop :=
  match c with
  | CallOutcome _ _ (Some f) | CallRating _ _ f _ => valid_binary 53 1024 f = true
  | _ => True
  end.

Lemma same_store_refl s : same_store s s.
Proof using. by repeat split. Qed.

Lemma on_backend_same {A} (op : py W A) s : same_store s (on_backend op s).2.
Proof using. destruct (on_backend_run op s) as (r & w & -> & _). by repeat split. Qed.

Lemma mirror_to_backend_same r extra s : same_store s (mirror_to_backend be r extra s).2.
Proof using.
  unfold mirror_to_backend. destruct (be_update_node be); [apply on_backend_same|apply same_store_refl].
Qed.

Lemma mirror_proposal_same pid d s : same_store s (mirror_proposal pid d s).2.
Proof using.
  unfold mirror_proposal. destruct (be_create_node be); [|apply same_store_refl]. unfold get. rewrite bind_run.
  destruct (dget pid (proposals s)); [apply on_backend_same|apply same_store_refl].
Qed.

Lemma mirror_vote_same pid voter dec w ev s : same_store s (mirror_vote pid voter dec w ev s).2.
Proof using. unfold mirror_vote. destruct (be_add_edge be); [apply on_backend_same|apply same_store_refl]. Qed.

Lemma mirror_resolution_locked_same p s : same_store s (mirror_resolution_locked p s).2.
Proof using. destruct (mirror_resolution_locked_run p s) as (r & w & -> & _). by repeat split. Qed.

Lemma copy_same p s : (copy_of p s).2 = s.
Proof using. done. Qed.

Lemma mirror_resolution_same pid s : same_store s (mirror_resolution pid s).2.
Proof using.
  unfold mirror_resolution, get. rewrite bind_run. destruct (dget pid (proposals s)) as [p|]; [|apply same_store_refl].
  rewrite bind_run. unfold copy_of, get. rewrite bind_run. unfold lift.
  destruct (proposal_from_dict _ _ _ _); [apply mirror_resolution_locked_same|apply same_store_refl].
Qed.

Lemma weight_same voter s : same_store s (vote_weight clock voter s).2.
Proof using.
  unfold vote_weight. rewrite bind_raise_when. destruct (is_empty voter) eqn:He; [apply same_store_refl|].
  destruct (bool_decide _); [apply same_store_refl|]. rewrite bind_run.
  assert (same_store s (get_reputation clock voter s).2) as Hg.
  { unfold get_reputation. rewrite bind_raise_when, He. unfold get. rewrite bind_run.
    destruct (dget voter (reputations s)); [apply same_store_refl|]. rewrite bind_run. repeat split; cbn; lia. }
  by destruct (get_reputation clock voter s) as [[r|e] s'].
Qed.

Lemma get_reputation_same aid s : same_store s (get_reputation clock aid s).2.
Proof using.
  unfold get_reputation. rewrite bind_raise_when. destruct (is_empty aid); [apply same_store_refl|].
  unfold get. rewrite bind_run. destruct (dget aid (reputations s)); [apply same_store_refl|].
  rewrite bind_run. repeat split; cbn; lia.
Qed.

(** Steps, then a part that only mirrors *)
Lemma then_same (c c' : config) s' : rtc step c c' -> same_store c'.1 s' -> rtc step c (s', c'.2).
Proof using.
  intros H Hs. eapply rtc_r; [exact H|]. destruct c' as [s h]. by apply step_other.
Qed.

Lemma one_step (c c' : config) s' : step c c' -> same_store c'.1 s' -> rtc step c (s', c'.2).
Proof using. intros H Hs. apply then_same; [by apply rtc_once|done]. Qed.

Lemma only_same s s' h : same_store s s' -> exists h', rtc step (s, h) (s', h').
Proof using. intros H. exists h. apply rtc_once. by apply step_other. Qed.

Lemma cast_vote_steps voter pid dec evidence s h : exists h', rtc step (s, h) ((cast_vote voter pid dec evidence s).2, h').
Proof using.
  unfold cast_vote. rewrite bind_raise_when. destruct (is_empty voter) eqn:Hv; [by exists h|].
  rewrite bind_raise_when. destruct (bool_decide_reflect (dec ∈ VOTE_DECISIONS)) as [Hd|]; cbn [negb]; [|by exists h].
  rewrite bind_run. pose proof (weight_same voter s) as Hw. destruct (vote_weight clock voter s) as [[w|e] s1] eqn:Ew;
    [|by apply only_same].
  rewrite bind_run. exists ((voter, w) :: h).
  assert (H1 : step (s, h) (s1, (voter, w) :: h)) by (by apply step_weigh).
  assert (H2 : step (s1, (voter, w) :: h) ((cast_locked voter pid dec (default [] evidence) w s1).2, (voter, w) :: h))
    by (apply step_cast; [apply list_elem_of_here|done|done]).
  destruct (cast_locked voter pid dec (default [] evidence) w s1) as [[r|e] s2]; cbn [snd] in H2;
    [|by eapply rtc_l; [exact H1|apply rtc_once]].
  assert (H3 : rtc step (s, h) (s2, (voter, w) :: h)) by (by eapply rtc_l; [exact H1|apply rtc_once]).
  destruct r as [[resolved st]|]; [|done]. rewrite bind_run.
  pose proof (mirror_vote_same pid voter dec w (default [] evidence) s2) as H4.
  destruct (mirror_vote pid voter dec w (default [] evidence) s2) as [[u|e] s3]; [|by apply (then_same _ _ _ H3)].
  apply (then_same _ _ _ H3) in H4. rewrite bind_run. destruct (String.eqb st "open"); [exact H4|].
  pose proof (mirror_resolution_same pid s3) as H5. destruct (mirror_resolution pid s3) as [[u'|e] s4];
    by apply (then_same _ _ _ H4).
Qed.

Lemma for_each_copy_same l s : (for_each copy_of l s).2 = s.
Proof using.
  induction l as [|p l IH]; [done|]. cbn [for_each]. rewrite bind_run. unfold copy_of at 1, get. rewrite bind_run. unfold lift.
  destruct (proposal_from_dict _ _ _ _); [|done]. rewrite bind_run. by destruct (for_each copy_of l s) as [[l'|e] s'].
Qed.

Lemma require_same pid s : (require pid s).2 = s.
Proof using. unfold require, get. rewrite bind_run. by destruct (dget pid (proposals s)). Qed.

Lemma rating_checked f : valid_binary 53 1024 f = true -> in_unit f = true -> unit_float f.
Proof using. intros Hv [H0 H1]%andb_prop. by apply unit_float_of_test. Qed.

Lemma outcome_steps aid success rating s h : match rating with Some f => valid_binary 53 1024 f = true | None => True end ->
  exists h', rtc step (s, h) ((record_task_completion be clock aid success rating s).2, h').
Proof using.
  intros Hf. exists h. unfold record_task_completion. rewrite bind_raise_when. destruct (is_empty aid) eqn:Ha; [done|].
  rewrite bind_raise_when. destruct (match rating with Some f => negb (in_unit f) | None => false end) eqn:Hr; [done|].
  assert (Hok : rating_ok rating).
  { destruct rating as [f|]; [|done]. apply negb_false_iff in Hr. by apply rating_checked. }
  rewrite bind_run. pose proof (step_outcome s h aid success rating Ha Hok) as H.
  destruct (fold_outcome clock aid success rating s) as [[r|e] s1]; [|by apply rtc_once].
  rewrite bind_run. pose proof (mirror_to_backend_same r [] s1) as Hm.
  destruct (mirror_to_backend be r [] s1) as [[u|e] s2]; by apply (one_step _ _ _ H).
Qed.

Lemma rating_steps rater ratee rating context s h : valid_binary 53 1024 rating = true ->
  exists h', rtc step (s, h) ((submit_peer_rating be clock rater ratee rating context s).2, h').
Proof using.
  intros Hf. exists h. unfold submit_peer_rating. rewrite bind_raise_when. destruct (is_empty rater); [done|].
  rewrite bind_raise_when. destruct (is_empty ratee) eqn:Ha; [done|].
  rewrite bind_raise_when. destruct (in_unit rating) eqn:Hr; cbn [negb]; [|done].
  rewrite bind_run. pose proof (step_rating s h ratee rating Ha (rating_checked _ Hf Hr)) as H.
  destruct (fold_rating clock ratee rating s) as [[r|e] s1]; [|by apply rtc_once].
  rewrite bind_run.
  match goal with |- context [mirror_to_backend be r ?x s1] => pose proof (mirror_to_backend_same r x s1) as Hm;
    destruct (mirror_to_backend be r x s1) as [[u|e] s2] end; by apply (one_step _ _ _ H).
Qed.

Lemma submit_steps proposer ty payload quorum ttl s h :
  exists h', rtc step (s, h) ((submit_proposal proposer ty payload quorum ttl s).2, h').
Proof using.
  exists h. pose proof (step_submit s h proposer ty payload quorum ttl) as H. unfold submit_proposal. unfold submit_locked in H.
  rewrite bind_run in H. rewrite bind_run. destruct (make_proposal proposer ty quorum ttl s) as [[p|e] s1]; [|by apply rtc_once].
  rewrite bind_run. unfold enter_proposal, modify in *. cbn [snd] in H. set (s2 := mk_State _ _ _ _ _ _) in *.
  rewrite bind_run. pose proof (mirror_proposal_same (proposal_id p) payload s2) as Hm.
  destruct (mirror_proposal (proposal_id p) payload s2) as [[u|e] s3]; by apply (one_step _ _ _ H).
Qed.

Lemma resolve_steps pid s h : exists h', rtc step (s, h) ((resolve_proposal pid s).2, h').
Proof using.
  exists h. pose proof (step_resolve s h pid) as H. unfold resolve_proposal. rewrite bind_run.
  destruct (resolve_locked pid s) as [[[st []]|e] s1]; [|by apply rtc_once..].
  rewrite bind_run. pose proof (mirror_resolution_same pid s1) as Hm.
  destruct (mirror_resolution pid s1) as [[u|e] s2]; by apply (one_step _ _ _ H).
Qed.

Lemma check_steps pid s h : exists h', rtc step (s, h) ((check_quorum pid s).2, h').
Proof using.
  exists h. pose proof (step_check s h pid) as H. unfold check_quorum. rewrite bind_run.
  destruct (check_locked pid s) as [[[st []]|e] s1]; [|by apply rtc_once..].
  rewrite bind_run. pose proof (mirror_resolution_same pid s1) as Hm.
  destruct (mirror_resolution pid s1) as [[u|e] s2]; by apply (one_step _ _ _ H).
Qed.

(** Every operation of the two engines, whatever it returns or raises and
    whatever the backend does, is a sequence of the sections that run under the
    locks, so what holds of every interleaving of sections holds of every
    interleaving of operations. *)
Theorem calls_are_steps c s h : call_floats c -> exists h', rtc step (s, h) (run_call c s, h').
Proof using.
  intros Hf. destruct c as [aid success rating|rater ratee rating context|voter|aid|proposer ty payload quorum ttl|voter pid dec evidence
    |pid|pid|pid|]; cbn [run_call].
  - by apply outcome_steps.
  - by apply rating_steps.
  - destruct (vote_weight clock voter s) as [[w|e] s'] eqn:E.
    + exists ((voter, w) :: h). by apply rtc_once, step_weigh.
    + apply only_same. pose proof (weight_same voter s) as Hw. by rewrite E in Hw.
  - apply only_same, get_reputation_same.
  - apply submit_steps.
  - apply cast_vote_steps.
  - apply resolve_steps.
  - apply check_steps.
  - apply only_same. unfold get_proposal_status. rewrite bind_run. pose proof (require_same pid s) as Hr.
    destruct (require pid s) as [[p|e] s1]; cbn [snd] in Hr; subst; apply same_store_refl.
  - apply only_same. unfold list_open_proposals, get. rewrite bind_run, for_each_copy_same. apply same_store_refl.
Qed.

(** ** What the engines guarantee *)

(** The engines when they are made *)
Definition fresh (n : nat) (w : W) : State := mk_State [] [] [] n 0 w.

Lemma fresh_ok n w : engine_ok (fresh n w, []).
Proof using.
  split; [by intros aid r|]. split; [constructor|]. split; [by intros pid p|]. intros pid H. by apply not_elem_of_nil in H.
Qed.

Lemma steps_ok c c' : rtc step c c' -> engine_ok c -> engine_ok c'.
Proof using Hclock. intros H Hc. apply (rtc_invariant step engine_ok c c'); [intros a b; apply step_ok|done|done]. Qed.

(** C29: In every interleaving of operations, on any backend, a stored proposal
    counts each voter once, with a weight that voter was told, between 0 and 1; it
    is open only while no quorum is reached and the user has not decided, passed
    only by the user's approval or an approving quorum, denied only by the user
    or for want of one, and expired only after its time. *)
Theorem ballots_decide n w c pid p : rtc step (fresh n w, []) c -> dget pid (proposals c.1) = Some p ->
  NoDup (map voter_id (votes p)) /\
  (forall v, v ∈ votes p -> (voter_id v, weight v) ∈ c.2 /\ in_unit (weight v) = true /\ vote_proposal v = pid) /\
  status_ok (ticks c.1) p.
Proof using Hclock.
  intros H Hp. destruct (steps_ok _ _ H (fresh_ok n w)) as (_ & _ & I3 & _). destruct (I3 pid p Hp) as [_ _ H3 H4 H5].
  split; [done|]. split; [|done]. intros v Hv. rewrite Forall_forall in H4. destruct (H4 v Hv) as [_ B2 B3 B4].
  destruct (unit_float_test _ B4) as [U0 U1]. unfold in_unit. by rewrite U0, U1.
Qed.

Context (Huuid : forall i j, uuid i = uuid j -> i = j).

(** How a resolved proposal may change *)
Definition settled (readings : nat) (p p' : ConsensusProposal) : Prop :=
  votes p' = votes p /\ expires_at p' = expires_at p /\
  (status p' = status p \/ status p' = "expired"%string /\ exists n, n < readings /\ (expires_at p <= clock n)%Z).

Lemma step_settled c c' pid p : engine_ok c -> step c c' -> dget pid (proposals c.1) = Some p ->
  status p <> "open"%string -> exists p', dget pid (proposals c'.1) = Some p' /\ settled (ticks c'.1) p p' /\ status p' <> "open"%string.
Proof using Hclock Huuid.
  intros Hok Hstep Hp Ho.
  assert (Hself : forall k, settled k p p) by (by intros k; split; [|split; [|left]]).
  assert (Hch : forall h s s' pid', engine_ok (s, h) -> changes h pid' s s' -> dget pid (proposals s) = Some p ->
    exists p', dget pid (proposals s') = Some p' /\ settled (ticks s') p p' /\ status p' <> "open"%string).
  { intros h s s' pid' Hok' [(_ & Hs & _)|(q & q' & Hq & (_ & Hs & _) & Hc)] Hps; [exists p; by rewrite Hs|].
    rewrite Hs, dget_dset. destruct (decide (pid' = pid)) as [->|]; [|by exists p].
    assert (q = p) as -> by congruence. exists q'. split; [done|].
    destruct Hc as [k Hk He|He|Hq' _|Hq' _|v k Hq' _ _ _]; try done.
    - split; [|done]. split; [done|]. split; [done|]. right. split; [done|]. exists k. split; [lia|done].
    - split; [|done]. split; [done|]. split; [done|]. by left. }
  destruct Hstep as [s h aid success rating Ha Hr|s h ratee rating Ha Hr|s h voter w s' Hw|s h proposer ty payload quorum ttl
    |s h voter pid' dec ev w Hw Hv Hd|s h pid'|s h pid'|s h s' Hs]; cbn [fst snd] in *.
  - destruct (fold_outcome_run clock Hclock aid success rating s) as (r & r0 & k & -> & _); [apply Hok|done|done|]. by exists p.
  - destruct (fold_rating_run clock Hclock ratee rating s) as (r & k & -> & _); [apply Hok|done|done|]. by exists p.
  - destruct (weigh_ok s voter w s' (proj1 Hok) Hw) as (_ & _ & (_ & Hs & _)). exists p. by rewrite Hs.
  - destruct (submit_run proposer ty payload quorum ttl s) as [(_ & Hs & _)|(q & s' & _ & Hd & Hid & _ & _ & _ & _ & ->)];
      [exists p; by rewrite Hs|].
    cbn [proposals ticks]. rewrite dget_dset, Hid. destruct (decide _) as [Heq|]; [|by exists p]. exfalso.
    destruct Hok as (_ & _ & _ & I4). destruct (I4 pid) as (k & Hk & Hpk); [apply dget_is_Some_keys; by exists p|].
    cbn [fst] in Hk. rewrite Hpk in Heq. inversion Heq as [Hu]. apply Huuid in Hu. lia.
  - apply (Hch h s _ pid'); [done| |done]. apply cast_changes; [done..|by apply (told_unit h s voter)|].
    intros q Hq. by apply (stored_named h s pid' q).
  - apply (Hch h s _ pid'); [done|apply resolve_changes|done].
  - apply (Hch h s _ pid'); [done|apply check_changes|done].
  - destruct Hs as (_ & Hs & _). exists p. by rewrite Hs.
Qed.

Lemma settled_trans m n p q r : settled m p q -> settled n q r -> m <= n -> settled n p r.
Proof using.
  intros (H1 & H2 & H3) (G1 & G2 & G3) Hle. split; [congruence|]. split; [congruence|].
  destruct G3 as [G3|(G3 & k & Hk & He)].
  - rewrite G3. destruct H3 as [H3|(H3 & k & Hk & He)]; [by left|right]. split; [done|]. exists k. split; [lia|done].
  - right. split; [done|]. exists k. split; [done|]. by rewrite <- H2.
Qed.

Lemma step_ticks c c' : engine_ok c -> step c c' -> ticks c.1 <= ticks c'.1.
Proof using Hclock.
  intros Hok Hstep.
  assert (Hch : forall h s s' pid', changes h pid' s s' -> ticks s <= ticks s').
  { intros h s s' pid' [(_ & _ & _ & Hs & _)|(q & q' & _ & (_ & _ & _ & Hs & _) & _)]; done. }
  destruct Hstep as [s h aid success rating Ha Hr|s h ratee rating Ha Hr|s h voter w s' Hw|s h proposer ty payload quorum ttl
    |s h voter pid' dec ev w Hw Hv Hd|s h pid'|s h pid'|s h s' Hs]; cbn [fst snd] in *.
  - destruct (fold_outcome_run clock Hclock aid success rating s) as (r & r0 & k & -> & _ & _ & Hk & _); [apply Hok|done|done|].
    cbn. lia.
  - destruct (fold_rating_run clock Hclock ratee rating s) as (r & k & -> & _ & Hk); [apply Hok|done|done|done].
  - destruct (weigh_ok s voter w s' (proj1 Hok) Hw) as (_ & _ & (_ & _ & _ & Hs & _)). done.
  - destruct (submit_run proposer ty payload quorum ttl s) as [(_ & _ & _ & Hs & _)|(q & s' & _ & _ & _ & _ & _ & Ht & _ & ->)]; done.
  - apply (Hch h _ _ pid'). apply cast_changes; [done..|by apply (told_unit h s voter)|].
    intros q Hq. by apply (stored_named h s pid' q).
  - apply (Hch h _ _ pid'), resolve_changes.
  - apply (Hch h _ _ pid'), check_changes.
  - apply Hs.
Qed.

(** C30: Once a proposal is passed, denied or expired its ballots are final,
    whatever operations follow and however they interleave; its status stays, or
    becomes expired after its time, so a denied or expired proposal never passes. *)
Theorem resolution_is_final n w c c' pid p : rtc step (fresh n w, []) c -> dget pid (proposals c.1) = Some p ->
  status p <> "open"%string -> rtc step c c' ->
  exists p', dget pid (proposals c'.1) = Some p' /\ settled (ticks c'.1) p p'.
Proof using Hclock Huuid.
  intros H Hp Ho H'. pose proof (steps_ok _ _ H (fresh_ok n w)) as Hok. clear H.
  cut (engine_ok c' /\ exists p', dget pid (proposals c'.1) = Some p' /\ settled (ticks c'.1) p p' /\ status p' <> "open"%string).
  { intros (_ & p' & H1 & H2 & _). by exists p'. }
  apply (rtc_invariant step (fun c' => engine_ok c' /\ exists p', dget pid (proposals c'.1) = Some p' /\ settled (ticks c'.1) p p' /\
    status p' <> "open"%string) c c'); [|done|].
  - intros a b Hab (Ha & q & Hq & Hs & Hne). split; [by apply (step_ok a)|].
    destruct (step_settled a b pid q Ha Hab Hq Hne) as (r & Hr & Hs' & Hne'). exists r. split; [done|]. split; [|done].
    apply (settled_trans (ticks a.1) _ _ q); [done|done|by apply step_ticks].
  - split; [done|]. exists p. split; [done|]. split; [by split; [|split; [|left]]|done].
Qed.

(** The status of a stored proposal is answered with an exact copy of it,
    every ballot included, and the query changes nothing. *)
Theorem status_is_copy n w c pid p : rtc step (fresh n w, []) c -> dget pid (proposals c.1) = Some p ->
  get_proposal_status pid c.1 = (Ok p, c.1).
Proof using Hclock.
  intros H Hp. destruct (steps_ok _ _ H (fresh_ok n w)) as (_ & _ & I3 & _). destruct (I3 pid p Hp) as [_ H2 _ H4 _].
  unfold get_proposal_status. rewrite bind_run, (require_run _ _ _ Hp). unfold copy_of, get. rewrite bind_run. unfold lift.
  rewrite proposal_roundtrip; [done|]. split; [done|]. eapply Forall_impl; [exact H4|]. by intros v [B1 _ _ _].
Qed.

(** C40: In every run the score of an agent is its recomputed score, a number
    between 0 and 1 under binary64 rounding, over at most twenty ratings; a kept
    reputation can always be read back unchanged, and every named voter has a
    weight between 0 and 1. *)
Theorem scores_bounded n w c : rtc step (fresh n w, []) c ->
  (forall aid r, dget aid (reputations c.1) = Some r ->
     score r = compute_score r /\ in_unit (score r) = true /\ length (peer_ratings r) <= REPUTATION_WINDOW /\
     get_reputation clock aid c.1 = (Ok r, c.1)) /\
  (forall voter, is_empty voter = false -> exists x s', vote_weight clock voter c.1 = (Ok x, s') /\ in_unit x = true).
Proof using Hclock.
  intros H. destruct (steps_ok _ _ H (fresh_ok n w)) as (I1 & _). split.
  - intros aid r Hr. pose proof (I1 aid r Hr) as Hk. split; [apply Hk|]. split; [|split; [apply Hk|]].
    + rewrite (kr_score _ _ Hk). unfold in_unit.
      destruct (unit_float_test (compute_score r)) as [-> ->]; [|done]. apply compute_score_unit; apply Hk.
    + destruct (get_reputation_run clock Hclock aid c.1 I1 (kr_named _ _ Hk)) as (r' & k & Hrun & _ & _ & [Hr'|[Hr' _]]);
        [|congruence]. assert (r' = r) as -> by congruence.
      revert Hrun. unfold get_reputation. rewrite bind_raise_when, (kr_named _ _ Hk). unfold get. rewrite bind_run, Hr.
      unfold lift. by intros [= -> _].
  - intros voter Hv. destruct (vote_weight_run clock Hclock voter c.1 I1 Hv) as (x & k & -> & Hx & _).
    exists x, (with_ticks c.1 k). split; [done|]. unfold in_unit. by destruct (unit_float_test x Hx) as [-> ->].
Qed.

Lemma mirror_vote_run pid voter dec w ev s : exists r w', mirror_vote pid voter dec w ev s =
  (r, mk_State (reputations s) (proposals s) (payloads s) (ticks s) (drawn s) w') /\ (r = Ok tt \/ r = Err CancelledError /\ cancels).
Proof using.
  unfold mirror_vote. destruct (be_add_edge be) as [f|] eqn:Hf; [|exists (Ok tt), (world s); destruct s; auto].
  match goal with |- context [on_backend ?op s] => destruct (on_backend_run op s) as (r & w' & -> & Hr) end.
  exists r, w'. split; [done|]. destruct Hr as [->|[-> Hr]]; [by left|right]. split; [done|]. right. eauto 10.
Qed.

Lemma mirror_resolution_run h pid s : engine_ok (s, h) -> exists r w', mirror_resolution pid s =
  (r, mk_State (reputations s) (proposals s) (payloads s) (ticks s) (drawn s) w') /\ (r = Ok tt \/ r = Err CancelledError /\ cancels).
Proof using.
  intros (_ & _ & I3 & _). unfold mirror_resolution, get. rewrite bind_run. destruct (dget pid (proposals s)) as [p|] eqn:Hp.
  - destruct (I3 pid p Hp) as [_ H2 _ H4 _]. rewrite bind_run. unfold copy_of, get. rewrite bind_run. unfold lift.
    rewrite proposal_roundtrip; [apply mirror_resolution_locked_run|]. split; [done|].
    eapply Forall_impl; [exact H4|]. by intros v [B1 _ _ _].
  - exists (Ok tt), (world s). destruct s; auto.
Qed.

(** What a ballot of weight [x] on a stored proposal comes to, the clock being
    first read at [k]: the proposal [p'] kept in place of [p], and the answer, which
    only a cancelled mirror call withholds *)
Definition answer (r : result (string * bool)) (p' : ConsensusProposal) : Prop :=
  r = Ok (status p', String.eqb (status p') "passed") \/ r = Err CancelledError /\ cancels.

Definition vote_outcome (voter pid dec : string) (ev : list string) (x : float) (k : nat) (p p' : ConsensusProposal)
    (r : result (string * bool)) : Prop :=
  let v := mk_Vote voter pid dec ev x (clock (S k)) in
  if bool_decide (status p = "expired"%string) || (expires_at p <=? clock k)%Z then
    p' = with_status "expired" p /\ answer r p'
  else if String.eqb (status p) "open" then
    p' = with_status (ballot_status v (with_ballot v p)) (with_ballot v p) /\ answer r p'
  else p' = p /\ r = Err ValueError.

(** The engines but for the proposal [pid], the clock and the world *)
Definition stores (pid : string) (p' : ConsensusProposal) (s s' : State) : Prop :=
  proposals s' = dset pid p' (proposals s) /\ reputations s' = reputations s /\ payloads s' = payloads s.

(** What follows the section of [cast_vote] under the lock *)
Lemma finish_vote_run h voter pid dec ev x s resolved p r s' : engine_ok (s, h) -> dget pid (proposals s) = Some p ->
  resolved = negb (String.eqb (status p) "open") ->
  (_ ← mirror_vote pid voter dec x ev;
   _ ← (if String.eqb (status p) "open" then mret tt else mirror_resolution pid);
   mret (status p, resolved && String.eqb (status p) "passed")) s = (r, s') ->
  answer r p /\ proposals s' = proposals s /\ reputations s' = reputations s /\ payloads s' = payloads s.
Proof using.
  intros Hok Hp -> Hrun. unfold answer. rewrite bind_run in Hrun. destruct (mirror_vote_run pid voter dec x ev s) as (r1 & w1 & Hm & Hr1).
  rewrite Hm in Hrun. set (s1 := mk_State _ _ _ _ _ _) in *.
  destruct Hr1 as [-> | [-> Hc]]; [|inversion Hrun; subst; auto]. rewrite bind_run in Hrun.
  destruct (String.eqb_spec (status p) "open") as [Ho|Ho]; [rewrite Ho in *; inversion Hrun; subst; auto|].
  assert (Hok1 : engine_ok (s1, h)) by (apply (same_store_ok _ s); [by repeat split|done]).
  destruct (mirror_resolution_run _ pid s1 Hok1) as (r2 & w2 & Hm2 & [-> | [-> Hc]]); rewrite Hm2 in Hrun;
    inversion Hrun; subst; auto.
Qed.

End Engine.

(** ** A run *)

Definition demo_backend : Backend (list string) := mk_Backend _
  (Some (fun _ _ a w => (Ok "n-1", w ++ [a]))) (Some (fun a _ _ _ _ w => (Ok "e-1", w ++ [a])))
  (Some (fun _ _ a w => (Err RuntimeError, w ++ [a]))).
Definition demo_clock (n : nat) : Z := Z.min (1000000 * Z.of_nat n) 100000000000.
Definition demo_uuid (n : nat) : string := of_chars (repeat "a"%char n).
Definition no_time (t : string) : result Z := Err ValueError.
Definition no_number (v : value) : result float := Err ValueError.

Lemma demo_clock_ok n : in_calendar (demo_clock n) = true.
Proof.
  unfold in_calendar, demo_clock. apply andb_true_intro. split; [apply Z.leb_le; lia|].
  apply Z.ltb_lt. change (days_before_year (max_year + 1) * day_us)%Z with 315537897600000000%Z. lia.
Qed.

Lemma demo_uuid_inj i j : demo_uuid i = demo_uuid j -> i = j.
Proof.
  intros H. assert (to_chars (demo_uuid i) = to_chars (demo_uuid j)) as Hl by by rewrite H.
  unfold demo_uuid in Hl. rewrite !to_of_chars in Hl. apply (f_equal length) in Hl. by rewrite !repeat_length in Hl.
Qed.

Abbreviation demo_step := (step demo_backend demo_clock demo_uuid).
Abbreviation demo_call := (run_call demo_backend demo_clock demo_uuid no_time no_number).
Abbreviation demo_pid := "prop_"%string.

(** A proposal, and the user's word on it *)
Definition demo_submitted : Reputation.State (list string) :=
  (submit_locked demo_clock demo_uuid "planner" "spawn_agent" [] f_half 60 (fresh 0 [])).2.
Definition demo_voted : Reputation.State (list string) :=
  (cast_locked demo_backend demo_clock "User" demo_pid "deny" [] f_one demo_submitted).2.
Definition demo_config : config (W:=list string) := (demo_voted, [("User"%string, f_one)]).

Lemma demo_run : rtc demo_step (fresh 0 [], []) (demo_submitted, []).
Proof. apply rtc_once, step_submit. Defined.

Lemma demo_vote_run : rtc demo_step (fresh 0 [], []) demo_config.
Proof.
  eapply rtc_r; [eapply rtc_r; [exact demo_run|]|].
  - apply (step_weigh _ _ _ demo_submitted [] "User" f_one demo_submitted). reflexivity.
  - apply (step_cast demo_backend demo_clock demo_uuid demo_submitted); [apply list_elem_of_here|done|vm_decide].
Defined.

(** The user's denial settles the proposal. *)
Definition demo_denied : ConsensusProposal := with_status "denied"
  (with_ballot (mk_Vote "User" demo_pid "deny" [] f_one 2000000)
     (mk_ConsensusProposal demo_pid "planner" "spawn_agent" f_half [] "open" 60000000)).

Lemma demo_denied_stored : dget demo_pid (proposals demo_voted) = Some demo_denied.
Proof. reflexivity. Qed.

Lemma ballots_decide_witness : dget demo_pid (proposals demo_config.1) = Some demo_denied /\
  NoDup (map voter_id (votes demo_denied)) /\ status_ok demo_clock (ticks demo_config.1) demo_denied.
Proof.
  split; [reflexivity|].
  destruct (ballots_decide demo_backend demo_clock demo_uuid demo_clock_ok 0 [] demo_config demo_pid demo_denied
    demo_vote_run eq_refl) as (H1 & _ & H3). exact (conj H1 H3).
Defined.

Lemma resolution_is_final_witness : exists p', dget demo_pid (proposals demo_config.1) = Some p' /\
  settled demo_clock (ticks demo_config.1) demo_denied p'.
Proof.
  exact (resolution_is_final demo_backend demo_clock demo_uuid demo_clock_ok demo_uuid_inj 0 [] demo_config demo_config demo_pid
    demo_denied demo_vote_run eq_refl ltac:(discriminate) (rtc_refl _ _)).
Defined.

Lemma status_is_copy_witness :
  get_proposal_status demo_clock no_time no_number demo_pid demo_voted = (Ok demo_denied, demo_voted).
Proof.
  exact (status_is_copy demo_backend demo_clock demo_uuid no_time no_number demo_clock_ok 0 [] demo_config demo_pid
    demo_denied demo_vote_run eq_refl).
Defined.

(** An outcome with a peer rating *)
Definition demo_scored : config (W:=list string) :=
  ((fold_outcome demo_clock "coder" true (Some f_half) (fresh 0 [])).2, []).

Lemma scores_bounded_witness : exists r, dget "coder"%string (reputations demo_scored.1) = Some r /\
  in_unit (score r) = true /\ get_reputation demo_clock "coder" demo_scored.1 = (Ok r, demo_scored.1).
Proof.
  assert (Hr : rtc demo_step (fresh 0 [], []) demo_scored).
  { apply rtc_once, (step_outcome demo_backend demo_clock demo_uuid); [reflexivity|]. split; [done|by vm_compute]. }
  destruct (scores_bounded demo_backend demo_clock demo_uuid demo_clock_ok 0 [] demo_scored Hr) as [H _].
  destruct (dget "coder"%string (reputations demo_scored.1)) as [r|] eqn:E; [|discriminate E].
  exists r. destruct (H "coder"%string r E) as (_ & H2 & _ & H4). exact (conj eq_refl (conj H2 H4)).
Defined.


Lemma calls_are_steps_witness : exists h', rtc demo_step (demo_submitted, []) (demo_call (CallOutcome "coder" true (Some f_half)) demo_submitted, h').
Proof.
  exact (calls_are_steps demo_backend demo_clock demo_uuid no_time no_number (CallOutcome "coder" true (Some f_half)) demo_submitted []
    ltac:(vm_compute; reflexivity)).
Defined.

(** Trust is looked up after [strip().lower()], ballots are told apart by the
    name as given: one trusted voter fills two ballots of weight 1.0. *)
Example trusted_voter_twice :
  let s := demo_call (CallVote "BUTLER" demo_pid "abstain" None) (demo_call (CallVote "butler" demo_pid "abstain" None) demo_submitted) in
  option_map (fun p => map (fun v => (voter_id v, SFeqb (weight v) f_one)) (votes p)) (dget demo_pid (proposals s)) =
    Some [("butler", true); ("BUTLER", true)]%string.
Proof. vm_compute. reflexivity. Qed.

(** A ballot after the time turns a denied proposal expired. *)
Example denied_then_expired :
  let late := mk_State (reputations demo_voted) (proposals demo_voted) (payloads demo_voted) 100 1 (world demo_voted) in
  option_map status (dget demo_pid (proposals (demo_call (CallVote "coder" demo_pid "approve" None) late))) = Some "expired"%string.
Proof. vm_compute. reflexivity. Qed.
