(* ===== verification/LatticeGraph.v ===== *)
(** * Breadth-first search

    The graph searches of the two lattice backends, over the list of neighbours
    of a node: the queues of [InMemoryLatticeBackend.traverse] and [find_path]
    ([src/agency/lattice/api.py]), and the recursive query and the level loop of
    [SQLiteLattice] ([src/agency/lattice/backends/sqlite.py]).  A queue is given
    fuel for every node that can be reached ([universe]). *)
From S2P Require Import Prelude.

Section Search.
Context (nbr : string -> list string).

(** [walk n x y]: [y] is [n] edges from [x] along some way. *)
Inductive walk : nat -> string -> string -> Prop :=
| walk_0 x : walk 0 x x
| walk_S n x y z : walk n x y -> z ∈ nbr y -> walk (S n) x z.

(** [y] is at distance [n]. *)
Definition at_distance (n : nat) (x y : string) : Prop := walk n x y /\ forall k, k < n -> ~ walk k x y.

(** ** The searches as written *)

(** One pass over the neighbours: those not visited yet, in order, and the visited set after *)
Fixpoint discover (l : list string) (visited : gset string) : list string * gset string :=
  match l with
  | [] => ([], visited)
  | y :: l' => if decide (y ∈ visited) then discover l' visited
               else let '(new, v) := discover l' ({[y]} ∪ visited) in (y :: new, v)
  end.

(** [while frontier: current, depth = frontier.pop(0) ...]; [None] when out of fuel *)
Fixpoint traverse_queue (fuel : nat) (max_depth : Z) (frontier : list (string * nat)) (visited : gset string) : option (list string) :=
  match frontier with
  | [] => Some []
  | (current, depth) :: rest =>
      match fuel with
      | 0 => None
      | S fuel' =>
          if (max_depth <=? Z.of_nat depth)%Z then traverse_queue fuel' max_depth rest visited
          else let '(new, v) := discover (nbr current) visited in
               seen ← traverse_queue fuel' max_depth (rest ++ map (fun y => (y, S depth)) new) v;
               Some (new ++ seen)
      end
  end.

(** One pass of [find_path]: the path to the target, or the paths found *)
Fixpoint extend (target : string) (path : list string) (l : list string) (visited : gset string)
    : list string + list (list string) * gset string :=
  match l with
  | [] => inr ([], visited)
  | y :: l' => if decide (y ∈ visited) then extend target path l' visited
               else if decide (y = target) then inl (path ++ [y])
               else match extend target path l' ({[y]} ∪ visited) with
                    | inl p => inl p
                    | inr (new, v) => inr ((path ++ [y]) :: new, v)
                    end
  end.

(** [path[-1]] *)
Definition end_of (path : list string) : string := List.last path ""%string.

(** [while queue: path = queue.popleft() ...]; [None] when out of fuel *)
Fixpoint path_queue (fuel : nat) (target : string) (max_depth : Z) (queue : list (list string)) (visited : gset string)
    : option (option (list string)) :=
  match queue with
  | [] => Some None
  | path :: rest =>
      match fuel with
      | 0 => None
      | S fuel' =>
          if (max_depth <=? Z.of_nat (length path) - 1)%Z then path_queue fuel' target max_depth rest visited
          else match extend target path (nbr (end_of path)) visited with
               | inl p => Some (Some p)
               | inr (new, v) => path_queue fuel' target max_depth (rest ++ new) v
               end
      end
  end.

(** [for path in queue: ...] of one level of [SQLiteLattice.find_path] *)
Fixpoint path_level (target : string) (queue : list (list string)) (visited : gset string)
    : list string + list (list string) * gset string :=
  match queue with
  | [] => inr ([], visited)
  | path :: rest =>
      match extend target path (nbr (end_of path)) visited with
      | inl p => inl p
      | inr (new, v) =>
          match path_level target rest v with
          | inl p => inl p
          | inr (new', v') => inr (new ++ new', v')
          end
      end
  end.

(** [while queue and depth < max_depth], the levels left as fuel *)
Fixpoint path_levels (levels : nat) (target : string) (queue : list (list string)) (visited : gset string) : option (list string) :=
  match levels, queue with
  | 0, _ | _, [] => None
  | S levels', _ =>
      match path_level target queue visited with
      | inl p => Some p
      | inr (next, v) => path_levels levels' target next v
      end
  end.

(** The recursive query: rows [(id, depth)] are taken from a queue, and each gives
    its neighbours one deeper; a row that was queued before is dropped ([UNION]). *)
Definition row_eqb (a b : string * nat) : bool := bool_decide (a = b).

Fixpoint queue_rows (rows : list (string * nat)) (queued : gset (string * nat)) : list (string * nat) * gset (string * nat) :=
  match rows with
  | [] => ([], queued)
  | r :: rows' => if decide (r ∈ queued) then queue_rows rows' queued
                  else let '(new, q) := queue_rows rows' ({[r]} ∪ queued) in (r :: new, q)
  end.

Fixpoint reachable_rows (fuel : nat) (max_depth : Z) (queue : list (string * nat)) (queued : gset (string * nat))
    : option (list (string * nat)) :=
  match queue with
  | [] => Some []
  | (id, depth) :: rest =>
      match fuel with
      | 0 => None
      | S fuel' =>
          let found := if (Z.of_nat depth <? max_depth)%Z then map (fun y => (y, S depth)) (nbr id) else [] in
          let '(new, q) := queue_rows found queued in
          rows ← reachable_rows fuel' max_depth (rest ++ new) q;
          Some ((id, depth) :: rows)
      end
  end.

(** [SELECT DISTINCT id ... WHERE id != ?], in the order the rows come *)
Fixpoint distinct (l : list string) (seen : gset string) : list string :=
  match l with
  | [] => []
  | x :: l' => if decide (x ∈ seen) then distinct l' seen else x :: distinct l' ({[x]} ∪ seen)
  end.

(** ** Levels *)

(** The nodes found from one level *)
Fixpoint next_level (cur : list string) (visited : gset string) : list string * gset string :=
  match cur with
  | [] => ([], visited)
  | x :: cur' => let '(new, v) := discover (nbr x) visited in
                 let '(new', v') := next_level cur' v in (new ++ new', v')
  end.

Fixpoint levels (k : nat) (cur : list string) (visited : gset string) : list string :=
  match k with
  | 0 => []
  | S k' => let '(new, v) := next_level cur visited in new ++ levels k' new v
  end.

Lemma discover_spec l visited : let '(new, v) := discover l visited in
  (forall y, y ∈ new <-> y ∈ l /\ y ∉ visited) /\ NoDup new /\ v = list_to_set new ∪ visited.
Proof.
  revert visited. induction l as [|y l IH]; intros visited; cbn [discover].
  - split; [set_solver|]. split; [constructor|]. apply set_eq. set_solver.
  - destruct (decide (y ∈ visited)) as [Hy|Hy].
    + specialize (IH visited). destruct (discover l visited) as [new v]. destruct IH as (H1 & H2 & ->).
      split; [|done]. intros z. rewrite H1. set_solver.
    + specialize (IH ({[y]} ∪ visited)). destruct (discover l _) as [new v]. destruct IH as (H1 & H2 & ->).
      split; [|split].
      * intros z. rewrite elem_of_cons, H1. destruct (decide (z = y)) as [->|]; set_solver.
      * constructor; [rewrite H1; set_solver|done].
      * apply set_eq. set_solver.
Qed.

Lemma next_level_spec cur visited : let '(new, v) := next_level cur visited in
  (forall y, y ∈ new <-> (exists x, x ∈ cur /\ y ∈ nbr x) /\ y ∉ visited) /\ NoDup new /\ v = list_to_set new ∪ visited.
Proof.
  revert visited. induction cur as [|x cur IH]; intros visited; cbn [next_level].
  - split; [|split; [constructor|apply set_eq; set_solver]]. intros y. split; [intros Hy; by apply not_elem_of_nil in Hy|].
    intros [(x & Hx & _) _]. by apply not_elem_of_nil in Hx.
  - pose proof (discover_spec (nbr x) visited) as Hd. destruct (discover (nbr x) visited) as [new v]. destruct Hd as (D1 & D2 & ->).
    specialize (IH (list_to_set new ∪ visited)). destruct (next_level cur _) as [new' v']. destruct IH as (H1 & H2 & ->).
    split; [|split].
    + intros y. rewrite elem_of_app, D1, H1, not_elem_of_union, elem_of_list_to_set, D1. split.
      * intros [[Hy Hv]|[(z & Hz & Hy) [_ Hv]]]; (split; [|done]); [exists x|exists z]; split; trivial; set_solver.
      * intros [(z & Hz & Hy) Hv]. destruct (decide (y ∈ nbr x)) as [|Hn]; [by left|right].
        apply elem_of_cons in Hz as [->|Hz]; [done|]. split; [by exists z|]. split; [tauto|done].
    + apply NoDup_app. split; [done|]. split; [|done]. intros y Hy [_ Hv]%H1. set_solver.
    + apply set_eq. set_solver.
Qed.

(** ** What the levels hold *)

Lemma walk_head n x z : walk (S n) x z <-> exists y, y ∈ nbr x /\ walk n y z.
Proof.
  split.
  - revert z. induction n as [|n IH]; intros z H; inversion H as [|? ? y ? Hw Hz]; subst.
    + inversion Hw; subst. exists z. split; [done|constructor].
    + destruct (IH _ Hw) as (u & Hu & Hw'). exists u. split; [done|]. by apply (walk_S n u y z).
  - intros (y & Hy & H). induction H as [y|n y u z H IH Hz]; [by apply (walk_S 0 x x y); [constructor|]|].
    apply (walk_S _ _ u); auto.
Qed.

(** [cur] is the level at distance [d], [visited] all within it. *)
Definition level_ok (s : string) (d : nat) (cur : list string) (visited : gset string) : Prop :=
  (forall y, y ∈ cur <-> at_distance d s y) /\ (forall y, y ∈ visited <-> exists n, n <= d /\ walk n s y).

Lemma level_start s : level_ok s 0 [s] {[s]}.
Proof.
  split; intros y.
  - rewrite list_elem_of_singleton. split; [intros ->; split; [constructor|lia]|]. intros [H _]. by inversion H.
  - rewrite elem_of_singleton. split; [intros ->; exists 0; split; [done|constructor]|].
    intros (n & Hn & H). assert (n = 0) as -> by lia. by inversion H.
Qed.

(** The nodes [n] edges away, as a list *)
Fixpoint targets (n : nat) (x : string) : list string :=
  match n with 0 => [x] | S n' => flat_map nbr (targets n' x) end.

Lemma elem_of_targets n x y : y ∈ targets n x <-> walk n x y.
Proof.
  revert y. induction n as [|n IH]; intros y; cbn [targets].
  - rewrite list_elem_of_singleton. split; [intros ->; constructor|by inversion 1].
  - rewrite list_elem_of_In, in_flat_map. split.
    + intros (u & Hu & Hy). rewrite <- list_elem_of_In in *. apply (walk_S n x u y); [by apply IH|done].
    + intros H. inversion H as [|? ? u ? Hw Hy]; subst. exists u. rewrite <- !list_elem_of_In. by rewrite IH.
Qed.

#[local] Instance walk_dec n x y : Decision (walk n x y).
Proof. destruct (decide (y ∈ targets n x)) as [H|H]; rewrite elem_of_targets in H; [by left|by right]. Defined.

(** The first walk to a node *)
Lemma walk_least s y n : walk n s y -> exists k, k <= n /\ at_distance k s y.
Proof.
  induction n as [n IH] using lt_wf_ind. intros H.
  destruct (existsb (fun k => bool_decide (walk k s y)) (seq 0 n)) eqn:E.
  - apply existsb_exists in E as (k & Hk%in_seq & Hw%bool_decide_eq_true). destruct (IH k ltac:(lia) Hw) as (m & Hm & Hd).
    exists m. split; [lia|done].
  - exists n. split; [done|]. split; [done|]. intros k Hk Hw.
    assert (existsb (fun k => bool_decide (walk k s y)) (seq 0 n) = true); [|congruence].
    apply existsb_exists. exists k. split; [apply in_seq; lia|by apply bool_decide_eq_true].
Qed.

Lemma level_next s d cur visited : level_ok s d cur visited ->
  let '(new, v) := next_level cur visited in level_ok s (S d) new v /\ NoDup new /\ (forall y, y ∈ new -> y ∉ visited).
Proof.
  intros [Hc Hv]. pose proof (next_level_spec cur visited) as H. destruct (next_level cur visited) as [new v].
  destruct H as (H1 & H2 & ->).
  assert (Hnew : forall y, y ∈ new <-> at_distance (S d) s y).
  { intros y. rewrite H1. split.
    - intros [(x & Hx%Hc & Hy) Hn]. destruct Hx as [Hw _]. split; [by apply (walk_S d s x)|].
      intros k Hk Hwk. apply Hn, Hv. exists k. split; [lia|done].
    - intros [Hw Hmin]. split.
      + inversion Hw as [|? ? x ? Hx Hy]; subst. exists x. split; [|done]. apply Hc. split; [done|].
        intros k Hk Hwk. apply (Hmin (S k)); [lia|]. by apply (walk_S k s x).
      + intros (k & Hk & Hwk)%Hv. apply (Hmin k); [lia|done]. }
  split; [|split; [done|by intros y [_ Hy]%H1]]. split; [done|].
  intros y. rewrite elem_of_union, elem_of_list_to_set, Hnew, Hv. split.
  - intros [[Hw _]|(n & Hn & Hw)]; [by exists (S d)|exists n; split; [lia|done]].
  - intros (n & Hn & Hw). destruct (walk_least s y n Hw) as (k & Hk & Hd).
    destruct (decide (k = S d)) as [->|]; [by left|right]. exists k. split; [lia|apply Hd].
Qed.

(** The levels list, once each, the nodes from [d + 1] to [d + k] edges away. *)
Lemma levels_spec s k d cur visited : level_ok s d cur visited ->
  NoDup (levels k cur visited) /\
  (forall y, y ∈ levels k cur visited <-> exists n, d < n /\ n <= d + k /\ at_distance n s y).
Proof.
  revert d cur visited. induction k as [|k IH]; intros d cur visited Hl; cbn [levels].
  - split; [constructor|]. intros y. split; [intros Hy; by apply not_elem_of_nil in Hy|intros (n & ? & ? & _); lia].
  - pose proof (level_next s d cur visited Hl) as H. destruct (next_level cur visited) as [new v]. destruct H as (H1 & H2 & H3).
    destruct (IH (S d) new v H1) as [Hn He]. destruct H1 as [Hnew _]. split.
    + apply NoDup_app. split; [done|]. split; [|done]. intros y Hy%Hnew (n & Hlt & _ & Hd)%He.
      destruct Hd as [_ Hd]. apply (Hd (S d)); [lia|apply Hy].
    + intros y. rewrite elem_of_app, Hnew, He. split.
      * intros [Hy|(n & ? & ? & Hy)]; [exists (S d)|exists n]; split; try lia; split; try lia; done.
      * intros (n & H4 & H5 & Hy). destruct (decide (n = S d)) as [->|]; [by left|right]. exists n. split; [lia|split; [lia|done]].
Qed.

(** ** The queue of [traverse] goes level by level *)

Abbreviation at_depth d := (map (fun y => (y, d))).

Lemma queue_level m d cur nxt visited fuel : (Z.of_nat d < m)%Z -> length cur <= fuel ->
  let '(new, v) := next_level cur visited in
  traverse_queue fuel m (at_depth d cur ++ at_depth (S d) nxt) visited =
    seen ← traverse_queue (fuel - length cur) m (at_depth (S d) (nxt ++ new)) v; Some (new ++ seen).
Proof.
  intros Hm. revert nxt visited fuel. induction cur as [|x cur IH]; intros nxt visited fuel Hf; cbn [next_level].
  - rewrite app_nil_r, Nat.sub_0_r. cbn [map app]. match goal with |- ?t = ?t2 ≫= _ => by destruct t2 end.
  - destruct fuel as [|fuel]; [cbn in Hf; lia|]. cbn in Hf. destruct (discover (nbr x) visited) as [new v] eqn:Ed.
    specialize (IH (nxt ++ new) v fuel ltac:(lia)). destruct (next_level cur v) as [new' v'].
    cbn [map app traverse_queue length]. rewrite (proj2 (Z.leb_gt _ _) Hm), Ed. rewrite <- app_assoc, <- map_app, IH, <- app_assoc.
    cbn [Nat.sub]. match goal with |- (?t ≫= _) ≫= _ = _ => destruct t as [seen|] end; cbn; [by rewrite app_assoc|reflexivity].
Qed.

Lemma queue_done m d cur visited fuel : (m <= Z.of_nat d)%Z -> length cur <= fuel ->
  traverse_queue fuel m (at_depth d cur) visited = Some [].
Proof.
  intros Hm. revert fuel. induction cur as [|x cur IH]; intros fuel Hf; [by destruct fuel|].
  destruct fuel as [|fuel]; [cbn in Hf; lia|]. cbn. rewrite (proj2 (Z.leb_le _ _) Hm). apply IH. cbn in Hf. lia.
Qed.

Lemma queue_levels m k d cur visited fuel : Z.to_nat m - d = k ->
  length cur + length (levels k cur visited) <= fuel ->
  traverse_queue fuel m (at_depth d cur) visited = Some (levels k cur visited).
Proof.
  revert d cur visited fuel. induction k as [|k IH]; intros d cur visited fuel Hk Hf; cbn [levels] in *.
  - apply queue_done; lia.
  - pose proof (queue_level m d cur [] visited fuel ltac:(lia) ltac:(lia)) as H.
    destruct (next_level cur visited) as [new v]. cbn [map] in H. rewrite app_nil_r in H. rewrite H. rewrite length_app in Hf.
    cbn [app]. rewrite (IH (S d) new v) by lia. done.
Qed.

(** ** Paths *)

Inductive path_from (s : string) : list string -> Prop :=
| path_one : path_from s [s]
| path_snoc p y : path_from s p -> y ∈ nbr (end_of p) -> path_from s (p ++ [y]).

Lemma end_of_snoc p y : end_of (p ++ [y]) = y.
Proof. apply List.last_last. Qed.

Lemma path_walk s p : path_from s p -> exists n, length p = S n /\ walk n s (end_of p).
Proof.
  induction 1 as [|p y Hp (n & Hn & Hw) Hy]; [exists 0; split; [done|constructor]|].
  exists (S n). rewrite length_app, Hn, end_of_snoc. split; [simpl; lia|]. by apply (walk_S n s (end_of p)).
Qed.

Lemma extend_spec target path l visited : target ∉ visited ->
  match extend target path l visited with
  | inl p => p = path ++ [target] /\ target ∈ l
  | inr (new, v) => target ∉ l /\ new = map (fun y => path ++ [y]) (discover l visited).1 /\ v = (discover l visited).2
  end.
Proof.
  revert visited. induction l as [|y l IH]; intros visited Ht; cbn [extend discover]; [set_solver|].
  destruct (decide (y ∈ visited)) as [Hy|Hy].
  - specialize (IH visited Ht). destruct (extend target path l visited) as [p|[new v]]; [set_solver|].
    destruct IH as (H1 & H2 & H3). split; [set_solver|done].
  - destruct (decide (y = target)) as [->|Hne]; [split; [done|left]|].
    specialize (IH ({[y]} ∪ visited) ltac:(set_solver)). destruct (extend target path l _) as [p|[new v]]; [set_solver|].
    destruct (discover l _) as [new' v']. destruct IH as (H1 & H2 & H3). split; [set_solver|]. cbn in *. by subst.
Qed.

Lemma path_level_spec target q visited : target ∉ visited ->
  match path_level target q visited with
  | inl p => exists p0, p0 ∈ q /\ p = p0 ++ [target] /\ target ∈ nbr (end_of p0)
  | inr (new, v) =>
      target ∉ (next_level (map end_of q) visited).1 /\
      v = (next_level (map end_of q) visited).2 /\ map end_of new = (next_level (map end_of q) visited).1 /\
      forall p, p ∈ new -> exists p0 y, p0 ∈ q /\ p = p0 ++ [y] /\ y ∈ nbr (end_of p0)
  end.
Proof.
  revert visited. induction q as [|p0 q IH]; intros visited Ht; cbn [path_level map next_level].
  - split; [by apply not_elem_of_nil|]. split; [done|]. split; [done|]. intros p Hp. by apply not_elem_of_nil in Hp.
  - pose proof (extend_spec target p0 (nbr (end_of p0)) visited Ht) as He.
    pose proof (discover_spec (nbr (end_of p0)) visited) as Hd.
    destruct (extend target p0 (nbr (end_of p0)) visited) as [p|[new v]].
    + destruct He as [-> Hin]. exists p0. split; [left|done].
    + destruct He as (Hni & -> & ->). destruct (discover (nbr (end_of p0)) visited) as [nn v]. cbn [fst snd].
      destruct Hd as (D1 & _ & ->).
      assert (Hv : target ∉ list_to_set nn ∪ visited).
      { rewrite not_elem_of_union, elem_of_list_to_set, D1. tauto. }
      specialize (IH _ Hv). destruct (path_level target q _) as [p|[new' v']].
      * destruct IH as (p1 & H1 & H2). exists p1. split; [by right|done].
      * destruct (next_level (map end_of q) _) as [nn' v'']. cbn [fst snd] in *. destruct IH as (I1 & -> & I2 & I3).
        split; [rewrite not_elem_of_app, D1; tauto|]. split; [done|]. split.
        { rewrite map_app, I2. f_equal. rewrite map_map. rewrite <- (map_id nn) at 2. apply map_ext. intros y. apply end_of_snoc. }
        intros p [Hp|Hp]%elem_of_app.
        { apply list_elem_of_In, in_map_iff in Hp as (y & <- & Hy). exists p0, y. split; [left|]. split; [done|].
          apply D1. by apply list_elem_of_In. }
        { destruct (I3 p Hp) as (p1 & y & H1 & H2). exists p1, y. split; [by right|done]. }
Qed.

Lemma at_distance_pred n s y : at_distance (S n) s y -> exists x, at_distance n s x /\ y ∈ nbr x.
Proof.
  intros [Hw Hmin]. inversion Hw as [|? ? x ? Hx Hy]; subst. exists x. split; [|done]. split; [done|].
  intros k Hk Hwk. apply (Hmin (S k)); [lia|]. by apply (walk_S k s x).
Qed.

Lemma no_level_after s d : (forall y, ~ at_distance d s y) -> forall n, d <= n -> forall y, ~ at_distance n s y.
Proof.
  intros H n Hn. induction Hn as [|n Hn IH]; [done|]. intros y Hy. apply at_distance_pred in Hy as (x & Hx & _). by apply (IH x).
Qed.

(** The level loop finds a shortest path, or there is none of that many edges. *)
Lemma path_levels_spec s target k d q visited : level_ok s d (map end_of q) visited ->
  (forall p, p ∈ q -> path_from s p /\ length p = S d) -> target ∉ visited ->
  match path_levels k target q visited with
  | Some p => path_from s p /\ end_of p = target /\ exists n, length p = S n /\ at_distance n s target /\ n <= d + k
  | None => forall n, n <= d + k -> ~ walk n s target
  end.
Proof.
  revert d q visited. induction k as [|k IH]; intros d q visited Hl Hp Ht; cbn [path_levels].
  - intros n Hn Hw. apply Ht. destruct Hl as [_ Hv]. apply Hv. exists n. split; [lia|done].
  - destruct q as [|p0 q0].
    + intros n Hn Hw. destruct (walk_least s target n Hw) as (m & Hm & Hd).
      destruct (decide (d <= m)) as [Hle|Hlt].
      * apply (no_level_after s d) with (n := m) (y := target) in Hd; trivial.
        intros y Hy. destruct Hl as [Hc _]. apply Hc in Hy. by apply not_elem_of_nil in Hy.
      * apply Ht. destruct Hl as [_ Hv]. apply Hv. exists m. split; [lia|apply Hd].
    + set (q := p0 :: q0) in *. pose proof (path_level_spec target q visited Ht) as Hpl.
      pose proof (level_next s d (map end_of q) visited Hl) as Hn.
      destruct (path_level target q visited) as [p|[new v]].
      * destruct Hpl as (p1 & Hin & -> & Hy). destruct (Hp p1 Hin) as [Hp1 Hlen]. split; [by apply path_snoc|].
        split; [apply end_of_snoc|]. exists (S d). rewrite length_app, Hlen. split; [simpl; lia|]. split; [|lia].
        split; [|intros k' Hk' Hw; apply Ht, Hl; exists k'; split; [lia|done]].
        destruct (path_walk s p1 Hp1) as (m & Hm & Hw). rewrite Hlen in Hm. inversion Hm; subst. by apply (walk_S m s (end_of p1)).
      * destruct (next_level (map end_of q) visited) as [nn v']. destruct Hn as (Hn1 & _ & _). cbn [fst snd] in Hpl.
        destruct Hpl as (H1 & -> & H2 & H3).
        specialize (IH (S d) new v'). rewrite H2 in IH. specialize (IH Hn1).
        replace (d + S k) with (S d + k) by lia. apply IH.
        -- intros p (p1 & y & Hin & -> & Hy)%H3. destruct (Hp p1 Hin) as [Hp1 Hlen]. split; [by apply path_snoc|].
           rewrite length_app, Hlen. simpl. lia.
        -- intros Hin. apply Hn1 in Hin as (n & Hn & Hw). destruct (decide (n = S d)) as [->|].
           ++ apply H1, Hn1. split; [done|]. intros m Hm Hwm. apply Ht, Hl. exists m. split; [lia|done].
           ++ apply Ht, Hl. exists n. split; [lia|done].
Qed.

(** The queue of [find_path] goes level by level. *)
Lemma path_queue_level target m d cur nxt visited fuel : (Z.of_nat d < m)%Z -> Forall (fun p => length p = S d) cur ->
  length cur <= fuel ->
  path_queue fuel target m (cur ++ nxt) visited =
    match path_level target cur visited with
    | inl p => Some (Some p)
    | inr (new, v) => path_queue (fuel - length cur) target m (nxt ++ new) v
    end.
Proof.
  intros Hm Hc. revert nxt visited fuel. induction Hc as [|p cur Hp Hc IH]; intros nxt visited fuel Hf; cbn [path_level].
  - by rewrite app_nil_r, Nat.sub_0_r.
  - destruct fuel as [|fuel]; [cbn in Hf; lia|]. cbn in Hf. cbn [app path_queue length]. rewrite Hp.
    rewrite (proj2 (Z.leb_gt m (Z.of_nat (S d) - 1))) by lia.
    destruct (extend target p (nbr (end_of p)) visited) as [q|[new v]]; [done|].
    rewrite <- app_assoc, IH by lia. cbn [Nat.sub].
    destruct (path_level target cur v) as [q|[new' v']]; [done|]. by rewrite app_assoc.
Qed.

Lemma path_queue_done target m d cur visited fuel : (m <= Z.of_nat d)%Z -> Forall (fun p => length p = S d) cur ->
  length cur <= fuel -> path_queue fuel target m cur visited = Some None.
Proof.
  intros Hm Hc. revert fuel. induction Hc as [|p cur Hp Hc IH]; intros fuel Hf; [by destruct fuel|].
  destruct fuel as [|fuel]; [cbn in Hf; lia|]. cbn [path_queue]. rewrite Hp, (proj2 (Z.leb_le m (Z.of_nat (S d) - 1))) by lia.
  apply IH. cbn in Hf. lia.
Qed.

Lemma path_queue_levels target m k d q visited fuel : Z.to_nat m - d = k -> Forall (fun p => length p = S d) q -> target ∉ visited ->
  length q + length (levels k (map end_of q) visited) <= fuel ->
  path_queue fuel target m q visited = Some (path_levels k target q visited).
Proof.
  revert d q visited fuel. induction k as [|k IH]; intros d q visited fuel Hk Hq Ht Hf.
  - cbn [levels length] in Hf. apply (path_queue_done _ _ d); [lia|done|lia].
  - destruct q as [|p0 q0]; [by destruct fuel|]. set (q := p0 :: q0) in *.
    pose proof (path_queue_level target m d q [] visited fuel ltac:(lia) Hq ltac:(lia)) as H. rewrite app_nil_r in H. rewrite H.
    pose proof (path_level_spec target q visited Ht) as Hpl. cbn [path_levels levels] in *. fold q.
    pose proof (next_level_spec (map end_of q) visited) as Hn.
    destruct (path_level target q visited) as [p|[new v]]; [done|].
    destruct (next_level (map end_of q) visited) as [nn v']. cbn [fst snd app] in *. destruct Hpl as (H1 & -> & H2 & H3).
    destruct Hn as (N1 & _ & ->). apply (IH (S d)); [lia| | |].
    + apply Forall_forall. intros p (p1 & y & Hin & -> & _)%H3. rewrite Forall_forall in Hq.
      rewrite length_app, (Hq p1 Hin). simpl. lia.
    + rewrite not_elem_of_union, elem_of_list_to_set. done.
    + rewrite length_app in Hf. assert (length new = length nn) by (by rewrite <- H2, length_map). rewrite H2. lia.
Qed.

(** ** The searches from a node *)

Context (universe : list string).

Definition search_fuel : nat := S (length universe).

Definition traverse_from (start : string) (max_depth : Z) : option (list string) :=
  traverse_queue search_fuel max_depth [(start, 0)] {[start]}.

Definition path_from_queue (source target : string) (max_depth : Z) : option (option (list string)) :=
  path_queue search_fuel target max_depth [[source]] {[source]}.

Definition path_by_levels (source target : string) (max_depth : Z) : option (list string) :=
  path_levels (Z.to_nat max_depth) target [[source]] {[source]}.

Definition rows_fuel (max_depth : Z) : nat := S (S (length universe) * S (Z.to_nat max_depth)).

Definition select_reachable (start : string) (max_depth : Z) : option (list string) :=
  rows ← reachable_rows (rows_fuel max_depth) max_depth [(start, 0)] {[(start, 0)]};
  Some (distinct (List.filter (fun y => negb (String.eqb y start)) (map fst rows)) ∅).

Context (Huniverse : forall x y, y ∈ nbr x -> y ∈ universe).

Lemma walk_universe n x y : walk (S n) x y -> y ∈ universe.
Proof. intros H. inversion H as [|? ? u ? _ Hy]; subst. by apply (Huniverse u). Qed.

Lemma levels_bound s k : length (levels k [s] {[s]}) <= length universe.
Proof using Huniverse.
  destruct (levels_spec s k 0 [s] {[s]} (level_start s)) as [Hn He]. apply NoDup_incl_length.
  - by apply NoDup_ListNoDup.
  - intros y Hy%list_elem_of_In%He. destruct Hy as (n & Hn0 & _ & Hd). apply list_elem_of_In.
    destruct n as [|n]; [lia|]. by apply (walk_universe n s y), Hd.
Qed.

(** The queue has enough fuel: it lists, once each, the other nodes within the depth. *)
Lemma traverse_from_spec s m : exists l, traverse_from s m = Some l /\ NoDup l /\
  (forall y, y ∈ l <-> y <> s /\ exists n, n <= Z.to_nat m /\ walk n s y).
Proof using Huniverse.
  exists (levels (Z.to_nat m) [s] {[s]}). split.
  - apply (queue_levels m (Z.to_nat m) 0 [s]); [lia|]. pose proof (levels_bound s (Z.to_nat m)). unfold search_fuel. simpl. lia.
  - destruct (levels_spec s (Z.to_nat m) 0 [s] {[s]} (level_start s)) as [Hn He]. split; [done|].
    intros y. rewrite He. split.
    + intros (n & Hn0 & Hm & Hd). split; [|exists n; split; [lia|apply Hd]].
      intros ->. destruct Hd as [_ Hd]. apply (Hd 0 Hn0). constructor.
    + intros (Hne & n & Hn0 & Hw). destruct (walk_least s y n Hw) as (k & Hk & Hd). exists k.
      split; [|split; [lia|done]]. destruct k; [|lia]. destruct Hd as [Hd _]. inversion Hd; subst. done.
Qed.

(** So has the queue of paths, and it finds what the level loop finds. *)
Lemma path_from_queue_levels s t m : s <> t -> path_from_queue s t m = Some (path_by_levels s t m).
Proof using Huniverse.
  intros Hne. apply (path_queue_levels t m (Z.to_nat m) 0 [[s]]); [lia|by apply Forall_singleton|set_solver|].
  pose proof (levels_bound s (Z.to_nat m)). change (map end_of [[s]]) with [s]. cbn [length]. unfold search_fuel. lia.
Qed.

Lemma path_by_levels_spec s t m : s <> t ->
  match path_by_levels s t m with
  | Some p => path_from s p /\ end_of p = t /\ exists n, length p = S n /\ at_distance n s t /\ n <= Z.to_nat m
  | None => forall n, n <= Z.to_nat m -> ~ walk n s t
  end.
Proof using.
  intros Hne. apply (path_levels_spec s t (Z.to_nat m) 0 [[s]]); [apply level_start| |by intros ->%elem_of_singleton].
  intros p ->%list_elem_of_singleton. split; [constructor|done].
Qed.

(** ** The recursive query *)

Lemma queue_rows_spec rows queued : let '(new, q) := queue_rows rows queued in
  (forall r, r ∈ new <-> r ∈ rows /\ r ∉ queued) /\ NoDup new /\ q = list_to_set new ∪ queued.
Proof.
  revert queued. induction rows as [|r rows IH]; intros queued; cbn [queue_rows].
  - split; [set_solver|]. split; [constructor|]. apply set_eq. set_solver.
  - destruct (decide (r ∈ queued)) as [Hy|Hy].
    + specialize (IH queued). destruct (queue_rows rows queued) as [new v]. destruct IH as (H1 & H2 & ->).
      split; [|done]. intros z. rewrite H1. set_solver.
    + specialize (IH ({[r]} ∪ queued)). destruct (queue_rows rows _) as [new v]. destruct IH as (H1 & H2 & ->).
      split; [|split].
      * intros z. rewrite elem_of_cons, H1. destruct (decide (z = r)) as [->|]; set_solver.
      * constructor; [rewrite H1; set_solver|done].
      * apply set_eq. set_solver.
Qed.

(** The rows a search can queue *)
Definition ball (s : string) (m : Z) : list (string * nat) :=
  (s, 0) :: flat_map (fun n => map (fun y => (y, n)) universe) (seq 1 (Z.to_nat m)).

Lemma length_ball s m : length (ball s m) = S (length universe * Z.to_nat m).
Proof.
  unfold ball. cbn [length]. f_equal. generalize 1 as a. generalize (Z.to_nat m) as k.
  induction k as [|k IH]; intros a; [cbn; lia|].
  cbn [seq flat_map]. rewrite length_app, length_map, IH. nia.
Qed.

Lemma walk_ball s m n y : n <= Z.to_nat m -> walk n s y -> (y, n) ∈ ball s m.
Proof using Huniverse.
  intros Hn Hw. unfold ball. destruct n as [|n]; [inversion Hw; subst; left|right].
  apply list_elem_of_In, in_flat_map. exists (S n). split; [apply in_seq; lia|].
  apply in_map_iff. exists y. split; [done|]. by apply list_elem_of_In, (walk_universe n s).
Qed.

(** What the loop keeps: the rows taken, those waiting, and those ever queued *)
Record rows_ok (s : string) (m : Z) (taken queue : list (string * nat)) (queued : gset (string * nat)) : Prop := {
  ro_once : NoDup (taken ++ queue);
  ro_queued : forall r, r ∈ queued <-> r ∈ taken ++ queue;
  ro_walks : forall y n, (y, n) ∈ queued -> n <= Z.to_nat m /\ walk n s y;
  ro_start : (s, 0) ∈ queued;
  ro_closed : forall x n y, (x, n) ∈ taken -> (Z.of_nat n < m)%Z -> y ∈ nbr x -> (y, S n) ∈ queued;
}.

Lemma rows_ok_step s m taken x n queue queued : rows_ok s m taken ((x, n) :: queue) queued ->
  let '(new, q) := queue_rows (if (Z.of_nat n <? m)%Z then map (fun y => (y, S n)) (nbr x) else []) queued in
  rows_ok s m (taken ++ [(x, n)]) (queue ++ new) q.
Proof.
  intros [H1 H2 H3 H4 H5]. set (found := if (Z.of_nat n <? m)%Z then map (fun y => (y, S n)) (nbr x) else []).
  assert (Hf : forall r, r ∈ found <-> (Z.of_nat n < m)%Z /\ exists y, r = (y, S n) /\ y ∈ nbr x).
  { intros r. unfold found. destruct (Z.ltb_spec (Z.of_nat n) m) as [Hl|Hl].
    - rewrite list_elem_of_In, in_map_iff. split.
      + intros (y & <- & Hy). split; [done|]. exists y. by rewrite list_elem_of_In.
      + intros (_ & y & -> & Hy). exists y. by rewrite <- list_elem_of_In.
    - split; [intros Hr; by apply not_elem_of_nil in Hr|intros [? _]; lia]. }
  pose proof (queue_rows_spec found queued) as Hq. destruct (queue_rows found queued) as [new q]. destruct Hq as (Q1 & Q2 & ->).
  split.
  - rewrite (assoc (++)), <- (assoc (++) taken). change ([(x, n)] ++ queue) with ((x, n) :: queue).
    apply NoDup_app. split; [done|]. split; [|done]. intros r Hr [_ Hn]%Q1. by apply Hn, H2.
  - intros r. rewrite elem_of_union, elem_of_list_to_set, H2, !elem_of_app, elem_of_cons, list_elem_of_singleton. tauto.
  - intros y k. rewrite elem_of_union, elem_of_list_to_set, Q1, Hf. intros [[(Hl & z & [= -> ->] & Hz) _]|Hy]; [|by apply H3].
    destruct (H3 x n) as [_ Hw]; [apply H2, elem_of_app; right; left|]. split; [lia|]. by apply (walk_S n s x).
  - apply elem_of_union. by right.
  - intros x' k y [Hx|[= -> ->]%list_elem_of_singleton]%elem_of_app Hk Hy; apply elem_of_union; [right; by apply (H5 x')|].
    destruct (decide ((y, S n) ∈ queued)) as [|Hn]; [by right|left]. apply elem_of_list_to_set, Q1. split; [|done].
    apply Hf. split; [done|]. by exists y.
Qed.

Lemma reachable_rows_run s m fuel taken queue queued : rows_ok s m taken queue queued ->
  length (ball s m) < length taken + fuel ->
  exists rows, reachable_rows fuel m queue queued = Some rows /\ exists q, rows_ok s m (taken ++ rows) [] q.
Proof using Huniverse.
  revert taken queue queued. induction fuel as [|fuel IH]; intros taken queue queued Hok Hf.
  - exfalso. assert (length (taken ++ queue) <= length (ball s m)); [|rewrite length_app in *; lia].
    destruct Hok as [H1 H2 H3 _ _]. apply NoDup_incl_length; [by apply NoDup_ListNoDup|].
    intros [y n] [Hn Hw]%list_elem_of_In%H2%H3. apply list_elem_of_In. by apply (walk_ball s m n y).
  - destruct queue as [|[x n] queue]; cbn [reachable_rows].
    + exists []. split; [done|]. exists queued. by rewrite app_nil_r.
    + pose proof (rows_ok_step s m taken x n queue queued Hok) as Hs. destruct (queue_rows _ queued) as [new q].
      destruct (IH _ _ _ Hs) as (rows & -> & q' & Hq'); [rewrite length_app; cbn [length]; lia|].
      exists ((x, n) :: rows). split; [done|]. exists q'. by rewrite <- (assoc (++)) in Hq'.
Qed.

Lemma distinct_spec l seen : NoDup (distinct l seen) /\ forall x, x ∈ distinct l seen <-> x ∈ l /\ x ∉ seen.
Proof.
  revert seen. induction l as [|x l IH]; intros seen; cbn [distinct]; [split; [constructor|set_solver]|].
  destruct (decide (x ∈ seen)) as [Hx|Hx].
  - destruct (IH seen) as [H1 H2]. split; [done|]. intros y. rewrite H2. set_solver.
  - destruct (IH ({[x]} ∪ seen)) as [H1 H2]. split; [constructor; [rewrite H2; set_solver|done]|].
    intros y. rewrite elem_of_cons, H2. destruct (decide (y = x)) as [->|]; set_solver.
Qed.

(** The query ends, and selects once each the other nodes within the depth. *)
Lemma select_reachable_spec s m : (0 <= m)%Z -> exists l, select_reachable s m = Some l /\ NoDup l /\
  (forall y, y ∈ l <-> y <> s /\ exists n, n <= Z.to_nat m /\ walk n s y).
Proof using Huniverse.
  intros Hm. unfold select_reachable.
  assert (Hok : rows_ok s m [] [(s, 0)] {[(s, 0)]}).
  { split.
    - apply NoDup_singleton.
    - intros r. cbn [app]. rewrite elem_of_singleton, list_elem_of_singleton. done.
    - intros y n [= -> ->]%elem_of_singleton. split; [lia|constructor].
    - by apply elem_of_singleton.
    - intros x n y Hx. by apply not_elem_of_nil in Hx. }
  destruct (reachable_rows_run s m (rows_fuel m) [] [(s, 0)] {[(s, 0)]} Hok) as (rows & -> & q & [_ H2 H3 H4 H5]).
  { rewrite length_ball. unfold rows_fuel. simpl. nia. }
  cbn [app mbind option_bind]. rewrite app_nil_r in H2. cbn [app] in *.
  assert (Hrows : forall n y, walk n s y -> n <= Z.to_nat m -> (y, n) ∈ rows).
  { intros n y. revert y. induction n as [|n IH]; intros y Hw Hn; inversion Hw as [|? ? z ? Hz Hy]; subst; [by apply H2|].
    apply H2, (H5 z n y); [apply IH; [done|lia]|lia|done]. }

  eexists. split; [done|]. destruct (distinct_spec (List.filter (fun y => negb (String.eqb y s)) (map fst rows)) ∅) as [D1 D2].
  split; [done|]. intros y. rewrite D2, elem_of_filter_bool. split.
  - intros [[Hne%negb_true_iff%String.eqb_neq Hy%list_elem_of_In%in_map_iff] _]. split; [done|].
    destruct Hy as ([y' n] & <- & Hr%list_elem_of_In). exists n. apply H3. by apply H2.
  - intros (Hne & n & Hn & Hw). split; [|set_solver]. split; [by apply negb_true_iff, String.eqb_neq|].
    apply list_elem_of_In, in_map_iff. exists (y, n). split; [done|]. apply list_elem_of_In. by apply Hrows.
Qed.
End Search.
