(* ===== verification/LatticeMemory.v ===== *)
(** * The in-memory lattice

    [InMemoryLatticeBackend] of [src/agency/lattice/api.py].  None of its
    operations awaits anything that suspends, apart from the embedder, so each is
    one step of the event loop.  A dictionary that a query returns is a shallow
    copy: its callers do not write to the properties inside it.  [clock] and
    [uuid] are the readings of [utc_now] and the random ids in order. *)
From S2P Require Import Prelude PyStr PyDict Floats AuditTrail IsoTime LatticeModels Reputation Governance LatticeGraph.
From Stdlib Require Import SpecFloat.

(** ** Python equality *)

(** An int and a float are equal when the float is exactly the int. *)
Definition float_is (f : float) (z : Z) : bool :=
  match f with
  | S754_zero _ => (z =? 0)%Z
  | S754_finite s m e =>
      let a := (if s then - z else z)%Z in
      if (0 <=? e)%Z then (Zpos m * 2 ^ e =? a)%Z else (Zpos m =? a * 2 ^ (- e))%Z
  | _ => false
  end.

Definition time_eqb (a b : datetime) : bool :=
  match offset a, offset b with
  | None, None => (wall a =? wall b)%Z
  | Some o, Some o' => (wall a - o =? wall b - o')%Z
  | _, _ => false
  end.

Definition as_num (v : value) : option (Z + float) :=
  match v with
  | VBool b => Some (inl (if b then 1 else 0)%Z)
  | VInt z => Some (inl z)
  | VFloat f => Some (inr f)
  | _ => None
  end.

(** [a == b] *)
Fixpoint py_eqb (a b : value) : bool :=
  match as_num a, as_num b with
  | Some (inl z), Some (inl z') => (z =? z')%Z
  | Some (inl z), Some (inr f) | Some (inr f), Some (inl z) => float_is f z
  | Some (inr f), Some (inr f') => SFeqb f f'
  | _, _ =>
      match a, b with
      | VNone, VNone => true
      | VStr s, VStr s' => String.eqb s s'
      | VTime d, VTime d' => time_eqb d d'
      | VList l, VList l' =>
          (fix go l l' := match l, l' with
                          | [], [] => true
                          | x :: l, y :: l' => py_eqb x y && go l l'
                          | _, _ => false
                          end) l l'
      | VDict d, VDict d' =>
          (length d =? length d') &&
          (fix go d := match d with
                       | [] => true
                       | (k, v) :: d => match dget k d' with Some v' => py_eqb v v' | None => false end && go d
                       end) d
      | _, _ => false
      end
  end.

(** ** The state *)

Record Node := mk_Node {
  node_id : string;
  node_type : NodeType;
  properties : dict;
  created_at : Z;
  updated_at : Z;
}.

Record Edge := mk_Edge {
  edge_id : string;
  source_id : string;
  target_of : string;
  edge_type : EdgeType;
  edge_properties : dict;
  edge_created_at : Z;
}.

Record Memory := mk_Memory {
  initialized : bool;
  nodes : list (string * Node);
  edges : list (string * Edge);
  events : list LatticeEvent;
  stored_proposals : list (string * ConsensusProposal);
  stored_reputations : list (string * Reputation);
  vectors : list (string * list (string * (list float * dict)));
  readings : nat;
  ids : nat;
}.

Definition new_memory : Memory := mk_Memory false [] [] [] [] [] [] 0 0.

(** [{**a, **b}] *)
Definition merge (a b : dict) : dict := fold_left (fun d e => dset e.1 e.2 d) b a.

Inductive Direction := DOut | DIn | DBoth | DOther (s : string).

(** ** Queries of the edges *)

Definition edge_matches (ty : option EdgeType) (e : Edge) : bool :=
  match ty with Some t => bool_decide (edge_type e = t) | None => true end.

(** [_neighbors] of a list of edges *)
Definition neighbor (d : Direction) (x : string) (e : Edge) : option string :=
  match d with
  | DOut => if String.eqb (source_id e) x then Some (target_of e) else None
  | DIn => if String.eqb (target_of e) x then Some (source_id e) else None
  | DBoth => if String.eqb (source_id e) x then Some (target_of e)
             else if String.eqb (target_of e) x then Some (source_id e) else None
  | DOther _ => None
  end.

Definition neighbors (es : list Edge) (ty : option EdgeType) (d : Direction) (x : string) : list string :=
  omap (fun e => if edge_matches ty e then neighbor d x e else None) es.

(** [get_edges] *)
Definition incident (x : string) (d : Direction) (ty : option EdgeType) (e : Edge) : bool :=
  edge_matches ty e &&
  match d with
  | DOut => String.eqb (source_id e) x
  | DIn => String.eqb (target_of e) x
  | DBoth => String.eqb (source_id e) x || String.eqb (target_of e) x
  | DOther _ => false
  end.

(** The ends of the edges, which bound every search *)
Definition endpoints (es : list Edge) : list string := flat_map (fun e => [source_id e; target_of e]) es.

Lemma neighbors_endpoints es ty d x y : y ∈ neighbors es ty d x -> y ∈ endpoints es.
Proof.
  intros (e & He & Hy)%list_elem_of_omap. apply list_elem_of_In, in_flat_map. exists e. rewrite <- !list_elem_of_In.
  split; [done|]. destruct (edge_matches ty e); [|done].
  destruct d; cbn [neighbor] in Hy; repeat (destruct (String.eqb _ _)); simplify_eq; set_solver.
Qed.

Section Backend.
Context (config : LatticeConfig) (clock : nat -> Z) (uuid : nat -> string).

Definition now : py Memory Z := fun s =>
  (Ok (clock (readings s)), mk_Memory (initialized s) (nodes s) (edges s) (events s) (stored_proposals s) (stored_reputations s)
                              (vectors s) (S (readings s)) (ids s)).

(** [_new_id(prefix)] *)
Definition new_id (prefix : string) : py Memory string := fun s =>
  (Ok (prefix +:+ uuid (ids s))%string,
   mk_Memory (initialized s) (nodes s) (edges s) (events s) (stored_proposals s) (stored_reputations s)
     (vectors s) (readings s) (S (ids s))).

Definition set_nodes (f : list (string * Node) -> list (string * Node)) : py Memory unit :=
  modify (fun s => mk_Memory (initialized s) (f (nodes s)) (edges s) (events s) (stored_proposals s) (stored_reputations s)
                     (vectors s) (readings s) (ids s)).
Definition set_edges (f : list (string * Edge) -> list (string * Edge)) : py Memory unit :=
  modify (fun s => mk_Memory (initialized s) (nodes s) (f (edges s)) (events s) (stored_proposals s) (stored_reputations s)
                     (vectors s) (readings s) (ids s)).
Definition append_event (e : LatticeEvent) : py Memory unit :=
  modify (fun s => mk_Memory (initialized s) (nodes s) (edges s) (events s ++ [e]) (stored_proposals s) (stored_reputations s)
                     (vectors s) (readings s) (ids s)).
Definition set_proposals (f : list (string * ConsensusProposal) -> list (string * ConsensusProposal)) : py Memory unit :=
  modify (fun s => mk_Memory (initialized s) (nodes s) (edges s) (events s) (f (stored_proposals s)) (stored_reputations s)
                     (vectors s) (readings s) (ids s)).
Definition set_reputations (f : list (string * Reputation) -> list (string * Reputation)) : py Memory unit :=
  modify (fun s => mk_Memory (initialized s) (nodes s) (edges s) (events s) (stored_proposals s) (f (stored_reputations s))
                     (vectors s) (readings s) (ids s)).
Definition set_vectors (v : list (string * list (string * (list float * dict)))) : py Memory unit :=
  modify (fun s => mk_Memory (initialized s) (nodes s) (edges s) (events s) (stored_proposals s) (stored_reputations s)
                     v (readings s) (ids s)).
Definition set_initialized (b : bool) : py Memory unit :=
  modify (fun s => mk_Memory b (nodes s) (edges s) (events s) (stored_proposals s) (stored_reputations s)
                     (vectors s) (readings s) (ids s)).

Definition initialize : py Memory unit := set_initialized true.
Definition close : py Memory unit := set_initialized false.

(** [_record] *)
Definition record (ty act target : string) (pay : dict) (prior : option dict) : py Memory LatticeEvent :=
  eid ← new_id "evt-";
  t ← now;
  e ← lift (new_LatticeEvent eid (utc t) ty act target pay prior);
  _ ← append_event e;
  mret e.

(** ** Nodes *)

Definition create_node (ty : NodeType + string) (props : dict) (act : string) : py Memory string :=
  ty ← lift (coerce_node_type ty);
  nid ← new_id "n-";
  t ← now;
  _ ← set_nodes (dset nid (mk_Node nid ty props t t));
  _ ← record "node_created" act nid (merge [("node_type"%string, VStr (node_type_value ty))] props) None;
  mret nid.

Definition get_node (nid : string) : py Memory (option Node) := gets (fun s => dget nid (nodes s)).

Definition update_node (nid : string) (props : dict) (act : string) : py Memory bool :=
  s ← get;
  match dget nid (nodes s) with
  | None => mret false
  | Some n =>
      t ← now;
      _ ← set_nodes (dset nid (mk_Node (node_id n) (node_type n) (merge (properties n) props) (created_at n) t));
      _ ← record "node_updated" act nid props (Some (properties n));
      mret true
  end.

Definition touches (nid : string) (e : Edge) : bool := String.eqb (source_id e) nid || String.eqb (target_of e) nid.

Definition delete_node (nid act : string) : py Memory bool :=
  s ← get;
  match dget nid (nodes s) with
  | None => mret false
  | Some n =>
      _ ← set_nodes (ddel nid);
      _ ← set_edges (List.filter (fun e => negb (touches nid e.2)));
      _ ← record "node_deleted" act nid [("node_type"%string, VStr (node_type_value (node_type n)))] None;
      mret true
  end.

(** [d.get(key)] as a value *)
Definition get_or_none (key : string) (d : dict) : value := default VNone (dget key d).

Definition node_matches (ty : option NodeType) (filters : dict) (n : Node) : bool :=
  match ty with Some t => bool_decide (node_type n = t) | None => true end &&
  forallb (fun f => py_eqb (get_or_none f.1 (properties n)) f.2) filters.

(** [l[a:b]] *)
Definition slice_bound (n : nat) (i : Z) : nat :=
  Z.to_nat (Z.min (Z.of_nat n) (Z.max 0 (if (i <? 0)%Z then i + Z.of_nat n else i))).
Definition slice {A} (a b : Z) (l : list A) : list A :=
  let i := slice_bound (length l) a in let j := slice_bound (length l) b in firstn (j - i) (skipn i l).

Definition find_nodes (ty : option (NodeType + string)) (filters : dict) (limit offset : Z) : py Memory (list Node) :=
  wanted ← lift (match ty with Some t => t ← coerce_node_type t; Ok (Some t) | None => Ok None end);
  gets (fun s => slice offset (offset + limit) (List.filter (node_matches wanted filters) (dvalues (nodes s)))).

(** ** Edges *)

Definition add_edge (source target : string) (ty : EdgeType + string) (props : dict) (act : string) : py Memory string :=
  ty ← lift (coerce_edge_type ty);
  eid ← new_id "e-";
  t ← now;
  _ ← set_edges (dset eid (mk_Edge eid source target ty props t));
  _ ← record "edge_added" act eid
        [("source_id", VStr source); ("target_id", VStr target); ("edge_type", VStr (edge_type_value ty))]%string None;
  mret eid.

Definition coerce_optional (ty : option (EdgeType + string)) : result (option EdgeType) :=
  match ty with Some t => t ← coerce_edge_type t; Ok (Some t) | None => Ok None end.

Definition get_edges (nid : string) (d : Direction) (ty : option (EdgeType + string)) : py Memory (list Edge) :=
  wanted ← lift (coerce_optional ty);
  gets (fun s => List.filter (incident nid d wanted) (dvalues (edges s))).

Definition remove_edge (eid act : string) : py Memory bool :=
  s ← get;
  if dmem eid (edges s) then
    _ ← set_edges (ddel eid);
    _ ← record "edge_removed" act eid [] None;
    mret true
  else mret false.

(** ** Searches; a search that runs out of fuel, which none does, would not return. *)

Definition NonTermination : exn := CallbackError "NonTermination".
Definition within_fuel {A} (o : option A) : result A := match o with Some a => Ok a | None => Err NonTermination end.

Definition traverse (start : string) (ty : option (EdgeType + string)) (max_depth : Z) (d : Direction) : py Memory (list string) :=
  s ← get;
  wanted ← lift (if (0 <? max_depth)%Z then coerce_optional ty else Ok None);
  let es := dvalues (edges s) in
  lift (within_fuel (traverse_from (neighbors es wanted d) (endpoints es) start max_depth)).

Definition find_path (source target : string) (max_depth : Z) : py Memory (option (list string)) :=
  if String.eqb source target then mret (Some [source])
  else
    s ← get;
    let es := dvalues (edges s) in
    lift (within_fuel (path_from_queue (neighbors es None DOut) (endpoints es) source target max_depth)).

Definition get_dependencies (tid : string) : py Memory (list string) := traverse tid (Some (inl DEPENDS_ON)) 100 DOut.
Definition get_dependents (tid : string) : py Memory (list string) := traverse tid (Some (inl DEPENDS_ON)) 100 DIn.

(** ** Vectors *)

Definition fsqrt : float -> float := SFsqrt 53 1024.
Definition fproducts (a b : list float) : list float := zip_with fmul a b.

Definition cosine_similarity (a b : list float) : float :=
  if (length a =? 0) || (length b =? 0) || negb (length a =? length b) then f_zero
  else
    let denom := fmul (fsqrt (fsum (fproducts a a))) (fsqrt (fsum (fproducts b b))) in
    if SFeqb denom f_zero then f_zero else fdiv (fsum (fproducts a b)) denom.

Definition store_of (collection : string) (s : Memory) : list (string * (list float * dict)) :=
  default [] (dget collection (vectors s)).

Definition upsert_vector (collection : string) (rows : list (string * list float * dict)) : py Memory bool :=
  s ← get;
  let store := fold_left (fun st r => dset r.1.1 (r.1.2, r.2) st) rows (store_of collection s) in
  _ ← set_vectors (dset collection store (vectors s));
  mret true.

Record Hit := mk_Hit { hit_id : string; hit_score : float; hit_payload : dict }.

Definition payload_matches (filters pay : dict) : bool :=
  forallb (fun f => py_eqb (get_or_none f.1 pay) f.2) filters.

Definition search_vectors (collection : string) (query : list float) (limit : Z) (filters : dict) : py Memory (list Hit) :=
  gets (fun s =>
    let hits := map (fun r => mk_Hit r.1 (cosine_similarity query r.2.1) r.2.2)
                  (List.filter (fun r => payload_matches filters r.2.2) (store_of collection s)) in
    slice 0 limit (sort_by (fun a b => SFleb (hit_score b) (hit_score a)) hits)).

(** The embedder's answer, or its exception *)
Definition search_by_text (collection : string) (embedded : result (list float)) (limit : Z) : py Memory (list Hit) :=
  catch_exception (q ← lift embedded; search_vectors collection q limit []) (fun _ => mret []).

Definition delete_vectors (collection : string) (vids : list string) : py Memory bool :=
  s ← get;
  let store := store_of collection s in
  let removed := existsb (fun v => dmem v store) vids in
  _ ← (if dmem collection (vectors s) then set_vectors (dset collection (fold_left (fun st v => ddel v st) vids store) (vectors s))
       else mret tt);
  mret removed.

(** ** Governance *)

Definition submit_proposal (proposer ty : string) (pay : dict) (quorum : float) (ttl : Z) : py Memory string :=
  pid ← new_id "prop-";
  t ← now;
  expires ← lift (after_seconds t ttl);
  p ← lift (new_ConsensusProposal pid proposer ty quorum [] "open" expires);
  _ ← set_proposals (dset pid p);
  _ ← record "proposal_submitted" proposer pid (merge [("proposal_type"%string, VStr ty)] pay) None;
  mret pid.

Definition get_proposal_status (pid : string) : py Memory ConsensusProposal :=
  s ← get; match dget pid (stored_proposals s) with Some p => mret p | None => raise KeyError end.

Definition set_status (pid st : string) (p : ConsensusProposal) : py Memory unit :=
  set_proposals (dset pid (with_status st p)).

Definition check_quorum (pid : string) : py Memory bool :=
  p ← get_proposal_status pid;
  if negb (String.eqb (status p) "open") then mret (String.eqb (status p) "passed")
  else
    t ← now;
    if (expires_at p <=? t)%Z then
      _ ← set_status pid "expired" p;
      _ ← record "proposal_expired" "system" pid [] None;
      mret false
    else
      let counted := List.filter (fun v => String.eqb (decision v) "approve" || String.eqb (decision v) "deny") (votes p) in
      let total := fsum (map weight counted) in
      if SFleb total f_zero then mret false
      else
        let approve := fsum (map weight (List.filter (fun v => String.eqb (decision v) "approve") counted)) in
        let deny := fsub total approve in
        if SFleb (quorum_required p) (fdiv approve total) then
          _ ← set_status pid "passed" p;
          _ ← record "proposal_passed" "system" pid [] None;
          mret true
        else if SFleb (quorum_required p) (fdiv deny total) then
          _ ← set_status pid "denied" p;
          _ ← record "proposal_denied" "system" pid [] None;
          mret false
        else mret false.

Definition cast_vote (voter pid dec : string) (ev : option (list string)) : py Memory bool :=
  p ← get_proposal_status pid;
  t ← now;
  v ← lift (new_Vote voter pid dec (default [] ev) f_one (utc t));
  _ ← set_proposals (dset pid (with_votes (votes p ++ [v]) p));
  _ ← record "vote_cast" voter pid [("decision"%string, VStr dec)] None;
  _ ← check_quorum pid;
  mret true.

Definition list_open_proposals : py Memory (list ConsensusProposal) :=
  gets (fun s => List.filter (fun p => String.eqb (status p) "open") (dvalues (stored_proposals s))).

(** [min(a, b)], [max(a, b)] keep [a] unless [b] is strictly beyond it. *)
Definition fmin (a b : float) : float := if SFltb b a then b else a.
Definition fmax (a b : float) : float := if SFltb a b then b else a.

(** [0.05], [0.01], [0.7], [0.3] *)
Definition f_005 : float := S754_finite false 7205759403792794 (-57).
Definition f_001 : float := S754_finite false 5764607523034235 (-59).
Definition f_07 : float := S754_finite false 6305039478318694 (-53).
Definition f_03 : float := S754_finite false 5404319552844595 (-54).

Definition outcome_score (success : bool) (score : float) : float :=
  if success then fmin f_one (fadd (fadd score (fmul f_005 (fsub f_one score))) f_001)
  else fmax f_zero (fsub (fsub score (fmul f_005 score)) f_001).

Definition update_reputation (aid : string) (success : bool) (rating : option float) : py Memory Reputation :=
  s ← get;
  current ← match dget aid (stored_reputations s) with
            | Some r => mret r
            | None => t ← now; lift (baseline aid t)
            end;
  let score0 := outcome_score success (score current) in
  let window := Z.to_nat (Z.max 1 (cfg_reputation_window config)) in
  let '(ratings, score1) :=
    match rating with
    | Some f =>
        let ratings := last_n window (peer_ratings current ++ [f]) in
        (ratings, fmax f_zero (fmin f_one (fadd (fmul f_07 score0) (fmul f_03 (mean ratings)))))
    | None => (peer_ratings current, score0)
    end in
  t ← now;
  updated ← lift (new_Reputation aid score1 (tasks_completed current + (if success then 1 else 0))
                    (tasks_failed current + (if success then 0 else 1)) ratings (utc t));
  _ ← set_reputations (dset aid updated);
  _ ← record "reputation_updated" aid aid [("success", VBool success); ("score", VFloat (score updated))]%string None;
  mret updated.

Definition get_reputation (aid : string) : py Memory Reputation :=
  s ← get;
  match dget aid (stored_reputations s) with
  | Some r => mret r
  | None => t ← now; lift (baseline aid t)
  end.

(** ** The event log *)

Definition is_or_any (o : option string) (s : string) : bool := match o with Some t => String.eqb t s | None => true end.

Definition get_events (target ty act : option string) (limit : Z) : py Memory (list LatticeEvent) :=
  gets (fun s => slice 0 limit
    (List.filter (fun e => is_or_any target (target_id e) && is_or_any ty (event_type e) && is_or_any act (actor e))
       (rev (events s)))).

Definition replay_events (from : Z) (to : option Z) : py Memory (list LatticeEvent) :=
  gets (fun s => List.filter (fun e => (from <=? timestamp e)%Z && match to with Some t => (timestamp e <=? t)%Z | None => true end)
                   (events s)).

Definition get_audit_trail (nid : string) : py Memory (list LatticeEvent) :=
  gets (fun s => List.filter (fun e => String.eqb (target_id e) nid) (events s)).

(** ** Status *)

Definition get_agent_count : py Memory nat :=
  gets (fun s => count (fun n => bool_decide (node_type n = AGENT)) (dvalues (nodes s))).

Definition TERMINAL_TASK_STATES : list string := ["completed"; "failed"; "cancelled"; "denied"; "expired"]%string.

(** [str(v)] of a value is [text], an argument. *)
Definition get_active_tasks (text : value -> string) : py Memory (list Node) :=
  gets (fun s => List.filter (fun n => bool_decide (node_type n = TASK) &&
    negb (bool_decide (py_lower (text (default (VStr "open") (dget "status"%string (properties n)))) ∈ TERMINAL_TASK_STATES)))
    (dvalues (nodes s))).

Record Status := mk_Status {
  st_initialized : bool;
  st_nodes : nat;
  st_edges : nat;
  st_agents : nat;
  st_tasks : nat;
  st_active : nat;
  st_pending : nat;
  st_events : nat;
  st_last : option LatticeEvent;
}.

Definition get_status (text : value -> string) : py Memory Status :=
  agents ← get_agent_count;
  active ← get_active_tasks text;
  gets (fun s => mk_Status (initialized s) (length (nodes s)) (length (edges s)) agents
    (count (fun n => bool_decide (node_type n = TASK)) (dvalues (nodes s))) (length active)
    (count (fun p => String.eqb (status p) "open") (dvalues (stored_proposals s))) (length (events s)) (last (events s))).
End Backend.
