(* ===== verification/LatticeLog.v ===== *)
(** * The log of the in-memory lattice

    What the events say of the graph ([replay]), and that the graph of a backend
    whose actors are named is what its log replays to; searches and reputations
    of [LatticeMemory]. *)
From S2P Require Import Prelude PyStr PyDict Floats AuditTrail IsoTime LatticeModels Reputation Governance LatticeGraph LatticeMemory.
From Stdlib Require Import SpecFloat.

(** ** Replaying events *)

(** The shape of a graph: its node ids, and the ends and types of its edges by id *)
Record Shape := mk_Shape { sh_nodes : list (string * unit); sh_edges : list (string * (string * string * string)) }.

Definition no_shape : Shape := mk_Shape [] [].

Definition str_or_empty (key : string) (d : dict) : string := match dget key d with Some (VStr s) => s | _ => ""%string end.

Definition apply_event (sh : Shape) (e : LatticeEvent) : Shape :=
  if String.eqb (event_type e) "node_created" then mk_Shape (dset (target_id e) tt (sh_nodes sh)) (sh_edges sh)
  else if String.eqb (event_type e) "node_deleted" then
    mk_Shape (ddel (target_id e) (sh_nodes sh))
      (List.filter (fun x => negb (String.eqb x.2.1.1 (target_id e) || String.eqb x.2.1.2 (target_id e))) (sh_edges sh))
  else if String.eqb (event_type e) "edge_added" then
    mk_Shape (sh_nodes sh)
      (dset (target_id e) (str_or_empty "source_id" (payload e), str_or_empty "target_id" (payload e),
                           str_or_empty "edge_type" (payload e)) (sh_edges sh))
  else if String.eqb (event_type e) "edge_removed" then mk_Shape (sh_nodes sh) (ddel (target_id e) (sh_edges sh))
  else sh.

Definition replay (l : list LatticeEvent) : Shape := fold_left apply_event l no_shape.

Definition edge_shape (e : Edge) : string * string * string := (source_id e, target_of e, edge_type_value (edge_type e)).

Definition shape_of (ns : list (string * Node)) (es : list (string * Edge)) : Shape :=
  mk_Shape (map (fun x => (x.1, tt)) ns) (map (fun x => (x.1, edge_shape x.2)) es).

Lemma replay_snoc l e : replay (l ++ [e]) = apply_event (replay l) e.
Proof. unfold replay. by rewrite fold_left_app. Qed.

Lemma map_dset {V V'} (f : V -> V') k v (d : list (string * V)) :
  map (fun x => (x.1, f x.2)) (dset k v d) = dset k (f v) (map (fun x => (x.1, f x.2)) d).
Proof. induction d as [|[k0 v0] d IH]; cbn; [done|]. destruct (decide (k = k0)); cbn; [done|by rewrite IH]. Qed.

Lemma filter_map_comm {A B} (f : A -> B) (p : B -> bool) l : List.filter p (map f l) = map f (List.filter (fun x => p (f x)) l).
Proof. induction l as [|x l IH]; cbn; [done|]. destruct (p (f x)); cbn; by rewrite IH. Qed.

Lemma map_ddel {V V'} (f : V -> V') k (d : list (string * V)) :
  map (fun x => (x.1, f x.2)) (ddel k d) = ddel k (map (fun x => (x.1, f x.2)) d).
Proof. unfold ddel. by rewrite filter_map_comm. Qed.

Lemma dset_same {V} k v (d : list (string * V)) : dget k d = Some v -> dset k v d = d.
Proof.
  induction d as [|[k0 v0] d IH]; cbn; [done|]. destruct (decide (k = k0)) as [->|]; [by intros [= ->]|].
  intros H. by rewrite IH.
Qed.

(** The shape keeps step with each way the tables are written. *)
Lemma shape_put_node ns es k n : shape_of (dset k n ns) es = mk_Shape (dset k tt (sh_nodes (shape_of ns es))) (sh_edges (shape_of ns es)).
Proof. unfold shape_of. cbn. f_equal. by rewrite (map_dset (fun _ => tt)). Qed.

Lemma shape_update_node ns es k n m : dget k ns = Some m -> shape_of (dset k n ns) es = shape_of ns es.
Proof.
  intros H. rewrite shape_put_node. unfold shape_of. cbn. f_equal. apply dset_same.
  induction ns as [|[k0 v0] ns IH]; cbn in *; [done|]. destruct (decide (k = k0)); [done|by apply IH].
Qed.

Lemma shape_delete_node ns es k :
  shape_of (ddel k ns) (List.filter (fun e => negb (touches k e.2)) es) =
  mk_Shape (ddel k (sh_nodes (shape_of ns es)))
    (List.filter (fun x => negb (String.eqb x.2.1.1 k || String.eqb x.2.1.2 k)) (sh_edges (shape_of ns es))).
Proof.
  unfold shape_of. cbn. f_equal; [by rewrite (map_ddel (fun _ => tt))|]. by rewrite filter_map_comm.
Qed.

Lemma shape_put_edge ns es k e :
  shape_of ns (dset k e es) = mk_Shape (sh_nodes (shape_of ns es)) (dset k (edge_shape e) (sh_edges (shape_of ns es))).
Proof. unfold shape_of. cbn. f_equal. by rewrite (map_dset edge_shape). Qed.

Lemma shape_delete_edge ns es k :
  shape_of ns (ddel k es) = mk_Shape (sh_nodes (shape_of ns es)) (ddel k (sh_edges (shape_of ns es))).
Proof. unfold shape_of. cbn. f_equal. by rewrite (map_ddel edge_shape). Qed.

(** ** Operations on the in-memory backend *)

Section Runs.
Context (config : LatticeConfig) (clock : nat -> Z) (uuid : nat -> string).

Inductive memory_op :=
| MInitialize | MClose
| MCreateNode (ty : NodeType + string) (props : dict) (act : string)
| MUpdateNode (nid : string) (props : dict) (act : string)
| MDeleteNode (nid act : string)
| MAddEdge (source target : string) (ty : EdgeType + string) (props : dict) (act : string)
| MRemoveEdge (eid act : string)
| MUpsert (collection : string) (rows : list (string * list float * dict))
| MDeleteVectors (collection : string) (vids : list string)
| MSubmit (proposer ty : string) (pay : dict) (quorum : float) (ttl : Z)
| MVote (voter pid dec : string) (ev : option (list string))
| MQuorum (pid : string)
| MReputation (aid : string) (success : bool) (rating : option float)
| MGetReputation (aid : string).

Definition run_memory (op : memory_op) (s : Memory) : Memory :=
  match op with
  | MInitialize => (initialize s).2
  | MClose => (close s).2
  | MCreateNode ty props act => (create_node clock uuid ty props act s).2
  | MUpdateNode nid props act => (update_node clock uuid nid props act s).2
  | MDeleteNode nid act => (delete_node clock uuid nid act s).2
  | MAddEdge source target ty props act => (add_edge clock uuid source target ty props act s).2
  | MRemoveEdge eid act => (remove_edge clock uuid eid act s).2
  | MUpsert collection rows => (upsert_vector collection rows s).2
  | MDeleteVectors collection vids => (delete_vectors collection vids s).2
  | MSubmit proposer ty pay quorum ttl => (submit_proposal clock uuid proposer ty pay quorum ttl s).2
  | MVote voter pid dec ev => (cast_vote clock uuid voter pid dec ev s).2
  | MQuorum pid => (check_quorum clock uuid pid s).2
  | MReputation aid success rating => (update_reputation config clock uuid aid success rating s).2
  | MGetReputation aid => (get_reputation clock aid s).2
  end.

(** The actor an operation on the graph is done for; [None] where it takes none *)
Definition op_actor (op : memory_op) : option string :=
  match op with
  | MCreateNode _ _ a | MUpdateNode _ _ a | MDeleteNode _ a | MAddEdge _ _ _ _ a | MRemoveEdge _ a => Some a
  | _ => None
  end.

Definition named (op : memory_op) : Prop := match op_actor op with Some a => is_empty a = false | None => True end.

Context (Hclock : forall n, in_calendar (clock n) = true).

(** [_record] of a named actor and target appends one event. *)
Lemma record_run ty act target pay prior s : is_empty ty = false -> is_empty act = false -> is_empty target = false ->
  exists e, record clock uuid ty act target pay prior s =
    (Ok e, mk_Memory (initialized s) (nodes s) (edges s) (events s ++ [e]) (stored_proposals s) (stored_reputations s) (vectors s)
             (S (readings s)) (S (ids s))) /\
    event_type e = ty /\ actor e = act /\ target_id e = target /\ payload e = pay /\ prior_state e = prior.
Proof using Hclock.
  intros Hty Hact Htg. exists (mk_LatticeEvent ("evt-" +:+ uuid (ids s)) (clock (readings s)) ty act target pay prior).
  split; [|done]. unfold record, new_id, now. rewrite bind_run. cbv beta iota. rewrite bind_run. cbn [readings].
  rewrite bind_lift. unfold new_LatticeEvent. rewrite ensure_utc_utc by done. cbn [mbind result_bind].
  change (is_empty ("evt-" +:+ uuid (ids s))) with false. by rewrite Hty, Hact, Htg.
Qed.

(** Every named event and unnamed failure: whatever [_record] does, the tables stay. *)
Lemma record_tables ty act target pay prior s :
  let s' := (record clock uuid ty act target pay prior s).2 in
  nodes s' = nodes s /\ edges s' = edges s /\ stored_proposals s' = stored_proposals s /\ stored_reputations s' = stored_reputations s /\
  exists l, events s' = events s ++ l /\ Forall (fun e => event_type e = ty) l.
Proof using.
  unfold record, new_id, now. rewrite bind_run. cbv beta iota. rewrite bind_run. cbn [readings]. rewrite bind_lift.
  destruct (new_LatticeEvent _ _ ty act target pay prior) as [e|x] eqn:E; cbn.
  - repeat split; try done. exists [e]. split; [done|]. apply Forall_singleton.
    unfold new_LatticeEvent in E. repeat (apply result_bind_ok in E as (? & _ & E)). by inversion E.
  - repeat split; try done. exists []. by rewrite app_nil_r.
Qed.

(** ** The graph is what the log replays to *)

Definition keyed (s : Memory) : Prop :=
  (forall k, k ∈ dkeys (nodes s) -> is_empty k = false) /\ (forall k, k ∈ dkeys (edges s) -> is_empty k = false).

Definition log_ok (s : Memory) : Prop := keyed s /\ shape_of (nodes s) (edges s) = replay (events s).

(** An event of another kind leaves the shape. *)
Definition graph_event (ty : string) : bool := bool_decide (ty ∈ ["node_created"; "node_deleted"; "edge_added"; "edge_removed"]%string).

Lemma other_event sh e : graph_event (event_type e) = false -> apply_event sh e = sh.
Proof.
  intros H%bool_decide_eq_false. unfold apply_event.
  destruct (String.eqb_spec (event_type e) "node_created") as [E|_]; [exfalso; apply H; rewrite E; vm_decide|].
  destruct (String.eqb_spec (event_type e) "node_deleted") as [E|_]; [exfalso; apply H; rewrite E; vm_decide|].
  destruct (String.eqb_spec (event_type e) "edge_added") as [E|_]; [exfalso; apply H; rewrite E; vm_decide|].
  destruct (String.eqb_spec (event_type e) "edge_removed") as [E|_]; [exfalso; apply H; rewrite E; vm_decide|done].
Qed.

Lemma other_events l sh : Forall (fun e => graph_event (event_type e) = false) l -> fold_left apply_event l sh = sh.
Proof. induction 1 as [|e l He Hl IH]; [done|]. cbn. by rewrite other_event. Qed.

(** Operations that write no table of the graph and log no event of it *)
Definition aside (s s' : Memory) : Prop :=
  nodes s' = nodes s /\ edges s' = edges s /\ exists l, events s' = events s ++ l /\ Forall (fun e => graph_event (event_type e) = false) l.

Lemma aside_refl s : aside s s.
Proof. repeat split. exists []. by rewrite app_nil_r. Qed.

Lemma aside_trans s1 s2 s3 : aside s1 s2 -> aside s2 s3 -> aside s1 s3.
Proof.
  intros (H1 & H2 & l & H3 & H4) (G1 & G2 & l' & G3 & G4). split; [congruence|]. split; [congruence|].
  exists (l ++ l'). split; [by rewrite G3, H3, (assoc (++))|]. by apply Forall_app.
Qed.

Lemma aside_ok s s' : aside s s' -> log_ok s -> log_ok s'.
Proof.
  intros (H1 & H2 & l & H3 & H4) [[K1 K2] Hs]. split; [split; [by rewrite H1|by rewrite H2]|].
  rewrite H1, H2, H3. unfold replay. rewrite fold_left_app, other_events by done. exact Hs.
Qed.

Lemma record_aside ty act target pay prior s : graph_event ty = false -> aside s (record clock uuid ty act target pay prior s).2.
Proof using.
  intros Hty. destruct (record_tables ty act target pay prior s) as (H1 & H2 & _ & _ & l & H3 & H4). split; [done|]. split; [done|].
  exists l. split; [done|]. eapply Forall_impl; [exact H4|]. by intros e ->.
Qed.

(** *** Operations off the graph *)

Definition quiet {A} (m : py Memory A) : Prop := forall s, aside s (m s).2.

Lemma quiet_bind {A B} (m : py Memory A) (f : A -> py Memory B) : quiet m -> (forall a, quiet (f a)) -> quiet (m ≫= f).
Proof.
  intros Hm Hf s. rewrite bind_run. specialize (Hm s). destruct (m s) as [[a|e] s1]; [|done].
  eapply aside_trans; [exact Hm|apply Hf].
Qed.

Lemma quiet_same {A} (m : py Memory A) : (forall s, nodes (m s).2 = nodes s /\ edges (m s).2 = edges s /\ events (m s).2 = events s) ->
  quiet m.
Proof. intros H s. destruct (H s) as (H1 & H2 & H3). split; [done|]. split; [done|]. exists []. by rewrite app_nil_r. Qed.

Lemma quiet_ret {A} (a : A) : quiet (mret a).
Proof. by apply quiet_same. Qed.
Lemma quiet_raise {A} e : quiet (raise (A:=A) e).
Proof. by apply quiet_same. Qed.
Lemma quiet_lift {A} (r : result A) : quiet (lift r).
Proof. by apply quiet_same. Qed.
Lemma quiet_get : quiet get.
Proof. by apply quiet_same. Qed.
Lemma quiet_now : quiet (now clock).
Proof using. by apply quiet_same. Qed.
Lemma quiet_new_id p : quiet (new_id uuid p).
Proof using. by apply quiet_same. Qed.
Lemma quiet_set_proposals f : quiet (set_proposals f).
Proof. by apply quiet_same. Qed.
Lemma quiet_set_status pid st p : quiet (set_status pid st p).
Proof. by apply quiet_same. Qed.
Lemma quiet_set_reputations f : quiet (set_reputations f).
Proof. by apply quiet_same. Qed.
Lemma quiet_set_vectors f : quiet (set_vectors f).
Proof. by apply quiet_same. Qed.
Lemma quiet_set_initialized b : quiet (set_initialized b).
Proof. by apply quiet_same. Qed.
Lemma quiet_status pid : quiet (get_proposal_status pid).
Proof. apply quiet_same. intros s. unfold get_proposal_status, get. rewrite bind_run. by destruct (dget pid (stored_proposals s)). Qed.
Lemma quiet_record ty act target pay prior : graph_event ty = false -> quiet (record clock uuid ty act target pay prior).
Proof using. intros H s. by apply record_aside. Qed.

#[local] Hint Resolve quiet_ret quiet_raise quiet_lift quiet_get quiet_now quiet_new_id quiet_set_proposals quiet_set_status
  quiet_set_reputations quiet_set_vectors quiet_set_initialized quiet_status : py.

Ltac quietly :=
  repeat (cbv zeta; first
    [ apply quiet_record; reflexivity
    | solve [auto with py]
    | apply quiet_bind; [|intros ?]
    | match goal with |- quiet (if ?b then _ else _) => destruct b end
    | match goal with |- quiet (match ?o with Some _ => _ | None => _ end) => destruct o end
    | match goal with |- quiet (let '(_, _) := ?p in _) => destruct p end
]).

Lemma quorum_quiet pid : quiet (check_quorum clock uuid pid).
Proof using. unfold check_quorum. quietly. Qed.

Lemma submit_quiet proposer ty pay quorum ttl : quiet (submit_proposal clock uuid proposer ty pay quorum ttl).
Proof using. unfold submit_proposal. quietly. Qed.

Lemma vote_quiet voter pid dec ev : quiet (cast_vote clock uuid voter pid dec ev).
Proof using. unfold cast_vote. quietly. Qed.

Lemma reputation_quiet aid success rating : quiet (update_reputation config clock uuid aid success rating).
Proof using. unfold update_reputation. quietly. Qed.

Lemma get_reputation_quiet aid : quiet (get_reputation clock aid).
Proof using. unfold get_reputation. quietly. Qed.

Lemma upsert_quiet collection rows : quiet (upsert_vector collection rows).
Proof. unfold upsert_vector. quietly. Qed.

Lemma delete_vectors_quiet collection vids : quiet (delete_vectors collection vids).
Proof. unfold delete_vectors. quietly. Qed.

(** *** Operations on the graph *)

Lemma keys_dset {V} (P : string -> Prop) k (v : V) d : (forall k, k ∈ dkeys d -> P k) -> P k -> forall k', k' ∈ dkeys (dset k v d) -> P k'.
Proof. intros H Hk k' [->|Hk']%elem_of_dkeys_dset; auto. Qed.

Lemma keyed_filter {V} (P : string -> Prop) (f : string * V -> bool) d : (forall k, k ∈ dkeys d -> P k) ->
  forall k', k' ∈ dkeys (List.filter f d) -> P k'.
Proof.
  intros H k' Hk. apply H. unfold dkeys in *. apply list_elem_of_In, in_map_iff in Hk as (x & <- & Hx%List.filter_In).
  apply list_elem_of_In, in_map. apply Hx.
Qed.

(** A write of the tables and the record of it *)
Lemma write_then_record (s1 s : Memory) ty act target pay prior :
  events s1 = events s -> is_empty ty = false -> is_empty act = false -> is_empty target = false -> keyed s1 ->
  (forall e, event_type e = ty -> target_id e = target -> payload e = pay ->
     shape_of (nodes s1) (edges s1) = apply_event (replay (events s)) e) ->
  exists e s', record clock uuid ty act target pay prior s1 = (Ok e, s') /\ log_ok s'.
Proof using Hclock.
  intros He Hty Hact Htg Hk Hsh. destruct (record_run ty act target pay prior s1 Hty Hact Htg) as (e & -> & E1 & _ & E3 & E4 & _).
  eexists _, _. split; [done|]. split; [exact Hk|]. cbn [nodes edges events]. rewrite He, replay_snoc. by apply Hsh.
Qed.

Lemma log_ok_same s s' : nodes s' = nodes s -> edges s' = edges s -> events s' = events s -> log_ok s -> log_ok s'.
Proof. intros H1 H2 H3 [[K1 K2] Hs]. split; [split; [by rewrite H1|by rewrite H2]|by rewrite H1, H2, H3]. Qed.

Lemma create_node_log ty props act s : is_empty act = false -> log_ok s -> log_ok (create_node clock uuid ty props act s).2.
Proof using Hclock.
  intros Ha Hok. unfold create_node. rewrite bind_lift. destruct (coerce_node_type ty) as [t|e]; [|done].
  unfold new_id, now. rewrite bind_run. cbv beta iota. rewrite bind_run. cbv beta iota. cbn [readings]. rewrite bind_run.
  unfold set_nodes, modify. cbv beta iota. set (nid := ("n-" +:+ uuid (ids s))%string). set (s1 := mk_Memory _ _ _ _ _ _ _ _ _).
  rewrite bind_run.
  destruct (write_then_record s1 s "node_created" act nid (merge [("node_type"%string, VStr (node_type_value t))] props) None)
    as (e & s' & -> & Hs'); [done|done|done|done| | |exact Hs'].
  - split; [|apply Hok]. apply keys_dset; [apply Hok|done].
  - intros e E1 E3 _. unfold apply_event. rewrite E1, E3. cbn [String.eqb Ascii.eqb Bool.eqb].
    destruct Hok as [_ Hsh]. rewrite <- Hsh. apply shape_put_node.
Qed.

Lemma update_node_log nid props act s : is_empty act = false -> log_ok s -> log_ok (update_node clock uuid nid props act s).2.
Proof using Hclock.
  intros Ha Hok. unfold update_node, get. rewrite bind_run. destruct (dget nid (nodes s)) as [n|] eqn:En; [|done].
  unfold now. rewrite bind_run. cbv beta iota. rewrite bind_run. unfold set_nodes, modify. cbv beta iota.
  set (s1 := mk_Memory _ _ _ _ _ _ _ _ _). rewrite bind_run.
  assert (Hn : nid ∈ dkeys (nodes s)) by (apply dget_is_Some_keys; by exists n).
  destruct (write_then_record s1 s "node_updated" act nid props (Some (properties n))) as (e & s' & -> & Hs');
    [done|done|done|by apply (proj1 (proj1 Hok))| | |exact Hs'].
  - split; [|apply Hok]. apply keys_dset; [apply Hok|by apply (proj1 (proj1 Hok))].
  - intros e E1 _ _. rewrite other_event by (by rewrite E1). destruct Hok as [_ <-]. by apply (shape_update_node _ _ _ _ n).
Qed.

Lemma delete_node_log nid act s : is_empty act = false -> log_ok s -> log_ok (delete_node clock uuid nid act s).2.
Proof using Hclock.
  intros Ha Hok. unfold delete_node, get. rewrite bind_run. destruct (dget nid (nodes s)) as [n|] eqn:En; [|done].
  rewrite bind_run. unfold set_nodes, set_edges, modify. cbv beta iota. rewrite bind_run. cbv beta iota.
  cbn [initialized nodes edges events stored_proposals stored_reputations vectors readings ids].
  set (s1 := mk_Memory _ _ _ _ _ _ _ _ _). rewrite bind_run.
  assert (Hn : nid ∈ dkeys (nodes s)) by (apply dget_is_Some_keys; by exists n).
  destruct (write_then_record s1 s "node_deleted" act nid [("node_type"%string, VStr (node_type_value (node_type n)))] None)
    as (e & s' & -> & Hs'); [done|done|done|by apply (proj1 (proj1 Hok))| | |exact Hs'].
  - split; apply keyed_filter; apply Hok.
  - intros e E1 E3 _. unfold apply_event. rewrite E1, E3. cbn [String.eqb Ascii.eqb Bool.eqb].
    destruct Hok as [_ <-]. apply shape_delete_node.
Qed.

Lemma add_edge_log source target ty props act s : is_empty act = false -> log_ok s ->
  log_ok (add_edge clock uuid source target ty props act s).2.
Proof using Hclock.
  intros Ha Hok. unfold add_edge. rewrite bind_lift. destruct (coerce_edge_type ty) as [t|e]; [|done].
  unfold new_id, now. rewrite bind_run. cbv beta iota. rewrite bind_run. cbv beta iota. cbn [readings]. rewrite bind_run.
  unfold set_edges, modify. cbv beta iota. set (eid := ("e-" +:+ uuid (ids s))%string). set (s1 := mk_Memory _ _ _ _ _ _ _ _ _).
  rewrite bind_run. set (pay := [_; _; _]).
  destruct (write_then_record s1 s "edge_added" act eid pay None) as (e & s' & -> & Hs'); [done|done|done|done| | |exact Hs'].
  - split; [apply Hok|]. apply keys_dset; [apply Hok|done].
  - intros e E1 E3 E4. unfold apply_event. rewrite E1, E3, E4. cbn [String.eqb Ascii.eqb Bool.eqb].
    change (str_or_empty "source_id" pay) with source. change (str_or_empty "target_id" pay) with target.
    change (str_or_empty "edge_type" pay) with (edge_type_value t).
    destruct Hok as [_ <-]. apply shape_put_edge.
Qed.

Lemma remove_edge_log eid act s : is_empty act = false -> log_ok s -> log_ok (remove_edge clock uuid eid act s).2.
Proof using Hclock.
  intros Ha Hok. unfold remove_edge, get. rewrite bind_run. destruct (dmem eid (edges s)) eqn:En; [|done].
  rewrite bind_run. unfold set_edges, modify. cbv beta iota. set (s1 := mk_Memory _ _ _ _ _ _ _ _ _). rewrite bind_run.
  assert (Hn : eid ∈ dkeys (edges s)).
  { unfold dmem in En. destruct (dget eid (edges s)) as [e|] eqn:E; [|done]. apply dget_is_Some_keys. by exists e. }
  destruct (write_then_record s1 s "edge_removed" act eid [] None) as (e & s' & -> & Hs'); [done|done|done|by apply (proj2 (proj1 Hok))| | |exact Hs'].
  - split; [apply Hok|]. apply keyed_filter; apply Hok.
  - intros e E1 E3 _. unfold apply_event. rewrite E1, E3. cbn [String.eqb Ascii.eqb Bool.eqb].
    destruct Hok as [_ <-]. apply shape_delete_edge.
Qed.

Lemma memory_op_log op s : named op -> log_ok s -> log_ok (run_memory op s).
Proof using Hclock.
  intros Hn Hok. unfold named in Hn. destruct op; cbn [run_memory op_actor] in *.
  - apply (aside_ok s); [apply quiet_set_initialized|done].
  - apply (aside_ok s); [apply quiet_set_initialized|done].
  - by apply create_node_log.
  - by apply update_node_log.
  - by apply delete_node_log.
  - by apply add_edge_log.
  - by apply remove_edge_log.
  - apply (aside_ok s); [apply upsert_quiet|done].
  - apply (aside_ok s); [apply delete_vectors_quiet|done].
  - apply (aside_ok s); [apply submit_quiet|done].
  - apply (aside_ok s); [apply vote_quiet|done].
  - apply (aside_ok s); [apply quorum_quiet|done].
  - apply (aside_ok s); [apply reputation_quiet|done].
  - apply (aside_ok s); [apply get_reputation_quiet|done].
Qed.

Definition run_ops (ops : list memory_op) (s : Memory) : Memory := fold_left (fun s op => run_memory op s) ops s.

(** C38: The graph of the in-memory lattice is what its event log replays to, node
    by node and edge by edge, after any operations whose actors are named,
    failures included. *)
Theorem memory_graph_is_log ops : Forall named ops ->
  let s := run_ops ops new_memory in shape_of (nodes s) (edges s) = replay (events s).
Proof using Hclock.
  intros Hops. apply (proj2 (A := keyed (run_ops ops new_memory))). change (log_ok (run_ops ops new_memory)). unfold run_ops.
  assert (H0 : log_ok new_memory) by (split; [by split; intros k Hk%not_elem_of_nil|done]).
  revert H0. generalize new_memory as s. induction Hops as [|op ops Hop Hops IH]; intros s Hs; [done|]. cbn.
  apply IH. by apply memory_op_log.
Qed.
End Runs.

(** ** Searches *)

(** [traverse] ends and lists, once each, exactly the other nodes within the
    depth along edges of the type, if any, and direction asked for. *)
Lemma memory_traverse_spec start (ty : option EdgeType) max_depth d s :
  exists l, traverse start (option_map inl ty) max_depth d s = (Ok l, s) /\ NoDup l /\
  forall y, y ∈ l <-> y <> start /\ exists n, n <= Z.to_nat max_depth /\ walk (neighbors (dvalues (edges s)) ty d) n start y.
Proof.
  unfold traverse, get. rewrite bind_run. rewrite bind_lift.
  assert (Hspec : forall ty, exists l, traverse_from (neighbors (dvalues (edges s)) ty d) (endpoints (dvalues (edges s))) start max_depth = Some l /\
    NoDup l /\ forall y, y ∈ l <-> y <> start /\ exists n, n <= Z.to_nat max_depth /\ walk (neighbors (dvalues (edges s)) ty d) n start y).
  { intros t. apply traverse_from_spec. intros x y. apply neighbors_endpoints. }
  destruct (Hspec ty) as (l & Hl & Hn & He). exists l. split; [|done]. unfold lift.
  destruct (Z.ltb_spec 0 max_depth) as [Hm|Hm].
  - replace (coerce_optional (option_map inl ty)) with (Ok ty) by by destruct ty. cbv beta iota. by rewrite Hl.
  - destruct (Hspec None) as (l' & Hl' & _ & He'). replace (Z.to_nat max_depth) with 0 in He, He' by lia.
    assert (Hnil : forall nbr k, (forall y, y ∈ k <-> y <> start /\ exists n, n <= 0 /\ walk nbr n start y) -> k = []).
    { intros nbr k Hk. destruct k as [|y k]; [done|]. destruct (proj1 (Hk y) ltac:(left)) as (Hne & n & Hn0 & Hw).
      replace n with 0 in Hw by lia. inversion Hw; subst. done. }
    by rewrite (Hnil _ l He), Hl', (Hnil _ l' He').
Qed.

(** [find_path] ends; the path it returns is a path of edges from the source to
    the target of the fewest edges possible, and it returns [None] exactly when
    no path of at most the given number of edges exists. *)
Lemma memory_find_path_spec source target max_depth s : source <> target ->
  exists o, find_path source target max_depth s = (Ok o, s) /\
  let nbr := neighbors (dvalues (edges s)) None DOut in
  match o with
  | Some p => path_from nbr source p /\ end_of p = target /\
              exists n, length p = S n /\ at_distance nbr n source target /\ n <= Z.to_nat max_depth
  | None => forall n, n <= Z.to_nat max_depth -> ~ walk nbr n source target
  end.
Proof.
  intros Hne. exists (path_by_levels (neighbors (dvalues (edges s)) None DOut) source target max_depth). split.
  - unfold find_path. apply String.eqb_neq in Hne as Hb. rewrite Hb. unfold get. rewrite bind_run.
    rewrite path_from_queue_levels; [done| |done]. intros x y. apply neighbors_endpoints.
  - by apply path_by_levels_spec.
Qed.

(** ** A run *)

Definition demo_ops : list memory_op :=
  [MCreateNode (inr "task") [("node_type"%string, VStr "mine")] "planner"; MCreateNode (inl TASK) [] "planner";
   MAddEdge "n-" "n-aa" (inr "depends_on") [] "planner"; MVote "planner" "none" "approve" None]%string.

Lemma memory_graph_is_log_witness :
  let s := run_ops default_config demo_clock demo_uuid demo_ops new_memory in
  sh_edges (replay (events s)) = [("e-aaaa", ("n-", "n-aa", "depends_on"))]%string /\
  shape_of (nodes s) (edges s) = replay (events s).
Proof.
  split; [vm_compute; reflexivity|].
  apply (memory_graph_is_log default_config demo_clock demo_uuid demo_clock_ok demo_ops). by repeat constructor.
Defined.

Example demo_path : (find_path "n-" "n-aa" 5 (run_ops default_config demo_clock demo_uuid demo_ops new_memory)).1 =
  Ok (Some ["n-"; "n-aa"])%string.
Proof. vm_compute. reflexivity. Qed.

(** An unnamed actor leaves a node without an event: the write comes first. *)
Example unnamed_actor_unlogged :
  let s := (create_node demo_clock demo_uuid (inl TASK) [] "" new_memory).2 in
  length (nodes s) = 1 /\ events s = [].
Proof. vm_compute. done. Qed.

(** One voter can fill the ballot: every vote is counted, each with weight 1.0. *)
Example ballots_pile_up :
  let submit := MSubmit "planner" "policy_change" [] f_half 3600 in
  let s := run_ops default_config demo_clock demo_uuid
             [submit; MVote "a" "prop-" "abstain" None; MVote "a" "prop-" "abstain" None] new_memory in
  option_map (fun p => map voter_id (votes p)) (dget "prop-"%string (stored_proposals s)) = Some ["a"; "a"]%string.
Proof. vm_compute. reflexivity. Qed.

(** A ballot on a resolved proposal is still recorded. *)
Example ballot_after_resolution :
  let submit := MSubmit "planner" "policy_change" [] f_half 3600 in
  let s := run_ops default_config demo_clock demo_uuid
             [submit; MVote "a" "prop-" "approve" None; MVote "b" "prop-" "deny" None] new_memory in
  option_map (fun p => (status p, map voter_id (votes p))) (dget "prop-"%string (stored_proposals s)) =
    Some ("passed", ["a"; "b"])%string.
Proof. vm_compute. reflexivity. Qed.
