(* ===== verification/LatticeSqlite.v ===== *)
(** * The SQLite lattice

    [src/agency/lattice/backends/sqlite.py].  A connection sees [tables], its
    transaction included; [disk] is what is committed.  Each statement has a
    [fate]: it is done, it fails and does nothing, or it is done by the worker
    while its caller is cancelled.  The code never rolls back, so what an
    operation wrote before a failure stays pending.  The rows of a table are in
    insertion order and [scan] is the order a query visits them in.  A JSON column
    holds the value it was dumped from, which [json.loads] gives back.  An open
    connection has the schema, whose statements leave rows alone; it enforces the
    foreign keys from the PRAGMA that asks for it. *)
From S2P Require Import Prelude PyStr PyDict Floats AuditTrail IsoTime LatticeModels Reputation Governance LatticeGraph LatticeMemory.
From Stdlib Require Import SpecFloat.

(** ** Tables *)

Record ProposalRow := mk_ProposalRow {
  pr_id : string;
  pr_proposer : string;
  pr_type : string;
  pr_payload : dict;
  pr_quorum : float;
  pr_status : string;
  pr_created : Z;
  pr_expires : Z;
}.

Record VoteRow := mk_VoteRow { vr_id : string; vr_vote : Vote }.

Record VectorRow := mk_VectorRow { vec_collection : string; vec_vector : list float; vec_payload : dict }.

Record Tables := mk_Tables {
  t_nodes : list (string * Node);
  t_edges : list (string * Edge);
  t_events : list LatticeEvent;
  t_proposals : list (string * ProposalRow);
  t_votes : list VoteRow;
  t_reputations : list (string * Reputation);
  t_vectors : list (string * VectorRow);
}.

Definition no_tables : Tables := mk_Tables [] [] [] [] [] [] [].

(** The connection: none, one that works, with or without [PRAGMA foreign_keys], or
    one whose close was cancelled *)
Inductive Connection := Closed | Open (foreign_keys : bool) | Broken.

#[export] Instance Connection_eq_dec : EqDecision Connection.
Proof. solve_decision. Defined.

Record Database := mk_Database {
  tables : Tables;
  disk : Tables;
  conn : Connection;
  issued : nat;
  readings : nat;
  ids : nat;
}.

(** Whether statements are checked against the foreign keys *)
Definition enforced (c : Connection) : bool := match c with Open fk => fk | _ => true end.

Inductive fate := Done | Refused (e : exn) | Abandoned.

(** [json.dumps(v)] accepts [v]. *)
Fixpoint dumpable (v : value) : bool :=
  match v with
  | VTime _ => false
  | VList l => (fix go l := match l with [] => true | x :: l => dumpable x && go l end) l
  | VDict d => (fix go d := match d with [] => true | (_, x) :: d => dumpable x && go d end) d
  | _ => true
  end.

Definition dumps_dict (d : dict) : result dict := if dumpable (VDict d) then Ok d else Err TypeError.

Definition is_nan (f : float) : bool := match f with S754_nan => true | _ => false end.

(** *** Statements *)

Definition dml (A : Type) : Type := Tables -> result (A * Tables).

Definition insert_node (n : Node) : dml unit := fun t =>
  if dmem (node_id n) (t_nodes t) then Err IntegrityError
  else Ok (tt, mk_Tables (t_nodes t ++ [(node_id n, n)]) (t_edges t) (t_events t) (t_proposals t) (t_votes t) (t_reputations t) (t_vectors t)).

Definition set_node (n : Node) : dml unit := fun t =>
  Ok (tt, mk_Tables (if dmem (node_id n) (t_nodes t) then dset (node_id n) n (t_nodes t) else t_nodes t)
            (t_edges t) (t_events t) (t_proposals t) (t_votes t) (t_reputations t) (t_vectors t)).

(** [DELETE FROM nodes]: with the foreign keys, a node an edge refers to stays. *)
Definition drop_node (nid : string) (fk : bool) : dml unit := fun t =>
  if fk && existsb (fun e => touches nid e.2) (t_edges t) && dmem nid (t_nodes t) then Err IntegrityError
  else Ok (tt, mk_Tables (ddel nid (t_nodes t)) (t_edges t) (t_events t) (t_proposals t) (t_votes t) (t_reputations t) (t_vectors t)).

Definition insert_edge (e : Edge) (fk : bool) : dml unit := fun t =>
  if dmem (edge_id e) (t_edges t) || fk && (negb (dmem (source_id e) (t_nodes t)) || negb (dmem (target_of e) (t_nodes t))) then Err IntegrityError
  else Ok (tt, mk_Tables (t_nodes t) (t_edges t ++ [(edge_id e, e)]) (t_events t) (t_proposals t) (t_votes t) (t_reputations t) (t_vectors t)).

Definition drop_edges (p : Edge -> bool) : dml unit := fun t =>
  Ok (tt, mk_Tables (t_nodes t) (List.filter (fun e => negb (p e.2)) (t_edges t)) (t_events t) (t_proposals t) (t_votes t)
            (t_reputations t) (t_vectors t)).

Definition insert_event (e : LatticeEvent) : dml unit := fun t =>
  if existsb (fun r => String.eqb (event_id r) (event_id e)) (t_events t) then Err IntegrityError
  else Ok (tt, mk_Tables (t_nodes t) (t_edges t) (t_events t ++ [e]) (t_proposals t) (t_votes t) (t_reputations t) (t_vectors t)).

Definition insert_proposal (p : ProposalRow) : dml unit := fun t =>
  if dmem (pr_id p) (t_proposals t) || is_nan (pr_quorum p) then Err IntegrityError
  else Ok (tt, mk_Tables (t_nodes t) (t_edges t) (t_events t) (t_proposals t ++ [(pr_id p, p)]) (t_votes t) (t_reputations t) (t_vectors t)).

Definition with_pr_status (st : string) (p : ProposalRow) : ProposalRow :=
  mk_ProposalRow (pr_id p) (pr_proposer p) (pr_type p) (pr_payload p) (pr_quorum p) st (pr_created p) (pr_expires p).

Definition set_proposal_status (pid st : string) : dml unit := fun t =>
  Ok (tt, mk_Tables (t_nodes t) (t_edges t) (t_events t)
            (map (fun x => if String.eqb x.1 pid then (x.1, with_pr_status st x.2) else x) (t_proposals t))
            (t_votes t) (t_reputations t) (t_vectors t)).

Definition ballot_of (pid voter : string) (v : VoteRow) : bool :=
  String.eqb (vote_proposal (vr_vote v)) pid && String.eqb (voter_id (vr_vote v)) voter.

Definition drop_ballots (pid voter : string) : dml unit := fun t =>
  Ok (tt, mk_Tables (t_nodes t) (t_edges t) (t_events t) (t_proposals t)
            (List.filter (fun v => negb (ballot_of pid voter v)) (t_votes t)) (t_reputations t) (t_vectors t)).

Definition insert_vote (v : VoteRow) (fk : bool) : dml unit := fun t =>
  if existsb (fun r => String.eqb (vr_id r) (vr_id v)) (t_votes t) || fk && negb (dmem (vote_proposal (vr_vote v)) (t_proposals t)) ||
     is_nan (weight (vr_vote v)) then Err IntegrityError
  else Ok (tt, mk_Tables (t_nodes t) (t_edges t) (t_events t) (t_proposals t) (t_votes t ++ [v]) (t_reputations t) (t_vectors t)).

Definition upsert_reputation (r : Reputation) : dml unit := fun t =>
  if is_nan (score r) then Err IntegrityError
  else Ok (tt, mk_Tables (t_nodes t) (t_edges t) (t_events t) (t_proposals t) (t_votes t) (dset (agent_id r) r (t_reputations t)) (t_vectors t)).

Definition upsert_vector_row (vid : string) (v : VectorRow) : dml unit := fun t =>
  Ok (tt, mk_Tables (t_nodes t) (t_edges t) (t_events t) (t_proposals t) (t_votes t) (t_reputations t) (dset vid v (t_vectors t))).

Definition drop_vectors (collection : string) (vids : list string) : dml unit := fun t =>
  Ok (tt, mk_Tables (t_nodes t) (t_edges t) (t_events t) (t_proposals t) (t_votes t) (t_reputations t)
            (List.filter (fun x => negb (String.eqb (vec_collection x.2) collection && bool_decide (x.1 ∈ vids))) (t_vectors t))).

Section Backend.
Context (config : LatticeConfig) (clock : nat -> Z) (uuid : nat -> string) (fates : nat -> fate)
        (scan : forall A, list A -> list A) (json_match : string * value -> dict -> result bool).
Arguments scan {A}.

Definition now : py Database Z := fun s =>
  (Ok (clock (readings s)), mk_Database (tables s) (disk s) (conn s) (issued s) (S (readings s)) (ids s)).
Definition new_id : py Database string := fun s =>
  (Ok (uuid (ids s)), mk_Database (tables s) (disk s) (conn s) (issued s) (readings s) (S (ids s))).

(** The state after one more statement *)
Definition after (s : Database) (t d : Tables) (o : Connection) : Database := mk_Database t d o (S (issued s)) (readings s) (ids s).

(** A statement of the connection *)
Definition execute {A} (f : dml A) : py Database A := fun s =>
  match conn s, fates (issued s) with
  | Broken, _ => (Err ValueError, s)
  | _, Refused e => (Err e, after s (tables s) (disk s) (conn s))
  | _, Done => match f (tables s) with
            | Ok (a, t) => (Ok a, after s t (disk s) (conn s))
            | Err e => (Err e, after s (tables s) (disk s) (conn s))
            end
  | _, Abandoned => match f (tables s) with
                 | Ok (_, t) => (Err CancelledError, after s t (disk s) (conn s))
                 | Err _ => (Err CancelledError, after s (tables s) (disk s) (conn s))
                 end
  end.

(** A statement that the foreign keys bear on *)
Definition execute_fk {A} (f : bool -> dml A) : py Database A := s ← get; execute (f (enforced (conn s))).

Definition select {A} (f : Tables -> A) : py Database A := execute (fun t => Ok (f t, t)).

(** [db.commit()] *)
Definition commit : py Database unit := fun s =>
  match conn s, fates (issued s) with
  | Broken, _ => (Err ValueError, s)
  | _, Refused e => (Err e, after s (tables s) (disk s) (conn s))
  | _, Done => (Ok tt, after s (tables s) (tables s) (conn s))
  | _, Abandoned => (Err CancelledError, after s (tables s) (tables s) (conn s))
  end.

(** [_require_db] *)
Definition require_db : py Database unit := s ← get; raise_when (bool_decide (conn s = Closed)) RuntimeError.

(** [except Exception as exc: raise RuntimeError(...)] *)
Definition wrapped {A} (m : py Database A) : py Database A := catch_exception m (fun _ => raise RuntimeError).

(** ** Lifecycle *)

(** [db.close()]: the pending writes are gone; closing a broken connection does nothing. *)
Definition close_db : py Database unit := fun s =>
  match conn s, fates (issued s) with
  | Broken, _ => (Ok tt, after s (disk s) (disk s) Closed)
  | _, Refused e => (Err e, after s (tables s) (disk s) (conn s))
  | _, Done => (Ok tt, after s (disk s) (disk s) Closed)
  | _, Abandoned => (Err CancelledError, after s (disk s) (disk s) Broken)
  end.

(** [aiosqlite.connect], drained when its caller is cancelled *)
Definition connect : py Database unit := fun s =>
  match fates (issued s) with
  | Refused e => (Err e, after s (tables s) (disk s) (conn s))
  | Done => (Ok tt, after s (disk s) (disk s) (Open false))
  | Abandoned => (Err CancelledError, after s (disk s) (disk s) (Open false))
  end.

Definition no_op : py Database unit := select (fun _ => tt).

(** [PRAGMA foreign_keys=ON] *)
Definition enforce : py Database unit := fun s =>
  match conn s, fates (issued s) with
  | Broken, _ => (Err ValueError, s)
  | _, Refused e => (Err e, after s (tables s) (disk s) (conn s))
  | _, Done => (Ok tt, after s (tables s) (disk s) (Open true))
  | _, Abandoned => (Err CancelledError, after s (tables s) (disk s) (Open true))
  end.

Definition open_locked : py Database unit :=
  s ← get;
  if bool_decide (conn s = Closed) then _ ← connect; _ ← no_op; _ ← enforce; commit
  else mret tt.

(** The number of [_SCHEMA_STATEMENTS] *)
Definition SCHEMA_STATEMENTS : nat := 14.

Definition migrate_locked : py Database unit :=
  _ ← for_each (fun _ => no_op) (seq 0 SCHEMA_STATEMENTS);
  _ ← now;
  _ ← no_op;
  commit.

(** The cleanup of a failed start, whose own failure is logged *)
Definition cleanup : py Database unit := fun s =>
  match conn s, fates (issued s) with
  | Closed, _ => (Ok tt, s)
  | Open fk, Refused _ => (Ok tt, after s (tables s) (disk s) (Open fk))
  | _, _ => (Ok tt, after s (disk s) (disk s) Closed)
  end.

Definition initialize : py Database unit :=
  wrapped (catch (_ ← open_locked; migrate_locked) (fun e => _ ← cleanup; raise e)).

Definition close : py Database unit := wrapped (s ← get; if bool_decide (conn s = Closed) then mret tt else close_db).

Definition migrate : py Database unit := wrapped (_ ← open_locked; migrate_locked).

(** [_append_event] *)
Definition append_event (ty act target : string) (pay : dict) (prior : option dict) : py Database string :=
  _ ← require_db;
  eid ← new_id;
  pay ← lift (dumps_dict pay);
  prior ← lift (match prior with Some d => d ← dumps_dict d; Ok (Some d) | None => Ok None end);
  t ← now;
  _ ← execute (insert_event (mk_LatticeEvent eid t ty act target pay prior));
  mret eid.

(** ** Nodes *)

Definition create_node (ty : NodeType) (props : dict) (act : string) : py Database string :=
  wrapped (
    _ ← require_db;
    nid ← new_id;
    t ← now;
    props ← lift (dumps_dict props);
    _ ← execute (insert_node (mk_Node nid ty props t t));
    _ ← append_event "node_created" act nid
          [("node_type", VStr (node_type_value ty)); ("properties", VDict props)]%string None;
    _ ← commit;
    mret nid).

Definition find_node (nid : string) (t : Tables) : option Node := dget nid (t_nodes t).

Definition get_node (nid : string) : py Database (option Node) :=
  wrapped (_ ← require_db; select (find_node nid)).

Definition update_node (nid : string) (props : dict) (act : string) : py Database bool :=
  wrapped (
    _ ← require_db;
    row ← select (find_node nid);
    match row with
    | None => mret false
    | Some n =>
        merged ← lift (dumps_dict (merge (properties n) props));
        t ← now;
        _ ← execute (set_node (mk_Node (node_id n) (node_type n) merged (created_at n) t));
        _ ← append_event "node_updated" act nid [("properties"%string, VDict props)] (Some (properties n));
        _ ← commit;
        mret true
    end).

(** [_node_to_dict], [_edge_to_dict] *)
Definition node_to_dict (n : Node) : dict :=
  [("id", VStr (node_id n)); ("node_type", VStr (node_type_value (node_type n))); ("properties", VDict (properties n));
   ("created_at", VStr (iso (created_at n))); ("updated_at", VStr (iso (updated_at n)))]%string.
Definition edge_to_dict (e : Edge) : dict :=
  [("id", VStr (edge_id e)); ("source_id", VStr (source_id e)); ("target_id", VStr (target_of e));
   ("edge_type", VStr (edge_type_value (edge_type e))); ("properties", VDict (edge_properties e));
   ("created_at", VStr (iso (edge_created_at e)))]%string.

Definition delete_node (nid act : string) : py Database bool :=
  wrapped (
    _ ← require_db;
    row ← select (find_node nid);
    match row with
    | None => mret false
    | Some n =>
        _ ← execute (drop_edges (touches nid));
        _ ← execute_fk (drop_node nid);
        _ ← append_event "node_deleted" act nid [] (Some (node_to_dict n));
        _ ← commit;
        mret true
    end).

(** [ORDER BY] an ISO timestamp *)
Definition by_time {A} (key : A -> Z) (l : list A) : list A := sort_by (fun a b => str_le (iso (key a)) (iso (key b))) l.

(** [LIMIT ? OFFSET ?]: a negative limit is none, a negative offset is zero. *)
Definition limited {A} (limit offset : Z) (l : list A) : list A :=
  let l := skipn (Z.to_nat offset) l in if (limit <? 0)%Z then l else firstn (Z.to_nat limit) l.

Fixpoint filter_ok {A} (p : A -> result bool) (l : list A) : result (list A) :=
  match l with
  | [] => Ok []
  | x :: l' => b ← p x; r ← filter_ok p l'; Ok (if (b : bool) then x :: r else r)
  end.

Fixpoint all_match (filters pay : dict) : result bool :=
  match filters with
  | [] => Ok true
  | f :: filters' => b ← json_match f pay; if (b : bool) then all_match filters' pay else Ok false
  end.

Definition find_nodes (ty : option NodeType) (filters : dict) (limit offset : Z) : py Database (list Node) :=
  wrapped (
    _ ← require_db;
    execute (fun t =>
      rows ← filter_ok (fun n => if match ty with Some ty => bool_decide (node_type n = ty) | None => true end
                                 then all_match filters (properties n) else Ok false) (scan (dvalues (t_nodes t)));
      Ok (limited limit offset (by_time created_at rows), t))).

(** ** Edges *)

Definition add_edge (source target : string) (ty : EdgeType) (props : dict) (act : string) : py Database string :=
  wrapped (
    _ ← require_db;
    eid ← new_id;
    props ← lift (dumps_dict props);
    t ← now;
    _ ← execute_fk (insert_edge (mk_Edge eid source target ty props t));
    _ ← append_event "edge_added" act eid
          [("source_id", VStr source); ("target_id", VStr target); ("edge_type", VStr (edge_type_value ty));
           ("properties", VDict props)]%string None;
    _ ← commit;
    mret eid).

Definition valid_direction (d : Direction) : bool := match d with DOther _ => false | _ => true end.

Definition get_edges (nid : string) (d : Direction) (ty : option EdgeType) : py Database (list Edge) :=
  _ ← raise_when (negb (valid_direction d)) ValueError;
  wrapped (_ ← require_db; select (fun t => by_time edge_created_at (List.filter (incident nid d ty) (scan (dvalues (t_edges t)))))).

Definition remove_edge (eid act : string) : py Database bool :=
  wrapped (
    _ ← require_db;
    row ← select (fun t => dget eid (t_edges t));
    match row with
    | None => mret false
    | Some e =>
        _ ← execute (drop_edges (fun x => String.eqb (edge_id x) eid));
        _ ← append_event "edge_removed" act eid [] (Some (edge_to_dict e));
        _ ← commit;
        mret true
    end).

(** ** Searches *)

(** The rows a branch of the recursive query joins *)
Definition joined (es : list Edge) (ty : option EdgeType) (d : Direction) (x : string) : list string :=
  match d with
  | DBoth => neighbors es ty DOut x ++ neighbors es ty DIn x
  | d => neighbors es ty d x
  end.

Definition traverse (start : string) (ty : option EdgeType) (max_depth : Z) (d : Direction) : py Database (list string) :=
  _ ← raise_when (negb (valid_direction d)) ValueError;
  if (max_depth <? 1)%Z then mret []
  else
    wrapped (
      _ ← require_db;
      o ← select (fun t => let es := scan (dvalues (t_edges t)) in select_reachable (joined es ty d) (endpoints es) start max_depth);
      lift (within_fuel o)).

(** The loop over the paths of a level, a query each *)
Fixpoint level_of (target : string) (queue : list (list string)) (visited : gset string)
    : py Database (list string + list (list string) * gset string) :=
  match queue with
  | [] => mret (inr ([], visited))
  | path :: rest =>
      rows ← select (fun t => neighbors (scan (dvalues (t_edges t))) None DOut (end_of path));
      match extend target path rows visited with
      | inl p => mret (inl p)
      | inr (new, v) =>
          r ← level_of target rest v;
          mret match r with inl p => inl p | inr (new', v') => inr (new ++ new', v') end
      end
  end.

Fixpoint levels_of (k : nat) (target : string) (queue : list (list string)) (visited : gset string)
    : py Database (option (list string)) :=
  match k, queue with
  | 0, _ | _, [] => mret None
  | S k', _ =>
      r ← level_of target queue visited;
      match r with
      | inl p => mret (Some p)
      | inr (next, v) => levels_of k' target next v
      end
  end.

Definition find_path (source target : string) (max_depth : Z) : py Database (option (list string)) :=
  if String.eqb source target then mret (Some [source])
  else wrapped (_ ← require_db; levels_of (Z.to_nat max_depth) target [[source]] {[source]}).

Definition get_dependencies (tid : string) : py Database (list string) := wrapped (traverse tid (Some DEPENDS_ON) 100 DOut).
Definition get_dependents (tid : string) : py Database (list string) := wrapped (traverse tid (Some DEPENDS_ON) 100 DIn).

(** ** Vectors *)

Definition upsert_vector (collection : string) (rows : list (string * list float * dict)) : py Database bool :=
  wrapped (
    _ ← require_db;
    _ ← for_each (fun r => pay ← lift (dumps_dict r.2); execute (upsert_vector_row r.1.1 (mk_VectorRow collection r.1.2 pay))) rows;
    _ ← commit;
    mret true).

(** Search is degraded: nothing is found. *)
Definition search_vectors (collection : string) (query : list float) (limit : Z) : py Database (list Hit) := mret [].
Definition search_by_text (collection text : string) (limit : Z) : py Database (list Hit) := mret [].

Definition delete_vectors (collection : string) (vids : list string) : py Database bool :=
  wrapped (
    _ ← require_db;
    match vids with
    | [] => mret true
    | _ => _ ← execute (drop_vectors collection vids); _ ← commit; mret true
    end).

(** ** Governance *)

(** The float arithmetic of [fromtimestamp(now.timestamp() + ttl)] rounds back to
    the microsecond for present times. *)
Definition submit_proposal (proposer ty : string) (pay : dict) (quorum : float) (ttl : Z) : py Database string :=
  wrapped (
    _ ← require_db;
    pid ← new_id;
    t ← now;
    expires ← lift (after_seconds t ttl);
    pay ← lift (dumps_dict pay);
    _ ← execute (insert_proposal (mk_ProposalRow pid proposer ty pay quorum "open" t (wall expires)));
    _ ← append_event "proposal_submitted" proposer pid (merge [("proposal_type"%string, VStr ty)] pay) None;
    _ ← commit;
    mret pid).

Definition proposal_row (pid : string) : py Database ProposalRow :=
  row ← select (fun t => dget pid (t_proposals t));
  match row with Some p => mret p | None => raise KeyError end.

(** Marking a proposal resolved, with its event *)
Definition resolve (pid st : string) (pay : dict) : py Database unit :=
  _ ← execute (set_proposal_status pid st);
  _ ← append_event "proposal_resolved" "system" pid pay None;
  commit.

Definition expire (pid : string) : py Database bool := _ ← resolve pid "expired" [("status"%string, VStr "expired")]; mret false.

(** [except KeyError: raise], [except (KeyError, ValueError): raise] *)
Definition wrapped_but {A} (es : list exn) (m : py Database A) : py Database A :=
  catch_exception m (fun e => if bool_decide (e ∈ es) then raise e else raise RuntimeError).

(** The sums of the loop over the votes *)
Definition sum_votes (d : string) (vs : list VoteRow) : float :=
  fsum (map (fun v => weight (vr_vote v)) (List.filter (fun v => String.eqb (decision (vr_vote v)) d) vs)).

Definition votes_on (pid : string) (t : Tables) : list VoteRow :=
  List.filter (fun v => String.eqb (vote_proposal (vr_vote v)) pid) (scan (t_votes t)).

Definition check_quorum (pid : string) : py Database bool :=
  wrapped_but [KeyError] (
    _ ← require_db;
    row ← proposal_row pid;
    if negb (String.eqb (pr_status row) "open") then mret (String.eqb (pr_status row) "passed")
    else
      t ← now;
      if (pr_expires row <=? t)%Z then expire pid
      else
        vs ← select (votes_on pid);
        let approve := sum_votes "approve" vs in
        let deny := sum_votes "deny" vs in
        let counted := fadd approve deny in
        let pay st := [("status", VStr st); ("approve", VFloat approve); ("deny", VFloat deny)]%string in
        if SFleb counted f_zero then mret false
        else if SFleb (pr_quorum row) (fdiv approve counted) then _ ← resolve pid "passed" (pay "passed"%string); mret true
        else if SFleb (pr_quorum row) (fdiv deny counted) then _ ← resolve pid "denied" (pay "denied"%string); mret false
        else mret false).

(** The section of [cast_vote] under the lock; whether the ballot was recorded *)
Definition record_vote (voter pid dec : string) (ev : list string) : py Database bool :=
  _ ← require_db;
  row ← proposal_row pid;
  if negb (String.eqb (pr_status row) "open") then mret false
  else
    t ← now;
    if (pr_expires row <=? t)%Z then expire pid
    else
      _ ← execute (drop_ballots pid voter);
      w ← (if bool_decide (voter ∈ ["butler"; "user"]%string) then mret f_one
           else rep ← select (fun t => dget voter (t_reputations t));
                mret match rep with Some r => score r | None => f_half end);
      vid ← new_id;
      t ← now;
      _ ← execute_fk (insert_vote (mk_VoteRow vid (mk_Vote voter pid dec ev w t)));
      _ ← append_event "vote_cast" voter pid [("decision", VStr dec); ("weight", VFloat w)]%string None;
      _ ← commit;
      mret true.

Definition cast_vote (voter pid dec : string) (ev : option (list string)) : py Database bool :=
  _ ← raise_when (negb (bool_decide (dec ∈ ["approve"; "deny"; "abstain"]%string))) ValueError;
  wrapped_but [KeyError; ValueError] (
    recorded ← record_vote voter pid dec (default [] ev);
    if (recorded : bool) then _ ← check_quorum pid; mret true else mret false).

Definition vote_of_row (v : VoteRow) : result Vote :=
  let v := vr_vote v in new_Vote (voter_id v) (vote_proposal v) (decision v) (evidence v) (weight v) (utc (voted_at v)).

Definition get_proposal_status (pid : string) : py Database ConsensusProposal :=
  wrapped_but [KeyError] (
    _ ← require_db;
    row ← proposal_row pid;
    rows ← select (fun t => by_time (fun v => voted_at (vr_vote v)) (votes_on pid t));
    vs ← lift (map_ok vote_of_row rows);
    lift (new_ConsensusProposal (pr_id row) (pr_proposer row) (pr_type row) (pr_quorum row) vs (pr_status row) (utc (pr_expires row)))).

Definition list_open_proposals : py Database (list ConsensusProposal) :=
  _ ← require_db;
  pids ← select (fun t => sort_by str_le (map fst (List.filter (fun x => String.eqb (pr_status x.2) "open") (t_proposals t))));
  for_each get_proposal_status pids.

(** [compute_reputation] *)
Definition compute_reputation (r : Reputation) : float :=
  let total := (tasks_completed r + tasks_failed r)%Z in
  if (total =? 0)%Z then f_half
  else
    let recent := last_n 20 (peer_ratings r) in
    let peer := match recent with [] => f_half | _ => mean recent end in
    fadd (fmul success_share (int_div (tasks_completed r) total)) (fmul peer_share peer).

(** [Reputation(...)] of a row *)
Definition reputation_of_row (r : Reputation) : result Reputation :=
  new_Reputation (agent_id r) (score r) (tasks_completed r) (tasks_failed r) (peer_ratings r) (utc (last_updated r)).

Definition stored_or_new (aid : string) : py Database Reputation :=
  row ← select (fun t => dget aid (t_reputations t));
  match row with
  | Some r => lift (reputation_of_row r)
  | None => t ← now; lift (baseline aid t)
  end.

Definition update_reputation (aid : string) (success : bool) (rating : option float) : py Database Reputation :=
  wrapped (
    _ ← require_db;
    rep ← stored_or_new aid;
    let done_ := (tasks_completed rep + if success then 1 else 0)%Z in
    let failed := (tasks_failed rep + if success then 0 else 1)%Z in
    let ratings := match rating with Some f => last_n 100 (peer_ratings rep ++ [f]) | None => peer_ratings rep end in
    let sc := compute_reputation (mk_Reputation (agent_id rep) (score rep) done_ failed ratings (last_updated rep)) in
    t ← now;
    let rep := mk_Reputation aid sc done_ failed ratings t in
    _ ← execute (upsert_reputation rep);
    _ ← append_event "reputation_updated" "system" aid [("success", VBool success); ("score", VFloat sc)]%string None;
    _ ← commit;
    mret rep).

Definition get_reputation (aid : string) : py Database Reputation := wrapped (_ ← require_db; stored_or_new aid).

Definition vote_weight (voter : string) : py Database float :=
  if bool_decide (voter ∈ ["butler"; "user"]%string) then mret f_one
  else rep ← get_reputation voter; mret (score rep).

(** ** The event log *)

Definition event_of_row (e : LatticeEvent) : result LatticeEvent :=
  new_LatticeEvent (event_id e) (utc (timestamp e)) (event_type e) (actor e) (target_id e) (payload e) (prior_state e).

Definition get_events (target ty act : option string) (limit : Z) : py Database (list LatticeEvent) :=
  wrapped (
    _ ← require_db;
    rows ← select (fun t =>
      limited limit 0
        (sort_by (fun a b => str_le (iso (timestamp b)) (iso (timestamp a)))
           (List.filter (fun e => is_or_any target (target_id e) && is_or_any ty (event_type e) && is_or_any act (actor e))
              (scan (t_events t)))));
    lift (map_ok event_of_row rows)).

Definition replay_events (from : datetime) (to : option datetime) : py Database (list LatticeEvent) :=
  wrapped (
    _ ← require_db;
    start ← lift (ensure_utc from);
    stop ← lift (match to with Some d => t ← ensure_utc d; Ok (Some t) | None => Ok None end);
    rows ← select (fun t =>
      by_time timestamp (List.filter (fun e => str_le (iso start) (iso (timestamp e)) &&
        match stop with Some u => str_le (iso (timestamp e)) (iso u) | None => true end) (scan (t_events t))));
    lift (map_ok event_of_row rows)).

Definition get_audit_trail (nid : string) : py Database (list LatticeEvent) :=
  wrapped (
    _ ← require_db;
    eids ← select (fun t => map edge_id (List.filter (touches nid) (scan (dvalues (t_edges t)))));
    rows ← select (fun t => by_time timestamp (List.filter (fun e => bool_decide (target_id e ∈ nid :: eids)) (scan (t_events t))));
    lift (map_ok event_of_row rows)).

(** ** Status *)

Definition count_of (f : Tables -> nat) : py Database nat := _ ← require_db; select f.

Definition typed (ty : NodeType) (t : Tables) : nat := count (fun n => bool_decide (node_type n = ty)) (dvalues (t_nodes t)).

Definition get_agent_count : py Database nat := wrapped (count_of (typed AGENT)).

Definition TERMINAL_TASK_STATES : list string := ["completed"; "failed"; "cancelled"; "canceled"; "done"; "archived"]%string.

Definition get_active_tasks (text : value -> string) : py Database (list Node) :=
  wrapped (
    tasks ← find_nodes (Some TASK) [] 10000 0;
    mret (List.filter (fun n =>
      negb (bool_decide (py_lower (text (default (VStr "") (dget "status"%string (properties n)))) ∈ TERMINAL_TASK_STATES))) tasks)).

(** [get_status], less the size of the file *)
Record Counts := mk_Counts { c_nodes : nat; c_edges : nat; c_events : nat; c_agents : nat; c_tasks : nat; c_pending : nat }.

Definition get_status : py Database Counts :=
  wrapped (
    n ← count_of (fun t => length (t_nodes t));
    e ← count_of (fun t => length (t_edges t));
    v ← count_of (fun t => length (t_events t));
    a ← count_of (typed AGENT);
    k ← count_of (typed TASK);
    p ← count_of (fun t => count (fun x => String.eqb (pr_status x.2) "open") (t_proposals t));
    mret (mk_Counts n e v a k p)).
End Backend.
