(* ===== verification/LatticeStore.v ===== *)
(** * What the SQLite lattice keeps

    Invariants of [LatticeSqlite] that hold whatever statement fails, whoever is
    cancelled and wherever the process dies: the rows refer to rows, the
    committed log only grows, and a resolved proposal is final. *)
From S2P Require Import Prelude PyStr PyDict Floats AuditTrail IsoTime LatticeModels Reputation Governance LatticeGraph LatticeMemory.
From S2P Require Import LatticeLog LatticeSqlite.
From Stdlib Require Import SpecFloat.

(** ** Triples

    [triple I K K' m]: from [K], [m] returns with [K'] or raises with [I]. *)
Definition triple {S A} (I K K' : S -> Prop) (m : py S A) : Prop := forall s, K s -> wp m (fun _ => K') (fun _ => I) s.

Lemma triple_bind {S A B} (I K K1 K2 : S -> Prop) (m : py S A) (f : A -> py S B) :
  triple I K K1 m -> (forall a, triple I K1 K2 (f a)) -> triple I K K2 (m ≫= f).
Proof.
  intros Hm Hf s Hs. apply wp_bind. eapply wp_mono; [| |apply (Hm s Hs)]; [intros a s' Hs'; by apply Hf|done].
Qed.

Lemma triple_ret {S A} (I K : S -> Prop) (a : A) : triple I K K (mret a).
Proof. by intros s Hs. Qed.

Lemma triple_raise {S A} (I K K' : S -> Prop) e : (forall s, K s -> I s) -> triple I K K' (raise (A:=A) e).
Proof. intros H s Hs. by apply H. Qed.

Lemma triple_lift {S A} (I K : S -> Prop) (r : result A) : (forall s, K s -> I s) -> triple I K K (lift r).
Proof. intros H s Hs. apply wp_lift; [done|]. intros. by apply H. Qed.

Lemma triple_weaken {S A} (I K K' K1 : S -> Prop) (m : py S A) : (forall s, K' s -> K1 s) -> triple I K K' m -> triple I K K1 m.
Proof. intros H Hm s Hs. eapply wp_mono; [| |apply (Hm s Hs)]; auto. Qed.

Lemma triple_strengthen {S A} (I K K' K1 : S -> Prop) (m : py S A) : (forall s, K1 s -> K s) -> triple I K K' m -> triple I K1 K' m.
Proof. intros H Hm s Hs. by apply Hm, H. Qed.

Section Store.
Context (clock : nat -> Z) (uuid : nat -> string) (fates : nat -> fate)
        (scan : forall A, list A -> list A) (json_match : string * value -> dict -> result bool).

(** An invariant of the connection, the view and the disk, kept by commits *)
Context (J : Connection -> Tables -> Tables -> Prop) (Jcommit : forall c v d, J c v d -> J c v v).

Definition holds (s : Database) : Prop := J (conn s) (tables s) (disk s).

(** With a fact of the view *)
Definition holds_with (F : Tables -> Prop) (s : Database) : Prop := holds s /\ F (tables s).

(** A statement that keeps the invariant, from [F] to [F'] *)
Definition keeps {A} (F F' : Tables -> Prop) (f : dml A) : Prop :=
  forall c v d a v', J c v d -> F v -> f v = Ok (a, v') -> J c v' d /\ F' v'.

(** The same of one that the foreign keys bear on *)
Definition keeps_fk {A} (F F' : Tables -> Prop) (f : bool -> dml A) : Prop :=
  forall c v d a v', J c v d -> F v -> f (enforced c) v = Ok (a, v') -> J c v' d /\ F' v'.

Abbreviation tr F F' := (triple holds (holds_with F) (holds_with F')).

Lemma execute_triple {A} F F' (f : dml A) : keeps F F' f -> tr F F' (execute fates f).
Proof using.
  intros H s [Hj Hf]. unfold wp, execute. unfold holds, holds_with in *.
  destruct (conn s) eqn:Hc; [| |by rewrite Hc];
    destruct (fates (issued s)); cbn; rewrite ?Hc; try done; destruct (f (tables s)) as [[a v']|e] eqn:E; cbn; rewrite ?Hc; try done;
    destruct (H _ _ _ _ _ Hj Hf E); done.
Qed.

Lemma execute_fk_triple {A} F F' (f : bool -> dml A) : keeps_fk F F' f -> tr F F' (execute_fk fates f).
Proof using.
  intros H s [Hj Hf]. unfold execute_fk. change (wp (execute fates (f (enforced (conn s)))) (fun _ => holds_with F') (fun _ => holds) s).
  unfold wp, execute. unfold holds, holds_with in *. specialize (H (conn s)).
  destruct (conn s) eqn:Hc; [| |by rewrite Hc];
    destruct (fates (issued s)); cbn; rewrite ?Hc; try done;
    match goal with |- context [f ?b (tables s)] => destruct (f b (tables s)) as [[a v']|e] eqn:E end; cbn; rewrite ?Hc; try done;
    destruct (H _ _ _ _ Hj Hf E); done.
Qed.

Lemma select_triple {A} F (f : Tables -> A) : tr F F (select fates f).
Proof using. apply execute_triple. intros c v d a v' Hj Hf [= _ <-]. done. Qed.

Lemma commit_triple F : tr F F (commit fates).
Proof using Jcommit.
  intros s [Hj Hf]. unfold wp, commit. unfold holds, holds_with in *. destruct (conn s) eqn:Hc; [| |by rewrite Hc];
    (destruct (fates (issued s)); cbn; rewrite ?Hc; [split; [by eapply Jcommit|done]|done|by eapply Jcommit]).
Qed.

Lemma now_triple F : tr F F (now clock).
Proof using. by intros s [Hj Hf]. Qed.

Lemma new_id_triple F : tr F F (new_id uuid).
Proof using. by intros s [Hj Hf]. Qed.

Lemma require_triple F : tr F F require_db.
Proof using. intros s [Hj Hf]. unfold wp, require_db, get, raise_when, raise_if. rewrite bind_run. by destruct (bool_decide _). Qed.

Lemma lift_triple {A} F (r : result A) : tr F F (lift r).
Proof using. apply triple_lift. by intros s [Hj _]. Qed.

Lemma raise_triple {A} F F' e : tr F F' (raise (A:=A) e).
Proof using. apply triple_raise. by intros s [Hj _]. Qed.

Lemma raise_when_triple F b e : tr F F (raise_when b e).
Proof using. apply lift_triple. Qed.

Lemma catch_exception_triple {A} F F' (m : py Database A) h : tr F F' m -> (forall e, tr (fun _ => True) F' (h e)) -> tr F F' (catch_exception m h).
Proof using.
  intros Hm Hh s Hs. specialize (Hm s Hs). unfold wp, catch_exception, catch in *. destruct (m s) as [[a|e] s1]; [done|].
  destruct (bool_decide _); [done|]. apply (Hh e s1). by split.
Qed.

Lemma wrapped_triple {A} F F' (m : py Database A) : tr F F' m -> tr F F' (wrapped m).
Proof using. intros H. apply catch_exception_triple; [done|]. intros e. apply raise_triple. Qed.

Lemma wrapped_but_triple {A} F F' es (m : py Database A) : tr F F' m -> tr F F' (wrapped_but es m).
Proof using. intros H. apply catch_exception_triple; [done|]. intros e. destruct (bool_decide _); apply raise_triple. Qed.

Lemma for_each_triple {A B} F (f : A -> py Database B) l : (forall x, tr F F (f x)) -> tr F F (for_each f l).
Proof using.
  intros H. induction l as [|x l IH]; [apply triple_ret|]. cbn. eapply triple_bind; [apply H|]. intros y.
  eapply triple_bind; [exact IH|]. intros ys. apply triple_ret.
Qed.

(** *** Queries keep any fact of the view *)

Ltac reads :=
  repeat (cbv zeta; first
    [ apply triple_ret | apply raise_triple | apply raise_when_triple | apply lift_triple | apply require_triple | apply select_triple
    | apply wrapped_triple | apply wrapped_but_triple
    | match goal with
      | |- triple _ _ _ (now _) => apply now_triple
      | |- triple _ _ _ (if ?b then _ else _) => destruct b
      | |- triple _ _ _ (match ?o with Some _ => _ | None => _ end) => destruct o
      end
    | match goal with |- triple ?I ?K _ _ => eapply (triple_bind I K K); [|intros ?] end ]).

Section Queries.
Context (F : Tables -> Prop).

Lemma level_of_reads target queue visited : tr F F (level_of fates scan target queue visited).
Proof using.
  revert visited. induction queue as [|p rest IH]; intros visited; cbn [level_of]; [apply triple_ret|].
  eapply triple_bind; [apply select_triple|]. intros rows. destruct (extend _ _ _ _) as [q|[new v]]; [apply triple_ret|].
  eapply triple_bind; [apply IH|]. intros r. apply triple_ret.
Qed.

Lemma levels_of_reads k target queue visited : tr F F (levels_of fates scan k target queue visited).
Proof using.
  revert queue visited. induction k as [|k IH]; intros queue visited; cbn [levels_of]; [apply triple_ret|].
  destruct queue; [apply triple_ret|]. eapply triple_bind; [apply level_of_reads|].
  intros r. destruct r as [p|[next v]]; [apply triple_ret|apply IH].
Qed.

Lemma find_path_reads source target m : tr F F (find_path fates scan source target m).
Proof using.
  unfold find_path. destruct (String.eqb _ _); [apply triple_ret|]. apply wrapped_triple.
  eapply triple_bind; [apply require_triple|]. intros _. apply levels_of_reads.
Qed.

Lemma find_nodes_reads ty filters limit off : tr F F (find_nodes fates scan json_match ty filters limit off).
Proof using.
  unfold find_nodes. apply wrapped_triple. eapply triple_bind; [apply require_triple|]. intros _.
  apply execute_triple. intros c v d a v' Hj Hf H. apply result_bind_ok in H as (rows & _ & H). by inversion H; subst.
Qed.

Lemma proposal_row_reads pid : tr F F (proposal_row fates pid).
Proof using. unfold proposal_row. reads. Qed.

Lemma proposal_status_reads pid : tr F F (get_proposal_status fates scan pid).
Proof using. unfold get_proposal_status. reads. Qed.

Lemma list_open_reads : tr F F (list_open_proposals fates scan).
Proof using.
  unfold list_open_proposals. eapply triple_bind; [apply require_triple|]. intros _.
  eapply triple_bind; [apply select_triple|]. intros pids. apply for_each_triple. intros pid. apply proposal_status_reads.
Qed.

Lemma get_reputation_reads aid : tr F F (get_reputation clock fates aid).
Proof using. unfold get_reputation, stored_or_new. reads. Qed.

Lemma get_status_reads : tr F F (get_status fates).
Proof using. unfold get_status, count_of. reads. Qed.

Lemma active_tasks_reads text : tr F F (get_active_tasks fates scan json_match text).
Proof using.
  unfold get_active_tasks. apply wrapped_triple. eapply triple_bind; [apply find_nodes_reads|]. intros l. apply triple_ret.
Qed.

Lemma traverse_reads start ty m d : tr F F (traverse fates scan start ty m d).
Proof using. unfold traverse. reads. Qed.

Lemma get_node_reads nid : tr F F (get_node fates nid).
Proof using. unfold get_node. reads. Qed.

Lemma get_edges_reads nid d ty : tr F F (get_edges fates scan nid d ty).
Proof using. unfold get_edges. reads. Qed.

Lemma get_events_reads target ty act limit : tr F F (get_events fates scan target ty act limit).
Proof using. unfold get_events. reads. Qed.

Lemma replay_events_reads from to : tr F F (replay_events fates scan from to).
Proof using. unfold replay_events. reads. Qed.

Lemma audit_trail_reads nid : tr F F (get_audit_trail fates scan nid).
Proof using. unfold get_audit_trail. reads. Qed.
End Queries.

(** *** Appending an event *)

Lemma append_event_triple F F' ty act target pay prior :
  (forall e, event_type e = ty -> target_id e = target -> payload e = pay -> keeps F F' (insert_event e)) ->
  tr F F' (append_event clock uuid fates ty act target pay prior).
Proof using.
  intros H. unfold append_event. eapply triple_bind; [apply require_triple|]. intros _.
  eapply triple_bind; [apply new_id_triple|]. intros eid.
  intros s [Hj Hf]. apply wp_bind. unfold dumps_dict at 1. destruct (dumpable (VDict pay)); [|by apply wp_lift].
  apply wp_lift; [intros p [= <-]|done].
  assert (Hrest : forall prior', tr F F' (t ← now clock; _ ← execute fates (insert_event (mk_LatticeEvent eid t ty act target pay prior')); mret eid)).
  { intros prior'. eapply triple_bind; [apply now_triple|]. intros t.
    eapply triple_bind; [apply execute_triple; by apply H|]. intros _. apply triple_ret. }
  apply wp_bind. apply wp_lift; [|done]. intros prior' _. apply (Hrest prior'). by split.
Qed.

(** *** The operations *)

Definition any (t : Tables) : Prop := True.

Definition open_in (pid : string) (t : Tables) : Prop :=
  exists p, dget pid (t_proposals t) = Some p /\ pr_status p = "open"%string.

Definition without_ballot (pid voter : string) (t : Tables) : Prop :=
  open_in pid t /\ forall v, v ∈ t_votes t -> ballot_of pid voter v = false.

(** What an invariant has to know of each statement *)
Record Laws : Prop := {
  law_insert_node n : keeps any any (insert_node n);
  law_set_node n : keeps any any (set_node n);
  law_drop_edges p : keeps any any (drop_edges p);
  law_drop_node nid : keeps_fk any any (drop_node nid);
  law_insert_edge e : keeps_fk any any (insert_edge e);
  law_insert_event e : keeps any any (insert_event e);
  law_insert_proposal p : keeps any any (insert_proposal p);
  law_resolve pid st : keeps (open_in pid) any (set_proposal_status pid st);
  law_drop_ballots pid voter : keeps (open_in pid) any (drop_ballots pid voter);
  law_insert_vote pid voter v : vote_proposal (vr_vote v) = pid -> voter_id (vr_vote v) = voter ->
    keeps_fk (without_ballot pid voter) any (insert_vote v);
  law_reputation r : keeps any any (upsert_reputation r);
  law_vector vid v : keeps any any (upsert_vector_row vid v);
  law_drop_vectors c vids : keeps any any (drop_vectors c vids);
}.

Context (L : Laws).

Abbreviation safe := (fun m => tr any any m).

Lemma any_event ty act target pay prior : tr any any (append_event clock uuid fates ty act target pay prior).
Proof using L. apply append_event_triple. intros e _ _ _. apply L. Qed.

Ltac triples :=
  repeat first
    [ apply any_event | apply commit_triple | apply now_triple | apply new_id_triple | apply require_triple
    | apply select_triple | apply lift_triple | apply raise_triple | apply raise_when_triple | apply triple_ret
    | apply wrapped_triple | apply wrapped_but_triple
    | apply for_each_triple; intros ?
    | apply execute_triple; apply L
    | apply execute_fk_triple; apply L
    | match goal with
      | |- triple _ _ _ (if ?b then _ else _) => destruct b
      | |- triple _ _ _ (match ?o with Some _ => _ | None => _ end) => destruct o
      | |- triple _ _ _ (match ?o with inl _ => _ | inr _ => _ end) => destruct o as [?|[? ?]]
      | |- triple _ _ _ (match ?o with [] => _ | _ :: _ => _ end) => destruct o
      end
    | eapply triple_bind; [|intros ?] ].

Lemma create_node_safe ty props act : tr any any (create_node clock uuid fates ty props act).
Proof using All. unfold create_node. triples. Qed.
Lemma update_node_safe nid props act : tr any any (update_node clock uuid fates nid props act).
Proof using All. unfold update_node. triples. Qed.
Lemma delete_node_safe nid act : tr any any (delete_node clock uuid fates nid act).
Proof using All. unfold delete_node. triples. Qed.
Lemma add_edge_safe source target ty props act : tr any any (add_edge clock uuid fates source target ty props act).
Proof using All. unfold add_edge. triples. Qed.
Lemma remove_edge_safe eid act : tr any any (remove_edge clock uuid fates eid act).
Proof using All. unfold remove_edge. triples. Qed.
Lemma upsert_vector_safe c rows : tr any any (upsert_vector fates c rows).
Proof using All. unfold upsert_vector. triples. Qed.
Lemma delete_vectors_safe c vids : tr any any (delete_vectors fates c vids).
Proof using All. unfold delete_vectors. triples. Qed.
Lemma submit_safe proposer ty pay quorum ttl : tr any any (submit_proposal clock uuid fates proposer ty pay quorum ttl).
Proof using All. unfold submit_proposal. triples. Qed.
Lemma update_reputation_safe aid success rating : tr any any (update_reputation clock uuid fates aid success rating).
Proof using All. unfold update_reputation, stored_or_new. triples. Qed.

(** *** Votes and resolutions: what a section has checked holds until it writes *)

Lemma event_keeps F e : (forall t t', t_proposals t' = t_proposals t -> t_votes t' = t_votes t -> F t -> F t') ->
  keeps F F (insert_event e).
Proof using L.
  intros HF c v d a v' Hj Hf H. destruct (law_insert_event L e c v d a v' Hj I H) as [Hj' _]. split; [done|].
  unfold insert_event in H. destruct (existsb _ _); [done|]. inversion H; subst. by apply (HF v).
Qed.

Lemma forget F {A} (m : py Database A) F' : (forall t, F t -> F' t) -> forall F1, tr F1 F m -> tr F1 F' m.
Proof using. intros H F1 Hm. eapply triple_weaken; [|exact Hm]. intros s [Hj Hf]. split; auto. Qed.

Lemma from_any {A} (m : py Database A) F F' : tr any F' m -> tr F F' m.
Proof using. intros Hm. eapply triple_strengthen; [|exact Hm]. intros s [Hj Hf]. by split. Qed.

(** A row read is the row of the view. *)
Lemma proposal_row_triple pid : forall s, holds_with any s ->
  wp (proposal_row fates pid) (fun p s' => holds s' /\ dget pid (t_proposals (tables s')) = Some p) (fun _ => holds) s.
Proof using.
  intros s [Hj _]. unfold proposal_row, select. apply wp_bind. unfold wp, execute. unfold holds in *.
  destruct (conn s) eqn:Hc; [| |by rewrite Hc]; destruct (fates (issued s)); cbn; rewrite ?Hc; try done;
    destruct (dget pid (t_proposals (tables s))) as [p|] eqn:E; cbn; rewrite ?Hc; done.
Qed.

Lemma resolve_safe pid st pay : tr (open_in pid) any (resolve clock uuid fates pid st pay).
Proof using All.
  unfold resolve. eapply triple_bind; [apply execute_triple, L|]. intros _. triples.
Qed.

Lemma expire_safe pid : tr (open_in pid) any (expire clock uuid fates pid).
Proof using All. unfold expire. eapply triple_bind; [apply resolve_safe|]. intros _. apply triple_ret. Qed.

Lemma check_quorum_safe pid : tr any any (check_quorum clock uuid fates scan pid).
Proof using All.
  unfold check_quorum. apply wrapped_but_triple. eapply triple_bind; [apply require_triple|]. intros _.
  intros s Hs. apply wp_bind. eapply wp_mono; [| |apply (proposal_row_triple pid s Hs)]; [|done].
  intros p s1 [Hj Hp]. cbn beta. destruct (String.eqb_spec (pr_status p) "open") as [Ho|Ho]; cbn [negb]; [|by split].
  assert (Hopen : holds_with (open_in pid) s1) by (split; [done|by exists p]).
  revert Hopen. generalize s1. clear s Hs s1 Hj Hp. intros s Hs. revert s Hs.
  change (tr (open_in pid) any (t ← now clock;
    if (pr_expires p <=? t)%Z then expire clock uuid fates pid
    else vs ← select fates (votes_on scan pid);
      let approve := sum_votes "approve" vs in let deny := sum_votes "deny" vs in
      let counted := fadd approve deny in
      let pay st := [("status", VStr st); ("approve", VFloat approve); ("deny", VFloat deny)]%string in
      if SFleb counted f_zero then mret false
      else if SFleb (pr_quorum p) (fdiv approve counted) then _ ← resolve clock uuid fates pid "passed" (pay "passed"%string); mret true
      else if SFleb (pr_quorum p) (fdiv deny counted) then _ ← resolve clock uuid fates pid "denied" (pay "denied"%string); mret false
      else mret false)).
  eapply triple_bind; [apply now_triple|]. intros t. destruct (pr_expires p <=? t)%Z; [apply expire_safe|].
  eapply triple_bind; [apply select_triple|]. intros vs. cbv zeta.
  destruct (SFleb _ f_zero); [apply from_any, triple_ret|]. destruct (SFleb _ _).
  - eapply triple_bind; [apply resolve_safe|]. intros _. apply triple_ret.
  - destruct (SFleb _ _); [|apply from_any, triple_ret]. eapply triple_bind; [apply resolve_safe|]. intros _. apply triple_ret.
Qed.

Lemma drop_ballots_triple pid voter : tr (open_in pid) (without_ballot pid voter) (execute fates (drop_ballots pid voter)).
Proof using L.
  apply execute_triple. intros c v d a v' Hj Hf H. destruct (law_drop_ballots L pid voter c v d a v' Hj Hf H) as [Hj' _].
  split; [done|]. inversion H; subst. split; [exact Hf|]. cbn [t_votes]. intros r [Hr _]%elem_of_filter_bool.
  by apply negb_true_iff in Hr.
Qed.

Lemma record_vote_safe voter pid dec ev : tr any any (record_vote clock uuid fates voter pid dec ev).
Proof using All.
  unfold record_vote. eapply triple_bind; [apply require_triple|]. intros _.
  intros s Hs. apply wp_bind. eapply wp_mono; [| |apply (proposal_row_triple pid s Hs)]; [|done].
  intros p s1 [Hj Hp]. cbn beta. destruct (String.eqb_spec (pr_status p) "open") as [Ho|Ho]; cbn [negb]; [|by split].
  assert (Hopen : holds_with (open_in pid) s1) by (split; [done|by exists p]).
  revert Hopen. generalize s1. clear s Hs s1 Hj Hp. intros s Hs. apply wp_bind. apply (now_triple (open_in pid) s) in Hs.
  eapply wp_mono; [| |exact Hs]; [|done]. intros t s1 Hs1. cbn beta in Hs1. cbn beta.
  destruct (pr_expires p <=? t)%Z; [by apply expire_safe|].
  apply wp_bind. eapply wp_mono; [| |apply (drop_ballots_triple pid voter s1 Hs1)]; [|done]. intros u s2 Hs2. cbn beta in Hs2.
  assert (Hw : tr (without_ballot pid voter) (without_ballot pid voter)
    (if bool_decide (voter ∈ ["butler"; "user"]%string) then mret f_one
     else rep ← select fates (fun t => dget voter (t_reputations t)); mret match rep with Some r => score r | None => f_half end)).
  { destruct (bool_decide _); [apply triple_ret|]. eapply triple_bind; [apply select_triple|]. intros rep. apply triple_ret. }
  apply wp_bind. eapply wp_mono; [| |apply (Hw s2 Hs2)]; [|done]. intros w s3 Hs3. cbn beta in Hs3. revert s3 Hs3.
  match goal with |- forall s, holds_with ?F s -> wp ?m _ _ s => change (tr F any m) end.
  eapply triple_bind; [apply new_id_triple|]. intros vid.
  eapply triple_bind; [apply now_triple|]. intros t2.
  eapply triple_bind; [apply execute_fk_triple; by apply L|]. intros _. triples.
Qed.

Lemma cast_vote_safe voter pid dec ev : tr any any (cast_vote clock uuid fates scan voter pid dec ev).
Proof using All.
  unfold cast_vote. eapply triple_bind; [apply raise_when_triple|]. intros _. apply wrapped_but_triple.
  eapply triple_bind; [apply record_vote_safe|]. intros b. destruct b; [|apply triple_ret].
  eapply triple_bind; [apply check_quorum_safe|]. intros _. apply triple_ret.
Qed.

End Store.

(** *** Lifecycle

    Opening and closing keep an invariant that does not look at the connection. *)
Section Lifecycle.
Context (clock : nat -> Z) (fates : nat -> fate).
Context (J : Tables -> Tables -> Prop) (Jcommit : forall v d, J v d -> J v v) (Jlost : forall v d, J v d -> J d d).

Abbreviation K := (holds (fun _ => J)).
Abbreviation keeping m := (triple K K K m).

Lemma no_op_keeping : keeping (no_op fates).
Proof using. intros s Hj. unfold wp, no_op, select, execute. destruct (conn s); [| |done]; by destruct (fates (issued s)). Qed.

Lemma commit_keeping : keeping (commit fates).
Proof using Jcommit.
  intros s Hj. unfold wp, commit. destruct (conn s); [| |done]; (destruct (fates (issued s)); [by eapply Jcommit|done|by eapply Jcommit]).
Qed.

Lemma enforce_keeping : keeping (enforce fates).
Proof using. intros s Hj. unfold wp, enforce. destruct (conn s); [| |done]; by destruct (fates (issued s)). Qed.

Lemma close_db_keeping : keeping (close_db fates).
Proof using Jlost.
  intros s Hj. unfold wp, close_db.
  destruct (conn s); [| |by eapply Jlost]; (destruct (fates (issued s)); [by eapply Jlost|done|by eapply Jlost]).
Qed.

Lemma connect_keeping : keeping (connect fates).
Proof using Jlost. intros s Hj. unfold wp, connect. destruct (fates (issued s)); [by eapply Jlost|done|by eapply Jlost]. Qed.

Lemma cleanup_keeping : keeping (cleanup fates).
Proof using Jlost.
  intros s Hj. unfold wp, cleanup. destruct (conn s); [done| |by eapply Jlost].
  destruct (fates (issued s)); by first [eapply Jlost | exact Hj].
Qed.

Lemma wrapped_keeping {A} (m : py Database A) : keeping m -> keeping (wrapped m).
Proof using.
  intros H s Hs. specialize (H s Hs). unfold wp, wrapped, catch_exception, catch in *. destruct (m s) as [[a|e] s1]; [done|].
  by destruct (bool_decide _).
Qed.

Lemma open_keeping : keeping (open_locked fates).
Proof using All.
  intros s Hs.
  change (wp (if bool_decide (conn s = Closed) then _ ← connect fates; _ ← no_op fates; _ ← enforce fates; commit fates else mret tt)
    (fun _ => K) (fun _ => K) s).
  destruct (bool_decide _); [|done]. revert s Hs.
  match goal with |- forall s, K s -> wp ?m _ _ s => change (keeping m) end.
  eapply triple_bind; [apply connect_keeping|]. intros _. eapply triple_bind; [apply no_op_keeping|]. intros _.
  eapply triple_bind; [apply enforce_keeping|]. intros _. apply commit_keeping.
Qed.

Lemma migrate_locked_keeping : keeping (migrate_locked clock fates).
Proof using All.
  unfold migrate_locked. apply (triple_bind K K K).
  { generalize (seq 0 SCHEMA_STATEMENTS). intros l. induction l as [|x l IH]; [apply triple_ret|]. cbn.
    eapply triple_bind; [apply no_op_keeping|]. intros y. eapply triple_bind; [exact IH|]. intros ys. apply triple_ret. }
  intros _. apply (triple_bind K K K); [by intros s Hs|]. intros _.
  eapply triple_bind; [apply no_op_keeping|]. intros _. apply commit_keeping.
Qed.

Lemma started_keeping : keeping (_ ← open_locked fates; migrate_locked clock fates).
Proof using All. eapply triple_bind; [apply open_keeping|]. intros _. apply migrate_locked_keeping. Qed.

Lemma initialize_keeping : keeping (initialize clock fates).
Proof using All.
  unfold initialize. apply wrapped_keeping. intros s Hs. pose proof (started_keeping s Hs) as Ho. unfold wp, catch in *.
  destruct ((_ ← open_locked fates; migrate_locked clock fates) s) as [[u|e] s1]; [done|].
  pose proof (cleanup_keeping s1 Ho) as Hc. unfold wp in Hc. rewrite bind_run. by destruct (cleanup fates s1) as [[v|e'] s2].
Qed.

Lemma migrate_keeping : keeping (migrate clock fates).
Proof using All. apply wrapped_keeping, started_keeping. Qed.

Lemma close_keeping : keeping (close fates).
Proof using All.
  apply wrapped_keeping. intros s Hs.
  change (wp (if bool_decide (conn s = Closed) then mret tt else close_db fates) (fun _ => K) (fun _ => K) s).
  destruct (bool_decide _); [done|]. by apply close_db_keeping.
Qed.
End Lifecycle.

(** ** Runs

    [SRecord] is [cast_vote] up to the release of the lock, when others may run
    before its [SQuorum]. *)

Inductive sqlite_op :=
| SInitialize | SClose | SMigrate
| SCreateNode (ty : NodeType) (props : dict) (act : string)
| SUpdateNode (nid : string) (props : dict) (act : string)
| SDeleteNode (nid act : string)
| SAddEdge (source target : string) (ty : EdgeType) (props : dict) (act : string)
| SRemoveEdge (eid act : string)
| SUpsert (collection : string) (rows : list (string * list float * dict))
| SDeleteVectors (collection : string) (vids : list string)
| SSubmit (proposer ty : string) (pay : dict) (quorum : float) (ttl : Z)
| SVote (voter pid dec : string) (ev : option (list string))
| SRecord (voter pid dec : string) (ev : list string)
| SQuorum (pid : string)
| SReputation (aid : string) (success : bool) (rating : option float)
| SGetNode (nid : string)
| SFindNodes (ty : option NodeType) (filters : dict) (limit off : Z)
| SGetEdges (nid : string) (d : Direction) (ty : option EdgeType)
| STraverse (start : string) (ty : option EdgeType) (max_depth : Z) (d : Direction)
| SFindPath (source target : string) (max_depth : Z)
| SProposal (pid : string)
| SOpenProposals
| SGetReputation (aid : string)
| SEvents (target ty act : option string) (limit : Z)
| SReplay (from : datetime) (to : option datetime)
| SAudit (nid : string)
| SStatus
| SActive (text : value -> string).

Section Run.
Context (clock : nat -> Z) (uuid : nat -> string) (fates : nat -> fate)
        (scan : forall A, list A -> list A) (json_match : string * value -> dict -> result bool).

Definition run_sqlite (op : sqlite_op) (s : Database) : Database :=
  match op with
  | SInitialize => (initialize clock fates s).2
  | SClose => (close fates s).2
  | SMigrate => (migrate clock fates s).2
  | SCreateNode ty props act => (create_node clock uuid fates ty props act s).2
  | SUpdateNode nid props act => (update_node clock uuid fates nid props act s).2
  | SDeleteNode nid act => (delete_node clock uuid fates nid act s).2
  | SAddEdge source target ty props act => (add_edge clock uuid fates source target ty props act s).2
  | SRemoveEdge eid act => (remove_edge clock uuid fates eid act s).2
  | SUpsert collection rows => (upsert_vector fates collection rows s).2
  | SDeleteVectors collection vids => (delete_vectors fates collection vids s).2
  | SSubmit proposer ty pay quorum ttl => (submit_proposal clock uuid fates proposer ty pay quorum ttl s).2
  | SVote voter pid dec ev => (cast_vote clock uuid fates scan voter pid dec ev s).2
  | SRecord voter pid dec ev => (record_vote clock uuid fates voter pid dec ev s).2
  | SQuorum pid => (check_quorum clock uuid fates scan pid s).2
  | SReputation aid success rating => (update_reputation clock uuid fates aid success rating s).2
  | SGetNode nid => (get_node fates nid s).2
  | SFindNodes ty filters limit off => (find_nodes fates scan json_match ty filters limit off s).2
  | SGetEdges nid d ty => (get_edges fates scan nid d ty s).2
  | STraverse start ty max_depth d => (traverse fates scan start ty max_depth d s).2
  | SFindPath source target max_depth => (find_path fates scan source target max_depth s).2
  | SProposal pid => (get_proposal_status fates scan pid s).2
  | SOpenProposals => (list_open_proposals fates scan s).2
  | SGetReputation aid => (get_reputation clock fates aid s).2
  | SEvents target ty act limit => (get_events fates scan target ty act limit s).2
  | SReplay from to => (replay_events fates scan from to s).2
  | SAudit nid => (get_audit_trail fates scan nid s).2
  | SStatus => (get_status fates s).2
  | SActive text => (get_active_tasks fates scan json_match text s).2
  end.

(** A step of a run: an operation, whatever its statements come to, or the death of
    the process, which leaves what is committed *)
Inductive sqlite_step : Database -> Database -> Prop :=
| sqlite_run op s : sqlite_step s (run_sqlite op s)
| sqlite_died s n m : sqlite_step s (mk_Database (disk s) (disk s) Closed (issued s) n m).

Lemma triple_run {A} (I : Database -> Prop) (K : Database -> Prop) (m : py Database A) s :
  triple I K K m -> (forall s, K s -> I s) -> K s -> I (m s).2.
Proof. intros H HI Hs. specialize (H s Hs). unfold wp in H. destruct (m s) as [[a|e] s']; [by apply HI|done]. Qed.

(** The operations that open and close *)
Definition lifecycle (op : sqlite_op) : bool := match op with SInitialize | SClose | SMigrate => true | _ => false end.

Lemma lifecycle_holds J op s : (forall v d, J v d -> J v v) -> (forall v d, J v d -> J d d) -> lifecycle op = true ->
  holds (fun _ => J) s -> holds (fun _ => J) (run_sqlite op s).
Proof.
  intros Jc Jl Hop Hs.
  assert (Hr : forall (m : py Database unit), triple (holds (fun _ => J)) (holds (fun _ => J)) (holds (fun _ => J)) m -> holds (fun _ => J) (m s).2).
  { intros m Hm. by apply (triple_run (holds (fun _ => J)) (holds (fun _ => J)) m s Hm). }
  destruct op; try done; cbn [run_sqlite]; apply Hr; [by apply initialize_keeping|by apply close_keeping|by apply migrate_keeping].
Qed.

(** The other operations keep an invariant whose laws hold. *)
Lemma operation_holds J op s : (forall c v d, J c v d -> J c v v) -> Laws J -> lifecycle op = false ->
  holds J s -> holds J (run_sqlite op s).
Proof.
  intros Jc L Hop Hs.
  assert (Hr : forall A (m : py Database A), triple (holds J) (holds_with J any) (holds_with J any) m -> holds J (m s).2).
  { intros A m Hm. apply (triple_run (holds J) (holds_with J any) m s Hm); [by intros s' [H _]|by split]. }
  destruct op; try done; cbn [run_sqlite]; apply Hr.
  - by apply create_node_safe.
  - by apply update_node_safe.
  - by apply delete_node_safe.
  - by apply add_edge_safe.
  - by apply remove_edge_safe.
  - by apply upsert_vector_safe.
  - by apply delete_vectors_safe.
  - by apply submit_safe.
  - by apply cast_vote_safe.
  - by apply record_vote_safe.
  - by apply check_quorum_safe.
  - by apply update_reputation_safe.
  - apply get_node_reads.
  - apply find_nodes_reads.
  - apply get_edges_reads.
  - apply traverse_reads.
  - apply find_path_reads.
  - apply proposal_status_reads.
  - apply list_open_reads.
  - apply get_reputation_reads.
  - apply get_events_reads.
  - apply replay_events_reads.
  - apply audit_trail_reads.
  - apply get_status_reads.
  - apply active_tasks_reads.
Qed.

(** An invariant of the tables alone is kept by every step. *)
Lemma step_holds J : (forall v d, J v d -> J v v) -> (forall v d, J v d -> J d d) -> Laws (fun _ => J) ->
  forall s s', sqlite_step s s' -> holds (fun _ => J) s -> holds (fun _ => J) s'.
Proof.
  intros Jc Jl L s s' Hstep Hs. destruct Hstep as [op s|s n m]; [|by eapply Jl].
  destruct (lifecycle op) eqn:Hop; [by apply lifecycle_holds|]. apply operation_holds; [intros _; exact Jc|done..].
Qed.
End Run.
