(* ===== verification/LatticeDurable.v ===== *)
(** * The guarantees of the SQLite lattice

    Three invariants of [LatticeStore]'s steps.  The committed log only grows and a
    resolved proposal is final whatever statement fails, whoever is cancelled and
    wherever the process dies.  The rows refer to rows in the runs in which
    every connection got to check the foreign keys ([guarded_step]); a failed
    PRAGMA leaves one that does not ([dangling_edge]). *)
From S2P Require Import Prelude PyStr PyDict Floats AuditTrail IsoTime LatticeModels Reputation Governance LatticeGraph LatticeMemory.
From S2P Require Import LatticeLog LatticeSqlite LatticeStore.
From Stdlib Require Import SpecFloat.

(** ** The rows refer to rows *)

Definition ballots (t : Tables) : list (string * string) := map (fun v => (vote_proposal (vr_vote v), voter_id (vr_vote v))) (t_votes t).

(** Ids are keys; an edge's ends are nodes, a vote's proposal is a proposal, and a
    voter has one vote on it. *)
Record linked (t : Tables) : Prop := {
  one_node : NoDup (dkeys (t_nodes t));
  one_edge : NoDup (dkeys (t_edges t));
  one_event : NoDup (map event_id (t_events t));
  one_proposal : NoDup (dkeys (t_proposals t));
  one_reputation : NoDup (dkeys (t_reputations t));
  ends_are_nodes e : e ∈ dvalues (t_edges t) -> source_id e ∈ dkeys (t_nodes t) /\ target_of e ∈ dkeys (t_nodes t);
  votes_have_proposal v : v ∈ t_votes t -> vote_proposal (vr_vote v) ∈ dkeys (t_proposals t);
  one_ballot : NoDup (ballots t);
}.

(** The tables are linked, and the connection checks the foreign keys. *)
Definition both_linked (c : Connection) (v d : Tables) : Prop := c <> Open false /\ linked v /\ linked d.

Lemma both_enforced c v d : both_linked c v d -> enforced c = true.
Proof. destruct c as [|[]|]; [done|done|by intros [? _]|done]. Qed.

Lemma dmem_true {V} k (d : list (string * V)) : dmem k d = true <-> k ∈ dkeys d.
Proof. unfold dmem. rewrite <- dget_is_Some_keys. destruct (dget k d); split; [done|done|done|by intros []]. Qed.

Lemma dmem_false {V} k (d : list (string * V)) : dmem k d = false <-> k ∉ dkeys d.
Proof. rewrite <- dmem_true. by destruct (dmem k d). Qed.

Lemma NoDup_snoc {A} (l : list A) x : NoDup l -> x ∉ l -> NoDup (l ++ [x]).
Proof.
  intros Hl Hx. apply NoDup_app. split; [done|]. split; [|apply NoDup_singleton].
  intros y Hy ->%list_elem_of_singleton. contradiction.
Qed.

Lemma NoDup_map_filter {A B} (f : A -> B) p l : NoDup (map f l) -> NoDup (map f (List.filter p l)).
Proof.
  induction l as [|x l IH]; cbn; [done|]. intros [Hx Hl]%NoDup_cons. destruct (p x); [|by apply IH].
  cbn. apply NoDup_cons. split; [|by apply IH]. intros Hin. apply Hx.
  apply list_elem_of_In, in_map_iff in Hin as (y & <- & Hy%List.filter_In). apply list_elem_of_In, in_map, Hy.
Qed.

Lemma existsb_false {A} (p : A -> bool) l : existsb p l = false <-> forall x, x ∈ l -> p x = false.
Proof.
  split.
  - intros H x Hx. destruct (p x) eqn:E; [|done]. rewrite <- H. symmetry. apply existsb_exists. exists x. by rewrite <- list_elem_of_In.
  - intros H. apply not_true_is_false. intros (x & Hx%list_elem_of_In & E)%existsb_exists. by rewrite H in E.
Qed.

(** A key set that is kept and a change that only concerns the values *)
Lemma dkeys_map_values {V} (f : string * V -> V) (d : list (string * V)) : dkeys (map (fun x => (x.1, f x)) d) = dkeys d.
Proof. unfold dkeys. rewrite map_map. by apply map_ext. Qed.

Lemma dkeys_status pid st (d : list (string * ProposalRow)) :
  dkeys (map (fun x => if String.eqb x.1 pid then (x.1, with_pr_status st x.2) else x) d) = dkeys d.
Proof. unfold dkeys. rewrite map_map. apply map_ext. intros [k v]. cbn. by destruct (String.eqb k pid). Qed.

Lemma dvalues_app {V} (d d' : list (string * V)) : dvalues (d ++ d') = dvalues d ++ dvalues d'.
Proof. apply map_app. Qed.

Lemma elem_dvalues_filter {V} (p : V -> bool) (d : list (string * V)) v :
  v ∈ dvalues (List.filter (fun x => p x.2) d) <-> v ∈ dvalues d /\ p v = true.
Proof.
  unfold dvalues. rewrite !list_elem_of_In, !in_map_iff. split.
  - intros (x & <- & [Hx Hp]%List.filter_In). split; [by exists x|done].
  - intros [(x & <- & Hx) Hp]. exists x. split; [done|]. by apply List.filter_In.
Qed.

Lemma dkeys_filter_incl {V} (p : string * V -> bool) (d : list (string * V)) : NoDup (dkeys d) -> NoDup (dkeys (List.filter p d)).
Proof. apply NoDup_map_filter. Qed.

(** Each statement keeps [linked]. *)
Ltac fields := constructor; unfold ballots; cbn [t_nodes t_edges t_events t_proposals t_votes t_reputations t_vectors].
Ltac statement := intros cn v d a v' (Hc & Hv & Hd) HF H; split; [|done]; split; [done|]; split; [|done].
Ltac statement_fk := intros cn v d a v' HJ HF H; rewrite (both_enforced _ _ _ HJ) in H; revert a v' HF H;
  destruct HJ as (Hc & Hv & Hd); intros a v' HF H; split; [|done]; split; [done|]; split; [|done].

Lemma insert_node_linked n : keeps both_linked any any (insert_node n).
Proof.
  statement. unfold insert_node in H. destruct (dmem (node_id n) (t_nodes v)) eqn:E; [done|]. inversion H; subst. clear H.
  apply dmem_false in E. fields; try apply Hv.
  - unfold dkeys. rewrite map_app. apply NoDup_snoc; [apply Hv|done].
  - intros e He. destruct (ends_are_nodes v Hv e He). unfold dkeys. rewrite map_app, !elem_of_app. auto.
Qed.

Lemma set_node_linked n : keeps both_linked any any (set_node n).
Proof.
  statement. inversion H; subst. clear H.
  assert (Hk : dkeys (if dmem (node_id n) (t_nodes v) then dset (node_id n) n (t_nodes v) else t_nodes v) = dkeys (t_nodes v)).
  { destruct (dmem _ _) eqn:E; [|done]. by apply dkeys_dset_mem, dmem_true. }
  fields; rewrite ?Hk; apply Hv.
Qed.

Lemma drop_edges_linked p : keeps both_linked any any (drop_edges p).
Proof.
  statement. inversion H; subst. clear H. fields; try apply Hv.
  - apply dkeys_filter_incl, Hv.
  - intros e [He _]%(elem_dvalues_filter (fun e => negb (p e))). by apply Hv.
Qed.

Lemma drop_node_linked nid : keeps_fk both_linked any any (drop_node nid).
Proof.
  statement_fk. unfold drop_node in H. cbn [andb] in H. destruct (existsb _ _ && _) eqn:E; [done|]. inversion H; subst. clear H.
  fields; try apply Hv; [by apply NoDup_dkeys_ddel, Hv|].
  intros e He. destruct (ends_are_nodes v Hv e He) as [Hs Ht]. rewrite !elem_of_dkeys_ddel.
  assert (Hn : touches nid e = true -> nid ∈ dkeys (t_nodes v) -> False).
  { intros Htouch Hin%dmem_true. rewrite Hin, andb_true_r in E.
    unfold dvalues in He. apply list_elem_of_In, in_map_iff in He as (x & <- & Hx%list_elem_of_In).
    apply existsb_false with (x := x) in E; [congruence|done]. }
  unfold touches in Hn. rewrite orb_true_iff, !String.eqb_eq in Hn.
  split; (split; [|done]); intros Heq; apply Hn; rewrite <- ?Heq; auto.
Qed.

Lemma insert_edge_linked e : keeps_fk both_linked any any (insert_edge e).
Proof.
  statement_fk. unfold insert_edge in H. cbn [andb] in H. destruct (dmem (edge_id e) _ || _) eqn:E; [done|]. inversion H; subst. clear H.
  apply orb_false_iff in E as [E1%dmem_false [E2 E3]%orb_false_iff]. apply negb_false_iff, dmem_true in E2, E3.
  fields; try apply Hv.
  - unfold dkeys. rewrite map_app. apply NoDup_snoc; [apply Hv|done].
  - intros x. rewrite dvalues_app, elem_of_app. intros [Hx| ->%list_elem_of_singleton]; [by apply Hv|done].
Qed.

Lemma insert_event_linked e : keeps both_linked any any (insert_event e).
Proof.
  statement. unfold insert_event in H. destruct (existsb _ _) eqn:E; [done|]. inversion H; subst. clear H.
  fields; try apply Hv. rewrite map_app. apply NoDup_snoc; [apply Hv|].
  intros Hin. apply list_elem_of_In, in_map_iff in Hin as (r & Hr & Hin%list_elem_of_In).
  apply existsb_false with (x := r) in E; [|done]. by rewrite Hr, String.eqb_refl in E.
Qed.

Lemma insert_proposal_linked p : keeps both_linked any any (insert_proposal p).
Proof.
  statement. unfold insert_proposal in H. destruct (_ || _) eqn:E; [done|]. inversion H; subst. clear H.
  apply orb_false_iff in E as [E%dmem_false _]. fields; try apply Hv.
  - unfold dkeys. rewrite map_app. apply NoDup_snoc; [apply Hv|done].
  - intros x Hx. unfold dkeys. rewrite map_app, elem_of_app. left. by apply Hv.
Qed.

Lemma resolve_linked pid st : keeps both_linked (open_in pid) any (set_proposal_status pid st).
Proof. statement. inversion H; subst. clear H. fields; rewrite ?dkeys_status; apply Hv. Qed.

Lemma drop_ballots_linked pid voter : keeps both_linked (open_in pid) any (drop_ballots pid voter).
Proof.
  statement. inversion H; subst. clear H. fields; try apply Hv.
  - intros x [_ Hx]%elem_of_filter_bool. by apply Hv.
  - apply NoDup_map_filter, Hv.
Qed.

Lemma insert_vote_linked pid voter r : vote_proposal (vr_vote r) = pid -> voter_id (vr_vote r) = voter ->
  keeps_fk both_linked (without_ballot pid voter) any (insert_vote r).
Proof.
  intros <- <-. statement_fk. unfold insert_vote in H. cbn [andb] in H. destruct (_ || _) eqn:E; [done|]. inversion H; subst. clear H.
  apply orb_false_iff in E as [[_ E%negb_false_iff%dmem_true]%orb_false_iff _]. destruct HF as [_ Hno].
  fields; try apply Hv.
  - intros x. rewrite elem_of_app. intros [Hx| ->%list_elem_of_singleton]; [by apply Hv|done].
  - rewrite map_app. apply NoDup_snoc; [apply Hv|].
    intros (x & Hx & Hin)%list_elem_of_In%in_map_iff. apply list_elem_of_In, Hno in Hin. unfold ballot_of in Hin.
    inversion Hx as [[H1 H2]]. by rewrite H1, H2, !String.eqb_refl in Hin.
Qed.

Lemma reputation_linked r : keeps both_linked any any (upsert_reputation r).
Proof.
  statement. unfold upsert_reputation in H. destruct (is_nan _); [done|]. inversion H; subst. clear H.
  fields; try apply Hv. by apply NoDup_dkeys_dset, Hv.
Qed.

Lemma vector_linked vid r : keeps both_linked any any (upsert_vector_row vid r).
Proof. statement. inversion H; subst. by fields; apply Hv. Qed.

Lemma drop_vectors_linked c vids : keeps both_linked any any (drop_vectors c vids).
Proof. statement. inversion H; subst. by fields; apply Hv. Qed.

Lemma laws_linked : Laws both_linked.
Proof.
  constructor; auto using insert_node_linked, set_node_linked, drop_edges_linked, drop_node_linked, insert_edge_linked, insert_event_linked,
    insert_proposal_linked, resolve_linked, drop_ballots_linked, insert_vote_linked, reputation_linked, vector_linked, drop_vectors_linked.
Qed.

(** ** The committed log *)

(** The view extends the committed log, which extends [l]. *)
Definition log_grows (l : list LatticeEvent) (v d : Tables) : Prop :=
  l `prefix_of` t_events d /\ t_events d `prefix_of` t_events v.

Lemma keeps_events F l (f : dml unit) : (forall t a t', f t = Ok (a, t') -> t_events t `prefix_of` t_events t') -> keeps (fun _ => log_grows l) F any f.
Proof. intros Hf c v d a v' [H1 H2] _ H. split; [|done]. split; [done|]. etrans; [exact H2|by eapply Hf]. Qed.

Lemma keeps_events_fk F l (f : bool -> dml unit) :
  (forall fk t a t', f fk t = Ok (a, t') -> t_events t `prefix_of` t_events t') -> keeps_fk (fun _ => log_grows l) F any f.
Proof. intros Hf c. exact (keeps_events F l (f (enforced c)) (Hf (enforced c)) c). Qed.

Lemma laws_log l : Laws (fun _ => log_grows l).
Proof.
  constructor; intros; first [apply keeps_events | apply keeps_events_fk; intros fk]; intros tt0 a0 tt1 HH;
    unfold insert_node, drop_node, insert_edge, insert_event, insert_proposal, insert_vote, upsert_reputation in HH;
    try match type of HH with (if ?b then _ else _) = _ => destruct b; [done|] end; inversion HH; subst; cbn [t_events];
    first [done|by apply prefix_app_r].
Qed.

(** ** Resolved proposals *)

Definition votes_for (pid : string) (t : Tables) : list VoteRow :=
  List.filter (fun v => String.eqb (vote_proposal (vr_vote v)) pid) (t_votes t).

(** A proposal resolved on disk is the same in the view, ballots included. *)
Definition settled (v d : Tables) : Prop :=
  forall pid p, dget pid (t_proposals d) = Some p -> pr_status p <> "open"%string ->
  dget pid (t_proposals v) = Some p /\ votes_for pid v = votes_for pid d.

Definition settled_as (pid : string) (p : ProposalRow) (vs : list VoteRow) (v d : Tables) : Prop :=
  settled v d /\ dget pid (t_proposals d) = Some p /\ votes_for pid d = vs.

Lemma keeps_settled F (f : dml unit) :
  (forall v a v' pid p, F v -> f v = Ok (a, v') -> dget pid (t_proposals v) = Some p -> pr_status p <> "open"%string ->
     dget pid (t_proposals v') = Some p /\ votes_for pid v' = votes_for pid v) ->
  keeps (fun _ => settled) F any f.
Proof.
  intros Hf c v d a v' Hs HF H. split; [|done]. intros pid p Hp Ho. destruct (Hs pid p Hp Ho) as [Hv Hvotes].
  destruct (Hf v a v' pid p HF H Hv Ho) as [H1 H2]. split; [done|congruence].
Qed.

Lemma keeps_settled_fk F (f : bool -> dml unit) :
  (forall fk v a v' pid p, F v -> f fk v = Ok (a, v') -> dget pid (t_proposals v) = Some p -> pr_status p <> "open"%string ->
     dget pid (t_proposals v') = Some p /\ votes_for pid v' = votes_for pid v) ->
  keeps_fk (fun _ => settled) F any f.
Proof. intros Hf c. exact (keeps_settled F (f (enforced c)) (Hf (enforced c)) c). Qed.

Lemma dget_status pid pid' st d : pid <> pid' ->
  dget pid (map (fun x => if String.eqb x.1 pid' then (x.1, with_pr_status st x.2) else x) d) = dget pid d.
Proof.
  intros Hne. induction d as [|[k v] d IH]; cbn; [done|]. destruct (String.eqb_spec k pid') as [->|_]; cbn; rewrite IH;
    destruct (decide _); congruence.
Qed.

Lemma filter_filter_other {A} (p q : A -> bool) l : (forall x, p x = true -> q x = true) -> List.filter p (List.filter q l) = List.filter p l.
Proof.
  intros H. induction l as [|x l IH]; cbn; [done|]. destruct (q x) eqn:E; cbn; [by rewrite IH|].
  destruct (p x) eqn:Ep; [by rewrite H in E|done].
Qed.

(** An open proposal is not a resolved one. *)
Lemma open_other pid pid' p t : open_in pid' t -> dget pid (t_proposals t) = Some p -> pr_status p <> "open"%string -> pid <> pid'.
Proof. intros (q & Hq & Ho) Hp Hne ->. congruence. Qed.

Lemma laws_settled : Laws (fun _ => settled).
Proof.
  constructor; intros; first [apply keeps_settled | apply keeps_settled_fk; intros fk]; intros v0 a0 v1 pid0 p0 HF HH Hp Ho;
    unfold insert_node, drop_node, insert_edge, insert_event, insert_proposal, insert_vote, upsert_reputation in HH;
    try match type of HH with (if ?b then _ else _) = _ => destruct b eqn:E; [done|] end; inversion HH; subst; cbn [t_proposals t_votes];
    try done.
  - split; [|done]. by rewrite dget_app, Hp.
  - split; [|done]. rewrite dget_status; [done|by eapply open_other].
  - split; [done|]. apply filter_filter_other. intros x Hx%String.eqb_eq. unfold ballot_of.
    rewrite (proj2 (String.eqb_neq _ _)); [done|]. rewrite Hx. by eapply open_other.
  - split; [done|]. unfold votes_for. cbn [t_votes]. rewrite List.filter_app. cbn.
    rewrite (proj2 (String.eqb_neq _ _)); [by rewrite app_nil_r|]. apply not_eq_sym. eapply open_other; [apply HF|done|done].
Qed.

Lemma laws_settled_as pid p vs : Laws (fun _ => settled_as pid p vs).
Proof.
  assert (H : forall F F' (f : dml unit), keeps (fun _ => settled) F F' f -> keeps (fun _ => settled_as pid p vs) F F' f).
  { intros F F' f Hf c v d a v' [Hs Hd] HF H. destruct (Hf c v d a v' Hs HF H) as [Hs' HF']. done. }
  assert (Hfk : forall F F' (f : bool -> dml unit), keeps_fk (fun _ => settled) F F' f -> keeps_fk (fun _ => settled_as pid p vs) F F' f).
  { intros F F' f Hf c. apply (H F F' (f (enforced c)) (fun c' => Hf c) c). }
  constructor; intros; first [apply H | apply Hfk]; by apply laws_settled.
Qed.

(** ** Runs of the store *)

Section Runs.
Context (clock : nat -> Z) (uuid : nat -> string) (fates : nat -> fate)
        (scan : forall A, list A -> list A) (json_match : string * value -> dict -> result bool).

(** A process that has not opened the file [d] *)
Definition at_rest (d : Tables) (n m k : nat) : Database := mk_Database d d Closed n m k.

Abbreviation run := (rtc (sqlite_step clock uuid fates scan json_match)).

Definition run_sqlite_ops (ops : list sqlite_op) (s : Database) : Database :=
  fold_left (fun s op => run_sqlite clock uuid fates scan json_match op s) ops s.

Lemma ops_are_steps ops s : run s (run_sqlite_ops ops s).
Proof using. revert s. induction ops as [|op ops IH]; intros s; [done|]. eapply rtc_l; [apply sqlite_run|apply IH]. Qed.

Lemma run_holds J s s' : (forall v d, J v d -> J v v) -> (forall v d, J v d -> J d d) -> Laws (fun _ => J) -> run s s' ->
  holds (fun _ => J) s -> holds (fun _ => J) s'.
Proof using. intros Hc Hl HL Hrun. eapply (rtc_invariant _ (holds (fun _ => J))); [|exact Hrun]. intros x y Hxy Hx. by eapply step_holds. Qed.

(** *** Runs that check the foreign keys

    No operation but those that open and close starts on a connection whose PRAGMA
    never ran. *)
Inductive guarded_step : Database -> Database -> Prop :=
| guarded_run op s : lifecycle op = true \/ conn s <> Open false ->
    guarded_step s (run_sqlite clock uuid fates scan json_match op s)
| guarded_died s n m : guarded_step s (at_rest (disk s) (issued s) n m).

Definition linked_pair (v d : Tables) : Prop := linked v /\ linked d.

Lemma guarded_holds s s' : guarded_step s s' -> holds (fun _ => linked_pair) s -> holds (fun _ => linked_pair) s'.
Proof using.
  intros [op s0 Hop|s0 n m] Hs; [|by destruct Hs].
  destruct (lifecycle op) eqn:Hl; [apply lifecycle_holds; [by intros v d []|by intros v d []|done|done]|].
  destruct Hop as [?|Hc]; [done|].
  assert (holds both_linked (run_sqlite clock uuid fates scan json_match op s0)) as (_ & Hv & Hd); [|by split].
  apply operation_holds; [by intros c v d (? & ? & ?)|apply laws_linked|done|]. by destruct Hs.
Qed.

(** After its PRAGMA a connection checks the foreign keys. *)
Abbreviation checking s := (conn s <> Open false).
Abbreviation leads K K' m := (triple (fun _ : Database => True) K K' m).

Lemma enforce_checking : leads (fun _ => True) (fun s => checking s) (enforce fates).
Proof using. intros s _. unfold wp, enforce. destruct (conn s); [| |done]; by destruct (fates (issued s)). Qed.

Lemma no_op_checking : leads (fun s => checking s) (fun s => checking s) (no_op fates).
Proof using.
  intros s Hs. unfold wp, no_op, select, execute. destruct (conn s) eqn:Hc; [| |done]; destruct (fates (issued s)); cbn; by rewrite ?Hc.
Qed.

Lemma commit_checking : leads (fun s => checking s) (fun s => checking s) (commit fates).
Proof using.
  intros s Hs. unfold wp, commit. destruct (conn s) eqn:Hc; [| |done]; destruct (fates (issued s)); cbn; by rewrite ?Hc.
Qed.

Lemma anything {A} (m : py Database A) K : leads K (fun _ => True) m.
Proof using. intros s _. unfold wp. by destruct (m s) as [[a|e] s']. Qed.

Lemma started_checking : leads (fun s => checking s) (fun s => checking s) (_ ← open_locked fates; migrate_locked clock fates).
Proof using.
  apply (triple_bind _ _ (fun s => checking s)).
  - intros s Hs.
    change (wp (if bool_decide (conn s = Closed) then _ ← connect fates; _ ← no_op fates; _ ← enforce fates; commit fates else mret tt)
      (fun _ s => checking s) (fun _ _ => True) s).
    destruct (bool_decide _); [|done]. revert s Hs.
    match goal with |- forall s, _ -> wp ?m _ _ s => change (leads (fun s => checking s) (fun s => checking s) m) end.
    eapply triple_bind; [apply anything|]. intros _. eapply triple_bind; [apply anything|]. intros _.
    eapply triple_bind; [apply enforce_checking|]. intros _. apply commit_checking.
  - intros _. unfold migrate_locked. apply (triple_bind _ _ (fun s => checking s)).
    { generalize (seq 0 SCHEMA_STATEMENTS). intros l. induction l as [|x l IH]; [apply triple_ret|]. cbn.
      eapply triple_bind; [apply no_op_checking|]. intros y. eapply triple_bind; [exact IH|]. intros ys. apply triple_ret. }
    intros _. apply (triple_bind _ _ (fun s => checking s)); [by intros s Hs|]. intros _.
    eapply triple_bind; [apply no_op_checking|]. intros _. apply commit_checking.
Qed.

(** A start leaves a connection without foreign keys only when it fails and the
    closing of its clean-up, its last statement, fails too. *)
Lemma initialize_checking s r s' : checking s -> initialize clock fates s = (r, s') -> conn s' = Open false ->
  (exists e, r = Err e) /\ exists e, fates (pred (issued s')) = Refused e.
Proof using.
  intros Hs. unfold initialize, wrapped, catch_exception, catch. pose proof (started_checking s Hs) as Hb. unfold wp in Hb.
  destruct ((_ ← open_locked fates; migrate_locked clock fates) s) as [[u|e] s1]; [by intros [= <- <-] ?|]. clear Hb.
  rewrite bind_run. unfold cleanup.
  destruct (conn s1) as [|fk|] eqn:Hc; [|destruct (fates (issued s1)) as [|e1|] eqn:Hf|];
    cbn; destruct (bool_decide (e = CancelledError)); intros [= <- <-]; cbn; rewrite ?Hc; intros Hx; try done; eauto.
Qed.


(** The committed event log of the SQLite lattice is append-only: whatever
    happens after a commit, the events it made durable are a prefix of those on disk. *)
Theorem committed_log_grows d n m k s1 s2 : run (at_rest d n m k) s1 -> run s1 s2 -> t_events (disk s1) `prefix_of` t_events (disk s2).
Proof using.
  assert (Hc : forall l v d', log_grows l v d' -> log_grows l v v) by (intros l v d' [H1 H2]; split; [by etrans|done]).
  assert (Hl : forall l v d', log_grows l v d' -> log_grows l d' d') by (intros l v d' [H1 H2]; by split).
  intros H1 H2. apply (run_holds (log_grows []) _ s1) in H1; [|by eauto|by eauto|apply laws_log|split; [apply prefix_nil|done]].
  apply (run_holds (log_grows (t_events (disk s1))) _ s2) in H2; [apply H2|by eauto|by eauto|apply laws_log|]. split; [done|apply H1].
Qed.

(** C33: A proposal the SQLite lattice has committed as resolved is final: after any
    later operations, failures and restarts its row and the ballots on it are
    those on disk now. *)
Theorem committed_resolution_is_final d n m k s1 s2 pid p : run (at_rest d n m k) s1 -> run s1 s2 ->
  dget pid (t_proposals (disk s1)) = Some p -> pr_status p <> "open"%string ->
  dget pid (t_proposals (disk s2)) = Some p /\ votes_for pid (disk s2) = votes_for pid (disk s1).
Proof using.
  assert (Hself : forall t, settled t t) by by split.
  assert (Hcommit : forall pid p vs v d', pr_status p <> "open"%string -> settled_as pid p vs v d' -> settled_as pid p vs v v).
  { intros pid0 p0 vs v d' Ho (Hs & Hp & <-). destruct (Hs pid0 p0 Hp Ho) as [Hv Hvotes]. done. }
  intros H1 H2 Hp Ho. apply (run_holds settled _ s1) in H1; [|by eauto|by eauto|apply laws_settled|apply Hself].
  apply (run_holds (settled_as pid p (votes_for pid (disk s1))) _ s2) in H2; [apply H2|by eauto| |apply laws_settled_as|done].
  intros v d' (_ & Hd). split; [apply Hself|exact Hd].
Qed.
End Runs.

(** ** A run with faults *)

Definition demo_clock (n : nat) : Z := 1700000000000000 + Z.of_nat n.
Definition demo_uuid (n : nat) : string := String.concat "" (repeat "i"%string n).
(** The statement 43 fails, the caller of 48 is cancelled. *)
Definition demo_fates (n : nat) : fate := if Nat.eqb n 43 then Refused RuntimeError else if Nat.eqb n 48 then Abandoned else Done.
Definition demo_scan (A : Type) (l : list A) : list A := l.
Definition demo_match (f : string * value) (d : dict) : result bool := Ok false.

Abbreviation demo ops s := (run_sqlite_ops demo_clock demo_uuid demo_fates demo_scan demo_match ops s).

Definition demo_start : Database := at_rest no_tables 0 0 0.
(** A graph of two nodes, and a proposal the user passes *)
Definition demo_first : Database :=
  demo [SInitialize; SCreateNode AGENT [] "a"; SCreateNode TASK [] "a"; SAddEdge "" "ii" DEPENDS_ON [] "a"; SSubmit "a" "deploy" [] f_half 60; SVote "user" "iiiiii" "approve" None]
    demo_start.
(** Later work, some of which fails *)
Definition demo_later : Database :=
  demo [SVote "b" "iiiiii" "deny" None; SAddEdge "" "ii" DEPENDS_ON [] "a"; SCreateNode TASK [] "a"; SCreateNode TASK [] "a"; SDeleteNode "" "a"] demo_first.

Lemma linked_nothing : linked no_tables.
Proof. constructor; cbn; try apply NoDup_nil_2; by intros x Hx%not_elem_of_nil. Qed.

(** The first steps of that run *)
Abbreviation demo_do op s := (run_sqlite demo_clock demo_uuid demo_fates demo_scan demo_match op s).
Abbreviation demo_guarded := (guarded_run demo_clock demo_uuid demo_fates demo_scan demo_match).

Definition demo_opened : Database := demo_do SInitialize demo_start.
Definition demo_node : Database := demo_do (SCreateNode AGENT [] "a") demo_opened.
Definition demo_nodes : Database := demo_do (SCreateNode TASK [] "a") demo_node.
Definition demo_edge : Database := demo_do (SAddEdge "" "ii" DEPENDS_ON [] "a") demo_nodes.

Definition checks (s : Database) : bool := match conn s with Open false => false | _ => true end.

Lemma checks_open s : checks s = true -> conn s <> Open false.
Proof. unfold checks. by destruct (conn s) as [|[]|]. Qed.


(** [_db] is set before the PRAGMA runs: after a [migrate] whose PRAGMA failed, or
    whose connecting was cancelled, the next one finds the connection open and
    returns early, and edges to nodes that do not exist are committed. *)
Definition pragma_refused (n : nat) : fate := if Nat.eqb n 2 then Refused RuntimeError else Done.
Definition connect_abandoned (n : nat) : fate := if Nat.eqb n 0 then Abandoned else Done.

Example dangling_edge :
  let after_migrating fates := run_sqlite_ops demo_clock demo_uuid fates demo_scan demo_match
        [SMigrate; SMigrate; SAddEdge "x" "y" DEPENDS_ON [] "a"] (at_rest no_tables 0 0 0) in
  (length (t_edges (disk (after_migrating pragma_refused))), length (t_nodes (disk (after_migrating pragma_refused)))) = (1, 0) /\
  (length (t_edges (disk (after_migrating connect_abandoned))), length (t_nodes (disk (after_migrating connect_abandoned)))) = (1, 0) /\
  length (t_edges (disk (after_migrating (fun _ => Done)))) = 0.
Proof. vm_compute. repeat split. Qed.

Lemma committed_log_grows_witness :
  map event_type (t_events (disk demo_first)) = ["node_created"; "node_created"; "edge_added"; "proposal_submitted"; "vote_cast"; "proposal_resolved"]%string /\
  map event_type (drop 6 (t_events (disk demo_later))) = ["node_created"; "node_created"; "node_deleted"]%string /\
  t_events (disk demo_first) `prefix_of` t_events (disk demo_later).
Proof.
  split; [vm_compute; reflexivity|]. split; [vm_compute; reflexivity|].
  apply (committed_log_grows demo_clock demo_uuid demo_fates demo_scan demo_match no_tables 0 0 0 demo_first demo_later); apply ops_are_steps.
Defined.

Lemma committed_resolution_is_final_witness : exists p, pr_status p = "passed"%string /\
  dget "iiiiii"%string (t_proposals (disk demo_later)) = Some p /\ length (votes_for "iiiiii" (disk demo_later)) = 1.
Proof.
  destruct (dget "iiiiii"%string (t_proposals (disk demo_first))) as [p|] eqn:E; [|vm_compute in E; discriminate E].
  assert (Hp : pr_status p = "passed"%string) by (vm_compute in E; injection E as <-; reflexivity).
  exists p. split; [exact Hp|].
  destruct (committed_resolution_is_final demo_clock demo_uuid demo_fates demo_scan demo_match no_tables 0 0 0 demo_first demo_later "iiiiii" p)
    as [H1 H2]; [apply ops_are_steps|apply ops_are_steps|exact E|rewrite Hp; discriminate|].
  split; [exact H1|]. rewrite H2. vm_compute. reflexivity.
Defined.

(** *** Torn writes: a failed operation's writes are committed by the next one. *)

Definition torn_fates (n : nat) : fate := if Nat.eqb n 21 then Refused RuntimeError else Done.

Example torn_write :
  let s := run_sqlite_ops demo_clock demo_uuid torn_fates demo_scan demo_match
             [SInitialize; SCreateNode AGENT [] "a"; SCreateNode TASK [] "a"] (at_rest no_tables 0 0 0) in
  (create_node demo_clock demo_uuid torn_fates AGENT [] "a" (run_sqlite_ops demo_clock demo_uuid torn_fates demo_scan demo_match [SInitialize]
     (at_rest no_tables 0 0 0))).1 = Err RuntimeError /\
  length (t_nodes (disk s)) = 2 /\ map event_type (t_events (disk s)) = ["node_created"]%string.
Proof. vm_compute. repeat split. Qed.

(** Ratings are not bounded here: a score leaves [0, 1] and reading it raises. *)
Example rating_unbounded :
  let s := run_sqlite_ops demo_clock demo_uuid (fun _ => Done) demo_scan demo_match
             [SInitialize; SReputation "a" true (Some (fadd f_one f_one))] (at_rest no_tables 0 0 0) in
  option_map score (dget "a"%string (t_reputations (disk s))) <> None /\
  (get_reputation demo_clock (fun _ => Done) "a" s).1 = Err RuntimeError.
Proof. vm_compute. by split. Qed.

(** The quorum is not validated: at quorum zero a vote against passes the proposal. *)
Example zero_quorum :
  let s := run_sqlite_ops demo_clock demo_uuid (fun _ => Done) demo_scan demo_match
             [SInitialize; SSubmit "a" "deploy" [] f_zero 60; SVote "user" "" "deny" None] (at_rest no_tables 0 0 0) in
  option_map pr_status (dget ""%string (t_proposals (disk s))) = Some "passed"%string.
Proof. vm_compute. reflexivity. Qed.
