(* ===== verification/LatticeCommitted.v ===== *)
(** * The committed graph is what the committed log replays to

    Of [LatticeSqlite], when no operation starts over the writes of one that
    failed half-way (a torn write, [LatticeDurable.torn_write], is such a start). *)
From S2P Require Import Prelude PyStr PyDict Floats AuditTrail IsoTime LatticeModels Reputation Governance LatticeGraph LatticeMemory.
From S2P Require Import LatticeLog LatticeSqlite LatticeStore LatticeDurable.
From Stdlib Require Import SpecFloat.

(** ** Tables and their log *)

Definition graph_of (t : Tables) : Shape := shape_of (t_nodes t) (t_edges t).

(** Edges are stored under their ids. *)
Definition own_keys (t : Tables) : Prop := forall k e, (k, e) ∈ t_edges t -> k = edge_id e.

Definition logged (t : Tables) : Prop := own_keys t /\ graph_of t = replay (t_events t).

(** The graph is one event ahead of the log. *)
Definition owes (ty target : string) (pay : dict) (t : Tables) : Prop :=
  own_keys t /\ forall e, event_type e = ty -> target_id e = target -> payload e = pay -> graph_of t = apply_event (replay (t_events t)) e.

(** The edges of [nid] are gone, [nid] is not. *)
Definition unlinked (nid : string) (t : Tables) : Prop :=
  own_keys t /\
  graph_of t = mk_Shape (sh_nodes (replay (t_events t)))
    (List.filter (fun x => negb (String.eqb x.2.1.1 nid || String.eqb x.2.1.2 nid)) (sh_edges (replay (t_events t)))).

Definition disk_logged (c : Connection) (v d : Tables) : Prop := logged d.

(** *** Statements *)

Lemma map_snoc {A B} (f : A -> B) l x : map f (l ++ [x]) = map f l ++ [f x].
Proof. apply map_app. Qed.

Lemma dkeys_shape {V V'} (f : V -> V') (d : list (string * V)) : dkeys (map (fun x => (x.1, f x.2)) d) = dkeys d.
Proof. unfold dkeys. by rewrite map_map. Qed.

Lemma insert_node_owes n pay : keeps disk_logged logged (owes "node_created" (node_id n) pay) (insert_node n).
Proof.
  intros c v d a v' Hd [Hk Hg] H. split; [done|]. unfold insert_node in H. destruct (dmem _ _) eqn:E; [done|]. inversion H; subst. clear H.
  split; [exact Hk|]. intros e E1 E2 _. unfold apply_event. rewrite E1, E2. cbn [String.eqb Ascii.eqb Bool.eqb t_events].
  rewrite <- Hg. unfold graph_of, shape_of. cbn [t_nodes t_edges sh_nodes sh_edges]. f_equal. rewrite map_snoc. symmetry.
  apply dset_absent. rewrite (dkeys_shape (fun _ => tt)). by apply dmem_false.
Qed.

Lemma set_node_logged n : keeps disk_logged logged logged (set_node n).
Proof.
  intros c v d a v' Hd [Hk Hg] H. split; [done|]. inversion H; subst. clear H. split; [exact Hk|]. cbn [t_events]. rewrite <- Hg.
  unfold graph_of, shape_of. cbn [t_nodes t_edges]. f_equal. destruct (dmem _ _) eqn:E; [|done].
  rewrite (map_dset (fun _ => tt)). apply dset_same. apply dmem_true, dget_is_Some_keys in E as [m Hm].
  revert Hm. induction (t_nodes v) as [|[k x] l IH]; cbn; [done|]. destruct (decide _); [done|apply IH].
Qed.

Lemma drop_incident nid : keeps disk_logged logged (unlinked nid) (drop_edges (touches nid)).
Proof.
  intros c v d a v' Hd [Hk Hg] H. split; [done|]. inversion H; subst. clear H. split.
  - intros k e [_ Hin]%elem_of_filter_bool. by apply Hk.
  - cbn [t_events]. rewrite <- Hg. unfold graph_of, shape_of. cbn [t_nodes t_edges sh_nodes sh_edges]. f_equal. by rewrite filter_map_comm.
Qed.

Lemma drop_node_owes nid pay : keeps_fk disk_logged (unlinked nid) (owes "node_deleted" nid pay) (drop_node nid).
Proof.
  intros c v d a v' Hd [Hk Hg] H. split; [done|]. unfold drop_node in H. destruct (_ && _); [done|]. inversion H; subst. clear H.
  split; [exact Hk|]. intros e E1 E2 _. unfold apply_event. rewrite E1, E2. cbn [String.eqb Ascii.eqb Bool.eqb t_events].
  unfold graph_of, shape_of in *. cbn [t_nodes t_edges]. rewrite (map_ddel (fun _ => tt)). by injection Hg as -> ->.
Qed.

Lemma insert_edge_owes e pay : str_or_empty "source_id" pay = source_id e -> str_or_empty "target_id" pay = target_of e ->
  str_or_empty "edge_type" pay = edge_type_value (edge_type e) ->
  keeps_fk disk_logged logged (owes "edge_added" (edge_id e) pay) (insert_edge e).
Proof.
  intros P1 P2 P3 c v d a v' Hd [Hk Hg] H. split; [done|]. unfold insert_edge in H. destruct (_ || _) eqn:E; [done|].
  inversion H; subst. clear H. apply orb_false_iff in E as [E _].
  split; [intros k x [Hin|[= -> ->]%list_elem_of_singleton]%elem_of_app; [by apply Hk|done]|].
  intros x E1 E2 E3. unfold apply_event. rewrite E1, E2, E3, P1, P2, P3. cbn [String.eqb Ascii.eqb Bool.eqb t_events].
  rewrite <- Hg. unfold graph_of, shape_of. cbn [t_nodes t_edges sh_nodes sh_edges]. f_equal. rewrite map_snoc. symmetry.
  apply dset_absent. rewrite (dkeys_shape edge_shape). by apply dmem_false.
Qed.

Lemma drop_edge_owes eid pay : keeps disk_logged logged (owes "edge_removed" eid pay) (drop_edges (fun x => String.eqb (edge_id x) eid)).
Proof.
  intros c v d a v' Hd [Hk Hg] H. split; [done|]. inversion H; subst. clear H. split.
  - intros k e [_ Hin]%elem_of_filter_bool. by apply Hk.
  - intros e E1 E2 _. unfold apply_event. rewrite E1, E2. cbn [String.eqb Ascii.eqb Bool.eqb t_events]. rewrite <- Hg.
    unfold graph_of, shape_of. cbn [t_nodes t_edges sh_nodes sh_edges]. f_equal. rewrite <- (map_ddel edge_shape). f_equal.
    unfold ddel. apply List.filter_ext_in. intros [k x] Hx%list_elem_of_In%Hk. cbn. subst k. f_equal.
    destruct (String.eqb_spec (edge_id x) eid); symmetry; [by apply bool_decide_eq_true|by apply bool_decide_eq_false].
Qed.

Lemma event_pays ty target pay e : event_type e = ty -> target_id e = target -> payload e = pay ->
  keeps disk_logged (owes ty target pay) logged (insert_event e).
Proof.
  intros E1 E2 E3 c v d a v' Hd [Hk Hg] H. split; [done|]. unfold insert_event in H. destruct (existsb _ _); [done|].
  inversion H; subst. split; [exact Hk|]. cbn [t_events]. rewrite replay_snoc. by apply Hg.
Qed.

Lemma other_event_logged e : graph_event (event_type e) = false -> keeps disk_logged logged logged (insert_event e).
Proof.
  intros He c v d a v' Hd [Hk Hg] H. split; [done|]. unfold insert_event in H. destruct (existsb _ _); [done|].
  inversion H; subst. split; [exact Hk|]. cbn [t_events]. rewrite replay_snoc, other_event by done. exact Hg.
Qed.

(** Statements on the other tables *)
Lemma aside_logged (f : dml unit) :
  (forall v a v', f v = Ok (a, v') -> t_nodes v' = t_nodes v /\ t_edges v' = t_edges v /\ t_events v' = t_events v) ->
  keeps disk_logged logged logged f.
Proof.
  intros Hf c v d a v' Hd [Hk Hg] H. split; [done|]. destruct (Hf _ _ _ H) as (H1 & H2 & H3).
  split; [unfold own_keys; by rewrite H2|unfold graph_of; by rewrite H1, H2, H3].
Qed.

Ltac aside := apply aside_logged; intros v a v' H; cbv beta in H;
  unfold insert_proposal, insert_vote, upsert_reputation in H;
  try match type of H with (if ?b then _ else _) = _ => destruct b; [done|] end; by inversion H.

Lemma insert_proposal_logged p : keeps disk_logged logged logged (insert_proposal p).
Proof. aside. Qed.
Lemma resolve_logged pid st : keeps disk_logged logged logged (set_proposal_status pid st).
Proof. aside. Qed.
Lemma drop_ballots_logged pid voter : keeps disk_logged logged logged (drop_ballots pid voter).
Proof. aside. Qed.
Lemma insert_vote_logged r : keeps_fk disk_logged logged logged (insert_vote r).
Proof.
  assert (forall fk, keeps disk_logged logged logged (insert_vote r fk)) as H by (intros fk; aside).
  intros c. apply (H (enforced c)).
Qed.
Lemma reputation_logged r : keeps disk_logged logged logged (upsert_reputation r).
Proof. aside. Qed.
Lemma vector_logged vid r : keeps disk_logged logged logged (upsert_vector_row vid r).
Proof. aside. Qed.
Lemma drop_vectors_logged c vids : keeps disk_logged logged logged (drop_vectors c vids).
Proof. aside. Qed.

#[local] Hint Resolve set_node_logged insert_proposal_logged resolve_logged drop_ballots_logged insert_vote_logged reputation_logged
  vector_logged drop_vectors_logged : lattice.

(** ** Operations *)

Section Committed.
Context (clock : nat -> Z) (uuid : nat -> string) (fates : nat -> fate)
        (scan : forall A, list A -> list A) (json_match : string * value -> dict -> result bool).

Abbreviation tr F F' := (triple (holds disk_logged) (holds_with disk_logged F) (holds_with disk_logged F')).

Lemma commit_logged : tr logged logged (commit fates).
Proof using.
  intros s [Hj Hf]. unfold wp, commit, holds, holds_with in *. destruct (conn s); [| |done]; (destruct (fates (issued s)); [done|done|exact Hf]).
Qed.

Lemma other_event_triple ty act target pay prior : graph_event ty = false ->
  tr logged logged (append_event clock uuid fates ty act target pay prior).
Proof using. intros H. apply append_event_triple. intros e E _ _. apply other_event_logged. by rewrite E. Qed.

Lemma pays_triple ty act target pay prior : tr (owes ty target pay) logged (append_event clock uuid fates ty act target pay prior).
Proof using. apply append_event_triple. intros e E1 E2 E3. by apply (event_pays ty target pay). Qed.

(** Whatever an operation reads, it goes on from a graph in step with the log. *)
Ltac logs :=
  repeat (cbv zeta; first
    [ apply commit_logged | apply now_triple | apply new_id_triple | apply require_triple
    | apply other_event_triple; reflexivity | apply pays_triple
    | apply select_triple | apply lift_triple | apply raise_triple | apply raise_when_triple | apply triple_ret
    | apply wrapped_triple | apply wrapped_but_triple
    | apply for_each_triple; intros ?
    | apply execute_triple; solve [auto with lattice]
    | apply execute_fk_triple; solve [auto with lattice]
    | match goal with
      | |- triple _ _ _ (if ?b then _ else _) => destruct b
      | |- triple _ _ _ (match ?o with Some _ => _ | None => _ end) => destruct o
      | |- triple _ _ _ (match ?o with inl _ => _ | inr _ => _ end) => destruct o as [?|[? ?]]
      | |- triple _ _ _ (match ?o with [] => _ | _ :: _ => _ end) => destruct o
      end
    | eapply (triple_bind _ _ (holds_with disk_logged logged)); [|intros ?] ]).

(** A statement that runs ahead of the log, and the event it owes *)
Ltac then_pays lemma := eapply triple_bind; [first [apply execute_triple, lemma | apply execute_fk_triple, lemma]|]; intros _; eapply triple_bind; [apply pays_triple|]; intros _.

Lemma create_node_logged ty props act : tr logged logged (create_node clock uuid fates ty props act).
Proof using.
  unfold create_node. apply wrapped_triple. eapply triple_bind; [apply require_triple|]. intros _.
  eapply triple_bind; [apply new_id_triple|]. intros nid. eapply triple_bind; [apply now_triple|]. intros t.
  eapply triple_bind; [apply lift_triple|]. intros p.
  then_pays (insert_node_owes (mk_Node nid ty p t t)). logs.
Qed.

Lemma update_node_logged nid props act : tr logged logged (update_node clock uuid fates nid props act).
Proof using. unfold update_node. logs. Qed.

Lemma delete_node_logged nid act : tr logged logged (delete_node clock uuid fates nid act).
Proof using.
  unfold delete_node. apply wrapped_triple. eapply triple_bind; [apply require_triple|]. intros _.
  eapply triple_bind; [apply select_triple|]. intros [n|]; [|apply triple_ret].
  eapply triple_bind; [apply execute_triple, drop_incident|]. intros _.
  then_pays drop_node_owes. logs.
Qed.

Lemma add_edge_logged source target ty props act : tr logged logged (add_edge clock uuid fates source target ty props act).
Proof using.
  unfold add_edge. apply wrapped_triple. eapply triple_bind; [apply require_triple|]. intros _.
  eapply triple_bind; [apply new_id_triple|]. intros eid. eapply triple_bind; [apply lift_triple|]. intros p.
  eapply triple_bind; [apply now_triple|]. intros t.
  then_pays (insert_edge_owes (mk_Edge eid source target ty p t)
    [("source_id", VStr source); ("target_id", VStr target); ("edge_type", VStr (edge_type_value ty)); ("properties", VDict p)]%string
    eq_refl eq_refl eq_refl). logs.
Qed.

Lemma remove_edge_logged eid act : tr logged logged (remove_edge clock uuid fates eid act).
Proof using.
  unfold remove_edge. apply wrapped_triple. eapply triple_bind; [apply require_triple|]. intros _.
  eapply triple_bind; [apply select_triple|]. intros [e|]; [|apply triple_ret]. then_pays drop_edge_owes. logs.
Qed.

(** *** Operations off the graph *)

Lemma resolve_keeps_log pid st pay : tr logged logged (resolve clock uuid fates pid st pay).
Proof using. unfold resolve. logs. Qed.

Lemma check_quorum_logged pid : tr logged logged (check_quorum clock uuid fates scan pid).
Proof using. unfold check_quorum, expire. repeat (first [apply resolve_keeps_log | apply proposal_row_reads | progress logs]). Qed.

Lemma record_vote_logged voter pid dec ev : tr logged logged (record_vote clock uuid fates voter pid dec ev).
Proof using. unfold record_vote, expire. repeat (first [apply resolve_keeps_log | apply proposal_row_reads | progress logs]). Qed.

Lemma cast_vote_logged voter pid dec ev : tr logged logged (cast_vote clock uuid fates scan voter pid dec ev).
Proof using.
  unfold cast_vote. eapply triple_bind; [apply raise_when_triple|]. intros _. apply wrapped_but_triple.
  eapply triple_bind; [apply record_vote_logged|]. intros b. destruct b; [|apply triple_ret].
  eapply triple_bind; [apply check_quorum_logged|]. intros _. apply triple_ret.
Qed.

Lemma submit_logged proposer ty pay quorum ttl : tr logged logged (submit_proposal clock uuid fates proposer ty pay quorum ttl).
Proof using. unfold submit_proposal. logs. Qed.

Lemma update_reputation_logged aid success rating : tr logged logged (update_reputation clock uuid fates aid success rating).
Proof using. unfold update_reputation, stored_or_new. logs. Qed.

Lemma upsert_vector_logged c rows : tr logged logged (upsert_vector fates c rows).
Proof using. unfold upsert_vector. logs. Qed.

Lemma delete_vectors_logged c vids : tr logged logged (delete_vectors fates c vids).
Proof using. unfold delete_vectors. logs. Qed.

(** *** Lifecycle: what a connection starts from is on disk. *)

Lemma close_db_logged : tr logged logged (close_db fates).
Proof using.
  intros s [Hj Hf]. unfold wp, close_db. destruct (conn s); [| |done]; by destruct (fates (issued s)).
Qed.

Lemma connect_logged : tr logged logged (connect fates).
Proof using. intros s [Hj Hf]. unfold wp, connect. by destruct (fates (issued s)). Qed.

Lemma enforce_logged : tr logged logged (enforce fates).
Proof using. intros s [Hj Hf]. unfold wp, enforce. destruct (conn s); [| |done]; by destruct (fates (issued s)). Qed.

Lemma cleanup_logged : triple (holds disk_logged) (holds disk_logged) (holds disk_logged) (cleanup fates).
Proof using. intros s Hj. unfold wp, cleanup. destruct (conn s); [done| |done]. by destruct (fates (issued s)). Qed.

(** [get] and what is done with it *)
Lemma with_state {A} F F' (m : Database -> py Database A) : (forall s, tr F F' (m s)) -> tr F F' (s ← get; m s).
Proof using. intros H s Hs. exact (H s s Hs). Qed.

Lemma open_logged : tr logged logged (open_locked fates).
Proof using.
  unfold open_locked. apply with_state. intros s0. destruct (bool_decide _); [|apply triple_ret].
  eapply triple_bind; [apply connect_logged|]. intros _. unfold no_op. eapply triple_bind; [apply select_triple|]. intros _.
  eapply triple_bind; [apply enforce_logged|]. intros _. logs.
Qed.

Lemma migrate_locked_logged : tr logged logged (migrate_locked clock fates).
Proof using. unfold migrate_locked, no_op. logs. Qed.

Lemma migrate_logged : tr logged logged (migrate clock fates).
Proof using. unfold migrate. apply wrapped_triple. eapply triple_bind; [apply open_logged|]. intros _. apply migrate_locked_logged. Qed.

Lemma initialize_logged : tr logged logged (initialize clock fates).
Proof using.
  unfold initialize. apply wrapped_triple.
  assert (Ho : tr logged logged (_ ← open_locked fates; migrate_locked clock fates)).
  { eapply triple_bind; [apply open_logged|]. intros _. apply migrate_locked_logged. }
  intros s Hs. specialize (Ho s Hs). unfold wp, catch in *. destruct ((_ ← open_locked fates; migrate_locked clock fates) s) as [[u|e] s1]; [done|].
  pose proof (cleanup_logged s1 Ho) as Hc. unfold wp in Hc. rewrite bind_run. by destruct (cleanup fates s1) as [[v|e'] s2].
Qed.

Lemma close_keeps_disk s : holds disk_logged s -> holds disk_logged (close fates s).2.
Proof using.
  intros Hs. unfold close, wrapped, catch_exception, catch, get. rewrite bind_run. destruct (bool_decide _); [done|].
  assert (Hc : holds disk_logged (close_db fates s).2).
  { unfold close_db. destruct (conn s); [| |done]; by destruct (fates (issued s)). }
  destruct (close_db fates s) as [[u|e] s1]; [done|]. by destruct (bool_decide _).
Qed.

(** ** Orderly runs *)

(** No operation but [close] starts with writes of another pending; the process may
    die at any time. *)
Inductive orderly_step : Database -> Database -> Prop :=
| orderly_run op s : tables s = disk s -> orderly_step s (run_sqlite clock uuid fates scan json_match op s)
| orderly_close s : orderly_step s (close fates s).2
| orderly_died s n m : orderly_step s (at_rest (disk s) (issued s) n m).

Lemma run_logged op s : logged (tables s) -> logged (disk s) -> logged (disk (run_sqlite clock uuid fates scan json_match op s)).
Proof using.
  intros Ht Hd.
  assert (Hr : forall A (m : py Database A), tr logged logged m -> logged (disk (m s).2)).
  { intros A m Hm. apply (triple_run (holds disk_logged) (holds_with disk_logged logged) m s Hm); [by intros s' [H _]|by split]. }
  destruct op; cbn [run_sqlite].
  - apply Hr, initialize_logged.
  - by apply close_keeps_disk.
  - apply Hr, migrate_logged.
  - apply Hr, create_node_logged.
  - apply Hr, update_node_logged.
  - apply Hr, delete_node_logged.
  - apply Hr, add_edge_logged.
  - apply Hr, remove_edge_logged.
  - apply Hr, upsert_vector_logged.
  - apply Hr, delete_vectors_logged.
  - apply Hr, submit_logged.
  - apply Hr, cast_vote_logged.
  - apply Hr, record_vote_logged.
  - apply Hr, check_quorum_logged.
  - apply Hr, update_reputation_logged.
  - apply Hr, get_node_reads.
  - apply Hr, find_nodes_reads.
  - apply Hr, get_edges_reads.
  - apply Hr, traverse_reads.
  - apply Hr, find_path_reads.
  - apply Hr, proposal_status_reads.
  - apply Hr, list_open_reads.
  - apply Hr, get_reputation_reads.
  - apply Hr, get_events_reads.
  - apply Hr, replay_events_reads.
  - apply Hr, audit_trail_reads.
  - apply Hr, get_status_reads.
  - apply Hr, active_tasks_reads.
Qed.

(** C32: The graph the SQLite lattice has committed is what its committed log replays
    to, node by node and edge by edge: whatever statement of an operation fails,
    is cancelled or is cut by the death of the process, if no operation starts
    over the pending writes of one that failed. *)
Theorem committed_graph_is_log d n m k s : logged d -> rtc orderly_step (at_rest d n m k) s ->
  graph_of (disk s) = replay (t_events (disk s)).
Proof using.
  intros Hd Hrun. apply (proj2 (A := own_keys (disk s))).
  assert (Hstep : forall x y, orderly_step x y -> logged (disk x) -> logged (disk y)).
  { intros x y Hxy Hx. destruct Hxy as [op x Hclean|x|x n0 m0]; [apply run_logged; [by rewrite Hclean|done]|by apply close_keeps_disk|done]. }
  exact (rtc_invariant orderly_step (fun s => logged (disk s)) _ s Hstep Hrun Hd).
Qed.
End Committed.

(** ** A run with a torn write and a restart *)

Abbreviation demo_op op s := (run_sqlite demo_clock demo_uuid torn_fates demo_scan demo_match op s).

Definition demo_opened : Database := demo_op SInitialize demo_start.
(** The event of the first node is refused, the process dies, and works on. *)
Definition demo_torn : Database := demo_op (SCreateNode AGENT [] "a") demo_opened.
Definition demo_reopened : Database := demo_op SInitialize (at_rest (disk demo_torn) (issued demo_torn) 9 9).
Definition demo_written : Database := demo_op (SCreateNode TASK [] "a") demo_reopened.

Lemma committed_graph_is_log_witness :
  length (t_nodes (tables demo_torn)) = 1 /\ length (t_events (tables demo_torn)) = 0 /\
  length (t_nodes (disk demo_written)) = 1 /\ graph_of (disk demo_written) = replay (t_events (disk demo_written)).
Proof.
  split; [vm_compute; reflexivity|]. split; [vm_compute; reflexivity|]. split; [vm_compute; reflexivity|].
  apply (committed_graph_is_log demo_clock demo_uuid torn_fates demo_scan demo_match no_tables 0 0 0 demo_written).
  - split; [intros k e Hin; exfalso; exact (not_elem_of_nil _ Hin)|reflexivity].
  - apply (rtc_l _ _ demo_opened); [apply orderly_run; vm_compute; reflexivity|].
    apply (rtc_l _ _ demo_torn); [apply orderly_run; vm_compute; reflexivity|].
    apply (rtc_l _ _ (at_rest (disk demo_torn) (issued demo_torn) 9 9)); [apply orderly_died|].
    apply (rtc_l _ _ demo_reopened); [apply orderly_run; vm_compute; reflexivity|].
    apply (rtc_l _ _ demo_written); [apply orderly_run; vm_compute; reflexivity|]. apply rtc_refl.
Defined.
