(* ===== verification/LatticeBackends.v ===== *)
(** * The two backends agree on searches

    The recursive query and the level loop of [LatticeSqlite] against the queues
    of [LatticeMemory], on the same edges and with statements that are done. *)
From S2P Require Import Prelude PyStr PyDict Floats AuditTrail IsoTime LatticeModels Reputation Governance LatticeGraph LatticeMemory.
From S2P Require Import LatticeLog LatticeSqlite LatticeStore LatticeDurable.

(** ** Walks depend on which neighbours there are, not on their order *)

Lemma walk_mono (f g : string -> list string) n x y : (forall x y, y ∈ f x -> y ∈ g x) -> walk f n x y -> walk g n x y.
Proof. intros H. induction 1 as [x|n x y z _ IH Hz]; [constructor|]. by apply (walk_S g n x y z IH), H. Qed.

Lemma walk_ext (f g : string -> list string) n x y : (forall x y, y ∈ f x <-> y ∈ g x) -> walk f n x y <-> walk g n x y.
Proof. intros H. split; apply walk_mono; intros; by apply H. Qed.

Lemma at_distance_ext (f g : string -> list string) n x y : (forall x y, y ∈ f x <-> y ∈ g x) -> at_distance f n x y -> at_distance g n x y.
Proof.
  intros H [Hw Hmin]. split; [by apply (walk_ext f g)|]. intros k Hk Hwk. apply (Hmin k Hk). by apply (walk_ext f g).
Qed.

Lemma path_from_ext (f g : string -> list string) x p : (forall x y, y ∈ f x <-> y ∈ g x) -> path_from f x p -> path_from g x p.
Proof. intros H. induction 1 as [|p y Hp IH Hy]; [constructor|]. constructor; [done|by apply H]. Qed.

Lemma at_distance_inj (f : string -> list string) m n x y : at_distance f m x y -> at_distance f n x y -> m = n.
Proof.
  intros [Hm Hmin] [Hn Hmin']. destruct (Nat.lt_trichotomy m n) as [Hlt|[->|Hlt]]; [|done|]; exfalso;
    [by apply (Hmin' m)|by apply (Hmin n)].
Qed.

Lemma elem_neighbors es ty d x y : y ∈ neighbors es ty d x <-> exists e, e ∈ es /\ edge_matches ty e = true /\ neighbor d x e = Some y.
Proof.
  unfold neighbors. rewrite list_elem_of_omap. split; intros (e & He & Hy); exists e; (split; [done|]).
  - by destruct (edge_matches ty e).
  - destruct Hy as [-> Hy]. done.
Qed.

(** What a search reads of an edge *)
Definition ends (e : Edge) : string * string * EdgeType := (source_id e, target_of e, edge_type e).

Lemma neighbors_incl es es' ty d x y : (forall r, r ∈ map ends es -> r ∈ map ends es') -> y ∈ neighbors es ty d x -> y ∈ neighbors es' ty d x.
Proof.
  intros H. rewrite !elem_neighbors. intros (e & He & Ht & Hy).
  assert (Hr : ends e ∈ map ends es') by (apply H, list_elem_of_In, in_map; by apply list_elem_of_In).
  apply list_elem_of_In, in_map_iff in Hr as (e' & [= Hs Hg Htt] & He'%list_elem_of_In). exists e'. split; [done|].
  split; [by destruct ty; cbn in *; rewrite ?Htt|]. by destruct d; cbn in *; rewrite ?Hs, ?Hg.
Qed.

Lemma neighbors_perm es es' ty d x y : map ends es ≡ₚ map ends es' -> y ∈ neighbors es ty d x <-> y ∈ neighbors es' ty d x.
Proof. intros H. split; apply neighbors_incl; intros r; by rewrite H. Qed.

(** The two branches of the query are the edges at either end. *)
Lemma elem_joined es ty d x y : y ∈ joined es ty d x <-> y ∈ neighbors es ty d x.
Proof.
  destruct d; try done. cbn [joined]. rewrite elem_of_app, !elem_neighbors. split.
  - intros [(e & He & Ht & Hy)|(e & He & Ht & Hy)]; exists e; (split; [done|]; split; [done|]); cbn in *.
    + by destruct (String.eqb (source_id e) x).
    + destruct (String.eqb_spec (target_of e) x) as [E|]; [|done]. destruct (String.eqb_spec (source_id e) x) as [E'|]; [|done].
      simplify_eq. congruence.
  - intros (e & He & Ht & Hy). cbn in Hy. destruct (String.eqb (source_id e) x) eqn:E; [left|right]; exists e; cbn; rewrite ?E; done.
Qed.

Lemma joined_endpoints es ty d x y : y ∈ joined es ty d x -> y ∈ endpoints es.
Proof. rewrite elem_joined. apply neighbors_endpoints. Qed.

(** ** The backends *)

Section Agree.
Context (fates : nat -> fate) (scan : forall A, list A -> list A).
Context (Hscan : forall A (l : list A), scan A l ≡ₚ l) (Hdone : forall n, fates n = Done).
Context (fk : bool).

Lemma done_select {A B} (f : Tables -> A) (k : A -> py Database B) s : conn s = Open fk ->
  (select fates f ≫= k) s = k (f (tables s)) (after s (tables s) (disk s) (conn s)).
Proof using Hdone. intros Ho. rewrite bind_run. unfold select, execute. by rewrite Ho, Hdone. Qed.

Lemma require_open {B} (k : unit -> py Database B) s : conn s = Open fk -> (require_db ≫= k) s = k tt s.
Proof using. intros Ho. rewrite bind_run. unfold require_db, get. rewrite bind_run. unfold raise_when. by rewrite Ho. Qed.

Lemma wrapped_ok {A} (m : py Database A) s a s' : m s = (Ok a, s') -> wrapped m s = (Ok a, s').
Proof using. intros H. unfold wrapped, catch_exception, catch. by rewrite H. Qed.

(** The query ends and lists, once each, the other nodes within the depth. *)
Lemma sqlite_traverse_spec start (ty : option EdgeType) max_depth d s : conn s = Open fk -> valid_direction d = true ->
  exists l s', traverse fates scan start ty max_depth d s = (Ok l, s') /\ tables s' = tables s /\ NoDup l /\
  forall y, y ∈ l <-> y <> start /\
    exists n, n <= Z.to_nat max_depth /\ walk (neighbors (dvalues (t_edges (tables s))) ty d) n start y.
Proof using Hscan Hdone.
  intros Ho Hd. unfold traverse. rewrite Hd. cbn [negb]. rewrite bind_raise_when.
  destruct (Z.ltb_spec max_depth 1) as [Hm|Hm].
  - exists [], s. split; [done|]. split; [done|]. split; [constructor|]. intros y. replace (Z.to_nat max_depth) with 0 by lia.
    split; [intros Hy; by apply not_elem_of_nil in Hy|]. intros (Hne & n & Hn & Hw). replace n with 0 in Hw by lia. inversion Hw; subst. done.
  - set (es := scan _ (dvalues (t_edges (tables s)))).
    destruct (select_reachable_spec (joined es ty d) (endpoints es) (fun x y => joined_endpoints es ty d x y) start max_depth
      ltac:(lia)) as (l & Hl & Hn & Hin).
    exists l, (after s (tables s) (disk s) (conn s)). split; [|split; [done|split; [done|]]].
    + apply wrapped_ok. rewrite require_open by done. rewrite done_select by done. cbv zeta. fold es. unfold lift. by rewrite Hl.
    + intros y. rewrite Hin. apply and_iff_compat_l. split; intros (n & Hle & Hw); exists n; (split; [done|]); revert Hw;
        apply walk_ext; intros x z;
        rewrite elem_joined; apply neighbors_perm; unfold es; by rewrite Hscan.
Qed.

(** C37: [traverse] of the SQLite backend is that of the in-memory backend: on
    edges of the same ends and types the recursive query and the queue both end and list the same
    nodes, once each, in whatever order the rows are visited: the others at most
    the depth away along edges of the type and direction asked for. *)
Theorem traversals_agree start (ty : option EdgeType) max_depth d (s : Database) (m : Memory) :
  conn s = Open fk -> map ends (dvalues (t_edges (tables s))) ≡ₚ map ends (dvalues (edges m)) -> valid_direction d = true ->
  exists l l' s', LatticeMemory.traverse start (option_map inl ty) max_depth d m = (Ok l, m) /\
    traverse fates scan start ty max_depth d s = (Ok l', s') /\ tables s' = tables s /\ l ≡ₚ l' /\ NoDup l /\
    forall y, y ∈ l <-> y <> start /\ exists n, n <= Z.to_nat max_depth /\ walk (neighbors (dvalues (edges m)) ty d) n start y.
Proof using Hscan Hdone.
  intros Ho He Hd. destruct (memory_traverse_spec start ty max_depth d m) as (l & Hl & Hn & Hin).
  destruct (sqlite_traverse_spec start ty max_depth d s Ho Hd) as (l' & s' & Hl' & Hs' & Hn' & Hin').
  exists l, l', s'. split; [done|]. split; [done|]. split; [done|]. split; [|by split]. apply NoDup_Permutation; [done|done|].
  intros y. rewrite Hin, Hin'. apply and_iff_compat_l. split; intros (n & Hle & Hw); exists n; (split; [done|]); revert Hw;
    apply walk_ext; intros x z; by apply neighbors_perm.
Qed.

(** *** Paths *)

Definition nbr_of (t : Tables) : string -> list string := neighbors (scan _ (dvalues (t_edges t))) None DOut.

Lemma level_of_run target q visited s : conn s = Open fk ->
  exists s', level_of fates scan target q visited s = (Ok (path_level (nbr_of (tables s)) target q visited), s') /\
    tables s' = tables s /\ conn s' = Open fk.
Proof using Hdone.
  revert visited s. induction q as [|path rest IH]; intros visited s Ho; cbn [level_of path_level]; [by exists s|].
  rewrite done_select by done. fold (nbr_of (tables s)). destruct (extend _ _ _ _) as [p|[new v]]; [by eexists|].
  destruct (IH v (after s (tables s) (disk s) (conn s)) Ho) as (s' & Hs' & Ht & Hc). cbn [tables after] in Hs'.
  rewrite bind_run, Hs'. cbn beta iota. exists s'. by destruct (path_level _ target rest v) as [p|[new' v']].
Qed.

Lemma levels_of_run k target q visited s : conn s = Open fk ->
  exists s', levels_of fates scan k target q visited s = (Ok (path_levels (nbr_of (tables s)) k target q visited), s') /\
    tables s' = tables s.
Proof using Hdone.
  revert q visited s. induction k as [|k IH]; intros q visited s Ho; cbn [levels_of path_levels]; [by exists s|].
  destruct q as [|p0 q0]; [by exists s|]. destruct (level_of_run target (p0 :: q0) visited s Ho) as (s1 & Hs1 & Ht & Hc).
  rewrite bind_run, Hs1. cbn beta iota. destruct (path_level _ _ _ _) as [p|[next v]]; [by exists s1|].
  destruct (IH next v s1 Hc) as (s' & Hs' & Ht'). rewrite Ht in Hs'. exists s'. split; [done|congruence].
Qed.

(** [find_path] of the SQLite backend agrees with that of the in-memory backend:
    on edges of the same ends both end, both find a path or neither does, and the paths,
    made of edges from source to target, have the same, least, number of edges. *)
Theorem paths_agree source target max_depth (s : Database) (m : Memory) :
  source <> target -> conn s = Open fk -> map ends (dvalues (t_edges (tables s))) ≡ₚ map ends (dvalues (edges m)) ->
  let nbr := neighbors (dvalues (edges m)) None DOut in
  exists o o' s', LatticeMemory.find_path source target max_depth m = (Ok o, m) /\
    find_path fates scan source target max_depth s = (Ok o', s') /\ tables s' = tables s /\
    match o, o' with
    | Some p, Some p' => length p = length p' /\ path_from nbr source p /\ path_from nbr source p' /\
                         end_of p = target /\ end_of p' = target /\ at_distance nbr (length p - 1) source target
    | None, None => forall n, n <= Z.to_nat max_depth -> ~ walk nbr n source target
    | _, _ => False
    end.
Proof using Hscan Hdone.
  intros Hne Ho He. destruct (memory_find_path_spec source target max_depth m Hne) as (o & Hm & Hspec).
  pose proof (path_by_levels_spec (nbr_of (tables s)) source target max_depth Hne) as Hspec'.
  destruct (levels_of_run (Z.to_nat max_depth) target [[source]] {[source]} s Ho) as (s' & Hs' & Ht).
  fold (path_by_levels (nbr_of (tables s)) source target max_depth) in Hs'.
  exists o, (path_by_levels (nbr_of (tables s)) source target max_depth), s'. split; [done|]. split; [|split; [done|]].
  { unfold find_path. rewrite (proj2 (String.eqb_neq _ _)) by done. apply wrapped_ok. by rewrite require_open. }
  assert (Hext : forall x y, y ∈ nbr_of (tables s) x <-> y ∈ neighbors (dvalues (edges m)) None DOut x).
  { intros x y. unfold nbr_of. apply neighbors_perm. by rewrite Hscan. }
  destruct o as [p|], (path_by_levels _ source target max_depth) as [p'|].
  - destruct Hspec as (Hp & Hend & n & Hlen & Hd & _), Hspec' as (Hp' & Hend' & n' & Hlen' & Hd' & _).
    apply (at_distance_ext _ (neighbors (dvalues (edges m)) None DOut)) in Hd'; [|done].
    assert (n = n') as <- by (by eapply at_distance_inj). split; [congruence|]. split; [done|]. split; [by eapply path_from_ext|].
    split; [done|]. split; [done|]. by rewrite Hlen, Nat.sub_1_r.
  - destruct Hspec as (_ & _ & n & _ & [Hw _] & Hn). apply (Hspec' n Hn). by apply (walk_ext _ _ _ _ _ Hext).
  - destruct Hspec' as (_ & _ & n & _ & [Hw _] & Hn). apply (Hspec n Hn). by apply (walk_ext _ _ _ _ _ Hext).
  - done.
Qed.
End Agree.

(** ** Both backends with the same edge *)

Definition twin : Memory :=
  run_ops default_config demo_clock demo_uuid [MAddEdge "" "ii" (inr "depends_on"%string) [] "a"] new_memory.

Definition always_done (n : nat) : fate := Done.

Lemma always_is_done n : always_done n = Done.
Proof. reflexivity. Qed.

Lemma demo_scan_perm A (l : list A) : demo_scan A l ≡ₚ l.
Proof. reflexivity. Qed.

Lemma traversals_agree_witness : exists l l' s',
  LatticeMemory.traverse "" (Some (inl DEPENDS_ON)) 3 DOut twin = (Ok l, twin) /\
  traverse always_done demo_scan "" (Some DEPENDS_ON) 3 DOut demo_first = (Ok l', s') /\ l ≡ₚ l' /\ "ii"%string ∈ l.
Proof.
  destruct (traversals_agree always_done demo_scan demo_scan_perm always_is_done true "" (Some DEPENDS_ON) 3 DOut demo_first twin)
    as (l & l' & s' & H1 & H2 & _ & H3 & _ & H4); [vm_compute; reflexivity|vm_compute; reflexivity|reflexivity|].
  exists l, l', s'. split; [exact H1|]. split; [exact H2|]. split; [exact H3|].
  apply H4. split; [discriminate|]. exists 1. split; [vm_decide|]. apply (walk_S _ 0 _ ""%string); [constructor|vm_decide].
Defined.

Lemma paths_agree_witness : exists p p' s',
  LatticeMemory.find_path "" "ii" 3 twin = (Ok (Some p), twin) /\
  find_path always_done demo_scan "" "ii" 3 demo_first = (Ok (Some p'), s') /\ length p = length p'.
Proof.
  destruct (paths_agree always_done demo_scan demo_scan_perm always_is_done true "" "ii" 3 demo_first twin)
    as (o & o' & s' & H1 & H2 & _ & H3); [discriminate|vm_compute; reflexivity|vm_compute; reflexivity|].
  destruct o as [p|]; [|vm_compute in H1; discriminate H1]. destruct o' as [p'|]; [|contradiction].
  exists p, p', s'. split; [exact H1|]. split; [exact H2|apply H3].
Defined.
