(* ===== verification/LatticeFactory.v ===== *)
(** * The lease manager of the lattice

    [src/agency/lattice/factory.py].  A process has at most one installed manager,
    a manager at most one generation, which owns one [Lattice].  Coroutines run in
    the sections between their awaits ([exec], one event each): a call waits for
    the manager's lock, and while it awaits [initialize] or [close] with the lock
    held others may call, queue, be cancelled or give up.  Managers, generations,
    tokens and calls have numbers as identities. *)
From S2P Require Import Prelude.

(** ** State *)

(** [_Generation] with its [Lattice]: whether the backend may be open, and the loop
    the lattice is managed on ([_set_managed]); the key is the generation's number. *)
Record Generation (C : Type) := mk_Generation {
  config : C;
  tokens : gset nat;
  legacy_pin : bool;
  ready : bool;
  opened : bool;
  managed : option nat;
}.
Arguments mk_Generation {C}.
Arguments config {C}.
Arguments tokens {C}.
Arguments legacy_pin {C}.
Arguments ready {C}.
Arguments opened {C}.
Arguments managed {C}.

(** [_Manager]; [lock] is the call that holds the lock *)
Record Manager := mk_Manager { loop : nat; lock : option nat; generation : option nat; initializing : bool; users : nat }.

Record Lease := mk_Lease { l_manager : nat; l_generation : nat; l_token : nat }.

#[export] Instance Lease_eq_dec : EqDecision Lease.
Proof. solve_decision. Defined.

Inductive call (C : Type) := Acquire (c : option C) | Get (c : option C) | Reset | Release (l : Lease).
Arguments Acquire {C}.
Arguments Get {C}.
Arguments Reset {C}.
Arguments Release {C}.

(** Where a call is suspended: about to enter the guard, at the lock of manager
    [m], or with the lock held in the start of [g], the clean-up of that start, or
    its retirement *)
Inductive point (C : Type) :=
| Arriving (at_loop : nat) (c : call C)
| Waiting (m : nat) (c : call C)
| Starting (m g : nat) (c : call C)
| Undoing (m g : nat) (e : exn)
| Retiring (m g : nat).
Arguments Arriving {C}.
Arguments Waiting {C}.
Arguments Starting {C}.
Arguments Undoing {C}.
Arguments Retiring {C}.

Inductive answer := Leased (l : Lease) | Borrowed (g : nat) | Nothing.

Record Factory (C : Type) := mk_Factory {
  installed : option nat;
  managers : gmap nat Manager;
  generations : gmap nat (Generation C);
  calls : gmap nat (point C);
  next : nat;
  answers : list (nat * result answer);
}.
Arguments mk_Factory {C}.
Arguments installed {C}.
Arguments managers {C}.
Arguments generations {C}.
Arguments calls {C}.
Arguments next {C}.
Arguments answers {C}.

Section Exec.
(** The type of configurations and its [==] *)
Context {C : Type} (same : C -> C -> bool).
Abbreviation Factory := (Factory C).
Abbreviation Generation := (Generation C).

Definition new_factory : Factory := mk_Factory None ∅ ∅ ∅ 0 [].

Definition put_manager (m : nat) (x : Manager) (s : Factory) : Factory :=
  mk_Factory (installed s) (<[m := x]> (managers s)) (generations s) (calls s) (next s) (answers s).
Definition put_generation (g : nat) (x : Generation) (s : Factory) : Factory :=
  mk_Factory (installed s) (managers s) (<[g := x]> (generations s)) (calls s) (next s) (answers s).
Definition put_call (k : nat) (x : point C) (s : Factory) : Factory :=
  mk_Factory (installed s) (managers s) (generations s) (<[k := x]> (calls s)) (next s) (answers s).
Definition set_installed (o : option nat) (s : Factory) : Factory :=
  mk_Factory o (managers s) (generations s) (calls s) (next s) (answers s).
Definition count_up (s : Factory) : Factory :=
  mk_Factory (installed s) (managers s) (generations s) (calls s) (S (next s)) (answers s).
Definition finish (k : nat) (r : result answer) (s : Factory) : Factory :=
  mk_Factory (installed s) (managers s) (generations s) (delete k (calls s)) (next s) ((k, r) :: answers s).

Definition with_lock (o : option nat) (x : Manager) : Manager := mk_Manager (loop x) o (generation x) (initializing x) (users x).
Definition with_users (n : nat) (x : Manager) : Manager := mk_Manager (loop x) (lock x) (generation x) (initializing x) n.
Definition with_generation (o : option nat) (x : Manager) : Manager := mk_Manager (loop x) (lock x) o (initializing x) (users x).
Definition with_initializing (b : bool) (x : Manager) : Manager := mk_Manager (loop x) (lock x) (generation x) b (users x).
Definition with_tokens (t : gset nat) (x : Generation) : Generation :=
  mk_Generation (config x) t (legacy_pin x) (ready x) (opened x) (managed x).
Definition with_pin (b : bool) (x : Generation) : Generation :=
  mk_Generation (config x) (tokens x) b (ready x) (opened x) (managed x).
Definition with_ready (b : bool) (x : Generation) : Generation :=
  mk_Generation (config x) (tokens x) (legacy_pin x) b (opened x) (managed x).
Definition with_api (b : bool) (o : option nat) (x : Generation) : Generation :=
  mk_Generation (config x) (tokens x) (legacy_pin x) (ready x) b o.

(** ** [_guard] *)

(** The first block, under [_manager_lock] *)
Definition enter (k at_loop : nat) (c : call C) (s : Factory) : option Factory :=
  let s :=
    match c with
    | Release _ => s
    | _ => match installed s with
           | Some _ => s
           | None => count_up (set_installed (Some (next s)) (put_manager (next s) (mk_Manager at_loop None None false 0) s))
           end
    end in
  m ← match c with Release l => Some (l_manager l) | _ => installed s end;
  x ← managers s !! m;
  if Nat.eqb (loop x) at_loop then Some (put_call k (Waiting m c) (put_manager m (with_users (S (users x)) x) s))
  else Some (finish k (Err RuntimeError) s).

(** The [finally] block, after the lock is released if it was held *)
Definition leave (k m : nat) (r : result answer) (s : Factory) : option Factory :=
  x ← managers s !! m;
  let held := bool_decide (lock x = Some k) in
  let x := with_users (pred (users x)) (if held then with_lock None x else x) in
  let s := put_manager m x s in
  let idle := bool_decide (installed s = Some m) && Nat.eqb (users x) 0 && bool_decide (generation x = None) in
  Some (finish k r (if idle then set_installed None s else s)).

(** ** The sections under the lock *)

(** What [acquire_lattice] and [get_lattice] do with the generation of [_ready] *)
Definition serve (k m g : nat) (c : call C) (s : Factory) : option Factory :=
  x ← generations s !! g;
  match c with
  | Acquire _ => leave k m (Ok (Leased (mk_Lease m g (next s)))) (count_up (put_generation g (with_tokens ({[next s]} ∪ tokens x) x) s))
  | Get _ => leave k m (Ok (Borrowed g)) (put_generation g (with_pin true x) s)
  | _ => None
  end.

(** [_ready]; [d] is what [get_config] or the construction of the lattice come to *)
Definition be_ready (k m : nat) (c : call C) (wanted : option C) (d : result C) (s : Factory) : option Factory :=
  x ← managers s !! m;
  match generation x with
  | Some g =>
      y ← generations s !! g;
      if negb (ready y) then leave k m (Err RuntimeError) s
      else if match wanted with Some w => negb (same w (config y)) | None => false end then leave k m (Err ValueError) s
      else serve k m g c s
  | None =>
      match d with
      | Err e => leave k m (Err e) s
      | Ok cfg =>
          let g := next s in
          let cfg := default cfg wanted in
          Some (put_call k (Starting m g c)
                 (put_manager m (with_initializing true (with_generation (Some g) x))
                   (put_generation g (mk_Generation cfg ∅ false false false None) (count_up s))))
      end
  end.

(** The first half of [_retire] *)
Definition retire (k m g : nat) (y : Generation) (s : Factory) : Factory :=
  put_call k (Retiring m g) (put_generation g (with_ready false y) s).

Definition release (k m : nat) (l : Lease) (s : Factory) : option Factory :=
  y ← generations s !! l_generation l;
  if bool_decide (l_token l ∈ tokens y) then
    let y := with_tokens (tokens y ∖ {[l_token l]}) y in
    let s := put_generation (l_generation l) y s in
    if bool_decide (tokens y = ∅) && negb (legacy_pin y) then Some (retire k m (l_generation l) y s)
    else leave k m (Ok Nothing) s
  else leave k m (Ok Nothing) s.

(** A manager that must not be reset *)
Definition busy (x : Manager) (s : Factory) : bool :=
  initializing x || match generation x ≫= fun g => generations s !! g with Some y => bool_decide (tokens y <> ∅) | None => false end.

Definition reset (k m : nat) (s : Factory) : option Factory :=
  x ← managers s !! m;
  if busy x s then leave k m (Err RuntimeError) s
  else match generation x with
       | None => leave k m (Ok Nothing) s
       | Some g => y ← generations s !! g; Some (retire k m g (with_pin false y) s)
       end.

(** ** Events *)

Inductive event :=
| ECall (k at_loop : nat) (c : call C)
| EEnter (k : nat)
| ELock (k : nat) (d : result C)
| ECancel (k : nat)
| EInit (k : nat) (r : result unit) (left_open : bool)
| ECleanup (k : nat) (r : result unit) (left_open : bool)
| EClose (k : nat) (r : result unit) (left_open cancelled : bool)
| EApiClose (g : nat).

(** Leases are issued, never made by callers. *)
Definition issued (l : Lease) (s : Factory) : bool :=
  existsb (fun x => match x.2 with Ok (Leased l') => bool_decide (l' = l) | _ => false end) (answers s).

(** The start of a call; [reset_lattice] looks at the installed manager first *)
Definition start_call (k at_loop : nat) (c : call C) (s : Factory) : option Factory :=
  let ok :=
    match c, installed s ≫= fun m => managers s !! m with
    | Reset, Some x => Nat.eqb (loop x) at_loop && negb (busy x s)
    | _, _ => true
    end in
  match calls s !! k, c with
  | Some _, _ => None
  | None, Release l => if issued l s then Some (put_call k (Arriving at_loop c) s) else None
  | None, _ => Some (if ok then put_call k (Arriving at_loop c) s else finish k (Err RuntimeError) s)
  end.

(** The call gets the lock and runs to its next await. *)
Definition take_lock (k m : nat) (c : call C) (d : result C) (s : Factory) : option Factory :=
  x ← managers s !! m;
  if lock x then None
  else
    let s := put_manager m (with_lock (Some k) x) s in
    match c with
    | Acquire w | Get w => be_ready k m c w d s
    | Reset => reset k m s
    | Release l => release k m l s
    end.

(** [await lattice.initialize()] comes back. *)
Definition started (k m g : nat) (c : call C) (r : result unit) (left_open : bool) (s : Factory) : option Factory :=
  x ← managers s !! m;
  y ← generations s !! g;
  match r with
  | Ok _ => serve k m g c (put_manager m (with_initializing false x)
                            (put_generation g (with_ready true (with_api true (Some (loop x)) y)) s))
  | Err e => Some (put_call k (Undoing m g e) (put_generation g (with_api left_open None y) s))
  end.

(** The clean-up of a failed start is done: a failed one leaves the generation to [reset_lattice]. *)
Definition undone (k m g : nat) (e : exn) (r : result unit) (left_open : bool) (s : Factory) : option Factory :=
  x ← managers s !! m;
  y ← generations s !! g;
  match r with
  | Ok _ => leave k m (Err e) (put_manager m (with_initializing false (with_generation None x)) (put_generation g (with_api false None y) s))
  | Err _ => leave k m (Err e) (put_manager m (with_initializing false x) (put_generation g (with_api left_open (Some (loop x)) y) s))
  end.

(** [_close_managed] is done, by a caller that was cancelled meanwhile or not. *)
Definition retired (k m g : nat) (r : result unit) (left_open cancelled : bool) (s : Factory) : option Factory :=
  x ← managers s !! m;
  y ← generations s !! g;
  if bool_decide (managed y = Some (loop x)) then
    match r with
    | Ok _ =>
        let s := put_generation g (with_api false (managed y) y) s in
        if (cancelled : bool) then leave k m (Err CancelledError) s
        else leave k m (Ok Nothing) (put_manager m (with_generation None x) s)
    | Err e => leave k m (Err e) (put_generation g (with_api left_open (managed y) y) s)
    end
  else leave k m (Err RuntimeError) s.

(** Some caller has the lattice of [g]. *)
Definition published (g : nat) (s : Factory) : bool :=
  existsb (fun x => match x.2 with Ok (Leased l) => Nat.eqb (l_generation l) g | Ok (Borrowed h) => Nat.eqb h g | _ => false end) (answers s).

(** What an event does; [None] where it cannot happen.  [EApiClose] is
    [Lattice.close()] by someone who has the lattice. *)
Definition exec (e : event) (s : Factory) : option Factory :=
  match e with
  | ECall k l c => start_call k l c s
  | EEnter k => match calls s !! k with Some (Arriving l c) => enter k l c s | _ => None end
  | ELock k d => match calls s !! k with Some (Waiting m c) => take_lock k m c d s | _ => None end
  | ECancel k => match calls s !! k with Some (Waiting m c) => leave k m (Err CancelledError) s | _ => None end
  | EInit k r o => match calls s !! k with Some (Starting m g c) => started k m g c r o s | _ => None end
  | ECleanup k r o => match calls s !! k with Some (Undoing m g e) => undone k m g e r o s | _ => None end
  | EClose k r o b => match calls s !! k with Some (Retiring m g) => retired k m g r o b s | _ => None end
  | EApiClose g =>
      y ← generations s !! g;
      if published g s then Some (match managed y with Some _ => s | None => put_generation g (with_api false None y) s end) else None
  end.

Fixpoint execs (l : list event) (s : Factory) : option Factory :=
  match l with [] => Some s | e :: l => s ← exec e s; execs l s end.
End Exec.
