(* ===== verification/LeaseInvariant.v ===== *)
(** * The invariant of the lease manager

    What holds of managers, generations, leases and suspended calls between the
    events of [LatticeFactory] and inside the sections under a lock, and that every
    event preserves it. *)
From S2P Require Import Prelude LatticeFactory.

(** ** The invariant *)

Section Invariant.
Context {C : Type} (same : C -> C -> bool).
Abbreviation Factory := (Factory C).

Definition at_manager (p : point C) : option nat :=
  match p with Arriving _ _ => None | Waiting m _ | Starting m _ _ | Undoing m _ _ | Retiring m _ => Some m end.

(** A call that is suspended with the lock held, and on what *)
Definition holding (p : point C) : option (nat * nat) :=
  match p with Starting m g _ | Undoing m g _ | Retiring m g => Some (m, g) | _ => None end.
Definition starting (p : point C) : bool := match p with Starting _ _ _ | Undoing _ _ _ => true | _ => false end.

(** The call a point belongs to, while it is known *)
Definition call_of (p : point C) : option (call C) := match p with Arriving _ c | Waiting _ c | Starting _ _ c => Some c | _ => None end.
Definition releases (p : point C) : option Lease := match call_of p with Some (Release l) => Some l | _ => None end.

Definition owned (g : nat) (s : Factory) : Prop := exists m x, managers s !! m = Some x /\ generation x = Some g.

(** [run] is the call that runs a section with the lock of its manager. *)
Record inv (run : option (nat * nat)) (s : Factory) : Prop := {
  i_fresh_m m x : managers s !! m = Some x -> m < next s;
  i_fresh_g g y : generations s !! g = Some y -> g < next s;
  i_owner m x g : managers s !! m = Some x -> generation x = Some g -> installed s = Some m /\ is_Some (generations s !! g);
  i_installed m : installed s = Some m -> is_Some (managers s !! m);
  i_ready g y : generations s !! g = Some y -> tokens y <> ∅ \/ legacy_pin y = true -> ready y = true;
  i_kept g y : generations s !! g = Some y -> ready y = true ->
    tokens y <> ∅ \/ legacy_pin y = true \/ (exists m k x, run = Some (m, k) /\ managers s !! m = Some x /\ generation x = Some g);
  i_open g y : generations s !! g = Some y -> opened y = true -> owned g s;
  i_live g y : generations s !! g = Some y -> ready y = true -> opened y = true;
  i_managed m x g y : managers s !! m = Some x -> generation x = Some g -> generations s !! g = Some y ->
    initializing x = false -> managed y = Some (loop x);
  i_users m x : managers s !! m = Some x ->
    exists l : gset nat, size l = users x /\ forall k, k ∈ l <-> exists p, calls s !! k = Some p /\ at_manager p = Some m;
  i_at k p m : calls s !! k = Some p -> at_manager p = Some m -> is_Some (managers s !! m);
  i_waiting k p m : calls s !! k = Some p -> at_manager p = Some m -> releases p = None -> holding p = None -> installed s = Some m;
  i_served k m g c : calls s !! k = Some (Starting m g c) -> exists w, c = Acquire w \/ c = Get w;
  i_issued l : issued l s = true -> is_Some (generations s !! l_generation l) /\
    forall m x, managers s !! m = Some x -> generation x = Some (l_generation l) -> m = l_manager l;
  i_published g : published g s = true -> exists y, generations s !! g = Some y /\ managed y <> None;
  i_release k p l : calls s !! k = Some p -> releases p = Some l ->
    issued l s = true /\ forall m, at_manager p = Some m -> m = l_manager l;
  i_inuse m x : installed s = Some m -> managers s !! m = Some x -> users x <> 0 \/ generation x <> None;
  i_lock m x k : managers s !! m = Some x -> lock x = Some k -> run <> Some (m, k) ->
    exists p g, calls s !! k = Some p /\ holding p = Some (m, g);
  i_init m x : managers s !! m = Some x -> initializing x = true ->
    exists k p g, lock x = Some k /\ run <> Some (m, k) /\ calls s !! k = Some p /\ holding p = Some (m, g) /\ starting p = true;
  i_hold k p m g : calls s !! k = Some p -> holding p = Some (m, g) -> (forall m', run <> Some (m', k)) ->
    exists x y, managers s !! m = Some x /\ lock x = Some k /\ generation x = Some g /\ initializing x = starting p /\
      generations s !! g = Some y /\ ready y = false /\ (starting p = true -> managed y = None);
  i_run m k : run = Some (m, k) ->
    exists x p, managers s !! m = Some x /\ lock x = Some k /\ initializing x = false /\ calls s !! k = Some p /\ at_manager p = Some m;
  i_home l : issued l s = true -> is_Some (managers s !! l_manager l);
}.

Lemma inv_new : inv None new_factory.
Proof. constructor; cbn; intros; try done; by rewrite lookup_empty in *. Qed.

(** *** Facts *)

Lemma owner_unique run s m m' x x' g : inv run s -> managers s !! m = Some x -> generation x = Some g ->
  managers s !! m' = Some x' -> generation x' = Some g -> m = m' /\ x = x'.
Proof.
  intros I H1 H2 H3 H4. destruct (i_owner _ _ I _ _ _ H1 H2) as [E1 _], (i_owner _ _ I _ _ _ H3 H4) as [E2 _].
  assert (m = m') as -> by congruence. split; [done|congruence].
Qed.

Ltac lookups := repeat match goal with
  | H : <[_ := _]> _ !! _ = Some _ |- _ => apply lookup_insert_Some in H as [[? ?]|[? ?]]; simplify_eq
  | H : delete _ _ !! _ = Some _ |- _ => apply lookup_delete_Some in H as [? ?]
  end.

(** *** Leaving the guard *)

(** One call less at a manager *)
Lemma users_less (l : gset nat) (k : nat) (cs : gmap nat (point C)) (m : nat) p :
  (forall k, k ∈ l <-> exists p, cs !! k = Some p /\ at_manager p = Some m) -> cs !! k = Some p -> at_manager p = Some m ->
  size (l ∖ {[k]}) = pred (size l) /\ (forall j, j ∈ l ∖ {[k]} <-> exists p, delete k cs !! j = Some p /\ at_manager p = Some m).
Proof.
  intros Hl Hk Hp. assert (Hin : k ∈ l) by (apply Hl; by exists p). split.
  - rewrite size_difference by set_solver. rewrite size_singleton. lia.
  - intros j. rewrite elem_of_difference, elem_of_singleton, Hl. split.
    + intros [(q & Hq & Hm) Hne]. exists q. by rewrite lookup_delete_ne.
    + intros (q & [Hne Hq]%lookup_delete_Some & Hm). split; [by exists q|congruence].
Qed.

(** What an answer promises *)
Definition answered (r : result answer) (s : Factory) : Prop :=
  match r with
  | Ok (Leased l) => (exists y, generations s !! l_generation l = Some y /\ managed y <> None) /\ is_Some (managers s !! l_manager l) /\
      forall m x, managers s !! m = Some x -> generation x = Some (l_generation l) -> m = l_manager l
  | Ok (Borrowed g) => exists y, generations s !! g = Some y /\ managed y <> None
  | _ => True
  end.

Lemma issued_cons l k r (s : Factory) : issued l (finish k r s) = true <-> r = Ok (Leased l) \/ issued l s = true.
Proof.
  unfold issued, finish. cbn. rewrite orb_true_iff. apply or_iff_compat_r.
  destruct r as [[l'|g|]|e]; [rewrite bool_decide_eq_true; split; congruence|split; by intros [=]..].
Qed.

Lemma published_cons g k r (s : Factory) : published g (finish k r s) = true <->
  (exists l, r = Ok (Leased l) /\ l_generation l = g) \/ r = Ok (Borrowed g) \/ published g s = true.
Proof.
  unfold published, finish. cbn. rewrite orb_true_iff.
  destruct r as [[l'|h|]|e]; rewrite ?Nat.eqb_eq; naive_solver.
Qed.

Lemma leave_ok run k m r s x p : inv run s -> run = Some (m, k) \/ run = None /\ holding p = None ->
  managers s !! m = Some x -> calls s !! k = Some p -> at_manager p = Some m ->
  (forall g y, run <> None -> generation x = Some g -> generations s !! g = Some y -> ready y = true -> tokens y <> ∅ \/ legacy_pin y = true) ->
  answered r s ->
  exists s', leave k m r s = Some s' /\ inv None s'.
Proof.
  intros I Hrun Hm Hk Hp Hkept Hans. unfold leave. rewrite Hm. cbn [mbind option_bind].
  set (held := bool_decide (lock x = Some k)).
  set (x' := with_users (pred (users x)) (if held then with_lock None x else x)).
  assert (E1 : generation x' = generation x) by (subst x'; by destruct held).
  assert (E2 : loop x' = loop x) by (subst x'; by destruct held).
  assert (E3 : initializing x' = initializing x) by (subst x'; by destruct held).
  assert (E4 : users x' = pred (users x)) by (subst x'; by destruct held).
  assert (E5 : lock x' = if held then None else lock x) by (subst x'; by destruct held).
  clearbody x'. set (idle := bool_decide _ && _ && _).
  assert (Hidle : idle = true -> installed s = Some m /\ pred (users x) = 0 /\ generation x = None).
  { unfold idle. intros [[A%bool_decide_eq_true B%Nat.eqb_eq]%andb_true_iff D%bool_decide_eq_true]%andb_true_iff.
    cbn in A. rewrite E1 in D. by rewrite E4 in B. }
  assert (Hnot : idle = false -> installed s = Some m -> pred (users x) <> 0 \/ generation x <> None).
  { unfold idle. cbn. rewrite E1, E4. intros H Hi. rewrite bool_decide_eq_true_2 in H by done. cbn in H.
    apply andb_false_iff in H as [H%Nat.eqb_neq|H%bool_decide_eq_false]; auto. }
  clearbody idle.
  eexists. split; [reflexivity|].
  set (o := if idle then None else installed s).
  match goal with |- inv None ?t => assert (Et : t = mk_Factory o (<[m:=x']> (managers s)) (generations s) (delete k (calls s)) (next s) ((k, r) :: answers s)) end.
  { subst o. by destruct idle. }
  rewrite Et. clear Et.
  assert (Ho : forall m', o = Some m' -> installed s = Some m') by (subst o; by destruct idle).
  assert (Ho' : forall m' x0 g, managers s !! m' = Some x0 -> generation x0 = Some g -> o = Some m').
  { intros m' x0 g H1 H2. destruct (i_owner _ _ I _ _ _ H1 H2) as [Hi _]. subst o. destruct idle; [|done].
    destruct (Hidle eq_refl) as (A & _ & B). assert (m' = m) as -> by congruence. congruence. }
  assert (Hman : forall m0 x0, <[m:=x']> (managers s) !! m0 = Some x0 ->
    exists x1, managers s !! m0 = Some x1 /\ generation x1 = generation x0 /\ loop x1 = loop x0 /\ initializing x1 = initializing x0).
  { intros m0 x0 [[<- <-]|[_ H]]%lookup_insert_Some; [by exists x|by exists x0]. }
  assert (Hsome : forall m0, is_Some (managers s !! m0) -> is_Some (<[m:=x']> (managers s) !! m0)).
  { intros m0 H. apply lookup_insert_is_Some'. by right. }
  assert (Hcall : forall j q, delete k (calls s) !! j = Some q -> j <> k /\ calls s !! j = Some q) by (intros j q [? ?]%lookup_delete_Some; done).
  constructor; cbn [installed managers generations calls next answers].
  - intros m0 x0 (x1 & Hx & _)%Hman. by eapply (i_fresh_m _ _ I).
  - apply (i_fresh_g _ _ I).
  - intros m0 x0 g (x1 & Hx & Hg & _)%Hman H. rewrite <- Hg in H. split; [by eapply Ho'|by eapply (i_owner _ _ I)].
  - intros m0 H. apply Hsome, (i_installed _ _ I). by apply Ho.
  - apply (i_ready _ _ I).
  - intros g y Hg Hy. destruct (i_kept _ _ I g y Hg Hy) as [|[|(m0 & k0 & x0 & Hr & Hm0 & Hx)]]; [by left|by right; left|].
    destruct Hrun as [->|[-> _]]; [|done]. injection Hr as <- <-. assert (x0 = x) as -> by congruence.
    destruct (Hkept g y ltac:(done) Hx Hg Hy) as [?|?]; [by left|by right; left].
  - intros g y Hg Hy. destruct (i_open _ _ I _ _ Hg Hy) as (m0 & x0 & H1 & H2). destruct (decide (m0 = m)) as [->|Hne].
    + exists m, x'. cbn. rewrite lookup_insert_eq. split; [done|congruence].
    + exists m0, x0. cbn. by rewrite lookup_insert_ne.
  - apply (i_live _ _ I).
  - intros m0 x0 g y (x1 & Hx & Hg & Hl & Hi)%Hman H1 H2 H3. rewrite <- Hl. apply (i_managed _ _ I m0 x1 g y); congruence.
  - intros m0 x0 [[<- <-]|[Hne Hx]]%lookup_insert_Some.
    + destruct (i_users _ _ I _ _ Hm) as (l & Hl & Hin). destruct (users_less l k _ m p Hin Hk Hp) as [Hs Hd].
      exists (l ∖ {[k]}). by rewrite E4, <- Hl.
    + destruct (i_users _ _ I _ _ Hx) as (l & Hl & Hin). exists l. split; [done|]. intros j. rewrite Hin.
      split; intros (q & Hq & Hqm); exists q; (split; [|done]).
      * rewrite lookup_delete_ne; [done|]. intros <-. congruence.
      * by apply Hcall.
  - intros j q m0 [_ Hj]%Hcall Hq. apply Hsome. by apply (i_at _ _ I j q).
  - intros j q m0 [Hne Hj]%Hcall H0 H1 H2. pose proof (i_waiting _ _ I _ _ _ Hj H0 H1 H2) as Hi. subst o. destruct idle; [|done].
    destruct (Hidle eq_refl) as (A & B & _). assert (m0 = m) as -> by congruence. exfalso.
    destruct (i_users _ _ I _ _ Hm) as (l & Hl & Hin).
    assert (Ink : k ∈ l) by (apply Hin; by exists p). assert (Inj : j ∈ l) by (apply Hin; by exists q).
    assert (Hsz : size ({[k; j]} : gset nat) <= size l) by (apply subseteq_size; clear -Ink Inj; set_solver).
    rewrite size_union, !size_singleton in Hsz by (clear -Hne; set_solver). lia.
  - intros j m0 g c [_ Hj]%Hcall. by eapply (i_served _ _ I).
  - intros l [->|H]%(issued_cons l k r s).
    + destruct Hans as [(y & Hy & _) [_ Hl]]. split; [by exists y|]. intros m0 x0 (x1 & Hx & Hg & _)%Hman H. apply (Hl m0 x1); congruence.
    + destruct (i_issued _ _ I _ H) as [H1 H2]. split; [done|]. intros m0 x0 (x1 & Hx & Hg & _)%Hman H3. apply (H2 m0 x1); congruence.
  - intros g [(l & -> & <-)|[->|H]]%(published_cons g k r s); [apply Hans|apply Hans|by apply (i_published _ _ I)].
  - intros j q l [_ Hj]%Hcall Hq. destruct (i_release _ _ I _ _ _ Hj Hq) as [H3 H4]. split; [|done].
    apply (issued_cons l k r s). by right.
  - intros m0 x0 Hi [[<- <-]|[Hne Hx]]%lookup_insert_Some; [|eapply (i_inuse _ _ I); [by apply Ho|done]].
    rewrite E4, E1. subst o. destruct idle; [done|]. by apply Hnot.
  - intros m0 x0 j [[<- <-]|[Hne Hx]]%lookup_insert_Some Hl _.
    + rewrite E5 in Hl. subst held. destruct (bool_decide_reflect (lock x = Some k)) as [Hlk|Hlk]; [done|].
      destruct (i_lock _ _ I _ _ j Hm Hl) as (q & g & Hq & Hg).
      { destruct Hrun as [->|[-> _]]; [|done]. intros [= <-]. done. }
      exists q, g. split; [|done]. rewrite lookup_delete_ne; [done|congruence].
    + destruct (i_lock _ _ I _ _ j Hx Hl) as (q & g & Hq & Hg).
      { destruct Hrun as [->|[-> _]]; [|done]. intros [= -> _]. done. }
      exists q, g. split; [|done]. rewrite lookup_delete_ne; [done|]. intros <-. assert (q = p) as -> by congruence.
      destruct p; cbn in *; congruence.
  - assert (Hgo : forall m0 x0, managers s !! m0 = Some x0 -> initializing x0 = true ->
      exists k0 p0 g, lock x0 = Some k0 /\ None <> Some (m0, k0) /\ delete k (calls s) !! k0 = Some p0 /\ holding p0 = Some (m0, g) /\
        starting p0 = true /\ k0 <> k).
    { intros m1 x1 H1 H2. destruct (i_init _ _ I _ _ H1 H2) as (k0 & q & g & A1 & A2 & A3 & A4 & A5). exists k0, q, g.
      assert (k0 <> k).
      { intros ->. assert (q = p) as -> by congruence. destruct Hrun as [->|[-> Hh]]; [|congruence].
        assert (m1 = m) as -> by (destruct p; cbn in *; congruence). done. }
      by rewrite lookup_delete_ne. }
    intros m0 x0 [[<- <-]|[Hne Hx]]%lookup_insert_Some Hi.
    + destruct (Hgo _ _ Hm ltac:(congruence)) as (k0 & q & g & A1 & A2 & A3 & A4 & A5 & A6). exists k0, q, g. rewrite E5.
      subst held. rewrite bool_decide_eq_false_2 by congruence. done.
    + destruct (Hgo _ _ Hx Hi) as (k0 & q & g & A1 & A2 & A3 & A4 & A5 & A6). by exists k0, q, g.
  - intros j q m0 g [Hne Hj]%Hcall Hh _. destruct (i_hold _ _ I _ _ _ _ Hj Hh) as (x0 & y & A1 & A2 & A3 & A4 & A5 & A6).
    { intros m' Hr. destruct Hrun as [->|[-> _]]; [|done]. by injection Hr as _ <-. }
    destruct (decide (m0 = m)) as [->|Hnm].
    + exists x', y. rewrite lookup_insert_eq. assert (x0 = x) as -> by congruence. split; [done|]. rewrite E5, E1, E3. subst held.
      by rewrite bool_decide_eq_false_2 by congruence.
    + exists x0, y. by rewrite lookup_insert_ne.
  - done.
  - intros l [->|H]%(issued_cons l k r s); [apply Hsome, Hans|by apply Hsome, (i_home _ _ I)].
Qed.

(** *** Sections with the lock held *)

(** The generation [g] is the one the running section works on. *)
Definition exempt (run : option (nat * nat)) (g : nat) (s : Factory) : Prop :=
  exists m k x, run = Some (m, k) /\ managers s !! m = Some x /\ generation x = Some g.

Lemma count_up_ok run s : inv run s -> inv run (count_up s).
Proof.
  intros I. constructor; cbn; try apply I; intros.
  - pose proof (i_fresh_m _ _ I _ _ H). lia.
  - pose proof (i_fresh_g _ _ I _ _ H). lia.
Qed.

Lemma put_generation_ok run s g y y' : inv run s -> generations s !! g = Some y ->
  (tokens y' <> ∅ \/ legacy_pin y' = true -> ready y' = true) ->
  (ready y' = true -> tokens y' <> ∅ \/ legacy_pin y' = true \/ exempt run g s) ->
  (opened y' = true -> owned g s) -> (ready y' = true -> opened y' = true) ->
  (forall m x, managers s !! m = Some x -> generation x = Some g -> initializing x = false -> managed y' = Some (loop x)) ->
  (managed y <> None -> managed y' <> None) ->
  (forall k p m, calls s !! k = Some p -> holding p = Some (m, g) -> (forall m', run <> Some (m', k)) ->
     ready y' = false /\ (starting p = true -> managed y' = None)) ->
  inv run (put_generation g y' s).
Proof.
  intros I Hg H1 H2 H3 H4 H5 H6 H7.
  assert (Hgen : forall g0 z, <[g:=y']> (generations s) !! g0 = Some z -> g0 = g /\ z = y' \/ g0 <> g /\ generations s !! g0 = Some z).
  { intros g0 z [[<- <-]|[? ?]]%lookup_insert_Some; auto. }
  assert (Hsome : forall g0, is_Some (generations s !! g0) -> is_Some (<[g:=y']> (generations s) !! g0)).
  { intros g0 H. apply lookup_insert_is_Some'. by right. }
  constructor; cbn [put_generation installed managers generations calls next answers]; try apply I.
  - intros g0 z [[-> ->]|[_ Hz]]%Hgen; by eapply (i_fresh_g _ _ I).
  - intros m x g0 Hx Hxg. destruct (i_owner _ _ I _ _ _ Hx Hxg). by split; [|apply Hsome].
  - intros g0 z [[-> ->]|[_ Hz]]%Hgen; [done|by apply (i_ready _ _ I g0)].
  - intros g0 z [[-> ->]|[_ Hz]]%Hgen; [done|by apply (i_kept _ _ I g0)].
  - intros g0 z [[-> ->]|[_ Hz]]%Hgen; [done|by apply (i_open _ _ I g0 z)].
  - intros g0 z [[-> ->]|[_ Hz]]%Hgen; [done|by apply (i_live _ _ I g0)].
  - intros m x g0 z Hx Hxg [[-> ->]|[_ Hz]]%Hgen Hi; [by apply (H5 m)|by apply (i_managed _ _ I m x g0 z)].
  - intros l Hl. destruct (i_issued _ _ I l Hl) as [A B]. by split; [apply Hsome|].
  - intros g0 Hp. destruct (i_published _ _ I g0 Hp) as (z & Hz & Hm). destruct (decide (g0 = g)) as [->|Hne].
    + exists y'. rewrite lookup_insert_eq. split; [done|]. apply H6. congruence.
    + exists z. by rewrite lookup_insert_ne.
  - intros k p m g0 Hk Hp Hr. destruct (i_hold _ _ I k p m g0 Hk Hp Hr) as (x & z & A1 & A2 & A3 & A4 & A5 & A6).
    destruct (decide (g0 = g)) as [->|Hne].
    + exists x, y'. rewrite lookup_insert_eq. destruct (H7 k p m) as [B1 B2]; try done.
    + exists x, z. by rewrite lookup_insert_ne.
Qed.

(** The call that holds the lock of [m] holds it alone. *)
Lemma holder_unique run s m k x k' p' g : inv run s -> managers s !! m = Some x -> lock x = Some k ->
  calls s !! k' = Some p' -> holding p' = Some (m, g) -> (forall m', run <> Some (m', k')) -> k' = k.
Proof. intros I Hm Hl Hk' Hp' Hr. destruct (i_hold _ _ I _ _ _ _ Hk' Hp' Hr) as (x' & y & A1 & A2 & _). congruence. Qed.

(** No other call is suspended over the generation of the running section. *)
Lemma nobody_holds s m k x g k' p' m' : inv (Some (m, k)) s -> managers s !! m = Some x -> generation x = Some g ->
  calls s !! k' = Some p' -> holding p' = Some (m', g) -> (forall m0, Some (m, k) <> Some (m0, k')) -> False.
Proof.
  intros I Hm Hg Hk' Hp' Hr. destruct (i_hold _ _ I _ _ _ _ Hk' Hp' Hr) as (x' & y & A1 & A2 & A3 & _).
  destruct (owner_unique _ _ _ _ _ _ _ I Hm Hg A1 A3) as [<- <-].
  destruct (i_run _ _ I _ _ eq_refl) as (x2 & p & B1 & B2 & _). assert (x2 = x) as -> by congruence.
  apply (Hr m). congruence.
Qed.

Lemma take_lock_inv s k m c x : inv None s -> calls s !! k = Some (Waiting m c) -> managers s !! m = Some x -> lock x = None ->
  inv (Some (m, k)) (put_manager m (with_lock (Some k) x) s).
Proof.
  intros I Hk Hm Hl.
  assert (Hini : initializing x = false).
  { destruct (initializing x) eqn:E; [|done]. destruct (i_init _ _ I _ _ Hm E) as (k0 & p & g & A & _). congruence. }
  assert (Hman : forall m0 x0, <[m:=with_lock (Some k) x]> (managers s) !! m0 = Some x0 ->
    exists x1, managers s !! m0 = Some x1 /\ generation x1 = generation x0 /\ loop x1 = loop x0 /\ initializing x1 = initializing x0 /\
      users x1 = users x0).
  { intros m0 x0 [[<- <-]|[_ H]]%lookup_insert_Some; [by exists x|by exists x0]. }
  constructor; cbn [put_manager installed managers generations calls next answers]; try apply I.
  - intros m0 x0 (x1 & Hx & _)%Hman. by eapply (i_fresh_m _ _ I).
  - intros m0 x0 g (x1 & Hx & Hg & _)%Hman H. rewrite <- Hg in H. by eapply (i_owner _ _ I).
  - intros m0 H. apply lookup_insert_is_Some'. right. by apply (i_installed _ _ I).
  - intros g y Hg Hy. destruct (i_kept _ _ I g y Hg Hy) as [|[|(? & ? & ? & [=] & _)]]; auto.
  - intros g y Hg Hy. destruct (i_open _ _ I g y Hg Hy) as (m0 & x0 & H1 & H2). destruct (decide (m0 = m)) as [->|Hne].
    + exists m, (with_lock (Some k) x). cbn. rewrite lookup_insert_eq. split; [done|]. congruence.
    + exists m0, x0. cbn. by rewrite lookup_insert_ne.
  - intros m0 x0 g y (x1 & Hx & Hg & Hlp & Hi & _)%Hman H1 H2 H3. rewrite <- Hlp. apply (i_managed _ _ I m0 x1 g y); congruence.
  - intros m0 x0 (x1 & Hx & Hg & Hlp & Hi & Hu)%Hman. rewrite <- Hu. by apply (i_users _ _ I).
  - intros j q m0 Hj Hq. apply lookup_insert_is_Some'. right. by apply (i_at _ _ I j q).
  - intros l H. destruct (i_issued _ _ I l H) as [A B]. split; [done|]. intros m0 x0 (x1 & Hx & Hg & _)%Hman H3. apply (B m0 x1); congruence.
  - intros m0 x0 Hi (x1 & Hx & Hg & _ & _ & Hu)%Hman. rewrite <- Hu, <- Hg. by apply (i_inuse _ _ I m0).
  - intros m0 x0 j [[<- <-]|[Hne Hx]]%lookup_insert_Some Hlk Hr; [cbn in Hlk; congruence|]. by apply (i_lock _ _ I m0 x0).
  - intros m0 x0 [[<- <-]|[Hne Hx]]%lookup_insert_Some Hi; [cbn in Hi; congruence|].
    destruct (i_init _ _ I m0 x0 Hx Hi) as (k0 & q & g & A1 & A2 & A3 & A4 & A5). exists k0, q, g. repeat split; try done. congruence.
  - intros j q m0 g Hj Hq _. destruct (i_hold _ _ I j q m0 g Hj Hq ltac:(done)) as (x0 & y & A1 & A2 & A3 & A4 & A5 & A6).
    destruct (decide (m0 = m)) as [->|Hne]; [exfalso; congruence|]. exists x0, y. by rewrite lookup_insert_ne.
  - intros m0 k0 [= <- <-]. exists (with_lock (Some k) x), (Waiting m c). by rewrite lookup_insert_eq.
  - intros t Ht. apply lookup_insert_is_Some'. right. by apply (i_home _ _ I).
Qed.

(** A suspended call goes on: the start or retirement of [g] has come to [y'], and
    [g] is the manager's generation still, or not ([o]). *)
Lemma resume_ok s k m g p x y y' o : inv None s -> calls s !! k = Some p -> holding p = Some (m, g) ->
  managers s !! m = Some x -> generations s !! g = Some y ->
  o = Some g \/ o = None /\ opened y' = false /\ ready y' = false ->
  (tokens y' <> ∅ \/ legacy_pin y' = true -> ready y' = true) -> (ready y' = true -> opened y' = true) ->
  (o = Some g -> managed y' = Some (loop x)) -> (managed y <> None -> managed y' <> None) ->
  inv (Some (m, k)) (put_manager m (with_initializing false (with_generation o x)) (put_generation g y' s)).
Proof.
  intros I Hk Hp Hm Hg Ho H1 H2 H3 H4.
  destruct (i_hold _ _ I k p m g Hk Hp ltac:(done)) as (x0 & y0 & A1 & A2 & A3 & A4 & A5 & A6).
  assert (x0 = x) as -> by congruence. assert (y0 = y) as -> by congruence. clear A1 A5.
  set (x' := with_initializing false (with_generation o x)).
  assert (Hman : forall m0 x0, <[m:=x']> (managers s) !! m0 = Some x0 -> m0 = m /\ x0 = x' \/ m0 <> m /\ managers s !! m0 = Some x0).
  { intros m0 z [[<- <-]|[? ?]]%lookup_insert_Some; auto. }
  assert (Hgen : forall g0 z, <[g:=y']> (generations s) !! g0 = Some z -> g0 = g /\ z = y' \/ g0 <> g /\ generations s !! g0 = Some z).
  { intros g0 z [[<- <-]|[? ?]]%lookup_insert_Some; auto. }
  assert (Hsome : forall g0, is_Some (generations s !! g0) -> is_Some (<[g:=y']> (generations s) !! g0)).
  { intros g0 H. apply lookup_insert_is_Some'. by right. }
  assert (Hsm : forall m0, is_Some (managers s !! m0) -> is_Some (<[m:=x']> (managers s) !! m0)).
  { intros m0 H. apply lookup_insert_is_Some'. by right. }
  assert (Hgo : generation x' = o) by done.
  assert (Hat : at_manager p = Some m) by (by destruct p; cbn in *; simplify_eq).
  constructor; cbn [put_manager put_generation installed managers generations calls next answers].
  - intros m0 z [[-> ->]|[_ Hz]]%Hman; by eapply (i_fresh_m _ _ I).
  - intros g0 z [[-> ->]|[_ Hz]]%Hgen; by eapply (i_fresh_g _ _ I).
  - intros m0 z g0 [[-> ->]|[_ Hz]]%Hman Hzg.
    + rewrite Hgo in Hzg. destruct Ho as [->|[-> _]]; [|done]. injection Hzg as <-. destruct (i_owner _ _ I _ _ _ Hm A3). by split; [|apply Hsome].
    + destruct (i_owner _ _ I _ _ _ Hz Hzg). by split; [|apply Hsome].
  - intros m0 H. by apply Hsm, (i_installed _ _ I).
  - intros g0 z [[-> ->]|[_ Hz]]%Hgen; [done|by apply (i_ready _ _ I g0)].
  - intros g0 z [[-> ->]|[Hne Hz]]%Hgen Hr.
    + right. right. destruct Ho as [->|(_ & _ & Hf)]; [|congruence]. exists m, k, x'. by rewrite lookup_insert_eq.
    + destruct (i_kept _ _ I g0 z Hz Hr) as [|[|(? & ? & ? & [=] & _)]]; auto.
  - intros g0 z [[-> ->]|[Hne Hz]]%Hgen Hop.
    + destruct Ho as [->|(_ & Hf & _)]; [|congruence]. exists m, x'. cbn. by rewrite lookup_insert_eq.
    + destruct (i_open _ _ I g0 z Hz Hop) as (m0 & z0 & B1 & B2). exists m0, z0. cbn. rewrite lookup_insert_ne; [done|congruence].
  - intros g0 z [[-> ->]|[_ Hz]]%Hgen; [done|by apply (i_live _ _ I g0)].
  - intros m0 z g0 w [[-> ->]|[Hne Hz]]%Hman Hzg [[-> ->]|[Hng Hw]]%Hgen Hi.
    + rewrite Hgo in Hzg. by apply H3.
    + rewrite Hgo in Hzg. destruct Ho as [->|[-> _]]; [|done]. congruence.
    + exfalso. destruct (owner_unique _ _ _ _ _ _ _ I Hm A3 Hz Hzg). congruence.
    + by apply (i_managed _ _ I m0 z g0 w).
  - intros m0 z [[-> ->]|[_ Hz]]%Hman; [by apply (i_users _ _ I m x)|by apply (i_users _ _ I)].
  - intros j q m0 Hj Hq. by apply Hsm, (i_at _ _ I j q).
  - apply (i_waiting _ _ I).
  - apply (i_served _ _ I).
  - intros l H. destruct (i_issued _ _ I l H) as [B1 B2]. split; [by apply Hsome|].
    intros m0 z [[-> ->]|[_ Hz]]%Hman Hzg; [|by apply (B2 m0 z)]. rewrite Hgo in Hzg. destruct Ho as [->|[-> _]]; [|done].
    apply (B2 m x Hm). congruence.
  - intros g0 Hpb. destruct (i_published _ _ I g0 Hpb) as (z & Hz & Hz'). destruct (decide (g0 = g)) as [->|Hne].
    + exists y'. rewrite lookup_insert_eq. split; [done|]. apply H4. congruence.
    + exists z. by rewrite lookup_insert_ne.
  - apply (i_release _ _ I).
  - intros m0 z Hi [[-> ->]|[_ Hz]]%Hman; [|by apply (i_inuse _ _ I m0)]. left. cbn.
    destruct (i_users _ _ I _ _ Hm) as (l & Hl & Hin). rewrite <- Hl. assert (k ∈ l) by (apply Hin; by exists p).
    intros Hz. apply size_empty_inv in Hz. clear -Hz H. set_solver.
  - intros m0 z j [[-> ->]|[Hne Hz]]%Hman Hlk Hr; [cbn in Hlk; congruence|]. by apply (i_lock _ _ I m0 z).
  - intros m0 z [[-> ->]|[Hne Hz]]%Hman Hi; [done|].
    destruct (i_init _ _ I m0 z Hz Hi) as (k0 & q & g0 & B1 & B2 & B3 & B4 & B5). exists k0, q, g0. repeat split; try done. congruence.
  - intros j q m0 g0 Hj Hq Hr. destruct (i_hold _ _ I j q m0 g0 Hj Hq ltac:(done)) as (z & w & B1 & B2 & B3 & B4 & B5 & B6).
    destruct (decide (m0 = m)) as [->|Hne]; [exfalso; apply (Hr m); congruence|].
    assert (g0 <> g). { intros ->. destruct (owner_unique _ _ _ _ _ _ _ I Hm A3 B1 B3). congruence. }
    exists z, w. by rewrite !lookup_insert_ne.
  - intros m0 k0 [= <- <-]. exists x', p. by rewrite lookup_insert_eq.
  - intros l Hl. by apply Hsm, (i_home _ _ I).
Qed.

(** *** Sections that suspend again *)

(** The running call suspends in the start of a new generation. *)
Lemma start_ok s k m c x cfg : inv (Some (m, k)) s -> calls s !! k = Some (Waiting m c) -> (exists w, c = Acquire w \/ c = Get w) ->
  managers s !! m = Some x -> generation x = None ->
  inv None (put_call k (Starting m (next s) c)
              (put_manager m (with_initializing true (with_generation (Some (next s)) x))
                (put_generation (next s) (mk_Generation cfg ∅ false false false None) (count_up s)))).
Proof.
  intros I Hk Hc Hm Hg. set (g := next s). set (y := mk_Generation cfg ∅ false false false None).
  set (x' := with_initializing true (with_generation (Some g) x)).
  destruct (i_run _ _ I m k eq_refl) as (x0 & p0 & A1 & A2 & A3 & A4 & A5).
  assert (x0 = x) as -> by congruence. assert (p0 = Waiting m c) as -> by congruence. clear A1 A4 A5.
  assert (Hfresh : generations s !! g = None).
  { destruct (generations s !! g) eqn:E; [|done]. apply (i_fresh_g _ _ I) in E. subst g. lia. }
  assert (Hrel : releases (Waiting m c) = None) by (destruct Hc as (w & [->| ->]); done).
  pose proof (i_waiting _ _ I k (Waiting m c) m Hk eq_refl Hrel eq_refl) as Hinst.
  assert (Hnone : forall m0 x0 g0, managers s !! m0 = Some x0 -> generation x0 = Some g0 -> False).
  { intros m0 x0 g0 H1 H2. destruct (i_owner _ _ I _ _ _ H1 H2) as [H3 _]. assert (m0 = m) as -> by congruence. congruence. }
  assert (Hman : forall m0 x0, <[m:=x']> (managers s) !! m0 = Some x0 -> m0 = m /\ x0 = x' \/ m0 <> m /\ managers s !! m0 = Some x0).
  { intros m0 z [[<- <-]|[? ?]]%lookup_insert_Some; auto. }
  assert (Hgen : forall g0 z, <[g:=y]> (generations s) !! g0 = Some z -> g0 = g /\ z = y \/ g0 <> g /\ generations s !! g0 = Some z).
  { intros g0 z [[<- <-]|[? ?]]%lookup_insert_Some; auto. }
  assert (Hsm : forall m0, is_Some (managers s !! m0) -> is_Some (<[m:=x']> (managers s) !! m0)).
  { intros m0 H. apply lookup_insert_is_Some'. by right. }
  assert (Hcall : forall j q, <[k:=Starting m g c]> (calls s) !! j = Some q -> j = k /\ q = Starting m g c \/ j <> k /\ calls s !! j = Some q).
  { intros j q [[<- <-]|[? ?]]%lookup_insert_Some; auto. }
  constructor; cbn [put_call put_manager put_generation count_up installed managers generations calls next answers].
  - intros m0 z [[-> ->]|[_ Hz]]%Hman; [pose proof (i_fresh_m _ _ I _ _ Hm)|pose proof (i_fresh_m _ _ I _ _ Hz)]; lia.
  - intros g0 z [[-> ->]|[_ Hz]]%Hgen; [lia|]. pose proof (i_fresh_g _ _ I _ _ Hz). lia.
  - intros m0 z g0 [[-> ->]|[_ Hz]]%Hman Hzg; [|by destruct (Hnone _ _ _ Hz Hzg)].
    injection Hzg as <-. split; [done|]. by rewrite lookup_insert_eq.
  - intros m0 H. by apply Hsm, (i_installed _ _ I).
  - intros g0 z [[-> ->]|[_ Hz]]%Hgen; [by intros [?|?]|by apply (i_ready _ _ I g0)].
  - intros g0 z [[-> ->]|[_ Hz]]%Hgen Hr; [done|].
    destruct (i_open _ _ I g0 z Hz (i_live _ _ I g0 z Hz Hr)) as (m0 & x0 & H1 & H2). by destruct (Hnone _ _ _ H1 H2).
  - intros g0 z [[-> ->]|[_ Hz]]%Hgen Ho; [done|]. destruct (i_open _ _ I g0 z Hz Ho) as (m0 & x0 & H1 & H2). by destruct (Hnone _ _ _ H1 H2).
  - intros g0 z [[-> ->]|[_ Hz]]%Hgen; [done|by apply (i_live _ _ I g0)].
  - intros m0 z g0 w [[-> ->]|[_ Hz]]%Hman Hzg _ Hi; [done|by destruct (Hnone _ _ _ Hz Hzg)].
  - assert (Hus : forall m0 z, managers s !! m0 = Some z -> exists l : gset nat, size l = users z /\
      forall j, j ∈ l <-> exists q, <[k:=Starting m g c]> (calls s) !! j = Some q /\ at_manager q = Some m0).
    { intros m0 z Hz. destruct (i_users _ _ I m0 z Hz) as (l & Hl & Hin). exists l. split; [done|]. intros j. rewrite Hin. split.
      - intros (q & Hq & Hat). destruct (decide (j = k)) as [->|Hne].
        + exists (Starting m g c). rewrite lookup_insert_eq. split; [done|]. assert (q = Waiting m c) as -> by congruence. done.
        + exists q. by rewrite lookup_insert_ne.
      - intros (q & [[-> ->]|[Hne Hq]]%Hcall & Hat); [by exists (Waiting m c)|by exists q]. }
    intros m0 z [[-> ->]|[_ Hz]]%Hman; [by apply (Hus m x)|by apply Hus].
  - intros j q m0 [[-> ->]|[_ Hq]]%Hcall Hat; apply Hsm; [apply (i_at _ _ I k (Waiting m c)); [done|by injection Hat as <-]|by apply (i_at _ _ I j q)].
  - intros j q m0 [[-> ->]|[_ Hq]]%Hcall Hat Hr Hh; [done|by apply (i_waiting _ _ I j q)].
  - intros j m0 g0 c0 [[-> [= -> -> ->]]|[_ Hq]]%Hcall; [done|by apply (i_served _ _ I j m0 g0)].
  - intros l H. destruct (i_issued _ _ I l H) as [[z Hz] B2]. split.
    + exists z. rewrite lookup_insert_ne; [done|]. congruence.
    + intros m0 w [[-> ->]|[_ Hw]]%Hman Hwg; [|by apply (B2 m0 w)]. injection Hwg as Hwg. congruence.
  - intros g0 Hp. destruct (i_published _ _ I g0 Hp) as (z & Hz & Hz'). exists z. rewrite lookup_insert_ne; [done|congruence].
  - intros j q l [[-> ->]|[_ Hq]]%Hcall Hr; [|by apply (i_release _ _ I j q)]. destruct Hc as (w & [->| ->]); done.
  - intros m0 z Hi [[-> ->]|[_ Hz]]%Hman; [by right|by apply (i_inuse _ _ I m0)].
  - intros m0 z j [[-> ->]|[Hne Hz]]%Hman Hlk _.
    + assert (j = k) as -> by (cbn in Hlk; congruence). exists (Starting m g c), g. by rewrite lookup_insert_eq.
    + destruct (i_lock _ _ I m0 z j Hz Hlk) as (q & g0 & Hq & Hh); [congruence|]. exists q, g0. split; [|done].
      rewrite lookup_insert_ne; [done|]. intros <-. assert (q = Waiting m c) as -> by congruence. done.
  - intros m0 z [[-> ->]|[Hne Hz]]%Hman Hi.
    + exists k, (Starting m g c), g. by rewrite lookup_insert_eq.
    + destruct (i_init _ _ I m0 z Hz Hi) as (k0 & q & g0 & B1 & B2 & B3 & B4 & B5). exists k0, q, g0. repeat split; try done.
      rewrite lookup_insert_ne; [done|]. intros <-. assert (q = Waiting m c) as -> by congruence. done.
  - intros j q m0 g0 [[-> ->]|[Hne Hq]]%Hcall Hh _.
    + injection Hh as <- <-. exists x', y. by rewrite !lookup_insert_eq.
    + exfalso. destruct (i_hold _ _ I j q m0 g0 Hq Hh) as (z & w & B1 & B2 & B3 & _); [congruence|]. by apply (Hnone m0 z g0).
  - done.
  - intros l Hl. by apply Hsm, (i_home _ _ I).
Qed.

(** The running call suspends in the retirement of the manager's generation. *)
Lemma retire_ok s k m p x g y0 y : inv (Some (m, k)) s -> calls s !! k = Some p -> holding p = None ->
  managers s !! m = Some x -> generation x = Some g -> generations s !! g = Some y0 -> opened y = opened y0 -> managed y = managed y0 ->
  tokens y = ∅ -> legacy_pin y = false -> inv None (retire k m g y s).
Proof.
  intros I Hk Hp Hm Hg Hy Hop Hmg Ht Hpin. unfold retire. set (y' := with_ready false y).
  destruct (i_run _ _ I m k eq_refl) as (x0 & p0 & A1 & A2 & A3 & A4 & A5).
  assert (x0 = x) as -> by congruence. assert (p0 = p) as -> by congruence. clear A1 A4.
  assert (Hgen : forall g0 z, <[g:=y']> (generations s) !! g0 = Some z -> g0 = g /\ z = y' \/ g0 <> g /\ generations s !! g0 = Some z).
  { intros g0 z [[<- <-]|[? ?]]%lookup_insert_Some; auto. }
  assert (Hsome : forall g0, is_Some (generations s !! g0) -> is_Some (<[g:=y']> (generations s) !! g0)).
  { intros g0 H. apply lookup_insert_is_Some'. by right. }
  assert (Hcall : forall j q, <[k:=Retiring m g]> (calls s) !! j = Some q -> j = k /\ q = Retiring m g \/ j <> k /\ calls s !! j = Some q).
  { intros j q [[<- <-]|[? ?]]%lookup_insert_Some; auto. }
  constructor; cbn [put_call put_generation installed managers generations calls next answers].
  - apply (i_fresh_m _ _ I).
  - intros g0 z [[-> ->]|[_ Hz]]%Hgen; by eapply (i_fresh_g _ _ I).
  - intros m0 z g0 Hz Hzg. destruct (i_owner _ _ I _ _ _ Hz Hzg). by split; [|apply Hsome].
  - apply (i_installed _ _ I).
  - intros g0 z [[-> ->]|[_ Hz]]%Hgen; [cbn; rewrite Ht, Hpin; by intros [?|?]|by apply (i_ready _ _ I g0)].
  - intros g0 z [[-> ->]|[Hne Hz]]%Hgen Hr; [done|].
    destruct (i_kept _ _ I g0 z Hz Hr) as [|[|(m0 & k0 & x0 & [= <- <-] & B1 & B2)]]; [by left|by right; left|congruence].
  - intros g0 z [[-> ->]|[Hne Hz]]%Hgen Ho; [by exists m, x|by apply (i_open _ _ I g0 z)].
  - intros g0 z [[-> ->]|[_ Hz]]%Hgen; [done|by apply (i_live _ _ I g0)].
  - intros m0 z g0 w Hz Hzg [[-> ->]|[_ Hw]]%Hgen Hi; [cbn; rewrite Hmg; by apply (i_managed _ _ I m0 z g y0)|by apply (i_managed _ _ I m0 z g0 w)].
  - intros m0 z Hz. destruct (i_users _ _ I m0 z Hz) as (l & Hl & Hin). exists l. split; [done|]. intros j. rewrite Hin. split.
    + intros (q & Hq & Hat). destruct (decide (j = k)) as [->|Hne].
      * exists (Retiring m g). rewrite lookup_insert_eq. split; [done|]. cbn. congruence.
      * exists q. by rewrite lookup_insert_ne.
    + intros (q & [[-> ->]|[Hne Hq]]%Hcall & Hat); [exists p; split; [done|]; cbn in Hat; congruence|by exists q].
  - intros j q m0 [[-> ->]|[_ Hq]]%Hcall Hat; [injection Hat as <-; by exists x|by apply (i_at _ _ I j q)].
  - intros j q m0 [[-> ->]|[_ Hq]]%Hcall Hat Hr Hh; [done|by apply (i_waiting _ _ I j q)].
  - intros j m0 g0 c0 [[-> [=]]|[_ Hq]]%Hcall; by apply (i_served _ _ I j m0 g0).
  - intros l H. destruct (i_issued _ _ I l H) as [B1 B2]. by split; [apply Hsome|].
  - intros g0 Hpb. destruct (i_published _ _ I g0 Hpb) as (z & Hz & Hz'). destruct (decide (g0 = g)) as [->|Hne].
    + exists y'. rewrite lookup_insert_eq. split; [done|]. cbn. congruence.
    + exists z. by rewrite lookup_insert_ne.
  - intros j q l [[-> ->]|[_ Hq]]%Hcall Hr; [done|by apply (i_release _ _ I j q)].
  - apply (i_inuse _ _ I).
  - intros m0 z j Hz Hlk _. destruct (decide (m0 = m)) as [->|Hne].
    + assert (j = k) as -> by congruence. exists (Retiring m g), g. by rewrite lookup_insert_eq.
    + destruct (i_lock _ _ I m0 z j Hz Hlk) as (q & g0 & Hq & Hh); [congruence|]. exists q, g0. split; [|done].
      rewrite lookup_insert_ne; [done|]. intros <-. congruence.
  - intros m0 z Hz Hi. destruct (i_init _ _ I m0 z Hz Hi) as (k0 & q & g0 & B1 & B2 & B3 & B4 & B5). exists k0, q, g0. repeat split; try done.
    rewrite lookup_insert_ne; [done|]. intros <-. congruence.
  - intros j q m0 g0 [[-> ->]|[Hne Hq]]%Hcall Hh _.
    + injection Hh as <- <-. exists x, y'. by rewrite lookup_insert_eq.
    + destruct (i_hold _ _ I j q m0 g0 Hq Hh) as (z & w & B1 & B2 & B3 & B4 & B5 & B6); [congruence|].
      destruct (decide (g0 = g)) as [->|Hng].
      * exfalso. eapply (nobody_holds s m k x g j q m0 I Hm Hg Hq Hh). congruence.
      * exists z, w. by rewrite lookup_insert_ne.
  - done.
  - apply (i_home _ _ I).
Qed.

(** *** Events *)

(** A section that ends: its result is a state of the invariant. *)
Definition goes_on (o : option Factory) : Prop := exists s', o = Some s' /\ inv None s'.

(** A call ends without a lease; nothing else changes. *)
Lemma fail_ok s k e : inv None s -> calls s !! k = None -> inv None (finish k (Err e) s).
Proof.
  intros I Hk. assert (Hd : delete k (calls s) = calls s) by by apply delete_id.
  constructor; cbn [finish installed managers generations calls next answers]; rewrite ?Hd; try apply I.
Qed.

(** A call that waits for no manager appears or goes. *)
Lemma arrive_ok s k l c : inv None s -> calls s !! k = None -> (forall t, c = Release t -> issued t s = true) ->
  inv None (put_call k (Arriving l c) s).
Proof.
  intros I Hk Hc.
  assert (Hcall : forall j q, <[k:=Arriving l c]> (calls s) !! j = Some q -> j = k /\ q = Arriving l c \/ j <> k /\ calls s !! j = Some q).
  { intros j q [[<- <-]|[? ?]]%lookup_insert_Some; auto. }
  assert (Hne : forall j q, calls s !! j = Some q -> k <> j) by (intros j q Hq ->; congruence).
  constructor; cbn [put_call installed managers generations calls next answers]; try apply I.
  - intros m x Hx. destruct (i_users _ _ I m x Hx) as (t & Ht & Hin). exists t. split; [done|]. intros j. rewrite Hin. split.
    + intros (q & Hq & Hat). exists q. rewrite lookup_insert_ne; [done|by eapply Hne].
    + intros (q & [[-> ->]|[_ Hq]]%Hcall & Hat); [done|by exists q].
  - intros j q m [[-> ->]|[_ Hq]]%Hcall Hat; [done|by apply (i_at _ _ I j q)].
  - intros j q m [[-> ->]|[_ Hq]]%Hcall Hat Hr Hh; [done|by apply (i_waiting _ _ I j q)].
  - intros j m g c0 [[-> [=]]|[_ Hq]]%Hcall. by apply (i_served _ _ I j m g).
  - intros j q t [[-> ->]|[_ Hq]]%Hcall Hr; [|by apply (i_release _ _ I j q)]. split; [|done].
    destruct c; try done. injection Hr as ->. by apply Hc.
  - intros m x j Hx Hl Hr. destruct (i_lock _ _ I m x j Hx Hl Hr) as (q & g & Hq & Hh). exists q, g.
    rewrite lookup_insert_ne; [done|by eapply Hne].
  - intros m x Hx Hi. destruct (i_init _ _ I m x Hx Hi) as (k0 & q & g & B1 & B2 & B3 & B4 & B5). exists k0, q, g.
    rewrite lookup_insert_ne; [done|by eapply Hne].
  - intros j q m g [[-> ->]|[_ Hq]]%Hcall Hh Hr; [done|by apply (i_hold _ _ I j q)].
  - done.
Qed.

Lemma unarrive_ok s k l c : inv None s -> calls s !! k = Some (Arriving l c) ->
  inv None (mk_Factory (installed s) (managers s) (generations s) (delete k (calls s)) (next s) (answers s)).
Proof.
  intros I Hk.
  assert (Hcall : forall j q, delete k (calls s) !! j = Some q -> j <> k /\ calls s !! j = Some q) by (intros j q [? ?]%lookup_delete_Some; done).
  assert (Hdel : forall j q, calls s !! j = Some q -> q <> Arriving l c -> delete k (calls s) !! j = Some q).
  { intros j q Hq Hne. rewrite lookup_delete_ne; [done|]. intros <-. congruence. }
  constructor; cbn [installed managers generations calls next answers]; try apply I.
  - intros m x Hx. destruct (i_users _ _ I m x Hx) as (t & Ht & Hin). exists t. split; [done|]. intros j. rewrite Hin. split.
    + intros (q & Hq & Hat). exists q. split; [|done]. apply Hdel; [done|]. by intros ->.
    + intros (q & [_ Hq]%Hcall & Hat). by exists q.
  - intros j q m [_ Hq]%Hcall. by apply (i_at _ _ I j q).
  - intros j q m [_ Hq]%Hcall. by apply (i_waiting _ _ I j q).
  - intros j m g c0 [_ Hq]%Hcall. by apply (i_served _ _ I j m g).
  - intros j q t [_ Hq]%Hcall. by apply (i_release _ _ I j q).
  - intros m x j Hx Hl Hr. destruct (i_lock _ _ I m x j Hx Hl Hr) as (q & g & Hq & Hh). exists q, g. split; [|done].
    apply Hdel; [done|]. by intros ->.
  - intros m x Hx Hi. destruct (i_init _ _ I m x Hx Hi) as (k0 & q & g & B1 & B2 & B3 & B4 & B5). exists k0, q, g.
    repeat split; try done. apply Hdel; [done|]. by intros ->.
  - intros j q m g [_ Hq]%Hcall. by apply (i_hold _ _ I j q).
  - done.
Qed.

(** A call comes to a manager: the installed one, a new one, or that of its lease. *)
Lemma queue_ok s k m c x : inv None s -> calls s !! k = None -> managers s !! m = Some x ->
  (installed s = Some m /\ (forall l, c <> Release l) \/ exists l, c = Release l /\ m = l_manager l /\ issued l s = true) ->
  inv None (put_call k (Waiting m c) (put_manager m (with_users (S (users x)) x) s)).
Proof.
  intros I Hk Hm Hc.
  assert (Hman : forall m0 x0, <[m:=with_users (S (users x)) x]> (managers s) !! m0 = Some x0 ->
    exists x1, managers s !! m0 = Some x1 /\ generation x1 = generation x0 /\ loop x1 = loop x0 /\ initializing x1 = initializing x0 /\
      lock x1 = lock x0 /\ (m0 = m \/ x1 = x0) /\ (m0 = m -> users x0 = S (users x1))).
  { intros m0 x0 [[<- <-]|[? H]]%lookup_insert_Some; [exists x|exists x0]; (repeat split; auto; congruence). }
  assert (Hcall : forall j q, <[k:=Waiting m c]> (calls s) !! j = Some q -> j = k /\ q = Waiting m c \/ j <> k /\ calls s !! j = Some q).
  { intros j q [[<- <-]|[? ?]]%lookup_insert_Some; auto. }
  assert (Hne : forall j q, calls s !! j = Some q -> k <> j) by (intros j q Hq ->; congruence).
  assert (Hsm : forall m0, is_Some (managers s !! m0) -> is_Some (<[m:=with_users (S (users x)) x]> (managers s) !! m0)).
  { intros m0 H. apply lookup_insert_is_Some'. by right. }
  constructor; cbn [put_call put_manager installed managers generations calls next answers]; try apply I.
  - intros m0 z (x1 & Hx & _)%Hman. by eapply (i_fresh_m _ _ I).
  - intros m0 z g (x1 & Hx & Hg & _)%Hman H. rewrite <- Hg in H. by eapply (i_owner _ _ I).
  - intros m0 H. by apply Hsm, (i_installed _ _ I).
  - intros g y Hg Hy. destruct (i_kept _ _ I g y Hg Hy) as [|[|(? & ? & ? & [=] & _)]]; auto.
  - intros g y Hg Hy. destruct (i_open _ _ I g y Hg Hy) as (m0 & x0 & H1 & H2). destruct (decide (m0 = m)) as [->|Hnm].
    + exists m, (with_users (S (users x)) x). cbn. rewrite lookup_insert_eq. split; [done|]. congruence.
    + exists m0, x0. cbn. by rewrite lookup_insert_ne.
  - intros m0 z g y (x1 & Hx & Hg & Hlp & Hi & _)%Hman H1 H2 H3. rewrite <- Hlp. apply (i_managed _ _ I m0 x1 g y); congruence.
  - intros m0 z (x1 & Hx & _ & _ & _ & _ & Hor & Hu)%Hman. destruct (i_users _ _ I m0 x1 Hx) as (t & Ht & Hin).
    destruct (decide (m0 = m)) as [->|Hnm].
    + exists ({[k]} ∪ t). assert (Hnk : k ∉ t) by (intros (q & Hq & _)%Hin; congruence).
      rewrite size_union, size_singleton by (clear -Hnk; set_solver). split; [rewrite Ht, (Hu eq_refl); done|].
      intros j. rewrite elem_of_union, elem_of_singleton, Hin. split.
      * intros [->|(q & Hq & Hat)]; [exists (Waiting m c); by rewrite lookup_insert_eq|]. exists q.
        rewrite lookup_insert_ne; [done|by eapply Hne].
      * intros (q & [[-> ->]|[_ Hq]]%Hcall & Hat); [by left|right; by exists q].
    + destruct Hor as [|<-]; [done|]. exists t. split; [done|]. intros j. rewrite Hin. split.
      * intros (q & Hq & Hat). exists q. rewrite lookup_insert_ne; [done|by eapply Hne].
      * intros (q & [[-> ->]|[_ Hq]]%Hcall & Hat); [cbn in Hat; congruence|by exists q].
  - intros j q m0 [[-> ->]|[_ Hq]]%Hcall Hat; apply Hsm; [injection Hat as <-; by exists x|by apply (i_at _ _ I j q)].
  - intros j q m0 [[-> ->]|[_ Hq]]%Hcall Hat Hr Hh; [|by apply (i_waiting _ _ I j q)]. injection Hat as <-.
    destruct Hc as [[Hi _]|(l & -> & _)]; [done|done].
  - intros j m0 g c0 [[-> [=]]|[_ Hq]]%Hcall. by apply (i_served _ _ I j m0 g).
  - intros l H. destruct (i_issued _ _ I l H) as [B1 B2]. split; [done|].
    intros m0 z (x1 & Hx & Hg & _)%Hman H3. apply (B2 m0 x1); congruence.
  - intros j q l [[-> ->]|[_ Hq]]%Hcall Hr; [|by apply (i_release _ _ I j q)].
    destruct Hc as [[_ Hno]|(l' & -> & -> & Hiss)].
    + destruct c; try done. by destruct (Hno l0).
    + injection Hr as ->. split; [done|]. by intros m0 [= <-].
  - intros m0 z Hi (x1 & Hx & Hg & _ & _ & _ & Hor & Hu)%Hman. destruct (decide (m0 = m)) as [->|Hnm].
    + left. rewrite (Hu eq_refl). done.
    + destruct Hor as [|<-]; [done|]. by apply (i_inuse _ _ I m0).
  - intros m0 z j (x1 & Hx & _ & _ & _ & Hlk & _)%Hman Hl Hr. rewrite <- Hlk in Hl.
    destruct (i_lock _ _ I m0 x1 j Hx Hl Hr) as (q & g & Hq & Hh). exists q, g. rewrite lookup_insert_ne; [done|by eapply Hne].
  - intros m0 z (x1 & Hx & _ & _ & Hi & Hlk & _)%Hman Hiz. rewrite <- Hi in Hiz.
    destruct (i_init _ _ I m0 x1 Hx Hiz) as (k0 & q & g & B1 & B2 & B3 & B4 & B5). exists k0, q, g. rewrite <- Hlk.
    rewrite lookup_insert_ne; [done|by eapply Hne].
  - intros j q m0 g [[-> ->]|[_ Hq]]%Hcall Hh Hr; [done|].
    destruct (i_hold _ _ I j q m0 g Hq Hh Hr) as (z & w & B1 & B2 & B3 & B4 & B5 & B6).
    destruct (decide (m0 = m)) as [->|Hnm].
    + exists (with_users (S (users x)) x), w. rewrite lookup_insert_eq. assert (z = x) as -> by congruence. done.
    + exists z, w. by rewrite lookup_insert_ne.
  - done.
  - intros l Hl. by apply Hsm, (i_home _ _ I).
Qed.

(** Installing a manager where there is none, with its first call on the way *)
Lemma install_ok s k l c : inv None s -> calls s !! k = None -> installed s = None -> (forall t, c <> Release t) ->
  inv None (put_call k (Waiting (next s) c) (put_manager (next s) (mk_Manager l None None false 1)
    (count_up (set_installed (Some (next s)) s)))).
Proof.
  intros I Hk Hinst Hc. set (m := next s). set (x := mk_Manager l None None false 1).
  assert (Hfresh : managers s !! m = None).
  { destruct (managers s !! m) eqn:E; [|done]. apply (i_fresh_m _ _ I) in E. subst m. lia. }
  assert (Hnone : forall m0 x0 g, managers s !! m0 = Some x0 -> generation x0 = Some g -> False).
  { intros m0 x0 g H1 H2. destruct (i_owner _ _ I _ _ _ H1 H2) as [H3 _]. congruence. }
  assert (Hman : forall m0 z, <[m:=x]> (managers s) !! m0 = Some z -> m0 = m /\ z = x \/ m0 <> m /\ managers s !! m0 = Some z).
  { intros m0 z [[<- <-]|[? ?]]%lookup_insert_Some; auto. }
  assert (Hcall : forall j q, <[k:=Waiting m c]> (calls s) !! j = Some q -> j = k /\ q = Waiting m c \/ j <> k /\ calls s !! j = Some q).
  { intros j q [[<- <-]|[? ?]]%lookup_insert_Some; auto. }
  assert (Hne : forall j q, calls s !! j = Some q -> k <> j) by (intros j q Hq ->; congruence).
  assert (Hnat : forall j q, calls s !! j = Some q -> at_manager q = Some m -> False).
  { intros j q Hq Hat. destruct (i_at _ _ I j q m Hq Hat). congruence. }
  assert (Hsm : forall m0, is_Some (managers s !! m0) -> is_Some (<[m:=x]> (managers s) !! m0)).
  { intros m0 H. apply lookup_insert_is_Some'. by right. }
  assert (Hdead : forall g y, generations s !! g = Some y -> opened y = true -> False).
  { intros g y Hg Ho. destruct (i_open _ _ I g y Hg Ho) as (m0 & x0 & H1 & H2). by apply (Hnone m0 x0 g). }
  constructor; cbn [put_call put_manager count_up set_installed installed managers generations calls next answers].
  - intros m0 z [[-> ->]|[_ Hz]]%Hman; [lia|]. pose proof (i_fresh_m _ _ I _ _ Hz). lia.
  - intros g y Hg. pose proof (i_fresh_g _ _ I _ _ Hg). lia.
  - intros m0 z g [[-> ->]|[_ Hz]]%Hman Hzg; [done|by destruct (Hnone _ _ _ Hz Hzg)].
  - intros m0 [= <-]. by rewrite lookup_insert_eq.
  - apply (i_ready _ _ I).
  - intros g y Hg Hy. by destruct (Hdead g y Hg (i_live _ _ I g y Hg Hy)).
  - intros g y Hg Hy. by destruct (Hdead g y Hg Hy).
  - apply (i_live _ _ I).
  - intros m0 z g y [[-> ->]|[_ Hz]]%Hman Hzg; [done|by destruct (Hnone _ _ _ Hz Hzg)].
  - intros m0 z [[-> ->]|[Hnm Hz]]%Hman.
    + exists {[k]}. rewrite size_singleton. split; [done|]. intros j. rewrite elem_of_singleton. split.
      * intros ->. exists (Waiting m c). by rewrite lookup_insert_eq.
      * intros (q & [[-> ->]|[_ Hq]]%Hcall & Hat); [done|by destruct (Hnat j q Hq Hat)].
    + destruct (i_users _ _ I m0 z Hz) as (t & Ht & Hin). exists t. split; [done|]. intros j. rewrite Hin. split.
      * intros (q & Hq & Hat). exists q. rewrite lookup_insert_ne; [done|by eapply Hne].
      * intros (q & [[-> ->]|[_ Hq]]%Hcall & Hat); [cbn in Hat; congruence|by exists q].
  - intros j q m0 [[-> ->]|[_ Hq]]%Hcall Hat; [injection Hat as <-; by rewrite lookup_insert_eq|by apply Hsm, (i_at _ _ I j q)].
  - intros j q m0 [[-> ->]|[_ Hq]]%Hcall Hat Hr Hh; [by injection Hat as <-|].
    pose proof (i_waiting _ _ I j q m0 Hq Hat Hr Hh). congruence.
  - intros j m0 g c0 [[-> [=]]|[_ Hq]]%Hcall. by apply (i_served _ _ I j m0 g).
  - intros t H. destruct (i_issued _ _ I t H) as [B1 B2]. split; [done|].
    intros m0 z [[-> ->]|[_ Hz]]%Hman Hzg; [done|by apply (B2 m0 z)].
  - apply (i_published _ _ I).
  - intros j q t [[-> ->]|[_ Hq]]%Hcall Hr; [destruct c; try done; by destruct (Hc l0)|by apply (i_release _ _ I j q)].
  - intros m0 z [= <-] [[_ ->]|[? _]]%Hman; [by left|done].
  - intros m0 z j [[-> ->]|[_ Hz]]%Hman Hl Hr; [done|].
    destruct (i_lock _ _ I m0 z j Hz Hl Hr) as (q & g & Hq & Hh). exists q, g. rewrite lookup_insert_ne; [done|by eapply Hne].
  - intros m0 z [[-> ->]|[_ Hz]]%Hman Hi; [done|].
    destruct (i_init _ _ I m0 z Hz Hi) as (k0 & q & g & B1 & B2 & B3 & B4 & B5). exists k0, q, g.
    rewrite lookup_insert_ne; [done|by eapply Hne].
  - intros j q m0 g [[-> ->]|[_ Hq]]%Hcall Hh Hr; [done|].
    destruct (i_hold _ _ I j q m0 g Hq Hh Hr) as (z & w & B1 & B2 & B3 & _). by destruct (Hnone _ _ _ B1 B3).
  - done.
  - intros t Ht. by apply Hsm, (i_home _ _ I).
Qed.

Lemma enter_ok s k l c : inv None s -> calls s !! k = Some (Arriving l c) -> goes_on (enter k l c s).
Proof.
  intros I Hk.
  assert (Hrel : forall t, c = Release t -> issued t s = true) by (intros t ->; by apply (i_release _ _ I k (Arriving l (Release t)))).
  pose proof (unarrive_ok s k l c I Hk) as I'. set (s0 := mk_Factory (installed s) (managers s) (generations s) (delete k (calls s)) (next s) (answers s)) in *.
  assert (Hk' : calls s0 !! k = None) by apply lookup_delete_eq.
  assert (Hput : forall p (t : Factory), put_call k p t = put_call k p (mk_Factory (installed t) (managers t) (generations t) (delete k (calls t)) (next t) (answers t))).
  { intros p t. unfold put_call. cbn. by rewrite insert_delete_eq. }
  assert (Hgo : forall m x, managers s !! m = Some x ->
    installed s = Some m /\ (forall l, c <> Release l) \/ (exists l, c = Release l /\ m = l_manager l /\ issued l s = true) ->
    goes_on (if Nat.eqb (loop x) l then Some (put_call k (Waiting m c) (put_manager m (with_users (S (users x)) x) s))
             else Some (finish k (Err RuntimeError) s))).
  { intros m x Hm Hc. destruct (Nat.eqb (loop x) l); eexists; (split; [reflexivity|]).
    - rewrite Hput. by apply (queue_ok s0).
    - apply (fail_ok s0 k RuntimeError I') in Hk'. unfold finish in *. cbn in Hk'. by rewrite (delete_id (delete k (calls s))) in Hk' by apply lookup_delete_eq. }
  unfold enter. destruct c as [w|w| |t].
  4:{ destruct (i_home _ _ I t (Hrel t eq_refl)) as [x Hm]. cbn [mbind option_bind]. rewrite Hm. cbn [mbind option_bind].
      apply Hgo; [done|]. right. exists t. by rewrite Hrel. }
  all: destruct (installed s) as [m|] eqn:Hi; cbn [mbind option_bind].
  all: try (rewrite Hi; destruct (i_installed _ _ I m Hi) as [x Hm]; cbn [mbind option_bind]; rewrite Hm; cbn [mbind option_bind];
            apply Hgo; [done|by left]).
  all: cbn [put_manager set_installed count_up installed managers mbind option_bind]; rewrite lookup_insert_eq;
    cbn [mbind option_bind loop users]; rewrite Nat.eqb_refl; eexists; (split; [reflexivity|]); rewrite Hput.
  all: match goal with |- inv None (put_call _ (Waiting _ ?c) _) => pose proof (install_ok s0 k l c I' Hk' eq_refl ltac:(done)) as Hins end.
  all: unfold put_manager, put_call, count_up, set_installed, with_users in *; cbn in *; rewrite insert_insert_eq; exact Hins.
Qed.

(** A running section over the manager's generation *)
Lemma owned_run s m k x g y : inv (Some (m, k)) s -> managers s !! m = Some x -> generation x = Some g -> generations s !! g = Some y ->
  exempt (Some (m, k)) g s /\ owned g s /\ managed y = Some (loop x).
Proof.
  intros I Hm Hg Hy. split; [by exists m, k, x|]. split; [by exists m, x|]. apply (i_managed _ _ I m x g y); try done.
  destruct (i_run _ _ I m k eq_refl) as (x0 & p & A1 & _ & A3 & _). congruence.
Qed.

(** A write of the manager's generation by the running section *)
Lemma put_current_ok s m k x g y y' : inv (Some (m, k)) s -> managers s !! m = Some x -> generation x = Some g ->
  generations s !! g = Some y -> ready y' = true -> opened y' = opened y -> ready y = true -> managed y' = managed y ->
  inv (Some (m, k)) (put_generation g y' s).
Proof.
  intros I Hm Hg Hy H1 H2 H3 H4. destruct (owned_run s m k x g y I Hm Hg Hy) as (Hex & How & Hman).
  apply (put_generation_ok _ s g y y' I Hy); try done; [by right; right|rewrite H2; intros _; by apply (i_live _ _ I g)| | |].
  - intros m0 x0 Hx0 Hg0 _. destruct (owner_unique _ _ _ _ _ _ _ I Hm Hg Hx0 Hg0) as [<- <-]. congruence.
  - congruence.
  - intros k0 p m0 Hk0 Hp0 Hr. exfalso. by apply (nobody_holds s m k x g k0 p m0 I Hm Hg Hk0 Hp0).
Qed.

Lemma serve_ok s m k x g y c p : inv (Some (m, k)) s -> managers s !! m = Some x -> generation x = Some g ->
  generations s !! g = Some y -> ready y = true -> calls s !! k = Some p -> at_manager p = Some m ->
  (exists w, c = Acquire w \/ c = Get w) -> goes_on (serve k m g c s).
Proof.
  intros I Hm Hg Hy Hr Hk Hp (w & [->| ->]); unfold serve; rewrite Hy; cbn [mbind option_bind].
  - set (y' := with_tokens _ y).
    pose proof (put_current_ok s m k x g y y' I Hm Hg Hy Hr eq_refl Hr eq_refl) as I'. apply count_up_ok in I'.
    destruct (owned_run s m k x g y I Hm Hg Hy) as (_ & _ & Hman).
    eapply (leave_ok _ k m _ _ x p I'); [by left|exact Hm|exact Hk|exact Hp| |].
    + intros g0 z _ Hg0 Hz _. cbn in Hz. assert (g0 = g) as -> by congruence. rewrite lookup_insert_eq in Hz. injection Hz as <-.
      left. cbn. clear. set_solver.
    + cbn. split; [|split; [by exists x|]].
      * exists y'. rewrite lookup_insert_eq. split; [done|]. cbn. congruence.
      * intros m0 x0 Hx0 Hg0. by destruct (owner_unique _ _ _ _ _ _ _ I Hm Hg Hx0 Hg0).
  - set (y' := with_pin true y).
    pose proof (put_current_ok s m k x g y y' I Hm Hg Hy Hr eq_refl Hr eq_refl) as I'.
    destruct (owned_run s m k x g y I Hm Hg Hy) as (_ & _ & Hman).
    eapply (leave_ok _ k m _ _ x p I'); [by left|exact Hm|exact Hk|exact Hp| |].
    + intros g0 z _ Hg0 Hz _. cbn in Hz. assert (g0 = g) as -> by congruence. rewrite lookup_insert_eq in Hz. injection Hz as <-. by right.
    + cbn. exists y'. rewrite lookup_insert_eq. split; [done|]. cbn. congruence.
Qed.

(** Leaving without a result, with the manager's generation as it is *)
Lemma leave_quietly s m k x p r : inv (Some (m, k)) s -> managers s !! m = Some x -> calls s !! k = Some p -> at_manager p = Some m ->
  answered r s ->
  (forall g y, generation x = Some g -> generations s !! g = Some y -> ready y = true -> tokens y <> ∅ \/ legacy_pin y = true) ->
  goes_on (leave k m r s).
Proof. intros I Hm Hk Hp Hr Hkept. eapply (leave_ok _ k m r s x p I); eauto. Qed.

Lemma ready_kept s g y : inv None s -> generations s !! g = Some y -> ready y = true -> tokens y <> ∅ \/ legacy_pin y = true.
Proof. intros I Hg Hr. destruct (i_kept _ _ I g y Hg Hr) as [|[|(? & ? & ? & [=] & _)]]; auto. Qed.

Lemma be_ready_ok s m k x c w d : inv None s -> calls s !! k = Some (Waiting m c) -> managers s !! m = Some x -> lock x = None ->
  c = Acquire w \/ c = Get w -> goes_on (be_ready same k m c w d (put_manager m (with_lock (Some k) x) s)).
Proof.
  intros I Hk Hm Hl Hc. pose proof (take_lock_inv s k m c x I Hk Hm Hl) as I'. set (s1 := put_manager m (with_lock (Some k) x) s) in *.
  assert (Hm1 : managers s1 !! m = Some (with_lock (Some k) x)) by apply lookup_insert_eq.
  assert (Hq : forall r, answered r s1 -> goes_on (leave k m r s1)).
  { intros r Hr. eapply leave_quietly; [exact I'|exact Hm1|exact Hk|done|exact Hr|]. intros g y _ Hy Hrd. by apply (ready_kept s g y I). }
  unfold be_ready. rewrite Hm1. cbn [mbind option_bind]. change (generation (with_lock (Some k) x)) with (generation x).
  destruct (generation x) as [g|] eqn:Hg.
  - destruct (i_owner _ _ I m x g Hm Hg) as [_ [y Hy]]. change (generations s1) with (generations s). rewrite Hy. cbn [mbind option_bind].
    destruct (ready y) eqn:Hr; cbn [negb]; [|by apply Hq]. destruct (match w with Some _ => _ | None => _ end); [by apply Hq|].
    eapply (serve_ok s1 m k _ g y c (Waiting m c)); try done. by exists w.
  - destruct d as [cfg|e]; [|by apply Hq]. eexists. split; [reflexivity|].
    apply (start_ok s1 k m c (with_lock (Some k) x)); try done. by exists w.
Qed.

Lemma release_ok s m k x l : inv None s -> calls s !! k = Some (Waiting m (Release l)) -> managers s !! m = Some x -> lock x = None ->
  goes_on (release k m l (put_manager m (with_lock (Some k) x) s)).
Proof.
  intros I Hk Hm Hl. pose proof (take_lock_inv s k m _ x I Hk Hm Hl) as I'. set (s1 := put_manager m (with_lock (Some k) x) s) in *.
  assert (Hm1 : managers s1 !! m = Some (with_lock (Some k) x)) by apply lookup_insert_eq.
  destruct (i_release _ _ I k _ l Hk eq_refl) as [Hiss Hhome]. specialize (Hhome m eq_refl).
  destruct (i_issued _ _ I l Hiss) as [[y Hy] Hown]. set (g := l_generation l) in *.
  unfold release. fold g. change (generations s1) with (generations s). rewrite Hy. cbn [mbind option_bind].
  destruct (bool_decide_reflect (l_token l ∈ tokens y)) as [Ht|Ht].
  - assert (Hr : ready y = true). { apply (i_ready _ _ I g); [done|]. left. clear -Ht. set_solver. }
    destruct (i_open _ _ I g y Hy (i_live _ _ I g y Hy Hr)) as (m0 & x0 & Hx0 & Hg0).
    assert (m0 = m) as -> by (rewrite Hhome; by apply (Hown m0 x0)). assert (x0 = x) as -> by congruence.
    set (y' := with_tokens _ y).
    pose proof (put_current_ok s1 m k _ g y y' I' Hm1 Hg0 Hy Hr eq_refl Hr eq_refl) as I2.
    assert (Hy' : generations (put_generation g y' s1) !! g = Some y') by apply lookup_insert_eq.
    destruct (bool_decide_reflect (tokens y' = ∅)) as [He|He]; cbn [andb].
    + destruct (legacy_pin y') eqn:Hpin; cbn [negb].
      * eapply leave_quietly; [exact I2|exact Hm1|exact Hk|done|done|]. intros g1 z Hg1 Hz _. assert (g1 = g) as -> by (cbn in Hg1; congruence).
        right. congruence.
      * eexists. split; [reflexivity|]. by eapply (retire_ok _ k m _ _ g y' y' I2 Hk).
    + eapply leave_quietly; [exact I2|exact Hm1|exact Hk|done|done|]. intros g1 z Hg1 Hz _. assert (g1 = g) as -> by (cbn in Hg1; congruence).
      left. congruence.
  - eapply leave_quietly; [exact I'|exact Hm1|exact Hk|done|done|]. intros g1 z _ Hz Hr. by apply (ready_kept s g1 z I).
Qed.

Lemma reset_ok s m k x : inv None s -> calls s !! k = Some (Waiting m Reset) -> managers s !! m = Some x -> lock x = None ->
  goes_on (reset k m (put_manager m (with_lock (Some k) x) s)).
Proof.
  intros I Hk Hm Hl. pose proof (take_lock_inv s k m _ x I Hk Hm Hl) as I'. set (s1 := put_manager m (with_lock (Some k) x) s) in *.
  assert (Hm1 : managers s1 !! m = Some (with_lock (Some k) x)) by apply lookup_insert_eq.
  assert (Hq : forall r, answered r s1 -> goes_on (leave k m r s1)).
  { intros r Hr. eapply leave_quietly; [exact I'|exact Hm1|exact Hk|done|exact Hr|]. intros g y _ Hy Hrd. by apply (ready_kept s g y I). }
  unfold reset. rewrite Hm1. cbn [mbind option_bind]. destruct (busy _ s1) eqn:Hb; [by apply Hq|].
  change (generation (with_lock (Some k) x)) with (generation x). destruct (generation x) as [g|] eqn:Hg; [|by apply Hq].
  destruct (i_owner _ _ I m x g Hm Hg) as [_ [y Hy]]. change (generations s1) with (generations s). rewrite Hy. cbn [mbind option_bind].
  unfold busy in Hb. apply orb_false_iff in Hb as [_ Hb]. change (generation (with_lock (Some k) x)) with (generation x) in Hb.
  rewrite Hg in Hb. cbn [mbind option_bind] in Hb. change (generations s1) with (generations s) in Hb. rewrite Hy in Hb.
  apply bool_decide_eq_false, dec_stable in Hb.
  eexists. split; [reflexivity|]. by eapply (retire_ok s1 k m _ _ g y (with_pin false y) I' Hk).
Qed.

Lemma unlocked_goes_on s k m x c d : inv None s -> calls s !! k = Some (Waiting m c) -> managers s !! m = Some x -> lock x = None ->
  goes_on (take_lock same k m c d s).
Proof.
  intros I Hk Hm Hl. unfold take_lock. rewrite Hm. cbn [mbind option_bind]. rewrite Hl. destruct c as [w|w| |l].
  - apply be_ready_ok; auto.
  - apply be_ready_ok; auto.
  - by apply reset_ok.
  - by apply release_ok.
Qed.

Lemma lock_ok s k m c d : inv None s -> calls s !! k = Some (Waiting m c) ->
  match take_lock same k m c d s with Some s' => inv None s' | None => True end.
Proof.
  intros I Hk. destruct (i_at _ _ I k _ m Hk eq_refl) as [x Hm]. destruct (lock x) eqn:Hl.
  - unfold take_lock. rewrite Hm. cbn [mbind option_bind]. by rewrite Hl.
  - by destruct (unlocked_goes_on s k m x c d I Hk Hm Hl) as (s' & -> & I').
Qed.

(** *** Answers of [initialize] and [close] *)

(** A failed start goes on to its clean-up. *)
Lemma undoing_ok s k m g c e : inv None s -> calls s !! k = Some (Starting m g c) -> inv None (put_call k (Undoing m g e) s).
Proof.
  intros I Hk.
  assert (Hcall : forall j q, <[k:=Undoing m g e]> (calls s) !! j = Some q -> j = k /\ q = Undoing m g e \/ j <> k /\ calls s !! j = Some q).
  { intros j q [[<- <-]|[? ?]]%lookup_insert_Some; auto. }
  assert (Hput : forall j q, calls s !! j = Some q -> exists q', <[k:=Undoing m g e]> (calls s) !! j = Some q' /\
    at_manager q' = at_manager q /\ holding q' = holding q /\ starting q' = starting q).
  { intros j q Hq. destruct (decide (j = k)) as [->|Hne].
    - exists (Undoing m g e). rewrite lookup_insert_eq. assert (q = Starting m g c) as -> by congruence. done.
    - exists q. by rewrite lookup_insert_ne. }
  constructor; cbn [put_call installed managers generations calls next answers]; try apply I.
  - intros m0 x Hx. destruct (i_users _ _ I m0 x Hx) as (t & Ht & Hin). exists t. split; [done|]. intros j. rewrite Hin. split.
    + intros (q & Hq & Hat). destruct (Hput j q Hq) as (q' & Hq' & Hat' & _). exists q'. by rewrite Hat'.
    + intros (q & [[-> ->]|[_ Hq]]%Hcall & Hat); [by exists (Starting m g c)|by exists q].
  - intros j q m0 [[-> ->]|[_ Hq]]%Hcall Hat; [by apply (i_at _ _ I k (Starting m g c))|by apply (i_at _ _ I j q)].
  - intros j q m0 [[-> ->]|[_ Hq]]%Hcall Hat Hr Hh; [done|by apply (i_waiting _ _ I j q)].
  - intros j m0 g0 c0 [[-> [=]]|[_ Hq]]%Hcall. by apply (i_served _ _ I j m0 g0).
  - intros j q t [[-> ->]|[_ Hq]]%Hcall Hr; [done|by apply (i_release _ _ I j q)].
  - intros m0 x j Hx Hl Hr. destruct (i_lock _ _ I m0 x j Hx Hl Hr) as (q & g0 & Hq & Hh).
    destruct (Hput j q Hq) as (q' & Hq' & _ & Hh' & _). exists q', g0. by rewrite Hh'.
  - intros m0 x Hx Hi. destruct (i_init _ _ I m0 x Hx Hi) as (k0 & q & g0 & B1 & B2 & B3 & B4 & B5).
    destruct (Hput k0 q B3) as (q' & Hq' & _ & Hh' & Hs'). exists k0, q', g0. by rewrite Hh', Hs'.
  - intros j q m0 g0 [[-> ->]|[_ Hq]]%Hcall Hh Hr; [by apply (i_hold _ _ I k (Starting m g c))|by apply (i_hold _ _ I j q)].
  - done.
Qed.

Lemma started_ok s k m g c r b : inv None s -> calls s !! k = Some (Starting m g c) -> goes_on (started k m g c r b s).
Proof.
  intros I Hk. destruct (i_hold _ _ I k _ m g Hk eq_refl ltac:(done)) as (x & y & Hm & Hl & Hg & Hi & Hy & Hr & Hn).
  unfold started. rewrite Hm. cbn [mbind option_bind]. rewrite Hy. cbn [mbind option_bind]. destruct r as [u|e].
  - set (y' := with_ready true (with_api true (Some (loop x)) y)).
    assert (I' : inv (Some (m, k)) (put_manager m (with_initializing false (with_generation (Some g) x)) (put_generation g y' s))).
    { apply (resume_ok s k m g _ x y y' (Some g) I Hk); try done. by left. }
    assert (Hx : with_initializing false (with_generation (Some g) x) = with_initializing false x) by (unfold with_initializing; cbn; by rewrite <- Hg).
    rewrite Hx in I'.
    apply (serve_ok _ m k (with_initializing false x) g y' c (Starting m g c) I'); try done;
      [apply lookup_insert_eq|apply lookup_insert_eq|by apply (i_served _ _ I k m g)].
  - eexists. split; [reflexivity|]. apply (undoing_ok _ k m g c e); [|done].
    apply (put_generation_ok None s g y _ I Hy); try done.
    + intros Hne. exfalso. pose proof (i_ready _ _ I g y Hy Hne). congruence.
    + intros Hc. exfalso. cbn in Hc. congruence.
    + intros _. by exists m, x.
    + cbn. congruence.
    + intros m0 x0 Hx0 Hg0 Hi0. destruct (owner_unique _ _ _ _ _ _ _ I Hm Hg Hx0 Hg0) as [<- <-]. cbn in Hi. congruence.
    + intros Hc. by destruct (Hc (Hn eq_refl)).
Qed.

Lemma undone_ok s k m g e r b : inv None s -> calls s !! k = Some (Undoing m g e) -> goes_on (undone k m g e r b s).
Proof.
  intros I Hk. destruct (i_hold _ _ I k _ m g Hk eq_refl ltac:(done)) as (x & y & Hm & Hl & Hg & Hi & Hy & Hr & Hn).
  unfold undone. rewrite Hm. cbn [mbind option_bind]. rewrite Hy. cbn [mbind option_bind].
  assert (Hidle : tokens y <> ∅ \/ legacy_pin y = true -> False) by (intros Hne; pose proof (i_ready _ _ I g y Hy Hne); congruence).
  destruct r as [u|e'].
  - set (y' := with_api false None y).
    assert (I' : inv (Some (m, k)) (put_manager m (with_initializing false (with_generation None x)) (put_generation g y' s))).
    { apply (resume_ok s k m g _ x y y' None I Hk); try done; [by right|cbn; congruence|]. intros Hc. by destruct (Hc (Hn eq_refl)). }
    eapply (leave_quietly _ m k _ (Undoing m g e)); [exact I'|apply lookup_insert_eq|exact Hk|done|done|done].
  - set (y' := with_api b (Some (loop x)) y).
    assert (I' : inv (Some (m, k)) (put_manager m (with_initializing false (with_generation (Some g) x)) (put_generation g y' s))).
    { apply (resume_ok s k m g _ x y y' (Some g) I Hk); try done; [by left|cbn; congruence]. }
    assert (Hx : with_initializing false (with_generation (Some g) x) = with_initializing false x) by (unfold with_initializing; cbn; by rewrite <- Hg).
    rewrite Hx in I'.
    eapply (leave_quietly _ m k (with_initializing false x) (Undoing m g e)); [exact I'|apply lookup_insert_eq|exact Hk|done|done|].
    intros g0 z Hg0 Hz Hrz. cbn in Hg0, Hz. assert (g0 = g) as -> by congruence. rewrite lookup_insert_eq in Hz. injection Hz as <-. cbn in Hrz. congruence.
Qed.

Lemma retired_ok s k m g r b cancelled : inv None s -> calls s !! k = Some (Retiring m g) -> goes_on (retired k m g r b cancelled s).
Proof.
  intros I Hk. destruct (i_hold _ _ I k _ m g Hk eq_refl ltac:(done)) as (x & y & Hm & Hl & Hg & Hi & Hy & Hr & _).
  pose proof (i_managed _ _ I m x g y Hm Hg Hy Hi) as Hman.
  unfold retired. rewrite Hm. cbn [mbind option_bind]. rewrite Hy. cbn [mbind option_bind]. rewrite bool_decide_eq_true_2 by done.
  assert (Hidle : tokens y <> ∅ \/ legacy_pin y = true -> False) by (intros Hne; pose proof (i_ready _ _ I g y Hy Hne); congruence).
  assert (Hstay : forall b', inv (Some (m, k)) (put_generation g (with_api b' (managed y) y) s)).
  { intros b'. set (y' := with_api b' (managed y) y).
    assert (I' : inv (Some (m, k)) (put_manager m (with_initializing false (with_generation (Some g) x)) (put_generation g y' s))).
    { apply (resume_ok s k m g _ x y y' (Some g) I Hk); try done; [by left|cbn; congruence]. }
    assert (Hx : with_initializing false (with_generation (Some g) x) = x).
    { unfold with_initializing, with_generation; cbn. rewrite <- Hg. cbn in Hi. rewrite <- Hi. by destruct x. }
    rewrite Hx in I'. unfold put_manager in I'. cbn in I'. by rewrite insert_id in I'. }
  destruct r as [u|e].
  - destruct cancelled.
    + eapply (leave_quietly _ m k x (Retiring m g)); [apply Hstay|exact Hm|exact Hk|done|done|].
      intros g0 z Hg0 Hz Hrz. cbn in Hz. assert (g0 = g) as -> by congruence. rewrite lookup_insert_eq in Hz. injection Hz as <-. cbn in Hrz. congruence.
    + assert (I' : inv (Some (m, k)) (put_manager m (with_initializing false (with_generation None x)) (put_generation g (with_api false (managed y) y) s))).
      { apply (resume_ok s k m g _ x y _ None I Hk); try done; [by right|cbn; congruence]. }
      assert (Hx : with_initializing false (with_generation None x) = with_generation None x).
      { unfold with_initializing, with_generation; cbn. cbn in Hi. by rewrite <- Hi. }
      rewrite Hx in I'.
      eapply (leave_quietly _ m k (with_generation None x) (Retiring m g)); [exact I'|apply lookup_insert_eq|exact Hk|done|done|done].
  - eapply (leave_quietly _ m k x (Retiring m g)); [apply Hstay|exact Hm|exact Hk|done|done|].
    intros g0 z Hg0 Hz Hrz. cbn in Hz. assert (g0 = g) as -> by congruence. rewrite lookup_insert_eq in Hz. injection Hz as <-. cbn in Hrz. congruence.
Qed.

Lemma exec_inv e s s' : inv None s -> exec same e s = Some s' -> inv None s'.
Proof.
  intros I H.
  assert (Hgo : forall o, goes_on o -> o = Some s' -> inv None s') by (intros o (t & -> & Ht) [= <-]; exact Ht).
  destruct e as [k l c|k|k d|k|k r b|k r b|k r b cancelled|g]; cbn [exec] in H.
  - unfold start_call in H. destruct (calls s !! k) eqn:Hk; [done|].
    assert (Ha : forall ok, (forall t, c = Release t -> issued t s = true) ->
      Some (if (ok : bool) then put_call k (Arriving l c) s else finish k (Err RuntimeError) s) = Some s' -> inv None s').
    { intros ok Hc [= <-]. destruct ok; [by apply arrive_ok|by apply fail_ok]. }
    destruct c as [w|w| |t]; [by apply (Ha true)|by apply (Ha true)|by eapply Ha; [|exact H]|].
    destruct (issued t s) eqn:Ht; [|done]. injection H as <-. apply arrive_ok; [done..|]. intros t0 E. injection E as E. congruence.
  - destruct (calls s !! k) as [[l c| | | |]|] eqn:Hk; try done. eapply Hgo; [|exact H]. by apply enter_ok.
  - destruct (calls s !! k) as [[|m c| | |]|] eqn:Hk; try done. pose proof (lock_ok s k m c d I Hk) as Ho. by rewrite H in Ho.
  - destruct (calls s !! k) as [[|m c| | |]|] eqn:Hk; try done. eapply Hgo; [|exact H].
    destruct (i_at _ _ I k _ m Hk eq_refl) as [x Hm]. eapply (leave_ok None k m _ s x _ I); try done. by right.
  - destruct (calls s !! k) as [[| |m g c| |]|] eqn:Hk; try done. eapply Hgo; [|exact H]. by apply started_ok.
  - destruct (calls s !! k) as [[| | |m g e|]|] eqn:Hk; try done. eapply Hgo; [|exact H]. by apply undone_ok.
  - destruct (calls s !! k) as [[| | | |m g]|] eqn:Hk; try done. eapply Hgo; [|exact H]. by apply retired_ok.
  - destruct (generations s !! g) as [y|] eqn:Hy; [|done]. cbn [mbind option_bind] in H.
    destruct (published g s) eqn:Hp; [|done]. destruct (i_published _ _ I g Hp) as (z & Hz & Hm).
    assert (z = y) as -> by congruence. destruct (managed y); [by injection H as <-|done].
Qed.

Lemma execs_inv l s s' : inv None s -> execs same l s = Some s' -> inv None s'.
Proof.
  revert s. induction l as [|e l IH]; intros s I H; cbn in H; [by injection H as <-|].
  destruct (exec same e s) as [s1|] eqn:E; [|done]. cbn in H. eapply IH; [|exact H]. by eapply exec_inv.
Qed.
End Invariant.
