(* ===== verification/LatticeLeases.v ===== *)
(** * What the lease manager guarantees

    Consequences of [LeaseInvariant]: a lease holds its lattice open until it is
    released, suspended calls always finish, and an idle manager whose leases are
    all released can be reset, which closes its lattice. *)
From S2P Require Import Prelude LatticeFactory LeaseInvariant.

Section Leases.
Context {C : Type} (same : C -> C -> bool).
Abbreviation Factory := (Factory C).

(** ** Tokens are kept until they are released *)

(** What a section does to token [t] and to the calls that would release it *)
Definition steady (t : nat) (s s' : Factory) : Prop :=
  (forall g y, generations s !! g = Some y -> t ∈ tokens y -> exists y', generations s' !! g = Some y' /\ t ∈ tokens y') /\
  (forall k p l, calls s' !! k = Some p -> releases p = Some l -> exists k0 p0, calls s !! k0 = Some p0 /\ releases p0 = Some l) /\
  (forall l, issued l s' = true -> l_token l = t ->
     issued l s = true \/ exists y, generations s' !! l_generation l = Some y /\ t ∈ tokens y).

Lemma steady_trans t s1 s2 s3 : steady t s1 s2 -> steady t s2 s3 -> steady t s1 s3.
Proof.
  intros (A1 & B1 & C1) (A2 & B2 & C2). split; [|split].
  - intros g y Hg Ht. destruct (A1 g y Hg Ht) as (y' & Hy' & Ht'). by apply (A2 g y').
  - intros k p l Hk Hl. destruct (B2 k p l Hk Hl) as (k0 & p0 & H0 & Hl0). by apply (B1 k0 p0).
  - intros l Hi Hl. destruct (C2 l Hi Hl) as [Hi2|?]; [|by right]. destruct (C1 l Hi2 Hl) as [?|(y & Hy & Ht)]; [by left|].
    right. by apply (A2 _ y).
Qed.

(** Writes of anything but generations, calls and answers *)
Lemma steady_same t s s' : generations s' = generations s -> calls s' = calls s -> answers s' = answers s -> steady t s s'.
Proof.
  intros Hg Hc Ha. split; [|split].
  - intros g y Hy Ht. rewrite Hg. by exists y.
  - intros k p l Hk Hl. rewrite Hc in Hk. by exists k, p.
  - intros l Hi _. left. unfold issued in *. by rewrite <- Ha.
Qed.

Lemma steady_generation t g y' s : (forall y, generations s !! g = Some y -> t ∈ tokens y -> t ∈ tokens y') -> steady t s (put_generation g y' s).
Proof.
  intros H. split; [|split].
  - intros g0 y Hy Ht. cbn. destruct (decide (g0 = g)) as [->|Hne]; [rewrite lookup_insert_eq|rewrite lookup_insert_ne by done]; eauto.
  - intros k p l Hk Hl. by exists k, p.
  - intros l Hi _. by left.
Qed.

Lemma steady_call t k p s : (forall l, releases p = Some l -> exists k0 p0, calls s !! k0 = Some p0 /\ releases p0 = Some l) ->
  steady t s (put_call k p s).
Proof.
  intros H. split; [|split].
  - intros g y Hy Ht. by exists y.
  - cbn. intros k0 p0 l [[<- <-]|[_ Hk]]%lookup_insert_Some Hl; [by apply H|by exists k0, p0].
  - intros l Hi _. by left.
Qed.

Lemma steady_finish t k r s : (forall l, r = Ok (Leased l) -> l_token l = t -> exists y, generations s !! l_generation l = Some y /\ t ∈ tokens y) ->
  steady t s (finish k r s).
Proof.
  intros H. split; [|split].
  - intros g y Hy Ht. by exists y.
  - cbn. intros k0 p0 l [_ Hk]%lookup_delete_Some Hl. by exists k0, p0.
  - intros l [->|Hi]%issued_cons Hl; [right; by apply H|by left].
Qed.

Lemma steady_leave t k m r s s' : leave k m r s = Some s' ->
  (forall l, r = Ok (Leased l) -> l_token l = t -> exists y, generations s !! l_generation l = Some y /\ t ∈ tokens y) -> steady t s s'.
Proof.
  unfold leave. destruct (managers s !! m) as [x|]; [|done]. cbn [mbind option_bind]. intros [= <-] H.
  eapply steady_trans; [|apply steady_finish]; [by apply steady_same; destruct (_ && _ && _)|]. by destruct (_ && _ && _).
Qed.

Lemma steady_serve t k m g c s s' : serve k m g c s = Some s' -> steady t s s'.
Proof.
  unfold serve. destruct (generations s !! g) as [y|] eqn:Hy; [|done]. cbn [mbind option_bind]. destruct c as [w|w| |l]; try done; intros H.
  - eapply steady_trans; [|eapply steady_leave; [exact H|]].
    + eapply steady_trans; [apply steady_generation|by apply steady_same]. intros z Hz Ht. assert (z = y) as -> by congruence. cbn. clear -Ht. set_solver.
    + intros l [= <-] <-. cbn. rewrite lookup_insert_eq. eexists. split; [reflexivity|]. cbn. clear. set_solver.
  - eapply steady_trans; [apply (steady_generation t g (with_pin true y))|by eapply steady_leave; [exact H|]].
    intros z Hz Ht. by assert (z = y) as -> by congruence.
Qed.

Lemma steady_lock t k m c d s s' : calls s !! k = Some (Waiting m c) -> (forall l, c = Release l -> l_token l <> t) ->
  (forall g y, generations s !! g = Some y -> g < next s) -> take_lock same k m c d s = Some s' -> steady t s s'.
Proof.
  intros Hk Hc Hfresh. unfold take_lock. destruct (managers s !! m) as [x|] eqn:Hm; [|done]. cbn [mbind option_bind].
  destruct (lock x); [done|]. set (s1 := put_manager m _ s). intros H. apply (steady_trans t s s1); [by apply steady_same|].
  assert (Hl : forall r, (forall l, r = Ok (Leased l) -> False) -> leave k m r s1 = Some s' -> steady t s1 s').
  { intros r Hr Hlv. eapply steady_leave; [exact Hlv|]. intros l E. by destruct (Hr l). }
  assert (Hready : forall w, (forall l, c <> Release l) -> be_ready same k m c w d s1 = Some s' -> steady t s1 s').
  { intros w Hno Hb. unfold be_ready in Hb. destruct (managers s1 !! m) as [x1|]; [|done]. cbn [mbind option_bind] in Hb.
    destruct (generation x1) as [g|].
    - destruct (generations s1 !! g) as [y|]; [|done]. cbn [mbind option_bind] in Hb.
      destruct (negb _); [by eapply Hl; [|exact Hb]|]. destruct (match w with Some _ => _ | None => _ end); [by eapply Hl; [|exact Hb]|].
      by eapply steady_serve.
    - destruct d as [cfg|e]; [|by eapply Hl; [|exact Hb]]. injection Hb as <-.
      set (y0 := mk_Generation _ _ _ _ _ _). apply (steady_trans t s1 (put_generation (next s) y0 (count_up s1))).
      { apply (steady_trans t s1 (count_up s1)); [by apply steady_same|]. apply steady_generation.
        intros y Hy _. apply Hfresh in Hy. by destruct (Nat.lt_irrefl _ Hy). }
      eapply steady_trans; [|apply steady_call; intros l Hrl; destruct c as [?|?| |l']; try done; by destruct (Hno l')]. by apply steady_same. }
  destruct c as [w|w| |l].
  - by eapply Hready; [|exact H].
  - by eapply Hready; [|exact H].
  - unfold reset in H. destruct (managers s1 !! m) as [x1|]; [|done]. cbn [mbind option_bind] in H.
    destruct (busy x1 s1); [by eapply Hl; [|exact H]|]. destruct (generation x1) as [g|]; [|by eapply Hl; [|exact H]].
    destruct (generations s1 !! g) as [y|] eqn:Hy; [|done]. cbn [mbind option_bind] in H. injection H as <-. unfold retire.
    eapply steady_trans; [apply steady_generation|by apply steady_call]. intros z Hz Ht. by assert (z = y) as -> by congruence.
  - unfold release in H. destruct (generations s1 !! l_generation l) as [y|] eqn:Hy; [|done]. cbn [mbind option_bind] in H.
    destruct (bool_decide _); [|by eapply Hl; [|exact H]]. set (y' := with_tokens _ y) in *.
    assert (Hkeep : t ∈ tokens y -> t ∈ tokens y').
    { intros Ht. subst y'. cbn. apply elem_of_difference. split; [done|]. intros E%elem_of_singleton. by apply (Hc l). }
    assert (Hg : steady t s1 (put_generation (l_generation l) y' s1)).
    { apply steady_generation. intros z Hz Ht. assert (z = y) as -> by congruence. by apply Hkeep. }
    destruct (_ && _).
    + injection H as <-. unfold retire. eapply steady_trans; [exact Hg|]. eapply steady_trans; [apply steady_generation|by apply steady_call].
      intros z Hz Ht. cbn in Hz. rewrite lookup_insert_eq in Hz. by injection Hz as <-.
    + eapply steady_trans; [exact Hg|]. by eapply steady_leave; [exact H|].
Qed.

(** A call to release token [t] *)
Definition calls_release (t : nat) (e : event (C:=C)) : bool :=
  match e with ECall _ _ (Release l) => Nat.eqb (l_token l) t | _ => false end.

Lemma steady_call_again t k p q s : calls s !! k = Some q -> releases p = releases q \/ releases p = None -> steady t s (put_call k p s).
Proof. intros Hk H. apply steady_call. intros l Hl. exists k, q. split; [done|]. destruct H; congruence. Qed.

Lemma steady_fail t k e s : steady t s (finish k (Err e) s).
Proof. by apply steady_finish. Qed.

Lemma steady_enter t k lp c s s' : calls s !! k = Some (Arriving lp c) -> enter k lp c s = Some s' -> steady t s s'.
Proof.
  intros Hk. unfold enter. set (s1 := match c with Release _ => s | _ => _ end).
  assert (E : generations s1 = generations s /\ calls s1 = calls s /\ answers s1 = answers s) by (subst s1; by destruct c, (installed s)).
  destruct E as (E1 & E2 & E3). clearbody s1. destruct (match c with Release _ => _ | _ => _ end) as [m|]; [|done]. cbn [mbind option_bind].
  destruct (managers s1 !! m) as [x|]; [|done]. cbn [mbind option_bind]. intros H. apply (steady_trans t s s1); [by apply steady_same|].
  destruct (Nat.eqb _ _); injection H as <-; [|by apply steady_fail].
  eapply (steady_trans t s1 (put_manager m _ s1)); [by apply steady_same|].
  apply (steady_call_again t k _ (Arriving lp c)); [by rewrite <- Hk, <- E2|by left].
Qed.

Lemma steady_started t k m g c r b s s' : calls s !! k = Some (Starting m g c) -> started k m g c r b s = Some s' -> steady t s s'.
Proof.
  intros Hk. unfold started. destruct (managers s !! m) as [x|]; [|done]. cbn [mbind option_bind].
  destruct (generations s !! g) as [y|] eqn:Hy; [|done]. cbn [mbind option_bind]. destruct r as [u|e]; intros H.
  - eapply steady_trans; [|by eapply steady_serve]. set (s1 := put_generation g _ s).
    apply (steady_trans t s s1); [|by apply steady_same]. apply steady_generation. intros z Hz Ht. by assert (z = y) as -> by congruence.
  - injection H as <-. set (s1 := put_generation g _ s). apply (steady_trans t s s1).
    + apply steady_generation. intros z Hz Ht. by assert (z = y) as -> by congruence.
    + apply (steady_call_again t k _ (Starting m g c)); [done|by right].
Qed.

(** Both ways to leave after the clean-up or the retirement of a generation *)
Lemma steady_ended t k m g y' r (f : Factory -> Factory) s s' :
  (forall y, generations s !! g = Some y -> t ∈ tokens y -> t ∈ tokens y') ->
  (forall s0, generations (f s0) = generations s0 /\ calls (f s0) = calls s0 /\ answers (f s0) = answers s0) ->
  (forall l, r <> Ok (Leased l)) -> leave k m r (f (put_generation g y' s)) = Some s' -> steady t s s'.
Proof.
  intros Hy Hf Hr H. destruct (Hf (put_generation g y' s)) as (E1 & E2 & E3).
  eapply steady_trans; [by apply (steady_generation t g y')|]. eapply steady_trans; [by apply (steady_same t _ (f (put_generation g y' s)))|].
  eapply steady_leave; [exact H|]. intros l E. by destruct (Hr l).
Qed.

Lemma steady_undone t k m g e r b s s' : undone k m g e r b s = Some s' -> steady t s s'.
Proof.
  unfold undone. destruct (managers s !! m) as [x|]; [|done]. cbn [mbind option_bind].
  destruct (generations s !! g) as [y|] eqn:Hy; [|done]. cbn [mbind option_bind].
  assert (Hsame : forall b' o y0, generations s !! g = Some y0 -> t ∈ tokens y0 -> t ∈ tokens (with_api b' o y)).
  { intros b' o z Hz Ht. by assert (z = y) as -> by congruence. }
  by destruct r; apply (steady_ended t k m g _ _ (put_manager m _)); try apply Hsame.
Qed.

Lemma steady_retired t k m g r b cancelled s s' : retired k m g r b cancelled s = Some s' -> steady t s s'.
Proof.
  unfold retired. destruct (managers s !! m) as [x|]; [|done]. cbn [mbind option_bind].
  destruct (generations s !! g) as [y|] eqn:Hy; [|done]. cbn [mbind option_bind].
  assert (Hsame : forall b' o y0, generations s !! g = Some y0 -> t ∈ tokens y0 -> t ∈ tokens (with_api b' o y)).
  { intros b' o z Hz Ht. by assert (z = y) as -> by congruence. }
  destruct (bool_decide _); [|by intros H; eapply steady_leave; [exact H|]].
  destruct r as [u|e]; [destruct cancelled|].
  - by apply (steady_ended t k m g _ _ id); [apply Hsame|..].
  - by apply (steady_ended t k m g _ _ (put_manager m _)); [apply Hsame|..].
  - by apply (steady_ended t k m g _ _ id); [apply Hsame|..].
Qed.

Lemma steady_start t k lp c s s' : start_call k lp c s = Some s' -> (forall l, c <> Release l) -> steady t s s'.
Proof.
  intros H Hc. assert (E : exists ok : bool, (if ok then put_call k (Arriving lp c) s else finish k (Err RuntimeError) s) = s').
  { unfold start_call in H. destruct (calls s !! k); [done|]. destruct c as [w|w| |l]; [injection H as H; first [by exists true|by eexists]..|by destruct (Hc l)]. }
  destruct E as [ok <-]. destruct ok; [|by apply steady_fail]. apply steady_call. intros l Hl.
  destruct c as [w|w| |l']; try done. by destruct (Hc l').
Qed.

(** Nobody is about to give back token [t]. *)
Definition unreleased (t : nat) (s : Factory) : Prop := forall k p l, calls s !! k = Some p -> releases p = Some l -> l_token l <> t.

Lemma steady_unreleased t s s' : unreleased t s -> steady t s s' -> unreleased t s'.
Proof. intros Hu (_ & H & _) k p l Hk Hl. destruct (H k p l Hk Hl) as (k0 & p0 & H0 & Hl0). by apply (Hu k0 p0). Qed.

(** Where the token of an issued lease is *)
Definition kept (t : nat) (s : Factory) : Prop :=
  forall l, issued l s = true -> l_token l = t -> exists y, generations s !! l_generation l = Some y /\ t ∈ tokens y.

Lemma steady_kept t s s' : kept t s -> steady t s s' -> kept t s'.
Proof.
  intros Hk (H1 & _ & H2) l Hi Hl. destruct (H2 l Hi Hl) as [H|H]; [|done]. destruct (Hk l H Hl) as (y & Hy & Ht). by apply (H1 _ y).
Qed.

(** A release of another token changes nothing for [t]. *)
Lemma start_other t k lp l s s' : l_token l <> t -> start_call k lp (Release l) s = Some s' -> unreleased t s -> kept t s ->
  unreleased t s' /\ kept t s'.
Proof.
  intros Hne H Hu Hk. unfold start_call in H. destruct (calls s !! k); [done|]. destruct (issued l s); [|done]. injection H as <-. split; [|done].
  unfold unreleased. cbn. intros k0 p0 l0 [[<- <-]|[_ H0]]%lookup_insert_Some; [by intros [= <-]|]. by apply (Hu k0).
Qed.

Lemma exec_kept t e s s' : inv None s -> calls_release t e = false -> unreleased t s -> kept t s -> exec same e s = Some s' ->
  unreleased t s' /\ kept t s'.
Proof.
  intros I He Hu Hk H.
  assert (Hs : steady t s s' -> unreleased t s' /\ kept t s') by (intros Hs; split; [by eapply steady_unreleased|by eapply steady_kept]).
  destruct e as [k lp c|k|k d|k|k r b|k r b|k r b cancelled|g]; cbn [exec] in H.
  - destruct c as [w|w| |l]; [by apply Hs, (steady_start t k lp _ s s' H)..|].
    apply Nat.eqb_neq in He. by apply (start_other t k lp l s s').
  - destruct (calls s !! k) as [[lp c| | | |]|] eqn:Hc; try done. by apply Hs, (steady_enter t k lp c).
  - destruct (calls s !! k) as [[|m c| | |]|] eqn:Hc; try done. apply Hs. eapply steady_lock; [exact Hc| |apply I|exact H].
    intros l ->. by apply (Hu k _ l Hc).
  - destruct (calls s !! k) as [[|m c| | |]|] eqn:Hc; try done. by apply Hs; eapply steady_leave; [exact H|].
  - destruct (calls s !! k) as [[| |m g c| |]|] eqn:Hc; try done. by apply Hs; eapply steady_started.
  - destruct (calls s !! k) as [[| | |m g e|]|] eqn:Hc; try done. by apply Hs; eapply steady_undone.
  - destruct (calls s !! k) as [[| | | |m g]|] eqn:Hc; try done. by apply Hs; eapply steady_retired.
  - destruct (generations s !! g) as [y|] eqn:Hy; [|done]. cbn [mbind option_bind] in H. destruct (published g s); [|done]. apply Hs.
    destruct (managed y); injection H as <-; [by apply steady_same|]. apply steady_generation.
    intros z Hz Ht. by assert (z = y) as -> by congruence.
Qed.

Lemma execs_kept t l s s' : inv None s -> existsb (calls_release t) l = false -> unreleased t s -> kept t s -> execs same l s = Some s' ->
  inv None s' /\ kept t s'.
Proof.
  revert s. induction l as [|e l IH]; intros s I He Hu Hk H; cbn in H; [by injection H as <-|].
  apply orb_false_iff in He as [He1 He2]. destruct (exec same e s) as [s1|] eqn:E; [|done]. cbn in H.
  destruct (exec_kept t e s s1 I He1 Hu Hk E). apply (IH s1); try done. by eapply exec_inv.
Qed.

(** ** Calls move on *)

(** How many events a suspended call has before it at most *)
Definition rank (p : point C) : nat :=
  match p with Arriving _ _ => 4 | Waiting _ _ => 3 | Starting _ _ _ => 2 | Undoing _ _ _ | Retiring _ _ => 1 end.
Definition work (cs : gmap nat (point C)) : nat := map_fold (fun _ p n => rank p + n) 0 cs.

Lemma work_delete cs k p : cs !! k = Some p -> work cs = rank p + work (delete k cs).
Proof. intros Hk. unfold work. rewrite (map_fold_delete_L _ _ k p cs); [done| |done]. lia. Qed.

Lemma work_insert cs k p q : cs !! k = Some p -> work (<[k:=q]> cs) + rank p = work cs + rank q.
Proof.
  intros Hk. rewrite (work_delete (<[k:=q]> cs) k q) by apply lookup_insert_eq. rewrite (work_delete cs k p) by done.
  rewrite delete_insert_eq. lia.
Qed.

Lemma work_bound cs : work cs <= 4 * size cs.
Proof.
  induction cs as [|k p cs Hk IH] using map_ind; [by vm_compute; lia|].
  rewrite (work_delete _ k p) by apply lookup_insert_eq. rewrite delete_insert_id by done. rewrite map_size_insert_None by done.
  assert (rank p <= 4) by (destruct p; cbn; lia). lia.
Qed.

(** The event is done with call [k], or leaves it with rank below [n]. *)
Definition moves (k n : nat) (s s' : Factory) : Prop :=
  calls s' = delete k (calls s) \/ exists q, calls s' = <[k:=q]> (calls s) /\ rank q < n.

Lemma moves_less k p s s' : calls s !! k = Some p -> moves k (rank p) s s' -> work (calls s') < work (calls s).
Proof.
  intros Hk [E|(q & E & Hq)]; rewrite E.
  - rewrite (work_delete (calls s) k p Hk). destruct p; cbn; lia.
  - pose proof (work_insert (calls s) k p q Hk). lia.
Qed.

Lemma moves_leave k m r n s s0 s' : calls s0 = calls s -> leave k m r s0 = Some s' -> moves k n s s'.
Proof.
  unfold leave. destruct (managers s0 !! m); [|done]. cbn [mbind option_bind]. intros E [= <-]. left.
  cbn. destruct (_ && _); cbn; by rewrite E.
Qed.

Lemma moves_serve k m g c n s s0 s' : calls s0 = calls s -> serve k m g c s0 = Some s' -> moves k n s s'.
Proof.
  unfold serve. destruct (generations s0 !! g); [|done]. cbn [mbind option_bind]. intros E.
  destruct c; try done; by apply moves_leave.
Qed.

Lemma moves_lock k m c d s s' : take_lock same k m c d s = Some s' -> moves k 3 s s'.
Proof.
  unfold take_lock. destruct (managers s !! m) as [x|]; [|done]. cbn [mbind option_bind]. destruct (lock x); [done|].
  set (s1 := put_manager m _ s). assert (E1 : calls s1 = calls s) by done. clearbody s1.
  assert (Hready : forall w, be_ready same k m c w d s1 = Some s' -> moves k 3 s s').
  { intros w. unfold be_ready. destruct (managers s1 !! m) as [x1|]; [|done]. cbn [mbind option_bind].
    destruct (generation x1) as [g|].
    - destruct (generations s1 !! g) as [y|]; [|done]. cbn [mbind option_bind].
      destruct (negb _); [by apply moves_leave|]. destruct (match w with Some _ => _ | None => _ end); [by apply moves_leave|by apply moves_serve].
    - destruct d as [cfg|e]; [|by apply moves_leave]. intros [= <-]. right. eexists. split; [cbn; by rewrite E1|cbn; lia]. }
  destruct c as [w|w| |l]; [apply Hready..| |].
  - unfold reset. destruct (managers s1 !! m) as [x1|]; [|done]. cbn [mbind option_bind].
    destruct (busy x1 s1); [by apply moves_leave|]. destruct (generation x1) as [g|]; [|by apply moves_leave].
    destruct (generations s1 !! g) as [y|]; [|done]. cbn [mbind option_bind]. intros [= <-]. right. eexists. split; [cbn; by rewrite E1|cbn; lia].
  - unfold release. destruct (generations s1 !! l_generation l) as [y|]; [|done]. cbn [mbind option_bind].
    destruct (bool_decide _); [|by apply moves_leave]. destruct (_ && _); [|by apply moves_leave].
    intros [= <-]. right. eexists. split; [cbn; by rewrite E1|cbn; lia].
Qed.

Lemma moves_enter k lp c s s' : enter k lp c s = Some s' -> moves k 4 s s'.
Proof.
  unfold enter. set (s1 := match c with Release _ => s | _ => _ end).
  assert (E : calls s1 = calls s) by (subst s1; by destruct c, (installed s)). clearbody s1.
  destruct (match c with Release _ => _ | _ => _ end) as [m|]; [|done]. cbn [mbind option_bind].
  destruct (managers s1 !! m) as [x|]; [|done]. cbn [mbind option_bind].
  destruct (Nat.eqb _ _); intros [= <-]; [right; eexists; split; [cbn; by rewrite E|cbn; lia]|left; cbn; by rewrite E].
Qed.

(** An event of a call that is already there *)
Definition resumes (e : event (C:=C)) : bool := match e with ECall _ _ _ | EApiClose _ => false | _ => true end.

Lemma resumed_less e s s' : resumes e = true -> exec same e s = Some s' -> work (calls s') < work (calls s).
Proof.
  destruct e as [k lp c|k|k d|k|k r b|k r b|k r b cancelled|g]; intros Hr; try done; cbn [exec].
  - destruct (calls s !! k) as [[lp c| | | |]|] eqn:Hc; try done. intros H. eapply moves_less; [exact Hc|by eapply moves_enter].
  - destruct (calls s !! k) as [[|m c| | |]|] eqn:Hc; try done. intros H. eapply moves_less; [exact Hc|by eapply moves_lock].
  - destruct (calls s !! k) as [[|m c| | |]|] eqn:Hc; try done. intros H. eapply moves_less; [exact Hc|by eapply moves_leave; [|exact H]].
  - destruct (calls s !! k) as [[| |m g c| |]|] eqn:Hc; try done. intros H. eapply moves_less; [exact Hc|]. unfold started in H.
    destruct (managers s !! m) as [x|]; [|done]. cbn [mbind option_bind] in H. destruct (generations s !! g) as [y|]; [|done]. cbn [mbind option_bind] in H.
    destruct r; [by eapply moves_serve; [|exact H]|]. injection H as <-. right. eexists. split; [reflexivity|cbn; lia].
  - destruct (calls s !! k) as [[| | |m g e|]|] eqn:Hc; try done. intros H. eapply moves_less; [exact Hc|]. unfold undone in H.
    destruct (managers s !! m) as [x|]; [|done]. cbn [mbind option_bind] in H. destruct (generations s !! g) as [y|]; [|done]. cbn [mbind option_bind] in H.
    by destruct r; (eapply moves_leave; [|exact H]).
  - destruct (calls s !! k) as [[| | | |m g]|] eqn:Hc; try done. intros H. eapply moves_less; [exact Hc|]. unfold retired in H.
    destruct (managers s !! m) as [x|]; [|done]. cbn [mbind option_bind] in H. destruct (generations s !! g) as [y|]; [|done]. cbn [mbind option_bind] in H.
    destruct (bool_decide _); [|by eapply moves_leave; [|exact H]]. by destruct r, cancelled; (eapply moves_leave; [|exact H]).
Qed.

(** A call that holds a lock has an event. *)
Lemma holder_enabled s k p m g : inv None s -> calls s !! k = Some p -> holding p = Some (m, g) ->
  exists e s', resumes e = true /\ exec same e s = Some s'.
Proof.
  intros I Hk Hp. destruct p as [| |m0 g0 c|m0 g0 e|m0 g0]; try done.
  - destruct (started_ok s k m0 g0 c (Ok tt) false I Hk) as (s' & Hs & _). exists (EInit k (Ok tt) false), s'. split; [done|]. cbn [exec]. by rewrite Hk.
  - destruct (undone_ok s k m0 g0 e (Ok tt) false I Hk) as (s' & Hs & _). exists (ECleanup k (Ok tt) false), s'. split; [done|]. cbn [exec]. by rewrite Hk.
  - destruct (retired_ok s k m0 g0 (Ok tt) false false I Hk) as (s' & Hs & _). exists (EClose k (Ok tt) false false), s'. split; [done|]. cbn [exec]. by rewrite Hk.
Qed.

(** Who waits for a lock gets it, or somebody holds it who has an event. *)
Lemma call_enabled s k p : inv None s -> calls s !! k = Some p -> exists e s', resumes e = true /\ exec same e s = Some s'.
Proof.
  intros I Hk. destruct (holding p) as [[m g]|] eqn:Hp; [by eapply holder_enabled|]. destruct p as [lp c|m c| | |]; try done.
  - destruct (enter_ok s k lp c I Hk) as (s' & Hs & _). exists (EEnter k), s'. split; [done|]. cbn [exec]. by rewrite Hk.
  - destruct (i_at _ _ I k _ m Hk eq_refl) as [x Hm]. destruct (lock x) as [j|] eqn:Hl.
    + destruct (i_lock _ _ I m x j Hm Hl ltac:(done)) as (q & g & Hq & Hh). by eapply holder_enabled.
    + destruct (unlocked_goes_on same s k m x c (Err RuntimeError) I Hk Hm Hl) as (s' & Hs & _).
      exists (ELock k (Err RuntimeError)), s'. split; [done|]. cbn [exec]. by rewrite Hk.
Qed.

Lemma resumed_bounded es s s' : forallb resumes es = true -> execs same es s = Some s' -> length es + work (calls s') <= work (calls s).
Proof.
  revert s. induction es as [|e es IH]; intros s Hr H; cbn in H; [injection H as <-; cbn; lia|].
  apply andb_true_iff in Hr as [He Hr]. destruct (exec same e s) as [s1|] eqn:E; [|done]. cbn in H.
  pose proof (resumed_less e s s1 He E). pose proof (IH s1 Hr H). cbn. lia.
Qed.

(** ** The holder of a lease *)

Lemma token_current (s : Factory) l y : inv None s -> issued l s = true -> generations s !! l_generation l = Some y -> l_token l ∈ tokens y ->
  installed s = Some (l_manager l) /\ ready y = true /\ opened y = true /\
  exists x, managers s !! l_manager l = Some x /\ generation x = Some (l_generation l) /\ managed y = Some (loop x).
Proof.
  intros I Hi Hy Ht. assert (Hr : ready y = true) by (apply (i_ready _ _ I _ _ Hy); left; clear -Ht; set_solver).
  pose proof (i_live _ _ I _ _ Hy Hr) as Ho. destruct (i_open _ _ I _ _ Hy Ho) as (m & x & Hm & Hg).
  destruct (i_issued _ _ I l Hi) as [_ Hown]. rewrite <- (Hown m x Hm Hg). destruct (i_owner _ _ I m x _ Hm Hg) as [Hin _].
  repeat split; try done. exists x. repeat split; try done. apply (i_managed _ _ I m x _ y Hm Hg Hy).
  destruct (initializing x) eqn:Hini; [|done]. destruct (i_init _ _ I m x Hm Hini) as (k & p & g & Hl & _ & Hk & Hp & _).
  destruct (i_hold _ _ I k p m g Hk Hp ltac:(done)) as (x' & y' & A1 & _ & A3 & _ & A5 & A6 & _).
  assert (x' = x) as -> by congruence. assert (g = l_generation l) as -> by congruence. assert (y' = y) as -> by congruence. congruence.
Qed.

Lemma one_open (s : Factory) g h y z : inv None s -> generations s !! g = Some y -> opened y = true -> generations s !! h = Some z -> opened z = true -> g = h.
Proof.
  intros I Hg Hy Hh Hz. destruct (i_open _ _ I g y Hg Hy) as (m & x & Hm & Hx), (i_open _ _ I h z Hh Hz) as (m' & x' & Hm' & Hx').
  destruct (i_owner _ _ I _ _ _ Hm Hx) as [E _], (i_owner _ _ I _ _ _ Hm' Hx') as [E' _].
  assert (m' = m) as -> by congruence. congruence.
Qed.

Lemma unleased_shut (s : Factory) g y : inv None s -> installed s = None -> generations s !! g = Some y -> opened y = false.
Proof.
  intros I Hn Hg. destruct (opened y) eqn:Ho; [|done]. destruct (i_open _ _ I g y Hg Ho) as (m & x & Hm & Hx).
  destruct (i_owner _ _ I _ _ _ Hm Hx). congruence.
Qed.

(** *** The idle manager *)

Lemma idle_manager (s : Factory) m x : inv None s -> calls s = ∅ -> managers s !! m = Some x -> lock x = None /\ initializing x = false /\ users x = 0.
Proof.
  intros I Hc Hm. repeat split.
  - destruct (lock x) as [k|] eqn:Hl; [|done]. destruct (i_lock _ _ I m x k Hm Hl ltac:(done)) as (p & g & Hk & _). by rewrite Hc, lookup_empty in Hk.
  - destruct (initializing x) eqn:Hi; [|done]. destruct (i_init _ _ I m x Hm Hi) as (k & p & g & _ & _ & Hk & _). by rewrite Hc, lookup_empty in Hk.
  - destruct (i_users _ _ I m x Hm) as (l & Hl & Hin). rewrite <- Hl. apply size_empty_iff, elem_of_equiv_empty.
    intros k (p & Hk & _)%Hin. by rewrite Hc, lookup_empty in Hk.
Qed.

Lemma free_manager x g y (s : Factory) : initializing x = false -> generation x = Some g -> generations s !! g = Some y -> tokens y = ∅ ->
  busy x s = false.
Proof.
  intros Hi Hg Hy Ht. unfold busy. rewrite Hi, Hg. cbn [mbind option_bind]. rewrite Hy, bool_decide_eq_false_2; [done|]. intros E. by apply E.
Qed.

Lemma start_reset (s : Factory) m x k : calls s !! k = None -> installed s = Some m -> managers s !! m = Some x -> busy x s = false ->
  start_call k (loop x) Reset s = Some (put_call k (Arriving (loop x) Reset) s).
Proof.
  intros Hk Hin Hm Hb. unfold start_call. rewrite Hk, Hin. cbn [mbind option_bind]. by rewrite Hm, Hb, Nat.eqb_refl.
Qed.

Lemma enter_reset (s : Factory) m x k : installed s = Some m -> managers s !! m = Some x ->
  enter k (loop x) Reset s = Some (put_call k (Waiting m Reset) (put_manager m (with_users (S (users x)) x) s)).
Proof.
  intros Hin Hm. unfold enter. rewrite Hin. cbn [mbind option_bind]. rewrite Hin. cbn [mbind option_bind]. rewrite Hm. cbn [mbind option_bind].
  by rewrite Nat.eqb_refl.
Qed.

Lemma lock_reset (s : Factory) m x g y k d : managers s !! m = Some x -> lock x = None -> initializing x = false -> generation x = Some g ->
  generations s !! g = Some y -> tokens y = ∅ ->
  take_lock same k m Reset d s = Some (retire k m g (with_pin false y) (put_manager m (with_lock (Some k) x) s)).
Proof.
  intros Hm Hl Hi Hg Hy Ht. unfold take_lock. rewrite Hm. cbn [mbind option_bind]. rewrite Hl. unfold reset. cbn [put_manager managers].
  rewrite lookup_insert_eq. cbn [mbind option_bind]. rewrite (free_manager _ g y) by done.
  change (generation (with_lock (Some k) x)) with (generation x). rewrite Hg. cbn [put_manager generations]. by rewrite Hy.
Qed.

(** The last call closes the lattice and the manager is not needed any more. *)
Lemma close_last (s : Factory) m x g y k b : installed s = Some m -> managers s !! m = Some x -> lock x = Some k -> users x = 1 ->
  generations s !! g = Some y -> managed y = Some (loop x) ->
  exists s', retired k m g (Ok tt) b false s = Some s' /\ installed s' = None.
Proof.
  intros Hin Hm Hl Hu Hy Hman. unfold retired. rewrite Hm. cbn [mbind option_bind]. rewrite Hy. cbn [mbind option_bind].
  rewrite Hman, bool_decide_eq_true_2 by done. unfold leave. cbn [put_manager put_generation managers]. rewrite lookup_insert_eq.
  cbn [mbind option_bind with_generation lock].
  assert (E : bool_decide (lock x = Some k) = true) by by apply bool_decide_eq_true_2. rewrite E.
  cbn [with_users with_lock users generation installed put_manager put_generation with_generation]. rewrite Hin, Hu, !bool_decide_eq_true_2 by done. cbn [pred Nat.eqb andb]. by eexists.
Qed.

Lemma reset_idle s m x g y k d b : inv None s -> calls s = ∅ -> installed s = Some m -> managers s !! m = Some x -> generation x = Some g ->
  generations s !! g = Some y -> tokens y = ∅ ->
  exists s', execs same [ECall k (loop x) Reset; EEnter k; ELock k d; EClose k (Ok tt) b false] s = Some s' /\ installed s' = None.
Proof.
  intros I Hc Hin Hm Hg Hy Ht. destruct (idle_manager s m x I Hc Hm) as (Hl & Hi & Hu).
  pose proof (i_managed _ _ I m x g y Hm Hg Hy Hi) as Hman. cbn [execs exec].
  rewrite (start_reset s m x k); [|by rewrite Hc|done|done|by apply (free_manager x g y)]. cbn [mbind option_bind].
  set (s1 := put_call k (Arriving (loop x) Reset) s). assert (Hk1 : calls s1 !! k = Some (Arriving (loop x) Reset)) by apply lookup_insert_eq.
  rewrite Hk1, (enter_reset s1 m x k) by done. cbn [mbind option_bind].
  set (x2 := with_users (S (users x)) x). set (s2 := put_call k (Waiting m Reset) _).
  assert (Hk2 : calls s2 !! k = Some (Waiting m Reset)) by apply lookup_insert_eq.
  assert (Hm2 : managers s2 !! m = Some x2) by apply lookup_insert_eq.
  rewrite Hk2, (lock_reset s2 m x2 g y k d) by done. cbn [mbind option_bind].
  set (s3 := retire k m g _ _). assert (Hk3 : calls s3 !! k = Some (Retiring m g)) by apply lookup_insert_eq. rewrite Hk3.
  destruct (close_last s3 m (with_lock (Some k) x2) g (with_ready false (with_pin false y)) k b) as (s4 & -> & Hn); try done.
  - apply lookup_insert_eq.
  - cbn. by rewrite Hu.
  - apply lookup_insert_eq.
  - by exists s4.
Qed.
End Leases.

(** ** Theorems *)

(** Whatever any callers do, are refused or cancelled in, and however [initialize] and [close] end *)
Abbreviation runs same es s := (execs same es new_factory = Some s).

(** C34: as long as no holder of a lease has called its release, the lattice of the
    lease is open and ready on the loop of its manager, which is the installed one,
    and no other lattice is open. *)
Theorem leased_lattice_is_open {C} (same : C -> C -> bool) es s l :
  runs same es s -> issued l s = true -> existsb (calls_release (l_token l)) es = false ->
  installed s = Some (l_manager l) /\
  exists x y, managers s !! l_manager l = Some x /\ generation x = Some (l_generation l) /\ generations s !! l_generation l = Some y /\
    ready y = true /\ opened y = true /\ managed y = Some (loop x) /\ l_token l ∈ tokens y /\
    (forall g z, generations s !! g = Some z -> opened z = true -> g = l_generation l).
Proof.
  intros H Hi Hn. destruct (execs_kept same (l_token l) es new_factory s inv_new Hn) as [I Hk]; [by intros k p t Hp|by intros t|done|].
  destruct (Hk l Hi eq_refl) as (y & Hy & Ht). destruct (token_current s l y I Hi Hy Ht) as (Hin & Hr & Ho & x & Hm & Hg & Hman).
  split; [done|]. exists x, y. repeat split; try done. intros g z Hz Hoz. by eapply (one_open s g).
Qed.

(** Two leases of one lattice; then a release of the first *)
Definition two_leases : list (event (C:=nat)) :=
  [ECall 0 7 (Acquire (Some 3)); ECall 1 7 (Acquire None); EEnter 0; EEnter 1; ELock 0 (Ok 5); EInit 0 (Ok tt) true; ELock 1 (Ok 5);
   ECall 2 7 (Release (mk_Lease 0 1 2)); EEnter 2; ELock 2 (Ok 5)].

Lemma leased_lattice_is_open_witness :
  exists s : Factory nat, installed s = Some 0 /\ exists x y, managers s !! 0 = Some x /\ generation x = Some 1 /\ generations s !! 1 = Some y /\
    ready y = true /\ opened y = true /\ managed y = Some (loop x) /\ 3 ∈ tokens y /\
    (forall g z, generations s !! g = Some z -> opened z = true -> g = 1).
Proof.
  destruct (execs Nat.eqb two_leases new_factory) as [s|] eqn:E; [|vm_compute in E; discriminate].
  exists s. apply (leased_lattice_is_open Nat.eqb two_leases s (mk_Lease 0 1 3) E); [|reflexivity].
  vm_compute in E. injection E as <-. reflexivity.
Defined.

(** C35: suspended calls finish: however they are resumed, cancelled or fail, they take
    at most four events each, and while one is left some event of one can happen. *)
Theorem suspended_calls_finish {C} (same : C -> C -> bool) es s es' s' :
  runs same es s -> execs same es' s = Some s' -> forallb resumes es' = true ->
  length es' <= 4 * size (calls s) /\ (calls s' <> ∅ -> exists e s'', resumes e = true /\ exec same e s' = Some s'').
Proof.
  intros H H' Hr. pose proof (execs_inv same es new_factory s inv_new H) as I. pose proof (execs_inv same es' s s' I H') as I'. split.
  - pose proof (resumed_bounded same es' s s' Hr H'). pose proof (work_bound (calls s)). lia.
  - intros Hne. apply map_choose in Hne as (k & p & Hk). by eapply call_enabled.
Qed.

Lemma suspended_calls_finish_witness :
  exists s s' : Factory nat, size (calls s) = 2 /\ calls s' <> ∅ /\ 2 <= 4 * size (calls s) /\
    exists e s'', resumes e = true /\ exec Nat.eqb e s' = Some s''.
Proof.
  destruct (execs Nat.eqb (take 4 two_leases) new_factory) as [s|] eqn:E; [|vm_compute in E; discriminate].
  destruct (execs Nat.eqb [ELock 0 (Ok 5); EInit 0 (Err SqliteError) true] s) as [s'|] eqn:E';
    [|vm_compute in E; injection E as <-; vm_compute in E'; discriminate].
  destruct (suspended_calls_finish Nat.eqb _ s _ s' E E' eq_refl) as [Hb Hn].
  assert (Hne : calls s' <> ∅).
  { clear Hb Hn. vm_compute in E. injection E as <-. vm_compute in E'. injection E' as <-. discriminate. }
  exists s, s'. repeat split; [|done|exact Hb|exact (Hn Hne)].
  clear -E. vm_compute in E. injection E as <-. reflexivity.
Defined.

(** C36: once every lease is released and no call is suspended, no lattice is open and no
    manager is installed, or a reset from the manager's loop whose close succeeds
    brings that about, a failed start or close before it included. *)
Theorem idle_factory_resets {C} (same : C -> C -> bool) es s k d b :
  runs same es s -> calls s = ∅ -> (forall g y, generations s !! g = Some y -> tokens y = ∅) ->
  match installed s with
  | None => forall g y, generations s !! g = Some y -> opened y = false
  | Some m => exists x s', managers s !! m = Some x /\
      execs same [ECall k (loop x) Reset; EEnter k; ELock k d; EClose k (Ok tt) b false] s = Some s' /\
      installed s' = None /\ (forall g y, generations s' !! g = Some y -> opened y = false)
  end.
Proof.
  intros H Hc Ht. pose proof (execs_inv same es new_factory s inv_new H) as I. destruct (installed s) as [m|] eqn:Hin.
  - destruct (i_installed _ _ I m Hin) as [x Hm]. destruct (idle_manager s m x I Hc Hm) as (_ & _ & Hu).
    destruct (i_inuse _ _ I m x Hin Hm) as [Hne|Hne]; [done|]. destruct (generation x) as [g|] eqn:Hg; [|done].
    destruct (i_owner _ _ I m x g Hm Hg) as [_ [y Hy]].
    destruct (reset_idle same s m x g y k d b I Hc Hin Hm Hg Hy (Ht g y Hy)) as (s' & Hs & Hn). exists x, s'. repeat split; try done.
    intros g0 z Hz. by apply (unleased_shut s' g0 z (execs_inv same _ s s' I Hs)).
  - intros g y Hy. by apply (unleased_shut s g y I).
Qed.

(** A start that fails with its clean-up *)
Definition failed_start : list (event (C:=nat)) :=
  [ECall 0 7 (Acquire (Some 3)); EEnter 0; ELock 0 (Ok 5); EInit 0 (Err SqliteError) true; ECleanup 0 (Err SqliteError) true].

Lemma idle_factory_resets_witness :
  exists s : Factory nat, existsb (fun y : nat * Generation nat => opened y.2) (map_to_list (generations s)) = true /\ exists s', 
      execs Nat.eqb [ECall 1 7 Reset; EEnter 1; ELock 1 (Ok 5); EClose 1 (Ok tt) false false] s = Some s' /\
      installed s' = None /\ (forall g y, generations s' !! g = Some y -> opened y = false).
Proof.
  destruct (execs Nat.eqb failed_start new_factory) as [s|] eqn:E; [|vm_compute in E; discriminate].
  pose proof (idle_factory_resets Nat.eqb failed_start s 1 (Ok 5) false E) as T. vm_compute in E. injection E as E.
  exists s. split; [by rewrite <- E|].
  assert (Hc : calls s = ∅) by by rewrite <- E.
  assert (Ht : forall g y, generations s !! g = Some y -> tokens y = ∅).
  { intros g y. rewrite <- E. cbn [generations]. intros Hy. apply elem_of_map_to_list in Hy. vm_compute in Hy.
    apply list_elem_of_singleton in Hy. by injection Hy as _ ->. }
  specialize (T Hc Ht). rewrite <- E in T. cbn [installed] in T. destruct T as (x & s' & Hm & T). vm_compute in Hm. injection Hm as <-.
  exists s'. rewrite <- E. exact T.
Defined.

(** The last release closes the lattice and lets the manager go. *)
Example last_release_closes :
  match execs Nat.eqb (two_leases ++ [ECall 3 7 (Release (mk_Lease 0 1 3)); EEnter 3; ELock 3 (Ok 5); EClose 3 (Ok tt) false false]) new_factory with
  | Some s => installed s = None /\ map (fun y : nat * Generation nat => opened y.2) (map_to_list (generations s)) = [false]
  | None => False
  end.
Proof. by vm_compute. Qed.
